(* ===== verification/_CoqProject ===== *)
-Q . S2P
Prelude.v
wrapping_integers.v
byte_stream.v
std_map.v
stream_reassembler.v
buffer.v
parser.v
util.v
random_generator.v
address.v
ostream.v
hexdump.v
system.v
file_descriptor.v
stream_pump.v
eventloop.v
tcp_header.v
tcp_segment.v
ipv4.v
ethernet.v
wire_types.v
header_text.v
socket.v
bouncer.v
tcp_config.v
options.v
udp_tcpdump.v
tcp_receiver.v
tcp_sender.v
tcp_transfer.v
tcp_progress.v
tcp_state.v
tcp_connection.v
tcp_link.v
network_interface.v
router.v
network_simulator.v
adapters.v
frame_summary.v
bidirectional_stream_copy.v
tcp_sponge_socket.v
socket_link.v
lab7.v
lab7_network.v
lab7_traffic.v
webget.v
programs.v
doctests.v
tun.v
tcp_benchmark.v
tcp_reaction.v
tcp_completion.v
