(* ===== verification/Prelude.v ===== *)
(** * Sponge: a verified model of the CS144 user-space TCP/IP stack

    Sponge (src/lab) is a TCP/IP stack in user space: a library, src/lab/libsponge, with
    TCP, IPv4, Ethernet with ARP, a router, an event loop and a socket class, and
    programs, src/lab/apps, on top of it.  This development models the library and
    the programs as Rocq functions and proves what makes them correct.

    ** The parts and how they interact

    Bytes that an application writes go into a [ByteStream]; a [TCPSender] cuts them into
    segments within the peer's window and retransmits on a timer; a [TCPReceiver]
    gives arriving segments to a [StreamReassembler], which writes into another
    [ByteStream].  [TCPConnection] joins a sender and a receiver.  [TCPSpongeSocket]
    runs a connection in an event loop over an adapter, which wraps segments in IPv4
    datagrams, Ethernet frames or UDP payloads for a device.  [NetworkInterface] resolves
    next hops by ARP, and [Router] forwards datagrams between interfaces.

    ** Files and sources

    Every file is named after the source file it models; modules have the names of the classes,
    and definitions those of the methods.

    - Prelude: results, machine integers, byte encodings, list lemmas, tactics.
    - wrapping_integers, byte_stream, std_map ([std::map] as the sources use it),
      stream_reassembler, tcp_receiver, tcp_sender, tcp_connection, network_interface,
      router: src/lab/libsponge/*.{hh,cc}.
    - buffer, parser, util with random_generator and hexdump (all of util.cc), system (errno
      and system calls), file_descriptor, eventloop, address, socket (with tun.cc of the
      library): src/lab/libsponge/util.  ostream is the part of [std::ostream] that the sources use.
    - tcp_header, tcp_segment, ipv4, ethernet (headers, frames, ARP messages) with header_text
      (their to_string and summary), tcp_config, tcp_state, adapters (fd_adapter,
      tuntap_adapter, lossy_fd_adapter, tcp_over_ip), tcp_sponge_socket: src/lab/libsponge/tcp_helpers.
    - stream_pump and bidirectional_stream_copy, bouncer, options (command lines of tcp_ipv4, tcp_udp,
      tcp_ip_ethernet, tcp_native), udp_tcpdump, network_simulator, frame_summary (the texts of frames in
      network_simulator and lab7), lab7, webget, programs (the main functions), tun,
      tcp_benchmark: src/lab/apps.
    - doctests: src/lab/doctests, the examples of the documentation.
    - wire_types, lab7_network, lab7_traffic, tcp_transfer, tcp_progress, tcp_link, socket_link, tcp_reaction and tcp_completion have
      no source of their own: wire_types collects what the parsers produce; lab7_network connects the two programs of lab7
      and follows the first segment, and lab7_traffic lets both sockets write, threads move frames and time pass in any order;
      tcp_transfer, tcp_progress, tcp_link and socket_link put senders, receivers, connections and sockets on a network
      that loses, duplicates and reorders; tcp_reaction says what one connection does with a batch of segments, a write, a
      read and a tick, and tcp_completion follows the two connections of the benchmark round by round until both are closed.

    ** How the code is modelled

    A method is a function from the object, as a record of its fields, to the new
    object and its result.  An operation that can throw, or whose behaviour the language
    leaves undefined, returns in the type [result] below, and the reason is kept.
    Integers are [Z], wrapped to their width where the code stores or computes them
    ([uint8] to [uint64]).  Queues, vectors and strings are lists; a [map] is a
    sorted association list where its iterators matter, and a [gmap] otherwise.  Shared
    read-only storage ([Buffer]) is a value.  A callback is a function on the client's
    state, so that rules which share objects do share them.

    What is not under src is a parameter.  The kernel is the class [Kernel] (system); its
    documented behaviour is [StreamLedger] (bytes read and written are
    accounted for) and [HealthyKernel] (calls do not fail), and [Machine] is an instance of all
    three.  Name resolution is the class [Resolver] (address), with [NumericResolver] for
    numeric addresses and [DottedQuad] as an instance.  Sources of randomness, the clock, what a
    device or libpcap delivers, and the result of a shift by the width of a type are
    arguments.  The Mersenne twister and [seed_seq] of the standard library are written out
    (random_generator); the state of an output stream is a value ([Ostream]).

    A program with two threads is seen from its main thread in programs: what the other
    does to the kernel is the class [Threads].  In socket_link the threads themselves take steps, in any
    order: one callback of one rule, a tick, an abort, the end of the thread, or
    anything that the application and the kernel do at their end of the stream socket; [main_reach] shows that a run of
    [_tcp_main] is such a sequence of steps.

    ** Fuel

    A loop that is not structural has fuel.  Loops of the library are given enough fuel by their
    callers, computed from the state (as many rounds as entries in a map, bytes in a
    buffer or a window, segments in a queue), and lemmas show that they never run out:
    the theorems say that a call returns.  The loops of programs that run as long as the
    outside world wants (event loops, captures, transfers) take the number of rounds, or the
    list of what they read, as an argument, and theorems hold for every number.  The benchmark's loops, which end by
    themselves, have a bound: [benchmark_completes].

    ** What the theorems show

    - TCP: [link_delivers_prefix] and [clean_close_is_complete] are the promises of a
      connection over a faulty network, also after a reset; [applications_agree] carries them through the
      threads of two sockets to the applications; [transfer_is_prefix] and [transfer_is_reliable] are
      those of one sender and one receiver, and [transfer_completes] says that these finish once
      the network behaves; [benchmark_completes] says so of two whole connections, from the simultaneous SYNs to the clean close of
      both, with a bound on the number of rounds; [retransmission_limit] is the way a dead connection ends.  Below
      them are the invariants and exact behaviours of reassembler, receiver and sender, the refinement of a first-in-first-out queue by the
      ring buffer of [ByteStream], and the correctness of sequence number arithmetic.
    - IP and Ethernet: [longest_prefix_match] refines a specification of routing;
      [arp_resolution], [interface_invariant]; round trips of all message formats,
      detection of damage by the checksum, and [parsers_keep_types] on arbitrary bytes.
    - Sockets and programs: adapters deliver what is written to exactly the configured
      peer; the copy between streams loses nothing; the rules of the socket relay bytes and
      never spin; [tcp_in_ip_demultiplex] and [listener_accepts_syn] say which segments an adapter accepts;
      [webget_prints_response]; [ipv4_command_line]; [native_relays_all] (the copy of tcp_native).
    - Texts: [hexdump_shows], [header_texts_show_fields] and [summaries_describe] say that what is printed
      determines what was printed; [tun_reports] and [capture_prints] give the whole
      output of the packet dumps; [documentation_examples] runs the examples; [generator_conforms] checks the generator on
      the number that the C++ standard prescribes.
    - Whole systems: [datagram_reaches_host] (the network simulator, between any two of its six hosts),
      [benchmark_completes] (two connections back to back), [lab7_conversation] (TCP segments in both directions through two
      routers, from empty ARP caches on: the first segment alone, since a second one would be dropped while addresses are being
      resolved, then any interleaving for less than the 30 s after which a mapping expires and [tick] is
      undefined); [lab7_end_to_end] is one segment with known addresses.
    - Defects: [tick_expiry_undefined], [malformed_header_stops_router],
      [closed_without_fin], [stale_ack_closes_window], [default_route_undefined],
      [capacity_not_enforced], [straddling_blocks_window], [write_after_end], [unwrap_is_closest] (its last part),
      [ipv4_command_line] (the host of a server), [packet_bounds], [capture_prints], [incorrect_segment_unread],
      [usage_divergences], [lab7_hides_failure] prove where the code departs from what it means to do.

    ** Interfaces

    [FdAdapter] and [SegmentLink] (adapters) state what an adapter promises to its
    clients; [lossy_exchange_subsequence] is proved against them, and the three
    adapters are instances.  [Device] (tcp_sponge_socket) is what a socket needs of the
    descriptor under its adapter.

    ** Not modelled

    Lines of progress and debugging on [cerr] (the event loop's, the socket's, the simulator's and lab7's), the
    destructor of a socket when an exception leaves a main function, and the
    messages in exceptions ([e.what()] is a parameter of the programs); the reference counts of
    descriptors, and their closing at the end of a process; data races; strtof; libpcap; the measurement of time
    in the benchmark; the tests.  src/lab/bulid holds generated files. *)

From Stdlib Require Export ZArith Lia.
From Stdlib Require Export Init.Byte.
From Stdlib Require Strings.Byte Strings.String.
From stdpp Require Export base tactics numbers list list_numbers.

#[global] Open Scope Z_scope.

(** ** Results: values, exceptions and undefined behaviour

    A C++ call returns a value, throws, or has undefined behaviour.  The model
    keeps the three apart: [Ok a], [Throw f] with the reason [f].  The faults
    below are the ones the sources can produce. *)

Inductive fault :=
| DivideByZero          (* x % 0: undefined behaviour *)
| OutOfBounds           (* operator[] past the end: undefined behaviour *)
| EmptyQueue            (* front()/back() of an empty queue: undefined behaviour *)
| IteratorInvalidated   (* advancing an iterator to an erased element: undefined behaviour *)
| ShiftTooWide          (* shift by at least the width of the type: undefined behaviour *)
| out_of_range          (* std::out_of_range *)
| runtime_error         (* std::runtime_error *)
| invalid_argument      (* std::invalid_argument *)
| length_error          (* std::length_error *)
| unix_error (errno : Z) (* unix_error, a std::system_error with the value of errno *)
| SignedOverflow        (* an int past its range: undefined behaviour *)
| DanglingPointer       (* an object used after its end: undefined behaviour *)
| OutOfFuel.            (* not a C++ outcome: the bound of a loop was too small *)

Inductive result (A : Type) :=
| Ok (a : A)
| Throw (f : fault).
Arguments Ok {A} _.
Arguments Throw {A} _.

#[global] Instance result_ret : MRet result := λ A a, Ok a.
#[global] Instance result_bind : MBind result := λ A B k m,
  match m with Ok a => k a | Throw f => Throw f end.

#[global] Instance fault_eq_dec : EqDecision fault.
Proof. solve_decision. Defined.

Definition is_ok {A} (m : result A) : bool :=
  match m with Ok _ => true | Throw _ => false end.

Lemma result_bind_ok {A B} (a : A) (k : A → result B) : Ok a ≫= k = k a.
Proof. reflexivity. Qed.

Lemma result_bind_inv {A B} (m : result A) (k : A → result B) b :
  m ≫= k = Ok b → ∃ a, m = Ok a ∧ k a = Ok b.
Proof. destruct m; [eauto | discriminate]. Qed.

(** [guard_ok b f]: continue when [b], otherwise stop with [f]. *)
Definition guard_ok (b : bool) (f : fault) : result unit :=
  if b then Ok tt else Throw f.

(** ** The end of a program *)

Definition EXIT_SUCCESS : Z := 0.
Definition EXIT_FAILURE : Z := 1.

(** The faults that [catch (const exception &)] catches; the others are undefined behaviour. *)
Definition is_exception (f : fault) : bool :=
  match f with
  | out_of_range | runtime_error | invalid_argument | length_error | unix_error _ => true
  | _ => false
  end.

(** The status of a [main] that runs [r] in a [try] block and returns EXIT_FAILURE from the handler. *)
Definition status_of {A} (r : result A) : result Z :=
  match r with
  | Ok _ => Ok EXIT_SUCCESS
  | Throw f => if is_exception f then Ok EXIT_FAILURE else Throw f
  end.

(** ** Fixed-width unsigned integers

    A [uintN_t] is a [Z] in range; [uintN] is the conversion to the type, so
    that [uint64 (a + b)] is the C++ sum of two [uint64_t] values. [size_t]
    and [unsigned long] have 64 bits, [unsigned] has 32. *)

Abbreviation two8 := 256 (only parsing).
Abbreviation two16 := 65536 (only parsing).
Abbreviation two32 := 4294967296 (only parsing).
Abbreviation two64 := 18446744073709551616 (only parsing).

(** The largest size of a string or other object, [PTRDIFF_MAX]. *)
Abbreviation max_string := 9223372036854775807 (only parsing).

Definition uint8 (z : Z) : Z := z mod two8.
Definition uint16 (z : Z) : Z := z mod two16.
Definition uint32 (z : Z) : Z := z mod two32.
Definition uint64 (z : Z) : Z := z mod two64.

(** Conversion of an unsigned 32-bit value to [int32_t]. *)
Definition int32 (z : Z) : Z :=
  let u := uint32 z in if u <? 2147483648 then u else u - two32.

Definition bool_to_Z (b : bool) : Z := if b then 1 else 0.

Lemma uint8_id z : 0 <= z < two8 → uint8 z = z.
Proof. apply Z.mod_small. Qed.
Lemma uint16_id z : 0 <= z < two16 → uint16 z = z.
Proof. apply Z.mod_small. Qed.
Lemma uint32_id z : 0 <= z < two32 → uint32 z = z.
Proof. apply Z.mod_small. Qed.
Lemma uint64_id z : 0 <= z < two64 → uint64 z = z.
Proof. apply Z.mod_small. Qed.

Lemma uint8_range z : 0 <= uint8 z < two8.
Proof. apply Z.mod_pos_bound; lia. Qed.
Lemma uint16_range z : 0 <= uint16 z < two16.
Proof. apply Z.mod_pos_bound; lia. Qed.
Lemma uint32_range z : 0 <= uint32 z < two32.
Proof. apply Z.mod_pos_bound; lia. Qed.
Lemma uint64_range z : 0 <= uint64 z < two64.
Proof. apply Z.mod_pos_bound; lia. Qed.

(** A counter has changed after one or two increments. *)
Lemma uint32_next z : uint32 (z + 1) ≠ z ∧ uint32 (uint32 (z + 1) + 1) ≠ z.
Proof. unfold uint32. pose proof (Z.mod_pos_bound (z + 1) two32 ltac:(lia)). rewrite Zplus_mod_idemp_l.
  pose proof (Z.div_mod (z + 1) two32 ltac:(lia)). pose proof (Z.div_mod (z + 1 + 1) two32 ltac:(lia)).
  lia.
Qed.

Lemma bool_to_Z_range b : 0 <= bool_to_Z b <= 1.
Proof. destruct b; simpl; lia. Qed.

(** [word_simpl] removes the conversions whose argument is already in range;
    [word_lia] does so and closes the goal. *)
Ltac word_simpl :=
  repeat match goal with
  | |- context [uint64 ?z] => rewrite (uint64_id z) by lia
  | |- context [uint32 ?z] => rewrite (uint32_id z) by lia
  | |- context [uint16 ?z] => rewrite (uint16_id z) by lia
  | |- context [uint8 ?z] => rewrite (uint8_id z) by lia
  end.

Ltac word_simpl_in H :=
  repeat match type of H with
  | context [uint64 ?z] => rewrite (uint64_id z) in H by lia
  | context [uint32 ?z] => rewrite (uint32_id z) in H by lia
  | context [uint16 ?z] => rewrite (uint16_id z) in H by lia
  | context [uint8 ?z] => rewrite (uint8_id z) in H by lia
  end.

Ltac word_lia := word_simpl; lia.

(** Case analysis on the Boolean tests of the code, each turned into the
    proposition it decides. *)
Ltac case_test :=
  match goal with
  | |- context [?x =? ?y] => destruct (Z.eqb_spec x y)
  | |- context [?x <? ?y] => destruct (Z.ltb_spec x y)
  | |- context [?x <=? ?y] => destruct (Z.leb_spec x y)
  end.

(** ** Bytes and byte strings

    [std::string] used as a byte container is a [list byte]. *)

Abbreviation bytes := (list byte).

#[global] Instance byte_eq_dec : EqDecision byte := Byte.byte_eq_dec.

(** The value of a byte as a [uint8_t], and the byte with a given value. *)
Definition byte_val (b : byte) : Z := Z.of_N (Byte.to_N b).
Definition byte_of (z : Z) : byte :=
  match Byte.of_N (Z.to_N (uint8 z)) with Some b => b | None => x00 end.

Lemma byte_val_range b : 0 <= byte_val b < two8.
Proof. unfold byte_val. pose proof (Byte.to_N_bounded b). lia. Qed.

Lemma byte_val_of z : byte_val (byte_of z) = uint8 z.
Proof.
  unfold byte_val, byte_of. pose proof (uint8_range z) as Hr.
  destruct (Byte.of_N (Z.to_N (uint8 z))) as [b|] eqn:E.
  - apply Byte.to_of_N in E. rewrite E. lia.
  - apply Byte.of_N_None_iff in E. lia.
Qed.

Lemma byte_of_val b : byte_of (byte_val b) = b.
Proof.
  unfold byte_of. rewrite uint8_id by apply byte_val_range.
  unfold byte_val. rewrite N2Z.id, Byte.of_to_N. reflexivity.
Qed.

(** The characters of a literal. *)
Definition text (s : String.string) : list byte := String.list_byte_of_string s.

Lemma byte_val_inj b1 b2 : byte_val b1 = byte_val b2 → b1 = b2.
Proof. intros E. rewrite <- (byte_of_val b1), <- (byte_of_val b2), E. reflexivity. Qed.

(** ** Sizes and substrings *)

(** [size()] of a string or container. *)
Definition len {A} (l : list A) : Z := Z.of_nat (length l).

Lemma len_nonneg {A} (l : list A) : 0 <= len l.
Proof. unfold len; lia. Qed.
Lemma len_nil {A} : len (@nil A) = 0.
Proof. reflexivity. Qed.
Lemma len_cons {A} (x : A) l : len (x :: l) = len l + 1.
Proof. unfold len; simpl; lia. Qed.
Lemma len_app {A} (l1 l2 : list A) : len (l1 ++ l2) = len l1 + len l2.
Proof. unfold len; rewrite length_app; lia. Qed.
Lemma len_0_nil {A} (l : list A) : len l = 0 → l = [].
Proof. destruct l; [done | unfold len; simpl; lia]. Qed.

(** Prefix and suffix by a [size_t] count. *)
Definition ztake {A} (n : Z) (l : list A) : list A := take (Z.to_nat n) l.
Definition zdrop {A} (n : Z) (l : list A) : list A := drop (Z.to_nat n) l.

Lemma len_ztake {A} n (l : list A) : 0 <= n → len (ztake n l) = Z.min n (len l).
Proof. unfold len, ztake. rewrite length_take. lia. Qed.
Lemma len_zdrop {A} n (l : list A) : 0 <= n → len (zdrop n l) = Z.max 0 (len l - n).
Proof. unfold len, zdrop. rewrite length_drop. lia. Qed.
Lemma ztake_0 {A} (l : list A) : ztake 0 l = [].
Proof. reflexivity. Qed.
Lemma zdrop_0 {A} (l : list A) : zdrop 0 l = l.
Proof. reflexivity. Qed.
Lemma ztake_ge {A} n (l : list A) : len l <= n → ztake n l = l.
Proof. unfold len, ztake. intros. apply take_ge. lia. Qed.
Lemma zdrop_ge {A} n (l : list A) : len l <= n → zdrop n l = [].
Proof. unfold len, zdrop. intros. apply drop_ge. lia. Qed.
Lemma ztake_zdrop {A} n (l : list A) : ztake n l ++ zdrop n l = l.
Proof. apply take_drop. Qed.
Lemma zdrop_zdrop {A} n m (l : list A) :
  0 <= n → 0 <= m → zdrop n (zdrop m l) = zdrop (m + n) l.
Proof. unfold zdrop. intros. rewrite drop_drop. f_equal. lia. Qed.
Lemma ztake_app_le {A} n (l1 l2 : list A) :
  n <= len l1 → ztake n (l1 ++ l2) = ztake n l1.
Proof. unfold ztake, len. intros. apply take_app_le. lia. Qed.
Lemma zdrop_app_le {A} n (l1 l2 : list A) :
  n <= len l1 → zdrop n (l1 ++ l2) = zdrop n l1 ++ l2.
Proof. unfold zdrop, len. intros. apply drop_app_le. lia. Qed.
Lemma ztake_app {A} (l1 l2 : list A) : ztake (len l1) (l1 ++ l2) = l1.
Proof. unfold ztake, len. rewrite Nat2Z.id. apply take_app_length. Qed.
Lemma zdrop_app {A} (l1 l2 : list A) : zdrop (len l1) (l1 ++ l2) = l2.
Proof. unfold zdrop, len. rewrite Nat2Z.id. apply drop_app_length. Qed.
Lemma ztake_nil {A} n : ztake n (@nil A) = [].
Proof. apply take_nil. Qed.
Lemma zdrop_nil {A} n : zdrop n (@nil A) = [].
Proof. apply drop_nil. Qed.

(** [std::string::substr(pos)] throws when [pos > size()]. *)
Definition substr {A} (s : list A) (pos : Z) : result (list A) :=
  if len s <? pos then Throw out_of_range else Ok (zdrop pos s).

Lemma substr_ok {A} (s : list A) pos : 0 <= pos <= len s → substr s pos = Ok (zdrop pos s).
Proof. unfold substr. case_test; [lia | done]. Qed.

(** [std::string::resize]: truncates, or pads with NUL characters. *)
Definition resize (s : list byte) (n : Z) : list byte :=
  ztake n s ++ replicate (Z.to_nat (n - len s)) x00.

Lemma resize_pad s n : len s <= n → resize s n = s ++ replicate (Z.to_nat (n - len s)) x00.
Proof. intros. unfold resize. by rewrite ztake_ge. Qed.

Lemma len_replicate {A} n (x : A) : 0 <= n → len (replicate (Z.to_nat n) x) = n.
Proof. intros. unfold len. rewrite length_replicate. lia. Qed.

(** [x % y] on unsigned values: undefined for a zero divisor. *)
Definition umod (x y : Z) : result Z :=
  if y =? 0 then Throw DivideByZero else Ok (x mod y).

(** Reading and writing an element through an unchecked index. *)
Definition at_index {A} (l : list A) (i : Z) : result A :=
  match l !! Z.to_nat i with Some x => Ok x | None => Throw OutOfBounds end.
Definition store {A} (l : list A) (i : Z) (x : A) : result (list A) :=
  if i <? len l then Ok (<[Z.to_nat i := x]> l) else Throw OutOfBounds.

Lemma store_ok {A} (l : list A) i x :
  0 <= i < len l → store l i x = Ok (<[Z.to_nat i := x]> l).
Proof. unfold store. case_test; [done | lia]. Qed.

Lemma umod_ok x y : 0 < y → umod x y = Ok (x mod y).
Proof. unfold umod. case_test; [lia | done]. Qed.

(** ** Windows of an infinite stream

    [slice S a n] is the [n] bytes of the stream [S] from position [a]. *)

Definition slice {A} (S : Z → A) (a n : Z) : list A := S <$> seqZ a n.

Lemma len_slice {A} (S : Z → A) a n : 0 <= n → len (slice S a n) = n.
Proof. unfold len, slice. rewrite length_fmap, length_seqZ. lia. Qed.

Lemma slice_nil {A} (S : Z → A) a n : n <= 0 → slice S a n = [].
Proof. intros. unfold slice. rewrite seqZ_nil by lia. reflexivity. Qed.

Lemma slice_app {A} (S : Z → A) a n m :
  0 <= n → 0 <= m → slice S a (n + m) = slice S a n ++ slice S (a + n) m.
Proof. intros. unfold slice. rewrite seqZ_app, fmap_app by lia. reflexivity. Qed.

Lemma slice_cons {A} (S : Z → A) a n :
  0 < n → slice S a n = S a :: slice S (a + 1) (n - 1).
Proof.
  intros. unfold slice. rewrite seqZ_cons by lia. simpl.
  replace (Z.succ a) with (a + 1) by lia. replace (Z.pred n) with (n - 1) by lia.
  reflexivity.
Qed.

Lemma zdrop_slice {A} (S : Z → A) a n k :
  0 <= k → zdrop k (slice S a n) = slice S (a + k) (n - k).
Proof.
  intros. destruct (Z_le_gt_dec k n).
  - replace n with (k + (n - k)) at 1 by lia. rewrite slice_app by lia.
    rewrite <- (len_slice S a k) at 1 by lia. apply zdrop_app.
  - destruct (Z_le_gt_dec 0 n).
    + rewrite zdrop_ge by (rewrite len_slice; lia). rewrite slice_nil by lia. done.
    + rewrite !slice_nil by lia. apply zdrop_nil.
Qed.

Lemma ztake_slice {A} (S : Z → A) a n k :
  0 <= k → ztake k (slice S a n) = slice S a (Z.min k n).
Proof.
  intros. destruct (Z_le_gt_dec k n).
  - replace n with (k + (n - k)) at 1 by lia. rewrite slice_app by lia.
    rewrite <- (len_slice S a k) at 1 by lia. rewrite ztake_app.
    f_equal. lia.
  - rewrite Z.min_r by lia. destruct (Z_le_gt_dec 0 n).
    + apply ztake_ge. rewrite len_slice; lia.
    + rewrite !slice_nil by lia. apply ztake_nil.
Qed.

(** The slices of a list. *)
Lemma slice_nth {A} (x : A) (data : list A) a n : 0 <= a → 0 <= n → a + n <= len data →
  slice (λ i, nth (Z.to_nat i) data x) a n = ztake n (zdrop a data).
Proof.
  intros Ha Hn Hl. apply list_eq. intros i. unfold slice, ztake, zdrop.
  rewrite list_lookup_fmap. destruct (decide (Z.of_nat i < n)) as [Hi|Hi].
  - rewrite lookup_seqZ_lt, lookup_take_lt, lookup_drop by lia. simpl.
    destruct (data !! (Z.to_nat a + i)%nat) as [b|] eqn:E.
    + rewrite (nth_lookup_Some _ _ _ b); [done|]. by rewrite Z2Nat.inj_add, Nat2Z.id by lia.
    + apply lookup_ge_None in E. unfold len in Hl. lia.
  - rewrite lookup_seqZ_ge by lia. rewrite lookup_take_ge by lia. done.
Qed.

Lemma slice_ext {A} (S1 S2 : Z → A) a n :
  (∀ i, a <= i < a + n → S1 i = S2 i) → slice S1 a n = slice S2 a n.
Proof.
  intros H. apply list_fmap_ext. intros i x Hx.
  apply lookup_seqZ in Hx as [-> Hi]. apply H. lia.
Qed.

Lemma filter_all {A} (P : A → Prop) `{!∀ x, Decision (P x)} (l : list A) : Forall P l → filter P l = l.
Proof.
  induction 1 as [|x l Hx _ IH]; [done|]. rewrite filter_cons, decide_True by done. by rewrite IH.
Qed.

Lemma Forall_sublist {A} (P : A → Prop) (l1 l2 : list A) : sublist l1 l2 → Forall P l2 → Forall P l1.
Proof. rewrite !Forall_forall. intros Hs HP x Hx. by eapply HP, elem_of_sublist. Qed.

Create HintDb sponge.
Create Rewrite HintDb len.
#[export] Hint Rewrite @len_nil @len_cons @len_app : len.
#[export] Hint Resolve len_nonneg byte_val_range : sponge.
