(* ===== verification/wrapping_integers.v ===== *)
(** * Wrapping sequence numbers (src/lab/libsponge/wrapping_integers.hh, .cc)

    32-bit sequence numbers relative to an initial sequence number, and the
    conversions between them and 64-bit absolute sequence numbers.  The
    theorems show that [unwrap] inverts [wrap], and that among all absolute
    numbers that wrap to the same value it returns one closest to the
    checkpoint, cut to 64 bits, which matters only for checkpoints above
    [2^64 - 2^31]. *)

From S2P Require Import Prelude.

Module WrappingInt32.

(** The class: a [uint32_t] behind an explicit constructor. *)
Record t := mk { raw_value : Z }.

#[global] Instance WrappingInt32_eq_dec : EqDecision t.
Proof. solve_decision. Defined.

(** The stored value is a [uint32_t]. *)
Definition valid (a : t) : Prop := 0 <= raw_value a < two32.

(** [wrap(n, isn)]. *)
Definition wrap (n : Z) (isn : t) : t :=
  let ret := raw_value isn in
  mk (uint32 (uint64 (ret + n))).

(** [unwrap(n, isn, checkpoint)]; [1ul<<32] is [two32]. *)
Definition unwrap (n isn : t) (checkpoint : Z) : Z :=
  let num := uint64 (raw_value n - raw_value isn) in
  let num := Z.land num 0xffffffff in
  let base := uint64 (Z.shiftl (Z.shiftr checkpoint 32) 32) in
  let ret := uint64 (base + num) in
  if checkpoint <? ret then
    if (0xffffffff <? ret) &&
       (uint64 (uint64 (checkpoint - ret) + two32) <? uint64 (ret - checkpoint))
    then uint64 (ret - two32)
    else ret
  else
    if uint64 (uint64 (ret + two32) - checkpoint) <? uint64 (checkpoint - ret)
    then uint64 (ret + two32)
    else ret.

(** [operator-(WrappingInt32, WrappingInt32)]: a signed 32-bit distance. *)
Definition sub (a b : t) : Z := int32 (uint32 (raw_value a - raw_value b)).

(** [operator==], [operator!=]. *)
Definition eqb (a b : t) : bool := raw_value a =? raw_value b.
Definition neqb (a b : t) : bool := negb (eqb a b).

(** [operator+(WrappingInt32, uint32_t)] and [operator-(WrappingInt32, uint32_t)];
    the latter adds the unsigned negation of its argument. *)
Definition add (a : t) (b : Z) : t := mk (uint32 (raw_value a + b)).
Definition sub_u32 (a : t) (b : Z) : t := add a (uint32 (- b)).

(** ** Arithmetic facts *)

Lemma uint32_uint64 z : uint32 (uint64 z) = uint32 z.
Proof.
  unfold uint32, uint64. replace two64 with (two32 * two32) by lia.
  rewrite Z.rem_mul_r, (Z.mul_comm two32), Z.mod_add by lia.
  apply Z.mod_mod; lia.
Qed.

Lemma land_low32 z : Z.land z 0xffffffff = uint32 z.
Proof. exact (Z.land_ones z 32 ltac:(lia)). Qed.

Lemma base_floor c : 0 <= c < two64 →
  uint64 (Z.shiftl (Z.shiftr c 32) 32) = two32 * (c / two32).
Proof.
  intros. rewrite Z.shiftl_mul_pow2, Z.shiftr_div_pow2 by lia.
  change (2 ^ 32) with two32. rewrite uint64_id; Z.div_mod_to_equations; lia.
Qed.

Lemma wrap_raw n isn : raw_value (wrap n isn) = uint32 (raw_value isn + n).
Proof. unfold wrap; simpl. apply uint32_uint64. Qed.

Lemma valid_wrap n isn : valid (wrap n isn).
Proof. unfold valid. rewrite wrap_raw. apply uint32_range. Qed.

Lemma t_ext a b : raw_value a = raw_value b → a = b.
Proof. destruct a, b; simpl; congruence. Qed.

Lemma wrapping_eqb_eq a b : eqb a b = true ↔ a = b.
Proof.
  unfold eqb. rewrite Z.eqb_eq. split; [apply t_ext | congruence].
Qed.

(** The offset of [n] from [isn] and the block of the checkpoint determine the
    result: the shape of [unwrap] without machine arithmetic. *)
Definition unwrap_spec (off c : Z) : Z :=
  let r := two32 * (c / two32) + off in
  if c <? r then
    if (two32 <=? r) && (two32 <? 2 * (r - c)) then r - two32 else r
  else if two32 <? 2 * (c - r) then r + two32 else r.

Lemma unwrap_spec_bounds off c : 0 <= off < two32 → 0 <= c →
  0 <= unwrap_spec off c < c + two32 ∧ (2147483648 <= c → Z.abs (unwrap_spec off c - c) <= 2147483648).
Proof.
  intros Ho Hc. unfold unwrap_spec. cbv zeta.
  pose proof (Z.div_mod c two32 ltac:(lia)) as Hdc. pose proof (Z.mod_pos_bound c two32 ltac:(lia)).
  assert (0 <= c / two32) by (apply Z.div_pos; lia).
  destruct (Z.ltb_spec c (two32 * (c / two32) + off));
  destruct (Z.leb_spec two32 (two32 * (c / two32) + off)); simpl; repeat case_test; lia.
Qed.

(** For every checkpoint the code computes that number, modulo [2^64]. *)
Lemma unwrap_modulo n isn c :
  valid n → valid isn → 0 <= c < two64 →
  unwrap n isn c = uint64 (unwrap_spec (uint32 (raw_value n - raw_value isn)) c).
Proof.
  intros Hn Hi Hc. unfold unwrap. cbv zeta.
  rewrite land_low32, uint32_uint64, base_floor by lia.
  pose proof (uint32_range (raw_value n - raw_value isn)) as Ho.
  set (off := uint32 _) in *. clearbody off. unfold unwrap_spec.
  pose proof (Z.div_mod c two32 ltac:(lia)) as Hdm.
  pose proof (Z.mod_pos_bound c two32 ltac:(lia)) as Hm.
  set (r := two32 * (c / two32) + off).
  assert (0 <= r < two64) by (subst r; lia).
  rewrite (uint64_id r) by lia.
  destruct (Z.ltb_spec c r).
  - replace (uint64 (uint64 (c - r) + two32)) with (c - r + two32).
    2:{ symmetry. unfold uint64. rewrite Z.add_mod_idemp_l by lia.
        apply Z.mod_small. subst r. lia. }
    word_simpl.
    replace (0xffffffff <? r) with (two32 <=? r) by (repeat case_test; lia).
    replace (c - r + two32 <? r - c) with (two32 <? 2 * (r - c)) by (repeat case_test; lia).
    destruct (Z.leb_spec two32 r); simpl; [|by rewrite uint64_id by lia].
    case_test; by rewrite ?uint64_id by lia.
  - replace (uint64 (uint64 (r + two32) - c)) with (r + two32 - c).
    2:{ symmetry. unfold uint64. rewrite Zminus_mod_idemp_l by lia. apply Z.mod_small. subst r. lia. }
    rewrite (uint64_id (c - r)) by lia.
    replace (r + two32 - c <? c - r) with (two32 <? 2 * (c - r)) by (repeat case_test; lia).
    case_test; by rewrite ?(uint64_id r) by lia.
Qed.

Lemma unwrap_shape n isn c :
  valid n → valid isn → 0 <= c <= two64 - two32 →
  unwrap n isn c = unwrap_spec (uint32 (raw_value n - raw_value isn)) c.
Proof.
  intros Hn Hi Hc. rewrite unwrap_modulo by (done || lia). apply uint64_id.
  pose proof (unwrap_spec_bounds (uint32 (raw_value n - raw_value isn)) c (uint32_range _) ltac:(lia)). lia.
Qed.

Lemma wrap_offset m n isn :
  valid n → wrap m isn = n → uint32 (raw_value n - raw_value isn) = uint32 m.
Proof.
  intros Hn <-. rewrite wrap_raw. unfold uint32.
  rewrite Zminus_mod_idemp_l. f_equal. lia.
Qed.

Lemma wrap_of_congr m n isn :
  valid n → uint32 m = uint32 (raw_value n - raw_value isn) → wrap m isn = n.
Proof.
  intros Hn E. apply t_ext. rewrite wrap_raw.
  rewrite <- (uint32_id (raw_value n)) by exact Hn.
  unfold uint32 in *. rewrite <- Z.add_mod_idemp_r, E, Z.add_mod_idemp_r by lia.
  f_equal. lia.
Qed.

Lemma unwrap_spec_congr off c : 0 <= off < two32 → uint32 (unwrap_spec off c) = off.
Proof.
  intros. unfold unwrap_spec, uint32. cbv zeta.
  repeat case_match; Z.div_mod_to_equations; lia.
Qed.

Lemma unwrap_spec_closest off c m :
  0 <= off < two32 → 0 <= c → 0 <= m → uint32 m = off →
  Z.abs (unwrap_spec off c - c) <= Z.abs (m - c).
Proof.
  intros Ho Hc Hm E. unfold unwrap_spec. unfold uint32 in E. cbv zeta.
  pose proof (Z.div_mod m two32 ltac:(lia)) as Hdm.
  pose proof (Z.div_mod c two32 ltac:(lia)) as Hdc.
  pose proof (Z.mod_pos_bound c two32 ltac:(lia)).
  assert (0 <= m / two32) by (apply Z.div_pos; lia).
  assert (0 <= c / two32) by (apply Z.div_pos; lia).
  rewrite E in Hdm.
  destruct (Z.ltb_spec c (two32 * (c / two32) + off));
  destruct (Z.leb_spec two32 (two32 * (c / two32) + off)); simpl;
  repeat case_test; lia.
Qed.

Lemma unwrap_range n isn c :
  valid n → valid isn → 0 <= c < two64 - two32 → 0 <= unwrap n isn c < c + two32.
Proof.
  intros. rewrite unwrap_shape by (done || lia).
  apply unwrap_spec_bounds; [apply uint32_range | lia].
Qed.

(** The distance below which [unwrap] is exact. *)
Lemma unwrap_wrap_near m isn c :
  valid isn → 0 <= m → 0 <= c < two64 - two32 → Z.abs (m - c) < 2147483648 →
  unwrap (wrap m isn) isn c = m.
Proof.
  intros Hi Hm Hc Hd.
  rewrite unwrap_shape by (done || apply valid_wrap || lia).
  rewrite (wrap_offset m) by (done || apply valid_wrap).
  pose proof (uint32_range m) as Hr.
  pose proof (unwrap_spec_closest _ c m Hr ltac:(lia) Hm eq_refl) as Hcl.
  pose proof (unwrap_spec_congr _ c Hr) as Hcg.
  set (u := unwrap_spec (uint32 m) c) in *. clearbody u.
  unfold uint32 in Hcg.
  pose proof (Z.div_mod u two32 ltac:(lia)). pose proof (Z.div_mod m two32 ltac:(lia)).
  assert (u - m = two32 * (u / two32 - m / two32)) by lia.
  lia.
Qed.

(** ** Properties *)

(** Sequence numbers round-trip: [unwrap] gives back the absolute sequence
    number that was wrapped, for every checkpoint less than [2^31] away from it,
    and [wrap] gives a 32-bit value. *)
Theorem unwrap_wrap_roundtrip (m c : Z) (isn : t) :
  valid isn → 0 <= m → 0 <= c < two64 - two32 → Z.abs (m - c) < 2147483648 →
  unwrap (wrap m isn) isn c = m ∧ valid (wrap m isn).
Proof. intros. split; [by apply unwrap_wrap_near | apply valid_wrap]. Qed.

Lemma unwrap_wrap_roundtrip_witness :
  unwrap (wrap (3 * two32 - 7) (mk 4294967290)) (mk 4294967290) (3 * two32) = 3 * two32 - 7
  ∧ valid (wrap (3 * two32 - 7) (mk 4294967290)).
Proof. apply unwrap_wrap_roundtrip; unfold valid; simpl; lia. Defined.

(** C10: [unwrap] gives the closest absolute sequence number, for every checkpoint: there is a number [u] that wraps to
    [n] such that no other one is closer to the checkpoint, and the result is [u] in 64 bits.  It is [u] itself for checkpoints up
    to [2^64 - 2^31]; above that, [u] can be too large for 64 bits and the result wraps around to the other end, as
    the second part shows for the last checkpoint. *)
Theorem unwrap_is_closest (n isn : t) (c : Z) :
  valid n → valid isn → 0 <= c < two64 →
  (∃ u, 0 <= u ∧ wrap u isn = n ∧ (∀ m, 0 <= m → wrap m isn = n → Z.abs (u - c) <= Z.abs (m - c)) ∧
    unwrap n isn c = uint64 u ∧ wrap (unwrap n isn c) isn = n ∧ (c <= two64 - 2147483648 → unwrap n isn c = u)) ∧
  unwrap (mk 0) (mk 0) (two64 - 1) = 0.
Proof.
  intros Hn Hi Hc. pose proof (uint32_range (raw_value n - raw_value isn)) as Ho. split; [|done].
  set (u := unwrap_spec (uint32 (raw_value n - raw_value isn)) c).
  destruct (unwrap_spec_bounds _ c Ho ltac:(lia)) as [Hu Hnear]. fold u in Hu, Hnear.
  assert (uint32 u = uint32 (raw_value n - raw_value isn)) as Hcg by by apply unwrap_spec_congr.
  exists u. split; [lia|]. split; [by apply wrap_of_congr|]. split.
  { intros m Hm E. apply unwrap_spec_closest; [done | lia | done |]. symmetry. by apply wrap_offset. }
  rewrite unwrap_modulo by done. fold u. split; [done|]. split.
  - apply wrap_of_congr; [done|]. by rewrite uint32_uint64.
  - intros Hlim. destruct (Z_le_gt_dec two64 u) as [Hge|]; [|apply uint64_id; lia].
    exfalso. specialize (Hnear ltac:(lia)).
    assert (u = two64) as Eu by lia. assert (c = two64 - 2147483648) as Ec by lia.
    unfold u, unwrap_spec in Eu. rewrite Ec in Eu. change ((two64 - 2147483648) / two32) with 4294967295 in Eu.
    cbv zeta in Eu. repeat case_match; lia.
Qed.

Lemma unwrap_is_closest_witness :
  (∃ u, 0 <= u ∧ wrap u (mk 15) = mk 16 ∧ (∀ m, 0 <= m → wrap m (mk 15) = mk 16 → Z.abs (u - two32) <= Z.abs (m - two32)) ∧
    unwrap (mk 16) (mk 15) two32 = uint64 u ∧ wrap (unwrap (mk 16) (mk 15) two32) (mk 15) = mk 16 ∧
    (two32 <= two64 - 2147483648 → unwrap (mk 16) (mk 15) two32 = u)) ∧
  unwrap (mk 0) (mk 0) (two64 - 1) = 0.
Proof. apply unwrap_is_closest; unfold valid; simpl; lia. Defined.

End WrappingInt32.
