(* ===== verification/byte_stream.v ===== *)
(** * The flow-controlled byte stream (src/lab/libsponge/byte_stream.hh, .cc)

    [ByteStream] is a ring buffer with a writer and a reader side.  The model
    keeps the ring ([_buf], [_head], [_tail], [_sz]) and the 32-bit counters as
    the class does.  [Fifo] is the abstract queue the class implements;
    [run_refines] shows that every sequence of operations on the ring is
    a run of the queue with the same outputs, and [write_after_end] where the code departs
    from its comment. *)

From S2P Require Import Prelude.

Module ByteStream.

Record t := mk {
  _end_input : bool;
  _read_bytes : Z;      (* unsigned: 32 bits *)
  _write_bytes : Z;     (* unsigned: 32 bits *)
  _buf : bytes;
  _head : Z;
  _tail : Z;
  _sz : Z;
  _capacity : Z;
  _error : bool
}.

(** The constructor; [_buf] holds [capacity+1] copies of the digit zero. *)
Definition new (capacity : Z) : t := {|
  _end_input := false;
  _read_bytes := 0;
  _write_bytes := 0;
  _buf := replicate (Z.to_nat (uint64 (capacity + 1))) x30;
  _head := 0;
  _tail := 0;
  _sz := 0;
  _capacity := capacity;
  _error := false
|}.

(** Assignments to groups of members. *)
Definition set_ring (s : t) (buf : bytes) (head tail sz : Z) : t :=
  mk (_end_input s) (_read_bytes s) (_write_bytes s) buf head tail sz (_capacity s) (_error s).
Definition set_counts (s : t) (r w : Z) : t :=
  mk (_end_input s) r w (_buf s) (_head s) (_tail s) (_sz s) (_capacity s) (_error s).

(** The [while] loop of [write]: [data] is what remains of the argument from
    position [idx] on. *)
Fixpoint write_loop (s : t) (data : bytes) (idx : Z) : result (t * Z) :=
  match data with
  | [] => Ok (s, idx)
  | c :: rest =>
      if negb (_tail s =? _head s) || negb (_sz s =? _capacity s) then
        buf ← store (_buf s) (_tail s) c;
        tail ← umod (uint64 (_tail s + 1)) (_capacity s);
        write_loop (set_ring s buf (_head s) tail (uint64 (_sz s + 1))) rest (uint64 (idx + 1))
      else Ok (s, idx)
  end.

Definition write (s : t) (data : bytes) : result (t * Z) :=
  '(s, idx) ← write_loop s data 0;
  Ok (set_counts s (_read_bytes s) (uint32 (_write_bytes s + idx)), idx).

(** The [while(peek_len--)] loop. *)
Fixpoint peek_loop (s : t) (peek_len : nat) (idx : Z) (ret : bytes) : result bytes :=
  match peek_len with
  | O => Ok ret
  | S peek_len =>
      c ← at_index (_buf s) idx;
      idx ← umod (uint64 (idx + 1)) (_capacity s);
      peek_loop s peek_len idx (ret ++ [c])
  end.

Definition peek_output (s : t) (n : Z) : result bytes :=
  peek_loop s (Z.to_nat (Z.min n (_sz s))) (_head s) [].

Definition pop_output (s : t) (n : Z) : result t :=
  let sz := Z.min n (_sz s) in
  head ← umod (uint64 (_head s + sz)) (_capacity s);
  let s := set_ring s (_buf s) head (_tail s) (uint64 (_sz s - sz)) in
  Ok (set_counts s (uint32 (_read_bytes s + sz)) (_write_bytes s)).

(** The [while(read_len++ != sz)] loop. *)
Fixpoint read_loop (s : t) (todo : nat) (ret : bytes) : result (t * bytes) :=
  match todo with
  | O => Ok (s, ret)
  | S todo =>
      c ← at_index (_buf s) (_head s);
      head ← umod (uint64 (_head s + 1)) (_capacity s);
      read_loop (set_ring s (_buf s) head (_tail s) (_sz s)) todo (ret ++ [c])
  end.

Definition read (s : t) (n : Z) : result (t * bytes) :=
  let sz := Z.min n (_sz s) in
  '(s, ret) ← read_loop s (Z.to_nat sz) [];
  let s := set_ring s (_buf s) (_head s) (_tail s) (uint64 (_sz s - sz)) in
  Ok (set_counts s (uint32 (_read_bytes s + len ret)) (_write_bytes s), ret).

Definition end_input (s : t) : t :=
  mk true (_read_bytes s) (_write_bytes s) (_buf s) (_head s) (_tail s) (_sz s) (_capacity s) (_error s).
Definition set_error (s : t) : t :=
  mk (_end_input s) (_read_bytes s) (_write_bytes s) (_buf s) (_head s) (_tail s) (_sz s) (_capacity s) true.

Definition input_ended (s : t) : bool := _end_input s.
Definition error (s : t) : bool := _error s.
Definition buffer_size (s : t) : Z := _sz s.
Definition buffer_empty (s : t) : bool := _sz s =? 0.
Definition eof (s : t) : bool := _end_input s && (_sz s =? 0).
Definition bytes_written (s : t) : Z := _write_bytes s.
Definition bytes_read (s : t) : Z := _read_bytes s.
Definition remaining_capacity (s : t) : Z := uint64 (_capacity s - _sz s).

(** ** The ring as a sequence

    [ring buf cap h n]: the [n] bytes found from position [h] on, wrapping
    around after [cap]. *)

Definition cell (buf : bytes) (i : Z) : byte := nth (Z.to_nat i) buf x00.
Definition ring (buf : bytes) (cap h n : Z) : bytes :=
  slice (λ i, cell buf (i mod cap)) h n.

(** The unread bytes, oldest first. *)
Definition contents (s : t) : bytes := ring (_buf s) (_capacity s) (_head s) (_sz s).

Lemma ring_snoc buf cap h n : 0 <= n →
  ring buf cap h (n + 1) = ring buf cap h n ++ [cell buf ((h + n) mod cap)].
Proof.
  intros. unfold ring. rewrite slice_app by lia.
  rewrite (slice_cons _ (h + n)) by lia. by rewrite (slice_nil _ _ (1 - 1)) by lia.
Qed.

Lemma ring_cons buf cap h n : 0 < cap → 0 < n → 0 <= h < cap →
  ring buf cap h n = cell buf h :: ring buf cap ((h + 1) mod cap) (n - 1).
Proof.
  intros. unfold ring. rewrite slice_cons by lia. rewrite Z.mod_small by lia. f_equal.
  unfold slice. apply list_eq. intros i. rewrite !list_lookup_fmap.
  destruct (decide (Z.of_nat i < n - 1)).
  - rewrite !lookup_seqZ_lt by lia. simpl.
    rewrite Zplus_mod_idemp_l. do 3 f_equal; lia.
  - rewrite !lookup_seqZ_ge by lia. done.
Qed.

(** Storing just past the end of the ring leaves its contents alone. *)
Lemma ring_store buf cap h n x : 0 < cap → 0 <= n < cap → cap <= len buf →
  ring (<[Z.to_nat ((h + n) mod cap) := x]> buf) cap h n = ring buf cap h n.
Proof.
  intros Hc Hn Hb. apply slice_ext. intros i Hi. unfold cell.
  rewrite !nth_lookup. f_equal. apply list_lookup_insert_ne. intros E.
  apply Z2Nat.inj in E; [| apply Z.mod_pos_bound; lia ..].
  assert ((h + n - i) mod cap = 0) as E0.
  { rewrite Zminus_mod, E, Z.sub_diag. apply Z.mod_0_l. lia. }
  rewrite Z.mod_small in E0; lia.
Qed.

Lemma cell_store buf i x : 0 <= i < len buf → cell (<[Z.to_nat i := x]> buf) i = x.
Proof.
  intros. unfold cell. rewrite nth_lookup, list_lookup_insert_eq; [done|].
  unfold len in *. lia.
Qed.

Lemma at_index_cell buf i : 0 <= i < len buf → at_index buf i = Ok (cell buf i).
Proof.
  intros. unfold at_index, cell. rewrite nth_lookup.
  destruct (buf !! Z.to_nat i) eqn:E; [done|].
  apply lookup_ge_None in E. unfold len in *. lia.
Qed.

(** ** The class invariant

    [_buf] is a [std::string] of [capacity + 1] characters, whose size is
    bounded by [PTRDIFF_MAX]. *)

Record wf (s : t) : Prop := {
  wf_cap : 0 <= _capacity s < max_string;
  wf_buf : len (_buf s) = _capacity s + 1;
  wf_sz : 0 <= _sz s <= _capacity s;
  wf_head : 0 <= _head s < Z.max 1 (_capacity s);
  wf_tail : _tail s = (_head s + _sz s) mod _capacity s;
  wf_read : 0 <= _read_bytes s < two32;
  wf_write : 0 <= _write_bytes s < two32
}.

Lemma wf_cap0 s : wf s → _capacity s = 0 → _head s = 0 ∧ _tail s = 0 ∧ _sz s = 0.
Proof.
  intros [] E. rewrite E in *.
  assert (_sz s = 0) by lia. assert (_head s = 0) by lia.
  repeat split; try lia. rewrite wf_tail0. replace (_head s + _sz s) with 0 by lia. done.
Qed.

Lemma len_contents s : wf s → len (contents s) = _sz s.
Proof. intros []. unfold contents, ring. apply len_slice. lia. Qed.

Lemma wf_new cap : 0 <= cap < max_string → wf (new cap) ∧ contents (new cap) = [].
Proof.
  intros. split; [constructor; simpl; try lia|].
  - unfold len. rewrite length_replicate. rewrite uint64_id by lia. lia.
  - by rewrite Zmod_0_l.
  - unfold contents, ring; simpl. apply slice_nil. lia.
Qed.

(** The loop condition of [write] is "not full". *)
Lemma write_cond s : wf s →
  (negb (_tail s =? _head s) || negb (_sz s =? _capacity s)) = (_sz s <? _capacity s).
Proof.
  intros Hw. pose proof (wf_cap0 s Hw). destruct Hw.
  destruct (Z.ltb_spec (_sz s) (_capacity s)).
  - destruct (Z.eqb_spec (_sz s) (_capacity s)); [lia|]. apply orb_true_r.
  - assert (_sz s = _capacity s) as E by lia. rewrite E, Z.eqb_refl. simpl.
    rewrite orb_false_r, negb_false_iff, Z.eqb_eq.
    destruct (Z.eq_dec (_capacity s) 0); [lia|].
    rewrite wf_tail0, E, <- (Z.mul_1_l (_capacity s)) at 1.
    rewrite Z.mod_add, Z.mod_small; lia.
Qed.

(** [appended s s' d]: from [s] to [s'] the bytes [d] joined the end of the
    contents and nothing else changed, the write counter apart. *)
Record appended (s s' : t) (d : bytes) : Prop := {
  ap_wf : wf s';
  ap_contents : contents s' = contents s ++ d;
  ap_cap : _capacity s' = _capacity s;
  ap_end : _end_input s' = _end_input s;
  ap_err : _error s' = _error s;
  ap_read : _read_bytes s' = _read_bytes s
}.

Lemma ap_sz s s' d : wf s → appended s s' d → _sz s' = _sz s + len d.
Proof.
  intros Hw []. rewrite <- (len_contents s'), <- (len_contents s) by done.
  by rewrite ap_contents0, len_app.
Qed.

Lemma appended_refl s : wf s → appended s s [].
Proof. intros. constructor; try done. by rewrite app_nil_r. Qed.

Lemma appended_trans s1 s2 s3 d e :
  appended s1 s2 d → appended s2 s3 e → appended s1 s3 (d ++ e).
Proof. intros [] []. constructor; try congruence. rewrite app_assoc. congruence. Qed.

(** One iteration stores one byte at the end of the contents. *)
Lemma write_iteration s c : wf s → _sz s < _capacity s →
  ∃ s', (buf ← store (_buf s) (_tail s) c;
         tail ← umod (uint64 (_tail s + 1)) (_capacity s);
         Ok (set_ring s buf (_head s) tail (uint64 (_sz s + 1)))) = Ok s'
     ∧ appended s s' [c] ∧ _write_bytes s' = _write_bytes s.
Proof.
  intros Hw Hsz. destruct Hw.
  assert (0 <= _tail s < _capacity s) by (rewrite wf_tail0; apply Z.mod_pos_bound; lia).
  rewrite store_ok, result_bind_ok, umod_ok, result_bind_ok by lia.
  rewrite !uint64_id by lia. eexists. split; [done|]. split; [|done].
  constructor; [constructor; simpl; try lia | | done..].
  - unfold len in *. by rewrite length_insert.
  - rewrite wf_tail0, Zplus_mod_idemp_l. f_equal. lia.
  - unfold contents; simpl. rewrite ring_snoc, wf_tail0, ring_store by lia. do 2 f_equal.
    apply cell_store. rewrite <- wf_tail0. lia.
Qed.

Lemma stream_write_loop_spec data : ∀ s idx, wf s → 0 <= idx → idx + len data < two64 →
  ∃ s', write_loop s data idx = Ok (s', idx + Z.min (len data) (_capacity s - _sz s))
     ∧ appended s s' (ztake (_capacity s - _sz s) data)
     ∧ _write_bytes s' = _write_bytes s.
Proof.
  induction data as [|c data IH]; intros s idx Hw Hi Hlt; pose proof (wf_sz s Hw) as Hsz.
  - exists s. rewrite len_nil, Z.min_l, ztake_nil, Z.add_0_r by lia.
    split; [done|]. split; [by apply appended_refl | done].
  - rewrite len_cons in *. pose proof (len_nonneg data).
    simpl write_loop. rewrite write_cond by done.
    destruct (Z.ltb_spec (_sz s) (_capacity s)).
    + destruct (write_iteration s c Hw ltac:(lia)) as (s1 & E & Hap & Hwb).
      apply result_bind_inv in E as (buf & -> & E). rewrite result_bind_ok.
      apply result_bind_inv in E as (tl & -> & E). rewrite result_bind_ok.
      injection E as ->. rewrite (uint64_id (idx + 1)) by lia.
      pose proof (ap_sz _ _ _ Hw Hap) as Hs1. rewrite len_cons, len_nil in Hs1.
      pose proof (ap_cap _ _ _ Hap) as Hc1.
      destruct (IH s1 (idx + 1)) as (s2 & -> & Hap2 & Hwb2); [apply Hap | lia..|].
      exists s2. rewrite Hs1, Hc1 in *. split; [do 2 f_equal; lia|]. split; [|congruence].
      replace (ztake (_capacity s - _sz s) (c :: data))
        with ([c] ++ ztake (_capacity s - (_sz s + (0 + 1))) data).
      { by eapply appended_trans. }
      unfold ztake. replace (Z.to_nat (_capacity s - _sz s))
        with (S (Z.to_nat (_capacity s - (_sz s + (0 + 1))))) by lia. done.
    + exists s. replace (_capacity s - _sz s) with 0 by lia.
      rewrite ztake_0, Z.min_r, Z.add_0_r by lia.
      split; [done|]. split; [by apply appended_refl | done].
Qed.

(** What [write] does: as much of [data] as fits is appended. *)
Lemma stream_write_spec s data : wf s → len data < two64 →
  ∃ s', write s data = Ok (s', Z.min (len data) (_capacity s - _sz s))
     ∧ appended s s' (ztake (_capacity s - _sz s) data)
     ∧ _write_bytes s' = uint32 (_write_bytes s + Z.min (len data) (_capacity s - _sz s)).
Proof.
  intros Hw Hl. unfold write.
  destruct (stream_write_loop_spec data s 0 Hw ltac:(lia) Hl) as (s1 & E & [Hw1 ?????] & Hwr).
  rewrite E, result_bind_ok. simpl. eexists. split; [done|].
  pose proof (uint32_range (_write_bytes s1 + Z.min (len data) (_capacity s - _sz s))).
  destruct Hw1. split; [|simpl; by rewrite Hwr].
  constructor; [constructor | ..]; done.
Qed.

(** The two reading loops visit the same cells; they only need the buffer and
    the starting position to be in range. *)
Definition ring_ok (s : t) : Prop :=
  0 <= _capacity s < max_string ∧ len (_buf s) = _capacity s + 1.

Lemma next_pos cap h : 0 < cap < max_string → 0 <= h < cap →
  umod (uint64 (h + 1)) cap = Ok ((h + 1) mod cap) ∧ 0 <= (h + 1) mod cap < cap.
Proof.
  intros. rewrite uint64_id, umod_ok by lia. split; [done|]. apply Z.mod_pos_bound. lia.
Qed.

Lemma pos_advance cap h n : 0 <= cap → 0 <= h < Z.max 1 cap →
  h = (h + Z.of_nat 0) mod cap ∧
  (0 < cap → ((h + 1) mod cap + Z.of_nat n) mod cap = (h + Z.of_nat (S n)) mod cap).
Proof.
  intros. split.
  - rewrite Z.add_0_r. destruct (Z.eq_dec cap 0) as [->|]; [by rewrite Z.mod_0_r|].
    rewrite Z.mod_small; lia.
  - intros. rewrite Zplus_mod_idemp_l. f_equal. lia.
Qed.

Lemma stream_read_loop_spec n : ∀ s ret,
  ring_ok s → 0 <= _head s < Z.max 1 (_capacity s) → Z.of_nat n <= _capacity s →
  read_loop s n ret
  = Ok (set_ring s (_buf s) ((_head s + Z.of_nat n) mod _capacity s) (_tail s) (_sz s),
        ret ++ ring (_buf s) (_capacity s) (_head s) (Z.of_nat n)).
Proof.
  induction n as [|n IH]; intros s ret [Hc Hb] Hh Hn.
  - destruct (pos_advance _ _ O (proj1 Hc) Hh) as [H0 _]. simpl. unfold ring. rewrite slice_nil, app_nil_r by lia.
    rewrite Z.add_0_r in *. rewrite <- H0. by destruct s.
  - destruct (pos_advance _ _ n (proj1 Hc) Hh) as [_ HS].
    simpl read_loop. rewrite at_index_cell, result_bind_ok by lia.
    destruct (next_pos (_capacity s) (_head s)) as [-> Hh1]; [lia..|]. rewrite result_bind_ok.
    rewrite IH; simpl; [| done | lia..]. rewrite HS by lia.
    rewrite (ring_cons _ _ (_head s)), <- app_assoc by lia. simpl.
    do 5 f_equal; lia.
Qed.

Lemma peek_loop_spec n : ∀ s h ret,
  ring_ok s → 0 <= h < Z.max 1 (_capacity s) → Z.of_nat n <= _capacity s →
  peek_loop s n h ret = Ok (ret ++ ring (_buf s) (_capacity s) h (Z.of_nat n)).
Proof.
  induction n as [|n IH]; intros s h ret [Hc Hb] Hh Hn.
  - simpl. unfold ring. by rewrite slice_nil, app_nil_r by lia.
  - simpl peek_loop. rewrite at_index_cell, result_bind_ok by lia.
    destruct (next_pos (_capacity s) h) as [-> Hh1]; [lia..|]. rewrite result_bind_ok.
    rewrite IH; simpl; [| done | lia..].
    rewrite (ring_cons _ _ h), <- app_assoc by lia. simpl.
    do 4 f_equal; lia.
Qed.

Lemma wf_ring_ok s : wf s → ring_ok s.
Proof. intros []. split; lia. Qed.

(** The prefix and suffix of the contents are rings of their own. *)
Lemma contents_split s n : wf s → 0 <= n <= _sz s →
  ring (_buf s) (_capacity s) (_head s) n = ztake n (contents s) ∧
  ring (_buf s) (_capacity s) ((_head s + n) mod _capacity s) (_sz s - n) = zdrop n (contents s).
Proof.
  intros [] Hn. unfold contents, ring. rewrite ztake_slice, zdrop_slice by lia. split.
  - by rewrite Z.min_l by lia.
  - unfold slice. apply list_eq. intros i. rewrite !list_lookup_fmap.
    destruct (decide (Z.of_nat i < _sz s - n)).
    + rewrite !lookup_seqZ_lt by lia. simpl. by rewrite Zplus_mod_idemp_l.
    + by rewrite !lookup_seqZ_ge by lia.
Qed.

Lemma peek_output_spec s n : wf s → 0 <= n →
  peek_output s n = Ok (ztake n (contents s)).
Proof.
  intros Hw Hn. unfold peek_output. pose proof (len_contents s Hw). destruct (Hw).
  rewrite peek_loop_spec; [| by apply wf_ring_ok | lia..]. simpl.
  rewrite Z2Nat.id by lia. destruct (contents_split s (Z.min n (_sz s)) Hw ltac:(lia)) as [-> _].
  f_equal. destruct (Z.min_spec n (_sz s)) as [[? ->]|[? ->]]; [done|].
  by rewrite !ztake_ge by lia.
Qed.

(** Popping [n <= _sz] bytes: the common effect of [read] and [pop_output]. *)
Definition popped (s : t) (n : Z) : t :=
  set_counts (set_ring s (_buf s) ((_head s + n) mod _capacity s) (_tail s) (_sz s - n))
    (uint32 (_read_bytes s + n)) (_write_bytes s).

Lemma popped_spec s n : wf s → 0 <= n <= _sz s →
  wf (popped s n) ∧ contents (popped s n) = zdrop n (contents s).
Proof.
  intros Hw Hn. destruct (contents_split s n Hw Hn) as [_ E]. split; [|exact E].
  pose proof (wf_cap0 s Hw) as H0. destruct Hw.
  pose proof (uint32_range (_read_bytes s + n)).
  constructor; simpl; try lia.
  - destruct (Z.eq_dec (_capacity s) 0) as [Hz|].
    + destruct (H0 Hz) as (-> & _ & ?). rewrite Hz. replace n with 0 by lia.
      rewrite Z.add_0_l, Zmod_0_l. lia.
    + pose proof (Z.mod_pos_bound (_head s + n) (_capacity s)). lia.
  - rewrite wf_tail0, Zplus_mod_idemp_l. f_equal. lia.
Qed.

Lemma stream_read_spec s n : wf s → 0 <= n →
  read s n = Ok (popped s (Z.min n (_sz s)), ztake n (contents s)).
Proof.
  intros Hw Hn. unfold read. pose proof (len_contents s Hw). destruct (Hw).
  rewrite stream_read_loop_spec; [| by apply wf_ring_ok | lia..]. rewrite result_bind_ok. simpl.
  rewrite Z2Nat.id by lia.
  destruct (contents_split s (Z.min n (_sz s)) Hw ltac:(lia)) as [-> _].
  assert (ztake (Z.min n (_sz s)) (contents s) = ztake n (contents s)) as ->.
  { destruct (Z.min_spec n (_sz s)) as [[? ->]|[? ->]]; [done|]. by rewrite !ztake_ge by lia. }
  unfold popped. rewrite len_ztake by lia. rewrite uint64_id by lia.
  do 4 f_equal; lia.
Qed.

Lemma pop_output_spec s n : wf s → 0 <= n → 0 < _capacity s →
  pop_output s n = Ok (popped s (Z.min n (_sz s))).
Proof.
  intros Hw Hn Hc. unfold pop_output. destruct Hw.
  rewrite !uint64_id by lia. rewrite umod_ok by lia. done.
Qed.

(** On a stream of capacity zero [pop_output] divides by zero. *)
Lemma pop_output_zero s n : wf s → _capacity s = 0 → pop_output s n = Throw DivideByZero.
Proof. intros Hw E. unfold pop_output. by rewrite E. Qed.

(** ** Operations as data, and runs *)

Inductive op :=
| Write (data : bytes)
| Peek (n : Z)
| Pop (n : Z)
| Read (n : Z)
| EndInput
| SetError.

(** What a caller gets back. *)
Inductive out := Count (n : Z) | Data (b : bytes) | Done.

Definition step (s : t) (o : op) : result (t * out) :=
  match o with
  | Write data => '(s, n) ← write s data; Ok (s, Count n)
  | Peek n => b ← peek_output s n; Ok (s, Data b)
  | Pop n => s ← pop_output s n; Ok (s, Done)
  | Read n => '(s, b) ← read s n; Ok (s, Data b)
  | EndInput => Ok (end_input s, Done)
  | SetError => Ok (set_error s, Done)
  end.

Fixpoint run (s : t) (ops : list op) : result (t * list out) :=
  match ops with
  | [] => Ok (s, [])
  | o :: ops => '(s, x) ← step s o; '(s, xs) ← run s ops; Ok (s, x :: xs)
  end.

(** Arguments that are [size_t] values and strings that exist. *)
Definition op_ok (o : op) : Prop :=
  match o with
  | Write data => len data < two64
  | Peek n | Pop n | Read n => 0 <= n < two64
  | EndInput | SetError => True
  end.

End ByteStream.

(** ** The abstract queue

    An append-only log of every byte accepted so far, and the number of bytes
    the reader has taken.  Nothing wraps and nothing fails. *)

Module Fifo.

Record t := mk { cap : Z; log : bytes; taken : Z; ended : bool; failed : bool }.

Definition new (cap : Z) : t := mk cap [] 0 false false.

Definition pending (f : t) : bytes := zdrop (taken f) (log f).
Definition room (f : t) : Z := cap f - len (pending f).

(** [late] says whether the queue takes bytes after its end.  The comment of the class says that no more bytes can be
    written then ([late = false]); the code does not look at the end ([late = true]). *)
Definition accepted (late : bool) (f : t) : Z := if late || negb (ended f) then room f else 0.

Definition step (late : bool) (f : t) (o : ByteStream.op) : t * ByteStream.out :=
  match o with
  | ByteStream.Write data =>
      (mk (cap f) (log f ++ ztake (accepted late f) data) (taken f) (ended f) (failed f),
       ByteStream.Count (Z.min (len data) (accepted late f)))
  | ByteStream.Peek n => (f, ByteStream.Data (ztake n (pending f)))
  | ByteStream.Pop n =>
      (mk (cap f) (log f) (taken f + Z.min n (len (pending f))) (ended f) (failed f),
       ByteStream.Done)
  | ByteStream.Read n =>
      (mk (cap f) (log f) (taken f + Z.min n (len (pending f))) (ended f) (failed f),
       ByteStream.Data (ztake n (pending f)))
  | ByteStream.EndInput => (mk (cap f) (log f) (taken f) true (failed f), ByteStream.Done)
  | ByteStream.SetError => (mk (cap f) (log f) (taken f) (ended f) true, ByteStream.Done)
  end.

Fixpoint run (late : bool) (f : t) (ops : list ByteStream.op) : t * list ByteStream.out :=
  match ops with
  | [] => (f, [])
  | o :: ops =>
      let '(f, x) := step late f o in
      let '(f, xs) := run late f ops in (f, x :: xs)
  end.

(** The writer stops at the end of the stream. *)
Fixpoint finite (over : bool) (ops : list ByteStream.op) : bool :=
  match ops with
  | [] => true
  | ByteStream.Write _ :: ops => negb over && finite over ops
  | ByteStream.EndInput :: ops => finite true ops
  | _ :: ops => finite over ops
  end.

Lemma finite_run ops : ∀ f, finite (ended f) ops = true → run true f ops = run false f ops.
Proof.
  induction ops as [|o ops IH]; intros f Hf; [done|].
  destruct o; simpl in Hf; cbn [run step]; try (by rewrite IH).
  apply andb_true_iff in Hf as [He%negb_true_iff Hf]. unfold accepted. rewrite He in Hf |- *. simpl. by rewrite IH.
Qed.

Record wf (f : t) : Prop := {
  wf_taken : 0 <= taken f <= len (log f);
  wf_room : len (log f) - taken f <= cap f
}.

Lemma len_pending f : wf f → len (pending f) = len (log f) - taken f.
Proof. intros []. unfold pending. rewrite len_zdrop; lia. Qed.

(** What the accessors of the class report of a queue. *)
Record agrees (f : t) (s : ByteStream.t) : Prop := {
  ag_wf : wf f;
  ag_swf : ByteStream.wf s;
  ag_cap : ByteStream._capacity s = cap f;
  ag_contents : ByteStream.contents s = pending f;
  ag_written : ByteStream.bytes_written s = uint32 (len (log f));
  ag_read : ByteStream.bytes_read s = uint32 (taken f);
  ag_ended : ByteStream.input_ended s = ended f;
  ag_error : ByteStream.error s = failed f
}.

Lemma agrees_sz f s : agrees f s → ByteStream._sz s = len (pending f).
Proof. intros []. rewrite <- ag_contents0. symmetry. by apply ByteStream.len_contents. Qed.

Lemma uint32_add_l a b : uint32 (uint32 a + b) = uint32 (a + b).
Proof. unfold uint32. apply Zplus_mod_idemp_l. Qed.

Lemma agrees_write f s data : agrees f s → len data < two64 →
  ∃ s', ByteStream.write s data = Ok (s', Z.min (len data) (room f))
     ∧ agrees (fst (step true f (ByteStream.Write data))) s'.
Proof.
  intros Ha Hl. pose proof (agrees_sz f s Ha) as Hsz. destruct Ha.
  pose proof (len_pending f ag_wf0) as Hp. destruct (ag_wf0).
  destruct (ByteStream.stream_write_spec s data ag_swf0 Hl) as (s' & -> & [] & Hwb).
  rewrite Hsz, ag_cap0 in *. fold (room f) in *.
  assert (0 <= room f) by (unfold room; lia).
  exists s'. split; [done|]. change (step true f (ByteStream.Write data))
    with (mk (cap f) (log f ++ ztake (room f) data) (taken f) (ended f) (failed f), ByteStream.Count (Z.min (len data) (room f))).
  constructor; simpl; try congruence.
  - constructor; simpl; rewrite len_app, len_ztake by lia; unfold room in *;
      pose proof (len_nonneg data); lia.
  - rewrite ap_contents, ag_contents0. unfold pending; simpl. by rewrite zdrop_app_le by lia.
  - unfold ByteStream.bytes_written in *. rewrite Hwb, ag_written0, uint32_add_l.
    rewrite len_app, len_ztake by lia. do 2 f_equal. lia.
  - unfold ByteStream.bytes_read in *. congruence.
  - unfold ByteStream.input_ended in *. congruence.
  - unfold ByteStream.error in *. congruence.
Qed.

Lemma agrees_popped f s n : agrees f s → 0 <= n →
  agrees (fst (step true f (ByteStream.Pop n))) (ByteStream.popped s (Z.min n (ByteStream._sz s))).
Proof.
  intros Ha Hn. pose proof (agrees_sz f s Ha) as Hsz. destruct Ha.
  pose proof (len_pending f ag_wf0) as Hp. destruct (ag_wf0).
  destruct (ByteStream.wf_sz s ag_swf0).
  destruct (ByteStream.popped_spec s (Z.min n (ByteStream._sz s)) ag_swf0) as [Hw Hc]; [lia|].
  constructor; simpl; try done.
  - constructor; simpl; lia.
  - rewrite Hc, ag_contents0, Hsz. unfold pending at 2; simpl.
    unfold pending at 2. rewrite zdrop_zdrop by lia. done.
  - unfold ByteStream.bytes_read in *; simpl. rewrite ag_read0, uint32_add_l, Hsz. done.
Qed.

(** The queue's outcome for an operation is the stream's. *)
Lemma step_refines f s o : agrees f s → ByteStream.op_ok o → 0 < cap f →
  ∃ s', ByteStream.step s o = Ok (s', snd (step true f o)) ∧ agrees (fst (step true f o)) s'.
Proof.
  intros Ha Hok Hcap. pose proof (agrees_sz f s Ha) as Hsz. pose proof Ha as [].
  destruct o as [data|n|n|n| |]; simpl in Hok.
  - destruct (agrees_write f s data Ha Hok) as (s' & E & Ha').
    exists s'. simpl. by rewrite E.
  - exists s. simpl. rewrite ByteStream.peek_output_spec by (done || lia).
    by rewrite ag_contents0.
  - eexists. simpl. rewrite ByteStream.pop_output_spec by (done || lia).
    split; [done|]. apply agrees_popped; [done | lia].
  - eexists. simpl. rewrite ByteStream.stream_read_spec by (done || lia). simpl.
    rewrite ag_contents0. split; [done|]. apply agrees_popped; [done | lia].
  - eexists. split; [done|]. constructor; simpl; try done; [by destruct ag_wf0 | by destruct ag_swf0].
  - eexists. split; [done|]. constructor; simpl; try done; [by destruct ag_wf0 | by destruct ag_swf0].
Qed.

Lemma step_cap f o : cap (fst (step true f o)) = cap f.
Proof. by destruct o. Qed.

Lemma agrees_run ops : ∀ f s, agrees f s → Forall ByteStream.op_ok ops → 0 < cap f →
  ∃ s', ByteStream.run s ops = Ok (s', snd (run true f ops)) ∧ agrees (fst (run true f ops)) s'.
Proof.
  induction ops as [|o ops IH]; intros f s Ha Hok Hc.
  - by exists s.
  - apply Forall_cons in Hok as [Ho Hok].
    destruct (step_refines f s o Ha Ho Hc) as (s1 & E1 & Ha1).
    destruct (IH _ s1 Ha1 Hok) as (s2 & E2 & Ha2); [by rewrite step_cap|].
    exists s2. simpl. rewrite E1, result_bind_ok. simpl. rewrite E2, result_bind_ok. simpl.
    destruct (step true f o) as [f1 x]; simpl in *. by destruct (run true f1 ops).
Qed.

Lemma agrees_new cp : 0 <= cp < max_string → agrees (new cp) (ByteStream.new cp).
Proof.
  intros. destruct (ByteStream.wf_new cp) as [Hw Hc]; [lia|].
  constructor; try done. constructor; unfold len; simpl; lia.
Qed.

(** C9: A byte stream of positive capacity behaves, for every sequence of
    operations, as a queue over an append-only log: no operation faults, every
    call returns what the queue returns (so reads deliver exactly the accepted
    bytes, in order, and writes accept exactly what fits), and afterwards every
    accessor reports the queue's state, the byte counters modulo 2^32.  When the writer stops at the end of the
    stream, this is the queue that the comment of the class describes, which takes nothing after the end.  The code itself does not
    refuse later bytes ([write_after_end]). *)
Theorem run_refines (cp : Z) (ops : list ByteStream.op) :
  0 < cp < max_string → Forall ByteStream.op_ok ops →
  ∃ s, ByteStream.run (ByteStream.new cp) ops = Ok (s, snd (run true (new cp) ops)) ∧
    let f := fst (run true (new cp) ops) in
    ByteStream.contents s = pending f ∧
    ByteStream.buffer_size s = len (log f) - taken f ∧
    ByteStream.remaining_capacity s = room f ∧ 0 <= room f ∧
    ByteStream.buffer_empty s = (len (log f) =? taken f) ∧
    ByteStream.eof s = ended f && (len (log f) =? taken f) ∧
    ByteStream.bytes_written s = uint32 (len (log f)) ∧
    ByteStream.bytes_read s = uint32 (taken f) ∧
    ByteStream.input_ended s = ended f ∧ ByteStream.error s = failed f ∧
    (finite false ops = true → run true (new cp) ops = run false (new cp) ops).
Proof.
  intros Hc Hok.
  destruct (agrees_run ops (new cp) (ByteStream.new cp)) as (s & E & Ha);
    [apply agrees_new; lia | done | simpl; lia |].
  exists s. split; [done|]. cbv zeta. set (f := fst (run true (new cp) ops)) in *.
  pose proof (agrees_sz f s Ha) as Hsz. destruct Ha. pose proof (len_pending f ag_wf0) as Hp.
  destruct ag_wf0. destruct ag_swf0.
  unfold ByteStream.buffer_size, ByteStream.remaining_capacity, ByteStream.buffer_empty,
    ByteStream.eof, room, ByteStream.input_ended in *.
  rewrite Hsz, Hp, ag_cap0, ag_ended0.
  replace (len (log f) - taken f =? 0) with (len (log f) =? taken f) by (repeat case_test; lia).
  word_simpl. repeat split; try done; try lia. apply (finite_run ops (new cp)).
Qed.

(** After the end the code takes a byte where the queue of the comment takes none. *)
Lemma write_after_end : ∃ s, ByteStream.run (ByteStream.new 1) [ByteStream.EndInput; ByteStream.Write [x61]]
    = Ok (s, [ByteStream.Done; ByteStream.Count 1]) ∧ ByteStream.contents s = [x61] ∧
  snd (run false (new 1) [ByteStream.EndInput; ByteStream.Write [x61]]) = [ByteStream.Done; ByteStream.Count 0].
Proof. eexists. split; [vm_compute; reflexivity|]. split; reflexivity. Qed.

Definition demo_ops : list ByteStream.op :=
  [ByteStream.Write [x61; x62; x63]; ByteStream.Read 2; ByteStream.Write [x64; x65; x66];
   ByteStream.Pop 1; ByteStream.EndInput].

Lemma run_refines_witness :
  ∃ s, ByteStream.run (ByteStream.new 3) demo_ops = Ok (s, snd (run true (new 3) demo_ops)) ∧
    let f := fst (run true (new 3) demo_ops) in
    ByteStream.contents s = pending f ∧
    ByteStream.buffer_size s = len (log f) - taken f ∧
    ByteStream.remaining_capacity s = room f ∧ 0 <= room f ∧
    ByteStream.buffer_empty s = (len (log f) =? taken f) ∧
    ByteStream.eof s = ended f && (len (log f) =? taken f) ∧
    ByteStream.bytes_written s = uint32 (len (log f)) ∧
    ByteStream.bytes_read s = uint32 (taken f) ∧
    ByteStream.input_ended s = ended f ∧ ByteStream.error s = failed f ∧
    (finite false demo_ops = true → run true (new 3) demo_ops = run false (new 3) demo_ops).
Proof.
  apply (run_refines 3 demo_ops); [lia|].
  repeat constructor; unfold len; simpl; lia.
Defined.

End Fifo.
