(* ===== verification/std_map.v ===== *)
(** * [std::map] with integer keys

    The ordered map of the C++ library, as the reassembler uses it: the list of
    its elements by increasing key.  Iterators are modelled by the element they
    point to ([None] is [end()]). *)

From S2P Require Import Prelude.

Module StdMap.

Section map.
Context {V : Type}.
Implicit Types (m : list (Z * V)) (k : Z).

(** [begin()]. *)
Definition begin m : option (Z * V) := head m.

(** [lower_bound(k)]: the first element whose key is not below [k]. *)
Fixpoint lower_bound k m : option (Z * V) :=
  match m with
  | [] => None
  | (k', v) :: m => if k' <? k then lower_bound k m else Some (k', v)
  end.

(** The element before [lower_bound(k)]: the last one whose key is below [k]. *)
Fixpoint before k m : option (Z * V) :=
  match m with
  | [] => None
  | (k', v) :: m =>
      if k' <? k then
        match before k m with Some e => Some e | None => Some (k', v) end
      else None
  end.

(** [erase(it)] for an iterator to the element with key [k]. *)
Fixpoint erase k m : list (Z * V) :=
  match m with
  | [] => []
  | (k', v) :: m => if k' =? k then m else (k', v) :: erase k m
  end.

(** [emplace(k, v)]: inserts unless the key is present. *)
Fixpoint emplace k (v : V) m : list (Z * V) :=
  match m with
  | [] => [(k, v)]
  | (k', v') :: m' =>
      if k <? k' then (k, v) :: m
      else if k =? k' then m
      else (k', v') :: emplace k v m'
  end.

(** ** The operations on a map split at a key *)

Definition below k m : Prop := Forall (λ e, e.1 < k) m.

Lemma lower_bound_app k m1 m2 : below k m1 → (∀ e, head m2 = Some e → k <= e.1) →
  lower_bound k (m1 ++ m2) = head m2.
Proof.
  induction m1 as [|[k' v] m1 IH]; simpl; intros Hb Hh.
  - destruct m2 as [|[k' v] m2]; simpl; [done|]. specialize (Hh _ eq_refl). simpl in Hh.
    case_test; [lia | done].
  - apply Forall_cons in Hb as [Hk Hb]; simpl in Hk. case_test; [by apply IH | lia].
Qed.

Lemma before_app k m1 m2 : below k m1 → (∀ e, head m2 = Some e → k <= e.1) →
  before k (m1 ++ m2) = last m1.
Proof.
  induction m1 as [|[k' v] m1 IH]; intros Hb Hh.
  - simpl. destruct m2 as [|[k' v] m2]; simpl; [done|]. specialize (Hh _ eq_refl). simpl in Hh.
    case_test; [lia | done].
  - apply Forall_cons in Hb as [Hk Hb]; simpl in Hk. rewrite last_cons. simpl.
    case_test; [|lia]. by rewrite IH.
Qed.

Lemma erase_app k v m1 m2 : below k m1 → erase k (m1 ++ (k, v) :: m2) = m1 ++ m2.
Proof.
  induction m1 as [|[k' v'] m1 IH]; simpl; intros Hb.
  - by rewrite Z.eqb_refl.
  - apply Forall_cons in Hb as [Hk Hb]; simpl in Hk. case_test; [lia|]. by rewrite IH.
Qed.

Lemma emplace_app k v m1 m2 : below k m1 → (∀ e, head m2 = Some e → k < e.1) →
  emplace k v (m1 ++ m2) = m1 ++ (k, v) :: m2.
Proof.
  induction m1 as [|[k' v'] m1 IH]; simpl; intros Hb Hh.
  - destruct m2 as [|[k' v'] m2]; simpl; [done|]. specialize (Hh _ eq_refl). simpl in Hh.
    destruct (Z.ltb_spec k k'); [done | lia].
  - apply Forall_cons in Hb as [Hk Hb]; simpl in Hk.
    destruct (Z.ltb_spec k k'); [lia|]. case_test; [lia|]. by rewrite IH.
Qed.

End map.
End StdMap.
