(* ===== verification/stream_reassembler.v ===== *)
(** * The stream reassembler (src/lab/libsponge/stream_reassembler.hh, .cc)

    Substrings of a byte stream arrive in any order, possibly overlapping; the
    reassembler writes the contiguous prefix to its output stream and keeps the
    rest in an ordered map.  The theorems are relative to the stream the
    substrings come from. *)

From S2P Require Import Prelude std_map byte_stream.

Module StreamReassembler.

Record t := mk {
  _output : ByteStream.t;
  _capacity : Z;
  _mp : list (Z * bytes);
  _nidx : Z;
  _eof : bool;
  _eidx : Z;
  _unassembled_bytes : Z
}.

Definition new (capacity : Z) : t := mk (ByteStream.new capacity) capacity [] 0 false 0 0.

Definition stream_out (r : t) : ByteStream.t := _output r.
Definition set_stream_out (r : t) (o : ByteStream.t) : t :=
  mk o (_capacity r) (_mp r) (_nidx r) (_eof r) (_eidx r) (_unassembled_bytes r).

(** The part of the state the branches of [push_substring] change. *)
Definition set_store (r : t) (o : ByteStream.t) (mp : list (Z * bytes)) (nidx un : Z) : t :=
  mk o (_capacity r) mp nidx (_eof r) (_eidx r) un.

(** The loop over [_mp.begin()] that hands contiguous substrings to the output;
    every round erases an element, so [S (size of _mp)] rounds are enough. *)
Fixpoint drain (fuel : nat) (r : t) : result t :=
  match fuel with
  | O => Throw OutOfFuel
  | S fuel =>
      match StdMap.begin (_mp r) with
      | None => Ok r
      | Some (k, v) =>
          if k <=? _nidx r then
            '(o, nidx) ← (
              if uint64 (_nidx r - k) <? len v then
                rest ← substr v (uint64 (_nidx r - k));
                '(o, n) ← ByteStream.write (_output r) rest;
                Ok (o, uint64 (_nidx r + n))
              else Ok (_output r, _nidx r));
            drain fuel (set_store r o (StdMap.erase k (_mp r)) nidx
                          (uint64 (_unassembled_bytes r - len v)))
          else Ok r
      end
  end.

(** The branch [idx <= _nidx]. *)
Definition push_in_order (r : t) (data : bytes) (idx : Z) : result t :=
  if uint64 (_nidx r - idx) <? len data then
    rest ← substr data (uint64 (_nidx r - idx));
    '(o, n) ← ByteStream.write (_output r) rest;
    drain (S (length (_mp r)))
      (set_store r o (_mp r) (uint64 (_nidx r + n)) (_unassembled_bytes r))
  else Ok r.

(** The loop that merges the following substrings into [str]. *)
Fixpoint merge_next (fuel : nat) (mp : list (Z * bytes)) (un idx : Z) (str : bytes)
  : result (list (Z * bytes) * Z * bytes) :=
  match fuel with
  | O => Throw OutOfFuel
  | S fuel =>
      match StdMap.lower_bound idx mp with
      | None => Ok (mp, un, str)
      | Some (k, v) =>
          if k <=? uint64 (idx + len str) then
            str ← (
              if uint64 (idx + len str) <? uint64 (k + len v) then
                rest ← substr v (uint64 (uint64 (idx + len str) - k));
                Ok (str ++ rest)
              else Ok str);
            merge_next fuel (StdMap.erase k mp) (uint64 (un - len v)) idx str
          else Ok (mp, un, str)
      end
  end.

(** The merge with the preceding substring; [index] is the parameter of
    [push_substring] and equals [idx] here. *)
Definition merge_last (mp : list (Z * bytes)) (un idx index : Z) (str : bytes)
  : result (list (Z * bytes) * Z * Z * bytes) :=
  match StdMap.before idx mp with
  | None => Ok (mp, un, idx, str)
  | Some (k, v) =>
      if idx <=? uint64 (k + len v) then
        str ← (
          if uint64 (k + len v) <? uint64 (index + len str) then
            rest ← substr str (uint64 (uint64 (k + len v) - idx));
            Ok (v ++ rest)
          else Ok v);
        Ok (StdMap.erase k mp, uint64 (un - len v), k, str)
      else Ok (mp, un, idx, str)
  end.

(** The branch [idx > _nidx]. *)
Definition push_out_of_order (r : t) (data : bytes) (index : Z) : result t :=
  '(mp, un, str) ← merge_next (S (length (_mp r))) (_mp r) (_unassembled_bytes r) index data;
  '(mp, un, idx, str) ← merge_last mp un index index str;
  let store_size :=
    Z.min (uint64 (uint64 (_capacity r - un) - ByteStream.buffer_size (_output r))) (len str) in
  Ok (set_store r (_output r) (StdMap.emplace idx (ztake store_size str) mp) (_nidx r)
        (uint64 (un + store_size))).

Definition push_substring (r : t) (data : bytes) (index : Z) (eof : bool) : result t :=
  let r := if eof
           then mk (_output r) (_capacity r) (_mp r) (_nidx r) true (uint64 (index + len data))
                   (_unassembled_bytes r)
           else r in
  r ← (if index <=? _nidx r then push_in_order r data index
       else push_out_of_order r data index);
  Ok (if _eof r && (_eidx r <=? _nidx r)
      then set_stream_out r (ByteStream.end_input (_output r)) else r).

Definition unassembled_bytes (r : t) : Z := _unassembled_bytes r.
Definition empty (r : t) : bool := _unassembled_bytes r =? 0.
Definition next_idx (r : t) : Z := _nidx r.

(** ** Stored substrings *)

(** Bytes held in the map. *)
Definition total (m : list (Z * bytes)) : Z := foldr (λ e n, len e.2 + n) 0 m.

(** The positions a map covers. *)
Definition covers (m : list (Z * bytes)) (i : Z) : Prop :=
  ∃ k v, (k, v) ∈ m ∧ k <= i < k + len v.

Section stream.
(** The stream and a bound on its length. *)
Context (stream : Z → byte) (N : Z) (HN : N < two64).

(** [chunks lo m]: the elements of [m] are pieces of the stream in increasing
    order, with a gap before each one; the first begins after [lo]. *)
Fixpoint chunks (lo : Z) (m : list (Z * bytes)) : Prop :=
  match m with
  | [] => True
  | (k, v) :: m => lo < k ∧ v = slice stream k (len v) ∧ k + len v <= N ∧ chunks (k + len v) m
  end.

(** The end of the last element. *)
Fixpoint chunks_end (lo : Z) (m : list (Z * bytes)) : Z :=
  match m with [] => lo | (k, v) :: m => chunks_end (k + len v) m end.

Lemma chunks_weaken lo lo' m : (∀ e, head m = Some e → lo' < e.1) → chunks lo m → chunks lo' m.
Proof. destruct m as [|[k v] m]; simpl; [done|]. intros H (?&?&?&?). specialize (H _ eq_refl). done. Qed.

Lemma chunks_head lo m e : chunks lo m → head m = Some e → lo < e.1.
Proof. destruct m as [|[k v] m]; simpl; [done|]. intros (?&_) E. by injection E as <-. Qed.

Lemma chunks_app lo m1 m2 : chunks lo (m1 ++ m2) ↔ chunks lo m1 ∧ chunks (chunks_end lo m1) m2.
Proof.
  revert lo. induction m1 as [|[k v] m1 IH]; intros lo; simpl; [tauto|].
  rewrite IH. tauto.
Qed.

Lemma chunks_end_bounds lo m : chunks lo m →
  lo <= chunks_end lo m ∧ (lo <= N → chunks_end lo m <= N) ∧ total m <= chunks_end lo m - lo.
Proof.
  revert lo. induction m as [|[k v] m IH]; intros lo; simpl; [lia|].
  intros (?&_&?&Hc). pose proof (len_nonneg v). destruct (IH _ Hc) as (?&?&?). lia.
Qed.

Lemma total_nonneg m : 0 <= total m.
Proof. induction m as [|[k v] m IH]; simpl; [lia|]. pose proof (len_nonneg v). lia. Qed.

Lemma total_app m1 m2 : total (m1 ++ m2) = total m1 + total m2.
Proof. induction m1 as [|[k v] m1 IH]; simpl; lia. Qed.

Lemma covers_app m1 m2 i : covers (m1 ++ m2) i ↔ covers m1 i ∨ covers m2 i.
Proof. unfold covers. setoid_rewrite elem_of_app. split.
  - intros (k & v & [?|?] & ?); [left | right]; eauto.
  - intros [(k & v & ? & ?)|(k & v & ? & ?)]; eauto 10.
 Qed.

Lemma covers_cons k v m i : covers ((k, v) :: m) i ↔ k <= i < k + len v ∨ covers m i.
Proof.
  unfold covers. setoid_rewrite elem_of_cons. split.
  - intros (k' & v' & [E|?] & ?); [injection E as -> ->; by left | right; eauto].
  - intros [?|(k' & v' & ? & ?)]; eauto 10.
Qed.

Lemma covers_nil i : ¬ covers [] i.
Proof. intros (k & v & H & _). by apply elem_of_nil in H. Qed.

Lemma covers_gt lo m i : chunks lo m → covers m i → lo < i.
Proof.
  revert lo. induction m as [|[k v] m IH]; intros lo; simpl; [by intros _ ?%covers_nil|].
  intros (?&_&_&Hc) [?|Hi]%covers_cons; [lia|]. pose proof (len_nonneg v).
  specialize (IH _ Hc Hi). lia.
Qed.

(** Joining two pieces of the stream that touch or overlap. *)
Lemma slice_join a u b v :
  u = slice stream a (len u) → v = slice stream b (len v) → a <= b <= a + len u → a + len u <= b + len v →
  u ++ zdrop (a + len u - b) v = slice stream a (b + len v - a).
Proof.
  intros Hu Hv ? ?. pose proof (len_nonneg u). rewrite Hv at 1. rewrite zdrop_slice by lia.
  rewrite Hu at 1. replace (b + len v - a) with (len u + (b + len v - a - len u)) by lia.
  rewrite slice_app by lia. f_equal. f_equal; lia.
Qed.

Lemma len_join (a b : Z) (u v : bytes) : a + len u <= b + len v → b <= a + len u →
  len (u ++ zdrop (a + len u - b) v) = b + len v - a.
Proof. intros. rewrite len_app, len_zdrop by lia. lia. Qed.

(** The stretch of the stream a string at [idx] is. *)
Definition piece (idx : Z) (str : bytes) : Prop :=
  str = slice stream idx (len str) ∧ 0 <= idx ∧ idx + len str <= N.

Definition span (idx : Z) (str : bytes) (i : Z) : Prop := idx <= i < idx + len str.

Lemma merge_next_spec m2 : ∀ fuel m1 idx str lo,
  (length m2 < fuel)%nat → StdMap.below idx m1 → chunks lo m2 → total (m1 ++ m2) <= N →
  (∀ e, head m2 = Some e → idx <= e.1) → piece idx str →
  ∃ m2' str', merge_next fuel (m1 ++ m2) (total (m1 ++ m2)) idx str
                = Ok (m1 ++ m2', total (m1 ++ m2'), str')
    ∧ piece idx str' ∧ chunks (idx + len str') m2' ∧ (∀ e, head m2' = Some e → lo < e.1)
    ∧ total (m1 ++ m2') <= N
    ∧ (∀ i, covers m2' i → covers m2 i)
    ∧ ∀ i, covers m2' i ∨ span idx str' i ↔ covers m2 i ∨ span idx str i.
Proof.
  induction m2 as [|[k v] m2 IH]; intros [|fuel] m1 idx str lo Hf Hb Hch Htot Hh Hp;
    simpl in Hf; try lia; simpl merge_next.
  - rewrite StdMap.lower_bound_app by done. exists [], str. simpl. naive_solver.
  - rewrite StdMap.lower_bound_app by done. simpl.
    destruct Hch as (Hlo & Hv & Hend & Hch). pose proof (Hh _ eq_refl) as Hk. simpl in Hk.
    pose proof (len_nonneg v). pose proof (len_nonneg str). destruct Hp as (Hs & Hi0 & HsN).
    rewrite !total_app in *. simpl in *. pose proof (total_nonneg m1). pose proof (total_nonneg m2).
    rewrite (uint64_id (idx + len str)) by lia. rewrite (uint64_id (k + len v)) by lia.
    destruct (Z.leb_spec k (idx + len str)).
    + rewrite StdMap.erase_app.
      2:{ eapply Forall_impl; [exact Hb|]. simpl. lia. }
      set (str1 := if idx + len str <? k + len v
                   then str ++ zdrop (idx + len str - k) v else str).
      assert (piece idx str1 ∧ (∀ i, span idx str1 i ↔ k <= i < k + len v ∨ span idx str i))
        as [Hp1 Hc1].
      { subst str1. unfold piece, span. destruct (Z.ltb_spec (idx + len str) (k + len v)).
        - rewrite len_join by lia. split; [|lia]. split; [|lia]. apply slice_join; try done; lia.
        - split; [done | lia]. }
      assert ((if idx + len str <? k + len v
               then rest ← substr v (uint64 (idx + len str - k)); Ok (str ++ rest)
               else Ok str) = Ok str1) as ->.
      { subst str1. case_test; [|done]. rewrite uint64_id, substr_ok by lia. done. }
      rewrite result_bind_ok. replace (uint64 (total m1 + (len v + total m2) - len v))
        with (total (m1 ++ m2)) by (rewrite total_app; word_lia).
      destruct (IH fuel m1 idx str1 (k + len v)) as (m2' & str' & E & Hp' & Hch' & Hh' & Htot' & Hs' & Hc');
        try done; [lia | rewrite total_app; lia | |].
      { intros e He. pose proof (chunks_head _ _ _ Hch He). lia. }
      exists m2', str'. split; [done|]. split; [done|]. split; [done|].
      split; [intros e He; specialize (Hh' e He); lia|]. split; [done|].
      split; [intros i Hi%Hs'; apply covers_cons; by right|].
      intros i. rewrite Hc', Hc1, covers_cons. tauto.
    + exists ((k, v) :: m2), str. rewrite total_app. simpl. unfold piece.
      split; [done|]. split; [done|]. split; [split; [lia|]; done|].
      split; [|split; [lia|done]]. intros e He. by injection He as <-.
Qed.

Lemma merge_last_spec m1 m2 idx str lo :
  0 <= lo < idx → chunks lo m1 → StdMap.below idx m1 →
  chunks (idx + len str) m2 → (∀ e, head m2 = Some e → chunks_end lo m1 < e.1) →
  total (m1 ++ m2) <= N → piece idx str →
  ∃ m1' idx' str', merge_last (m1 ++ m2) (total (m1 ++ m2)) idx idx str
                     = Ok (m1' ++ m2, total (m1' ++ m2), idx', str')
    ∧ piece idx' str' ∧ chunks lo m1' ∧ chunks_end lo m1' < idx' ∧ StdMap.below idx' m1'
    ∧ chunks (idx' + len str') m2
    ∧ (∀ i, covers m1' i → covers m1 i)
    ∧ ∀ i, covers m1' i ∨ span idx' str' i ↔ covers m1 i ∨ span idx str i.
Proof.
  intros Hlo Hch Hb Hch2 Hh2 Htot (Hs & Hi0 & HsN). unfold merge_last.
  pose proof (len_nonneg str).
  rewrite StdMap.before_app; [|done|].
  2:{ intros e He. pose proof (chunks_head _ _ _ Hch2 He). lia. }
  destruct m1 as [|[k v] m1 _] using rev_ind.
  { exists [], idx, str. simpl. unfold piece. repeat split; try done; lia. }
  rewrite last_snoc. apply chunks_app in Hch as [Hch1 (Hk & Hv & Hend & _)].
  apply Forall_app in Hb as [Hb Hkb]. apply Forall_cons in Hkb as [Hkb _]. simpl in Hkb.
  pose proof (len_nonneg v). rewrite !total_app in *. simpl in *.
  pose proof (total_nonneg m1). pose proof (total_nonneg m2).
  destruct (chunks_end_bounds _ _ Hch1) as (Hce & _ & _).
  assert (chunks_end lo (m1 ++ [(k, v)]) = k + len v) as Hce2.
  { clear. revert lo. induction m1 as [|[k' v'] m1 IH]; simpl; auto. }
  rewrite Hce2 in Hh2.
  assert (StdMap.below k m1) as Hbk.
  { clear -Hch1 Hk. revert lo Hch1 Hk. induction m1 as [|[k' v'] m1 IH]; intros lo; simpl; [constructor|].
    intros (?&_&_&Hc) Hk. pose proof (len_nonneg v'). destruct (chunks_end_bounds _ _ Hc) as (?&_).
    constructor; [simpl; lia|]. by eapply IH. }
  rewrite (uint64_id (idx + len str)) by lia. rewrite (uint64_id (k + len v)) by lia.
  destruct (Z.leb_spec idx (k + len v)).
  - rewrite <- app_assoc. simpl. rewrite StdMap.erase_app by done.
    replace (uint64 (total m1 + (len v + 0) + total m2 - len v)) with (total (m1 ++ m2))
      by (rewrite total_app; word_lia).
    set (str1 := if k + len v <? idx + len str then v ++ zdrop (k + len v - idx) str else v).
    assert ((if k + len v <? idx + len str
             then rest ← substr str (uint64 (k + len v - idx)); Ok (v ++ rest)
             else Ok v) = Ok str1) as ->.
    { subst str1. case_test; [|done]. rewrite uint64_id, substr_ok by lia. done. }
    rewrite result_bind_ok. exists m1, k, str1. split; [done|].
    assert (piece k str1 ∧ k + len str1 = Z.max (k + len v) (idx + len str)) as [Hp Hl].
    { subst str1. unfold piece. destruct (Z.ltb_spec (k + len v) (idx + len str)).
      - rewrite len_join by lia. split; [|lia]. split; [|lia]. apply slice_join; try done; lia.
      - split; [split; [done | lia] | lia]. }
    split; [done|]. split; [done|]. split; [done|]. split; [done|]. split.
    + eapply chunks_weaken; [|exact Hch2]. intros e He. rewrite Hl.
      pose proof (chunks_head _ _ _ Hch2 He). specialize (Hh2 e He). lia.
    + split; [intros i Hi; apply covers_app; by left|]. intros i. rewrite covers_app, covers_cons. unfold span. rewrite Hl.
      pose proof (covers_nil i).
      assert (k <= i < Z.max (k + len v) (idx + len str)
        ↔ k <= i < k + len v ∨ idx <= i < idx + len str) as -> by lia. tauto.
  - exists (m1 ++ [(k, v)]), idx, str. rewrite !total_app. simpl.
    split; [done|]. split; [done|].
    split; [apply chunks_app; split; [done | simpl; auto]|].
    split; [lia|]. split; [|done]. apply Forall_app. split; [|by constructor].
    eapply Forall_impl; [exact Hbk|]. simpl. lia.
Qed.

(** ** The invariant

    [store_ok lo r]: the output holds the bytes of the stream just before
    [_nidx], and the map holds pieces of it that lie after [lo].  Between calls
    [lo] is [_nidx]. *)

Definition consumed (r : t) : Z := _nidx r - ByteStream._sz (_output r).

Record store_ok (lo : Z) (r : t) : Prop := {
  so_out : ByteStream.wf (_output r);
  so_cap : ByteStream._capacity (_output r) = _capacity r;
  so_nidx : 0 <= consumed r ∧ _nidx r <= N;
  so_contents : ByteStream.contents (_output r) = slice stream (consumed r) (ByteStream._sz (_output r));
  so_chunks : chunks lo (_mp r);
  so_lo : 0 <= lo <= N;
  so_un : _unassembled_bytes r = total (_mp r)
}.

(** What the storing branches leave alone. *)
Record kept (r r' : t) : Prop := {
  k_cap : _capacity r' = _capacity r;
  k_eof : _eof r' = _eof r;
  k_eidx : _eidx r' = _eidx r;
  k_consumed : consumed r' = consumed r;
  k_nidx : _nidx r <= _nidx r';
  k_ended : ByteStream.input_ended (_output r') = ByteStream.input_ended (_output r);
  k_err : ByteStream.error (_output r') = ByteStream.error (_output r)
}.

Lemma kept_refl r : kept r r.
Proof. constructor; done || lia. Qed.

Lemma kept_trans r1 r2 r3 : kept r1 r2 → kept r2 r3 → kept r1 r3.
Proof. intros [] []. constructor; congruence || lia. Qed.

(** The positions whose bytes the reassembler has, and the window that the
    capacity allows. *)
Definition held (r : t) (i : Z) : Prop := 0 <= i < _nidx r ∨ covers (_mp r) i.
Definition in_window (r : t) : Prop := ∀ i, covers (_mp r) i → i < consumed r + _capacity r.

(** What a reassembler whose stored bytes all lie in the window keeps of a substring: every byte in the window, and when the
    substring ends in the window, exactly its bytes are added. *)
Definition admits (r r' : t) (idx : Z) (data : bytes) : Prop :=
  in_window r →
  (∀ i, i < consumed r + _capacity r → held r i ∨ span idx data i → held r' i) ∧
  (idx + len data <= consumed r + _capacity r → in_window r' ∧ ∀ i, held r' i ↔ held r i ∨ span idx data i).

(** Writing the part of a piece from [_nidx] on. *)
Lemma feed_spec lo r a d :
  store_ok lo r → piece a d → a <= _nidx r < a + len d →
  ∃ o n, substr d (uint64 (_nidx r - a)) = Ok (zdrop (_nidx r - a) d)
    ∧ ByteStream.write (_output r) (zdrop (_nidx r - a) d) = Ok (o, n)
    ∧ uint64 (_nidx r + n) = _nidx r + n
    ∧ n = Z.min (a + len d - _nidx r) (_capacity r - ByteStream._sz (_output r))
    ∧ let r' := set_store r o (_mp r) (_nidx r + n) (_unassembled_bytes r) in
      store_ok lo r' ∧ kept r r'.
Proof.
  intros [] (Hd & Ha0 & HaN) Ha. pose proof (ByteStream.wf_sz _ so_out0) as Hsz.
  unfold consumed in *. rewrite uint64_id by lia. rewrite substr_ok by lia.
  assert (len (zdrop (_nidx r - a) d) = a + len d - _nidx r) as Hl by (rewrite len_zdrop; lia).
  destruct (ByteStream.stream_write_spec (_output r) (zdrop (_nidx r - a) d)) as (o & -> & Hap & _);
    [done | lia |].
  pose proof (ByteStream.ap_sz _ _ _ so_out0 Hap) as Hso.
  rewrite len_ztake, Hl in * by lia. rewrite so_cap0 in *.
  set (n := Z.min (a + len d - _nidx r) (_capacity r - ByteStream._sz (_output r))) in *.
  replace (Z.min (_capacity r - ByteStream._sz (_output r)) (a + len d - _nidx r)) with n in * by lia.
  exists o, n. split; [done|]. split; [done|]. split; [word_lia|]. split; [done|].
  destruct Hap. cbv zeta. split.
  - constructor; simpl; unfold consumed; simpl; rewrite ?Hso; try done; try lia.
    rewrite ap_contents, so_contents0. rewrite Hd, zdrop_slice, ztake_slice by lia.
      replace (a + (_nidx r - a)) with (_nidx r) by lia.
      replace (_nidx r + n - (ByteStream._sz (_output r) + n))
        with (_nidx r - ByteStream._sz (_output r)) by lia.
      rewrite slice_app by lia. f_equal. f_equal; lia.
  - constructor; simpl; unfold consumed; simpl; try done; lia.
Qed.

(** One round of [drain]: the first element is absorbed. *)
Lemma absorb_spec lo r k v m : store_ok lo r → _mp r = (k, v) :: m → k <= _nidx r →
  ∃ o nidx', (if uint64 (_nidx r - k) <? len v then
                rest ← substr v (uint64 (_nidx r - k));
                '(o, n) ← ByteStream.write (_output r) rest;
                Ok (o, uint64 (_nidx r + n))
              else Ok (_output r, _nidx r)) = Ok (o, nidx')
    ∧ uint64 (_unassembled_bytes r - len v) = total m
    ∧ let r1 := set_store r o m nidx' (total m) in
      store_ok (k + len v) r1 ∧ kept r r1 ∧ (∀ i, held r1 i → held r i) ∧
      (in_window r → in_window r1 ∧ ∀ i, held r1 i ↔ held r i).
Proof.
  intros Hok Hm Hle. destruct (Hok). rewrite Hm in *. simpl in *.
  destruct so_chunks0 as (Hlo & Hv & Hend & Hch). pose proof (len_nonneg v).
  pose proof (total_nonneg m). destruct (chunks_end_bounds _ _ Hch) as (Hb1 & Hb2 & Hb3).
  assert (uint64 (_unassembled_bytes r - len v) = total m) as Hun by (rewrite so_un0; word_lia).
  assert (∀ i, covers (_mp r) i ↔ k <= i < k + len v ∨ covers m i) as Hcov
    by (rewrite Hm; apply covers_cons).
  destruct (Z.ltb_spec (uint64 (_nidx r - k)) (len v)) as [Ht|Ht];
    rewrite (uint64_id (_nidx r - k)) in Ht by lia.
  - destruct (feed_spec lo r k v) as (o & n & E1 & E2 & E3 & Hn & Hok1 & Hk1);
      [done | split; [done | lia] | lia |].
    rewrite E1, result_bind_ok, E2, result_bind_ok, E3.
    exists o, (_nidx r + n). split; [done|]. split; [done|]. cbv zeta.
    split; [destruct Hok1; constructor; simpl in *; done || lia|].
    split; [destruct Hk1; by constructor|].
    split; [intros i; unfold held; simpl; rewrite Hcov;
            assert (0 <= i < _nidx r + n → 0 <= i < _nidx r ∨ k <= i < k + len v) by lia; tauto|].
    intros Hw.
    assert (k + len v <= consumed r + _capacity r) as Hfit.
    { enough (k + len v - 1 < consumed r + _capacity r) by lia. apply Hw, Hcov. lia. }
    destruct Hk1. unfold in_window, held, consumed in *. simpl in *. split.
    + intros i Hi. rewrite k_consumed0. apply Hw, Hcov. by right.
    + intros i. rewrite Hcov.
      assert (0 <= i < _nidx r + n ↔ 0 <= i < _nidx r ∨ k <= i < k + len v) as -> by lia. tauto.
  - exists (_output r), (_nidx r). split; [done|]. split; [done|]. cbv zeta.
    split; [constructor; simpl; done || lia|]. split; [constructor; simpl; done || lia|].
    split; [intros i; unfold held; simpl; rewrite Hcov; tauto|].
    intros Hw. unfold in_window, held in *. simpl. split.
    + intros i Hi. apply Hw, Hcov. by right.
    + intros i. rewrite Hcov. assert (k <= i < k + len v → 0 <= i < _nidx r) by lia. tauto.
Qed.

Lemma reassembler_drain_spec m : ∀ fuel r lo, _mp r = m → (length m < fuel)%nat → store_ok lo r →
  ∃ r', drain fuel r = Ok r' ∧ store_ok (_nidx r') r' ∧ kept r r' ∧ (∀ i, held r' i → held r i)
    ∧ (in_window r → in_window r' ∧ ∀ i, held r' i ↔ held r i).
Proof.
  induction m as [|[k v] m IH]; intros [|fuel] r lo Hm Hf Hok; simpl in Hf; try lia;
    simpl drain; rewrite Hm; simpl StdMap.begin; cbv iota beta.
  - exists r. split; [done|]. split; [|split; [apply kept_refl | split; done]].
    destruct Hok. pose proof (ByteStream.wf_sz _ so_out0).
    constructor; rewrite ?Hm in *; try done. unfold consumed in *. lia.
  - destruct (Z.leb_spec k (_nidx r)) as [Hle|Hgt].
    + destruct (absorb_spec lo r k v m Hok Hm Hle) as (o & nidx' & E & Hun & Hok1 & Hk1 & Hs1 & Hc1).
      rewrite E, result_bind_ok, Hun. simpl StdMap.erase. rewrite Z.eqb_refl.
      destruct (IH fuel (set_store r o m nidx' (total m)) _ eq_refl ltac:(lia) Hok1)
        as (r' & -> & Hok' & Hk' & Hs' & Hc').
      exists r'. split; [done|]. split; [done|]. split; [by eapply kept_trans|].
      split; [auto|]. intros Hw. destruct (Hc1 Hw) as [Hw1 Hh1]. destruct (Hc' Hw1) as [Hw' Hh'].
      split; [done|]. intros i. by rewrite Hh', Hh1.
    + exists r. split; [done|]. split; [|split; [apply kept_refl | split; done]]. destruct Hok.
      pose proof (ByteStream.wf_sz _ so_out0). constructor; try done; [|unfold consumed in *; lia].
      rewrite Hm in *. eapply chunks_weaken; [|exact so_chunks0]. intros e He. by injection He as <-.
Qed.

Lemma push_in_order_spec r data idx :
  store_ok (_nidx r) r → piece idx data → idx <= _nidx r →
  ∃ r', push_in_order r data idx = Ok r' ∧ store_ok (_nidx r') r' ∧ kept r r'
    ∧ (∀ i, held r' i → held r i ∨ span idx data i)
    ∧ admits r r' idx data.
Proof.
  intros Hok Hp Hle. unfold push_in_order. destruct (Hok), (Hp) as (_ & Hi0 & HiN).
  pose proof (len_nonneg data).
  destruct (Z.ltb_spec (uint64 (_nidx r - idx)) (len data)) as [Ht|Ht];
    rewrite (uint64_id (_nidx r - idx)) in Ht by lia.
  - destruct (feed_spec (_nidx r) r idx data) as (o & n & E1 & E2 & E3 & Hn & Hok1 & Hk1);
      [done | done | lia |].
    rewrite E1, result_bind_ok, E2, result_bind_ok, E3.
    set (r1 := set_store r o (_mp r) (_nidx r + n) (_unassembled_bytes r)) in *.
    destruct (reassembler_drain_spec (_mp r) (Datatypes.S (length (_mp r))) r1 (_nidx r) eq_refl ltac:(lia) Hok1)
      as (r' & -> & Hok' & Hk' & Hs' & Hc').
    exists r'. split; [done|]. split; [done|]. split; [by eapply kept_trans|].
    split; [intros i Hi%Hs'; revert Hi; unfold held, span; simpl;
            assert (0 <= i < _nidx r + n → 0 <= i < _nidx r ∨ idx <= i < idx + len data) by lia; tauto|].
    intros Hw. destruct Hc' as [Hw' Hh'].
    { intros i Hi. rewrite (k_consumed _ _ Hk1). by apply Hw. }
    split.
    { intros i Hi Hor. apply Hh'. revert Hor. unfold held, span, consumed in *. simpl. intros [[?|?]|?]; [left; lia | by right | left; lia]. }
    intros Hfit. split; [done|]. intros i. rewrite Hh'. unfold held, span, consumed in *. simpl.
    assert (0 <= i < _nidx r + n ↔ 0 <= i < _nidx r ∨ idx <= i < idx + len data) as -> by lia. tauto.
  - exists r. split; [done|]. split; [done|]. split; [apply kept_refl|].
    split; [tauto|]. intros Hw. split; [|intros _; split; [done|]].
    { intros i _ [?|?]; [done|]. left. unfold span in *. lia. }
    intros i. unfold held, span. assert (idx <= i < idx + len data → 0 <= i < _nidx r) by lia. tauto.
Qed.

(** Splitting a map at a key. *)
Lemma chunks_split idx m : ∀ lo, chunks lo m →
  ∃ m1 m2, m = m1 ++ m2 ∧ StdMap.below idx m1 ∧ (∀ e, head m2 = Some e → idx <= e.1).
Proof.
  induction m as [|[k v] m IH]; intros lo Hch.
  - exists [], []. repeat split; [constructor | done].
  - destruct Hch as (_ & _ & _ & Hch). destruct (decide (k < idx)).
    + destruct (IH _ Hch) as (m1 & m2 & -> & Hb & Hh).
      exists ((k, v) :: m1), m2. repeat split; [by constructor | done].
    + exists [], ((k, v) :: m). repeat split; [by constructor|].
      intros e He. injection He as <-. simpl. lia.
Qed.

(** Room for every byte: positions in the window do not exceed the capacity. *)
Lemma window_room lo m c cap : chunks lo m → c <= lo →
  (∀ i, covers m i → i < c + cap) → total m <= Z.max 0 (c + cap - lo).
Proof.
  revert lo. induction m as [|[k v] m IH]; intros lo Hch Hc Hw; simpl; [lia|].
  destruct Hch as (Hlo & _ & _ & Hch). pose proof (len_nonneg v).
  destruct (Z.eq_dec (len v) 0).
  - enough (total m <= Z.max 0 (c + cap - (k + len v))) by lia.
    apply IH; [done | lia |]. intros i Hi. apply Hw, covers_cons. by right.
  - assert (k + len v - 1 < c + cap) by (apply Hw, covers_cons; lia).
    enough (total m <= Z.max 0 (c + cap - (k + len v))) by lia.
    apply IH; [done | lia |]. intros i Hi. apply Hw, covers_cons. by right.
Qed.

Lemma chunks_truncate lo m1 k v m2 n : chunks lo (m1 ++ (k, v) :: m2) → 0 <= n <= len v →
  chunks lo (m1 ++ (k, ztake n v) :: m2).
Proof.
  rewrite !chunks_app. intros (? & Hk & Hv & ? & Hch) Hn. split; [done|]. simpl.
  rewrite len_ztake, Z.min_l by lia. split; [done|]. split; [|split; [lia|]].
  - rewrite Hv at 1. rewrite ztake_slice by lia. f_equal. lia.
  - eapply chunks_weaken; [|exact Hch]. intros e He. pose proof (chunks_head _ _ _ Hch He). lia.
Qed.

(** The two merges together: the new substring and the stored ones it touches
    become one element. *)
Lemma merge_spec r data idx :
  store_ok (_nidx r) r → piece idx data → _nidx r < idx →
  ∃ m1 m2 m2' str k str',
    merge_next (Datatypes.S (length (_mp r))) (_mp r) (_unassembled_bytes r) idx data
      = Ok (m1 ++ m2, total (m1 ++ m2), str) ∧
    merge_last (m1 ++ m2) (total (m1 ++ m2)) idx idx str
      = Ok (m2' ++ m2, total (m2' ++ m2), k, str') ∧
    StdMap.below k m2' ∧ (∀ e, head m2 = Some e → k < e.1) ∧
    chunks (_nidx r) (m2' ++ (k, str') :: m2) ∧ (∀ i, covers (m2' ++ m2) i → covers (_mp r) i) ∧
    ∀ i, covers (m2' ++ (k, str') :: m2) i ↔ covers (_mp r) i ∨ span idx data i.
Proof.
  intros [] Hp Hlt. pose proof (ByteStream.wf_sz _ so_out0) as Hsz. unfold consumed in so_nidx0.
  destruct (chunks_split idx (_mp r) _ so_chunks0) as (m1 & m2 & Hm & Hb & Hh).
  destruct (chunks_end_bounds _ _ so_chunks0) as (_ & HeN & Htot).
  rewrite so_un0, Hm in *. apply chunks_app in so_chunks0 as [Hch1 Hch2].
  destruct (merge_next_spec m2 (Datatypes.S (length (m1 ++ m2))) m1 idx data (chunks_end (_nidx r) m1))
    as (m2' & str & E1 & Hp1 & Hch2' & Hh2' & Htot' & Hs1 & Hc1); try done; try lia.
  { rewrite length_app. lia. }
  destruct (merge_last_spec m1 m2' idx str (_nidx r))
    as (m1' & k & str' & E2 & Hp2 & Hch1' & Hce & Hb' & Hch2'' & Hs2 & Hc2); try done; try lia.
  pose proof (len_nonneg str').
  exists m1, m2', m1', str, k, str'. split; [done|]. split; [done|]. split; [done|].
  split; [intros e He; pose proof (chunks_head _ _ _ Hch2'' He); lia|].
  split; [apply chunks_app; simpl; destruct Hp2 as (? & ? & ?); auto 10|].
  split; [intros i; rewrite !covers_app; intros [?%Hs2|?%Hs1]; auto|]. intros i. rewrite !covers_app, covers_cons. specialize (Hc1 i).
  specialize (Hc2 i).
  unfold span in *. tauto.
Qed.

Lemma push_out_of_order_spec r data idx :
  store_ok (_nidx r) r → piece idx data → _nidx r < idx →
  ∃ r', push_out_of_order r data idx = Ok r' ∧ store_ok (_nidx r') r' ∧ kept r r'
    ∧ (∀ i, held r' i → held r i ∨ span idx data i)
    ∧ admits r r' idx data.
Proof.
  intros Hok Hp Hlt.
  destruct (merge_spec r data idx Hok Hp Hlt) as (m1 & m2 & m1' & str & k & str' & E1 & E2 & Hb & Hh & Hch & Hsub & Hc).
  unfold push_out_of_order. rewrite E1, result_bind_ok, E2, result_bind_ok. clear E1 E2.
  cbv beta iota zeta. destruct (Hok). pose proof (ByteStream.wf_sz _ so_out0) as Hsz.
  unfold ByteStream.buffer_size. set (un := total (m1' ++ m2)).
  pose proof (uint64_range (uint64 (_capacity r - un) - ByteStream._sz (_output r))) as Hav.
  set (avail := uint64 (uint64 (_capacity r - un) - ByteStream._sz (_output r))) in *.
  pose proof (len_nonneg str') as Hl'. set (n := Z.min avail (len str')) in *.
  rewrite StdMap.emplace_app by done.
  pose proof (chunks_truncate _ _ _ _ _ n Hch ltac:(lia)) as Hch'.
  destruct (chunks_end_bounds _ _ Hch') as (_ & HeN' & Htot2).
  assert (total (m1' ++ (k, ztake n str') :: m2) = un + n) as Htn.
  { unfold un. rewrite !total_app. simpl. rewrite len_ztake by lia. lia. }
  assert (0 <= un) by apply total_nonneg. unfold consumed in so_nidx0.
  rewrite (uint64_id (un + n)) by lia.
  eexists. split; [done|]. split; [constructor; done || (unfold consumed; simpl; lia)|].
  split; [constructor; done || (simpl; lia)|].
  split.
  { unfold held. simpl. intros i [?|Hi]; [tauto|].
    assert (covers (m1' ++ (k, str') :: m2) i) as Hi'%Hc; [|tauto].
    rewrite covers_app, covers_cons in Hi |- *. rewrite len_ztake in Hi by lia.
    assert (k <= i < k + Z.min n (len str') → k <= i < k + len str') by lia. tauto. }
  intros Hw. unfold span in *. set (W := consumed r + _capacity r) in *. set (n0 := Z.max 0 (Z.min (len str') (W - k))).
  assert (n0 <= n) as Hn0.
  { pose proof (chunks_truncate _ _ _ _ _ n0 Hch ltac:(lia)) as Hch0.
    pose proof (window_room _ _ (consumed r) (_capacity r) Hch0 ltac:(unfold consumed; lia)) as Hroom0.
    fold W in Hroom0. assert (∀ i, covers (m1' ++ (k, ztake n0 str') :: m2) i → i < W) as Hin0.
    { intros i. specialize (Hsub i). specialize (Hw i). rewrite !covers_app, !covers_cons in *. rewrite len_ztake by lia. 
      intros [?|[?|?]]; [auto | lia | auto]. }
    specialize (Hroom0 Hin0). rewrite !total_app in Hroom0. simpl in Hroom0. rewrite len_ztake in Hroom0 by lia.
    assert (un + n0 <= _capacity r - ByteStream._sz (_output r)) by (unfold un, W, consumed in *; rewrite total_app; lia).
    pose proof (ByteStream.wf_cap _ so_out0). unfold n, avail. rewrite (uint64_id (_capacity r - un)) by lia. word_lia. }
  split.
  { intros i Hi Hor. unfold held in *. simpl. assert (0 <= i < _nidx r ∨ covers (m1' ++ (k, str') :: m2) i) as [?|Hc'];
      [destruct Hor as [[?|?]|?]; [by left | right; apply Hc; by left | right; apply Hc; by right] | by left |].
    right. revert Hc'. rewrite !covers_app, !covers_cons. rewrite len_ztake by lia. intros [?|[?|?]]; [by left | | by right; right].
    right. left. lia. }
  intros Hfit.
  assert (∀ i, covers (m1' ++ (k, str') :: m2) i → i < consumed r + _capacity r) as Hw'.
  { intros i [?|?]%Hc; [by apply Hw | unfold span in *; lia]. }
  assert (un + len str' <= _capacity r - ByteStream._sz (_output r)) as Hroom.
  { pose proof (window_room _ _ (consumed r) (_capacity r) Hch ltac:(unfold consumed; lia) Hw') as Ht.
    unfold un, consumed in *. rewrite !total_app in *. simpl in Ht. lia. }
  assert (avail = _capacity r - un - ByteStream._sz (_output r)) as Ha.
  { pose proof (ByteStream.wf_cap _ so_out0). unfold avail. word_lia. }
  rewrite (ztake_ge n str') by lia. unfold in_window, held. simpl. split; [exact Hw'|].
  intros i. rewrite Hc. tauto.
Qed.

(** ** Pushing consistent substrings

    [E] is the length of the stream, [N] a bound on the positions at which
    (possibly empty) substrings are pushed. *)

Context (E : Z) (HE : 0 <= E <= N).

Record inv (r : t) : Prop := {
  inv_store : store_ok (_nidx r) r;
  inv_data : ∀ i, held r i → i < E;
  inv_eof : _eof r = true → _eidx r = E;
  inv_ended : ByteStream.input_ended (_output r) = true → _eof r = true ∧ _nidx r = E
}.

(** A substring of the stream at its index; [eof] marks the end of the stream. *)
Definition consistent (data : bytes) (index : Z) (eof : bool) : Prop :=
  piece index data ∧ (data = [] ∨ index + len data <= E) ∧ (eof = true → index + len data = E).

Lemma inv_nidx r : inv r → 0 <= _nidx r <= E.
Proof.
  intros [[] Hd _ _]. pose proof (ByteStream.wf_sz _ so_out0). unfold consumed in *.
  destruct (Z.eq_dec (_nidx r) 0); [lia|].
  enough (_nidx r - 1 < E) by lia. apply Hd. left. lia.
Qed.

Lemma store_ok_end_input lo r : store_ok lo r →
  store_ok lo (set_stream_out r (ByteStream.end_input (_output r))).
Proof. intros []. constructor; try done. destruct so_out0. by constructor. Qed.

(** The final test of [push_substring]. *)
Lemma finish_spec r :
  store_ok (_nidx r) r → (∀ i, held r i → i < E) → (_eof r = true → _eidx r = E) →
  (ByteStream.input_ended (_output r) = true → _eof r = true ∧ _nidx r = E) →
  let r' := if _eof r && (_eidx r <=? _nidx r)
            then set_stream_out r (ByteStream.end_input (_output r)) else r in
  inv r' ∧ _capacity r' = _capacity r ∧ consumed r' = consumed r ∧ _nidx r' = _nidx r
  ∧ _mp r' = _mp r ∧ _eof r' = _eof r
  ∧ ByteStream.input_ended (_output r') = _eof r && (_nidx r =? E).
Proof.
  intros Hok Hd Heof Hend. cbv zeta.
  assert (_nidx r <= E) as HnE.
  { destruct (Z_le_gt_dec (_nidx r) 0); [lia|].
    enough (_nidx r - 1 < E) by lia. apply Hd. left. lia. }
  assert (_eof r && (_eidx r <=? _nidx r) = _eof r && (_nidx r =? E)) as ->.
  { destruct (_eof r); [|done]. rewrite Heof by done. simpl. repeat case_test; lia. }
  destruct (_eof r && (_nidx r =? E)) eqn:Ee.
  - apply andb_true_iff in Ee as [E1 E2%Z.eqb_eq].
    split; [constructor; [by apply store_ok_end_input | exact Hd | done | done] | done].
  - split; [by constructor|]. repeat split; try done.
    destruct (ByteStream.input_ended (_output r)) eqn:Hi; [|done].
    destruct (Hend eq_refl) as [E1 E2]. rewrite E1, E2, Z.eqb_refl in Ee. done.
Qed.

(** Recording the end mark. *)
Definition mark (r : t) (data : bytes) (index : Z) (eof : bool) : t :=
  if eof then mk (_output r) (_capacity r) (_mp r) (_nidx r) true (uint64 (index + len data))
                 (_unassembled_bytes r)
  else r.

Lemma mark_spec r data index eof : inv r → consistent data index eof →
  let r0 := mark r data index eof in
  store_ok (_nidx r0) r0 ∧ _nidx r0 = _nidx r ∧ _mp r0 = _mp r ∧ _capacity r0 = _capacity r
  ∧ _output r0 = _output r ∧ _eof r0 = _eof r || eof ∧ (_eof r0 = true → _eidx r0 = E).
Proof.
  intros [Hok _ Heof _] ((_ & ? & ?) & _ & He). unfold mark. destruct eof; simpl.
  - pose proof (len_nonneg data). rewrite uint64_id by lia. rewrite orb_true_r.
    split; [destruct Hok; by constructor|]. auto 10.
  - rewrite orb_false_r. auto 10.
Qed.

Lemma push_spec r data index eof : inv r → consistent data index eof →
  ∃ r', push_substring r data index eof = Ok r' ∧ inv r'
    ∧ _capacity r' = _capacity r ∧ consumed r' = consumed r ∧ _nidx r <= _nidx r'
    ∧ _eof r' = _eof r || eof
    ∧ ByteStream.input_ended (_output r') = _eof r' && (_nidx r' =? E)
    ∧ admits r r' index data.
Proof.
  intros Hinv Hcons. unfold push_substring.
  destruct (mark_spec r data index eof Hinv Hcons) as (Hok0 & Hn0 & Hm0 & Hc0 & Ho0 & Heo0 & Hei0).
  fold (mark r data index eof). set (r0 := mark r data index eof) in *. clearbody r0.
  destruct Hinv as [Hok Hd Heof Hend], Hcons as (Hp & HpE & He).
  assert (∃ r1, (if index <=? _nidx r0 then push_in_order r0 data index
                 else push_out_of_order r0 data index) = Ok r1
    ∧ store_ok (_nidx r1) r1 ∧ kept r0 r1 ∧ (∀ i, held r1 i → held r0 i ∨ span index data i)
    ∧ admits r0 r1 index data)
    as (r1 & -> & Hok1 & Hk1 & Hs1 & Hc1).
  { case_test; [apply push_in_order_spec | apply push_out_of_order_spec]; done || lia. }
  rewrite result_bind_ok. destruct Hk1.
  assert (∀ i, held r1 i → i < E) as Hd1.
  { intros i [Hi|Hi]%Hs1; [apply Hd; revert Hi; unfold held; by rewrite Hn0, Hm0|].
    unfold span in Hi. destruct HpE as [->|]; [unfold len in Hi; simpl in Hi|]; lia. }
  assert (ByteStream.input_ended (_output r1) = true → _eof r1 = true ∧ _nidx r1 = E) as Hend1.
  { rewrite k_ended0, Ho0, k_eof0, Heo0. intros Hie. destruct (Hend Hie) as [-> ?]. split; [done|].
    enough (_nidx r1 <= E) by lia. destruct (Z_le_gt_dec (_nidx r1) 0); [lia|].
    enough (_nidx r1 - 1 < E) by lia. apply Hd1. left. lia. }
  destruct (finish_spec r1 Hok1 Hd1) as (Hinv & Hcap & Hcon & Hn & Hm & Heo & Hie);
    [rewrite k_eof0, k_eidx0; done | done |].
  eexists. split; [done|].
  set (r2 := if _eof r1 && (_eidx r1 <=? _nidx r1)
             then set_stream_out r1 (ByteStream.end_input (_output r1)) else r1) in *. clearbody r2.
  unfold admits, held, in_window in *.
  assert (consumed r1 = consumed r) as Hcr by (rewrite k_consumed0; unfold consumed; congruence).
  assert (_capacity r1 = _capacity r) as Hcc by congruence.
  assert (consumed r0 = consumed r) as Hcr0 by congruence.
  rewrite Hn, Hm, Hcon, Hcap, Heo, Hie, Hcr, Hcc in *.
  rewrite Hm0, Hn0, Hc0, Hcr0 in *. rewrite k_eof0, Heo0.
  split; [done|]. split; [done|]. split; [done|]. split; [done|]. split; [done|].
  split; [done | exact Hc1].
Qed.

(** A substring with the first missing byte, and room for it, makes progress. *)
Lemma push_progress r data index eof r' : inv r → consistent data index eof →
  index <= _nidx r < index + len data → ByteStream._sz (_output r) < _capacity r →
  push_substring r data index eof = Ok r' → _nidx r < _nidx r'.
Proof.
  intros Hinv Hcons Hin Hroom. unfold push_substring. fold (mark r data index eof).
  destruct (mark_spec r data index eof Hinv Hcons) as (Hok0 & Hn0 & Hm0 & Hc0 & Ho0 & _).
  set (r0 := mark r data index eof) in *. clearbody r0. destruct Hcons as [Hp _].
  replace (index <=? _nidx r0) with true by (symmetry; apply Z.leb_le; lia).
  destruct (feed_spec (_nidx r0) r0 index data Hok0 Hp ltac:(lia)) as (o & n & E1 & E2 & E3 & Hn & Hok1 & Hk1).
  pose proof Hok0 as []. destruct Hp as (_ & Hi0 & HiN).
  unfold push_in_order. rewrite (uint64_id (_nidx r0 - index)) by lia.
  replace (_nidx r0 - index <? len data) with true by (symmetry; apply Z.ltb_lt; lia).
  rewrite (uint64_id (_nidx r0 - index)) in E1 by lia. rewrite E1, result_bind_ok, E2, result_bind_ok, E3.
  destruct (reassembler_drain_spec (_mp r0) (Datatypes.S (length (_mp r0)))
    (set_store r0 o (_mp r0) (_nidx r0 + n) (_unassembled_bytes r0)) (_nidx r0) eq_refl ltac:(lia) Hok1)
    as (r1 & -> & _ & Hk' & _). rewrite result_bind_ok. intros [= <-].
  pose proof (k_nidx _ _ Hk') as Hle. simpl in Hle. rewrite Ho0, Hc0 in Hn. destruct (_ && _); simpl; lia.
Qed.

(** The reader takes bytes from the output. *)
Lemma take_spec r n : inv r → 0 <= n →
  ∃ o b, ByteStream.read (_output r) n = Ok (o, b)
    ∧ b = slice stream (consumed r) (len b) ∧ len b = Z.min n (ByteStream._sz (_output r))
    ∧ let r' := set_stream_out r o in
      inv r' ∧ _capacity r' = _capacity r ∧ consumed r' = consumed r + len b
      ∧ (in_window r → in_window r').
Proof.
  intros [[] Hd Heof Hend] Hn. rewrite ByteStream.stream_read_spec by done.
  pose proof (ByteStream.len_contents _ so_out0) as Hl. pose proof (ByteStream.wf_sz _ so_out0).
  destruct (ByteStream.popped_spec (_output r) (Z.min n (ByteStream._sz (_output r))) so_out0)
    as [Hw Hc]; [lia|].
  set (sz := ByteStream._sz (_output r)) in *. unfold consumed in *. fold sz in so_nidx0, so_contents0.
  eexists _, _. split; [done|]. rewrite len_ztake, Hl by lia.
  rewrite so_contents0 at 1. rewrite ztake_slice by lia. split; [done|]. split; [done|].
  cbv zeta. split; [|split; [done|split]].
  - constructor; [constructor; try done | exact Hd | done | done].
    + unfold consumed; simpl. fold sz. lia.
    + unfold consumed; simpl. fold sz. rewrite Hc, so_contents0, zdrop_slice by lia. f_equal. lia.
  - simpl. fold sz. lia.
  - intros Hwin i Hi. unfold in_window, consumed in *. simpl. fold sz in Hwin |- *.
    specialize (Hwin i Hi). lia.
Qed.

Lemma window_capacity r : inv r → in_window r →
  ByteStream.buffer_size (_output r) + unassembled_bytes r <= _capacity r.
Proof.
  intros [[] _ _ _] Hw. pose proof (ByteStream.wf_sz _ so_out0).
  unfold ByteStream.buffer_size, unassembled_bytes. rewrite so_un0.
  pose proof (window_room _ _ (consumed r) (_capacity r) so_chunks0 ltac:(unfold consumed; lia) Hw).
  unfold consumed in *. lia.
Qed.

(** The position after the last contiguous byte is not held. *)
Lemma next_not_held r : inv r → ¬ held r (_nidx r).
Proof.
  intros [[] _ _ _] [?|Hc]; [lia|]. pose proof (covers_gt _ _ _ so_chunks0 Hc). lia.
Qed.

End stream.

(** ** Runs: substrings arrive and the reader reads, in any order *)

Inductive event :=
| Push (data : bytes) (index : Z) (eof : bool)
| Take (n : Z).

(** The final state and everything the reader got. *)
Fixpoint run (r : t) (es : list event) : result (t * bytes) :=
  match es with
  | [] => Ok (r, [])
  | Push data index eof :: es => r ← push_substring r data index eof; run r es
  | Take n :: es =>
      '(o, b) ← ByteStream.read (_output r) n;
      '(r, b') ← run (set_stream_out r o) es;
      Ok (r, b ++ b')
  end.

Definition event_ok (stream : Z → byte) (N : Z) (e : event) : Prop :=
  match e with
  | Push data index eof => consistent stream N N data index eof
  | Take n => 0 <= n
  end.

(** A position some event pushes. *)
Definition pushed (es : list event) (i : Z) : Prop :=
  ∃ data index eof, Push data index eof ∈ es ∧ index <= i < index + len data.

(** Every pushed substring ends within the capacity counted from the reader's
    position at that moment: the window a receiver advertises. *)
Fixpoint fits (r : t) (es : list event) : Prop :=
  match es with
  | [] => True
  | Push data index eof :: es =>
      index + len data <= consumed r + _capacity r ∧
      match push_substring r data index eof with Ok r => fits r es | Throw _ => False end
  | Take n :: es =>
      match ByteStream.read (_output r) n with
      | Ok (o, _) => fits (set_stream_out r o) es
      | Throw _ => False
      end
  end.

Lemma reassembler_inv_new stream N E cap : 0 <= E <= N → 0 <= cap < max_string →
  inv stream N E (new cap) ∧ in_window (new cap) ∧ consumed (new cap) = 0 ∧ _nidx (new cap) = 0.
Proof.
  intros. destruct (ByteStream.wf_new cap) as [Hw Hc]; [lia|]. split; [|split; [|done]].
  - constructor; [constructor | | done | done]; simpl; try done; try (unfold consumed; simpl; lia).
    intros i [?|?%covers_nil]; [simpl in *; lia | done].
  - by intros i ?%covers_nil.
Qed.

Section runs.
Context (stream : Z → byte) (N : Z) (HN : N < two64) (HN' : 0 <= N <= N).

Lemma pushed_cons data index eof es i :
  pushed (Push data index eof :: es) i ↔ span index data i ∨ pushed es i.
Proof.
  unfold pushed, span. setoid_rewrite elem_of_cons. split.
  - intros (d & x & e & [E|?] & ?); [injection E as -> -> ->; by left | right; eauto].
  - intros [?|(d & x & e & ? & ?)]; eauto 10.
Qed.

Lemma pushed_take n es i : pushed (Take n :: es) i ↔ pushed es i.
Proof.
  unfold pushed. setoid_rewrite elem_of_cons. split; intros (d & x & e & H & ?); [|eauto 10].
  destruct H; [done | eauto].
Qed.

(** The end of the stream has been announced. *)
Definition eof_pushed (es : list event) : Prop := ∃ d x, Push d x true ∈ es.

Lemma eof_pushed_cons data index eof es : eof_pushed (Push data index eof :: es) ↔ eof = true ∨ eof_pushed es.
Proof.
  unfold eof_pushed. setoid_rewrite elem_of_cons. split.
  - intros (d & x & [E|?]); [injection E as _ _ <-; by left | right; eauto].
  - intros [->|(d & x & ?)]; eauto.
Qed.

Lemma eof_pushed_take n es : eof_pushed (Take n :: es) ↔ eof_pushed es.
Proof.
  unfold eof_pushed. setoid_rewrite elem_of_cons. split; intros (d & x & H); [|eauto]. destruct H; [done | eauto].
Qed.

(** What a run guarantees; the second part needs the substrings to fit. *)
Definition run_ok (r : t) (es : list event) (r' : t) (b : bytes) : Prop :=
  inv stream N N r' ∧ _capacity r' = _capacity r
  ∧ b = slice stream (consumed r) (len b) ∧ consumed r' = consumed r + len b
  ∧ (_eof r' = true ↔ _eof r = true ∨ eof_pushed es)
  ∧ (ByteStream.input_ended (_output r) = _eof r && (_nidx r =? N) →
     ByteStream.input_ended (_output r') = _eof r' && (_nidx r' =? N))
  ∧ (fits r es → in_window r → in_window r' ∧ ∀ i, held r' i ↔ held r i ∨ pushed es i).

Lemma run_ok_push r r1 r' data index eof es b :
  inv stream N N r → consistent stream N N data index eof →
  push_substring r data index eof = Ok r1 → run_ok r1 es r' b →
  run_ok r (Push data index eof :: es) r' b.
Proof.
  intros Hr Hc E1 (Hi & Hcap & Hb & Hcon & He & Hie & Hw).
  destruct (push_spec stream N HN N HN' r data index eof Hr Hc)
    as (r1' & E1' & Hr1 & Hcap1 & Hcon1 & Hn1 & Heof1 & Hend1 & Hw1).
  assert (r1' = r1) as -> by congruence. rewrite Hcon1, Hcap1 in *.
  split; [done|]. split; [done|]. split; [done|]. split; [done|]. split; [|split].
  - rewrite He, Heof1, orb_true_iff, eof_pushed_cons. tauto.
  - intros _. by apply Hie.
  - simpl. rewrite E1. intros [Hfit Hf] Hwin. destruct (proj2 (Hw1 Hwin) Hfit) as [Hwin1 Hh1].
    destruct (Hw Hf Hwin1) as [Hwin' Hh]. split; [done|].
    intros i. rewrite Hh, Hh1, pushed_cons. tauto.
Qed.

Lemma run_ok_take r o r' n es b b' :
  inv stream N N r → 0 <= n → ByteStream.read (_output r) n = Ok (o, b) →
  run_ok (set_stream_out r o) es r' b' → run_ok r (Take n :: es) r' (b ++ b').
Proof.
  intros Hr Hn E (Hi & Hcap & Hb' & Hcon' & He & Hie & Hw).
  destruct (take_spec stream N N r n Hr Hn) as (o' & b0 & E' & Hb & Hlb & Hr1 & Hcap1 & Hcon1 & Hwin1).
  rewrite E in E'. injection E' as <- <-. rewrite Hcon1 in *. pose proof (len_nonneg b).
  pose proof (len_nonneg b'). unfold run_ok. rewrite len_app.
  split; [done|]. split; [done|]. split; [|split; [lia|split; [|split]]].
  - rewrite slice_app by lia. congruence.
  - rewrite He. simpl. rewrite eof_pushed_take. done.
  - intros Hie0. apply Hie. simpl. rewrite <- Hie0.
    rewrite ByteStream.stream_read_spec in E by (done || apply Hr). by injection E as <- _.
  - simpl. rewrite E. intros Hf Hwin. destruct (Hw Hf (Hwin1 Hwin)) as [Hwin' Hh]. split; [done|].
    intros i. rewrite Hh, pushed_take. done.
Qed.

Lemma reassembler_run_spec es : ∀ r, inv stream N N r → Forall (event_ok stream N) es →
  ∃ r' b, run r es = Ok (r', b) ∧ run_ok r es r' b.
Proof.
  induction es as [|e es IH]; intros r Hr Hes.
  - exists r, []. split; [done|]. split; [done|]. split; [done|].
    unfold len; simpl. split; [done|]. split; [lia|]. split; [|split; [done|]].
    + split; [by left|]. intros [?|(d & x & Hin)]; [done | by apply elem_of_nil in Hin].
    + intros _ ?. split; [done|]. intros i. split; [by left|]. intros [?|(d & x & e & Hin & _)]; [done|].
      by apply elem_of_nil in Hin.
  - apply Forall_cons in Hes as [He Hes]. destruct e as [data index eof|n]; simpl in He.
    + destruct (push_spec stream N HN N HN' r data index eof Hr He) as (r1 & E1 & Hr1 & _).
      destruct (IH r1 Hr1 Hes) as (r' & b & E & Hok). exists r', b. simpl.
      rewrite E1, result_bind_ok. split; [done|]. by eapply run_ok_push.
    + destruct (take_spec stream N N r n Hr He) as (o & b & E1 & _ & _ & Hr1 & _).
      destruct (IH _ Hr1 Hes) as (r' & b' & E & Hok). exists r', (b ++ b'). simpl.
      rewrite E1, result_bind_ok, E, result_bind_ok. split; [done|]. by eapply run_ok_take.
Qed.

End runs.

(** ** Properties *)

(** C7: Whatever the order, overlap and repetition in which substrings of a
    stream of length at most [N] arrive, and however reads are interleaved,
    no call faults; the bytes the reader got followed by the bytes waiting
    for it are exactly the first [next_idx] bytes of the stream; and the output
    is ended only when the whole stream has been written to it. *)
Theorem reassembly_is_prefix (stream : Z → byte) (N cap : Z) (es : list event) :
  0 <= N < two64 → 0 <= cap < max_string → Forall (event_ok stream N) es →
  ∃ r b, run (new cap) es = Ok (r, b) ∧
    b ++ ByteStream.contents (stream_out r) = slice stream 0 (next_idx r) ∧
    0 <= next_idx r <= N ∧
    ByteStream.input_ended (stream_out r) = _eof r && (next_idx r =? N) ∧
    unassembled_bytes r = total (_mp r).
Proof.
  intros HN Hc Hes. destruct (reassembler_inv_new stream N N cap) as (Hi & _ & Hcon0 & _); [lia..|].
  destruct (reassembler_run_spec stream N ltac:(lia) ltac:(lia) es (new cap) Hi Hes)
    as (r & b & E & Hr & Hcap & Hb & Hcon & _ & Hie & _).
  rewrite Hcon0 in *. pose proof (len_nonneg b). exists r, b. split; [done|].
  destruct Hr as [[] _ _ _]. pose proof (ByteStream.wf_sz _ so_out0).
  unfold stream_out, next_idx, unassembled_bytes, consumed in *.
  split; [|split; [lia|split; [by apply Hie | done]]].
  rewrite so_contents0, Hb at 1.
  replace (_nidx r) with (len b + ByteStream._sz (_output r)) by lia.
  rewrite slice_app by lia. f_equal. f_equal. lia.
Qed.

(** C8: When every substring ends inside the window (the capacity counted from
    the reader's position), nothing is lost: after any run the reassembler
    holds exactly the positions that were pushed, the next index is the first
    position never pushed, and the bytes stored never exceed the capacity.  The output is ended exactly when the
    end mark and all positions have been pushed, not before and not later; it is complete then. *)
Theorem reassembly_keeps_all (stream : Z → byte) (N cap : Z) (es : list event) :
  0 <= N < two64 → 0 <= cap < max_string → Forall (event_ok stream N) es → fits (new cap) es →
  ∃ r b, run (new cap) es = Ok (r, b) ∧
    (∀ i, held r i ↔ pushed es i) ∧
    ¬ pushed es (next_idx r) ∧ (∀ i, 0 <= i < next_idx r → pushed es i) ∧
    ByteStream.buffer_size (stream_out r) + unassembled_bytes r <= cap ∧
    (ByteStream.input_ended (stream_out r) = true ↔ eof_pushed es ∧ ∀ i, 0 <= i < N → pushed es i) ∧
    (ByteStream.input_ended (stream_out r) = true → next_idx r = N).
Proof.
  intros HN Hc Hes Hf. assert (0 <= N <= N) as HN' by lia.
  destruct (reassembler_inv_new stream N N cap) as (Hi & Hwin & Hcon0 & Hn0); [lia..|].
  destruct (reassembler_run_spec stream N ltac:(lia) ltac:(lia) es (new cap) Hi Hes)
    as (r & b & E & Hr & Hcap & Hb & Hcon & He & Hie & Hw).
  destruct (Hw Hf Hwin) as [Hwin' Hh]. exists r, b. split; [done|].
  assert (∀ i, held r i ↔ pushed es i) as Hheld.
  { intros i. rewrite Hh. split; [|by right]. intros [[?|?%covers_nil]|?]; [|done..].
    rewrite Hn0 in *. lia. }
  unfold next_idx, stream_out.
  split; [done|]. split; [rewrite <- Hheld; by eapply next_not_held|].
  split; [intros i ?; apply Hheld; by left|].
  split; [rewrite <- (Hcap : _capacity r = cap); by eapply window_capacity|].
  pose proof (inv_nidx stream N N HN' r Hr) as Hle.
  assert ((∀ i, 0 <= i < N → pushed es i) ↔ _nidx r = N) as Hall.
  { split; [|intros HnN i Hin; apply Hheld; left; lia]. intros Hall. destruct (Z.eq_dec (_nidx r) N) as [|Hne]; [done|]. exfalso.
    apply (next_not_held stream N N r Hr). apply Hheld, Hall. lia. }
  rewrite (Hie eq_refl), andb_true_iff, Z.eqb_eq, He, Hall. simpl. split; [|tauto].
  split; [|tauto]. intros [[?|?] ?]; done.
Qed.

(** The substrings cut from a stream are consistent with it. *)
Lemma push_slice_ok stream N a n eof :
  0 <= a → 0 <= n → a + n <= N → (eof = true → a + n = N) →
  event_ok stream N (Push (slice stream a n) a eof).
Proof. intros. simpl. unfold consistent, piece. rewrite len_slice by lia. auto 10. Qed.

Ltac solve_event_ok :=
  repeat (apply Forall_cons; split); try apply Forall_nil; try (simpl; lia);
  apply push_slice_ok; try lia; intros E; try discriminate E; lia.

(** The stream "abcdefgh" and a run that delivers it out of order, with an
    overlap, a duplicate and a read in between. *)
Definition demo_stream (i : Z) : byte := byte_of (0x61 + i).
Definition demo_events : list event :=
  [Push (slice demo_stream 3 3) 3 false; Push (slice demo_stream 5 3) 5 true;
   Push (slice demo_stream 0 4) 0 false; Take 3; Push (slice demo_stream 2 2) 2 false].

Lemma demo_events_ok : Forall (event_ok demo_stream 8) demo_events.
Proof. unfold demo_events. solve_event_ok. Qed.

Lemma reassembly_is_prefix_witness :
  ∃ r b, run (new 8) demo_events = Ok (r, b) ∧
    b ++ ByteStream.contents (stream_out r) = slice demo_stream 0 (next_idx r) ∧
    0 <= next_idx r <= 8 ∧
    ByteStream.input_ended (stream_out r) = _eof r && (next_idx r =? 8) ∧
    unassembled_bytes r = total (_mp r).
Proof. apply (reassembly_is_prefix demo_stream 8 8); [lia | lia | apply demo_events_ok]. Defined.

Lemma reassembly_keeps_all_witness :
  ∃ r b, run (new 8) demo_events = Ok (r, b) ∧
    (∀ i, held r i ↔ pushed demo_events i) ∧
    ¬ pushed demo_events (next_idx r) ∧ (∀ i, 0 <= i < next_idx r → pushed demo_events i) ∧
    ByteStream.buffer_size (stream_out r) + unassembled_bytes r <= 8 ∧
    (ByteStream.input_ended (stream_out r) = true ↔ eof_pushed demo_events ∧ ∀ i, 0 <= i < 8 → pushed demo_events i) ∧
    (ByteStream.input_ended (stream_out r) = true → next_idx r = 8).
Proof.
  apply (reassembly_keeps_all demo_stream 8 8); [lia | lia | apply demo_events_ok |].
  vm_compute. repeat split; intros; discriminate.
Defined.

(** Three substrings of one stream for a reassembler of capacity 4: four bytes
    far ahead, four bytes at the front, six bytes further ahead. *)
Definition overfull_events : list event :=
  [Push (slice demo_stream 10 4) 10 false; Push (slice demo_stream 0 4) 0 false;
   Push (slice demo_stream 20 6) 20 false].

(** The capacity does not bound what is stored: a reassembler of capacity 4
    ends up holding 14 bytes after three pushes of one stream.  The second
    push fills the output without counting the substrings already stored, after
    which [_capacity - _unassembled_bytes - buffer_size] wraps around and the
    third is stored in full. *)
Theorem capacity_not_enforced :
  Forall (event_ok demo_stream 26) overfull_events ∧
  ∃ r, run (new 4) overfull_events = Ok (r, []) ∧ _capacity r = 4 ∧
    ByteStream.buffer_size (stream_out r) + unassembled_bytes r = 14.
Proof.
  split.
  - unfold overfull_events. solve_event_ok.
  - eexists. vm_compute. repeat split.
Qed.

End StreamReassembler.
