(* ===== verification/buffer.v ===== *)
(** * Buffers (src/lab/libsponge/util/buffer.hh, .cc)

    [Buffer] is a reference-counted string with an offset; copies share the
    read-only string, so a value with its own offset is a faithful model.
    [BufferList] is a queue of buffers and [BufferViewList] a queue of views.
    The theorems relate the three to the plain byte string they stand for. *)

From S2P Require Import Prelude.

Module Buffer.

(** [_storage] is null after the whole string has been discarded. *)
Record t := mk { _storage : option bytes; _starting_offset : Z }.

Definition empty : t := mk None 0.
Definition of_string (str : bytes) : t := mk (Some str) 0.

Definition str (b : t) : bytes :=
  match _storage b with
  | None => []
  | Some s => zdrop (_starting_offset b) s
  end.

(** [str().at(n)] throws when [n] is out of range. *)
Definition at_ (b : t) (n : Z) : result byte :=
  match str b !! Z.to_nat n with Some c => Ok c | None => Throw out_of_range end.

Definition size (b : t) : Z := len (str b).
Definition copy (b : t) : bytes := str b.

Definition remove_prefix (b : t) (n : Z) : result t :=
  if len (str b) <? n then Throw out_of_range
  else
    let off := uint64 (_starting_offset b + n) in
    match _storage b with
    | Some s => if off =? len s then Ok (mk None off) else Ok (mk (Some s) off)
    | None => Ok (mk None off)
    end.

(** The offset lies inside the string. *)
Definition wf (b : t) : Prop :=
  match _storage b with
  | None => True
  | Some s => 0 <= _starting_offset b <= len s ∧ len s < two64
  end.

Lemma wf_of_string s : len s < two64 → wf (of_string s).
Proof. unfold wf; simpl. pose proof (len_nonneg s). lia. Qed.

Lemma str_of_string s : str (of_string s) = s.
Proof. reflexivity. Qed.

Lemma len_str_wf b : wf b → len (str b) < two64.
Proof.
  unfold wf, str. destruct (_storage b) as [s|]; [|done]. intros [? ?]. rewrite len_zdrop by lia. pose proof (len_nonneg s). lia.
Qed.

Lemma remove_prefix_ok b n : wf b → 0 <= n <= size b →
  ∃ b', remove_prefix b n = Ok b' ∧ wf b' ∧ str b' = zdrop n (str b).
Proof.
  unfold remove_prefix, size, wf, str. intros Hw Hn. case_test; [lia|].
  destruct b as [[s|] off]; simpl in *.
  - rewrite len_zdrop in * by lia. rewrite uint64_id by lia.
    destruct (Z.eqb_spec (off + n) (len s)); eexists; (split; [done|]); simpl;
      rewrite zdrop_zdrop by lia; [|split; [lia | done]].
    split; [done|]. by rewrite zdrop_ge by lia.
  - eexists. split; [done|]. simpl. by rewrite zdrop_nil.
Qed.

Lemma remove_prefix_throws b n : size b < n → remove_prefix b n = Throw out_of_range.
Proof. unfold remove_prefix, size. case_test; [done | lia]. Qed.

Lemma at_ok b n c : str b !! Z.to_nat n = Some c → at_ b n = Ok c.
Proof. unfold at_. by intros ->. Qed.

End Buffer.

Module BufferList.

Definition t := list Buffer.t.

Definition empty : t := [].
Definition of_buffer (b : Buffer.t) : t := [b].
Definition of_string (str : bytes) : t := [Buffer.of_string str].
Definition buffers (l : t) : list Buffer.t := l.

Definition append (l other : t) : t := l ++ other.

(** [operator Buffer]: only for at most one buffer. *)
Definition to_buffer (l : t) : result Buffer.t :=
  match l with
  | [] => Ok Buffer.empty
  | [b] => Ok b
  | _ => Throw runtime_error
  end.

Definition concatenate (l : t) : bytes := foldl (λ ret b, ret ++ Buffer.str b) [] l.
Definition size (l : t) : Z := foldl (λ ret b, uint64 (ret + Buffer.size b)) 0 l.

Fixpoint remove_prefix (l : t) (n : Z) : result t :=
  if 0 <? n then
    match l with
    | [] => Throw out_of_range
    | b :: l' =>
        if n <? Buffer.size b then b ← Buffer.remove_prefix b n; Ok (b :: l')
        else remove_prefix l' (uint64 (n - Buffer.size b))
    end
  else Ok l.

Definition wf (l : t) : Prop := Forall Buffer.wf l.

Lemma concatenate_acc l : ∀ acc,
  foldl (λ ret b, ret ++ Buffer.str b) acc l = acc ++ concatenate l.
Proof.
  unfold concatenate. induction l as [|b l IH]; intros acc; simpl; [by rewrite app_nil_r|].
  rewrite IH, (IH (Buffer.str b)). by rewrite app_assoc.
Qed.

Lemma concatenate_cons b l : concatenate (b :: l) = Buffer.str b ++ concatenate l.
Proof. unfold concatenate; simpl. by rewrite concatenate_acc. Qed.

Lemma concatenate_append l1 l2 : concatenate (append l1 l2) = concatenate l1 ++ concatenate l2.
Proof.
  induction l1 as [|b l1 IH]; [done|]. unfold append in *. simpl.
  by rewrite !concatenate_cons, IH, app_assoc.
Qed.

Lemma concatenate_string s : concatenate (of_string s) = s.
Proof. reflexivity. Qed.

Lemma size_concatenate l : len (concatenate l) < two64 → size l = len (concatenate l).
Proof.
  unfold size. enough (∀ acc, 0 <= acc → acc + len (concatenate l) < two64 →
    foldl (λ ret b, uint64 (ret + Buffer.size b)) acc l = acc + len (concatenate l)) as H.
  { intros. rewrite H; lia. }
  induction l as [|b l IH]; intros acc Ha Hl; simpl.
  - unfold concatenate, len in *; simpl in *. lia.
  - rewrite concatenate_cons, len_app in *. pose proof (len_nonneg (concatenate l)).
    pose proof (len_nonneg (Buffer.str b)). unfold Buffer.size in *.
    rewrite uint64_id, IH; lia.
Qed.

(** [BufferList::remove_prefix] discards exactly the first [n] bytes of the
    concatenated string, whatever the split into buffers, and throws exactly
    when fewer than [n] bytes are there. *)
Theorem remove_prefix_concatenate (l : t) (n : Z) :
  wf l → 0 <= n < two64 →
  if len (concatenate l) <? n then remove_prefix l n = Throw out_of_range
  else ∃ l', remove_prefix l n = Ok l' ∧ wf l' ∧ concatenate l' = zdrop n (concatenate l).
Proof.
  intros Hw. revert n. induction Hw as [|b l Hb Hw IH]; intros n Hn; simpl remove_prefix.
  - change (len (concatenate [])) with 0. destruct (Z.ltb_spec 0 n); [done|].
    exists []. replace n with 0 by lia. split; [done|]. split; [constructor | done].
  - rewrite concatenate_cons, len_app. fold (Buffer.size b).
    assert (0 <= Buffer.size b) by apply len_nonneg. pose proof (len_nonneg (concatenate l)).
    destruct (Z.ltb_spec 0 n).
    2:{ case_test; [lia|]. exists (b :: l). rewrite concatenate_cons.
        replace n with 0 by lia. split; [done|]. split; [by constructor | done]. }
    destruct (Z.ltb_spec n (Buffer.size b)).
    + case_test; [lia|]. destruct (Buffer.remove_prefix_ok b n Hb) as (b' & -> & Hb' & Hs); [lia|].
      exists (b' :: l). rewrite result_bind_ok, concatenate_cons, Hs.
      split; [done|]. split; [by constructor|]. symmetry. apply zdrop_app_le. unfold Buffer.size in *. lia.
    + rewrite uint64_id by lia. specialize (IH (n - Buffer.size b) ltac:(lia)).
      replace (Buffer.size b + len (concatenate l) <? n)
        with (len (concatenate l) <? n - Buffer.size b) by (repeat case_test; lia).
      replace (zdrop n (Buffer.str b ++ concatenate l))
        with (zdrop (n - Buffer.size b) (concatenate l)); [done|].
      replace n with (Buffer.size b + (n - Buffer.size b)) at 2 by lia.
      rewrite <- (zdrop_zdrop _ (Buffer.size b)) by lia. unfold Buffer.size. by rewrite zdrop_app.
Qed.

Lemma remove_prefix_concatenate_witness :
  if len (concatenate [Buffer.of_string [x61; x62]; Buffer.of_string [x63]]) <? 2
  then remove_prefix [Buffer.of_string [x61; x62]; Buffer.of_string [x63]] 2 = Throw out_of_range
  else ∃ l', remove_prefix [Buffer.of_string [x61; x62]; Buffer.of_string [x63]] 2 = Ok l' ∧ wf l' ∧
    concatenate l' = zdrop 2 (concatenate [Buffer.of_string [x61; x62]; Buffer.of_string [x63]]).
Proof.
  apply remove_prefix_concatenate; [|lia].
  repeat constructor; unfold len; simpl; lia.
Defined.

End BufferList.

Module BufferViewList.

(** A queue of string views. *)
Definition t := list bytes.

Definition of_view (str : bytes) : t := [str].
Definition of_list (l : BufferList.t) : t := Buffer.str <$> l.

Fixpoint remove_prefix (l : t) (n : Z) : result t :=
  if 0 <? n then
    match l with
    | [] => Throw out_of_range
    | v :: l' =>
        if n <? len v then Ok (zdrop n v :: l')
        else remove_prefix l' (uint64 (n - len v))
    end
  else Ok l.

Definition size (l : t) : Z := foldl (λ ret v, uint64 (ret + len v)) 0 l.

(** The [iovec] array: base address and length of each view, here the bytes. *)
Definition as_iovecs (l : t) : list bytes := l.

(** A view list behaves as the buffer list it was made from. *)
Lemma of_list_concat l : concat (of_list l) = BufferList.concatenate l.
Proof.
  induction l as [|b l IH]; [done|]. rewrite BufferList.concatenate_cons. simpl. by rewrite IH.
Qed.

Lemma view_remove_prefix l n : 0 <= n <= len (concat l) → len (concat l) < two64 →
  ∃ l', remove_prefix l n = Ok l' ∧ concat l' = zdrop n (concat l).
Proof.
  revert n. induction l as [|v l IH]; intros n Hn Hl; simpl in *.
  - unfold len in *; simpl in *. case_test; [lia|]. exists []. by rewrite zdrop_nil.
  - rewrite len_app in *. pose proof (len_nonneg v). pose proof (len_nonneg (concat l)).
    destruct (Z.ltb_spec 0 n).
    2:{ exists (v :: l). replace n with 0 by lia. done. }
    destruct (Z.ltb_spec n (len v)).
    + exists (zdrop n v :: l). split; [done|]. simpl. symmetry. apply zdrop_app_le. lia.
    + rewrite uint64_id by lia. destruct (IH (n - len v)) as (l' & -> & E); [lia..|].
      exists l'. split; [done|]. rewrite E.
      replace n with (len v + (n - len v)) at 2 by lia.
      rewrite <- (zdrop_zdrop _ (len v)) by lia. by rewrite zdrop_app.
Qed.

Lemma view_size l : len (concat l) < two64 → size l = len (concat l).
Proof.
  unfold size. enough (∀ acc, 0 <= acc → acc + len (concat l) < two64 →
    foldl (λ ret v, uint64 (ret + len v)) acc l = acc + len (concat l)) as H.
  { intros. rewrite H; lia. }
  induction l as [|v l IH]; intros acc Ha Hl; simpl in *.
  - rewrite len_nil. lia.
  - rewrite len_app in *. pose proof (len_nonneg (concat l)). pose proof (len_nonneg v).
    rewrite uint64_id, IH; lia.
Qed.

End BufferViewList.
