(* ===== verification/parser.v ===== *)
(** * Parsing and unparsing of network integers (src/lab/libsponge/util/parser.hh, .cc)

    [NetParser] reads big-endian integers from a buffer and remembers an error;
    [NetUnparser] appends them to a string.  [parse_unparse] is the round
    trip on which the header round trips of the other files rest. *)

From Stdlib Require Import Strings.String.
From S2P Require Import Prelude buffer.

Inductive ParseResult :=
| NoError
| BadChecksum
| PacketTooShort
| WrongIPVersion
| HeaderTooShort
| TruncatedPacket
| Unsupported.

#[global] Instance ParseResult_eq_dec : EqDecision ParseResult.
Proof. solve_decision. Defined.

(** [static_cast<size_t>(r)]. *)
Definition ParseResult_index (r : ParseResult) : Z :=
  match r with
  | NoError => 0 | BadChecksum => 1 | PacketTooShort => 2 | WrongIPVersion => 3
  | HeaderTooShort => 4 | TruncatedPacket => 5 | Unsupported => 6
  end.

(** The names array has six entries. *)
Definition as_string (r : ParseResult) : result string :=
  at_index
    ["NoError"; "BadChecksum"; "PacketTooShort"; "WrongIPVersion"; "HeaderTooShort";
     "TruncatedPacket"]%string
    (ParseResult_index r).

Module NetParser.

Record t := mk { _buffer : Buffer.t; _error : ParseResult }.

Definition new (b : Buffer.t) : t := mk b NoError.
Definition buffer (p : t) : Buffer.t := _buffer p.
Definition get_error (p : t) : ParseResult := _error p.
Definition set_error (p : t) (res : ParseResult) : t := mk (_buffer p) res.
Definition error (p : t) : bool := negb (bool_decide (_error p = NoError)).

Definition _check_size (p : t) (size : Z) : t :=
  if Buffer.size (_buffer p) <? size then set_error p PacketTooShort else p.

(** The unsigned type of [n] bytes. *)
Definition uint_bytes (n : nat) (z : Z) : Z := z mod 2 ^ (8 * Z.of_nat n).

(** The loop of [_parse_int]: [i] counts up to [n = sizeof(T)]. *)
Fixpoint parse_loop (n : nat) (b : Buffer.t) (i : Z) (todo : nat) (ret : Z) : result Z :=
  match todo with
  | O => Ok ret
  | S todo =>
      c ← Buffer.at_ b i;
      let ret := uint_bytes n (Z.shiftl ret 8) in
      parse_loop n b (i + 1) todo (uint_bytes n (ret + byte_val c))
  end.

Definition _parse_int (n : nat) (p : t) : result (t * Z) :=
  let p := _check_size p (Z.of_nat n) in
  if error p then Ok (p, 0)
  else
    ret ← parse_loop n (_buffer p) 0 n 0;
    b ← Buffer.remove_prefix (_buffer p) (Z.of_nat n);
    Ok (mk b (_error p), ret).

Definition u32 (p : t) : result (t * Z) := _parse_int 4 p.
Definition u16 (p : t) : result (t * Z) := _parse_int 2 p.
Definition u8 (p : t) : result (t * Z) := _parse_int 1 p.

Definition remove_prefix (p : t) (n : Z) : result t :=
  let p := _check_size p n in
  if error p then Ok p
  else b ← Buffer.remove_prefix (_buffer p) n; Ok (mk b (_error p)).

End NetParser.

Module NetUnparser.

(** The loop of [_unparse_int] with [todo = len - i] bytes left. *)
Fixpoint unparse_loop (todo : nat) (s : bytes) (val : Z) : bytes :=
  match todo with
  | O => s
  | S todo =>
      let the_byte := uint8 (Z.land (Z.shiftr val (Z.of_nat todo * 8)) 0xff) in
      unparse_loop todo (s ++ [byte_of the_byte]) val
  end.

Definition _unparse_int (n : nat) (s : bytes) (val : Z) : bytes := unparse_loop n s val.

Definition u32 (s : bytes) (val : Z) : bytes := _unparse_int 4 s val.
Definition u16 (s : bytes) (val : Z) : bytes := _unparse_int 2 s val.
Definition u8 (s : bytes) (val : Z) : bytes := _unparse_int 1 s val.

End NetUnparser.

(** ** Big-endian strings *)

Module BigEndian.

(** The [n] bytes of [v], most significant first, and the number a string of
    bytes denotes. *)
Fixpoint encode (n : nat) (v : Z) : bytes :=
  match n with
  | O => []
  | S n => byte_of (Z.shiftr v (Z.of_nat n * 8)) :: encode n v
  end.

Definition decode (bs : bytes) : Z := foldl (λ acc c, 256 * acc + byte_val c) 0 bs.

Lemma unparse_encode n v : ∀ s, NetUnparser._unparse_int n s v = s ++ encode n v.
Proof.
  induction n as [|n IH]; intros s; simpl; [by rewrite app_nil_r|].
  unfold NetUnparser._unparse_int in *. rewrite IH, <- app_assoc. do 2 f_equal. simpl. f_equal.
  apply byte_val_inj. rewrite !byte_val_of.
  change 0xff with (Z.ones 8). rewrite Z.land_ones by lia. change (2 ^ 8) with 256.
  unfold uint8. by rewrite !Z.mod_mod by lia.
Qed.

Lemma length_encode n v : length (encode n v) = n.
Proof. induction n; simpl; auto. Qed.

Lemma len_encode n v : len (encode n v) = Z.of_nat n.
Proof. unfold len. by rewrite length_encode. Qed.

Lemma decode_acc bs : ∀ acc,
  foldl (λ acc c, 256 * acc + byte_val c) acc bs = acc * 256 ^ len bs + decode bs.
Proof.
  unfold decode. induction bs as [|c bs IH]; intros acc; simpl.
  - change (len []) with 0. rewrite Z.pow_0_r. lia.
  - rewrite IH, (IH (_ + byte_val c)), len_cons, Z.pow_add_r by (pose proof (len_nonneg bs); lia). lia.
Qed.

Lemma decode_cons c bs : decode (c :: bs) = byte_val c * 256 ^ len bs + decode bs.
Proof. unfold decode at 1; simpl. rewrite decode_acc. lia. Qed.

Lemma decode_range bs : 0 <= decode bs < 256 ^ len bs.
Proof.
  induction bs as [|c bs IH]; [unfold decode, len; simpl; lia|].
  rewrite decode_cons, len_cons, Z.pow_add_r by (pose proof (len_nonneg bs); lia).
  pose proof (byte_val_range c). nia.
Qed.

Lemma decode_encode n v : decode (encode n v) = v mod 256 ^ Z.of_nat n.
Proof.
  induction n as [|n IH]; [by rewrite Z.mod_1_r|]. simpl encode.
  rewrite decode_cons, IH, byte_val_of, len_encode.
  rewrite Z.shiftr_div_pow2, Nat2Z.inj_succ, Z.pow_succ_r by lia.
  replace (2 ^ (Z.of_nat n * 8)) with (256 ^ Z.of_nat n)
    by (rewrite Z.mul_comm, Z.pow_mul_r by lia; done).
  unfold uint8. rewrite (Z.mul_comm 256), Z.rem_mul_r by lia. lia.
Qed.

Lemma encode_decode bs : encode (length bs) (decode bs) = bs.
Proof.
  induction bs as [|c bs IH]; [done|]. simpl encode. rewrite decode_cons.
  pose proof (decode_range bs) as Hr. pose proof (byte_val_range c).
  assert (2 ^ (Z.of_nat (length bs) * 8) = 256 ^ len bs) as Hp.
  { unfold len. rewrite Z.mul_comm, Z.pow_mul_r by lia. done. }
  f_equal.
  - rewrite Z.shiftr_div_pow2, Hp, Z.div_add_l, Z.div_small, Z.add_0_r by lia. apply byte_of_val.
  - transitivity (encode (length bs) (decode bs)); [|exact IH]. generalize (decode bs). intros d. clear.
    assert (∀ n, (n <= length bs)%nat → encode n (byte_val c * 256 ^ len bs + d) = encode n d) as E.
    { induction n as [|n IHn]; intros Hn; [done|]. simpl. rewrite IHn by lia. f_equal.
      apply byte_val_inj. rewrite !byte_val_of, !Z.shiftr_div_pow2 by lia.
      replace (len bs) with (Z.of_nat n + 1 + (len bs - Z.of_nat n - 1)) by lia.
      unfold len in *. rewrite !Z.pow_add_r by lia.
      replace (2 ^ (Z.of_nat n * 8)) with (256 ^ Z.of_nat n)
        by (rewrite Z.mul_comm, Z.pow_mul_r by lia; done).
      set (q := 256 ^ (Z.of_nat (length bs) - Z.of_nat n - 1)).
      replace (byte_val c * (256 ^ Z.of_nat n * 256 ^ 1 * q) + d)
        with ((byte_val c * q * 256) * 256 ^ Z.of_nat n + d) by ring.
      rewrite Z.div_add_l by lia. unfold uint8. rewrite Z.add_comm. apply Z.mod_add. lia. }
    by apply E.
Qed.

End BigEndian.

(** ** The parser over a byte string *)

Module ParserFacts.

(** [reads p bs]: no error so far, and [bs] is what is left to parse. *)
Definition reads (p : NetParser.t) (bs : bytes) : Prop :=
  NetParser._error p = NoError ∧ Buffer.wf (NetParser._buffer p) ∧
  Buffer.str (NetParser._buffer p) = bs.

Lemma reads_new bs : len bs < two64 → reads (NetParser.new (Buffer.of_string bs)) bs.
Proof. intros. split; [done|]. split; [by apply Buffer.wf_of_string | done]. Qed.

Lemma reads_no_error p bs : reads p bs → NetParser.error p = false.
Proof. intros (H & _). unfold NetParser.error. by rewrite H. Qed.

Lemma check_size_ok p bs n : reads p bs → n <= len bs → NetParser._check_size p n = p.
Proof.
  intros (_ & _ & H) Hn. unfold NetParser._check_size, Buffer.size. rewrite H.
  case_test; [lia | done].
Qed.

Lemma parse_loop_spec n b todo : ∀ pre rest i ret,
  Buffer.str b = pre ++ rest → i = len pre → (todo <= length rest)%nat →
  0 <= ret → (ret + 1) * 256 ^ Z.of_nat todo <= 256 ^ Z.of_nat n →
  NetParser.parse_loop n b i todo ret
  = Ok (ret * 256 ^ Z.of_nat todo + BigEndian.decode (take todo rest)).
Proof.
  assert (2 ^ (8 * Z.of_nat n) = 256 ^ Z.of_nat n) as Hp by (rewrite Z.pow_mul_r by lia; done).
  induction todo as [|todo IH]; intros pre rest i ret Hs Hi Ht H0 Hr.
  - simpl. f_equal. unfold BigEndian.decode; simpl. lia.
  - destruct rest as [|c rest]; [simpl in Ht; lia|]. simpl NetParser.parse_loop.
    rewrite (Buffer.at_ok b i c), result_bind_ok.
    2:{ rewrite Hs, Hi. unfold len. rewrite Nat2Z.id. by rewrite list_lookup_middle. }
    rewrite Nat2Z.inj_succ, Z.pow_succ_r in * by lia.
    pose proof (byte_val_range c). assert (0 < 256 ^ Z.of_nat todo) by (apply Z.pow_pos_nonneg; lia).
    assert (256 * ret + 256 <= 256 ^ Z.of_nat n) by nia.
    unfold NetParser.uint_bytes. rewrite Z.shiftl_mul_pow2, Hp by lia.
    rewrite (Z.mod_small (ret * _)), Z.mod_small by lia.
    rewrite (IH (pre ++ [c]) rest); [| | | simpl in Ht; lia | lia | nia].
    + simpl take. rewrite BigEndian.decode_cons. f_equal.
      replace (len (take todo rest)) with (Z.of_nat todo); [lia|].
      unfold len. rewrite length_take. simpl in Ht. lia.
    + by rewrite <- app_assoc.
    + rewrite len_app, Hi. unfold len; simpl. lia.
Qed.

(** Parsing [n] bytes gives the big-endian number they denote. *)
Lemma parse_int_decode n p bs rest : reads p (bs ++ rest) → length bs = n →
  ∃ p', NetParser._parse_int n p = Ok (p', BigEndian.decode bs) ∧ reads p' rest.
Proof.
  intros Hr Hn. unfold NetParser._parse_int.
  assert (Z.of_nat n <= len (bs ++ rest)) as Hl by (rewrite len_app; unfold len; lia).
  rewrite (check_size_ok _ _ _ Hr Hl), (reads_no_error _ _ Hr). destruct Hr as (He & Hw & Hs).
  rewrite (parse_loop_spec n _ n [] (bs ++ rest)); try done; try lia.
  2:{ rewrite length_app. lia. }
  rewrite result_bind_ok. subst n. rewrite take_app_length, Z.mul_0_l, Z.add_0_l.
  destruct (Buffer.remove_prefix_ok (NetParser._buffer p) (Z.of_nat (length bs)) Hw) as (b & -> & Hw' & Hs').
  { unfold Buffer.size. rewrite Hs. unfold len in *. lia. }
  eexists. split; [done|]. split; [done|]. split; [done|]. simpl. rewrite Hs', Hs. apply zdrop_app.
Qed.

(** The inverse of unparsing. *)
Lemma parse_int_encode n p v rest : reads p (BigEndian.encode n v ++ rest) → 0 <= v < 256 ^ Z.of_nat n →
  ∃ p', NetParser._parse_int n p = Ok (p', v) ∧ reads p' rest.
Proof.
  intros Hr Hv. destruct (parse_int_decode n p _ rest Hr (BigEndian.length_encode n v)) as (p' & E & Hr').
  exists p'. split; [|done]. rewrite E, BigEndian.decode_encode, Z.mod_small by lia. done.
Qed.

(** Too few bytes: the parser records [PacketTooShort] and yields zero. *)
Lemma parse_int_short n p : Buffer.size (NetParser._buffer p) < Z.of_nat n →
  NetParser._parse_int n p = Ok (NetParser.set_error p PacketTooShort, 0).
Proof.
  intros H. unfold NetParser._parse_int, NetParser._check_size. case_test; [done | lia].
Qed.

Lemma remove_prefix_reads p bs n : reads p bs → 0 <= n <= len bs →
  ∃ p', NetParser.remove_prefix p n = Ok p' ∧ reads p' (zdrop n bs).
Proof.
  intros Hr Hn. unfold NetParser.remove_prefix.
  rewrite (check_size_ok _ _ n Hr (proj2 Hn)), (reads_no_error _ _ Hr). destruct Hr as (He & Hw & Hs).
  destruct (Buffer.remove_prefix_ok (NetParser._buffer p) n Hw) as (b & -> & Hw' & Hs').
  { unfold Buffer.size. rewrite Hs. lia. }
  eexists. split; [done|]. split; [done|]. split; [done|]. simpl. by rewrite Hs', Hs.
Qed.

Lemma u8_reads p v rest : reads p (BigEndian.encode 1 v ++ rest) → 0 <= v < two8 →
  ∃ p', NetParser.u8 p = Ok (p', v) ∧ reads p' rest.
Proof. exact (parse_int_encode 1 p v rest). Qed.
Lemma u16_reads p v rest : reads p (BigEndian.encode 2 v ++ rest) → 0 <= v < two16 →
  ∃ p', NetParser.u16 p = Ok (p', v) ∧ reads p' rest.
Proof. exact (parse_int_encode 2 p v rest). Qed.
Lemma u32_reads p v rest : reads p (BigEndian.encode 4 v ++ rest) → 0 <= v < two32 →
  ∃ p', NetParser.u32 p = Ok (p', v) ∧ reads p' rest.
Proof. exact (parse_int_encode 4 p v rest). Qed.

(** Whatever the bytes are, the parser never throws.  [after p s k]: the
    parser has been asked for the first [k] bytes of [s].  When they were there
    it stands right behind them without an error; else it recorded
    [PacketTooShort] and stays in front of the read that did not fit. *)
Definition after (p : NetParser.t) (s : bytes) (k : Z) : Prop :=
  Buffer.wf (NetParser._buffer p) ∧ 0 <= k ∧
  if k <=? len s then NetParser._error p = NoError ∧ Buffer.str (NetParser._buffer p) = zdrop k s
  else NetParser._error p = PacketTooShort ∧
    ∃ j, 0 <= j <= len s ∧ Buffer.str (NetParser._buffer p) = zdrop j s.

Lemma after_new b : Buffer.wf b → after (NetParser.new b) (Buffer.str b) 0.
Proof.
  intros Hb. split; [done|]. split; [done|]. pose proof (len_nonneg (Buffer.str b)). case_test; [|lia].
  split; [done|]. by rewrite zdrop_0.
Qed.

(** A read that does not fit. *)
Lemma after_short p s k n : after p s k → 0 <= n → len s < k + n →
  after (NetParser._check_size p n) s (k + n) ∧ NetParser.error (NetParser._check_size p n) = true.
Proof.
  intros (Hw & Hk & H) Hn Hl. unfold NetParser._check_size, NetParser.error, after.
  destruct (Z.leb_spec k (len s)) as [Hks|Hks].
  - destruct H as [He Hs]. unfold Buffer.size. rewrite Hs, len_zdrop by lia. case_test; [|lia].
    rewrite bool_decide_eq_false_2 by done. split; [|done]. split; [done|]. split; [lia|].
    case_test; [lia|]. split; [done|]. exists k. by split; [lia|].
  - destruct H as [He Hj]. assert (∀ q : NetParser.t, NetParser._error q = PacketTooShort →
      NetParser._buffer q = NetParser._buffer p →
      after q s (k + n) ∧ negb (bool_decide (NetParser._error q = NoError)) = true) as G.
    { intros q Eq Eb. unfold after. rewrite Eq, Eb, bool_decide_eq_false_2 by done. split; [|done].
      split; [done|]. split; [lia|]. by case_test; [lia|]. }
    case_test; by apply G.
Qed.

(** A read that fits. *)
Lemma after_reads p s k n : after p s k → 0 <= n → k + n <= len s → reads p (zdrop k s) ∧ n <= len (zdrop k s).
Proof.
  intros (Hw & Hk & H) Hn Hl. rewrite len_zdrop by lia. split; [|lia].
  destruct (Z.leb_spec k (len s)); [|lia]. destruct H as [He Hs]. by split; [done|]; split.
Qed.

Lemma reads_after p s k : 0 <= k <= len s → reads p (zdrop k s) → after p s k.
Proof. intros Hk (He & Hw & Hs). split; [done|]. split; [lia|]. by case_test; [|lia]. Qed.

Lemma parse_int_after n p s k : after p s k →
  ∃ p' v, NetParser._parse_int n p = Ok (p', v) ∧ after p' s (k + Z.of_nat n) ∧ 0 <= v < 256 ^ Z.of_nat n.
Proof.
  intros H. assert (0 < 256 ^ Z.of_nat n) by (apply Z.pow_pos_nonneg; lia).
  destruct (Z_lt_le_dec (len s) (k + Z.of_nat n)) as [Hl|Hl].
  - destruct (after_short p s k (Z.of_nat n) H ltac:(lia) Hl) as [Ha He].
    exists (NetParser._check_size p (Z.of_nat n)), 0. unfold NetParser._parse_int. by rewrite He.
  - destruct (after_reads p s k (Z.of_nat n) H ltac:(lia) Hl) as [Hr Hn]. destruct H as (_ & Hk & _).
    set (t := zdrop k s) in *.
    assert (length (take n t) = n) as Ht by (rewrite length_take; unfold len in Hn; lia).
    destruct (parse_int_decode n p (take n t) (drop n t)) as (p' & E & Hr'); [by rewrite take_drop | done|].
    exists p', (BigEndian.decode (take n t)). split; [done|]. split.
    + apply reads_after; [lia|]. rewrite <- zdrop_zdrop by lia. fold t. unfold zdrop. by rewrite Nat2Z.id.
    + pose proof (BigEndian.decode_range (take n t)) as Hd. unfold len in Hd. by rewrite Ht in Hd.
Qed.

Lemma remove_prefix_after p s k n : after p s k → 0 <= n →
  ∃ p', NetParser.remove_prefix p n = Ok p' ∧ after p' s (k + n).
Proof.
  intros H Hn. destruct (Z_lt_le_dec (len s) (k + n)) as [Hl|Hl].
  - destruct (after_short p s k n H Hn Hl) as [Ha He]. eexists. unfold NetParser.remove_prefix. by rewrite He.
  - destruct (after_reads p s k n H Hn Hl) as [Hr Hle]. destruct H as (_ & Hk & _).
    destruct (remove_prefix_reads p (zdrop k s) n Hr) as (p' & E & Hr'); [lia|].
    exists p'. split; [done|]. apply reads_after; [lia|]. by rewrite <- zdrop_zdrop by lia.
Qed.

Lemma u8_after p s k : after p s k →
  ∃ p' v, NetParser.u8 p = Ok (p', v) ∧ after p' s (k + 1) ∧ 0 <= v < two8.
Proof. exact (parse_int_after 1 p s k). Qed.
Lemma u16_after p s k : after p s k →
  ∃ p' v, NetParser.u16 p = Ok (p', v) ∧ after p' s (k + 2) ∧ 0 <= v < two16.
Proof. exact (parse_int_after 2 p s k). Qed.
Lemma u32_after p s k : after p s k →
  ∃ p' v, NetParser.u32 p = Ok (p', v) ∧ after p' s (k + 4) ∧ 0 <= v < two32.
Proof. exact (parse_int_after 4 p s k). Qed.

(** The big-endian integers of one, two and four bytes round-trip: what
    [NetUnparser] appends, [NetParser] reads back, leaving the bytes that
    follow; and a parser with too few bytes left reports [PacketTooShort] and
    yields zero instead of reading past the end. *)
Theorem parse_unparse (n : nat) (v : Z) (rest : bytes) :
  n = 1%nat ∨ n = 2%nat ∨ n = 4%nat → 0 <= v < 2 ^ (8 * Z.of_nat n) → len rest < two32 →
  let p := NetParser.new (Buffer.of_string (NetUnparser._unparse_int n [] v ++ rest)) in
  (∃ p', NetParser._parse_int n p = Ok (p', v) ∧ NetParser.get_error p' = NoError ∧
    Buffer.str (NetParser.buffer p') = rest) ∧
  ∀ short, len short < Z.of_nat n →
    NetParser._parse_int n (NetParser.new (Buffer.of_string short))
    = Ok (NetParser.mk (Buffer.of_string short) PacketTooShort, 0).
Proof.
  intros Hn Hv Hl p. rewrite Z.pow_mul_r in Hv by lia. split.
  - destruct (parse_int_encode n p v rest) as (p' & E & He & _ & Hs); [|done|by exists p'].
    unfold p. rewrite BigEndian.unparse_encode. apply reads_new.
    simpl. rewrite len_app, BigEndian.len_encode. lia.
  - intros short Hs. by rewrite parse_int_short.
Qed.

Lemma parse_unparse_witness :
  let p := NetParser.new (Buffer.of_string (NetUnparser._unparse_int 2 [] 0xbeef ++ [x01])) in
  (∃ p', NetParser._parse_int 2 p = Ok (p', 0xbeef) ∧ NetParser.get_error p' = NoError ∧
    Buffer.str (NetParser.buffer p') = [x01]) ∧
  ∀ short, len short < 2 →
    NetParser._parse_int 2 (NetParser.new (Buffer.of_string short))
    = Ok (NetParser.mk (Buffer.of_string short) PacketTooShort, 0).
Proof. apply (parse_unparse 2 0xbeef [x01]); [auto | lia | unfold len; simpl; lia]. Defined.

(** [as_string] indexes its array of six names with seven enumerators: for
    [Unsupported], and only for it, it reads past the end of the array. *)
Theorem as_string_out_of_bounds (r : ParseResult) :
  as_string r = Throw OutOfBounds ↔ r = Unsupported.
Proof. destruct r; split; intros H; (done || discriminate H). Qed.

End ParserFacts.

(** [parse_fields H], with [H] saying what the parser reads, runs the next
    [u8], [u16] and [u32] calls of the goal on encoded fields. *)
Ltac parse_field H :=
  let go L :=
    let p := fresh "p" in let E := fresh "E" in
    destruct (L _ _ _ H) as (p & E & ?); [try lia | ];
    rewrite E, result_bind_ok; clear H E;
    match goal with H' : ParserFacts.reads p _ |- _ => rename H' into H end in
  lazymatch goal with
  | |- context [NetParser.u8 ?p ≫= _] => go ParserFacts.u8_reads
  | |- context [NetParser.u16 ?p ≫= _] => go ParserFacts.u16_reads
  | |- context [NetParser.u32 ?p ≫= _] => go ParserFacts.u32_reads
  end.
Ltac parse_fields H := repeat (parse_field H; cbv beta iota).

(** [parse_any H], with [H] saying how far the parser is, runs the next
    calls of the goal on arbitrary bytes. *)
Ltac parse_any1 H :=
  let go L :=
    let p := fresh "p" in let v := fresh "v" in let E := fresh "E" in
    destruct (L _ _ _ H) as (p & v & E & ? & ?);
    rewrite E, result_bind_ok; clear H E;
    match goal with H' : ParserFacts.after p _ _ |- _ => rename H' into H end in
  lazymatch goal with
  | |- context [NetParser.u8 ?p ≫= _] => go ParserFacts.u8_after
  | |- context [NetParser.u16 ?p ≫= _] => go ParserFacts.u16_after
  | |- context [NetParser.u32 ?p ≫= _] => go ParserFacts.u32_after
  end.
Ltac parse_any H := repeat (parse_any1 H; cbv beta iota).
