(* ===== verification/util.v ===== *)
(** * The Internet checksum (src/lab/libsponge/util/util.hh, .cc)

    [InternetChecksum] accumulates the bytes of a packet as big-endian 16-bit
    words in a 32-bit sum and folds the sum to 16 bits.  The theorems say that
    a packet whose checksum field holds the computed value verifies, and that
    the corruption of any one byte is noticed. *)

From S2P Require Import Prelude parser.

Module InternetChecksum.

Record t := mk { _sum : Z; _parity : bool }.

Definition new (initial_sum : Z) : t := mk initial_sum false.

Definition add_byte (c : t) (b : byte) : t :=
  let val := byte_val b in
  let val := if negb (_parity c) then uint16 (Z.shiftl val 8) else val in
  mk (uint32 (_sum c + val)) (negb (_parity c)).

Definition add (c : t) (data : bytes) : t := foldl add_byte c data.

(** The [while] loop of [value]; two rounds are enough for a 32-bit sum
    ([value_fold] below), so the fuel of three never runs out. *)
Fixpoint value_loop (fuel : nat) (ret : Z) : result Z :=
  if 0xffff <? ret then
    match fuel with
    | O => Throw OutOfFuel
    | S fuel => value_loop fuel (uint32 (Z.shiftr ret 16 + Z.land ret 0xffff))
    end
  else Ok ret.

(** [return ~ret] converts the complement of a 32-bit value to 16 bits. *)
Definition value (c : t) : result Z :=
  ret ← value_loop 3 (_sum c);
  Ok (uint16 (Z.lnot ret)).

(** ** The sum without wrap-around *)

(** The contribution of a string, read from an even ([false]) or odd offset. *)
Fixpoint weight (parity : bool) (data : bytes) : Z :=
  match data with
  | [] => 0
  | b :: data => (if parity then byte_val b else 256 * byte_val b) + weight (negb parity) data
  end.

Lemma weight_range data : ∀ parity, 0 <= weight parity data <= 65280 * len data.
Proof.
  induction data as [|b data IH]; intros parity; simpl; [unfold len; simpl; lia|].
  rewrite len_cons. pose proof (byte_val_range b). specialize (IH (negb parity)).
  destruct parity; simpl in *; lia.
Qed.

Definition odd_len (data : bytes) : bool := Z.odd (len data).

Lemma odd_len_cons b data : odd_len (b :: data) = negb (odd_len data).
Proof. unfold odd_len. rewrite len_cons, Z.add_1_r, Z.odd_succ, <- Z.negb_odd. done. Qed.

Lemma weight_app a b : ∀ parity,
  weight parity (a ++ b) = weight parity a + weight (xorb parity (odd_len a)) b.
Proof.
  induction a as [|x a IH]; intros parity; simpl; [by rewrite xorb_false_r|].
  rewrite IH, odd_len_cons. destruct parity, (odd_len a); simpl; lia.
Qed.

Lemma add_app c a b : add c (a ++ b) = add (add c a) b.
Proof. apply foldl_app. Qed.

Lemma add_spec data : ∀ c, 0 <= _sum c → _sum c + weight (_parity c) data < two32 →
  add c data = mk (_sum c + weight (_parity c) data) (xorb (_parity c) (odd_len data)).
Proof.
  induction data as [|b data IH]; intros c H0 H; simpl in *.
  - destruct c as [s p]. simpl. rewrite Z.add_0_r. by destruct p.
  - pose proof (byte_val_range b). pose proof (weight_range data (negb (_parity c))).
    assert (add_byte c b
      = mk (_sum c + (if _parity c then byte_val b else 256 * byte_val b)) (negb (_parity c))) as ->.
    { unfold add_byte. rewrite Z.shiftl_mul_pow2, (Z.mul_comm _ (2 ^ 8)) by lia. change (2 ^ 8) with 256.
      destruct (_parity c); simpl in *; f_equal; word_lia. }
    rewrite IH; simpl.
    + f_equal; [lia|]. rewrite odd_len_cons. by destruct (_parity c), (odd_len data).
    + destruct (_parity c); simpl in *; lia.
    + destruct (_parity c); simpl in *; lia.
Qed.

(** ** Folding

    [folded s] is the ones'-complement representative of [s]: zero only for
    zero, otherwise the residue modulo 65535 in [1, 65535]. *)
Definition folded (s : Z) : Z := if s =? 0 then 0 else 1 + (s - 1) mod 65535.

Lemma folded_range s : 0 <= folded s <= 65535.
Proof. unfold folded. case_test; [lia|]. pose proof (Z.mod_pos_bound (s - 1) 65535). lia. Qed.

Lemma folded_small s : 0 <= s <= 65535 → folded s = s.
Proof. intros. unfold folded. case_test; [lia|]. rewrite Z.mod_small; lia. Qed.

Lemma halves s : Z.shiftr s 16 + Z.land s 0xffff = s / 65536 + s mod 65536.
Proof.
  change 0xffff with (Z.ones 16). by rewrite Z.land_ones, Z.shiftr_div_pow2 by lia.
Qed.

Lemma fold_step s : 65535 < s → 0 < Z.shiftr s 16 + Z.land s 0xffff < s ∧
  folded (Z.shiftr s 16 + Z.land s 0xffff) = folded s.
Proof.
  intros H. rewrite halves. pose proof (Z.div_mod s 65536 ltac:(lia)) as E.
  pose proof (Z.mod_pos_bound s 65536 ltac:(lia)). assert (1 <= s / 65536) by (apply Z.div_le_lower_bound; lia).
  split; [lia|]. unfold folded. repeat case_test; try lia. f_equal.
  rewrite E at 3.
  replace (65536 * (s / 65536) + s mod 65536 - 1)
    with (s / 65536 + s mod 65536 - 1 + (s / 65536) * 65535) by lia.
  by rewrite Z.mod_add by lia.
Qed.

Lemma value_fold c : 0 <= _sum c < two32 → value c = Ok (65535 - folded (_sum c)).
Proof.
  intros H. unfold value.
  assert (∀ fuel s, 0 <= s <= 65535 → value_loop fuel s = Ok (folded s)) as H0.
  { intros fuel s Hs. rewrite folded_small by lia. destruct fuel; simpl; case_test; done || lia. }
  assert (∀ fuel s, 65535 < s < two32 →
    value_loop (S fuel) s = value_loop fuel (Z.shiftr s 16 + Z.land s 0xffff)) as Hs.
  { intros fuel s Hr. simpl. case_test; [|lia]. destruct (fold_step s) as [? _]; [lia|].
    rewrite uint32_id by lia. done. }
  assert (value_loop 3 (_sum c) = Ok (folded (_sum c))) as ->.
  { destruct (Z_le_gt_dec (_sum c) 65535); [by apply H0; lia|].
    rewrite Hs by lia. destruct (fold_step (_sum c)) as [Hr <-]; [lia|].
    assert (Z.shiftr (_sum c) 16 + Z.land (_sum c) 0xffff <= 2 * 65535) as Hb.
    { rewrite halves. pose proof (Z.mod_pos_bound (_sum c) 65536 ltac:(lia)).
      enough (_sum c / 65536 < 65536) by lia. apply Z.div_lt_upper_bound; lia. }
    revert Hr Hb. generalize (Z.shiftr (_sum c) 16 + Z.land (_sum c) 0xffff). intros s Hr Hb.
    destruct (Z_le_gt_dec s 65535); [by apply H0; lia|].
    rewrite Hs by lia. destruct (fold_step s) as [Hr2 <-]; [lia|]. apply H0. split; [lia|].
    rewrite halves. replace s with (s - 65536 + 1 * 65536) by lia.
    rewrite Z.mod_add, Z.div_add, Z.mod_small, Z.div_small by lia. lia. }
  rewrite result_bind_ok. f_equal. pose proof (folded_range (_sum c)).
  unfold uint16, Z.lnot. replace (Z.pred (- folded (_sum c)))
    with (65535 - folded (_sum c) + (-1) * 65536) by lia.
  rewrite Z.mod_add, Z.mod_small; lia.
Qed.

(** A sum verifies when it is a positive multiple of 65535. *)
Lemma folded_full s : 0 < s → folded s = 65535 ↔ s mod 65535 = 0.
Proof.
  intros Hs. unfold folded. case_test; [lia|].
  pose proof (Z.div_mod (s - 1) 65535 ltac:(lia)) as E1. pose proof (Z.mod_pos_bound (s - 1) 65535 ltac:(lia)).
  pose proof (Z.div_mod s 65535 ltac:(lia)) as E2. pose proof (Z.mod_pos_bound s 65535 ltac:(lia)).
  split; intros; nia.
Qed.

Lemma complement_verifies s : 0 <= s → folded (s + (65535 - folded s)) = 65535.
Proof.
  intros Hs. pose proof (folded_range s) as Hr. unfold folded in Hr |- *.
  destruct (Z.eqb_spec s 0) as [->|]; [done|].
  case_test; [lia|]. pose proof (Z.div_mod (s - 1) 65535 ltac:(lia)) as E.
  replace (s + (65535 - (1 + (s - 1) mod 65535)) - 1)
    with (65534 + ((s - 1) / 65535) * 65535) by lia.
  by rewrite Z.mod_add by lia.
Qed.

Lemma odd_len_encode2 v : odd_len (BigEndian.encode 2 v) = false.
Proof. unfold odd_len. by rewrite BigEndian.len_encode. Qed.

Lemma weight_encode2 v : 0 <= v < two16 → weight false (BigEndian.encode 2 v) = v.
Proof.
  intros Hv. transitivity (BigEndian.decode (BigEndian.encode 2 v)).
  - simpl. unfold BigEndian.decode. simpl. lia.
  - rewrite BigEndian.decode_encode. by apply Z.mod_small.
Qed.

Lemma value_zero_fill c a b : 0 <= _sum c → _parity c = false → odd_len a = false →
  _sum c + weight false (a ++ BigEndian.encode 2 0 ++ b) + 65535 < two32 →
  ∃ v, value (add c (a ++ BigEndian.encode 2 0 ++ b)) = Ok v ∧ 0 <= v < two16 ∧
    value (add c (a ++ BigEndian.encode 2 v ++ b)) = Ok 0.
Proof.
  intros H0 Hp Ha Hb.
  assert (∀ v, 0 <= v < two16 → weight false (a ++ BigEndian.encode 2 v ++ b)
    = weight false (a ++ BigEndian.encode 2 0 ++ b) + v) as Hw.
  { intros v Hv. rewrite !weight_app, Ha, !odd_len_encode2. simpl xorb. rewrite !weight_encode2; lia. }
  set (s := _sum c + weight false (a ++ BigEndian.encode 2 0 ++ b)) in *.
  pose proof (weight_range (a ++ BigEndian.encode 2 0 ++ b) false). pose proof (folded_range s).
  exists (65535 - folded s). split; [|split; [lia|]].
  - rewrite add_spec by (rewrite ?Hp; lia). rewrite value_fold; cbn [_sum _parity]; rewrite Hp; fold s; [done | lia].
  - assert (_sum c + weight false (a ++ BigEndian.encode 2 (65535 - folded s) ++ b) = s + (65535 - folded s)) as E
      by (rewrite Hw by lia; unfold s; lia).
    rewrite add_spec by (rewrite ?Hp; lia). rewrite value_fold; cbn [_sum _parity]; rewrite Hp, E; [|lia].
    rewrite complement_verifies by lia. done.
Qed.

Lemma corruption_noticed (initial : Z) (a b : bytes) (x y : byte) :
  0 <= initial < 0x100000 → len a + 1 + len b <= 65535 → x ≠ y →
  value (add (new initial) (a ++ x :: b)) = Ok 0 →
  ∃ v, value (add (new initial) (a ++ y :: b)) = Ok v ∧ 0 < v.
Proof.
  intros Hi Hl Hxy.
  assert (∀ z, add (new initial) (a ++ z :: b)
    = mk (initial + weight false (a ++ z :: b)) (odd_len (a ++ z :: b)) ∧
    0 <= initial + weight false (a ++ z :: b) < two32) as Ha.
  { intros z. pose proof (weight_range (a ++ z :: b) false) as Hw. rewrite len_app, len_cons in Hw.
    split; [|lia]. rewrite add_spec; simpl; [done | lia | lia]. }
  destruct (Ha x) as [-> Rx]. destruct (Ha y) as [-> Ry].
  rewrite !value_fold by (simpl; lia). simpl _sum. intros Ex.
  assert (folded (initial + weight false (a ++ x :: b)) = 65535) as Fx by (inversion Ex; lia).
  pose proof (folded_range (initial + weight false (a ++ y :: b))) as Hf.
  eexists. split; [done|]. enough (folded (initial + weight false (a ++ y :: b)) ≠ 65535) by lia.
  intros Fy.
  assert (∀ s, 0 <= s → folded s = 65535 → s mod 65535 = 0) as Hm.
  { intros s Hs F. destruct (Z.eq_dec s 0) as [->|]; [done|]. by apply folded_full; [lia|]. }
  apply Hm in Fx; [|lia]. apply Hm in Fy; [|lia].
  assert (byte_val x ≠ byte_val y) as Hd by (intros E; by apply byte_val_inj in E).
  pose proof (byte_val_range x). pose proof (byte_val_range y).
  pose proof (Z.div_mod (initial + weight false (a ++ x :: b)) 65535 ltac:(lia)) as Dx.
  pose proof (Z.div_mod (initial + weight false (a ++ y :: b)) 65535 ltac:(lia)) as Dy.
  rewrite Fx in Dx. rewrite Fy in Dy. revert Dx Dy.
  rewrite !weight_app. simpl. destruct (odd_len a); simpl; nia.
Qed.

(** The checksum of any data is computed, whatever the initial 32-bit sum. *)
Lemma value_total c data : 0 <= _sum c < two32 →
  ∃ v, value (add c data) = Ok v.
Proof.
  intros H. assert (0 <= _sum (add c data) < two32) as Ha.
  { revert c H. induction data as [|b data IH]; intros c H; [done|]. apply IH. simpl. apply uint32_range. }
  rewrite value_fold by done. by eexists.
Qed.

(** A packet verifies once its checksum field (at an even offset) holds the
    value computed over the packet with a zero field: the receiver's checksum
    over the whole packet, started from the same pseudo-header sum, is zero.
    The packet may have up to 65,535 bytes, the length an IPv4 header can
    express. *)
Theorem checksum_verifies (initial : Z) (a b : bytes) :
  0 <= initial < 0x100000 → len a mod 2 = 0 → len a + 2 + len b <= 65535 →
  ∃ v, value (add (new initial) (a ++ NetUnparser.u16 [] 0 ++ b)) = Ok v ∧ 0 <= v < two16 ∧
    value (add (new initial) (a ++ NetUnparser.u16 [] v ++ b)) = Ok 0.
Proof.
  intros Hi Ha Hl. unfold NetUnparser.u16.
  destruct (value_zero_fill (new initial) a b) as (v & E1 & Hv & E2); [simpl; lia | done | | |].
  - unfold odd_len. rewrite Zmod_odd in Ha. by destruct (Z.odd (len a)).
  - pose proof (weight_range (a ++ BigEndian.encode 2 0 ++ b) false) as Hw.
    rewrite !len_app, BigEndian.len_encode in Hw. simpl in *. lia.
  - exists v. rewrite !BigEndian.unparse_encode. done.
Qed.

Lemma checksum_verifies_witness :
  ∃ v, value (add (new 7) ([x45; x00] ++ NetUnparser.u16 [] 0 ++ [xff])) = Ok v ∧ 0 <= v < two16 ∧
    value (add (new 7) ([x45; x00] ++ NetUnparser.u16 [] v ++ [xff])) = Ok 0.
Proof. apply (checksum_verifies 7 [x45; x00] [xff]); [lia | reflexivity | unfold len; simpl; lia]. Defined.

(** The corruption of any single byte of a packet that verifies is noticed:
    the checksum of the corrupted packet is not zero. *)
Theorem checksum_detects_corruption (initial : Z) (a b : bytes) (x y : byte) :
  0 <= initial < 0x100000 → len a + 1 + len b <= 65535 → x ≠ y →
  value (add (new initial) (a ++ x :: b)) = Ok 0 →
  ∃ v, value (add (new initial) (a ++ y :: b)) = Ok v ∧ 0 < v.
Proof. exact (corruption_noticed initial a b x y). Qed.

Lemma checksum_detects_corruption_witness :
  ∃ v, value (add (new 0) ([x45; x00; xba] ++ x00 :: [])) = Ok v ∧ 0 < v.
Proof.
  apply (checksum_detects_corruption 0 [x45; x00; xba] [] xff x00);
    [lia | unfold len; simpl; lia | done | vm_compute; reflexivity].
Defined.

End InternetChecksum.
