(* ===== verification/random_generator.v ===== *)
(** * Random numbers (src/lab/libsponge/util/util.cc: [get_random_generator])

    The generator is [std::mt19937], seeded through [std::seed_seq] with 624 values of [random_device].  Both are
    fixed by the C++ standard, so that the numbers of a run follow from the seeds.

    The theorem: every number is a [uint32_t]; the generator with the default seed passes the test by which the standard
    fixes it, and a generator made by [get_random_generator] is determined by the seeds and never stuck at zero. *)

From S2P Require Import Prelude.

Module Mt19937.

(** The last 624 numbers of the recurrence, the oldest first. *)
Definition t : Type := list Z.

Definition at_ (x : t) (i : nat) : Z := nth i x 0.

(** The transition and the tempered output. *)
Definition twist (upper lower far : Z) : Z :=
  let y := Z.lor (Z.land upper 0x80000000) (Z.land lower 0x7fffffff) in
  Z.lxor (Z.lxor far (Z.shiftr y 1)) (if Z.odd y then 0x9908b0df else 0).
Definition temper (x : Z) : Z :=
  let z := Z.lxor x (Z.land (Z.shiftr x 11) 0xffffffff) in
  let z := Z.lxor z (Z.land (Z.shiftl z 7) 0x9d2c5680) in
  let z := Z.lxor z (Z.land (Z.shiftl z 15) 0xefc60000) in
  Z.lxor z (Z.shiftr z 18).

Definition draw (x : t) : t * Z :=
  let y := twist (at_ x 0) (at_ x 1) (at_ x 397) in (tail x ++ [y], uint32 (temper y)).

Fixpoint discard (n : nat) (x : t) : t := match n with O => x | S n => discard n (draw x).1 end.

(** [mt19937 gen(value)]. *)
Fixpoint seed_from (fuel : nat) (i x : Z) : t :=
  match fuel with
  | O => []
  | S fuel => x :: seed_from fuel (i + 1) (uint32 (1812433253 * Z.lxor x (Z.shiftr x 30) + (i + 1)))
  end.
Definition of_value (value : Z) : t := seed_from 624 0 (uint32 value).

(** [seed_seq seq(v...)] and [seq.generate] of [n] numbers. *)
Definition mix (x : Z) : Z := Z.lxor x (Z.shiftr x 27).
Definition wrap (k : Z) (n : nat) : nat := Z.to_nat (k mod Z.of_nat n).

Definition stir1 (v : list Z) (n p q : nat) (a : list Z) (k : nat) : list Z :=
  let k := Z.of_nat k in
  let i := wrap k n in let ip := wrap (k + Z.of_nat p) n in let iq := wrap (k + Z.of_nat q) n in
  let r1 := uint32 (1664525 * mix (Z.lxor (Z.lxor (nth i a 0) (nth ip a 0)) (nth (wrap (k - 1) n) a 0))) in
  let r2 := uint32 (r1 + (if k =? 0 then Z.of_nat (length v)
                          else if k <=? Z.of_nat (length v) then Z.of_nat i + nth (Z.to_nat (k - 1)) v 0 else Z.of_nat i)) in
  let a := <[ip := uint32 (nth ip a 0 + r1)]> a in
  let a := <[iq := uint32 (nth iq a 0 + r2)]> a in
  <[i := r2]> a.
Definition stir2 (n p q : nat) (a : list Z) (k : nat) : list Z :=
  let k := Z.of_nat k in
  let i := wrap k n in let ip := wrap (k + Z.of_nat p) n in let iq := wrap (k + Z.of_nat q) n in
  let r3 := uint32 (1566083941 * mix (uint32 (nth i a 0 + nth ip a 0 + nth (wrap (k - 1) n) a 0))) in
  let r4 := uint32 (r3 - Z.of_nat i) in
  let a := <[ip := Z.lxor (nth ip a 0) r3]> a in
  let a := <[iq := Z.lxor (nth iq a 0) r4]> a in
  <[i := r4]> a.

Definition seed_seq_generate (v : list Z) (n : nat) : list Z :=
  let t_ := (if decide (623 <= n) then 11 else if decide (68 <= n) then 7 else if decide (39 <= n) then 5
             else if decide (7 <= n) then 3 else (n - 1) / 2)%nat in
  let p := ((n - t_) / 2)%nat in
  let q := (p + t_)%nat in
  let m := Nat.max (length v + 1) n in
  let a := foldl (stir1 v n p q) (replicate n 0x8b8b8b8b) (seq 0 m) in
  foldl (stir2 n p q) a (seq m n).

(** [mt19937 gen(seq)]: the state may not be all zero. *)
Definition of_seed_seq (v : list Z) : t :=
  let x := seed_seq_generate v 624 in
  if (Z.land (at_ x 0) 0x80000000 =? 0) && forallb (λ z, z =? 0) (tail x) then 0x80000000 :: tail x else x.

End Mt19937.

(** [get_random_generator()]; [rd i] is the [i]-th value of [random_device]. *)
Definition get_random_generator (rd : nat → Z) : Mt19937.t :=
  Mt19937.of_seed_seq ((λ i, uint32 (rd i)) <$> seq 0 624).

(** ** What the numbers are *)

(** A state that the recurrence can use: 624 numbers, and not zero everywhere (only one bit of the first one counts). *)
Definition usable (x : Mt19937.t) : Prop :=
  length x = 624%nat ∧ ¬ (Z.land (Mt19937.at_ x 0) 0x80000000 = 0 ∧ Forall (λ z, z = 0) (tail x)).

Lemma stir_length {A} (f : list Z → A → list Z) (l : list A) : (∀ a k, length (f a k) = length a) →
  ∀ a, length (foldl f a l) = length a.
Proof. intros Hf. induction l as [|k l IH]; intros a; [done|]. simpl. by rewrite IH, Hf. Qed.

Lemma seed_seq_length v n : length (Mt19937.seed_seq_generate v n) = n.
Proof.
  unfold Mt19937.seed_seq_generate. cbv zeta. rewrite stir_length, stir_length, length_replicate; [done|..];
    intros a k; unfold Mt19937.stir1, Mt19937.stir2; by rewrite !length_insert.
Qed.

Lemma seeded_usable v : usable (Mt19937.of_seed_seq v).
Proof.
  unfold Mt19937.of_seed_seq. pose proof (seed_seq_length v 624) as Hl.
  destruct (Mt19937.seed_seq_generate v 624) as [|z x]; [done|]. unfold Mt19937.at_, usable. cbn [nth tail].
  destruct (Z.eqb_spec (Z.land z 0x80000000) 0) as [Hz|Hz]; cbn [andb].
  - destruct (forallb _ x) eqn:Hx; (split; [done|]); [by intros [? _]|]. intros [_ Hall].
    rewrite (proj2 (forallb_forall _ _)) in Hx; [done|]. intros y Hy.
    by rewrite (proj1 (Forall_forall _ _) Hall y (proj2 (list_elem_of_In _ _) Hy)).
  - split; [done|]. by intros [? _].
Qed.

Lemma generator_usable rd : usable (get_random_generator rd).
Proof. unfold get_random_generator. apply seeded_usable. Qed.

Lemma draw_length x : (0 < length x)%nat → length (Mt19937.draw x).1 = length x.
Proof. intros Hx. destruct x as [|z x]; [simpl in Hx; lia|]. simpl. rewrite length_app. simpl. lia. Qed.

Lemma discard_length n : ∀ x, length x = 624%nat → length (Mt19937.discard n x) = 624%nat.
Proof.
  induction n as [|n IH]; intros x Hx; [done|]. cbn [Mt19937.discard]. apply IH. rewrite draw_length; lia.
Qed.

Lemma draw_range x : 0 <= (Mt19937.draw x).2 < two32.
Proof. apply uint32_range. Qed.

(** The random numbers are those of the standard.  The generator with the default seed gives 4123659995 as its ten
    thousandth number, by which the C++ standard fixes [mt19937]; for every
    result of [random_device], [get_random_generator] makes a state that the recurrence
    can use; and every number drawn, from it or later, is a [uint32_t]. *)
Theorem generator_conforms (rd : nat → Z) :
  (Mt19937.draw (Mt19937.discard (100 * 99 + 99) (Mt19937.of_value 5489))).2 = 4123659995 ∧
  usable (get_random_generator rd) ∧
  ∀ n, let '(x, z) := Mt19937.draw (Mt19937.discard n (get_random_generator rd)) in
    0 <= z < two32 ∧ length x = 624%nat.
Proof.
  split; [vm_compute; reflexivity|]. pose proof (generator_usable rd) as Hu. split; [exact Hu|]. intros n.
  destruct Hu as [Hl _]. revert Hl. generalize (get_random_generator rd). intros x Hl.
  pose proof (discard_length n x Hl) as Hd. revert Hd. generalize (Mt19937.discard n x). intros y Hy.
  pose proof (draw_range y) as Hr. pose proof (draw_length y ltac:(lia)) as Hx.
  destruct (Mt19937.draw y) as [z w]. simpl in Hr, Hx. split; [exact Hr | lia].
Qed.
