(* ===== verification/address.v ===== *)
(** * Socket addresses (src/lab/libsponge/util/address.hh, .cc)

    An [Address] wraps the bytes of a [sockaddr_storage].  The conversions from
    and to numeric IPv4 addresses are modelled on those bytes; the resolver
    ([getaddrinfo], [getnameinfo]) is the operating system's and is a parameter
    of the one definition that uses it. *)

From S2P Require Import Prelude parser.

Module Address.

(** [sizeof(sockaddr_storage)], [sizeof(sockaddr_in)] and [AF_INET] on Linux. *)
Definition sizeof_storage : Z := 128.
Definition sizeof_sockaddr_in : Z := 16.
Definition AF_INET : Z := 2.

Record t := mk { _size : Z; _address : bytes }.

#[global] Instance Address_eq_dec : EqDecision t.
Proof. solve_decision. Defined.

(** The constructor from a [sockaddr *] of [size] bytes. *)
Definition of_sockaddr (addr : bytes) (size : Z) : result t :=
  if sizeof_storage <? size then Throw runtime_error
  else Ok (mk size (resize (ztake size addr) sizeof_storage)).

(** [ss_family] is the first two bytes, little-endian. *)
Definition ss_family (a : t) : Z := BigEndian.decode (rev (ztake 2 (_address a))).

Definition ipv4_numeric (a : t) : result Z :=
  if negb (ss_family a =? AF_INET) || negb (_size a =? sizeof_sockaddr_in) then Throw runtime_error
  else
    let ipv4_addr := ztake (_size a) (_address a) in
    Ok (BigEndian.decode (ztake 4 (zdrop 4 ipv4_addr))).

(** A [sockaddr_in]: family, port, address, eight bytes of padding. *)
Definition sockaddr_in (port ip : Z) : bytes :=
  [x02; x00] ++ BigEndian.encode 2 port ++ BigEndian.encode 4 ip ++ replicate 8 x00.

Definition from_ipv4_numeric (ip_address : Z) : result t :=
  of_sockaddr (sockaddr_in 0 ip_address) sizeof_sockaddr_in.

Definition eqb (a b : t) : bool :=
  if negb (_size a =? _size b) then false
  else bool_decide (ztake (_size a) (_address a) = ztake (_size b) (_address b)).
Definition neqb (a b : t) : bool := negb (eqb a b).
Definition size (a : t) : Z := _size a.

(** ** Decimal numbers *)

Definition digit (z : Z) : byte := byte_of (48 + z).
Definition is_digit (b : byte) : bool := (48 <=? byte_val b) && (byte_val b <=? 57).
Definition is_space (b : byte) : bool := (byte_val b =? 32) || ((9 <=? byte_val b) && (byte_val b <=? 13)).

(** [std::to_string] of a non-negative [int]: ten digits are enough. *)
Fixpoint decimal (fuel : nat) (z : Z) : bytes :=
  match fuel with
  | O => []
  | S fuel => if z <? 10 then [digit z] else decimal fuel (z / 10) ++ [digit (z mod 10)]
  end.
Definition to_string (z : Z) : bytes := decimal 10 z.

(** The value of the leading digits. *)
Fixpoint digits (acc : Z) (s : bytes) : Z :=
  match s with
  | b :: s => if is_digit b then digits (10 * acc + (byte_val b - 48)) s else acc
  | [] => acc
  end.
Fixpoint skip_spaces (s : bytes) : bytes :=
  match s with b :: s' => if is_space b then skip_spaces s' else s | [] => [] end.

(** [std::stoi]. *)
Definition stoi (s : bytes) : result Z :=
  let s := skip_spaces s in
  let '(sign, s) := match s with
                    | x2d :: s => (-1, s)
                    | x2b :: s => (1, s)
                    | _ => (1, s)
                    end in
  match s with
  | b :: _ =>
      if is_digit b then
        let z := sign * digits 0 s in
        if (z <? - 2147483648) || (2147483647 <? z) then Throw out_of_range else Ok z
      else Throw invalid_argument
  | [] => Throw invalid_argument
  end.

(** ** The resolver

    What the operating system offers: an error code, or a list of socket
    addresses ([getaddrinfo]), the host and service strings of an address
    ([getnameinfo]) and the dotted quad of an address ([inet_ntoa]). *)

Class Resolver := {
  getaddrinfo : bytes → bytes → Z → Z → Z + list bytes;
  getnameinfo : bytes → Z → Z + (bytes * bytes);
  inet_ntoa : Z → bytes }.

Definition AI_ALL : Z := 0x10.
Definition AI_NUMERICHOST : Z := 0x4.
Definition AI_NUMERICSERV : Z := 0x400.
Definition NI_NUMERICHOST : Z := 1.
Definition NI_NUMERICSERV : Z := 2.

(** The constructors from a node and a service, with hints; from a host name and
    a service name; and from a dotted quad and a port. *)
Definition resolve `{Resolver} (node service : bytes) (ai_flags ai_family : Z) : result t :=
  match getaddrinfo node service ai_flags ai_family with
  | inl _ => Throw runtime_error
  | inr [] => Throw runtime_error
  | inr (addr :: _) => of_sockaddr addr (len addr)
  end.
Definition of_host `{Resolver} (hostname service : bytes) : result t := resolve hostname service AI_ALL AF_INET.
Definition of_ip_port `{Resolver} (ip : bytes) (port : Z) : result t :=
  resolve ip (to_string port) (Z.lor AI_NUMERICHOST AI_NUMERICSERV) AF_INET.

Definition ip_port `{Resolver} (a : t) : result (bytes * Z) :=
  match getnameinfo (ztake (_size a) (_address a)) (Z.lor NI_NUMERICHOST NI_NUMERICSERV) with
  | inl _ => Throw runtime_error
  | inr (ip, port) => p ← stoi port; Ok (ip, uint16 p)
  end.
Definition ip `{Resolver} (a : t) : result bytes := '(i, _) ← ip_port a; Ok i.
Definition port `{Resolver} (a : t) : result Z := '(_, p) ← ip_port a; Ok p.

(** [Address::to_string]. *)
Definition show `{Resolver} (a : t) : result bytes :=
  '(i, p) ← ip_port a; Ok (i ++ [x3a] ++ to_string p).

(** The documented behaviour of the resolver on numeric IPv4 addresses. *)
Class NumericResolver `{Resolver} : Prop := {
  getnameinfo_numeric port ip : 0 <= port < two16 → 0 <= ip < two32 →
    getnameinfo (sockaddr_in port ip) (Z.lor NI_NUMERICHOST NI_NUMERICSERV)
    = inr (inet_ntoa ip, to_string port);
  getaddrinfo_numeric port ip : 0 <= port < two16 → 0 <= ip < two32 →
    ∃ rest, getaddrinfo (inet_ntoa ip) (to_string port) (Z.lor AI_NUMERICHOST AI_NUMERICSERV) AF_INET
            = inr (sockaddr_in port ip :: rest) }.

Lemma is_digit_digit z : 0 <= z < 10 → is_digit (digit z) = true ∧ byte_val (digit z) = 48 + z.
Proof.
  intros H. unfold is_digit, digit. rewrite byte_val_of, uint8_id by lia. split; [|done].
  destruct (Z.leb_spec 48 (48 + z)), (Z.leb_spec (48 + z) 57); lia || done.
Qed.

Lemma digits_app s z : ∀ acc, Forall (λ b, is_digit b = true) s → 0 <= z < 10 →
  digits acc (s ++ [digit z]) = 10 * digits acc s + z.
Proof.
  induction s as [|b s IH]; intros acc Hs Hz; simpl.
  - destruct (is_digit_digit z Hz) as [-> ->]. lia.
  - apply Forall_cons in Hs as [-> Hs]. by apply IH.
Qed.

Lemma decimal_spec fuel : ∀ z, 0 <= z < 10 ^ Z.of_nat fuel → (0 < fuel)%nat →
  Forall (λ b, is_digit b = true) (decimal fuel z) ∧ digits 0 (decimal fuel z) = z ∧ decimal fuel z ≠ [].
Proof.
  induction fuel as [|fuel IH]; intros z Hz Hf; [lia|]. simpl decimal.
  destruct (Z.ltb_spec z 10) as [Hlt|Hge].
  - destruct (is_digit_digit z ltac:(lia)) as [Hd Hv]. split; [by constructor|]. split; [|done].
    simpl. rewrite Hd, Hv. lia.
  - rewrite Nat2Z.inj_succ, Z.pow_succ_r in Hz by lia.
    pose proof (Z.div_mod z 10 ltac:(lia)). pose proof (Z.mod_pos_bound z 10 ltac:(lia)).
    destruct fuel as [|fuel]; [simpl in Hz; lia|].
    destruct (IH (z / 10)) as (H1 & H2 & H3); [lia | lia |]. split; [|split].
    + apply Forall_app. split; [done|]. constructor; [by apply is_digit_digit | constructor].
    + rewrite digits_app, H2 by done. lia.
    + by destruct (decimal (S fuel) (z / 10)).
Qed.

(** [stoi] reads back what [to_string] writes. *)
Lemma stoi_to_string z : 0 <= z < 2147483648 → stoi (to_string z) = Ok z.
Proof.
  intros Hz. destruct (decimal_spec 10 z) as (H1 & H2 & H3); [lia | lia |]. unfold to_string.
  destruct (decimal 10 z) as [|b s] eqn:E; [done|]. apply Forall_cons in H1 as [Hb Hs].
  assert (stoi (b :: s) = let z := digits 0 (b :: s) in
    if (z <? - 2147483648) || (2147483647 <? z) then Throw out_of_range else Ok z) as ->.
  { unfold stoi. pose proof Hb as Hb'. unfold is_digit in Hb'. apply andb_true_iff in Hb' as [Hlo Hhi].
    assert (is_space b = false) as Hsp.
    { unfold is_space. destruct (Z.eqb_spec (byte_val b) 32), (Z.leb_spec 9 (byte_val b)),
        (Z.leb_spec (byte_val b) 13); simpl; lia || done. }
    simpl skip_spaces. rewrite Hsp. destruct b; try discriminate Hlo; try discriminate Hhi;
      cbv beta iota; rewrite Hb; cbv beta iota zeta; by rewrite Z.mul_1_l. }
  rewrite H2. cbv zeta. destruct (Z.ltb_spec z (-2147483648)), (Z.ltb_spec 2147483647 z); simpl; lia || done.
Qed.

(** ** IPv4 endpoints *)

(** The address and port as an [Address]; [of_ipv4] is the case of port zero. *)
Definition endpoint (ip port : Z) : t :=
  mk sizeof_sockaddr_in (sockaddr_in port ip ++ replicate 112 x00).
Definition of_ipv4 (ip : Z) : t := endpoint ip 0.

Lemma len_sockaddr_in port ip : len (sockaddr_in port ip) = 16.
Proof. unfold sockaddr_in. rewrite !len_app, !BigEndian.len_encode. done. Qed.

Lemma of_sockaddr_in port ip : of_sockaddr (sockaddr_in port ip) sizeof_sockaddr_in = Ok (endpoint ip port).
Proof.
  unfold of_sockaddr, endpoint, sizeof_sockaddr_in, sizeof_storage. simpl Z.ltb. cbv iota.
  rewrite ztake_ge by (rewrite len_sockaddr_in; lia).
  rewrite resize_pad by (rewrite len_sockaddr_in; lia). rewrite len_sockaddr_in. done.
Qed.

Lemma from_ipv4_numeric_eq ip : from_ipv4_numeric ip = Ok (of_ipv4 ip).
Proof. unfold from_ipv4_numeric, of_ipv4. by rewrite of_sockaddr_in. Qed.

Lemma ipv4_numeric_endpoint ip port : 0 <= ip < two32 → ipv4_numeric (endpoint ip port) = Ok ip.
Proof.
  intros H. unfold ipv4_numeric, endpoint, ss_family, sockaddr_in. simpl _address. simpl _size.
  change (negb (BigEndian.decode _ =? AF_INET) || negb (sizeof_sockaddr_in =? sizeof_sockaddr_in)) with false.
  cbv iota. f_equal. unfold sizeof_sockaddr_in.
  transitivity (BigEndian.decode (BigEndian.encode 4 ip)); [done|].
  rewrite BigEndian.decode_encode. by apply Z.mod_small.
Qed.

Lemma ipv4_numeric_of_ipv4 ip : 0 <= ip < two32 → ipv4_numeric (of_ipv4 ip) = Ok ip.
Proof. apply ipv4_numeric_endpoint. Qed.

Lemma of_ip_port_numeric `{NumericResolver} ip port : 0 <= ip < two32 → 0 <= port < two16 →
  of_ip_port (inet_ntoa ip) port = Ok (endpoint ip port).
Proof.
  intros Hi Hp. unfold of_ip_port, resolve. destruct (getaddrinfo_numeric port ip Hp Hi) as [rest ->].
  rewrite len_sockaddr_in. fold sizeof_sockaddr_in. by rewrite of_sockaddr_in.
Qed.

Lemma port_endpoint `{NumericResolver} ip p : 0 <= ip < two32 → 0 <= p < two16 → port (endpoint ip p) = Ok p.
Proof.
  intros Hi Hp. unfold port, ip_port, endpoint. cbn [_size _address].
  rewrite ztake_app_le by (rewrite len_sockaddr_in; done). rewrite ztake_ge by (rewrite len_sockaddr_in; done).
  rewrite getnameinfo_numeric by done. rewrite stoi_to_string, !result_bind_ok by lia. by rewrite uint16_id.
Qed.

(** Numeric IPv4 addresses round-trip through the bytes of a socket address:
    [from_ipv4_numeric] never throws, [ipv4_numeric] gives the number back, and
    distinct numbers give addresses that compare as different. *)
Theorem address_roundtrip (ip1 ip2 : Z) :
  0 <= ip1 < two32 → 0 <= ip2 < two32 →
  ∃ a1 a2, from_ipv4_numeric ip1 = Ok a1 ∧ from_ipv4_numeric ip2 = Ok a2 ∧
    ipv4_numeric a1 = Ok ip1 ∧ (eqb a1 a2 = true ↔ ip1 = ip2).
Proof.
  intros H1 H2. exists (of_ipv4 ip1), (of_ipv4 ip2). rewrite !from_ipv4_numeric_eq.
  do 2 (split; [done|]). split; [by apply ipv4_numeric_of_ipv4|].
  unfold eqb. rewrite Z.eqb_refl. simpl negb. cbv iota. rewrite bool_decide_eq_true. split; [|by intros ->].
  intros E. pose proof (ipv4_numeric_of_ipv4 ip1 H1) as N1. pose proof (ipv4_numeric_of_ipv4 ip2 H2) as N2.
  unfold ipv4_numeric in N1, N2. rewrite E in N1.
  change (negb (ss_family (of_ipv4 ip1) =? AF_INET) || negb (_size (of_ipv4 ip1) =? sizeof_sockaddr_in))
    with false in N1.
  change (negb (ss_family (of_ipv4 ip2) =? AF_INET) || negb (_size (of_ipv4 ip2) =? sizeof_sockaddr_in))
    with false in N2.
  cbv iota zeta in N1, N2. congruence.
Qed.

Lemma address_roundtrip_witness :
  ∃ a1 a2, from_ipv4_numeric 0x0a000001 = Ok a1 ∧ from_ipv4_numeric 0x0a000002 = Ok a2 ∧
    ipv4_numeric a1 = Ok 0x0a000001 ∧ (eqb a1 a2 = true ↔ 0x0a000001 = 0x0a000002).
Proof. apply (address_roundtrip 0x0a000001 0x0a000002); lia. Defined.

End Address.

(** ** A resolver for dotted quads

    It shows that the documented behaviour can be met. *)

Module DottedQuad.
Import Address.

Fixpoint drop_digits (s : bytes) : bytes :=
  match s with b :: s' => if is_digit b then drop_digits s' else s | [] => [] end.

Definition print (ip : Z) : bytes :=
  to_string (ip / 2 ^ 24) ++ x2e :: to_string (ip / 2 ^ 16 mod 256) ++ x2e ::
  to_string (ip / 2 ^ 8 mod 256) ++ x2e :: to_string (ip mod 256).

(** The numbers of a string, separated by single characters. *)
Fixpoint numbers (fuel : nat) (s : bytes) : list Z :=
  match fuel with
  | O => []
  | S fuel => digits 0 s :: numbers fuel (tail (drop_digits s))
  end.

Definition scan (s : bytes) : Z := foldl (λ acc n, 256 * acc + n) 0 (numbers 4 s).

#[export] Instance resolver : Resolver := {
  getaddrinfo node service _ _ := inr [sockaddr_in (digits 0 service) (scan node)];
  getnameinfo addr _ :=
    inr (print (BigEndian.decode (ztake 4 (zdrop 4 addr))), to_string (BigEndian.decode (ztake 2 (zdrop 2 addr))));
  inet_ntoa := print }.

Lemma digits_stop s rest : ∀ acc, Forall (λ b, is_digit b = true) s →
  digits acc (s ++ x2e :: rest) = digits acc s ∧ drop_digits (s ++ x2e :: rest) = x2e :: rest.
Proof.
  induction s as [|b s IH]; intros acc Hs; [done|]. apply Forall_cons in Hs as [Hb Hs]. simpl. rewrite Hb.
  by apply IH.
Qed.

Lemma to_string_digits z : 0 <= z < two16 →
  Forall (λ b, is_digit b = true) (to_string z) ∧ digits 0 (to_string z) = z.
Proof. intros Hz. destruct (decimal_spec 10 z) as (H1 & H2 & _); [lia | lia | done]. Qed.

Lemma numbers_step fuel z rest : 0 <= z < two16 →
  numbers (S fuel) (to_string z ++ x2e :: rest) = z :: numbers fuel rest.
Proof.
  intros Hz. destruct (to_string_digits z Hz) as [Hd Hv]. simpl.
  destruct (digits_stop (to_string z) rest 0 Hd) as [-> ->]. by rewrite Hv.
Qed.

Lemma scan_print ip : 0 <= ip < two32 → scan (print ip) = ip.
Proof.
  intros Hip. assert (∀ n, 0 <= n mod 256 < 256) as Hm by (intros; apply Z.mod_pos_bound; lia).
  assert (0 <= ip / 2 ^ 24 < 256) by (split; [apply Z.div_pos | apply Z.div_lt_upper_bound]; lia).
  unfold scan, print. rewrite !numbers_step by (pose proof (Hm (ip / 2 ^ 16)); pose proof (Hm (ip / 2 ^ 8)); lia).
  cbn [numbers]. rewrite (proj2 (to_string_digits (ip mod 256) ltac:(pose proof (Hm ip); lia))). cbn [foldl].
  change (2 ^ 24) with (256 * 256 * 256). change (2 ^ 16) with (256 * 256). change (2 ^ 8) with 256.
  rewrite <- !Z.div_div by lia.
  pose proof (Z.div_mod ip 256 ltac:(lia)). pose proof (Z.div_mod (ip / 256) 256 ltac:(lia)).
  pose proof (Z.div_mod (ip / 256 / 256) 256 ltac:(lia)). lia.
Qed.

#[export] Instance numeric_resolver : NumericResolver.
Proof.
  split; intros port ip Hp Hi.
  - cbn [getnameinfo inet_ntoa resolver]. unfold sockaddr_in.
    change (zdrop 2 ([x02; x00] ++ BigEndian.encode 2 port ++ BigEndian.encode 4 ip ++ replicate 8 x00))
      with (BigEndian.encode 2 port ++ BigEndian.encode 4 ip ++ replicate 8 x00).
    change (zdrop 4 ([x02; x00] ++ BigEndian.encode 2 port ++ BigEndian.encode 4 ip ++ replicate 8 x00))
      with (BigEndian.encode 4 ip ++ replicate 8 x00).
    rewrite !ztake_app_le, !ztake_ge by (rewrite BigEndian.len_encode; lia).
    by rewrite !BigEndian.decode_encode, !Z.mod_small by lia.
  - exists []. cbn [getaddrinfo inet_ntoa resolver]. by rewrite scan_print, (proj2 (to_string_digits port Hp)).
Qed.

End DottedQuad.
