(* ===== verification/ostream.v ===== *)
(** * Formatted output (the [std::ostream] operations the sources use)

    The programs print with [operator<<] on [std::cout] and on [std::stringstream]s.  A stream has its
    characters, the position of the next write, and a format: the base of integers,
    [boolalpha], the fill character and the width of the next field, which one insertion uses up.
    [operator<<] is overloaded: here it is a class with an instance for each type of operand.

    The lemmas say what a write at the end of a stream appends, and how a text with numbers is read back. *)

From stdpp Require Import strings.
From S2P Require Import Prelude address.

(** The end of a line. *)
Definition nl : bytes := [x0a].

Module Ostream.

Record t := mk {
  contents : bytes;
  pptr : nat;         (* where the next character goes *)
  hexadecimal : bool; (* [hex], not [dec] *)
  alpha : bool;       (* [boolalpha] *)
  fill : byte;
  width : nat
}.

#[global] Instance Ostream_eq_dec : EqDecision t.
Proof. solve_decision. Defined.

(** [stringstream ss{}] and [stringstream ss(s)]: the second writes from the start of [s]. *)
Definition new : t := mk [] 0 false false x20 0.
Definition of_string (s : bytes) : t := mk s 0 false false x20 0.

Definition str (o : t) : bytes := contents o.
(** [ss.str(s)]. *)
Definition set_str (o : t) (s : bytes) : t := mk s 0 (hexadecimal o) (alpha o) (fill o) (width o).

(** The characters go over what is at the position, and past the end. *)
Definition sputn (o : t) (s : bytes) : t :=
  mk (take (pptr o) (contents o) ++ s ++ drop (pptr o + length s) (contents o)) (pptr o + length s)
    (hexadecimal o) (alpha o) (fill o) (width o).

Definition set_width (o : t) (w : nat) : t := mk (contents o) (pptr o) (hexadecimal o) (alpha o) (fill o) w.

(** A field: filled on the left up to the width, which is then zero. *)
Definition field (o : t) (s : bytes) : t :=
  set_width (sputn o (replicate (width o - length s) (fill o) ++ s)) 0.

(** [flags()] and [flags(f)]: the fill character is not one of the flags. *)
Definition flags (o : t) : bool * bool := (hexadecimal o, alpha o).
Definition set_flags (o : t) (f : bool * bool) : t := mk (contents o) (pptr o) f.1 f.2 (fill o) (width o).

(** Sixteen digits are enough for 64 bits. *)
Definition hex_digit (z : Z) : byte := if z <? 10 then byte_of (48 + z) else byte_of (87 + z).
Fixpoint hex_digits (fuel : nat) (z : Z) : bytes :=
  match fuel with
  | O => []
  | S fuel => if z <? 16 then [hex_digit z] else hex_digits fuel (z / 16) ++ [hex_digit (z mod 16)]
  end.

(** An unsigned (or not negative) integer, as printed. *)
Definition number (o : t) (z : Z) : bytes :=
  if hexadecimal o then hex_digits 16 z else Address.decimal 20 z.

Definition boolean (o : t) (b : bool) : bytes :=
  if alpha o then text (if b then "true" else "false") else number o (Z.b2z b).

(** ** [operator<<] *)

Class Insertable (A : Type) := insert : t → A → t.

Inductive manipulator := hex | dec | boolalpha | setfill (c : byte) | setw (n : nat).

#[global] Instance insert_string : Insertable bytes := field.
#[global] Instance insert_char : Insertable byte := λ o c, field o [c].
#[global] Instance insert_number : Insertable Z := λ o z, field o (number o z).
#[global] Instance insert_bool : Insertable bool := λ o b, field o (boolean o b).
#[global] Instance insert_manipulator : Insertable manipulator := λ o m,
  match m with
  | hex => mk (contents o) (pptr o) true (alpha o) (fill o) (width o)
  | dec => mk (contents o) (pptr o) false (alpha o) (fill o) (width o)
  | boolalpha => mk (contents o) (pptr o) (hexadecimal o) true (fill o) (width o)
  | setfill c => mk (contents o) (pptr o) (hexadecimal o) (alpha o) c (width o)
  | setw n => set_width o n
  end.

#[local] Notation "o << x" := (insert o x) (at level 50, left associativity).

(** ** Writing at the end of a stream *)

Definition at_end (c : bytes) (hx al : bool) (fl : byte) : t := mk c (length c) hx al fl 0.

Lemma sputn_end c hx al fl w s :
  sputn (mk c (length c) hx al fl w) s = mk (c ++ s) (length (c ++ s)) hx al fl w.
Proof. unfold sputn. cbn. rewrite firstn_all, drop_ge, app_nil_r, length_app by lia. reflexivity. Qed.

(** A field of width [w]. *)
Lemma field_end c hx al fl w s :
  field (set_width (at_end c hx al fl) w) s = at_end (c ++ replicate (w - length s) fl ++ s) hx al fl.
Proof.
  unfold field. change (set_width (at_end c hx al fl) w) with (mk c (length c) hx al fl w). rewrite sputn_end. reflexivity.
Qed.

Lemma field_plain c hx al fl s : field (at_end c hx al fl) s = at_end (c ++ s) hx al fl.
Proof. exact (field_end c hx al fl 0 s). Qed.

Lemma string_end c hx al fl (s : bytes) : at_end c hx al fl << s = at_end (c ++ s) hx al fl.
Proof. apply field_plain. Qed.
Lemma char_end c hx al fl (x : byte) : at_end c hx al fl << x = at_end (c ++ [x]) hx al fl.
Proof. apply field_plain. Qed.
Lemma hex_end c al fl (z : Z) : at_end c true al fl << z = at_end (c ++ hex_digits 16 z) true al fl.
Proof. apply field_plain. Qed.
Lemma dec_end c al fl (z : Z) : at_end c false al fl << z = at_end (c ++ Address.decimal 20 z) false al fl.
Proof. apply field_plain. Qed.
Lemma bool_end c hx fl (b : bool) :
  at_end c hx true fl << b = at_end (c ++ text (if b then "true" else "false")) hx true fl.
Proof. apply field_plain. Qed.
Lemma set_hex c hx al fl : at_end c hx al fl << hex = at_end c true al fl.
Proof. done. Qed.
Lemma set_dec c hx al fl : at_end c hx al fl << dec = at_end c false al fl.
Proof. done. Qed.
Lemma set_alpha c hx al fl : at_end c hx al fl << boolalpha = at_end c hx true fl.
Proof. done. Qed.
Lemma set_fill c hx al fl x : at_end c hx al fl << setfill x = at_end c hx al x.
Proof. done. Qed.
Lemma hex_width c al fl w (z : Z) :
  at_end c true al fl << setw w << z
  = at_end (c ++ replicate (w - length (hex_digits 16 z)) fl ++ hex_digits 16 z) true al fl.
Proof. apply field_end. Qed.
Lemma new_end : new = at_end [] false false x20.
Proof. done. Qed.
Lemma str_end c hx al fl : str (at_end c hx al fl) = c.
Proof. done. Qed.

End Ostream.

Declare Scope ostream_scope.
Delimit Scope ostream_scope with ostream.
Notation "o << x" := (Ostream.insert o x) (at level 50, left associativity) : ostream_scope.

Create Rewrite HintDb ostream.
#[export] Hint Rewrite Ostream.string_end Ostream.char_end Ostream.hex_end Ostream.dec_end Ostream.bool_end
  Ostream.set_hex Ostream.set_dec Ostream.set_alpha Ostream.set_fill Ostream.hex_width Ostream.new_end Ostream.str_end : ostream.

(** What a chain of insertions at the end of a stream has written. *)
Ltac written := autorewrite with ostream; rewrite ?app_nil_l, <- ?app_assoc.

(** ** Reading numbers back *)

Module ReadText.

Import Ostream.

Definition hex_digit_value (b : byte) : option Z :=
  let v := byte_val b in
  if (48 <=? v) && (v <=? 57) then Some (v - 48) else if (97 <=? v) && (v <=? 102) then Some (v - 87) else None.
Definition is_hex (b : byte) : bool := bool_decide (is_Some (hex_digit_value b)).

(** The value of the leading digits. *)
Fixpoint hex_value (acc : Z) (s : bytes) : Z :=
  match s with
  | b :: s => match hex_digit_value b with Some d => hex_value (16 * acc + d) s | None => acc end
  | [] => acc
  end.

Lemma hex_digit_read z : 0 <= z < 16 → hex_digit_value (hex_digit z) = Some z.
Proof.
  intros Hz. assert (∀ n, (n < 16)%nat → hex_digit_value (hex_digit (Z.of_nat n)) = Some (Z.of_nat n)) as H.
  { intros n Hn. do 16 (destruct n as [|n]; [reflexivity|]). lia. }
  specialize (H (Z.to_nat z) ltac:(lia)). by rewrite !Z2Nat.id in H by lia.
Qed.

Lemma hex_digit_is_hex z : 0 <= z < 16 → is_hex (hex_digit z) = true.
Proof. intros Hz. unfold is_hex. rewrite hex_digit_read by done. by apply bool_decide_eq_true_2. Qed.

Lemma hex_value_app s1 s2 : ∀ acc, Forall (λ b, is_hex b = true) s1 →
  hex_value acc (s1 ++ s2) = hex_value (hex_value acc s1) s2.
Proof.
  induction s1 as [|b s1 IH]; intros acc Hs; [done|]. apply Forall_cons in Hs as [Hb Hs]. simpl.
  unfold is_hex in Hb. apply bool_decide_eq_true_1 in Hb as [d ->]. by apply IH.
Qed.

(** [hex_digits] writes only digits, not more than needed, and they read back. *)
Lemma hex_digits_spec fuel : ∀ z, 0 <= z < 16 ^ Z.of_nat fuel → (0 < fuel)%nat →
  Forall (λ b, is_hex b = true) (hex_digits fuel z) ∧ hex_value 0 (hex_digits fuel z) = z.
Proof.
  induction fuel as [|fuel IH]; intros z Hz Hf; [lia|]. cbn [hex_digits].
  destruct (Z.ltb_spec z 16) as [Hlt|Hge].
  - split; [constructor; [apply hex_digit_is_hex; lia | constructor]|]. cbn [hex_value]. by rewrite hex_digit_read by lia.
  - rewrite Nat2Z.inj_succ, Z.pow_succ_r in Hz by lia.
    pose proof (Z.div_mod z 16 ltac:(lia)). pose proof (Z.mod_pos_bound z 16 ltac:(lia)).
    destruct fuel as [|fuel]; [simpl in Hz; lia|]. destruct (IH (z / 16)) as [H1 H2]; [lia | lia |]. split.
    + apply Forall_app. split; [done|]. constructor; [apply hex_digit_is_hex; lia | constructor].
    + rewrite hex_value_app, H2 by done. cbn [hex_value]. rewrite hex_digit_read by lia. lia.
Qed.

Lemma hex_digits_length fuel k : ∀ z, 0 <= z < 16 ^ Z.of_nat k → (0 < k)%nat → (length (hex_digits fuel z) <= k)%nat.
Proof.
  revert k. induction fuel as [|fuel IH]; intros k z Hz Hk; [simpl; lia|]. cbn [hex_digits].
  destruct (Z.ltb_spec z 16); [simpl; lia|]. destruct k as [|[|k]]; [lia | simpl in Hz; lia |].
  rewrite Nat2Z.inj_succ, Z.pow_succ_r in Hz by lia. pose proof (Z.div_mod z 16 ltac:(lia)).
  pose proof (Z.mod_pos_bound z 16 ltac:(lia)). rewrite length_app. cbn [length].
  specialize (IH (S k) (z / 16) ltac:(lia) ltac:(lia)). lia.
Qed.

(** Leading zeros do not matter to the value. *)
Definition padded (w : nat) (z : Z) : bytes := replicate (w - length (hex_digits 16 z)) x30 ++ hex_digits 16 z.

Lemma hex_value_zeros n s : hex_value 0 (replicate n x30 ++ s) = hex_value 0 s.
Proof. induction n as [|n IH]; [done|]. exact IH. Qed.

Lemma padded_spec w z : 0 <= z < 16 ^ Z.of_nat w → (0 < w <= 16)%nat →
  length (padded w z) = w ∧ Forall (λ b, is_hex b = true) (padded w z) ∧ hex_value 0 (padded w z) = z.
Proof.
  intros Hz Hw. unfold padded. pose proof (Z.pow_le_mono_r 16 (Z.of_nat w) 16 ltac:(lia) ltac:(lia)).
  destruct (hex_digits_spec 16 z) as [H1 H2]; [lia | lia |].
  pose proof (hex_digits_length 16 w z Hz ltac:(lia)). split; [rewrite length_app, length_replicate; lia|].
  split; [apply Forall_app; split; [by apply Forall_replicate | done] | by rewrite hex_value_zeros].
Qed.

(** ** Fields of a text *)

(** Up to a separator that is not a character of the field. *)
Lemma field_split (P : byte → bool) c s1 s2 r1 r2 :
  Forall (λ b, P b = true) s1 → Forall (λ b, P b = true) s2 → P c = false →
  s1 ++ c :: r1 = s2 ++ c :: r2 → s1 = s2 ∧ r1 = r2.
Proof.
  intros H1 H2 Hc. revert s2 H2. induction s1 as [|b s1 IH]; intros [|b' s2] H2 E; simpl in E; simplify_eq.
  - done.
  - apply Forall_cons in H2 as [H2 _]. congruence.
  - apply Forall_cons in H1 as [H1 _]. congruence.
  - apply Forall_cons in H1 as [_ H1]. apply Forall_cons in H2 as [_ H2]. by destruct (IH H1 s2 H2) as [-> ->].
Qed.

Lemma hex_field a b c r1 r2 : 0 <= a < two64 → 0 <= b < two64 → is_hex c = false →
  hex_digits 16 a ++ c :: r1 = hex_digits 16 b ++ c :: r2 → a = b ∧ r1 = r2.
Proof.
  intros Ha Hb Hc E. destruct (hex_digits_spec 16 a) as [A1 A2]; [lia | lia |].
  destruct (hex_digits_spec 16 b) as [B1 B2]; [lia | lia |].
  destruct (field_split is_hex c _ _ _ _ A1 B1 Hc E) as [E1 ->]. split; [congruence | done].
Qed.

Lemma dec_field a b c r1 r2 : 0 <= a < two64 → 0 <= b < two64 → Address.is_digit c = false →
  Address.decimal 20 a ++ c :: r1 = Address.decimal 20 b ++ c :: r2 → a = b ∧ r1 = r2.
Proof.
  intros Ha Hb Hc E. destruct (Address.decimal_spec 20 a) as (A1 & A2 & _); [lia | lia |].
  destruct (Address.decimal_spec 20 b) as (B1 & B2 & _); [lia | lia |].
  destruct (field_split Address.is_digit c _ _ _ _ A1 B1 Hc E) as [E1 ->]. split; [congruence | done].
Qed.

(** Up to a text that does not start with a digit. *)
Lemma hex_text_field s a b r1 r2 : 0 <= a < two64 → 0 <= b < two64 → (∃ c s', s = c :: s' ∧ is_hex c = false) →
  hex_digits 16 a ++ s ++ r1 = hex_digits 16 b ++ s ++ r2 → a = b ∧ r1 = r2.
Proof.
  intros Ha Hb (c & s' & -> & Hc) E. apply hex_field in E as [-> E]; [|done..]. split; [done | by apply app_inv_head in E].
Qed.
Lemma dec_text_field s a b r1 r2 : 0 <= a < two64 → 0 <= b < two64 → (∃ c s', s = c :: s' ∧ Address.is_digit c = false) →
  Address.decimal 20 a ++ s ++ r1 = Address.decimal 20 b ++ s ++ r2 → a = b ∧ r1 = r2.
Proof.
  intros Ha Hb (c & s' & -> & Hc) E. apply dec_field in E as [-> E]; [|done..]. split; [done | by apply app_inv_head in E].
Qed.

Lemma bool_field (a b : bool) r1 r2 :
  text (if a then "true" else "false") ++ r1 = text (if b then "true" else "false") ++ r2 → a = b ∧ r1 = r2.
Proof. destruct a, b; intros E; try discriminate E; by simplify_eq/=. Qed.

End ReadText.
