(* ===== verification/hexdump.v ===== *)
(** * Hexadecimal dumps ([hexdump] of src/lab/libsponge/util/util.cc)

    [hexdump] prints bytes sixteen to a line: the offset, the bytes in groups of two, the
    printable characters.  [std::cout] is passed as a state, since its format outlives the call.

    The theorems: the loop prints the lines one would write down, no two byte strings
    have the same dump, and a call leaves the flags of the stream as they were but its fill character changed. *)

From stdpp Require Import strings.
From S2P Require Import Prelude address ostream.

Module Hexdump.

Import Ostream ReadText.
Local Open Scope ostream_scope.

Definition isprint (b : byte) : bool := (32 <=? byte_val b) && (byte_val b <=? 126).

(** The variables of the loop: [cout], [pchars] and [printed]. *)
Definition vars : Type := t * t * Z.

(** The start of a line, with the end of the line before. *)
Definition new_line (indent_string : bytes) (cout pchars : t) (printed : Z) : t * t :=
  let '(cout, pchars) :=
    if negb (printed =? 0) then (cout << text "    " << str pchars << [x0a], set_str pchars (text " "))
    else (cout, pchars) in
  (cout << indent_string << setw 8 << printed << text ":    ", pchars).

(** The body of the loop. *)
Definition hexdump_byte (indent_string : bytes) (v : vars) (b : byte) : result vars :=
  let '(cout, pchars, printed) := v in
  let '(cout, pchars) :=
    if Z.land printed 0xf =? 0 then new_line indent_string cout pchars printed
    else if Z.land printed 1 =? 0 then (cout << x20, pchars)
    else (cout, pchars) in
  let cout := cout << setw 2 << byte_val b in
  let pchars := pchars << (if isprint b then b else x2e) in
  if printed =? 2147483647 then Throw SignedOverflow else Ok (cout, pchars, printed + 1).

Fixpoint hexdump_loop (indent_string data : bytes) (v : vars) : result vars :=
  match data with
  | [] => Ok v
  | b :: data => v ← hexdump_byte indent_string v b; hexdump_loop indent_string data v
  end.

Definition hexdump (data : bytes) (indent : nat) (cout : t) : result t :=
  let flags := flags cout in
  let indent_string := replicate indent x20 in
  let pchars := of_string (text " ") in
  let cout := cout << hex << setfill x30 in
  '(cout, pchars, printed) ← hexdump_loop indent_string data (cout, pchars, 0);
  let print_rem := (16 - Z.land printed 0xf) mod 16 in
  let cout := cout << replicate (Z.to_nat (2 * print_rem + print_rem / 2 + 4)) x20 << str pchars in
  let cout := cout << x0a << x0a in
  Ok (set_flags cout flags).

(** ** The lines of a dump *)

Definition shown (b : byte) : byte := if isprint b then b else x2e.

(** The bytes from position [j] of a line: a space before each second one but the first. *)
Fixpoint groups (j : nat) (l : bytes) : bytes :=
  match l with
  | [] => []
  | b :: l => (if Nat.even j && negb (Nat.eqb j 0) then [x20] else []) ++ padded 2 (byte_val b) ++ groups (S j) l
  end.

(** Line [k], of at most sixteen bytes; the characters are in one column. *)
Definition offset_text (indent : nat) (k : Z) : bytes := replicate indent x20 ++ padded 8 (16 * k) ++ text ":    ".
Definition gap (l : bytes) : nat := let rem := (16 - length l)%nat in (2 * rem + rem / 2 + 4)%nat.
Definition line (indent : nat) (k : Z) (l : bytes) : bytes :=
  offset_text indent k ++ groups 0 l ++ replicate (gap l) x20 ++ (shown <$> l).

Fixpoint lines (fuel : nat) (indent : nat) (k : Z) (data : bytes) : bytes :=
  match fuel with
  | O => []
  | S fuel =>
      line indent k (take 16 data) ++
      match drop 16 data with [] => [] | rest => x0a :: lines fuel indent (k + 1) rest end
  end.

(** Without data, the line has no offset, and the space that [pchars] started with. *)
Definition dump (indent : nat) (data : bytes) : bytes :=
  match data with [] => text "     " | _ => lines (length data) indent 0 data end ++ [x0a; x0a].

(** ** The loop prints the lines *)

Lemma land_15 k j : 0 <= j < 16 → Z.land (16 * k + j) 0xf = j.
Proof. intros Hj. change 0xf with (Z.ones 4). rewrite Z.land_ones by lia. change (2 ^ 4) with 16. Z.div_mod_to_equations. lia. Qed.

Lemma land_1 k j : (Z.land (16 * k + Z.of_nat j) 1 =? 0) = Nat.even j.
Proof.
  change 1 with (Z.ones 1). rewrite Z.land_ones by lia. change (2 ^ 1) with 2.
  replace (16 * k + Z.of_nat j) with (Z.of_nat j + (8 * k) * 2) by lia. rewrite Z.mod_add by lia.
  destruct (Nat.even j) eqn:E.
  - apply Nat.even_spec in E as [i ->]. apply Z.eqb_eq. Z.div_mod_to_equations. lia.
  - assert (Nat.odd j = true) as O by (by rewrite <- Nat.negb_even, E). apply Nat.odd_spec in O as [i ->].
    apply Z.eqb_neq. Z.div_mod_to_equations. lia.
Qed.

(** The rest of a line. *)
Lemma loop_line ind al l k : ∀ j c p, (0 < j)%nat → (j + length l <= 16)%nat → 16 * k + Z.of_nat j + len l <= 2147483647 →
  hexdump_loop ind l (at_end c true al x30, at_end p false false x20, 16 * k + Z.of_nat j)
  = Ok (at_end (c ++ groups j l) true al x30, at_end (p ++ (shown <$> l)) false false x20, 16 * k + Z.of_nat (j + length l)).
Proof.
  induction l as [|b l IH]; intros j c p Hj Hl Hm.
  - cbn [hexdump_loop groups]. rewrite !app_nil_r, Nat.add_0_r. done.
  - rewrite len_cons in Hm. pose proof (len_nonneg l). cbn [length] in Hl. cbn [hexdump_loop hexdump_byte].
    rewrite land_15, land_1 by lia. replace (Z.of_nat j =? 0) with false by lia.
    replace (16 * k + Z.of_nat j =? 2147483647) with false by lia. fold (shown b).
    assert (Nat.eqb j 0 = false) as E0 by (apply Nat.eqb_neq; lia).
    cbn [groups]. rewrite E0. cbn [negb]. rewrite andb_true_r.
    replace (16 * k + Z.of_nat j + 1) with (16 * k + Z.of_nat (S j)) by lia.
    destruct (Nat.even j); autorewrite with ostream; cbv beta iota; rewrite result_bind_ok; fold (padded 2 (byte_val b));
      rewrite IH by lia; rewrite fmap_cons, <- !app_assoc; cbn [length]; rewrite Nat.add_succ_comm; reflexivity.
Qed.

(** The start of the line after [prev], or of the first line. *)
Definition line_start (indent : nat) (k : Z) (prev : bytes) : bytes :=
  (if k =? 0 then [] else text "    " ++ prev ++ [x0a]) ++ offset_text indent k.

Lemma first_byte indent al k c p b : 0 <= k → 16 * k < 2147483647 →
  (k = 0 → p = of_string (text " ")) → (k ≠ 0 → hexadecimal p = false ∧ alpha p = false ∧ fill p = x20 ∧ width p = 0%nat) →
  hexdump_byte (replicate indent x20) (at_end c true al x30, p, 16 * k) b
  = Ok (at_end (c ++ line_start indent k (str p) ++ groups 0 [b]) true al x30,
        at_end [shown b] false false x20, 16 * k + 1).
Proof.
  intros Hk Hm H0 H1. unfold hexdump_byte. rewrite <- (Z.add_0_r (16 * k)) at 1. rewrite land_15 by lia.
  cbn [Z.eqb]. unfold new_line, line_start, offset_text. replace (16 * k =? 0) with (k =? 0) by lia.
  replace (16 * k =? 2147483647) with false by lia. cbn [groups Nat.even Nat.eqb andb negb]. rewrite app_nil_l, app_nil_r.
  assert ((if k =? 0 then p else set_str p (text " ")) = of_string (text " ")) as Ep.
  { destruct (Z.eqb_spec k 0); [by apply H0|]. destruct (H1 ltac:(done)) as (E1 & E2 & E3 & E4).
    unfold set_str, of_string. by rewrite E1, E2, E3, E4. }
  destruct (Z.eqb_spec k 0); cbn [negb]; cbv beta iota in *; rewrite Ep; fold (shown b); autorewrite with ostream;
    fold (padded 2 (byte_val b)); fold (padded 8 (16 * k)); rewrite <- ?app_assoc; reflexivity.
Qed.

(** A line, from its first byte. *)
Lemma loop_first_line indent al k c p b l : 0 <= k → (S (length l) <= 16)%nat → 16 * k + 1 + len l <= 2147483647 →
  (k = 0 → p = of_string (text " ")) → (k ≠ 0 → hexadecimal p = false ∧ alpha p = false ∧ fill p = x20 ∧ width p = 0%nat) →
  hexdump_loop (replicate indent x20) (b :: l) (at_end c true al x30, p, 16 * k)
  = Ok (at_end (c ++ line_start indent k (str p) ++ groups 0 (b :: l)) true al x30,
        at_end (shown <$> b :: l) false false x20, 16 * k + len (b :: l)).
Proof.
  intros Hk Hl Hm H0 H1. pose proof (len_nonneg l). cbn [hexdump_loop].
  rewrite first_byte, result_bind_ok by (done || lia). change (16 * k + 1) with (16 * k + Z.of_nat 1).
  rewrite loop_line by lia. rewrite <- !app_assoc. cbn [groups Nat.even Nat.eqb andb negb]. rewrite !app_nil_l, !app_nil_r.
  replace (16 * k + len (b :: l)) with (16 * k + Z.of_nat (1 + length l)) by (unfold len; simpl; lia). reflexivity.
Qed.

Lemma loop_app ind d1 d2 v : hexdump_loop ind (d1 ++ d2) v = (v ← hexdump_loop ind d1 v; hexdump_loop ind d2 v).
Proof.
  revert v. induction d1 as [|b d1 IH]; intros v; [done|]. cbn [hexdump_loop app].
  destruct (hexdump_byte ind v b) as [v'|]; [|done]. rewrite !result_bind_ok. apply IH.
Qed.

(** [print_rem] spaces bring the characters of the last line into their column. *)
Definition last_gap (printed : Z) : nat :=
  let print_rem := (16 - Z.land printed 0xf) mod 16 in Z.to_nat (2 * print_rem + print_rem / 2 + 4).

Lemma last_gap_line k l : (1 <= length l <= 16)%nat → last_gap (16 * k + len l) = gap l.
Proof.
  intros Hl. unfold last_gap, gap, len. destruct (decide (length l = 16%nat)) as [->|].
  - replace (16 * k + Z.of_nat 16) with (16 * (k + 1) + 0) by lia. by rewrite land_15 by lia.
  - rewrite land_15 by lia. generalize dependent (length l). intros n Hn Hne.
    do 17 (destruct n as [|n]; [first [lia | done]|]). lia.
Qed.

Definition fresh (k : Z) (p : t) : Prop :=
  (k = 0 → p = of_string (text " ")) ∧
  (k ≠ 0 → hexadecimal p = false ∧ alpha p = false ∧ fill p = x20 ∧ width p = 0%nat).

(** All the lines from line [k] on. *)
Lemma loop_lines indent al fuel : ∀ k c p data,
  data ≠ [] → (length data <= fuel)%nat → 0 <= k → 16 * k + len data <= 2147483647 → fresh k p →
  ∃ c' p', hexdump_loop (replicate indent x20) data (at_end c true al x30, p, 16 * k)
    = Ok (at_end c' true al x30, at_end p' false false x20, 16 * k + len data) ∧
    c' ++ replicate (last_gap (16 * k + len data)) x20 ++ p'
    = c ++ (if k =? 0 then [] else text "    " ++ str p ++ [x0a]) ++ lines fuel indent k data.
Proof.
  induction fuel as [|fuel IH]; intros k c p data Hd Hf Hk Hm [H0 H1]; [destruct data; simpl in Hf; [done | lia]|].
  destruct (take 16 data) as [|b l] eqn:Et; [by destruct data|].
  assert (length (b :: l) = Nat.min 16 (length data)) as Hl by (rewrite <- Et; apply length_take).
  assert (data = (b :: l) ++ drop 16 data) as Ed by (rewrite <- Et; symmetry; apply take_drop).
  assert (len data = len (b :: l) + len (drop 16 data)) as En by (rewrite Ed at 1; apply len_app).
  pose proof (len_nonneg (drop 16 data)) as Hr. pose proof (len_nonneg (b :: l)) as Hl'. rewrite len_cons in Hl', En.
  cbn [length] in Hl. pose proof (loop_app (replicate indent x20) (b :: l) (drop 16 data) (at_end c true al x30, p, 16 * k)) as E1.
  rewrite <- Ed, loop_first_line, result_bind_ok in E1 by (lia || done). rewrite E1. clear E1.
  cbn [lines]. rewrite Et. unfold line. destruct (drop 16 data) as [|b' rest] eqn:Er.
  - eexists _, _. split; [cbn [hexdump_loop]; rewrite En, len_cons, Z.add_0_r; reflexivity|].
    change (len (@nil byte)) with 0 in En. rewrite En, Z.add_0_r, <- (len_cons b l).
    rewrite last_gap_line by (cbn [length]; lia). unfold line_start. rewrite app_nil_r, <- !app_assoc. reflexivity.
  - assert (length data = 16 + S (length rest))%nat as Hlen.
    { rewrite Ed, length_app. cbn [length]. pose proof (length_drop data 16) as HL. rewrite Er in HL. cbn [length] in HL. lia. }
    assert (len (b :: l) = 16) as H16 by (unfold len; cbn [length]; lia).
    rewrite H16. replace (16 * k + 16) with (16 * (k + 1)) by lia. rewrite len_cons in H16.
    destruct (IH (k + 1) (c ++ line_start indent k (str p) ++ groups 0 (b :: l)) (at_end (shown <$> b :: l) false false x20)
      (b' :: rest)) as (c' & p' & E & Ec); [done | cbn [length] in *; lia | lia | lia | split; [lia | done] |].
    exists c', p'. replace (16 * k + len data) with (16 * (k + 1) + len (b' :: rest)) by lia. split; [exact E|].
    rewrite Ec. replace (k + 1 =? 0) with false by lia. unfold gap, line_start. cbn [length].
    replace (16 - S (length l))%nat with 0%nat by (unfold len in H16; lia). rewrite <- !app_assoc. reflexivity.
Qed.

(** What a call writes, and how it leaves the stream. *)
Lemma hexdump_writes data indent c hx al fl : len data <= 2147483647 →
  hexdump data indent (at_end c hx al fl) = Ok (at_end (c ++ dump indent data) hx al x30).
Proof.
  intros Hl. unfold hexdump, dump. rewrite set_hex, set_fill. destruct data as [|b data].
  - cbn [hexdump_loop]. rewrite result_bind_ok. cbv beta iota zeta. autorewrite with ostream.
    change (str (of_string (text " "))) with (text " "). rewrite <- !app_assoc. reflexivity.
  - destruct (loop_lines indent al (length (b :: data)) 0 c (of_string (text " ")) (b :: data)) as (c' & p' & E & Ec);
      [done | lia | lia | lia | done |]. change (16 * 0) with 0 in *. rewrite E, result_bind_ok. cbv beta iota zeta.
    autorewrite with ostream. change (str (at_end p' false false x20)) with p'.
    unfold last_gap in Ec. change (0 + len (b :: data)) with (len (b :: data)) in *.
    rewrite <- (app_assoc c'), Ec. change (0 =? 0) with true. cbv iota. rewrite <- !app_assoc. reflexivity.
Qed.

(** ** A dump determines the bytes *)

Lemma byte_padded b : ∃ x y, padded 2 (byte_val b) = [x; y] ∧ is_hex x = true ∧ hex_value 0 [x; y] = byte_val b.
Proof.
  destruct (padded_spec 2 (byte_val b)) as (Hl & Hf & Hv); [apply byte_val_range | lia |].
  destruct (padded 2 (byte_val b)) as [|x [|y [|z l]]]; try discriminate Hl.
  apply Forall_cons in Hf as [Hx _]. by exists x, y.
Qed.

(** The bytes of a line end where two spaces follow. *)
Lemma groups_inj l1 : ∀ j l2 r1 r2,
  groups j l1 ++ x20 :: x20 :: r1 = groups j l2 ++ x20 :: x20 :: r2 → l1 = l2 ∧ r1 = r2.
Proof.
  assert (∀ j b l r r', x20 :: x20 :: r ≠ groups j (b :: l) ++ r') as Hne.
  { intros j b l r r' E. destruct (byte_padded b) as (x & y & Ep & Hx & _). cbn [groups] in E. rewrite Ep in E.
    assert (x = x20) as ->; [|discriminate Hx]. destruct (_ && _); cbn in E; congruence. }
  induction l1 as [|b1 l1 IH]; intros j [|b2 l2] r1 r2 E.
  - cbn in E. simplify_eq. done.
  - by apply Hne in E.
  - symmetry in E. by apply Hne in E.
  - destruct (byte_padded b1) as (x & y & E1 & _ & V1), (byte_padded b2) as (x' & y' & E2 & _ & V2).
    cbn [groups] in E. rewrite E1, E2, <- !app_assoc in E. apply app_inv_head in E. cbn [app] in E.
    injection E as -> -> E. apply IH in E as [-> ->]. split; [|done]. f_equal. apply byte_val_inj. congruence.
Qed.

Lemma line_inj indent k l1 l2 r1 r2 : line indent k l1 ++ r1 = line indent k l2 ++ r2 → l1 = l2 ∧ r1 = r2.
Proof.
  unfold line. rewrite <- !app_assoc. intros E. apply app_inv_head in E.
  assert (∀ l, ∃ n, gap l = S (S n)) as Hg by (intros l; unfold gap; exists (2 * (16 - length l) + (16 - length l) / 2 + 2)%nat; lia).
  destruct (Hg l1) as [n1 G1], (Hg l2) as [n2 G2]. rewrite G1, G2 in E. apply groups_inj in E as [-> E]. split; [done|].
  assert (n1 = n2) as -> by lia. apply app_inv_head in E. by apply app_inv_head in E.
Qed.

Lemma lines_long fuel indent k d : (0 < fuel)%nat → 0 <= k < 134217728 → (8 <= length (lines fuel indent k d))%nat.
Proof.
  intros Hf Hk. destruct fuel as [|fuel]; [lia|]. cbn [lines]. unfold line, offset_text. rewrite !length_app.
  destruct (padded_spec 8 (16 * k)) as [-> _]; [lia | lia | lia].
Qed.

Lemma lines_inj indent f1 : ∀ f2 k d1 d2, (length d1 <= f1)%nat → (length d2 <= f2)%nat → d1 ≠ [] → d2 ≠ [] → 0 <= k →
  16 * k + len d1 <= 2147483647 → 16 * k + len d2 <= 2147483647 →
  lines f1 indent k d1 ++ [x0a; x0a] = lines f2 indent k d2 ++ [x0a; x0a] → d1 = d2.
Proof.
  induction f1 as [|f1 IH]; intros [|f2] k d1 d2 H1 H2 N1 N2 Hk M1 M2 E;
    [destruct d1; simpl in H1; [done | lia].. | destruct d2; simpl in H2; [done | lia] |].
  cbn [lines] in E. rewrite <- !app_assoc in E. apply line_inj in E as [Et E].
  pose proof (length_drop d1 16) as L1. pose proof (length_drop d2 16) as L2. unfold len in *.
  rewrite <- (take_drop 16 d1), <- (take_drop 16 d2), Et. f_equal. clear Et.
  destruct (drop 16 d1) as [|b1 r1], (drop 16 d2) as [|b2 r2].
  - done.
  - exfalso. apply (f_equal length) in E. cbn [app length] in E, L2. rewrite length_app in E.
    pose proof (lines_long f2 indent (k + 1) (b2 :: r2) ltac:(lia) ltac:(lia)). cbn [length] in E. lia.
  - exfalso. apply (f_equal length) in E. cbn [app length] in E, L1. rewrite length_app in E.
    pose proof (lines_long f1 indent (k + 1) (b1 :: r1) ltac:(lia) ltac:(lia)). cbn [length] in E. lia.
  - cbn [app] in E. injection E as E. eapply (IH f2 (k + 1)); unfold len; try done; cbn [length] in *; lia.
Qed.

Lemma dump_inj indent d1 d2 : len d1 <= 2147483647 → len d2 <= 2147483647 → dump indent d1 = dump indent d2 → d1 = d2.
Proof.
  intros H1 H2 E. unfold dump in E. destruct d1 as [|b1 d1], d2 as [|b2 d2].
  - done.
  - apply (f_equal length) in E. rewrite !length_app in E.
    pose proof (lines_long (length (b2 :: d2)) indent 0 (b2 :: d2) ltac:(cbn; lia) ltac:(lia)). simpl length in E at 1. lia.
  - apply (f_equal length) in E. rewrite !length_app in E.
    pose proof (lines_long (length (b1 :: d1)) indent 0 (b1 :: d1) ltac:(cbn; lia) ltac:(lia)).
    change (length (text "     ")) with 5%nat in E. lia.
  - by eapply lines_inj in E.
Qed.

(** A dump shows the bytes.  On a stream that stands at its end, whatever its format, a call
    returns, appends the lines of [dump], and leaves the flags as they were; the fill character is
    zero afterwards, which is not one of the flags.  Two calls with different bytes, with the same indent,
    write different texts. *)
Theorem hexdump_shows (data1 data2 : bytes) (indent : nat) (c : bytes) (hx al : bool) (fl : byte) :
  len data1 <= 2147483647 → len data2 <= 2147483647 →
  hexdump data1 indent (at_end c hx al fl) = Ok (at_end (c ++ dump indent data1) hx al x30) ∧
  (hexdump data1 indent (at_end c hx al fl) = hexdump data2 indent (at_end c hx al fl) → data1 = data2).
Proof.
  intros H1 H2. rewrite !hexdump_writes by done. split; [done|]. intros E.
  apply (dump_inj indent); [done..|]. apply (app_inv_head c). by injection E.
Qed.

Lemma hexdump_shows_witness :
  hexdump (text "sponge") 2 new = Ok (at_end (dump 2 (text "sponge")) false false x30) ∧
  dump 2 (text "sponge") = text "  00000000:    7370 6f6e 6765                             sponge" ++ [x0a; x0a].
Proof.
  split; [|reflexivity].
  apply (hexdump_shows (text "sponge") (text "sponge") 2 [] false false x20); unfold len; simpl; lia.
Defined.

End Hexdump.
