(* ===== verification/system.v ===== *)
(** * The operating system (src/lab/libsponge/util/util.hh, .cc)

    The program talks to the kernel through system calls, checked by
    [SystemCall].  The kernel is a parameter: [Kernel K] lists the calls the
    sources make as functions on an abstract kernel state [K].  [StreamLedger]
    states what their manual pages promise about the bytes of a descriptor, and
    [Machine] is a small kernel that keeps these promises. *)

From S2P Require Import Prelude.

(** The value a call returns and the value of [errno] after it. *)
Record sysret := SysRet { value : Z; errno : Z }.

(** [SystemCall]: the value is an [int]. *)
Definition SystemCall (r : sysret) (errno_mask : Z) : result Z :=
  let return_value := int32 (value r) in
  if (0 <=? return_value) || (errno r =? errno_mask) then Ok return_value
  else Throw (unix_error (errno r)).

(** [struct pollfd] before the call. *)
Record pollfd := PollFd { pfd_fd : Z; events : Z }.

Definition EINTR : Z := 4.
Definition POLLIN : Z := 1.
Definition POLLOUT : Z := 4.
Definition POLLERR : Z := 8.
Definition POLLHUP : Z := 16.
Definition POLLNVAL : Z := 32.
Definition SHUT_RD : Z := 0.
Definition SHUT_WR : Z := 1.
Definition SHUT_RDWR : Z := 2.
Definition F_GETFL : Z := 3.
Definition F_SETFL : Z := 4.
Definition O_NONBLOCK : Z := 2048.

(** The calls.  [sys_read] and [sys_recvfrom] return the bytes stored in the
    buffer, [sys_poll] the [revents] of each entry, [sys_getsockopt] the value
    and length of the option, [sys_recvfrom], [sys_getsockname] and
    [sys_getpeername] the socket address and its length, [sys_socketpair] the
    two descriptors; [steady_clock] is the number of milliseconds since the
    program started. *)
Class Kernel (K : Type) := {
  sys_read : K → Z → Z → K * sysret * bytes;
  sys_writev : K → Z → list bytes → K * sysret;
  sys_close : K → Z → K * sysret;
  sys_fcntl : K → Z → Z → Z → K * sysret;
  sys_poll : K → list pollfd → Z → K * sysret * list Z;
  sys_shutdown : K → Z → Z → K * sysret;
  sys_socket : K → Z → Z → Z → K * sysret;
  sys_socketpair : K → Z → Z → Z → K * sysret * (Z * Z);
  sys_getsockopt : K → Z → Z → Z → K * sysret * (Z * Z);
  sys_setsockopt : K → Z → Z → Z → Z → K * sysret;
  sys_getsockname : K → Z → K * sysret * (bytes * Z);
  sys_getpeername : K → Z → K * sysret * (bytes * Z);
  sys_bind : K → Z → bytes → Z → K * sysret;
  sys_connect : K → Z → bytes → Z → K * sysret;
  sys_listen : K → Z → Z → K * sysret;
  sys_accept : K → Z → K * sysret;
  sys_recvfrom : K → Z → Z → Z → K * sysret * bytes * (bytes * Z);
  sys_sendmsg : K → Z → option (bytes * Z) → list bytes → K * sysret;
  sys_open_tun : K → K * sysret;
  sys_tunsetiff : K → Z → Z → bytes → K * sysret;
  steady_clock : K → K * Z }.

(** [timestamp_ms]: a [uint64_t]. *)
Definition timestamp_ms {K} `{Kernel K} (k : K) : K * Z :=
  let '(k, t) := steady_clock k in (k, uint64 t).

(** A call that fails returns [-1] and sets [errno]. *)
Definition failed (r : sysret) : Prop := value r = -1 ∧ 0 < errno r.

Lemma SystemCall_ok r mask : 0 <= value r < 2147483648 → SystemCall r mask = Ok (value r).
Proof.
  intros. unfold SystemCall, int32. rewrite uint32_id by lia.
  replace (value r <? 2147483648) with true by (case_test; lia).
  replace (0 <=? value r) with true by (case_test; lia). done.
Qed.

Lemma SystemCall_failed r : failed r → SystemCall r 0 = Throw (unix_error (errno r)).
Proof.
  intros [Hv He]. unfold SystemCall. rewrite Hv. change (int32 (-1)) with (-1). simpl.
  case_test; [lia | done].
Qed.

(** ** What the kernel promises about streams of bytes

    [received k fd] and [sent k fd] are the bytes that [read] has returned from
    the descriptor [fd], and [writev] has accepted for it, up to the state [k]. *)

Definition upd {A} (f : Z → A) (i : Z) (a : A) (j : Z) : A := if j =? i then a else f j.

Lemma upd_eq {A} (f : Z → A) i a : upd f i a i = a.
Proof. unfold upd. by rewrite Z.eqb_refl. Qed.
Lemma upd_ne {A} (f : Z → A) i j a : j ≠ i → upd f i a j = f j.
Proof. unfold upd. case_test; [lia | done]. Qed.

(** A transfer of the data [d] by a call with the value [r]. *)
Definition transfers (r : sysret) (limit : Z) (d : bytes) : Prop :=
  value r = len d ∧ len d <= limit ∨ failed r ∧ d = [].

(** The most a single call transfers on Linux. *)
Definition MAX_RW_COUNT : Z := 0x7ffff000.

Definition same {A} (f g : Z → A) : Prop := ∀ i, f i = g i.

Class StreamLedger (K : Type) `{Kernel K} := {
  received : K → Z → bytes;
  sent : K → Z → bytes;
  read_law k fd n k' r d : 0 <= n → sys_read k fd n = (k', r, d) →
    transfers r n d ∧ same (received k') (upd (received k) fd (received k fd ++ d)) ∧ same (sent k') (sent k);
  writev_law k fd iov k' r : sys_writev k fd iov = (k', r) →
    same (received k') (received k) ∧
    (failed r ∧ same (sent k') (sent k) ∨
     0 <= value r <= Z.min MAX_RW_COUNT (len (concat iov)) ∧
     same (sent k') (upd (sent k) fd (sent k fd ++ ztake (value r) (concat iov))));
  poll_law k fds timeout k' r revents : sys_poll k fds timeout = (k', r, revents) →
    same (received k') (received k) ∧ same (sent k') (sent k) ∧ length revents = length fds;
  close_law k fd k' r : sys_close k fd = (k', r) → same (received k') (received k) ∧ same (sent k') (sent k);
  fcntl_law k fd c a k' r : sys_fcntl k fd c a = (k', r) → same (received k') (received k) ∧ same (sent k') (sent k);
  shutdown_law k fd how k' r : sys_shutdown k fd how = (k', r) →
    same (received k') (received k) ∧ same (sent k') (sent k) }.

(** [succeeds r]: the call did not fail. *)
Definition succeeds (r : sysret) : Prop := 0 <= value r < 2147483648.

(** A kernel in which no call on a descriptor fails and a write makes progress. *)
Class HealthyKernel (K : Type) `{Kernel K} : Prop := {
  read_healthy k fd n k' r d : sys_read k fd n = (k', r, d) → succeeds r;
  writev_healthy k fd iov k' r : sys_writev k fd iov = (k', r) → succeeds r ∧ (concat iov ≠ [] → 0 < value r);
  poll_healthy k fds timeout k' r revents : sys_poll k fds timeout = (k', r, revents) →
    succeeds r ∧ Forall (λ e, Z.land e (Z.lor POLLERR POLLNVAL) = 0) revents;
  close_healthy k fd k' r : sys_close k fd = (k', r) → succeeds r;
  fcntl_healthy k fd c a k' r : sys_fcntl k fd c a = (k', r) → succeeds r;
  shutdown_healthy k fd how k' r : sys_shutdown k fd how = (k', r) → succeeds r }.

Lemma upd_same {A} (f g : Z → A) i a : same f g → same (upd f i a) (upd g i a).
Proof. intros E j. unfold upd. by rewrite E. Qed.

(** ** A concrete kernel

    Every descriptor is always ready; reads drain [inbox], a write accepts at
    most [chunk] bytes (at least one), the clock advances by ten milliseconds per reading. *)

Module Machine.

Record t := mk { inbox : Z → bytes; got : Z → bytes; put : Z → bytes; chunk : Z; clock : Z }.

Definition accept_len (m : t) (iov : list bytes) : Z := Z.min (Z.max 1 (chunk m)) (len (concat iov)).

#[global] Instance machine_kernel : Kernel t := {
  sys_read m fd n :=
    let d := ztake (Z.min n (Z.min 2147483647 (len (inbox m fd)))) (inbox m fd) in
    (mk (upd (inbox m) fd (zdrop (len d) (inbox m fd))) (upd (got m) fd (got m fd ++ d)) (put m) (chunk m) (clock m),
     SysRet (len d) 0, d);
  sys_writev m fd iov :=
    let n := Z.min (accept_len m iov) MAX_RW_COUNT in
    (mk (inbox m) (got m) (upd (put m) fd (put m fd ++ ztake n (concat iov))) (chunk m) (clock m), SysRet n 0);
  sys_close m fd := (m, SysRet 0 0);
  sys_fcntl m fd c a := (m, SysRet 0 0);
  sys_poll m fds timeout := (m, SysRet 1 0, (λ f, Z.land (events f) 5) <$> fds);
  sys_shutdown m fd how := (m, SysRet 0 0);
  sys_socket m d ty p := (m, SysRet 3 0);
  sys_socketpair m d ty p := (m, SysRet 0 0, (4, 5));
  sys_getsockopt m fd l o := (m, SysRet 0 0, (1, 4));
  sys_setsockopt m fd l o v := (m, SysRet 0 0);
  sys_getsockname m fd := (m, SysRet 0 0, (replicate 16 x00, 16));
  sys_getpeername m fd := (m, SysRet 0 0, (replicate 16 x00, 16));
  sys_bind m fd a n := (m, SysRet 0 0);
  sys_connect m fd a n := (m, SysRet 0 0);
  sys_listen m fd n := (m, SysRet 0 0);
  sys_accept m fd := (m, SysRet 6 0);
  sys_recvfrom m fd n fl :=
    let d := ztake n (inbox m fd) in
    (mk (upd (inbox m) fd []) (upd (got m) fd (got m fd ++ d)) (put m) (chunk m) (clock m),
     SysRet (len d) 0, d, (replicate 16 x00, 16));
  sys_sendmsg m fd a iov :=
    (mk (inbox m) (got m) (upd (put m) fd (put m fd ++ concat iov)) (chunk m) (clock m), SysRet (len (concat iov)) 0);
  sys_open_tun m := (m, SysRet 7 0);
  sys_tunsetiff m fd fl name := (m, SysRet 0 0);
  steady_clock m := (mk (inbox m) (got m) (put m) (chunk m) (clock m + 10), clock m) }.

Definition new (input : Z → bytes) (chunk : Z) : t := mk input (λ _, []) (λ _, []) chunk 0.

#[global] Instance machine_ledger : StreamLedger t.
Proof.
  refine {| received := got; sent := put |}.
  - intros k fd n k' r d Hn [= <- <- <-]. split; [|done]. left. simpl. split; [done|].
    unfold ztake, len. rewrite length_take. lia.
  - intros k fd iov k' r [= <- <-]. split; [done|]. right. simpl.
    split; [|done]. unfold accept_len, MAX_RW_COUNT. pose proof (len_nonneg (concat iov)). lia.
  - intros k fds timeout k' r revents [= <- <- <-]. split; [done|]. split; [done|]. by rewrite length_fmap.
  - by intros k fd k' r [= <- <-].
  - by intros k fd c a k' r [= <- <-].
  - by intros k fd how k' r [= <- <-].
Defined.

#[global] Instance machine_healthy : HealthyKernel t.
Proof.
  constructor; unfold succeeds.
  - intros k fd n k' r d [= <- <- <-]. simpl. unfold ztake, len. rewrite length_take. lia.
  - intros k fd iov k' r [= <- <-]. simpl. unfold accept_len, MAX_RW_COUNT.
    pose proof (len_nonneg (concat iov)). split; [lia|].
    intros Hne. destruct (concat iov); [done|]. pose proof (len_nonneg l). unfold len in *; simpl in *. lia.
  - intros k fds timeout k' r revents [= <- <- <-]. split; [simpl; lia|]. apply Forall_fmap, Forall_true.
    intros f. simpl. by rewrite <- Z.land_assoc, Z.land_0_r.
  - intros k fd k' r [= <- <-]. simpl. lia.
  - intros k fd c a k' r [= <- <-]. simpl. lia.
  - intros k fd how k' r [= <- <-]. simpl. lia.
Qed.

End Machine.
