(* ===== verification/file_descriptor.v ===== *)
(** * File descriptors (src/lab/libsponge/util/file_descriptor.hh, .cc)

    A [FileDescriptor] is a shared handle: its copies (made by [duplicate])
    refer to one [FDWrapper].  The model is the wrapper; a component that holds
    several handles of one descriptor keeps one wrapper in its state.  The
    theorems: [write] with [write_all] hands the kernel exactly the buffer and
    terminates; a read returns what the kernel gave and sets the EOF flag
    exactly on an empty answer; [set_blocking] changes one flag. *)

From S2P Require Import Prelude buffer system.

Module FileDescriptor.

Record t := mk { _fd : Z; _eof : bool; _closed : bool; _read_count : Z; _write_count : Z }.

Definition new (fd : Z) : result t :=
  if fd <? 0 then Throw runtime_error else Ok (mk fd false false 0 0).

Definition duplicate (f : t) : t := f.
Definition fd_num (f : t) : Z := _fd f.
Definition eof (f : t) : bool := _eof f.
Definition closed (f : t) : bool := _closed f.
Definition read_count (f : t) : Z := _read_count f.
Definition write_count (f : t) : Z := _write_count f.

Definition register_read (f : t) : t :=
  mk (_fd f) (_eof f) (_closed f) (uint32 (_read_count f + 1)) (_write_count f).
Definition register_write (f : t) : t :=
  mk (_fd f) (_eof f) (_closed f) (_read_count f) (uint32 (_write_count f + 1)).
Definition set_eof (f : t) : t := mk (_fd f) true (_closed f) (_read_count f) (_write_count f).

Definition BUFFER_SIZE : Z := 1048576.

Section Operations.
Context {K : Type} `{Kernel K}.

Definition close (f : t) (k : K) : result (t * K) :=
  let '(k, r) := sys_close k (_fd f) in
  _ ← SystemCall r 0;
  Ok (mk (_fd f) true true (_read_count f) (_write_count f), k).

(** The destructor of [FDWrapper]: what [close] throws is swallowed. *)
Definition destroy (f : t) (k : K) : K :=
  if _closed f then k
  else match close f k with Ok (_, k) => k | Throw _ => (sys_close k (_fd f)).1 end.

(** [read(str, limit)]: the call overwrites the first bytes of [str]. *)
Definition read_into (f : t) (str : bytes) (limit : Z) (k : K) : result (t * K * bytes) :=
  let size_to_read := Z.min BUFFER_SIZE limit in
  let str := resize str size_to_read in
  let '(k, r, d) := sys_read k (fd_num f) size_to_read in
  let str := d ++ zdrop (len d) str in
  bytes_read ← SystemCall r 0;
  let f := if (0 <? limit) && (bytes_read =? 0) then set_eof f else f in
  if size_to_read <? bytes_read then Throw runtime_error
  else if bytes_read <? 0 then Throw length_error
  else Ok (register_read f, k, resize str bytes_read).

Definition read (f : t) (limit : Z) (k : K) : result (t * K * bytes) := read_into f [] limit k.

(** The [do ... while] loop of [write].  Every round but the last removes a byte
    from [buffer], so as many rounds as there are bytes, and one, are enough
    ([fd_write_loop_spec]). *)
Fixpoint write_loop (fuel : nat) (f : t) (buffer : BufferViewList.t) (write_all : bool) (total : Z) (k : K)
  : result (t * K * Z) :=
  match fuel with
  | O => Throw OutOfFuel
  | S fuel =>
      let '(k, r) := sys_writev k (fd_num f) (BufferViewList.as_iovecs buffer) in
      bytes_written ← SystemCall r 0;
      if (bytes_written =? 0) && negb (BufferViewList.size buffer =? 0) then Throw runtime_error
      else if BufferViewList.size buffer <? bytes_written then Throw runtime_error
      else
        let f := register_write f in
        buffer ← BufferViewList.remove_prefix buffer (uint64 bytes_written);
        let total := uint64 (total + bytes_written) in
        if write_all && negb (BufferViewList.size buffer =? 0) then write_loop fuel f buffer write_all total k
        else Ok (f, k, total)
  end.

Definition write (f : t) (buffer : BufferViewList.t) (write_all : bool) (k : K) : result (t * K * Z) :=
  write_loop (S (Z.to_nat (BufferViewList.size buffer))) f buffer write_all 0 k.

(** [write(const std::string &, write_all)]. *)
Definition write_string (f : t) (str : bytes) (write_all : bool) (k : K) : result (t * K * Z) :=
  write f (BufferViewList.of_view str) write_all k.

(** The flags [set_blocking] computes. *)
Definition blocking_flags (flags : Z) (blocking_state : bool) : Z :=
  if blocking_state then Z.lxor flags (Z.land flags O_NONBLOCK) else Z.lor flags O_NONBLOCK.

Definition set_blocking (f : t) (blocking_state : bool) (k : K) : result K :=
  let '(k, r) := sys_fcntl k (fd_num f) F_GETFL 0 in
  flags ← SystemCall r 0;
  let '(k, r) := sys_fcntl k (fd_num f) F_SETFL (blocking_flags flags blocking_state) in
  _ ← SystemCall r 0;
  Ok k.

End Operations.

(** Only the [O_NONBLOCK] bit changes. *)
Lemma blocking_flags_bits flags b i : 0 <= i →
  Z.testbit (blocking_flags flags b) i = if i =? 11 then negb b else Z.testbit flags i.
Proof.
  intros. assert (Z.testbit O_NONBLOCK i = (i =? 11)) as E.
  { change O_NONBLOCK with (2 ^ 11). rewrite Z.pow2_bits_eqb by lia. apply Z.eqb_sym. }
  unfold blocking_flags. destruct b.
  - rewrite Z.lxor_spec, Z.land_spec, E. destruct (Z.testbit flags i), (i =? 11); done.
  - rewrite Z.lor_spec, E. destruct (Z.testbit flags i), (i =? 11); done.
Qed.

(** ** What the operations do to the streams of the kernel *)

Section Streams.
Context {K : Type} `{StreamLedger K}.

Lemma resize_prefix (s s' : bytes) : resize (s ++ s') (len s) = s.
Proof.
  unfold resize. rewrite ztake_app, len_app. pose proof (len_nonneg s').
  replace (Z.to_nat (len s - (len s + len s'))) with O by lia. apply app_nil_r.
Qed.

(** The destructor transfers nothing. *)
Lemma destroy_ledger f k : same (received (destroy f k)) (received k) ∧ same (sent (destroy f k)) (sent k).
Proof.
  unfold destroy, close. destruct (_closed f); [done|]. destruct (sys_close k _) as [k1 r] eqn:E.
  apply close_law in E. destruct (SystemCall r 0); [exact E|]. exact E.
Qed.

(** The state of the handle after a read of [d]. *)
Definition after_read (f : t) (limit : Z) (d : bytes) : t :=
  register_read (if (0 <? limit) && (len d =? 0) then set_eof f else f).

Lemma read_spec f limit k f' k' d : 0 <= limit → read f limit k = Ok (f', k', d) →
  f' = after_read f limit d ∧ len d <= Z.min BUFFER_SIZE limit ∧
  same (received k') (upd (received k) (_fd f) (received k (_fd f) ++ d)) ∧ same (sent k') (sent k).
Proof.
  intros Hl. unfold read, read_into. destruct (sys_read k (fd_num f) _) as [[k1 r] e] eqn:E.
  apply read_law in E as (Ht & Hr & Hs); [|unfold BUFFER_SIZE; lia].
  destruct Ht as [[Hv Hle]|[Hf _]].
  2:{ by rewrite SystemCall_failed. }
  assert (len e <= BUFFER_SIZE) by (pose proof (Z.le_min_l BUFFER_SIZE limit); lia). unfold BUFFER_SIZE in *.
  pose proof (len_nonneg e). rewrite SystemCall_ok, Hv, result_bind_ok by lia.
  destruct (Z.ltb_spec (Z.min 1048576 limit) (len e)); [lia|].
  destruct (Z.ltb_spec (len e) 0); [lia|]. rewrite resize_prefix.
  intros [= <- <- <-]. done.
Qed.

Lemma read_total `{!HealthyKernel K} f limit k : 0 <= limit → ∃ f' k' d, read f limit k = Ok (f', k', d).
Proof.
  intros Hl. unfold read, read_into. destruct (sys_read k (fd_num f) _) as [[k1 r] e] eqn:E.
  pose proof E as Hk%read_healthy. apply read_law in E as (Ht & _); [|unfold BUFFER_SIZE; lia].
  destruct Ht as [[Hv Hle]|[[Hf _] _]]; unfold succeeds in *; [|lia].
  rewrite SystemCall_ok, Hv, result_bind_ok by lia. pose proof (len_nonneg e).
  destruct (Z.ltb_spec (Z.min BUFFER_SIZE limit) (len e)); [lia|].
  destruct (Z.ltb_spec (len e) 0); [lia|]. eauto.
Qed.

(** [n] registered writes. *)
Fixpoint writes (n : nat) (f : t) : t := match n with O => f | S n => writes n (register_write f) end.

(** [written f k f' k' d]: the kernel took [d] in one or more writes. *)
Definition written (f : t) (k : K) (f' : t) (k' : K) (d : bytes) : Prop :=
  (∃ n, f' = writes (S n) f) ∧ same (received k') (received k) ∧
  same (sent k') (upd (sent k) (_fd f) (sent k (_fd f) ++ d)).

(** One round: the call fails, or the kernel took a prefix of the buffer. *)
Lemma write_round f buffer k k' r : len (concat buffer) < max_string →
  sys_writev k (fd_num f) (BufferViewList.as_iovecs buffer) = (k', r) →
  (∃ e, SystemCall r 0 = Throw (unix_error e)) ∨
  SystemCall r 0 = Ok (value r) ∧ 0 <= value r <= len (concat buffer) ∧
  (∃ buffer', BufferViewList.remove_prefix buffer (uint64 (value r)) = Ok buffer' ∧
    concat buffer' = zdrop (value r) (concat buffer)) ∧
  written f k (register_write f) k' (ztake (value r) (concat buffer)).
Proof.
  intros Hl E. apply writev_law in E as (Hrec & [[Hf _]|(Hb & Hs)]).
  { left. exists (errno r). by apply SystemCall_failed. }
  right. unfold BufferViewList.as_iovecs, MAX_RW_COUNT in *.
  rewrite SystemCall_ok by lia. split; [done|]. split; [lia|]. rewrite uint64_id by lia.
  split; [apply BufferViewList.view_remove_prefix; lia|].
  split; [by exists O|]. by split.
Qed.

Lemma writes_fd n : ∀ f, _fd (writes n f) = _fd f.
Proof. induction n as [|n IH]; intros f; simpl; [done|]. by rewrite IH. Qed.

Lemma writes_writes n m : ∀ f, writes m (writes n f) = writes (n + m) f.
Proof. induction n as [|n IH]; intros f; [done|]. apply (IH (register_write f)). Qed.

Lemma written_trans f k f1 k1 d1 f2 k2 d2 :
  written f k f1 k1 d1 → written f1 k1 f2 k2 d2 → written f k f2 k2 (d1 ++ d2).
Proof.
  intros ((n & ->) & Hr1 & Hs1) ((m & ->) & Hr2 & Hs2). rewrite writes_fd in Hs2. split; [|split].
  - exists (n + S m)%nat. by rewrite writes_writes.
  - intros i. by rewrite Hr2, Hr1.
  - intros i. rewrite Hs2. unfold upd. rewrite !Hs1. unfold upd. rewrite Z.eqb_refl.
    case_test; [by rewrite app_assoc | done].
Qed.

(** The outcome of [write]. *)
Definition write_outcome (f : t) (buffer : BufferViewList.t) (write_all : bool) (total : Z) (k : K)
  (out : result (t * K * Z)) : Prop :=
  (∃ e, out = Throw (unix_error e)) ∨ out = Throw runtime_error ∨
  ∃ f' k' n, out = Ok (f', k', total + n) ∧ 0 <= n <= len (concat buffer) ∧
    (write_all = true → n = len (concat buffer)) ∧ (concat buffer ≠ [] → 0 < n) ∧
    (write_all = false → f' = register_write f) ∧ written f k f' k' (ztake n (concat buffer)).

Lemma fd_write_loop_spec fuel : ∀ f buffer write_all total k,
  len (concat buffer) < Z.of_nat fuel → 0 <= total → total + len (concat buffer) < max_string →
  write_outcome f buffer write_all total k (write_loop fuel f buffer write_all total k).
Proof.
  induction fuel as [|fuel IH]; intros f buffer all total k Hf Ht Hl; [pose proof (len_nonneg (concat buffer)); lia|].
  cbn [write_loop]. destruct (sys_writev _ _ _) as [k1 r] eqn:E.
  apply write_round in E as [(e & ->)|(-> & Hv & (b' & Eb & Hb') & Hw)]; [by left; exists e| |lia].
  rewrite result_bind_ok, Eb, result_bind_ok.
  rewrite BufferViewList.view_size by lia.
  destruct (Z.ltb_spec (len (concat buffer)) (value r)); [lia|].
  assert (len (concat b') = len (concat buffer) - value r) as Hlen by (rewrite Hb', len_zdrop; lia).
  rewrite BufferViewList.view_size by lia. rewrite uint64_id by lia.
  destruct (Z.eqb_spec (value r) 0) as [E0|E0], (Z.eqb_spec (len (concat buffer)) 0) as [L0|L0]; cbn [negb andb].
  2: by right; left.
  all: destruct (all && negb (len (concat b') =? 0)) eqn:Ea.
  all: try (apply andb_true_iff in Ea as [-> Ea%negb_true_iff%Z.eqb_neq]).
  all: try lia.
  - right; right. do 3 eexists. split; [done|]. split; [lia|]. split; [lia|]. split; [by apply len_0_nil in L0|]. done.
  - specialize (IH (register_write f) b' true (total + value r) k1 ltac:(lia) ltac:(lia) ltac:(lia)).
    destruct IH as [(e & ->)|[->|(f' & k' & n & -> & Hn & Ha & Hp & _ & Hw')]]; [by left; exists e | by right; left|].
    right; right. exists f', k', (value r + n). split; [by rewrite Z.add_assoc|]. split; [lia|].
    specialize (Ha eq_refl). split; [lia|]. split; [lia|]. split; [done|].
    pose proof (written_trans _ _ _ _ _ _ _ _ Hw Hw') as Hww. rewrite Hb' in Hww.
    rewrite (ztake_ge n), ztake_zdrop in Hww by (rewrite len_zdrop; lia).
    by rewrite ztake_ge by lia.
  - right; right. do 3 eexists. split; [done|]. split; [lia|].
    split; [|split; [lia|]; done]. intros ->. apply negb_false_iff, Z.eqb_eq in Ea. lia.
Qed.

Lemma write_spec f buffer write_all k : len (concat buffer) < max_string →
  write_outcome f buffer write_all 0 k (write f buffer write_all k).
Proof.
  intros Hl. unfold write. pose proof (len_nonneg (concat buffer)).
  apply fd_write_loop_spec; [rewrite BufferViewList.view_size by lia | ..]; lia.
Qed.

Lemma write_loop_total `{!HealthyKernel K} fuel : ∀ f buffer write_all total k,
  len (concat buffer) < Z.of_nat fuel → 0 <= total → total + len (concat buffer) < max_string →
  is_ok (write_loop fuel f buffer write_all total k) = true.
Proof.
  induction fuel as [|fuel IH]; intros f buffer all total k Hf Ht Hl; [pose proof (len_nonneg (concat buffer)); lia|].
  cbn [write_loop]. destruct (sys_writev _ _ _) as [k1 r] eqn:E. pose proof E as [Hok Hp]%writev_healthy.
  apply write_round in E as [(e & He)|(-> & Hv & (b' & Eb & Hb') & Hw)]; [| |lia].
  { by rewrite SystemCall_ok in He by apply Hok. }
  rewrite result_bind_ok, Eb, result_bind_ok, BufferViewList.view_size by lia.
  destruct (Z.ltb_spec (len (concat buffer)) (value r)); [lia|].
  assert (len (concat b') = len (concat buffer) - value r) as Hlen by (rewrite Hb', len_zdrop; lia).
  rewrite BufferViewList.view_size by lia. rewrite uint64_id by lia.
  destruct (Z.eqb_spec (len (concat buffer)) 0) as [L0|L0].
  - rewrite andb_false_r. replace (len (concat b') =? 0) with true by (case_test; lia). by rewrite andb_false_r.
  - assert (0 < value r) by (apply Hp; unfold BufferViewList.as_iovecs; intros E; by rewrite E in L0).
    destruct (Z.eqb_spec (value r) 0); [lia|]. cbn [andb].
    destruct (all && _) eqn:Ea; [|done]. apply IH; lia.
Qed.

Lemma write_total `{!HealthyKernel K} f buffer write_all k : len (concat buffer) < max_string →
  is_ok (write f buffer write_all k) = true.
Proof.
  intros Hl. unfold write. pose proof (len_nonneg (concat buffer)).
  apply write_loop_total; [rewrite BufferViewList.view_size by lia | ..]; lia.
Qed.

(** A write of everything, with the state of the wrapper. *)
Lemma write_all_spec `{!HealthyKernel K} f buffer k : len (concat buffer) < max_string →
  ∃ f' k', write f buffer true k = Ok (f', k', len (concat buffer)) ∧ written f k f' k' (concat buffer).
Proof.
  intros Hl. pose proof (write_total f buffer true k Hl) as Hok. pose proof (write_spec f buffer true k Hl) as Hw.
  destruct Hw as [(e & E)|[E|(f' & k' & n & E & Hn & Ha & _ & _ & Hw)]]; rewrite E in *; [done..|].
  exists f', k'. rewrite Ha in * by done. rewrite Z.add_0_l. split; [done|]. by rewrite ztake_ge in Hw by lia.
Qed.

(** A write of everything writes everything, once and in order.  On a kernel
    whose calls do not fail but may take any part of what they are offered, [write]
    with [write_all] returns after finitely many rounds, reports the size of
    the buffer, and the bytes accepted for the descriptor grew by exactly the
    bytes of the buffer; nothing changes for other descriptors. *)
Theorem write_all_complete `{!HealthyKernel K} f buffer k : len (concat buffer) < max_string →
  ∃ f' k', write f buffer true k = Ok (f', k', len (concat buffer)) ∧
    same (received k') (received k) ∧
    same (sent k') (upd (sent k) (_fd f) (sent k (_fd f) ++ concat buffer)).
Proof.
  intros Hl. destruct (write_all_spec f buffer k Hl) as (f' & k' & E & _ & Hr & Hs). by exists f', k'.
Qed.

End Streams.

(** A machine that takes two bytes per call. *)
Lemma write_all_complete_witness :
  let k := Machine.new (λ _, []) 2 in
  let f := mk 1 false false 0 0 in
  let buffer := [[x61; x62; x63]; []; [x64]] in
  ∃ f' k', write f buffer true k = Ok (f', k', len (concat buffer)) ∧
    same (received k') (received k) ∧ same (sent k') (upd (sent k) (_fd f) (sent k (_fd f) ++ concat buffer)).
Proof. apply write_all_complete. unfold len; simpl; lia. Defined.

End FileDescriptor.
