(* ===== verification/stream_pump.v ===== *)
(** * Moving bytes between a descriptor and a stream

    The event loops of src/lab/apps/bidirectional_stream_copy.cc and
    src/lab/libsponge/tcp_helpers/tcp_sponge_socket.cc move bytes in two ways:
    from a descriptor into a [ByteStream] as far as it has room, and from a
    stream to a descriptor as far as the kernel takes them.  The lemmas say that
    nothing is lost on the way. *)

From S2P Require Import Prelude byte_stream buffer system file_descriptor.

Module Pump.

Section Pump.
Context {K : Type} `{Kernel K}.

(** Read as much as fits into the stream; the end of the file ends the stream. *)
Definition fill (f : FileDescriptor.t) (stream : ByteStream.t) (k : K) : result (FileDescriptor.t * ByteStream.t * K) :=
  '(f, k, data) ← FileDescriptor.read f (ByteStream.remaining_capacity stream) k;
  '(stream, _) ← ByteStream.write stream data;
  Ok (f, if FileDescriptor.eof f then ByteStream.end_input stream else stream, k).

(** Write at most [max_copy_length] bytes of the stream; what was written is popped. *)
Definition drain (max_copy_length : Z) (f : FileDescriptor.t) (stream : ByteStream.t) (k : K)
  : result (FileDescriptor.t * ByteStream.t * K) :=
  let bytes_to_write := Z.min max_copy_length (ByteStream.buffer_size stream) in
  data ← ByteStream.peek_output stream bytes_to_write;
  '(f, k, bytes_written) ← FileDescriptor.write_string f data false k;
  stream ← ByteStream.pop_output stream bytes_written;
  Ok (f, stream, k).

End Pump.

Section Laws.
Context {K : Type} `{StreamLedger K}.

(** Both pumps leave the capacity and the error flag of the stream alone. *)
Record kept (st st' : ByteStream.t) : Prop := {
  kept_wf : ByteStream.wf st';
  kept_cap : ByteStream._capacity st' = ByteStream._capacity st;
  kept_err : ByteStream._error st' = ByteStream._error st
}.

Definition filled (f : FileDescriptor.t) (st : ByteStream.t) (k : K) (f' : FileDescriptor.t) (st' : ByteStream.t) (k' : K) : Prop :=
  ∃ d, FileDescriptor._fd f' = FileDescriptor._fd f ∧
    FileDescriptor._read_count f' = uint32 (FileDescriptor._read_count f + 1) ∧
    FileDescriptor._closed f' = FileDescriptor._closed f ∧
    kept st st' ∧ ByteStream.contents st' = ByteStream.contents st ++ d ∧
    same (received k') (upd (received k) (FileDescriptor._fd f) (received k (FileDescriptor._fd f) ++ d)) ∧
    same (sent k') (sent k).

Definition drained (f : FileDescriptor.t) (st : ByteStream.t) (k : K) (f' : FileDescriptor.t) (st' : ByteStream.t) (k' : K) : Prop :=
  ∃ d, f' = FileDescriptor.register_write f ∧
    kept st st' ∧ ByteStream._end_input st' = ByteStream._end_input st ∧
    ByteStream.contents st = d ++ ByteStream.contents st' ∧
    same (sent k') (upd (sent k) (FileDescriptor._fd f) (sent k (FileDescriptor._fd f) ++ d)) ∧
    same (received k') (received k).

Lemma remaining_capacity_wf st : ByteStream.wf st →
  ByteStream.remaining_capacity st = ByteStream._capacity st - ByteStream._sz st ∧
  0 <= ByteStream.remaining_capacity st.
Proof. intros []. unfold ByteStream.remaining_capacity. rewrite uint64_id by lia. lia. Qed.

(** A stream accepts what a read of its remaining capacity returned. *)
Lemma write_fits st d : ByteStream.wf st → len d <= ByteStream.remaining_capacity st →
  ∃ st', ByteStream.write st d = Ok (st', len d) ∧ ByteStream.appended st st' d.
Proof.
  intros Hw Hd. destruct (remaining_capacity_wf st Hw) as [E _]. rewrite E in Hd. pose proof (ByteStream.wf_cap st Hw).
  pose proof (ByteStream.wf_sz st Hw).
  destruct (ByteStream.stream_write_spec st d Hw ltac:(lia)) as (st' & -> & Ha & _).
  rewrite Z.min_l, ztake_ge in * by lia. by exists st'.
Qed.

Lemma kept_end_input st st' : kept st st' → kept st (ByteStream.end_input st').
Proof. intros [[] ??]. by constructor. Qed.

Lemma fill_spec f st k f' st' k' : ByteStream.wf st → fill f st k = Ok (f', st', k') → filled f st k f' st' k'.
Proof.
  intros Hw. unfold fill. destruct (remaining_capacity_wf st Hw) as [_ Hc].
  intros ([[f1 k1] d] & Er & ([st1 n] & Ew & [= <- <- <-])%result_bind_inv)%result_bind_inv.
  apply FileDescriptor.read_spec in Er as (-> & Hl & Hr & Hs); [|done].
  destruct (write_fits st d Hw ltac:(lia)) as (st2 & E2 & Ha). rewrite E2 in Ew. injection Ew as <- <-.
  exists d. unfold FileDescriptor.after_read. destruct (_ && _); cbn [FileDescriptor._fd FileDescriptor.register_read
    FileDescriptor.set_eof FileDescriptor._read_count FileDescriptor._closed];
    (split; [done|]; split; [done|]; split; [done|]; split; [|split; [|done]]);
    destruct Ha; destruct (FileDescriptor.eof _); try done; try (apply kept_end_input); by constructor.
Qed.

Lemma fill_total `{!HealthyKernel K} f st k : ByteStream.wf st → ∃ f' st' k', fill f st k = Ok (f', st', k').
Proof.
  intros Hw. unfold fill. destruct (remaining_capacity_wf st Hw) as [_ Hc].
  destruct (FileDescriptor.read_total f _ k Hc) as (f1 & k1 & d & E). rewrite E, result_bind_ok.
  apply FileDescriptor.read_spec in E as (_ & Hl & _); [|done].
  destruct (write_fits st d Hw ltac:(lia)) as (st2 & -> & _). rewrite result_bind_ok. eauto.
Qed.

(** What [drain] offers to the kernel. *)
Lemma drain_data m st : ByteStream.wf st → 0 <= m →
  ∃ d e, ByteStream.peek_output st (Z.min m (ByteStream.buffer_size st)) = Ok d ∧
    ByteStream.contents st = d ++ e ∧ len d < max_string.
Proof.
  intros Hw Hm. destruct (Hw). exists (ztake (Z.min m (ByteStream._sz st)) (ByteStream.contents st)),
    (zdrop (Z.min m (ByteStream._sz st)) (ByteStream.contents st)).
  rewrite ByteStream.peek_output_spec by (unfold ByteStream.buffer_size; lia || done).
  split; [done|]. split; [by rewrite ztake_zdrop|]. rewrite len_ztake, ByteStream.len_contents by (lia || done). lia.
Qed.

Lemma drain_pop st d e n : ByteStream.wf st → 0 < ByteStream._capacity st → ByteStream.contents st = d ++ e →
  0 <= n <= len d →
  ∃ st', ByteStream.pop_output st n = Ok st' ∧ kept st st' ∧ ByteStream._end_input st' = ByteStream._end_input st ∧
    ByteStream.contents st = ztake n d ++ ByteStream.contents st'.
Proof.
  intros Hw Hc E Hn. assert (n <= ByteStream._sz st) as Hsz.
  { rewrite <- (ByteStream.len_contents st Hw), E, len_app. pose proof (len_nonneg e). lia. }
  exists (ByteStream.popped st n). rewrite ByteStream.pop_output_spec, Z.min_l by (done || lia).
  destruct (ByteStream.popped_spec st n Hw ltac:(lia)) as [Hw' Hc'].
  split; [done|]. split; [by constructor|]. split; [done|]. rewrite Hc', E.
  rewrite zdrop_app_le, app_assoc, ztake_zdrop by lia. done.
Qed.

Lemma drain_spec m f st k f' st' k' : ByteStream.wf st → 0 < ByteStream._capacity st → 0 <= m →
  drain m f st k = Ok (f', st', k') → drained f st k f' st' k'.
Proof.
  intros Hw Hc Hm. unfold drain. destruct (drain_data m st Hw Hm) as (d & e & -> & Ed & Hl). rewrite result_bind_ok.
  unfold FileDescriptor.write_string, BufferViewList.of_view.
  assert (concat [d] = d) as Hcd by (simpl; apply app_nil_r).
  pose proof (FileDescriptor.write_spec f [d] false k ltac:(rewrite Hcd; lia)) as Ho.
  destruct Ho as [(x & ->)|[->|(f1 & k1 & n & -> & Hn & _ & _ & Hf1 & _ & Hr & Hs)]]; [done..|].
  rewrite Hcd, Z.add_0_l in *. rewrite Hf1 by done.
  destruct (drain_pop st d e n Hw Hc Ed Hn) as (st1 & Ep & Hk & He & Hcs).
  rewrite result_bind_ok, Ep, result_bind_ok. intros [= <- <- <-].
  by exists (ztake n d).
Qed.

(** A drain is a read of what it writes. *)
Lemma drain_reads m f st k f' st' k' d : ByteStream.wf st → 0 < ByteStream._capacity st → 0 <= m →
  drain m f st k = Ok (f', st', k') → ByteStream.contents st = d ++ ByteStream.contents st' →
  ByteStream.read st (len d) = Ok (st', d).
Proof.
  intros Hw Hc Hm. unfold drain. destruct (drain_data m st Hw Hm) as (x & e & -> & Ed & Hl). rewrite result_bind_ok.
  unfold FileDescriptor.write_string, BufferViewList.of_view. assert (concat [x] = x) as Hcd by (simpl; apply app_nil_r).
  pose proof (FileDescriptor.write_spec f [x] false k ltac:(rewrite Hcd; lia)) as Ho.
  destruct Ho as [(y & ->)|[->|(f1 & k1 & n & -> & Hn & _)]]; [done..|]. rewrite Hcd in Hn.
  assert (n <= ByteStream._sz st) as Hsz.
  { rewrite <- (ByteStream.len_contents st Hw), Ed, len_app. pose proof (len_nonneg e). lia. }
  rewrite result_bind_ok, ByteStream.pop_output_spec, result_bind_ok by (done || lia).
  rewrite (Z.min_l n) by lia. intros [= <- <- <-] Ecs. destruct (ByteStream.popped_spec st n Hw ltac:(lia)) as [Hw' Hc'].
  pose proof (f_equal len Ecs) as Elen. rewrite len_app, Hc', len_zdrop, ByteStream.len_contents in Elen by (lia || done).
  rewrite ByteStream.stream_read_spec by (done || apply len_nonneg). rewrite Z.min_l by lia.
  replace (len d) with n by lia. do 2 f_equal. rewrite Ecs. replace n with (len d) by lia. apply ztake_app.
Qed.

Lemma drain_total `{!HealthyKernel K} m f st k : ByteStream.wf st → 0 < ByteStream._capacity st → 0 <= m →
  ∃ f' st' k', drain m f st k = Ok (f', st', k').
Proof.
  intros Hw Hc Hm. unfold drain. destruct (drain_data m st Hw Hm) as (d & e & -> & Ed & Hl). rewrite result_bind_ok.
  unfold FileDescriptor.write_string, BufferViewList.of_view.
  assert (concat [d] = d) as Hcd by (simpl; apply app_nil_r).
  pose proof (FileDescriptor.write_spec f [d] false k ltac:(rewrite Hcd; lia)) as Ho.
  pose proof (FileDescriptor.write_total f [d] false k ltac:(rewrite Hcd; lia)) as Hok.
  destruct Ho as [(x & E)|[E|(f1 & k1 & n & E & Hn & _)]]; rewrite E in *; [done..|].
  rewrite Hcd, Z.add_0_l in *. destruct (drain_pop st d e n Hw Hc Ed Hn) as (st1 & Ep & _).
  rewrite result_bind_ok, Ep, result_bind_ok. eauto.
Qed.

End Laws.

End Pump.
