(* ===== verification/eventloop.v ===== *)
(** * The event loop (src/lab/libsponge/util/eventloop.hh, .cc)

    An [EventLoop] holds a list of rules; [wait_next_event] cancels the rules
    whose descriptor is finished, polls the descriptors of the others and calls
    back those that are ready.  The callbacks are functions on the state [S] of
    the client, which also holds the descriptors a rule refers to: the copy of
    the handle a rule keeps shares its wrapper with the client's.

    The theorems are for every client: an invariant of the callbacks is one of
    the loop; when no callback leaves its descriptor untouched while it stays
    interested, no call of [wait_next_event] throws; an exit means that nobody
    was interested or a signal arrived; an error of [poll] goes unnoticed. *)

From S2P Require Import Prelude system file_descriptor.

Module EventLoop.

Inductive Direction := In | Out.
Inductive Result := Success | Timeout | Exit.

#[global] Instance Direction_eq_dec : EqDecision Direction.
Proof. solve_decision. Defined.
#[global] Instance Result_eq_dec : EqDecision Result.
Proof. solve_decision. Defined.

Definition direction_events (d : Direction) : Z := match d with In => POLLIN | Out => POLLOUT end.

Section Loop.
Context {K : Type} `{Kernel K} {S : Type}.

Record Rule := mkRule {
  fd : S → FileDescriptor.t;
  direction : Direction;
  callback : S → K → result (S * K);
  interest : S → bool;
  cancel : S → K → result (S * K)
}.

Definition service_count (r : Rule) (s : S) : Z :=
  match direction r with
  | In => FileDescriptor.read_count (fd r s)
  | Out => FileDescriptor.write_count (fd r s)
  end.

Definition add_rule (rules : list Rule) (r : Rule) : list Rule := rules ++ [r].

(** The descriptor of the rule is finished. *)
Definition finished (r : Rule) (s : S) : bool :=
  (bool_decide (direction r = In) && FileDescriptor.eof (fd r s)) || FileDescriptor.closed (fd r s).

(** The first loop: the rules that stay, their [pollfd]s, [something_to_poll]. *)
Fixpoint setup (rules : list Rule) (s : S) (k : K) : result (S * K * list Rule * list pollfd * bool) :=
  match rules with
  | [] => Ok (s, k, [], [], false)
  | r :: rest =>
      if finished r s then '(s, k) ← cancel r s k; setup rest s k
      else
        let want := interest r s in
        let p := PollFd (FileDescriptor.fd_num (fd r s)) (if want then direction_events (direction r) else 0) in
        '(s, k, rules, fds, something_to_poll) ← setup rest s k;
        Ok (s, k, r :: rules, p :: fds, want || something_to_poll)
  end.

Definition has (revents mask : Z) : bool := negb (Z.land revents mask =? 0).

(** The second loop, over the rules and the [pollfd]s with their [revents]. *)
Fixpoint dispatch (rules : list Rule) (polled : list (pollfd * Z)) (s : S) (k : K) : result (S * K * list Rule) :=
  match rules with
  | [] => Ok (s, k, [])
  | r :: rest =>
      match polled with
      | [] => Throw OutOfBounds
      | (p, revents) :: polled =>
          if has revents (Z.lor POLLERR POLLNVAL) then Throw runtime_error
          else
            let poll_ready := has revents (events p) in
            let poll_hup := has revents POLLHUP in
            if poll_hup && negb (events p =? 0) && negb poll_ready then
              '(s, k) ← cancel r s k; dispatch rest polled s k
            else
              '(s, k) ← (if poll_ready then
                           let count_before := service_count r s in
                           '(s, k) ← callback r s k;
                           if (count_before =? service_count r s) && interest r s then Throw runtime_error
                           else Ok (s, k)
                         else Ok (s, k));
              '(s, k, rules) ← dispatch rest polled s k;
              Ok (s, k, r :: rules)
      end
  end.

Definition wait_next_event (rules : list Rule) (timeout_ms : Z) (s : S) (k : K)
  : result (Result * list Rule * S * K) :=
  '(s, k, rules, fds, something_to_poll) ← setup rules s k;
  if negb something_to_poll then Ok (Exit, rules, s, k)
  else
    let '(k, r, revents) := sys_poll k fds timeout_ms in
    let results :=
      '(s, k, rules) ← dispatch rules (zip fds revents) s k;
      Ok (Success, rules, s, k) in
    match SystemCall r 0 with
    | Ok n => if n =? 0 then Ok (Timeout, rules, s, k) else results
    | Throw (unix_error e) => if e =? EINTR then Ok (Exit, rules, s, k) else results
    | Throw f => Throw f
    end.

(** ** Invariants of the loop *)

(** [safe I r]: the callbacks of the rule keep [I] when they return. *)
Record safe (I : S → K → Prop) (r : Rule) : Prop := {
  safe_callback s k s' k' : I s k → callback r s k = Ok (s', k') → I s' k';
  safe_cancel s k s' k' : I s k → cancel r s k = Ok (s', k') → I s' k'
}.

Definition poll_stable (I : S → K → Prop) : Prop :=
  ∀ s k fds timeout k' r revents, I s k → sys_poll k fds timeout = (k', r, revents) → I s k'.

Lemma setup_safe I rules : ∀ s k s' k' rules' fds b,
  Forall (λ r, ∀ s k s' k', I s k → cancel r s k = Ok (s', k') → I s' k') rules → I s k →
  setup rules s k = Ok (s', k', rules', fds, b) →
  I s' k' ∧ sublist rules' rules ∧ length fds = length rules'.
Proof.
  induction rules as [|r rules IH]; intros s k s' k' rules' fds b Hs HI; cbn [setup].
  { intros [= <- <- <- <- <-]. done. }
  apply Forall_cons in Hs as [Hr Hs]. destruct (finished r s).
  - intros ([s1 k1] & E1 & E)%result_bind_inv. apply IH in E as (? & ? & ?); [|done|by eapply Hr].
    split; [done|]. split; [by apply sublist_cons | done].
  - intros ([[[[s1 k1] rules1] fds1] b1] & E1 & [= <- <- <- <- <-])%result_bind_inv.
    apply IH in E1 as (? & ? & ?); [|done..]. split; [done|]. split; [by apply sublist_skip|]. simpl. lia.
Qed.

Lemma dispatch_safe I rules : ∀ polled s k s' k' rules', Forall (safe I) rules → I s k →
  dispatch rules polled s k = Ok (s', k', rules') → I s' k' ∧ sublist rules' rules.
Proof.
  induction rules as [|r rules IH]; intros polled s k s' k' rules' Hs HI; cbn [dispatch].
  { intros [= <- <- <-]. done. }
  apply Forall_cons in Hs as [Hr Hs]. destruct polled as [|[p revents] polled]; [done|].
  destruct (has revents (Z.lor _ _)); [done|].
  destruct (has revents POLLHUP && _ && _).
  - intros ([s1 k1] & E1 & E)%result_bind_inv. apply IH in E as (? & ?); [|done|by eapply safe_cancel].
    split; [done|]. by apply sublist_cons.
  - intros ([s1 k1] & E1 & ([[s2 k2] rules2] & E2 & [= <- <- <-])%result_bind_inv)%result_bind_inv.
    assert (I s1 k1) as HI1.
    { destruct (has revents (events p)); [|by injection E1 as <- <-].
      apply result_bind_inv in E1 as ([s3 k3] & E3 & E1).
      destruct (_ && _); [done|]. injection E1 as <- <-. by eapply safe_callback. }
    apply IH in E2 as (? & ?); [|done..]. split; [done|]. by apply sublist_skip.
Qed.

(** The first rule of the list, in each of the loops. *)
Lemma setup_cons_inv r rest s k s' k' rules' fds b : setup (r :: rest) s k = Ok (s', k', rules', fds, b) →
  (∃ s1 k1, cancel r s k = Ok (s1, k1) ∧ setup rest s1 k1 = Ok (s', k', rules', fds, b)) ∨
  (∃ rules1 fds1 b1 n, setup rest s k = Ok (s', k', rules1, fds1, b1) ∧ rules' = r :: rules1 ∧
     fds = PollFd n (if interest r s then direction_events (direction r) else 0) :: fds1).
Proof.
  cbn [setup]. destruct (finished r s).
  - intros ([s1 k1] & E1 & E)%result_bind_inv. left. by exists s1, k1.
  - intros ([[[[s1 k1] rules1] fds1] b1] & E1 & [= <- <- <- <- <-])%result_bind_inv. right. by eexists _, _, _, _.
Qed.

Lemma dispatch_cons_inv r rest polled s k s' k' rules' : dispatch (r :: rest) polled s k = Ok (s', k', rules') →
  ∃ p revents polled1 s1 k1 rules1, polled = (p, revents) :: polled1 ∧
    (cancel r s k = Ok (s1, k1) ∨ events p ≠ 0 ∧ callback r s k = Ok (s1, k1) ∨ s1 = s ∧ k1 = k) ∧
    dispatch rest polled1 s1 k1 = Ok (s', k', rules1).
Proof.
  cbn [dispatch]. destruct polled as [|[p revents] polled]; [done|]. destruct (has revents (Z.lor _ _)); [done|].
  destruct (has revents POLLHUP && _ && _).
  - intros ([s1 k1] & E1 & E)%result_bind_inv. exists p, revents, polled, s1, k1, rules'.
    split; [done|]. split; [by left | done].
  - intros ([s1 k1] & E1 & ([[s2 k2] rules2] & E2 & [= <- <- <-])%result_bind_inv)%result_bind_inv.
    exists p, revents, polled, s1, k1, rules2. split; [done|]. split; [|done].
    destruct (has revents (events p)) eqn:Hh; [|injection E1 as <- <-; by right; right].
    apply result_bind_inv in E1 as ([s3 k3] & E3 & E1). destruct (_ && _); [done|]. injection E1 as <- <-.
    right. left. split; [|done]. intros Hz. revert Hh. unfold has. by rewrite Hz, Z.land_0_r.
Qed.

(** Every call keeps the client's invariant and only removes rules. *)
Lemma wait_next_event_safe I rules timeout s k res rules' s' k' :
  Forall (safe I) rules → poll_stable I → I s k →
  wait_next_event rules timeout s k = Ok (res, rules', s', k') → I s' k' ∧ sublist rules' rules.
Proof.
  intros Hs Hp HI. unfold wait_next_event.
  intros ([[[[s1 k1] rules1] fds1] b1] & E1 & E)%result_bind_inv.
  apply (setup_safe I) in E1 as (HI1 & Hsub & _); [|by eapply Forall_impl; [|apply safe_cancel]|done].
  destruct b1; cbn [negb] in E; [|by injection E as <- <- <- <-].
  destruct (sys_poll k1 fds1 timeout) as [[k2 r] revents] eqn:Ep. pose proof (Hp _ _ _ _ _ _ _ HI1 Ep) as HI2.
  assert (Forall (safe I) rules1) as Hs1 by (by eapply Forall_sublist).
  assert (∀ x, ('(s, k, rules) ← dispatch rules1 (zip fds1 revents) s1 k2; Ok (Success, rules, s, k)) = Ok x →
    I x.1.2 x.2 ∧ sublist x.1.1.2 rules) as Hd.
  { intros x ([[s3 k3] rules3] & E3 & [= <-])%result_bind_inv.
    apply (dispatch_safe I) in E3 as (? & ?); [|done..]. split; [done|]. by etrans. }
  destruct (SystemCall r 0) as [n|[]]; try done.
  - destruct (n =? 0); [by injection E as <- <- <- <-|]. apply (Hd _ E).
  - destruct (_ =? EINTR); [by injection E as <- <- <- <-|]. apply (Hd _ E).
Qed.

(** ** Progress: no busy waiting *)

(** [honest I r]: in the states of [I] the callbacks return, keep [I], and the
    callback has read or written the descriptor or is no longer interested. *)
Record honest (I : S → K → Prop) (r : Rule) : Prop := {
  honest_callback s k : I s k → ∃ s' k', callback r s k = Ok (s', k') ∧ I s' k' ∧
    (service_count r s' ≠ service_count r s ∨ interest r s' = false);
  honest_cancel s k : I s k → ∃ s' k', cancel r s k = Ok (s', k') ∧ I s' k'
}.

Lemma setup_total I rules : ∀ s k, Forall (honest I) rules → I s k →
  ∃ s' k' rules' fds b, setup rules s k = Ok (s', k', rules', fds, b) ∧ I s' k' ∧
    sublist rules' rules ∧ length fds = length rules'.
Proof.
  induction rules as [|r rules IH]; intros s k Hs HI; cbn [setup].
  { exists s, k, [], [], false. done. }
  apply Forall_cons in Hs as [Hr Hs]. destruct (finished r s).
  - destruct (honest_cancel I r Hr s k HI) as (s1 & k1 & -> & HI1). rewrite result_bind_ok.
    destruct (IH s1 k1 Hs HI1) as (s2 & k2 & rules2 & fds & b & E & ? & ? & ?).
    exists s2, k2, rules2, fds, b. split; [done|]. split; [done|]. split; [by apply sublist_cons | done].
  - destruct (IH s k Hs HI) as (s2 & k2 & rules2 & fds & b & -> & ? & ? & ?). rewrite result_bind_ok.
    do 5 eexists. split; [done|]. split; [done|]. split; [by apply sublist_skip|]. simpl. lia.
Qed.

Definition quiet (revents : Z) : Prop := has revents (Z.lor POLLERR POLLNVAL) = false.

Lemma dispatch_total I rules : ∀ polled s k, Forall (honest I) rules → I s k →
  length polled = length rules → Forall (λ x, quiet x.2) polled →
  ∃ s' k' rules', dispatch rules polled s k = Ok (s', k', rules') ∧ I s' k' ∧ sublist rules' rules.
Proof.
  induction rules as [|r rules IH]; intros polled s k Hs HI Hl Hq; cbn [dispatch].
  { exists s, k, []. done. }
  apply Forall_cons in Hs as [Hr Hs]. destruct polled as [|[p revents] polled]; [done|].
  apply Forall_cons in Hq as [Hq0 Hq]. simpl in Hq0. rewrite Hq0. injection Hl as Hl.
  destruct (has revents POLLHUP && _ && _).
  - destruct (honest_cancel I r Hr s k HI) as (s1 & k1 & -> & HI1). rewrite result_bind_ok.
    destruct (IH polled s1 k1) as (s2 & k2 & rules2 & E & ? & ?); [done..|].
    exists s2, k2, rules2. split; [done|]. split; [done | by apply sublist_cons].
  - enough (∃ s1 k1, I s1 k1 ∧ (if has revents (events p) then
               '(s', k') ← callback r s k;
               if (service_count r s =? service_count r s') && interest r s' then Throw runtime_error else Ok (s', k')
             else Ok (s, k)) = Ok (s1, k1)) as (s1 & k1 & HI1 & ->).
    { rewrite result_bind_ok. destruct (IH polled s1 k1) as (s2 & k2 & rules2 & -> & ? & ?); [done..|].
      exists s2, k2, (r :: rules2). split; [done|]. split; [done | by apply sublist_skip]. }
    destruct (has revents (events p)); [|by exists s, k].
    destruct (honest_callback I r Hr s k HI) as (s1 & k1 & -> & HI1 & Hb). exists s1, k1. split; [done|].
    rewrite result_bind_ok. destruct Hb as [Hb| ->]; [|by rewrite andb_false_r].
    destruct (Z.eqb_spec (service_count r s) (service_count r s1)); [congruence | done].
Qed.

(** An event loop with honest clients never fails.  On a kernel whose calls
    succeed, if every callback returns, keeps the client's invariant and either
    services its descriptor or loses interest, then [wait_next_event] returns
    (the busy-wait exception is not thrown), the invariant holds again, and
    the rules left are among the rules before, in the same order. *)
Theorem wait_next_event_ok `{!HealthyKernel K} `{!StreamLedger K} I rules timeout s k :
  Forall (honest I) rules → poll_stable I → I s k →
  ∃ res rules' s' k', wait_next_event rules timeout s k = Ok (res, rules', s', k') ∧
    I s' k' ∧ sublist rules' rules.
Proof.
  intros Hs Hp HI. unfold wait_next_event.
  destruct (setup_total I rules s k Hs HI) as (s1 & k1 & rules1 & fds & b & -> & HI1 & Hsub & Hlen).
  rewrite result_bind_ok. destruct b; [|by exists Exit, rules1, s1, k1].
  cbn [negb]. destruct (sys_poll k1 fds timeout) as [[k2 r] revents] eqn:Ep.
  pose proof (Hp _ _ _ _ _ _ _ HI1 Ep) as HI2.
  pose proof Ep as (_ & _ & Hl)%poll_law. apply poll_healthy in Ep as [Hok Hq].
  rewrite SystemCall_ok by apply Hok. case_test; [by exists Timeout, rules1, s1, k2|].
  destruct (dispatch_total I rules1 (zip fds revents) s1 k2) as (s3 & k3 & rules3 & -> & ? & ?); [|done|..].
  - by eapply Forall_sublist.
  - rewrite length_zip. lia.
  - apply Forall_forall. intros [p e] Hin. apply elem_of_zip_r in Hin. rewrite Forall_forall in Hq.
    unfold quiet, has. simpl. by rewrite Hq.
  - exists Success, rules3, s3, k3. split; [done|]. split; [done|]. by etrans.
Qed.

(** ** Exit and errors *)

(** If [setup] finds nothing to poll, each rule that stays was not interested; a
    predicate [P] that then held, and that no cancellation of a later rule
    undoes, holds when [setup] is done. *)
Lemma setup_uninterested (P : S → Prop) (r0 : Rule) rules : ∀ s k s' k' rules' fds,
  (∀ s, interest r0 s = false → P s) →
  Forall (λ r, ∀ s k s' k', P s → cancel r s k = Ok (s', k') → P s') rules →
  setup rules s k = Ok (s', k', rules', fds, false) → (r0 ∈ rules' ∨ P s) → P s'.
Proof.
  induction rules as [|r rules IH]; intros s k s' k' rules' fds HP Hc; cbn [setup].
  { intros [= <- <- <- <-] [H0|]; [by apply not_elem_of_nil in H0 | done]. }
  apply Forall_cons in Hc as [Hr Hc]. destruct (finished r s).
  - intros ([s1 k1] & E1 & E)%result_bind_inv Hin. eapply IH; [done..|].
    destruct Hin; [by left | right; by eapply Hr].
  - intros ([[[[s1 k1] rules1] fds1] b1] & E1 & E)%result_bind_inv Hin. injection E as <- <- <- <- Eb.
    apply orb_false_iff in Eb as [Ei ->]. eapply IH; [done..|].
    destruct Hin as [[->|]%elem_of_cons|]; [right; by apply HP | by left | by right].
Qed.

(** Without signals, an exit means that there was nothing to poll. *)
Lemma exit_nothing_to_poll `{!HealthyKernel K} rules timeout s k rules' s' k' :
  wait_next_event rules timeout s k = Ok (Exit, rules', s', k') →
  ∃ fds, setup rules s k = Ok (s', k', rules', fds, false).
Proof.
  unfold wait_next_event. intros ([[[[s1 k1] rules1] fds] b] & -> & E)%result_bind_inv.
  destruct b; cbn [negb] in E.
  - destruct (sys_poll k1 fds timeout) as [[k2 r] revents] eqn:Ep. apply poll_healthy in Ep as [Hok _].
    rewrite SystemCall_ok in E by apply Hok. destruct (value r =? 0); [done|].
    apply result_bind_inv in E as ([[s3 k3] rules3] & _ & [=]).
  - injection E as <- <- <-. by exists fds.
Qed.

(** What the comments call an error is a success: when [poll] fails with an error
    other than a signal and leaves the [revents] zero, [wait_next_event] throws
    nothing, calls nobody back and returns [Success]. *)
Theorem poll_error_swallowed rules timeout s k s1 k1 rules1 fds k2 r revents :
  setup rules s k = Ok (s1, k1, rules1, fds, true) →
  sys_poll k1 fds timeout = (k2, r, revents) → failed r → errno r ≠ EINTR →
  length revents = length fds → length fds = length rules1 → Forall (λ e, e = 0) revents →
  wait_next_event rules timeout s k = Ok (Success, rules1, s1, k2).
Proof.
  intros E1 Ep Hf He Hl1 Hl2 Hz. unfold wait_next_event. rewrite E1, result_bind_ok. cbn [negb].
  rewrite Ep, SystemCall_failed by done. destruct (Z.eqb_spec (errno r) EINTR); [done|].
  enough (dispatch rules1 (zip fds revents) s1 k2 = Ok (s1, k2, rules1)) as -> by done.
  clear E1 Ep. revert fds revents Hl1 Hl2 Hz. induction rules1 as [|r1 rules1 IH]; intros fds revents Hl1 Hl2 Hz; [done|].
  destruct fds as [|p fds], revents as [|e revents]; try done. apply Forall_cons in Hz as [-> Hz].
  cbn [zip zip_with dispatch]. unfold has. rewrite !Z.land_0_l. cbn. rewrite IH; [done|simpl in *; lia..|done].
Qed.

End Loop.

Arguments Rule : clear implicits.

End EventLoop.
