(* ===== verification/tcp_header.v ===== *)
(** * TCP headers (src/lab/libsponge/tcp_helpers/tcp_header.hh, .cc)

    The fields of a TCP header with [parse] and [serialize].  [parse_serialize]
    is the round trip for every header whose data offset fits its four bits. *)

From S2P Require Import Prelude wrapping_integers buffer parser.

Module TCPHeader.

Definition LENGTH : Z := 20.

Record t := mk {
  sport : Z; dport : Z;
  seqno : WrappingInt32.t; ackno : WrappingInt32.t;
  doff : Z;
  urg : bool; ack : bool; psh : bool; rst : bool; syn : bool; fin : bool;
  win : Z; cksum : Z; uptr : Z }.

(** [TCPHeader header{}]. *)
Definition new : t :=
  mk 0 0 (WrappingInt32.mk 0) (WrappingInt32.mk 0) (LENGTH / 4)
     false false false false false false 0 0 0.

#[global] Instance TCPHeader_eq_dec : EqDecision t.
Proof. solve_decision. Defined.

(** Field updates. *)
Definition set_sport (h : t) x := mk x (dport h) (seqno h) (ackno h) (doff h) (urg h) (ack h) (psh h) (rst h) (syn h) (fin h) (win h) (cksum h) (uptr h).
Definition set_dport (h : t) x := mk (sport h) x (seqno h) (ackno h) (doff h) (urg h) (ack h) (psh h) (rst h) (syn h) (fin h) (win h) (cksum h) (uptr h).
Definition set_seqno (h : t) x := mk (sport h) (dport h) x (ackno h) (doff h) (urg h) (ack h) (psh h) (rst h) (syn h) (fin h) (win h) (cksum h) (uptr h).
Definition set_ackno (h : t) x := mk (sport h) (dport h) (seqno h) x (doff h) (urg h) (ack h) (psh h) (rst h) (syn h) (fin h) (win h) (cksum h) (uptr h).
Definition set_ack (h : t) x := mk (sport h) (dport h) (seqno h) (ackno h) (doff h) (urg h) x (psh h) (rst h) (syn h) (fin h) (win h) (cksum h) (uptr h).
Definition set_rst (h : t) x := mk (sport h) (dport h) (seqno h) (ackno h) (doff h) (urg h) (ack h) (psh h) x (syn h) (fin h) (win h) (cksum h) (uptr h).
Definition set_syn (h : t) x := mk (sport h) (dport h) (seqno h) (ackno h) (doff h) (urg h) (ack h) (psh h) (rst h) x (fin h) (win h) (cksum h) (uptr h).
Definition set_fin (h : t) x := mk (sport h) (dport h) (seqno h) (ackno h) (doff h) (urg h) (ack h) (psh h) (rst h) (syn h) x (win h) (cksum h) (uptr h).
Definition set_win (h : t) x := mk (sport h) (dport h) (seqno h) (ackno h) (doff h) (urg h) (ack h) (psh h) (rst h) (syn h) (fin h) x (cksum h) (uptr h).
Definition set_cksum (h : t) x := mk (sport h) (dport h) (seqno h) (ackno h) (doff h) (urg h) (ack h) (psh h) (rst h) (syn h) (fin h) (win h) x (uptr h).

(** [static_cast<bool>(fl_b & mask)]. *)
Definition flag (fl_b mask : Z) : bool := negb (Z.land fl_b mask =? 0).

(** Every field is overwritten, also when an error is returned. *)
Definition parse (p : NetParser.t) : result (t * NetParser.t * ParseResult) :=
  '(p, sport) ← NetParser.u16 p;
  '(p, dport) ← NetParser.u16 p;
  '(p, seqno) ← NetParser.u32 p;
  '(p, ackno) ← NetParser.u32 p;
  '(p, off) ← NetParser.u8 p;
  let doff := Z.shiftr off 4 in
  '(p, fl_b) ← NetParser.u8 p;
  '(p, win) ← NetParser.u16 p;
  '(p, cksum) ← NetParser.u16 p;
  '(p, uptr) ← NetParser.u16 p;
  let h := mk sport dport (WrappingInt32.mk seqno) (WrappingInt32.mk ackno) doff
              (flag fl_b 32) (flag fl_b 16) (flag fl_b 8) (flag fl_b 4) (flag fl_b 2) (flag fl_b 1)
              win cksum uptr in
  if doff <? 5 then Ok (h, p, HeaderTooShort)
  else
    p ← NetParser.remove_prefix p (doff * 4 - LENGTH);
    if NetParser.error p then Ok (h, p, NetParser.get_error p) else Ok (h, p, NoError).

(** The byte of flags. *)
Definition flags (h : t) : Z :=
  Z.lor (if urg h then 32 else 0) (Z.lor (if ack h then 16 else 0) (Z.lor (if psh h then 8 else 0)
    (Z.lor (if rst h then 4 else 0) (Z.lor (if syn h then 2 else 0) (if fin h then 1 else 0))))).

Definition serialize (h : t) : result bytes :=
  if doff h <? 5 then Throw runtime_error
  else
    let ret := [] in
    let ret := NetUnparser.u16 ret (sport h) in
    let ret := NetUnparser.u16 ret (dport h) in
    let ret := NetUnparser.u32 ret (WrappingInt32.raw_value (seqno h)) in
    let ret := NetUnparser.u32 ret (WrappingInt32.raw_value (ackno h)) in
    let ret := NetUnparser.u8 ret (uint8 (Z.shiftl (doff h) 4)) in
    let ret := NetUnparser.u8 ret (flags h) in
    let ret := NetUnparser.u16 ret (win h) in
    let ret := NetUnparser.u16 ret (cksum h) in
    let ret := NetUnparser.u16 ret (uptr h) in
    Ok (resize ret (4 * doff h)).

(** [operator==] omits the ports and the checksum. *)
Definition eqb (h other : t) : bool :=
  WrappingInt32.eqb (seqno h) (seqno other) && WrappingInt32.eqb (ackno h) (ackno other) &&
  (doff h =? doff other) && Bool.eqb (urg h) (urg other) && Bool.eqb (ack h) (ack other) &&
  Bool.eqb (psh h) (psh other) && Bool.eqb (rst h) (rst other) && Bool.eqb (syn h) (syn other) &&
  Bool.eqb (fin h) (fin other) && (win h =? win other) && (uptr h =? uptr other).

(** The fields are values of their C++ types. *)
Record valid (h : t) : Prop := {
  v_sport : 0 <= sport h < two16; v_dport : 0 <= dport h < two16;
  v_seqno : WrappingInt32.valid (seqno h); v_ackno : WrappingInt32.valid (ackno h);
  v_win : 0 <= win h < two16; v_cksum : 0 <= cksum h < two16; v_uptr : 0 <= uptr h < two16 }.

(** The header as a string, and its two parts around the checksum field. *)
Definition before_cksum (h : t) : bytes :=
  BigEndian.encode 2 (sport h) ++ BigEndian.encode 2 (dport h) ++
  BigEndian.encode 4 (WrappingInt32.raw_value (seqno h)) ++
  BigEndian.encode 4 (WrappingInt32.raw_value (ackno h)) ++
  BigEndian.encode 1 (16 * doff h) ++ BigEndian.encode 1 (flags h) ++ BigEndian.encode 2 (win h).
Definition after_cksum (h : t) : bytes :=
  BigEndian.encode 2 (uptr h) ++ replicate (Z.to_nat (4 * doff h - LENGTH)) x00.

Lemma tcp_header_len_before_cksum h : len (before_cksum h) = 16.
Proof. unfold before_cksum. by rewrite !len_app, !BigEndian.len_encode. Qed.

Lemma tcp_header_len_after_cksum h : 5 <= doff h → len (after_cksum h) = 4 * doff h - 18.
Proof.
  intros. unfold after_cksum, LENGTH. rewrite len_app, BigEndian.len_encode, len_replicate; simpl; lia.
Qed.

Lemma tcp_header_serialize_eq h : 5 <= doff h < 16 →
  serialize h = Ok (before_cksum h ++ BigEndian.encode 2 (cksum h) ++ after_cksum h).
Proof.
  intros Hd. unfold serialize. case_test; [lia|]. f_equal.
  unfold NetUnparser.u8, NetUnparser.u16, NetUnparser.u32. rewrite !BigEndian.unparse_encode.
  rewrite Z.shiftl_mul_pow2, (Z.mul_comm (doff h)), uint8_id by lia. change (2 ^ 4) with 16.
  rewrite resize_pad; rewrite !len_app, !BigEndian.len_encode; [|unfold len; simpl; lia].
  unfold before_cksum, after_cksum. rewrite <- !app_assoc. by repeat f_equal.
Qed.

Lemma serialize_short h : doff h < 5 → serialize h = Throw runtime_error.
Proof. intros. unfold serialize. case_test; [done | lia]. Qed.

Lemma flag_flags h : flag (flags h) 32 = urg h ∧ flag (flags h) 16 = ack h ∧
  flag (flags h) 8 = psh h ∧ flag (flags h) 4 = rst h ∧ flag (flags h) 2 = syn h ∧
  flag (flags h) 1 = fin h ∧ 0 <= flags h < two8.
Proof.
  unfold flags, flag. destruct (urg h), (ack h), (psh h), (rst h), (syn h), (fin h); vm_compute; done.
Qed.

Lemma tcp_header_parse_reads h p rest : valid h → 5 <= doff h < 16 →
  ParserFacts.reads p (before_cksum h ++ BigEndian.encode 2 (cksum h) ++ after_cksum h ++ rest) →
  ∃ p', parse p = Ok (h, p', NoError) ∧ ParserFacts.reads p' rest.
Proof.
  intros Hv Hd. unfold before_cksum, after_cksum. rewrite <- !app_assoc. intros Hr.
  destruct Hv as [? ? Hs Ha ? ? ?]. unfold WrappingInt32.valid in *.
  destruct (flag_flags h) as (F1 & F2 & F3 & F4 & F5 & F6 & Hf).
  unfold parse. parse_fields Hr.
  rewrite Z.shiftr_div_pow2, Z.mul_comm, Z.div_mul by lia.
  case_test; [lia|].
  destruct (ParserFacts.remove_prefix_reads _ _ (doff h * 4 - LENGTH) Hr) as (p' & -> & Hr').
  { rewrite len_app, len_replicate; unfold LENGTH; pose proof (len_nonneg rest); lia. }
  rewrite result_bind_ok, (ParserFacts.reads_no_error _ _ Hr').
  exists p'. rewrite F1, F2, F3, F4, F5, F6. split; [by destruct h as [? ? [] []]|].
  revert Hr'. rewrite <- (len_replicate (doff h * 4 - LENGTH) x00) at 1 by (unfold LENGTH; lia).
  replace (4 * doff h) with (doff h * 4) by lia. by rewrite zdrop_app.
Qed.

(** Any bytes: the parser returns, with a result code. *)
Lemma tcp_header_parse_total p s k : ParserFacts.after p s k →
  ∃ h p' r, parse p = Ok (h, p', r) ∧ Buffer.wf (NetParser.buffer p') ∧ 0 <= sport h < two16 ∧ 0 <= dport h < two16.
Proof.
  intros H. unfold parse. parse_any H.
  destruct (Z.ltb_spec (Z.shiftr v3 4) 5); [eexists _, _, _; split; [done|]; split; [apply H | done]|].
  match goal with |- context [NetParser.remove_prefix ?q ?n] =>
    destruct (ParserFacts.remove_prefix_after q s _ n H) as (q' & -> & Hq) end; [unfold LENGTH; lia|].
  rewrite result_bind_ok.
  destruct (NetParser.error q'); eexists _, _, _; (split; [done|]); (split; [apply Hq | done]).
Qed.

(** A TCP header survives the wire: for every header with values of the
    fields' types and a data offset between 5 and 15, [parse] reads back from
    the serialized header, followed by any data, exactly the header, without
    error, and leaves exactly the data in the parser. *)
Theorem parse_serialize (h : t) (rest : bytes) :
  valid h → 5 <= doff h < 16 → len rest < two32 →
  ∃ s p', serialize h = Ok s ∧
    parse (NetParser.new (Buffer.of_string (s ++ rest))) = Ok (h, p', NoError) ∧
    NetParser.get_error p' = NoError ∧ Buffer.str (NetParser.buffer p') = rest.
Proof.
  intros Hv Hd Hl. rewrite tcp_header_serialize_eq by done.
  destruct (tcp_header_parse_reads h (NetParser.new (Buffer.of_string
    (before_cksum h ++ BigEndian.encode 2 (cksum h) ++ after_cksum h ++ rest))) rest Hv Hd)
    as (p' & E & He & _ & Hs).
  { apply ParserFacts.reads_new.
    rewrite !len_app, tcp_header_len_before_cksum, BigEndian.len_encode, tcp_header_len_after_cksum by lia. lia. }
  eexists _, p'. split; [done|]. rewrite <- !app_assoc. done.
Qed.

Definition demo : t :=
  mk 0xabcd 80 (WrappingInt32.mk 0xfffffffe) (WrappingInt32.mk 17) 6
     false true true false false true 1000 0x1234 0.

Lemma parse_serialize_witness :
  ∃ s p', serialize demo = Ok s ∧
    parse (NetParser.new (Buffer.of_string (s ++ [x68; x69]))) = Ok (demo, p', NoError) ∧
    NetParser.get_error p' = NoError ∧ Buffer.str (NetParser.buffer p') = [x68; x69].
Proof.
  apply (parse_serialize demo [x68; x69]);
    [constructor; simpl; unfold WrappingInt32.valid; simpl; lia | simpl; lia | unfold len; simpl; lia].
Defined.

End TCPHeader.
