(* ===== verification/tcp_segment.v ===== *)
(** * TCP segments (src/lab/libsponge/tcp_helpers/tcp_segment.hh, .cc)

    A header and a payload, with the checksum over both.  [segment_roundtrip]
    says that a serialized segment parses back; [segment_rejects_corruption]
    that a segment with one damaged byte is refused. *)

From S2P Require Import Prelude wrapping_integers buffer parser util tcp_header.

Module TCPSegment.

Record t := mk { _header : TCPHeader.t; _payload : Buffer.t }.

Definition new : t := mk TCPHeader.new Buffer.empty.
Definition header (s : t) : TCPHeader.t := _header s.
Definition payload (s : t) : Buffer.t := _payload s.

(** The result of [_header.parse] is discarded. *)
Definition parse (s : t) (buffer : Buffer.t) (datagram_layer_checksum : Z) : result (t * ParseResult) :=
  let check := InternetChecksum.new datagram_layer_checksum in
  let check := InternetChecksum.add check (Buffer.str buffer) in
  v ← InternetChecksum.value check;
  if negb (v =? 0) then Ok (s, BadChecksum)
  else
    '(h, p, _) ← TCPHeader.parse (NetParser.new buffer);
    Ok (mk h (NetParser.buffer p), NetParser.get_error p).

Definition length_in_sequence_space (s : t) : Z :=
  uint64 (len (Buffer.str (payload s)) + bool_to_Z (TCPHeader.syn (header s))
          + bool_to_Z (TCPHeader.fin (header s))).

Definition serialize (s : t) (datagram_layer_checksum : Z) : result BufferList.t :=
  let header_out := TCPHeader.set_cksum (_header s) 0 in
  let check := InternetChecksum.new datagram_layer_checksum in
  h0 ← TCPHeader.serialize header_out;
  let check := InternetChecksum.add check h0 in
  let check := InternetChecksum.add check (Buffer.str (_payload s)) in
  v ← InternetChecksum.value check;
  let header_out := TCPHeader.set_cksum header_out v in
  h1 ← TCPHeader.serialize header_out;
  let ret := BufferList.append BufferList.empty (BufferList.of_string h1) in
  Ok (BufferList.append ret (BufferList.of_buffer (_payload s))).

(** A segment the stack can put on the wire. *)
Record sendable (s : t) : Prop := {
  s_header : TCPHeader.valid (header s);
  s_doff : 5 <= TCPHeader.doff (header s) < 16;
  s_len : 4 * TCPHeader.doff (header s) + len (Buffer.str (payload s)) <= 65535 }.

(** What is on the wire: the header around its checksum, then the payload. *)
Definition wire (h : TCPHeader.t) (v : Z) (data : bytes) : bytes :=
  TCPHeader.before_cksum h ++ BigEndian.encode 2 v ++ TCPHeader.after_cksum h ++ data.

Lemma segment_len_wire h v data : 5 <= TCPHeader.doff h →
  len (wire h v data) = 4 * TCPHeader.doff h + len data.
Proof.
  intros. unfold wire. rewrite !len_app, TCPHeader.tcp_header_len_before_cksum, BigEndian.len_encode,
    TCPHeader.tcp_header_len_after_cksum by lia. lia.
Qed.

Lemma segment_serialize_wire s pseudo : sendable s → 0 <= pseudo < 0x100000 →
  ∃ v l, serialize s pseudo = Ok l ∧
    BufferList.concatenate l = wire (header s) v (Buffer.str (payload s)) ∧
    0 <= v < two16 ∧
    InternetChecksum.value (InternetChecksum.add (InternetChecksum.new pseudo)
      (BufferList.concatenate l)) = Ok 0.
Proof.
  intros [Hv Hd Hl] Hp. unfold header, payload in *.
  set (h := _header s) in *. set (data := Buffer.str (_payload s)) in *.
  destruct (InternetChecksum.value_zero_fill (InternetChecksum.new pseudo) (TCPHeader.before_cksum h)
    (TCPHeader.after_cksum h ++ data)) as (v & E1 & Hr & E2); [simpl; lia | done | | |].
  { unfold InternetChecksum.odd_len. by rewrite TCPHeader.tcp_header_len_before_cksum. }
  { pose proof (InternetChecksum.weight_range (wire h 0 data) false) as Hw.
    rewrite segment_len_wire in Hw by lia. unfold wire in Hw. cbn [InternetChecksum.new InternetChecksum._sum]. lia. }
  exists v. eexists. split.
  - unfold serialize. fold h. rewrite TCPHeader.tcp_header_serialize_eq, result_bind_ok by (simpl; lia).
    fold data. rewrite <- InternetChecksum.add_app. simpl TCPHeader.cksum.
    rewrite <- !app_assoc.
    change (TCPHeader.before_cksum (TCPHeader.set_cksum h 0)) with (TCPHeader.before_cksum h).
    change (TCPHeader.after_cksum (TCPHeader.set_cksum h 0)) with (TCPHeader.after_cksum h).
    rewrite E1, result_bind_ok, TCPHeader.tcp_header_serialize_eq, result_bind_ok by (simpl; lia). reflexivity.
  - rewrite !BufferList.concatenate_append, BufferList.concatenate_string.
    unfold BufferList.of_buffer. rewrite BufferList.concatenate_cons. simpl TCPHeader.cksum. fold data.
    replace (BufferList.concatenate BufferList.empty) with (@nil byte) by done.
    replace (BufferList.concatenate []) with (@nil byte) by done. rewrite app_nil_r, app_nil_l.
    rewrite <- !app_assoc. done.
Qed.

Lemma segment_parse_total s b ck : Buffer.wf b → 0 <= ck < two32 →
  ∃ s' r, parse s b ck = Ok (s', r) ∧ (r = NoError → Buffer.wf (payload s') ∧
    0 <= TCPHeader.sport (header s') < two16 ∧ 0 <= TCPHeader.dport (header s') < two16).
Proof.
  intros Hb Hc. unfold parse.
  destruct (InternetChecksum.value_total (InternetChecksum.new ck) (Buffer.str b)) as [v ->]; [done|].
  rewrite result_bind_ok. destruct (negb _); [by eexists _, _; split; [done|]|].
  destruct (TCPHeader.tcp_header_parse_total _ _ _ (ParserFacts.after_new b Hb)) as (h & p & r & -> & Hp & Hs & Hd).
  rewrite result_bind_ok. eexists _, _. by split; [done|].
Qed.

(** A buffer that holds a serialized segment parses to it. *)
Lemma segment_parse_wire s s0 pseudo b : sendable s → 0 <= pseudo < 0x100000 → Buffer.wf b →
  (∀ l, serialize s pseudo = Ok l → Buffer.str b = BufferList.concatenate l) →
  ∃ v s', parse s0 b pseudo = Ok (s', NoError) ∧ 0 <= v < two16 ∧
    header s' = TCPHeader.set_cksum (header s) v ∧ Buffer.str (payload s') = Buffer.str (payload s) ∧
    Buffer.wf (payload s').
Proof.
  intros Hs Hp Hb Hbuf. destruct (segment_serialize_wire s pseudo Hs Hp) as (v & l & E & Hw & Hv & Hc).
  specialize (Hbuf l E). destruct Hs as [Hh Hd Hl]. exists v.
  destruct (TCPHeader.tcp_header_parse_reads (TCPHeader.set_cksum (header s) v) (NetParser.new b) (Buffer.str (payload s)))
    as (p & Ep & He & Hwf & Hst).
  - destruct Hh. by constructor.
  - done.
  - split; [done|]. split; [done|]. simpl. by rewrite Hbuf, Hw.
  - exists (mk (TCPHeader.set_cksum (header s) v) (NetParser.buffer p)). split; [|split; [done | split; [done | split; [exact Hst | exact Hwf]]]].
    unfold parse. rewrite Hbuf, Hc, result_bind_ok, Ep. cbn. unfold NetParser.get_error. by rewrite He.
Qed.

Lemma segment_len_serialized s pseudo l : sendable s → 0 <= pseudo < 0x100000 → serialize s pseudo = Ok l →
  len (BufferList.concatenate l) = 4 * TCPHeader.doff (header s) + len (Buffer.str (payload s)).
Proof.
  intros Hs Hp E. destruct (segment_serialize_wire s pseudo Hs Hp) as (v & l' & E' & Hw & _). rewrite E in E'.
  injection E' as <-. rewrite Hw. apply segment_len_wire. destruct Hs. lia.
Qed.

(** C32: A TCP segment survives the wire: for every header with values of its
    fields' types and a data offset between 5 and 15, and every payload that
    fits an IPv4 datagram, [serialize] succeeds, and [parse] of the
    concatenated buffers with the same pseudo-header checksum accepts it and
    gives the header, with the checksum filled in, and the payload. *)
Theorem segment_roundtrip (s s0 : t) (pseudo : Z) :
  sendable s → 0 <= pseudo < 0x100000 →
  ∃ l v s', serialize s pseudo = Ok l ∧
    parse s0 (Buffer.of_string (BufferList.concatenate l)) pseudo = Ok (s', NoError) ∧
    header s' = TCPHeader.set_cksum (header s) v ∧
    Buffer.str (payload s') = Buffer.str (payload s).
Proof.
  intros Hs Hp. destruct (segment_serialize_wire s pseudo Hs Hp) as (v0 & l & E & _).
  pose proof (segment_len_serialized s pseudo l Hs Hp E) as Hlen.
  destruct (segment_parse_wire s s0 pseudo (Buffer.of_string (BufferList.concatenate l)) Hs Hp) as (v & s' & Ep & _ & Hh & Hd & _).
  - apply Buffer.wf_of_string. destruct Hs. lia.
  - intros l' E'. rewrite E in E'. by injection E' as <-.
  - by exists l, v, s'.
Qed.

(** C33: A segment damaged in one byte on the way, wherever the byte is, is
    refused with [BadChecksum], and the previous contents of the segment
    object are kept. *)
Theorem segment_rejects_corruption (s s0 : t) (pseudo : Z) :
  sendable s → 0 <= pseudo < 0x100000 →
  ∃ l, serialize s pseudo = Ok l ∧
    ∀ a x y b, BufferList.concatenate l = a ++ x :: b → x ≠ y →
      parse s0 (Buffer.of_string (a ++ y :: b)) pseudo = Ok (s0, BadChecksum).
Proof.
  intros Hs Hp. destruct (segment_serialize_wire s pseudo Hs Hp) as (v & l & E & Hw & Hv & Hc).
  destruct Hs as [Hh Hd Hl]. exists l. split; [done|]. intros a x y b Hsplit Hxy.
  assert (len a + 1 + len b <= 65535) as Hlen.
  { pose proof (f_equal len Hw) as El. rewrite segment_len_wire, Hsplit, len_app, len_cons in El by lia. lia. }
  rewrite Hsplit in Hc.
  destruct (InternetChecksum.corruption_noticed pseudo a b x y Hp Hlen Hxy Hc) as (w & Ew & Hw0).
  unfold parse. rewrite Buffer.str_of_string, Ew, result_bind_ok. case_test; [lia | done].
Qed.

Definition demo : t := mk TCPHeader.demo (Buffer.of_string [x68; x69; x21]).

Lemma segment_demo_sendable : sendable demo.
Proof.
  constructor; [constructor; simpl; unfold WrappingInt32.valid; simpl; lia | simpl; lia |].
  unfold len; simpl; lia.
Qed.

Lemma segment_roundtrip_witness :
  ∃ l v s', serialize demo 0x1234 = Ok l ∧
    parse new (Buffer.of_string (BufferList.concatenate l)) 0x1234 = Ok (s', NoError) ∧
    header s' = TCPHeader.set_cksum (header demo) v ∧
    Buffer.str (payload s') = Buffer.str (payload demo).
Proof. apply (segment_roundtrip demo new 0x1234); [apply segment_demo_sendable | lia]. Defined.

Lemma segment_rejects_corruption_witness :
  ∃ l, serialize demo 0x1234 = Ok l ∧
    ∀ a x y b, BufferList.concatenate l = a ++ x :: b → x ≠ y →
      parse demo (Buffer.of_string (a ++ y :: b)) 0x1234 = Ok (demo, BadChecksum).
Proof. apply (segment_rejects_corruption demo demo 0x1234); [apply segment_demo_sendable | lia]. Defined.

(** [parse] discards what [TCPHeader::parse] returns, so a header whose data
    offset is below the minimum of five words is refused by
    [TCPHeader::parse] and accepted by [TCPSegment::parse]. *)
Theorem short_doff_accepted :
  ∃ b h p s, TCPHeader.parse (NetParser.new b) = Ok (h, p, HeaderTooShort) ∧
    parse new b 0 = Ok (s, NoError) ∧ TCPHeader.doff (header s) = 4.
Proof.
  set (s16 := replicate 12 x00 ++ [x40; x00; x00; x00] ++ [xbf; xff; x00; x00]).
  exists (Buffer.of_string s16). do 3 eexists. split; [vm_compute; reflexivity|].
  split; [vm_compute; reflexivity|]. reflexivity.
Qed.

End TCPSegment.
