(* ===== verification/ipv4.v ===== *)
(** * IPv4 headers and datagrams
    (src/lab/libsponge/tcp_helpers/ipv4_header.hh, .cc, ipv4_datagram.hh, .cc)

    [datagram_roundtrip] says that a serialized datagram parses back, with a
    header checksum that verifies; [bad_ip_header_accepted] that the result
    of the header parser is not used by the datagram parser. *)

From S2P Require Import Prelude buffer parser util.

Module IPv4Header.

Definition LENGTH : Z := 20.
Definition DEFAULT_TTL : Z := 128.
Definition PROTO_TCP : Z := 6.

(** The field [len] of the source is [len_] here. *)
Record t := mk {
  ver : Z; hlen : Z; tos : Z; len_ : Z; id : Z;
  df : bool; mf : bool; offset : Z;
  ttl : Z; proto : Z; cksum : Z; src : Z; dst : Z }.

Definition new : t := mk 4 (LENGTH / 4) 0 0 0 true false 0 DEFAULT_TTL PROTO_TCP 0 0 0.

#[global] Instance IPv4Header_eq_dec : EqDecision t.
Proof. solve_decision. Defined.

Definition set_len (h : t) x := mk (ver h) (hlen h) (tos h) x (id h) (df h) (mf h) (offset h) (ttl h) (proto h) (cksum h) (src h) (dst h).
Definition set_ttl (h : t) x := mk (ver h) (hlen h) (tos h) (len_ h) (id h) (df h) (mf h) (offset h) x (proto h) (cksum h) (src h) (dst h).
Definition set_cksum (h : t) x := mk (ver h) (hlen h) (tos h) (len_ h) (id h) (df h) (mf h) (offset h) (ttl h) (proto h) x (src h) (dst h).
Definition set_src (h : t) x := mk (ver h) (hlen h) (tos h) (len_ h) (id h) (df h) (mf h) (offset h) (ttl h) (proto h) (cksum h) x (dst h).
Definition set_dst (h : t) x := mk (ver h) (hlen h) (tos h) (len_ h) (id h) (df h) (mf h) (offset h) (ttl h) (proto h) (cksum h) (src h) x.

Definition parse (h : t) (p : NetParser.t) : result (t * NetParser.t * ParseResult) :=
  let original_serialized_version := NetParser.buffer p in
  let data_size := Buffer.size (NetParser.buffer p) in
  if data_size <? LENGTH then Ok (h, p, PacketTooShort)
  else
    '(p, first_byte) ← NetParser.u8 p;
    let ver := Z.shiftr first_byte 4 in
    let hlen := Z.land first_byte 0x0f in
    '(p, tos) ← NetParser.u8 p;
    '(p, len_) ← NetParser.u16 p;
    '(p, id) ← NetParser.u16 p;
    '(p, fo_val) ← NetParser.u16 p;
    let df := negb (Z.land fo_val 0x4000 =? 0) in
    let mf := negb (Z.land fo_val 0x2000 =? 0) in
    let offset := Z.land fo_val 0x1fff in
    '(p, ttl) ← NetParser.u8 p;
    '(p, proto) ← NetParser.u8 p;
    '(p, cksum) ← NetParser.u16 p;
    '(p, src) ← NetParser.u32 p;
    '(p, dst) ← NetParser.u32 p;
    let h := mk ver hlen tos len_ id df mf offset ttl proto cksum src dst in
    if data_size <? 4 * hlen then Ok (h, p, PacketTooShort)
    else if negb (ver =? 4) then Ok (h, p, WrongIPVersion)
    else if hlen <? 5 then Ok (h, p, HeaderTooShort)
    else if negb (data_size =? len_) then Ok (h, p, TruncatedPacket)
    else
      p ← NetParser.remove_prefix p (hlen * 4 - LENGTH);
      if NetParser.error p then Ok (h, p, NetParser.get_error p)
      else
        let check := InternetChecksum.new 0 in
        let check := InternetChecksum.add check (ztake (4 * hlen) (Buffer.str original_serialized_version)) in
        v ← InternetChecksum.value check;
        if negb (v =? 0) then Ok (h, p, BadChecksum) else Ok (h, p, NoError).

(** Flags and fragment offset. *)
Definition fo_val (h : t) : Z :=
  Z.lor (Z.lor (if df h then 0x4000 else 0) (if mf h then 0x2000 else 0)) (Z.land (offset h) 0x1fff).

Definition serialize (h : t) : result bytes :=
  if negb (ver h =? 4) then Throw runtime_error
  else if 4 * hlen h <? LENGTH then Throw runtime_error
  else
    let ret := [] in
    let first_byte := uint8 (Z.lor (Z.shiftl (ver h) 4) (Z.land (hlen h) 0xf)) in
    let ret := NetUnparser.u8 ret first_byte in
    let ret := NetUnparser.u8 ret (tos h) in
    let ret := NetUnparser.u16 ret (len_ h) in
    let ret := NetUnparser.u16 ret (id h) in
    let ret := NetUnparser.u16 ret (fo_val h) in
    let ret := NetUnparser.u8 ret (ttl h) in
    let ret := NetUnparser.u8 ret (proto h) in
    let ret := NetUnparser.u16 ret (cksum h) in
    let ret := NetUnparser.u32 ret (src h) in
    let ret := NetUnparser.u32 ret (dst h) in
    Ok (resize ret (4 * hlen h)).

Definition payload_length (h : t) : Z := uint16 (len_ h - 4 * hlen h).

Definition pseudo_cksum (h : t) : Z :=
  let pcksum := uint32 (Z.shiftr (src h) 16 + Z.land (src h) 0xffff) in
  let pcksum := uint32 (pcksum + uint32 (Z.shiftr (dst h) 16 + Z.land (dst h) 0xffff)) in
  let pcksum := uint32 (pcksum + proto h) in
  uint32 (pcksum + payload_length h).

(** The fields are values of their types and fit their bits on the wire. *)
Record valid (h : t) : Prop := {
  v_ver : ver h = 4; v_hlen : 5 <= hlen h < 16; v_tos : 0 <= tos h < two8;
  v_len : 0 <= len_ h < two16; v_id : 0 <= id h < two16; v_offset : 0 <= offset h < 8192;
  v_ttl : 0 <= ttl h < two8; v_proto : 0 <= proto h < two8; v_cksum : 0 <= cksum h < two16;
  v_src : 0 <= src h < two32; v_dst : 0 <= dst h < two32 }.

Definition before_cksum (h : t) : bytes :=
  BigEndian.encode 1 (64 + hlen h) ++ BigEndian.encode 1 (tos h) ++ BigEndian.encode 2 (len_ h) ++
  BigEndian.encode 2 (id h) ++ BigEndian.encode 2 (fo_val h) ++ BigEndian.encode 1 (ttl h) ++
  BigEndian.encode 1 (proto h).
Definition after_cksum (h : t) : bytes :=
  BigEndian.encode 4 (src h) ++ BigEndian.encode 4 (dst h) ++
  replicate (Z.to_nat (4 * hlen h - LENGTH)) x00.

Lemma ip_header_len_before_cksum h : len (before_cksum h) = 10.
Proof. unfold before_cksum. by rewrite !len_app, !BigEndian.len_encode. Qed.

Lemma ip_header_len_after_cksum h : 5 <= hlen h → len (after_cksum h) = 4 * hlen h - 12.
Proof.
  intros. unfold after_cksum, LENGTH. rewrite !len_app, !BigEndian.len_encode, len_replicate; simpl; lia.
Qed.

(** The four low bits of the first byte. *)
Lemma first_byte_eq k : 0 <= k < 16 → Z.lor (Z.shiftl 4 4) (Z.land k 0xf) = 64 + k ∧
  Z.shiftr (64 + k) 4 = 4 ∧ Z.land (64 + k) 0x0f = k.
Proof.
  intros H. assert (In k (seqZ 0 16)) as Hin.
  { apply list_elem_of_In, elem_of_seqZ. lia. }
  clear H. revert k Hin. apply List.Forall_forall. repeat constructor.
Qed.

Lemma fo_val_bits h : 0 <= offset h < 8192 →
  negb (Z.land (fo_val h) 0x4000 =? 0) = df h ∧ negb (Z.land (fo_val h) 0x2000 =? 0) = mf h ∧
  Z.land (fo_val h) 0x1fff = offset h ∧ 0 <= fo_val h < two16.
Proof.
  intros H. unfold fo_val. rewrite !Z.land_lor_distr_l, <- !Z.land_assoc.
  assert (Z.land (offset h) 0x1fff = offset h) as Ho.
  { change 0x1fff with (Z.ones 13). rewrite Z.land_ones by lia. by apply Z.mod_small. }
  change (Z.land 0x1fff 0x4000) with 0. change (Z.land 0x1fff 0x2000) with 0.
  change (Z.land 0x1fff 0x1fff) with 0x1fff. rewrite !Z.land_0_r, Ho.
  assert (0 <= Z.lor (Z.lor (if df h then 0x4000 else 0) (if mf h then 0x2000 else 0)) (offset h) < two16).
  { split; [apply Z.lor_nonneg; split; [by destruct (df h), (mf h) | lia]|].
    apply (Z.log2_lt_cancel _ (2 ^ 16)). rewrite Z.log2_lor by (done || lia || by destruct (df h), (mf h)).
    apply Z.max_lub_lt; [by destruct (df h), (mf h)|].
    eapply Z.le_lt_trans; [apply (Z.log2_le_mono _ 8191); lia | done]. }
  destruct (df h), (mf h); simpl; done.
Qed.

Lemma ip_header_serialize_eq h : valid h →
  serialize h = Ok (before_cksum h ++ BigEndian.encode 2 (cksum h) ++ after_cksum h).
Proof.
  intros [Hv Hd _ _ _ _ _ _ _ _ _]. unfold serialize, LENGTH. rewrite Hv. simpl negb. cbv iota.
  case_test; [lia|]. f_equal.
  unfold NetUnparser.u8, NetUnparser.u16, NetUnparser.u32. rewrite !BigEndian.unparse_encode.
  rewrite (proj1 (first_byte_eq (hlen h) ltac:(lia))), uint8_id by lia.
  rewrite resize_pad; rewrite !len_app, !BigEndian.len_encode; [|unfold len; simpl; lia].
  unfold before_cksum, after_cksum, LENGTH. rewrite <- !app_assoc. by repeat f_equal.
Qed.

Lemma pseudo_cksum_range h : valid h → 0 <= pseudo_cksum h < 0x100000.
Proof.
  intros [_ _ _ _ _ _ _ Hp _ Hs Hd]. unfold pseudo_cksum. rewrite !InternetChecksum.halves.
  pose proof (uint16_range (len_ h - 4 * hlen h)) as Hl. fold (payload_length h) in Hl.
  assert (∀ a, 0 <= a < two32 → 0 <= a / 65536 + a mod 65536 < 131072) as Ha.
  { intros a Hr. pose proof (Z.mod_pos_bound a 65536 ltac:(lia)).
    assert (a / 65536 < 65536) by (apply Z.div_lt_upper_bound; lia).
    assert (0 <= a / 65536) by (apply Z.div_pos; lia). lia. }
  pose proof (Ha _ Hs). pose proof (Ha _ Hd). word_lia.
Qed.

Lemma ip_header_parse_reads h h0 p rest : valid h → len_ h = 4 * hlen h + len rest →
  InternetChecksum.value (InternetChecksum.add (InternetChecksum.new 0)
    (before_cksum h ++ BigEndian.encode 2 (cksum h) ++ after_cksum h)) = Ok 0 →
  ParserFacts.reads p (before_cksum h ++ BigEndian.encode 2 (cksum h) ++ after_cksum h ++ rest) →
  ∃ p', parse h0 p = Ok (h, p', NoError) ∧ ParserFacts.reads p' rest.
Proof.
  intros Hv Hl Hc Hr. destruct Hv as [Hver Hd ? ? ? ? ? ? ? ? ?].
  assert (Buffer.size (NetParser.buffer p) = len_ h) as Hsz.
  { destruct Hr as (_ & _ & Hs). unfold Buffer.size, NetParser.buffer. rewrite Hs.
    rewrite !len_app, ip_header_len_before_cksum, BigEndian.len_encode, ip_header_len_after_cksum by lia. lia. }
  assert (ztake (4 * hlen h) (Buffer.str (NetParser.buffer p))
    = before_cksum h ++ BigEndian.encode 2 (cksum h) ++ after_cksum h) as Ht.
  { destruct Hr as (_ & _ & Hs). unfold NetParser.buffer. rewrite Hs.
    replace (4 * hlen h) with (len (before_cksum h ++ BigEndian.encode 2 (cksum h) ++ after_cksum h)).
    - rewrite !app_assoc. rewrite <- (app_assoc _ (BigEndian.encode 2 (cksum h)) (after_cksum h)). apply ztake_app.
    - rewrite !len_app, ip_header_len_before_cksum, BigEndian.len_encode, ip_header_len_after_cksum by lia. lia. }
  destruct (first_byte_eq (hlen h) ltac:(lia)) as (_ & Fv & Fh).
  destruct (fo_val_bits h) as (F1 & F2 & F3 & ?); [done|].
  pose proof (len_nonneg rest). unfold parse. rewrite Hsz. case_test; [unfold LENGTH in *; lia|].
  rewrite <- Ht in Hc. revert Hc. generalize (NetParser.buffer p). intros orig Hc.
  revert Hr. unfold before_cksum, after_cksum. rewrite <- !app_assoc. intros Hr.
  parse_fields Hr. rewrite Fv, Fh, F1, F2, F3. simpl negb. cbv iota.
  rewrite Z.eqb_refl. simpl negb. cbv iota. repeat (case_test; [lia|]).
  destruct (ParserFacts.remove_prefix_reads _ _ (hlen h * 4 - LENGTH) Hr) as (p' & -> & Hr').
  { rewrite len_app, len_replicate; unfold LENGTH; lia. }
  rewrite result_bind_ok, (ParserFacts.reads_no_error _ _ Hr'). rewrite Hc, result_bind_ok.
  simpl negb. cbv iota. exists p'. split; [destruct h; simpl in *; by subst|].
  revert Hr'. rewrite <- (len_replicate (hlen h * 4 - LENGTH) x00) at 1 by (unfold LENGTH; lia).
  replace (4 * hlen h) with (hlen h * 4) by lia. by rewrite zdrop_app.
Qed.

(** The addresses and the protocol are values of their types. *)
Definition in_range (h : t) : Prop :=
  0 <= src h < two32 ∧ 0 <= dst h < two32 ∧ 0 <= proto h < two8 ∧ 0 <= ttl h < two8.

(** Any bytes: the parser returns, with a result code. *)
Lemma ip_header_parse_total h p s k : ParserFacts.after p s k → in_range h →
  ∃ h' p' r, parse h p = Ok (h', p', r) ∧ Buffer.wf (NetParser.buffer p') ∧ in_range h'.
Proof.
  assert (∀ h' p' j (r : ParseResult), ParserFacts.after p' s j → in_range h' →
    ∃ h1 p1 r1, Ok (h', p', r) = Ok (h1, p1, r1) ∧ Buffer.wf (NetParser.buffer p1) ∧ in_range h1) as G.
  { intros h' p' j r [Hw _] ?. by exists h', p', r. }
  intros H Hh. unfold parse. case_test; [by apply (G _ _ k)|].
  parse_any H. match goal with |- context [mk ?a ?b ?c ?d ?e ?f ?g ?h ?i ?j ?k ?l ?m] =>
    set (h' := mk a b c d e f g h i j k l m); assert (in_range h') as Hr by done end.
  destruct (_ <? 4 * _); [by eapply G|]. destruct (negb (Z.shiftr _ _ =? _)); [by eapply G|].
  destruct (Z.ltb_spec (Z.land v 0x0f) 5); [by eapply G|]. destruct (negb (_ =? v1)); [by eapply G|].
  match goal with |- context [NetParser.remove_prefix ?q ?n] =>
    destruct (ParserFacts.remove_prefix_after q s _ n H) as (q' & -> & Hq) end; [unfold LENGTH; lia|].
  rewrite result_bind_ok. destruct (NetParser.error q'); [by eapply G|].
  match goal with |- context [InternetChecksum.value (InternetChecksum.add _ ?d)] =>
    destruct (InternetChecksum.value_total (InternetChecksum.new 0) d) as [w ->] end; [done|].
  rewrite result_bind_ok. destruct (negb (w =? 0)); by eapply G.
Qed.

(** The verdict on a header of another version is never [NoError]. *)
Lemma other_version_refused h p s k h' p' r : ParserFacts.after p s k → ver h = 4 →
  parse h p = Ok (h', p', r) → ver h' ≠ 4 → r ≠ NoError.
Proof.
  intros H Hv. unfold parse. case_test; [by intros [= <- _ _]|]. parse_any H.
  match goal with |- context [mk ?a ?b ?c ?d ?e ?f ?g ?h ?i ?j ?k ?l ?m] => set (h1 := mk a b c d e f g h i j k l m) end.
  destruct (_ <? 4 * _); [by intros [= _ _ <-]|].
  destruct (Z.eqb_spec (Z.shiftr v 4) 4) as [E|E]; simpl negb; cbv iota; [|by intros [= _ _ <-]].
  assert (ver h1 = 4) as Eh by done. intros Ep Hne. exfalso. revert Ep. destruct (_ <? 5); [by intros [= <- _ _]|].
  destruct (negb (_ =? v1)); [by intros [= <- _ _]|].
  destruct (NetParser.remove_prefix _ _) as [q|]; [|done]. rewrite result_bind_ok.
  destruct (NetParser.error q); [by intros [= <- _ _]|].
  destruct (InternetChecksum.value _) as [w|]; [|done]. rewrite result_bind_ok.
  destruct (negb (w =? 0)); by intros [= <- _ _].
Qed.

End IPv4Header.

Module IPv4Datagram.

Record t := mk { _header : IPv4Header.t; _payload : BufferList.t }.

Definition new : t := mk IPv4Header.new BufferList.empty.
Definition header (d : t) : IPv4Header.t := _header d.
Definition payload (d : t) : BufferList.t := _payload d.
Definition set_header (d : t) (h : IPv4Header.t) : t := mk h (_payload d).
Definition set_payload (d : t) (l : BufferList.t) : t := mk (_header d) l.

(** The result of [_header.parse] is discarded. *)
Definition parse (d : t) (buffer : Buffer.t) : result (t * ParseResult) :=
  '(h, p, _) ← IPv4Header.parse (_header d) (NetParser.new buffer);
  let d := mk h (BufferList.of_buffer (NetParser.buffer p)) in
  if negb (BufferList.size (_payload d) =? IPv4Header.payload_length (_header d))
  then Ok (d, PacketTooShort)
  else Ok (d, NetParser.get_error p).

Definition serialize (d : t) : result BufferList.t :=
  if negb (BufferList.size (_payload d) =? IPv4Header.payload_length (_header d))
  then Throw runtime_error
  else
    let header_out := IPv4Header.set_cksum (_header d) 0 in
    header_zero_checksum ← IPv4Header.serialize header_out;
    let check := InternetChecksum.new 0 in
    let check := InternetChecksum.add check header_zero_checksum in
    v ← InternetChecksum.value check;
    let header_out := IPv4Header.set_cksum header_out v in
    h1 ← IPv4Header.serialize header_out;
    let ret := BufferList.append BufferList.empty (BufferList.of_string h1) in
    Ok (BufferList.append ret (_payload d)).

(** A datagram the stack can put on the wire: the length field counts header
    and payload. *)
Record sendable (d : t) : Prop := {
  s_header : IPv4Header.valid (header d);
  s_len : IPv4Header.len_ (header d)
          = 4 * IPv4Header.hlen (header d) + len (BufferList.concatenate (payload d)) }.

Lemma sendable_payload_length d : sendable d →
  BufferList.size (payload d) = IPv4Header.payload_length (header d) ∧
  IPv4Header.payload_length (header d) = len (BufferList.concatenate (payload d)).
Proof.
  intros [[] Hl]. pose proof (len_nonneg (BufferList.concatenate (payload d))).
  rewrite BufferList.size_concatenate by lia. unfold IPv4Header.payload_length. rewrite Hl.
  rewrite uint16_id; lia.
Qed.

(** The bytes of the serialized datagram, with a header checksum that verifies. *)
Lemma datagram_serialize_wire d : sendable d →
  ∃ v l, serialize d = Ok l ∧ 0 <= v < two16 ∧
    let h := IPv4Header.set_cksum (header d) v in
    let hdr := IPv4Header.before_cksum h ++ BigEndian.encode 2 v ++ IPv4Header.after_cksum h in
    BufferList.concatenate l = hdr ++ BufferList.concatenate (payload d) ∧
    InternetChecksum.value (InternetChecksum.add (InternetChecksum.new 0) hdr) = Ok 0.
Proof.
  intros Hs. destruct (sendable_payload_length d Hs) as [Hl _]. destruct Hs as [Hv _].
  unfold header, payload in *. set (h := _header d) in *.
  assert (∀ v, 0 <= v < two16 → IPv4Header.valid (IPv4Header.set_cksum h v)) as Hvc.
  { intros v Hr. destruct Hv. by constructor. }
  destruct Hv as [_ Hd _ _ _ _ _ _ _ _ _].
  destruct (InternetChecksum.value_zero_fill (InternetChecksum.new 0) (IPv4Header.before_cksum h)
    (IPv4Header.after_cksum h)) as (v & E1 & Hr & E2); [done | done | | |].
  { unfold InternetChecksum.odd_len. by rewrite IPv4Header.ip_header_len_before_cksum. }
  { pose proof (InternetChecksum.weight_range
      (IPv4Header.before_cksum h ++ BigEndian.encode 2 0 ++ IPv4Header.after_cksum h) false) as Hw.
    rewrite !len_app, IPv4Header.ip_header_len_before_cksum, BigEndian.len_encode, IPv4Header.ip_header_len_after_cksum in Hw by lia.
    cbn [InternetChecksum.new InternetChecksum._sum]. lia. }
  exists v. eexists. split; [|split; [done|]].
  - unfold serialize. fold h. rewrite Hl, Z.eqb_refl. simpl negb. cbv iota.
    rewrite IPv4Header.ip_header_serialize_eq, result_bind_ok by (apply Hvc; lia).
    change (IPv4Header.before_cksum (IPv4Header.set_cksum h 0)) with (IPv4Header.before_cksum h).
    change (IPv4Header.after_cksum (IPv4Header.set_cksum h 0)) with (IPv4Header.after_cksum h).
    simpl IPv4Header.cksum. rewrite E1, result_bind_ok.
    rewrite IPv4Header.ip_header_serialize_eq, result_bind_ok by (apply (Hvc v); lia). reflexivity.
  - cbv zeta. rewrite !BufferList.concatenate_append, BufferList.concatenate_string. done.
Qed.

(** A buffer that holds a serialized datagram parses to it. *)
Lemma datagram_parse_wire d d0 b : sendable d → Buffer.wf b →
  (∀ l, serialize d = Ok l → Buffer.str b = BufferList.concatenate l) →
  ∃ v d', parse d0 b = Ok (d', NoError) ∧ header d' = IPv4Header.set_cksum (header d) v ∧ 0 <= v < two16 ∧
    BufferList.concatenate (payload d') = BufferList.concatenate (payload d) ∧
    ∃ p, IPv4Header.parse (header d0) (NetParser.new b) = Ok (header d', p, NoError).
Proof.
  intros Hs Hwf Hbuf. destruct (datagram_serialize_wire d Hs) as (v & l & E & Hv & Hw & Hc). specialize (Hbuf l E).
  destruct (sendable_payload_length d Hs) as [_ Hpl]. destruct Hs as [Hh Hl].
  set (h := IPv4Header.set_cksum (header d) v) in *.
  set (data := BufferList.concatenate (payload d)) in *.
  assert (IPv4Header.valid h) as Hvh by (destruct Hh; by constructor).
  destruct (IPv4Header.ip_header_parse_reads h (header d0) (NetParser.new b) data) as (p & Ep & He & Hb & Hs);
    [done | done | done | |].
  { split; [done|]. split; [done|]. simpl. by rewrite Hbuf, Hw, <- !app_assoc. }
  assert (BufferList.concatenate (BufferList.of_buffer (NetParser.buffer p)) = data) as Hcat.
  { unfold BufferList.of_buffer. rewrite BufferList.concatenate_cons.
    unfold NetParser.buffer. rewrite Hs. apply app_nil_r. }
  exists v, (mk h (BufferList.of_buffer (NetParser.buffer p))).
  split; [|split; [done | split; [done | split; [exact Hcat | by exists p]]]].
  unfold parse. fold (header d0). rewrite Ep. simpl.
  rewrite (BufferList.size_concatenate (BufferList.of_buffer _)); rewrite Hcat; [|destruct Hh; lia].
  change (IPv4Header.payload_length h) with (IPv4Header.payload_length (header d)).
  rewrite Hpl, Z.eqb_refl. simpl. unfold NetParser.get_error. by rewrite He.
Qed.

(** Any bytes: the parser returns, with a datagram of one buffer. *)
Lemma datagram_parse_total d b : Buffer.wf b → IPv4Header.in_range (header d) →
  ∃ d' r bf, parse d b = Ok (d', r) ∧ IPv4Header.in_range (header d') ∧
    payload d' = BufferList.of_buffer bf ∧ Buffer.wf bf.
Proof.
  intros H Hr. unfold parse.
  destruct (IPv4Header.ip_header_parse_total (_header d) _ _ _ (ParserFacts.after_new b H) Hr) as (h & p & r & -> & Hp & Hh).
  rewrite result_bind_ok. destruct (negb _); eexists _, _, _; (split; [done|]); by split.
Qed.

(** A datagram of another version cannot be serialized. *)
Lemma other_version_throws d : IPv4Header.ver (header d) ≠ 4 → serialize d = Throw runtime_error.
Proof.
  intros H. unfold serialize. destruct (negb _); [done|]. unfold IPv4Header.serialize.
  change (IPv4Header.ver (IPv4Header.set_cksum (_header d) 0)) with (IPv4Header.ver (header d)).
  by rewrite (proj2 (Z.eqb_neq _ _) H).
Qed.

(** A datagram that differs from a sendable one in the checksum of its header. *)
Lemma sendable_received d d' v : sendable d → 0 <= v < two16 →
  header d' = IPv4Header.set_cksum (header d) v →
  BufferList.concatenate (payload d') = BufferList.concatenate (payload d) →
  sendable d'.
Proof.
  intros [[] Hl] Hv Eh Ep. constructor; rewrite Eh; [by constructor|]. by rewrite Ep.
Qed.

Lemma datagram_len_serialized d l : sendable d → serialize d = Ok l →
  len (BufferList.concatenate l) = IPv4Header.len_ (header d).
Proof.
  intros Hs E. destruct (datagram_serialize_wire d Hs) as (v & l' & E' & _ & Hw & _). rewrite E in E'. injection E' as <-.
  destruct Hs as [[] Hl]. rewrite Hw, !len_app, BigEndian.len_encode, IPv4Header.ip_header_len_before_cksum,
    IPv4Header.ip_header_len_after_cksum by (simpl; lia).
  change (IPv4Header.hlen (IPv4Header.set_cksum (header d) v)) with (IPv4Header.hlen (header d)). lia.
Qed.

(** C34: An IPv4 datagram survives the wire: for every header with values that
    fit their fields, version 4, no less than five header words and a length
    field that counts header and payload, [serialize] succeeds, and [parse] of
    the concatenated buffers accepts it and gives the header, with the
    checksum filled in, and the payload.  [IPv4Header::parse] finds the header
    checksum to be right. *)
Theorem datagram_roundtrip (d d0 : t) :
  sendable d →
  ∃ l v d', serialize d = Ok l ∧
    let b := Buffer.of_string (BufferList.concatenate l) in
    parse d0 b = Ok (d', NoError) ∧
    header d' = IPv4Header.set_cksum (header d) v ∧
    BufferList.concatenate (payload d') = BufferList.concatenate (payload d) ∧
    ∃ p, IPv4Header.parse (header d0) (NetParser.new b) = Ok (header d', p, NoError).
Proof.
  intros Hs. destruct (datagram_serialize_wire d Hs) as (v0 & l & E & _).
  assert (len (BufferList.concatenate l) < two64) as Hlen.
  { rewrite (datagram_len_serialized d l Hs E). destruct Hs as [[] _]. lia. }
  destruct (datagram_parse_wire d d0 (Buffer.of_string (BufferList.concatenate l)) Hs) as (v & d' & Ep & Hh & _ & Hp & Hpp).
  - by apply Buffer.wf_of_string.
  - intros l' E'. rewrite E in E'. by injection E' as <-.
  - by exists l, v, d'.
Qed.

Definition demo : t :=
  mk (IPv4Header.mk 4 6 0 27 77 true false 5 64 6 0 0xc0a80001 0x0a000001)
     [Buffer.of_string [x68; x69]; Buffer.of_string [x21]].

Lemma datagram_demo_sendable : sendable demo.
Proof. constructor; [constructor; simpl; lia | reflexivity]. Qed.

Lemma datagram_roundtrip_witness :
  ∃ l v d', serialize demo = Ok l ∧
    let b := Buffer.of_string (BufferList.concatenate l) in
    parse new b = Ok (d', NoError) ∧
    header d' = IPv4Header.set_cksum (header demo) v ∧
    BufferList.concatenate (payload d') = BufferList.concatenate (payload demo) ∧
    ∃ p, IPv4Header.parse (header new) (NetParser.new b) = Ok (header d', p, NoError).
Proof. apply (datagram_roundtrip demo new). apply datagram_demo_sendable. Defined.

(** [IPv4Datagram::parse] discards what [IPv4Header::parse] returns: a
    datagram whose header checksum is wrong, and one whose version is not 4,
    are refused by the header parser and accepted by the datagram parser. *)
Theorem bad_ip_header_accepted :
  (∃ b h p d, IPv4Header.parse IPv4Header.new (NetParser.new b) = Ok (h, p, BadChecksum) ∧
    parse new b = Ok (d, NoError)) ∧
  (∃ b h p d, IPv4Header.parse IPv4Header.new (NetParser.new b) = Ok (h, p, WrongIPVersion) ∧
    parse new b = Ok (d, NoError)).
Proof.
  set (tail := [x00; x00; x14; x00; x00; x40; x00; x80; x06; x00; x00] ++ replicate 8 x00).
  split.
  - exists (Buffer.of_string (x45 :: tail)). do 3 eexists. split; vm_compute; reflexivity.
  - exists (Buffer.of_string (x65 :: tail)). do 3 eexists. split; vm_compute; reflexivity.
Qed.

End IPv4Datagram.
