(* ===== verification/ethernet.v ===== *)
(** * Ethernet frames and ARP messages (src/lab/libsponge/tcp_helpers/ethernet_header.hh, .cc,
    ethernet_frame.hh, .cc, arp_message.hh, .cc)

    The link-layer formats, with their round trips. *)

From S2P Require Import Prelude buffer parser.

(** [std::array<uint8_t, 6>]: six bytes. *)
Abbreviation EthernetAddress := (list byte).

Definition ETHERNET_BROADCAST : EthernetAddress := [xff; xff; xff; xff; xff; xff].

(** The loops [for (auto &byte : address) byte = p.u8()] and
    [for (auto &byte : address) NetUnparser::u8(ret, byte)]. *)
Fixpoint parse_address (n : nat) (p : NetParser.t) : result (NetParser.t * EthernetAddress) :=
  match n with
  | O => Ok (p, [])
  | S n =>
      '(p, v) ← NetParser.u8 p;
      '(p, rest) ← parse_address n p;
      Ok (p, byte_of v :: rest)
  end.
Definition unparse_address (ret : bytes) (address : EthernetAddress) : bytes :=
  foldl (λ ret b, NetUnparser.u8 ret (byte_val b)) ret address.

Lemma encode_byte b : BigEndian.encode 1 (byte_val b) = [b].
Proof. simpl. rewrite Z.shiftr_0_r. by rewrite byte_of_val. Qed.

Lemma unparse_address_app a : ∀ ret, unparse_address ret a = ret ++ a.
Proof.
  induction a as [|b a IH]; intros ret; [by rewrite app_nil_r|]. unfold unparse_address in *. simpl.
  rewrite IH. unfold NetUnparser.u8. rewrite BigEndian.unparse_encode, encode_byte, <- app_assoc. done.
Qed.

Lemma parse_address_reads n a : ∀ p rest, length a = n → ParserFacts.reads p (a ++ rest) →
  ∃ p', parse_address n p = Ok (p', a) ∧ ParserFacts.reads p' rest.
Proof.
  revert n. induction a as [|b a IH]; intros n p rest <- Hr; [by exists p|]. simpl parse_address.
  destruct (ParserFacts.u8_reads p (byte_val b) (a ++ rest)) as (p1 & -> & Hr1).
  - by rewrite encode_byte.
  - apply byte_val_range.
  - rewrite result_bind_ok. destruct (IH (length a) p1 rest eq_refl Hr1) as (p2 & -> & Hr2).
    exists p2. cbn. by rewrite byte_of_val.
Qed.

Lemma parse_address_after n : ∀ p s k, ParserFacts.after p s k →
  ∃ p' a, parse_address n p = Ok (p', a) ∧ ParserFacts.after p' s (k + Z.of_nat n) ∧ length a = n.
Proof.
  induction n as [|n IH]; intros p s k H; cbn [parse_address]; [rewrite Z.add_0_r; by do 2 eexists|].
  parse_any H. destruct (IH _ _ _ H) as (p' & a & -> & H' & Hl). do 2 eexists.
  split; [done|]. split; [|by simpl; rewrite Hl]. by replace (k + Z.of_nat (S n)) with (k + 1 + Z.of_nat n) by lia.
Qed.

Module EthernetHeader.

Definition LENGTH : Z := 14.
Definition TYPE_IPv4 : Z := 0x800.
Definition TYPE_ARP : Z := 0x806.

Record t := mk { dst : EthernetAddress; src : EthernetAddress; type : Z }.

Definition new : t := mk (replicate 6 x00) (replicate 6 x00) 0.

#[global] Instance EthernetHeader_eq_dec : EqDecision t.
Proof. solve_decision. Defined.

Definition parse (h : t) (p : NetParser.t) : result (t * NetParser.t * ParseResult) :=
  if Buffer.size (NetParser.buffer p) <? LENGTH then Ok (h, p, PacketTooShort)
  else
    '(p, dst) ← parse_address 6 p;
    '(p, src) ← parse_address 6 p;
    '(p, type) ← NetParser.u16 p;
    Ok (mk dst src type, p, NetParser.get_error p).

Definition serialize (h : t) : bytes :=
  let ret := [] in
  let ret := unparse_address ret (dst h) in
  let ret := unparse_address ret (src h) in
  NetUnparser.u16 ret (type h).

Record valid (h : t) : Prop := {
  v_dst : length (dst h) = 6%nat; v_src : length (src h) = 6%nat; v_type : 0 <= type h < two16 }.

Lemma eth_header_serialize_eq h : serialize h = dst h ++ src h ++ BigEndian.encode 2 (type h).
Proof.
  unfold serialize, NetUnparser.u16. rewrite BigEndian.unparse_encode, !unparse_address_app.
  by rewrite <- app_assoc.
Qed.

Lemma eth_header_parse_reads h h0 p rest : valid h → ParserFacts.reads p (serialize h ++ rest) →
  ∃ p', parse h0 p = Ok (h, p', NoError) ∧ ParserFacts.reads p' rest.
Proof.
  intros [Hd Hs Ht]. rewrite eth_header_serialize_eq, <- !app_assoc. intros Hr.
  assert (LENGTH <= Buffer.size (NetParser.buffer p)).
  { destruct Hr as (_ & _ & E). unfold Buffer.size, NetParser.buffer. rewrite E, !len_app.
    rewrite BigEndian.len_encode. pose proof (len_nonneg rest). unfold len, LENGTH in *. lia. }
  unfold parse. case_test; [lia|].
  destruct (parse_address_reads 6 (dst h) p _ Hd Hr) as (p1 & -> & Hr1). rewrite result_bind_ok.
  destruct (parse_address_reads 6 (src h) p1 _ Hs Hr1) as (p2 & -> & Hr2). rewrite result_bind_ok.
  parse_fields Hr2. destruct Hr2 as (He & Hr2). unfold NetParser.get_error. rewrite He.
  eexists. by destruct h.
Qed.

End EthernetHeader.

Module EthernetFrame.

Record t := mk { _header : EthernetHeader.t; _payload : BufferList.t }.

Definition new : t := mk EthernetHeader.new BufferList.empty.
Definition header (f : t) : EthernetHeader.t := _header f.
Definition payload (f : t) : BufferList.t := _payload f.

(** The result of [_header.parse] is discarded. *)
Definition parse (f : t) (buffer : Buffer.t) : result (t * ParseResult) :=
  '(h, p, _) ← EthernetHeader.parse (_header f) (NetParser.new buffer);
  Ok (mk h (BufferList.of_buffer (NetParser.buffer p)), NetParser.get_error p).

Definition serialize (f : t) : BufferList.t :=
  let ret := BufferList.append BufferList.empty (BufferList.of_string (EthernetHeader.serialize (_header f))) in
  BufferList.append ret (_payload f).

(** Any bytes: the parser returns a frame with one buffer. *)
Lemma frame_parse_total f b : Buffer.wf b →
  ∃ h bf r, parse f b = Ok (mk h (BufferList.of_buffer bf), r) ∧ Buffer.wf bf.
Proof.
  intros Hb. unfold parse, EthernetHeader.parse.
  pose proof (ParserFacts.after_new b Hb) as H.
  destruct (_ <? _); [by eexists _, _, _; split; [done|]|].
  destruct (parse_address_after 6 _ _ _ H) as (q1 & a1 & -> & Hr1 & _). rewrite result_bind_ok.
  destruct (parse_address_after 6 _ _ _ Hr1) as (q2 & a2 & -> & Hr2 & _). rewrite result_bind_ok.
  parse_any Hr2. eexists _, _, _. split; [done|]. apply Hr2.
Qed.

(** A serialized frame on the wire parses to a frame with one buffer. *)
Lemma parse_serialized f f0 :
  EthernetHeader.valid (header f) → len (BufferList.concatenate (payload f)) < two32 →
  ∃ b, parse f0 (Buffer.of_string (BufferList.concatenate (serialize f)))
       = Ok (mk (header f) (BufferList.of_buffer b), NoError) ∧
    Buffer.wf b ∧ Buffer.str b = BufferList.concatenate (payload f).
Proof.
  intros Hv Hl.
  assert (BufferList.concatenate (serialize f)
    = EthernetHeader.serialize (header f) ++ BufferList.concatenate (payload f)) as Hc.
  { unfold serialize. by rewrite !BufferList.concatenate_append, BufferList.concatenate_string. }
  destruct (EthernetHeader.eth_header_parse_reads (header f) (header f0)
    (NetParser.new (Buffer.of_string (BufferList.concatenate (serialize f))))
    (BufferList.concatenate (payload f)) Hv) as (p & Ep & He & Hw & Hs).
  { rewrite Hc. apply ParserFacts.reads_new. rewrite EthernetHeader.eth_header_serialize_eq, !len_app, BigEndian.len_encode.
    destruct Hv. unfold len in *. lia. }
  exists (NetParser.buffer p). split; [|done].
  unfold parse. fold (header f0). rewrite Ep. cbn. unfold NetParser.get_error. by rewrite He.
Qed.

(** An Ethernet frame survives the wire: a serialized frame parses back to
    its header and payload; and a buffer too short for an Ethernet header is
    nevertheless accepted without error, as a frame with the previous header
    and the whole buffer as its payload. *)
Theorem frame_roundtrip (f f0 : t) :
  EthernetHeader.valid (header f) → len (BufferList.concatenate (payload f)) < two32 →
  (∃ f', parse f0 (Buffer.of_string (BufferList.concatenate (serialize f))) = Ok (f', NoError) ∧
    header f' = header f ∧
    BufferList.concatenate (payload f') = BufferList.concatenate (payload f)) ∧
  ∀ short, len short < EthernetHeader.LENGTH →
    parse f0 (Buffer.of_string short)
    = Ok (mk (header f0) (BufferList.of_buffer (Buffer.of_string short)), NoError).
Proof.
  intros Hv Hl. split.
  - destruct (parse_serialized f f0 Hv Hl) as (b & E & _ & Hs).
    eexists. split; [exact E|]. split; [done|]. simpl. unfold BufferList.of_buffer.
    rewrite BufferList.concatenate_cons, Hs. apply app_nil_r.
  - intros short Hs. unfold parse, EthernetHeader.parse. simpl. unfold Buffer.size. rewrite Buffer.str_of_string.
    case_test; [done | lia].
Qed.

Definition demo : t :=
  mk (EthernetHeader.mk ETHERNET_BROADCAST [x02; x00; x00; x00; x00; x01] EthernetHeader.TYPE_ARP)
     [Buffer.of_string [x68; x69]].

Lemma frame_roundtrip_witness :
  (∃ f', parse new (Buffer.of_string (BufferList.concatenate (serialize demo))) = Ok (f', NoError) ∧
    header f' = header demo ∧
    BufferList.concatenate (payload f') = BufferList.concatenate (payload demo)) ∧
  ∀ short, len short < EthernetHeader.LENGTH →
    parse new (Buffer.of_string short)
    = Ok (mk (header new) (BufferList.of_buffer (Buffer.of_string short)), NoError).
Proof.
  apply (frame_roundtrip demo new);
    [constructor; [reflexivity.. | simpl; unfold EthernetHeader.TYPE_ARP; lia] | vm_compute; reflexivity].
Defined.

End EthernetFrame.

Module ARPMessage.

Definition LENGTH : Z := 28.
Definition TYPE_ETHERNET : Z := 1.
Definition OPCODE_REQUEST : Z := 1.
Definition OPCODE_REPLY : Z := 2.

Record t := mk {
  hardware_type : Z; protocol_type : Z;
  hardware_address_size : Z; protocol_address_size : Z; opcode : Z;
  sender_ethernet_address : EthernetAddress; sender_ip_address : Z;
  target_ethernet_address : EthernetAddress; target_ip_address : Z }.

(** [ARPMessage arp;]: Ethernet and IPv4, everything else zero. *)
Definition new : t :=
  mk TYPE_ETHERNET EthernetHeader.TYPE_IPv4 6 4 0 (replicate 6 x00) 0 (replicate 6 x00) 0.

#[global] Instance ARPMessage_eq_dec : EqDecision t.
Proof. solve_decision. Defined.

Definition supported (m : t) : bool :=
  (hardware_type m =? TYPE_ETHERNET) && (protocol_type m =? EthernetHeader.TYPE_IPv4) &&
  (hardware_address_size m =? 6) && (protocol_address_size m =? 4) &&
  ((opcode m =? OPCODE_REQUEST) || (opcode m =? OPCODE_REPLY)).

Definition parse (m : t) (buffer : Buffer.t) : result (t * ParseResult) :=
  let p := NetParser.new buffer in
  if Buffer.size (NetParser.buffer p) <? LENGTH then Ok (m, PacketTooShort)
  else
    '(p, hardware_type) ← NetParser.u16 p;
    '(p, protocol_type) ← NetParser.u16 p;
    '(p, hardware_address_size) ← NetParser.u8 p;
    '(p, protocol_address_size) ← NetParser.u8 p;
    '(p, opcode) ← NetParser.u16 p;
    let m := mk hardware_type protocol_type hardware_address_size protocol_address_size opcode
                (sender_ethernet_address m) (sender_ip_address m)
                (target_ethernet_address m) (target_ip_address m) in
    if negb (supported m) then Ok (m, Unsupported)
    else
      '(p, sender_eth) ← parse_address 6 p;
      '(p, sender_ip) ← NetParser.u32 p;
      '(p, target_eth) ← parse_address 6 p;
      '(p, target_ip) ← NetParser.u32 p;
      Ok (mk hardware_type protocol_type hardware_address_size protocol_address_size opcode
             sender_eth sender_ip target_eth target_ip,
          NetParser.get_error p).

Definition serialize (m : t) : result bytes :=
  if negb (supported m) then Throw runtime_error
  else
    let ret := [] in
    let ret := NetUnparser.u16 ret (hardware_type m) in
    let ret := NetUnparser.u16 ret (protocol_type m) in
    let ret := NetUnparser.u8 ret (hardware_address_size m) in
    let ret := NetUnparser.u8 ret (protocol_address_size m) in
    let ret := NetUnparser.u16 ret (opcode m) in
    let ret := unparse_address ret (sender_ethernet_address m) in
    let ret := NetUnparser.u32 ret (sender_ip_address m) in
    let ret := unparse_address ret (target_ethernet_address m) in
    Ok (NetUnparser.u32 ret (target_ip_address m)).

Record valid (m : t) : Prop := {
  v_sender : length (sender_ethernet_address m) = 6%nat;
  v_target : length (target_ethernet_address m) = 6%nat;
  v_sender_ip : 0 <= sender_ip_address m < two32;
  v_target_ip : 0 <= target_ip_address m < two32 }.

Lemma supported_fields m : supported m = true →
  hardware_type m = 1 ∧ protocol_type m = 0x800 ∧ hardware_address_size m = 6 ∧
  protocol_address_size m = 4 ∧ (opcode m = 1 ∨ opcode m = 2).
Proof.
  unfold supported, TYPE_ETHERNET, EthernetHeader.TYPE_IPv4, OPCODE_REQUEST, OPCODE_REPLY. intros H.
  rewrite !andb_true_iff, orb_true_iff, !Z.eqb_eq in H. tauto.
Qed.

(** The serialized message. *)
Definition wire (m : t) : bytes :=
  BigEndian.encode 2 (hardware_type m) ++ BigEndian.encode 2 (protocol_type m) ++
  BigEndian.encode 1 (hardware_address_size m) ++ BigEndian.encode 1 (protocol_address_size m) ++
  BigEndian.encode 2 (opcode m) ++ sender_ethernet_address m ++ BigEndian.encode 4 (sender_ip_address m) ++
  target_ethernet_address m ++ BigEndian.encode 4 (target_ip_address m).

Lemma arp_serialize_wire m : supported m = true → serialize m = Ok (wire m).
Proof.
  intros H. unfold serialize. rewrite H. simpl negb. cbv iota. f_equal.
  unfold NetUnparser.u8, NetUnparser.u16, NetUnparser.u32.
  rewrite ?BigEndian.unparse_encode, ?unparse_address_app, ?BigEndian.unparse_encode, ?unparse_address_app.
  rewrite <- !app_assoc. done.
Qed.

Lemma arp_len_wire m : valid m → len (wire m) = 28.
Proof. intros []. unfold wire. rewrite !len_app, !BigEndian.len_encode. unfold len. lia. Qed.

(** A buffer holding the message, possibly with trailing padding, parses to it. *)
Lemma arp_parse_wire m m0 b pad : valid m → supported m = true → Buffer.wf b →
  Buffer.str b = wire m ++ pad → parse m0 b = Ok (m, NoError).
Proof.
  intros Hv Hsup Hb Hs. assert (len (wire m) = 28) as Hl by by apply arp_len_wire.
  assert (ParserFacts.reads (NetParser.new b) (wire m ++ pad)) as Hr by done.
  destruct (supported_fields m Hsup) as (E1 & E2 & E3 & E4 & E5). destruct Hv as [H1 H2 H3 H4].
  unfold parse. unfold Buffer.size at 1, NetParser.buffer at 1. simpl NetParser._buffer. rewrite Hs, len_app.
  pose proof (len_nonneg pad). unfold LENGTH. case_test; [lia|].
  revert Hr. unfold wire. rewrite <- !app_assoc. intros Hr.
  parse_fields Hr.
  replace (supported _) with true by (rewrite <- Hsup; by destruct m). simpl negb. cbv iota.
  destruct (parse_address_reads 6 _ _ _ H1 Hr) as (q1 & -> & Hr1). rewrite result_bind_ok.
  parse_fields Hr1.
  destruct (parse_address_reads 6 _ _ _ H2 Hr1) as (q2 & -> & Hr2). rewrite result_bind_ok.
  parse_fields Hr2. destruct Hr2 as (He & _). unfold NetParser.get_error. rewrite He. by destruct m.
Qed.

Lemma arp_parse_total m b : Buffer.wf b → ∃ m' r, parse m b = Ok (m', r) ∧
  (r = NoError → length (sender_ethernet_address m') = 6%nat ∧ 0 <= sender_ip_address m' < two32 ∧
     0 <= target_ip_address m' < two32).
Proof.
  intros Hb. pose proof (ParserFacts.after_new b Hb) as H.
  unfold parse. case_test; [by eexists _, _; split; [done|]|]. parse_any H.
  destruct (negb _); [by eexists _, _; split; [done|]|].
  destruct (parse_address_after 6 _ _ _ H) as (q1 & a1 & -> & Hr1 & Hl1). rewrite result_bind_ok. parse_any Hr1.
  destruct (parse_address_after 6 _ _ _ Hr1) as (q2 & a2 & -> & Hr2 & Hl2). rewrite result_bind_ok. parse_any Hr2.
  eexists _, _. by split; [done|].
Qed.

(** An ARP message survives the wire: a request or reply for Ethernet and
    IPv4 is serialized to 28 bytes that parse back to it, whatever padding
    follows; [serialize] of any other message throws. *)
Theorem arp_roundtrip (m m0 : t) (pad : bytes) :
  valid m → len pad < two32 →
  if supported m then
    ∃ s, serialize m = Ok s ∧ len s = LENGTH ∧
      parse m0 (Buffer.of_string (s ++ pad)) = Ok (m, NoError)
  else serialize m = Throw runtime_error.
Proof.
  intros Hv Hp. destruct (supported m) eqn:Hs; [|unfold serialize; by rewrite Hs].
  exists (wire m). rewrite arp_serialize_wire, arp_len_wire by done. split; [done|]. split; [done|].
  apply (arp_parse_wire m m0 _ pad); [done | done | | done].
  apply Buffer.wf_of_string. rewrite len_app, arp_len_wire by done. lia.
Qed.

Definition demo : t :=
  mk 1 0x800 6 4 OPCODE_REPLY [x02; x00; x00; x00; x00; x01] 0x0a000001 ETHERNET_BROADCAST 0x0a000002.

Lemma arp_roundtrip_witness :
  ∃ s, serialize demo = Ok s ∧ len s = LENGTH ∧
    parse new (Buffer.of_string (s ++ [x00; x00])) = Ok (demo, NoError).
Proof.
  apply (arp_roundtrip demo new [x00; x00]);
    [constructor; simpl; lia || reflexivity | unfold len; simpl; lia].
Defined.

End ARPMessage.
