(* ===== verification/wire_types.v ===== *)
(** * Types of what is parsed

    The integers of the headers are kept as [Z]; here is the proof that what the parsers produce
    always fits the C++ types of the fields, and for the fields that share a byte their number of bits, whatever bytes
    arrive and whichever error they return; and that the serializers of well-typed values produce the number of bytes
    that the header announces, or throw. *)

From stdpp Require Import strings.
From S2P Require Import Prelude wrapping_integers buffer parser util tcp_header tcp_segment ipv4 ethernet.

(** ** Well-typed headers *)

Record tcp_typed (h : TCPHeader.t) : Prop := {
  tcp_fields : TCPHeader.valid h;
  tcp_doff : 0 <= TCPHeader.doff h < 16 }.

Record ipv4_typed (h : IPv4Header.t) : Prop := {
  ip_ver : 0 <= IPv4Header.ver h < 16; ip_hlen : 0 <= IPv4Header.hlen h < 16;
  ip_tos : 0 <= IPv4Header.tos h < two8; ip_len : 0 <= IPv4Header.len_ h < two16;
  ip_id : 0 <= IPv4Header.id h < two16; ip_offset : 0 <= IPv4Header.offset h < 8192;
  ip_ttl : 0 <= IPv4Header.ttl h < two8; ip_proto : 0 <= IPv4Header.proto h < two8;
  ip_cksum : 0 <= IPv4Header.cksum h < two16;
  ip_src : 0 <= IPv4Header.src h < two32; ip_dst : 0 <= IPv4Header.dst h < two32 }.

Record arp_typed (m : ARPMessage.t) : Prop := {
  arp_hardware : 0 <= ARPMessage.hardware_type m < two16;
  arp_protocol : 0 <= ARPMessage.protocol_type m < two16;
  arp_hardware_size : 0 <= ARPMessage.hardware_address_size m < two8;
  arp_protocol_size : 0 <= ARPMessage.protocol_address_size m < two8;
  arp_opcode : 0 <= ARPMessage.opcode m < two16;
  arp_fields : ARPMessage.valid m }.

(** What is left of the buffer behind its first [k] bytes. *)
Definition rest_of (bf b : Buffer.t) (k : Z) : Prop :=
  Buffer.wf bf ∧ 0 <= k <= Buffer.size b ∧ Buffer.str bf = zdrop k (Buffer.str b).

(** The payload is the part of the buffer that follows its first [k] bytes. *)
Definition part_of (l : BufferList.t) (b : Buffer.t) (k : Z) : Prop :=
  ∃ bf, l = BufferList.of_buffer bf ∧ rest_of bf b k.

(** Where the payload of a TCP segment starts: a data offset below five words counts as five. *)
Definition tcp_payload_at (h : TCPHeader.t) : Z := 4 * Z.max 5 (TCPHeader.doff h).

(** Where the payload of [n] bytes of an IPv4 datagram starts: behind the options when the header passes the checks in front
    of the checksum's, behind the fixed fields when it does not, and at the
    first byte when not even they are there. *)
Definition ipv4_payload_at (h : IPv4Header.t) (n : Z) : Z :=
  if n <? IPv4Header.LENGTH then 0
  else if (4 * IPv4Header.hlen h <=? n) && (IPv4Header.ver h =? 4) && (5 <=? IPv4Header.hlen h) && (IPv4Header.len_ h =? n)
  then 4 * IPv4Header.hlen h
  else IPv4Header.LENGTH.

(** What [TCPSegment::parse] makes of an object [s] and a buffer: on a bad checksum the object stays as it was; else the
    outcome says whether the buffer has the bytes of the header, and the payload is what follows them. *)
Definition segment_outcome (s : TCPSegment.t) (b : Buffer.t) (s' : TCPSegment.t) (r : ParseResult) : Prop :=
  (r = BadChecksum ∧ s' = s) ∨
  if tcp_payload_at (TCPSegment.header s') <=? Buffer.size b
  then r = NoError ∧ rest_of (TCPSegment.payload s') b (tcp_payload_at (TCPSegment.header s'))
  else r = PacketTooShort ∧ ∃ j, rest_of (TCPSegment.payload s') b j.

(** [IPv4Datagram::parse]: the payload is what follows the header, and the only error that is reported
    is a payload that has not the length the header gives it. *)
Definition datagram_outcome (d : IPv4Datagram.t) (b : Buffer.t) (d' : IPv4Datagram.t) (r : ParseResult) : Prop :=
  part_of (IPv4Datagram.payload d') b (ipv4_payload_at (IPv4Datagram.header d') (Buffer.size b)) ∧
  (Buffer.size b < IPv4Header.LENGTH → IPv4Datagram.header d' = IPv4Datagram.header d) ∧
  (r = NoError ∨ r = PacketTooShort) ∧
  (r = NoError ↔ BufferList.size (IPv4Datagram.payload d') = IPv4Header.payload_length (IPv4Datagram.header d')).

(** [EthernetFrame::parse], which reports no error: the payload is what follows the fourteen bytes of the header; of a shorter buffer
    all bytes are payload, and the header stays. *)
Definition frame_outcome (f : EthernetFrame.t) (b : Buffer.t) (f' : EthernetFrame.t) : Prop :=
  (Buffer.size b < EthernetHeader.LENGTH → EthernetFrame.header f' = EthernetFrame.header f) ∧
  part_of (EthernetFrame.payload f') b (if Buffer.size b <? EthernetHeader.LENGTH then 0 else EthernetHeader.LENGTH).

(** ** Parsing *)

Lemma nibbles v : 0 <= v < two8 → 0 <= Z.shiftr v 4 < 16 ∧ 0 <= Z.land v 0x0f < 16.
Proof.
  intros H. change 0x0f with (Z.ones 4). rewrite Z.land_ones, Z.shiftr_div_pow2 by lia. change (2 ^ 4) with 16.
  split; [split; [apply Z.div_pos; lia | apply Z.div_lt_upper_bound; lia] | apply Z.mod_pos_bound; lia].
Qed.

Lemma low_bits v : 0 <= Z.land v 0x1fff < 8192.
Proof. change 0x1fff with (Z.ones 13). rewrite Z.land_ones by lia. apply Z.mod_pos_bound. lia. Qed.

Lemma after_rest p b k : ParserFacts.after p (Buffer.str b) k → k <= Buffer.size b →
  NetParser.get_error p = NoError ∧ rest_of (NetParser.buffer p) b k.
Proof.
  intros (Hw & Hk & H) Hl. unfold Buffer.size in Hl. destruct (Z.leb_spec k (len (Buffer.str b))); [|lia].
  destruct H as [He Hs]. by split; [|split].
Qed.

Lemma tcp_header_typed p s k : ParserFacts.after p s k →
  ∃ h p' r, TCPHeader.parse p = Ok (h, p', r) ∧ ParserFacts.after p' s (k + tcp_payload_at h) ∧ tcp_typed h.
Proof.
  intros H. unfold TCPHeader.parse. parse_any H.
  match goal with |- context [TCPHeader.mk ?a ?b ?c ?d ?e ?f ?g ?h ?i ?j ?k ?l ?m ?n] =>
    set (h' := TCPHeader.mk a b c d e f g h i j k l m n) end.
  assert (tcp_typed h') as Ht by (split; [by split | by apply nibbles]).
  match goal with H : ParserFacts.after _ s ?x |- _ => replace x with (k + 20) in H by lia end.
  assert (tcp_payload_at h' = 4 * Z.max 5 (Z.shiftr v3 4)) as Ea by done.
  destruct (Z.ltb_spec (Z.shiftr v3 4) 5).
  { eexists _, _, _. split; [done|]. split; [|done]. rewrite Ea. by replace (4 * _) with 20 by lia. }
  match goal with |- context [NetParser.remove_prefix ?q ?n] =>
    destruct (ParserFacts.remove_prefix_after q s _ n H) as (q' & -> & Hq) end; [unfold TCPHeader.LENGTH; lia|].
  match goal with Hq : ParserFacts.after _ s ?x |- _ =>
    replace x with (k + tcp_payload_at h') in Hq by (rewrite Ea; unfold TCPHeader.LENGTH; lia) end.
  rewrite result_bind_ok. destruct (NetParser.error q'); by eexists _, _, _; split; [done|].
Qed.

(** The four checks in front of the options, in the order of the code. *)
Lemma ipv4_payload_cases h n : IPv4Header.LENGTH <= n → 0 <= IPv4Header.hlen h →
  ipv4_payload_at h n =
    if n <? 4 * IPv4Header.hlen h then IPv4Header.LENGTH
    else if negb (IPv4Header.ver h =? 4) then IPv4Header.LENGTH
    else if IPv4Header.hlen h <? 5 then IPv4Header.LENGTH
    else if negb (n =? IPv4Header.len_ h) then IPv4Header.LENGTH
    else IPv4Header.LENGTH + (IPv4Header.hlen h * 4 - IPv4Header.LENGTH).
Proof.
  intros Hn Hh. unfold ipv4_payload_at. rewrite (Z.leb_antisym n), (Z.leb_antisym (IPv4Header.hlen h)), (Z.eqb_sym n).
  destruct (Z.ltb_spec n IPv4Header.LENGTH); [lia|]. destruct (n <? _), (_ =? 4), (_ <? 5), (_ =? n); simpl; lia.
Qed.

Lemma ipv4_header_typed h p s : ParserFacts.after p s 0 → ipv4_typed h →
  ∃ h' p' r, IPv4Header.parse h p = Ok (h', p', r) ∧ ParserFacts.after p' s (ipv4_payload_at h' (len s)) ∧
    ipv4_typed h' ∧ (len s < IPv4Header.LENGTH → h' = h).
Proof.
  intros H Hh. assert (∀ h' p' r, ParserFacts.after p' s (ipv4_payload_at h' (len s)) → ipv4_typed h' →
    (len s < IPv4Header.LENGTH → h' = h) →
    ∃ h1 p1 r1, Ok (h', p', r : ParseResult) = Ok (h1, p1, r1) ∧ ParserFacts.after p1 s (ipv4_payload_at h1 (len s)) ∧
      ipv4_typed h1 ∧ (len s < IPv4Header.LENGTH → h1 = h)) as G by (intros h' p' r ? ? ?; by exists h', p', r).
  unfold IPv4Header.parse. assert (Buffer.size (NetParser.buffer p) = len s) as ->.
  { destruct H as (_ & _ & H). pose proof (len_nonneg s). destruct (Z.leb_spec 0 (len s)); [|lia].
    unfold Buffer.size, NetParser.buffer. by rewrite (proj2 H), zdrop_0. }
  destruct (Z.ltb_spec (len s) IPv4Header.LENGTH) as [Hs|Hs].
  { apply G; [|done|done]. unfold ipv4_payload_at. destruct (Z.ltb_spec (len s) IPv4Header.LENGTH); [done | lia]. }
  parse_any H. match goal with H : ParserFacts.after _ s ?x |- _ => replace x with IPv4Header.LENGTH in H by done end.
  match goal with |- context [IPv4Header.mk ?a ?b ?c ?d ?e ?f ?g ?h ?i ?j ?k ?l ?m] =>
    set (h' := IPv4Header.mk a b c d e f g h i j k l m) in *; specialize (G h') end.
  assert (ipv4_typed h') as Ht by (split; try done; [by apply nibbles | by apply nibbles | apply low_bits]).
  rewrite (ipv4_payload_cases h' (len s) Hs) in G by apply Ht. simpl IPv4Header.ver in G.
  change (IPv4Header.hlen h') with (Z.land v 0x0f) in G. change (IPv4Header.len_ h') with v1 in G.
  destruct (len s <? 4 * Z.land v 0x0f); [apply G; [done | done | lia]|].
  destruct (negb (Z.shiftr v 4 =? 4)); [apply G; [done | done | lia]|].
  destruct (Z.ltb_spec (Z.land v 0x0f) 5); [apply G; [done | done | lia]|].
  destruct (negb (len s =? v1)); [apply G; [done | done | lia]|].
  match goal with |- context [NetParser.remove_prefix ?q ?n] =>
    destruct (ParserFacts.remove_prefix_after q s _ n H) as (q' & -> & Hq) end; [unfold IPv4Header.LENGTH; lia|].
  rewrite result_bind_ok. destruct (NetParser.error q'); [apply G; [done | done | lia]|].
  match goal with |- context [InternetChecksum.value (InternetChecksum.add _ ?d)] =>
    destruct (InternetChecksum.value_total (InternetChecksum.new 0) d) as [w ->] end; [done|].
  rewrite result_bind_ok. destruct (negb (w =? 0)); (apply G; [done | done | lia]).
Qed.

Lemma ethernet_header_typed h b : Buffer.wf b → EthernetHeader.valid h →
  ∃ h' p' r, EthernetHeader.parse h (NetParser.new b) = Ok (h', p', r) ∧ EthernetHeader.valid h' ∧
    (Buffer.size b < EthernetHeader.LENGTH → h' = h) ∧
    ParserFacts.after p' (Buffer.str b) (if Buffer.size b <? EthernetHeader.LENGTH then 0 else EthernetHeader.LENGTH).
Proof.
  intros Hb Hh. pose proof (ParserFacts.after_new b Hb) as H. unfold EthernetHeader.parse.
  change (NetParser.buffer (NetParser.new b)) with b.
  destruct (Z.ltb_spec (Buffer.size b) EthernetHeader.LENGTH) as [Hs|Hs]; [by eexists _, _, _; split; [done|]|].
  destruct (parse_address_after 6 _ _ _ H) as (q1 & a1 & -> & Hr1 & Hl1). rewrite result_bind_ok.
  destruct (parse_address_after 6 _ _ _ Hr1) as (q2 & a2 & -> & Hr2 & Hl2). rewrite result_bind_ok.
  parse_any Hr2. eexists _, _, _. split; [done|]. split; [done|]. split; [lia | done].
Qed.

Lemma segment_typed s b ck : Buffer.wf b → 0 <= ck < two32 →
  tcp_typed (TCPSegment.header s) → Buffer.wf (TCPSegment.payload s) →
  ∃ s' r, TCPSegment.parse s b ck = Ok (s', r) ∧ tcp_typed (TCPSegment.header s') ∧
    Buffer.wf (TCPSegment.payload s') ∧ segment_outcome s b s' r.
Proof.
  intros Hb Hc Hs Hp. unfold TCPSegment.parse, segment_outcome.
  destruct (InternetChecksum.value_total (InternetChecksum.new ck) (Buffer.str b)) as [v ->]; [done|].
  rewrite result_bind_ok. destruct (negb _); [eexists _, _; split; [done|]; split; [done|]; split; [done|]; by left|].
  destruct (tcp_header_typed _ _ _ (ParserFacts.after_new b Hb)) as (h & p & r & -> & Ha & Ht).
  rewrite Z.add_0_l in Ha. rewrite result_bind_ok. eexists _, _. split; [done|]. split; [done|]. split; [apply Ha|]. right.
  cbn. destruct (Z.leb_spec (tcp_payload_at h) (Buffer.size b)) as [Hle|Hlt]; [by apply after_rest|].
  destruct Ha as (Hw & _ & Ha). unfold Buffer.size in Hlt. destruct (Z.leb_spec (tcp_payload_at h) (len (Buffer.str b))); [lia|].
  destruct Ha as (He & j & Hj & Es). split; [done|]. exists j. by split; [|split].
Qed.

Lemma datagram_typed d b : Buffer.wf b → ipv4_typed (IPv4Datagram.header d) →
  ∃ d' r, IPv4Datagram.parse d b = Ok (d', r) ∧ ipv4_typed (IPv4Datagram.header d') ∧ datagram_outcome d b d' r.
Proof.
  intros Hb Hd. unfold IPv4Datagram.parse, datagram_outcome.
  destruct (ipv4_header_typed (IPv4Datagram._header d) _ _ (ParserFacts.after_new b Hb) Hd) as (h & p & r & -> & Ha & Ht & Hk).
  destruct (after_rest p b _ Ha) as [He Hr].
  { pose proof (len_nonneg (Buffer.str b)). unfold ipv4_payload_at, Buffer.size, IPv4Header.LENGTH.
    destruct (Z.ltb_spec (len (Buffer.str b)) 20); [lia|].
    destruct (Z.leb_spec (4 * IPv4Header.hlen h) (len (Buffer.str b))); simpl; [|lia]. destruct (_ && _); lia. }
  rewrite result_bind_ok. cbv beta iota zeta. cbn [IPv4Datagram._payload IPv4Datagram._header]. rewrite He.
  assert (part_of (BufferList.of_buffer (NetParser.buffer p)) b (ipv4_payload_at h (Buffer.size b))) as Hpart by by eexists.
  destruct (Z.eqb_spec (BufferList.size (BufferList.of_buffer (NetParser.buffer p))) (IPv4Header.payload_length h)) as [Eq|Ne];
    simpl negb; eexists _, _; (split; [done|]); (split; [done|]); (split; [done|]); (split; [done|]); (split; [by auto|]); done.
Qed.

Lemma frame_typed f b : Buffer.wf b → EthernetHeader.valid (EthernetFrame.header f) →
  ∃ f', EthernetFrame.parse f b = Ok (f', NoError) ∧ EthernetHeader.valid (EthernetFrame.header f') ∧ frame_outcome f b f'.
Proof.
  intros Hb Hf. unfold EthernetFrame.parse, frame_outcome.
  destruct (ethernet_header_typed (EthernetFrame._header f) b Hb Hf) as (h & p & r & -> & Ht & Hk & Ha).
  destruct (after_rest p b _ Ha) as [He Hr].
  { pose proof (len_nonneg (Buffer.str b)). unfold Buffer.size. case_test; lia. }
  rewrite result_bind_ok, He. eexists. split; [done|]. split; [done|]. split; [done|]. by eexists.
Qed.

Lemma message_typed m b : Buffer.wf b → arp_typed m →
  ∃ m' r, ARPMessage.parse m b = Ok (m', r) ∧ arp_typed m'.
Proof.
  intros Hb Hm. pose proof (ParserFacts.after_new b Hb) as H.
  unfold ARPMessage.parse. case_test; [by eexists _, _; split; [done|]|]. parse_any H.
  destruct (negb _); [eexists _, _; split; [done|]; split; try done; by destruct Hm as [? ? ? ? ? []]|].
  destruct (parse_address_after 6 _ _ _ H) as (q1 & a1 & -> & Hr1 & Hl1). rewrite result_bind_ok. parse_any Hr1.
  destruct (parse_address_after 6 _ _ _ Hr1) as (q2 & a2 & -> & Hr2 & Hl2). rewrite result_bind_ok. parse_any Hr2.
  eexists _, _. split; [done|]. by split.
Qed.

(** ** Serializing *)

Lemma len_resize s n : 0 <= n → len (resize s n) = n.
Proof. intros H. unfold resize, len, ztake. rewrite length_app, length_take, length_replicate. lia. Qed.

Lemma ipv4_serialize_length h : ipv4_typed h →
  (IPv4Header.serialize h = Throw runtime_error ∧ (IPv4Header.ver h ≠ 4 ∨ IPv4Header.hlen h < 5)) ∨
  (∃ bs, IPv4Header.serialize h = Ok bs ∧ len bs = 4 * IPv4Header.hlen h).
Proof.
  intros []. unfold IPv4Header.serialize. destruct (Z.eqb_spec (IPv4Header.ver h) 4); [|by left; split; [|left]].
  simpl negb. cbv iota. case_test; [left; split; [done|]; right; unfold IPv4Header.LENGTH in *; lia|].
  right. eexists. split; [done|]. rewrite len_resize by lia. lia.
Qed.

Lemma tcp_serialize_length h : tcp_typed h →
  (TCPHeader.serialize h = Throw runtime_error ∧ TCPHeader.doff h < 5) ∨
  (∃ bs, TCPHeader.serialize h = Ok bs ∧ len bs = 4 * TCPHeader.doff h).
Proof.
  intros [_ Hd]. unfold TCPHeader.serialize. case_test; [by left|].
  right. eexists. split; [done|]. rewrite len_resize by lia. lia.
Qed.

(** C31: Parsers and serializers keep the C++ types.  For every string of bytes, and every well-typed object that
    [parse] is called on, the parsers of TCP segments, IPv4 datagrams, Ethernet frames and ARP messages return an object whose fields are
    values of their types and of the bits they have on the wire.  With a bad checksum the TCP segment is the object
    unchanged; else its payload is exactly the bytes behind the announced header, and the outcome is [NoError] when the buffer
    holds that header and [PacketTooShort] when it does not, the payload then being some end of the
    buffer.  The payload of a datagram is the bytes behind its header, [NoError] meaning exactly that it is as
    long as the header says; the payload of a frame is the bytes behind the fourteen of the header, or
    the whole buffer when it is shorter.  A well-typed
    header is serialized to as many bytes as it says, or refused with an exception when it says less than the
    minimal length (or, for IPv4, another version). *)
Theorem parsers_keep_types (s : TCPSegment.t) (d : IPv4Datagram.t) (f : EthernetFrame.t) (m : ARPMessage.t)
  (data : bytes) (ck : Z) :
  let b := Buffer.of_string data in
  len data < two64 → 0 <= ck < two32 →
  tcp_typed (TCPSegment.header s) → Buffer.wf (TCPSegment.payload s) → ipv4_typed (IPv4Datagram.header d) →
  EthernetHeader.valid (EthernetFrame.header f) → arp_typed m →
  (∃ s' r, TCPSegment.parse s b ck = Ok (s', r) ∧ tcp_typed (TCPSegment.header s') ∧ Buffer.wf (TCPSegment.payload s') ∧
     segment_outcome s b s' r) ∧
  (∃ d' r, IPv4Datagram.parse d b = Ok (d', r) ∧ ipv4_typed (IPv4Datagram.header d') ∧ datagram_outcome d b d' r) ∧
  (∃ f', EthernetFrame.parse f b = Ok (f', NoError) ∧ EthernetHeader.valid (EthernetFrame.header f') ∧
     frame_outcome f b f') ∧
  (∃ m' r, ARPMessage.parse m b = Ok (m', r) ∧ arp_typed m') ∧
  ((TCPHeader.serialize (TCPSegment.header s) = Throw runtime_error ∧ TCPHeader.doff (TCPSegment.header s) < 5) ∨
   (∃ bs, TCPHeader.serialize (TCPSegment.header s) = Ok bs ∧ len bs = 4 * TCPHeader.doff (TCPSegment.header s))) ∧
  ((IPv4Header.serialize (IPv4Datagram.header d) = Throw runtime_error ∧
    (IPv4Header.ver (IPv4Datagram.header d) ≠ 4 ∨ IPv4Header.hlen (IPv4Datagram.header d) < 5)) ∨
   (∃ bs, IPv4Header.serialize (IPv4Datagram.header d) = Ok bs ∧ len bs = 4 * IPv4Header.hlen (IPv4Datagram.header d))).
Proof.
  intros b Hl Hc Hs Hp Hd Hf Hm. assert (Buffer.wf b) as Hb by by apply Buffer.wf_of_string.
  split; [by apply segment_typed|]. split; [by apply datagram_typed|]. split; [by apply frame_typed|].
  split; [by apply message_typed|]. split; [by apply tcp_serialize_length | by apply ipv4_serialize_length].
Qed.

Lemma parsers_keep_types_witness :
  (∃ s' r, TCPSegment.parse TCPSegment.new (Buffer.of_string (text "any bytes")) 0 = Ok (s', r) ∧
     tcp_typed (TCPSegment.header s') ∧ Buffer.wf (TCPSegment.payload s') ∧
     segment_outcome TCPSegment.new (Buffer.of_string (text "any bytes")) s' r).
Proof.
  apply (parsers_keep_types TCPSegment.new IPv4Datagram.new EthernetFrame.new ARPMessage.new (text "any bytes") 0);
    (vm_compute; done) || (repeat split; vm_compute; done).
Defined.
