(* ===== verification/header_text.v ===== *)
(** * Headers as text ([to_string] and [summary] of the header classes: src/lab/libsponge/tcp_helpers/tcp_header.cc,
    ipv4_header.cc, ethernet_header.cc, arp_message.cc; [operator<<] of src/lab/libsponge/wrapping_integers.hh)

    What the programs print of a packet.  The theorems: the texts of two headers are equal only
    if the headers are, so the text shows every field; a summary shows what it is meant to show. *)

From stdpp Require Import strings.
From S2P Require Import Prelude wrapping_integers address ostream tcp_header ipv4 ethernet.

Import ReadText.
Local Open Scope ostream_scope.

(** [operator<<] of a [WrappingInt32]. *)
Definition output_wrapping (os : Ostream.t) (a : WrappingInt32.t) : Ostream.t := os << WrappingInt32.raw_value a.
#[global] Instance insert_wrapping : Ostream.Insertable WrappingInt32.t := output_wrapping.

Lemma wrapping_hex_end c al fl a :
  Ostream.at_end c true al fl << a = Ostream.at_end (c ++ Ostream.hex_digits 16 (WrappingInt32.raw_value a)) true al fl.
Proof. apply Ostream.hex_end. Qed.
Lemma wrapping_dec_end c al fl a :
  Ostream.at_end c false al fl << a = Ostream.at_end (c ++ Address.decimal 20 (WrappingInt32.raw_value a)) false al fl.
Proof. apply Ostream.dec_end. Qed.
#[export] Hint Rewrite wrapping_hex_end wrapping_dec_end : ostream.

(** Compares two texts field by field. *)
Ltac read_text E :=
  repeat first
    [ apply app_inv_head in E
    | apply bool_field in E as [? E]
    | apply hex_text_field in E as [? E]; [| lia | lia | by eexists _, _]
    | apply dec_text_field in E as [? E]; [| lia | lia | by eexists _, _]
    | apply hex_field in E as [? E]; [| lia | lia | reflexivity]
    | apply dec_field in E as [? E]; [| lia | lia | reflexivity] ].

(** Dotted quads in a text. *)
Definition is_quad (b : byte) : bool := Address.is_digit b || bool_decide (b = x2e).

Lemma print_quad ip : 0 <= ip < two32 → Forall (λ b, is_quad b = true) (DottedQuad.print ip).
Proof.
  intros Hip. assert (∀ z, 0 <= z < two16 → Forall (λ b, is_quad b = true) (Address.to_string z)) as Hd.
  { intros z Hz. destruct (DottedQuad.to_string_digits z Hz) as [Hz' _]. eapply Forall_impl; [exact Hz'|].
    intros b Hb. unfold is_quad. by rewrite Hb. }
  assert (∀ n, 0 <= n mod 256 < two16) as Hm by (intros; pose proof (Z.mod_pos_bound n 256); lia).
  assert (0 <= ip / 2 ^ 24 < two16) by (split; [apply Z.div_pos | apply Z.div_lt_upper_bound]; lia).
  unfold DottedQuad.print.
  repeat first [apply Forall_app; split | apply Forall_cons; split; [done|] | apply Hd, Hm | by apply Hd].
Qed.

Lemma quad_field a b c r1 r2 : 0 <= a < two32 → 0 <= b < two32 → is_quad c = false →
  DottedQuad.print a ++ c :: r1 = DottedQuad.print b ++ c :: r2 → a = b ∧ r1 = r2.
Proof.
  intros Ha Hb Hc E. destruct (field_split is_quad c _ _ _ _ (print_quad a Ha) (print_quad b Hb) Hc E) as [Ep ->].
  split; [|done]. by rewrite <- (DottedQuad.scan_print a Ha), Ep, DottedQuad.scan_print.
Qed.

Lemma quad_text_field s a b r1 r2 : 0 <= a < two32 → 0 <= b < two32 → (∃ c s', s = c :: s' ∧ is_quad c = false) →
  DottedQuad.print a ++ s ++ r1 = DottedQuad.print b ++ s ++ r2 → a = b ∧ r1 = r2.
Proof.
  intros Ha Hb (c & s' & -> & Hc) E. apply quad_field in E as [-> E]; [|done..]. split; [done | by apply app_inv_head in E].
Qed.

(** [inet_ntoa] gives the dotted-decimal notation, as documented. *)
Definition dotted_decimal `{Address.Resolver} : Prop :=
  ∀ ip, 0 <= ip < two32 → Address.inet_ntoa ip = DottedQuad.print ip.

Module TCPHeaderText.

Import TCPHeader.

Definition to_string (h : t) : bytes :=
  Ostream.str (Ostream.new
    << Ostream.hex << Ostream.boolalpha << text "TCP source port: " << sport h << x0a
    << text "TCP dest port: " << dport h << x0a
    << text "TCP seqno: " << seqno h << x0a
    << text "TCP ackno: " << ackno h << x0a
    << text "TCP doff: " << doff h << x0a
    << text "Flags: urg: " << urg h << text " ack: " << ack h << text " psh: " << psh h << text " rst: " << rst h
    << text " syn: " << syn h << text " fin: " << fin h << x0a
    << text "TCP winsize: " << win h << x0a
    << text "TCP cksum: " << cksum h << x0a
    << text "TCP uptr: " << uptr h << x0a).

Definition summary (h : t) : bytes :=
  Ostream.str (Ostream.new
    << text "Header(flags=" << text (if syn h then "S" else "") << text (if ack h then "A" else "")
    << text (if rst h then "R" else "") << text (if fin h then "F" else "")
    << text ",seqno=" << seqno h << text ",ack=" << ackno h << text ",win=" << win h << text ")").

Lemma tcp_text_inj h1 h2 : valid h1 → valid h2 → 0 <= doff h1 < two8 → 0 <= doff h2 < two8 →
  to_string h1 = to_string h2 → h1 = h2.
Proof.
  intros [] [] D1 D2. unfold WrappingInt32.valid in *. unfold to_string. written. intros E. read_text E.
  clear E. destruct h1 as [? ? [] []], h2 as [? ? [] []]. cbn in *. subst. reflexivity.
Qed.

(** The flags of a summary. *)
Definition flag_text (h : t) : bytes :=
  text (if syn h then "S" else "") ++ text (if ack h then "A" else "") ++
  text (if rst h then "R" else "") ++ text (if fin h then "F" else "").

Definition summarized (h : t) : bool * bool * bool * bool * WrappingInt32.t * WrappingInt32.t * Z :=
  (syn h, ack h, rst h, fin h, seqno h, ackno h, win h).

(** A summary shows four flags, both sequence numbers and the window, and nothing else. *)
Lemma tcp_summary_spec h1 h2 : valid h1 → valid h2 → summary h1 = summary h2 ↔ summarized h1 = summarized h2.
Proof.
  intros [] []. unfold WrappingInt32.valid in *. split; intros E.
  - revert E. unfold summary. written. intros E. apply app_inv_head in E.
    assert (∃ r1 r2, flag_text h1 ++ x2c :: r1 = flag_text h2 ++ x2c :: r2 ∧
      r1 = text "seqno=" ++ Address.decimal 20 (WrappingInt32.raw_value (seqno h1)) ++ text ",ack=" ++
           Address.decimal 20 (WrappingInt32.raw_value (ackno h1)) ++ text ",win=" ++ Address.decimal 20 (win h1) ++ text ")" ∧
      r2 = text "seqno=" ++ Address.decimal 20 (WrappingInt32.raw_value (seqno h2)) ++ text ",ack=" ++
           Address.decimal 20 (WrappingInt32.raw_value (ackno h2)) ++ text ",win=" ++ Address.decimal 20 (win h2) ++ text ")")
      as (r1 & r2 & Er & E1 & E2).
    { eexists _, _. split; [|done]. unfold flag_text. rewrite <- !app_assoc. exact E. }
    assert (∀ h, Forall (λ b, negb (bool_decide (b = x2c)) = true) (flag_text h)) as Hf.
    { intros h. unfold flag_text. destruct (syn h), (ack h), (rst h), (fin h); repeat constructor. }
    apply (field_split (λ b, negb (bool_decide (b = x2c)))) in Er as [Ef Er]; [|done..].
    assert (syn h1 = syn h2 ∧ ack h1 = ack h2 ∧ rst h1 = rst h2 ∧ fin h1 = fin h2) as (? & ? & ? & ?).
    { clear -Ef. unfold flag_text in Ef.
      destruct (syn h1), (ack h1), (rst h1), (fin h1), (syn h2), (ack h2), (rst h2), (fin h2); first [done | discriminate Ef]. }
    clear E. rewrite E1, E2 in Er. read_text Er. unfold summarized. rewrite (WrappingInt32.t_ext (seqno h1) (seqno h2)) by done.
    rewrite (WrappingInt32.t_ext (ackno h1) (ackno h2)) by done. congruence.
  - unfold summarized in E. injection E as E1 E2 E3 E4 E5 E6 E7. unfold summary. by rewrite E1, E2, E3, E4, E5, E6, E7.
Qed.

End TCPHeaderText.

Module IPv4HeaderText.

Import IPv4Header.

Definition to_string (h : t) : bytes :=
  Ostream.str (Ostream.new
    << Ostream.hex << Ostream.boolalpha << text "IP version: " << ver h << x0a
    << text "IP hdr len: " << hlen h << x0a
    << text "IP tos: " << tos h << x0a
    << text "IP dgram len: " << len_ h << x0a
    << text "IP id: " << id h << x0a
    << text "Flags: df: " << df h << text " mf: " << mf h << x0a
    << text "Offset: " << offset h << x0a
    << text "TTL: " << ttl h << x0a
    << text "Protocol: " << proto h << x0a
    << text "Checksum: " << cksum h << x0a
    << text "Src addr: " << src h << x0a
    << text "Dst addr: " << dst h << x0a).

Definition summary `{Address.Resolver} (h : t) : bytes :=
  Ostream.str (Ostream.new
    << Ostream.hex << Ostream.boolalpha << text "IPv" << ver h << text ", "
    << text "len=" << len_ h << text ", "
    << text "protocol=" << proto h << text ", "
    << (if 10 <=? ttl h then [] else text "ttl=" ++ Address.to_string (ttl h) ++ text ", ")
    << text "src=" << Address.inet_ntoa (src h) << text ", "
    << text "dst=" << Address.inet_ntoa (dst h)).

Lemma ip_text_inj h1 h2 : valid h1 → valid h2 → to_string h1 = to_string h2 → h1 = h2.
Proof.
  intros [] []. unfold to_string. written. intros E. read_text E. clear E. destruct h1, h2. cbn in *. subst. reflexivity.
Qed.

(** The time to live is shown when it is short. *)
Definition summarized (h : t) : Z * Z * Z * option Z * Z * Z :=
  (ver h, len_ h, proto h, if 10 <=? ttl h then None else Some (ttl h), src h, dst h).

Lemma ip_summary_spec `{Address.Resolver} h1 h2 : dotted_decimal → valid h1 → valid h2 →
  summary h1 = summary h2 ↔ summarized h1 = summarized h2.
Proof.
  intros Hq [] []. split; intros E.
  - revert E. unfold summary. rewrite !Hq by done. written. intros E. read_text E. unfold summarized.
    assert ((if 10 <=? ttl h1 then None else Some (ttl h1)) = (if 10 <=? ttl h2 then None else Some (ttl h2)) ∧
      DottedQuad.print (src h1) ++ text ", " ++ text "dst=" ++ DottedQuad.print (dst h1)
      = DottedQuad.print (src h2) ++ text ", " ++ text "dst=" ++ DottedQuad.print (dst h2)) as [-> E'].
    { destruct (Z.leb_spec 10 (ttl h1)), (Z.leb_spec 10 (ttl h2)); rewrite ?app_nil_l, <- ?app_assoc in E.
      - apply app_inv_head in E. done.
      - discriminate E.
      - discriminate E.
      - apply app_inv_head in E. destruct (DottedQuad.to_string_digits (ttl h1) ltac:(lia)) as [D1 V1].
        destruct (DottedQuad.to_string_digits (ttl h2) ltac:(lia)) as [D2 V2].
        apply (field_split Address.is_digit x2c) in E as [Et E]; [|done..]. rewrite Et in V1. split; [congruence|].
        apply (app_inv_head [x20]) in E. by apply app_inv_head in E. }
    apply quad_text_field in E' as [-> E']; [|done|done|by eexists _, _]. apply app_inv_head in E'.
    rewrite <- (DottedQuad.scan_print (dst h1)), E', DottedQuad.scan_print by done. congruence.
  - unfold summarized in E. injection E as E1 E2 E3 E4 E5 E6. unfold summary. rewrite E1, E2, E3, E5, E6.
    destruct (Z.leb_spec 10 (ttl h1)), (Z.leb_spec 10 (ttl h2)); congruence.
Qed.

End IPv4HeaderText.

(** [to_string(EthernetAddress)]: the loop over the bytes; a colon after all but the last. *)
Fixpoint address_loop (ss : Ostream.t) (address : EthernetAddress) : Ostream.t :=
  match address with
  | [] => ss
  | b :: rest =>
      let ss := Ostream.set_width ss 2 in
      let ss := ss << Ostream.setfill x30 << Ostream.hex << byte_val b in
      address_loop (match rest with [] => ss | _ => ss << text ":" end) rest
  end.
Definition ethernet_to_string (address : EthernetAddress) : bytes := Ostream.str (address_loop Ostream.new address).

(** The bytes in two digits each, with colons between them. *)
Fixpoint colons (address : EthernetAddress) : bytes :=
  match address with
  | [] => []
  | b :: rest => padded 2 (byte_val b) ++ match rest with [] => [] | _ => x3a :: colons rest end
  end.

Lemma address_loop_end a : ∀ c hx al fl, ∃ hx' fl',
  address_loop (Ostream.at_end c hx al fl) a = Ostream.at_end (c ++ colons a) hx' al fl'.
Proof.
  induction a as [|b a IH]; intros c hx al fl; [exists hx, fl; cbn; by rewrite app_nil_r|].
  cbn [address_loop colons].
  assert (Ostream.set_width (Ostream.at_end c hx al fl) 2 << Ostream.setfill x30 << Ostream.hex << byte_val b
    = Ostream.at_end (c ++ padded 2 (byte_val b)) true al x30) as ->
    by exact (Ostream.hex_width c al x30 2 (byte_val b)).
  destruct a as [|b' a]; [exists true, x30; cbn [address_loop]; by rewrite app_nil_r|].
  rewrite Ostream.string_end. destruct (IH ((c ++ padded 2 (byte_val b)) ++ text ":") true al x30) as (hx' & fl' & ->).
  exists hx', fl'. by rewrite <- !app_assoc.
Qed.

Lemma ethernet_text a : ethernet_to_string a = colons a.
Proof. unfold ethernet_to_string. destruct (address_loop_end a [] false false x20) as (hx & fl & E). rewrite Ostream.new_end, E. done. Qed.

Lemma colons_inj a1 : ∀ a2 r1 r2, length a1 = length a2 → colons a1 ++ r1 = colons a2 ++ r2 → a1 = a2 ∧ r1 = r2.
Proof.
  induction a1 as [|b1 a1 IH]; intros [|b2 a2] r1 r2 Hl E; [done | discriminate Hl..|].
  cbn [colons] in E. rewrite <- !app_assoc in E. injection Hl as Hl.
  destruct (padded_spec 2 (byte_val b1)) as (L1 & _ & V1); [apply byte_val_range | lia |].
  destruct (padded_spec 2 (byte_val b2)) as (L2 & _ & V2); [apply byte_val_range | lia |].
  apply app_inj_1 in E as [Eb E]; [|lia]. rewrite <- (byte_val_inj b1 b2) by congruence.
  destruct a1 as [|x1 a1], a2 as [|x2 a2]; [done | discriminate Hl..|].
  cbn [app] in E. injection E as E. by destruct (IH (x2 :: a2) r1 r2 Hl E) as [-> ->].
Qed.

Module EthernetHeaderText.

Import EthernetHeader.

Definition to_string (h : t) : bytes :=
  let ss := Ostream.new in
  let ss := ss << text "dst=" << ethernet_to_string (dst h) in
  let ss := ss << text ", src=" << ethernet_to_string (src h) in
  let ss := ss << text ", type=" in
  Ostream.str
    (if type h =? TYPE_IPv4 then ss << text "IPv4"
     else if type h =? TYPE_ARP then ss << text "ARP"
     else ss << text "[unknown type " << Ostream.hex << type h << text "!]").

Lemma eth_text_inj h1 h2 : valid h1 → valid h2 → to_string h1 = to_string h2 → h1 = h2.
Proof.
  intros [D1 S1 T1] [D2 S2 T2] E. unfold to_string, TYPE_IPv4, TYPE_ARP in E. rewrite !ethernet_text in E.
  assert (dst h1 = dst h2 ∧ src h1 = src h2 ∧ type h1 = type h2) as (? & ? & ?); [|destruct h1, h2; cbn in *; congruence].
  revert E. destruct (Z.eqb_spec (type h1) 0x800), (Z.eqb_spec (type h1) 0x806), (Z.eqb_spec (type h2) 0x800),
    (Z.eqb_spec (type h2) 0x806); try lia; written; intros E; apply app_inv_head in E;
    (apply colons_inj in E as [? E]; [|lia]); apply app_inv_head in E;
    (apply colons_inj in E as [? E]; [|lia]); (split; [done|]); (split; [done|]); try congruence; apply app_inv_head in E;
    try discriminate E; read_text E; done.
Qed.

End EthernetHeaderText.

Module ARPMessageText.

Import ARPMessage.

Definition opcode_str (m : t) : bytes :=
  let opcode_str := text "(unknown type)" in
  let opcode_str := if opcode m =? OPCODE_REQUEST then text "REQUEST" else opcode_str in
  if opcode m =? OPCODE_REPLY then text "REPLY" else opcode_str.

Definition to_string `{Address.Resolver} (m : t) : bytes :=
  Ostream.str (Ostream.new
    << text "opcode=" << opcode_str m << text ", sender=" << ethernet_to_string (sender_ethernet_address m) << text "/"
    << Address.inet_ntoa (sender_ip_address m) << text ", target=" << ethernet_to_string (target_ethernet_address m)
    << text "/" << Address.inet_ntoa (target_ip_address m)).

Lemma arp_text_inj `{Address.Resolver} m1 m2 : dotted_decimal → valid m1 → valid m2 → supported m1 = true → supported m2 = true →
  to_string m1 = to_string m2 → m1 = m2.
Proof.
  intros Hq [S1 T1 I1 J1] [S2 T2 I2 J2] U1 U2. unfold to_string. rewrite !Hq, !ethernet_text by done. written. intros E.
  apply supported_fields in U1 as (? & ? & ? & ? & O1). apply supported_fields in U2 as (? & ? & ? & ? & O2).
  apply app_inv_head in E.
  assert (opcode m1 = opcode m2) as Eo.
  { unfold opcode_str, OPCODE_REQUEST, OPCODE_REPLY in E. destruct O1 as [O1|O1], O2 as [O2|O2]; rewrite O1, O2 in *; first [done | discriminate E]. }
  unfold opcode_str in E. rewrite Eo in E. apply app_inv_head in E. apply app_inv_head in E.
  apply colons_inj in E as [? E]; [|lia]. apply app_inv_head in E.
  apply quad_text_field in E as [? E]; [|done|done|by eexists _, _].
  apply colons_inj in E as [? E]; [|lia]. apply app_inv_head in E.
  assert (target_ip_address m1 = target_ip_address m2)
    by (by rewrite <- (DottedQuad.scan_print (target_ip_address m1)), E, DottedQuad.scan_print).
  destruct m1, m2. cbn in *. congruence.
Qed.

End ARPMessageText.

(** The printed form of a header shows all of it.  Two TCP headers, two IPv4 headers, two Ethernet
    headers, or two ARP messages that can be serialized have the same [to_string] only if they are equal; the
    shorter summaries are equal exactly when the fields they mention are. *)
Theorem header_texts_show_fields `{Address.Resolver} : dotted_decimal →
  (∀ h1 h2, TCPHeader.valid h1 → TCPHeader.valid h2 → 0 <= TCPHeader.doff h1 < two8 → 0 <= TCPHeader.doff h2 < two8 →
    (TCPHeaderText.to_string h1 = TCPHeaderText.to_string h2 → h1 = h2) ∧
    (TCPHeaderText.summary h1 = TCPHeaderText.summary h2 ↔ TCPHeaderText.summarized h1 = TCPHeaderText.summarized h2)) ∧
  (∀ h1 h2, IPv4Header.valid h1 → IPv4Header.valid h2 →
    (IPv4HeaderText.to_string h1 = IPv4HeaderText.to_string h2 → h1 = h2) ∧
    (IPv4HeaderText.summary h1 = IPv4HeaderText.summary h2 ↔ IPv4HeaderText.summarized h1 = IPv4HeaderText.summarized h2)) ∧
  (∀ h1 h2, EthernetHeader.valid h1 → EthernetHeader.valid h2 →
    EthernetHeaderText.to_string h1 = EthernetHeaderText.to_string h2 → h1 = h2) ∧
  (∀ m1 m2, ARPMessage.valid m1 → ARPMessage.valid m2 → ARPMessage.supported m1 = true → ARPMessage.supported m2 = true →
    ARPMessageText.to_string m1 = ARPMessageText.to_string m2 → m1 = m2).
Proof.
  intros Hq. split; [|split; [|split]].
  - intros h1 h2 H1 H2 D1 D2. split; [by apply TCPHeaderText.tcp_text_inj | by apply TCPHeaderText.tcp_summary_spec].
  - intros h1 h2 H1 H2. split; [by apply IPv4HeaderText.ip_text_inj | by apply IPv4HeaderText.ip_summary_spec].
  - apply EthernetHeaderText.eth_text_inj.
  - intros m1 m2. by apply ARPMessageText.arp_text_inj.
Qed.

Import DottedQuad.

Lemma header_texts_show_fields_witness :
  IPv4HeaderText.summary (IPv4Header.set_ttl IPv4Header.new 128) = IPv4HeaderText.summary (IPv4Header.set_ttl IPv4Header.new 64) ∧
  IPv4HeaderText.summary (IPv4Header.set_src IPv4Header.new 0x0a000001)
    = text "IPv4, len=0, protocol=6, src=10.0.0.1, dst=0.0.0.0".
Proof.
  split; [|reflexivity]. destruct (header_texts_show_fields (H := DottedQuad.resolver) (λ ip _, eq_refl)) as (_ & Hip & _).
  apply Hip; [split; vm_compute; intuition discriminate.. | reflexivity].
Defined.
