(* ===== verification/bouncer.v ===== *)
(** * The bouncer (src/lab/apps/bouncer.cc)

    A relay for two peers behind address translators: it opens pairs of UDP sockets
    on neighbouring ports, learns on each the address of the peer that last sent to
    it, and passes every datagram on to the peer of the other socket.  The rules
    hold references into two vectors, which stay valid as long as the vectors do
    not grow past what was reserved.  Of the console output only what can throw is
    modelled: the texts of the two addresses. *)

From stdpp Require Import strings.
From S2P Require Import Prelude buffer system file_descriptor eventloop address socket.

Module Bouncer.

Record t := mk { sockets : list FileDescriptor.t; peers : list (option Address.t) }.

Definition reserved : Z := 66000.

(** [emplace_back]: beyond the reserved capacity the elements move, and the references to them are invalid. *)
Definition emplace_back {A} (l : list A) (a : A) : result (list A) :=
  if len l <? reserved then Ok (l ++ [a]) else Throw IteratorInvalidated.

Section Bouncer.
Context {K : Type} `{Kernel K} `{Address.Resolver}.

(** The socket and the peer at an index of the vectors. *)
Definition closed_socket : FileDescriptor.t := FileDescriptor.mk (-1) true true 0 0.
Definition socket_at (i : nat) (s : t) : FileDescriptor.t := nth i (sockets s) closed_socket.
Definition peer_at (i : nat) (s : t) : option Address.t := nth i (peers s) None.
Definition set_socket (i : nat) (f : FileDescriptor.t) (s : t) : t := mk (<[i := f]> (sockets s)) (peers s).
Definition set_peer (i : nat) (a : Address.t) (s : t) : t := mk (sockets s) (<[i := Some a]> (peers s)).

(** The line on [cerr]: the socket is asked for its address, and both addresses are made text. *)
Definition announce (x : FileDescriptor.t) (peer : Address.t) (k : K) : result K :=
  '(a, k) ← Socket.local_address x k;
  _ ← Address.show a;
  _ ← Address.show peer;
  Ok k.

(** The first [if] of a callback: a new source address becomes the peer. *)
Definition learn (i : nat) (source : Address.t) (s : t) (k : K) : result (t * K) :=
  if match peer_at i s with Some a => Address.neqb a source | None => true end then
    let s := set_peer i source s in
    k ← announce (socket_at i s) source k;
    Ok (s, k)
  else Ok (s, k).

(** The callback of the rule for socket [i], whose partner is socket [j]. *)
Definition callback (i j : nat) (s : t) (k : K) : result (t * K) :=
  '(x, k, rec) ← UDPSocket.recv (socket_at i s) 65536 k;
  '(s, k) ← learn i (UDPSocket.source_address rec) (set_socket i x s) k;
  match peer_at j s with
  | Some a =>
      if negb (bool_decide (UDPSocket.payload rec = [])) then
        '(y, k) ← UDPSocket.sendto (socket_at j s) a [UDPSocket.payload rec] k;
        Ok (set_socket j y s, k)
      else Ok (s, k)
  | None => Ok (s, k)
  end.

Definition rule (i j : nat) : EventLoop.Rule K t :=
  EventLoop.mkRule (socket_at i) EventLoop.In (callback i j) (λ _, true) (λ s k, Ok (s, k)).

(** The loop over the ports, from [lower_port]; [port_loop_spec] shows how many rounds it makes. *)
Fixpoint port_loop (fuel : nat) (lower_port : Z) (s : t) (rules : list (EventLoop.Rule K t)) (k : K)
  : result (t * list (EventLoop.Rule K t) * K) :=
  if lower_port <=? 64000 then
    match fuel with
    | O => Throw OutOfFuel
    | S fuel =>
        '(x, k) ← Socket.create Address.AF_INET SOCK_DGRAM k;
        socks ← emplace_back (sockets s) x;
        '(y, k) ← Socket.create Address.AF_INET SOCK_DGRAM k;
        socks ← emplace_back socks y;
        ps ← emplace_back (peers s) None;
        ps ← emplace_back ps None;
        let i := (length socks - 2)%nat in
        let j := (length socks - 1)%nat in
        a ← Address.of_ip_port (text "0") lower_port;
        k ← Socket.bind x a k;
        b ← Address.of_ip_port (text "0") (uint16 (lower_port + 1));
        k ← Socket.bind y b k;
        let rules := EventLoop.add_rule (EventLoop.add_rule rules (rule i j)) (rule j i) in
        port_loop fuel (uint16 (lower_port + 2)) (mk socks ps) rules k
    end
  else Ok (s, rules, k).

(** The event loop; [rounds] bounds its rounds. *)
Fixpoint loop (rounds : nat) (rules : list (EventLoop.Rule K t)) (s : t) (k : K) : result (t * K) :=
  match rounds with
  | O => Throw OutOfFuel
  | S rounds =>
      '(res, rules, s, k) ← EventLoop.wait_next_event rules (-1) s k;
      if bool_decide (res = EventLoop.Exit) then Ok (s, k) else loop rounds rules s k
  end.

Definition program_body (rounds : nat) (k : K) : result (t * K) :=
  '(s, rules, k) ← port_loop (Z.to_nat 31489) 1024 (mk [] []) [] k;
  loop rounds rules s k.

(** The status of the program, if its loop ended. *)
Definition main (rounds : nat) (k : K) : result Z := status_of (program_body rounds k).

(** ** The references stay valid *)

(** A fault of the program itself: a reference that dangles, or a loop that does not end. *)
Definition internal (f : fault) : Prop := f = IteratorInvalidated ∨ f = OutOfFuel.

Lemma emplace_ok {A} (l : list A) a : len l < reserved → emplace_back l a = Ok (l ++ [a]).
Proof. intros Hl. unfold emplace_back. by replace (len l <? reserved) with true by (symmetry; by apply Z.ltb_lt). Qed.

(** What the calls of the setup can throw. *)
Lemma system_call_fault r mask f : SystemCall r mask = Throw f → ¬ internal f.
Proof. unfold SystemCall. destruct (_ || _); [done|]. intros [= <-] [?|?]; done. Qed.

Lemma create_fault d ty (k : K) f : Socket.create d ty k = Throw f → ¬ internal f.
Proof.
  unfold Socket.create. destruct (sys_socket k d ty 0) as [k' r]. destruct (SystemCall r 0) as [n|g] eqn:E; simpl.
  - unfold FileDescriptor.new. destruct (_ <? 0); [|done]. intros [= <-] [?|?]; done.
  - intros [= <-]. by eapply system_call_fault.
Qed.

Lemma bind_fault g a (k : K) f : Socket.bind g a k = Throw f → ¬ internal f.
Proof.
  unfold Socket.bind. destruct (sys_bind _ _ _ _) as [k' r]. destruct (SystemCall r 0) as [n|e] eqn:E; simpl; [done|].
  intros [= <-]. by eapply system_call_fault.
Qed.

Lemma address_fault s p f : Address.of_ip_port s p = Throw f → ¬ internal f.
Proof.
  unfold Address.of_ip_port, Address.resolve. destruct (Address.getaddrinfo _ _ _ _) as [e|[|a l]];
    [by intros [= <-] [?|?] | by intros [= <-] [?|?]|].
  unfold Address.of_sockaddr. destruct (_ <? _); [|done]. by intros [= <-] [?|?].
Qed.

(** The rules of the first [m] pairs. *)
Definition pair_rules (m : nat) : list (EventLoop.Rule K t) := [rule (2 * m) (2 * m + 1); rule (2 * m + 1) (2 * m)].
Definition all_rules (m : nat) : list (EventLoop.Rule K t) := concat (pair_rules <$> seq 0 m).

Lemma all_rules_S m : all_rules (S m) = (all_rules m ++ [rule (2 * m) (2 * m + 1)]) ++ [rule (2 * m + 1) (2 * m)].
Proof. unfold all_rules. rewrite seq_S, fmap_app, concat_app. simpl. by rewrite <- app_assoc. Qed.

Lemma port_loop_spec fuel : ∀ m s k, (m <= 31489)%Z → 31489 - m <= Z.of_nat fuel → 0 <= m →
  length (sockets s) = (2 * Z.to_nat m)%nat → length (peers s) = (2 * Z.to_nat m)%nat →
  match port_loop fuel (1024 + 2 * m) s (all_rules (Z.to_nat m)) k with
  | Ok (s', rules, _) => len (sockets s') = 62978 ∧ len (peers s') = 62978 ∧ rules = all_rules (Z.to_nat 31489)
  | Throw f => ¬ internal f
  end.
Proof.
  induction fuel as [|fuel IH]; intros m s k Hm Hf Hm0 Hs Hp; cbn [port_loop];
    destruct (Z.leb_spec (1024 + 2 * m) 64000); try lia;
    try (assert (m = 31489) as -> by lia; split; [unfold len; lia|]; split; [unfold len; lia | done]).
  destruct (Socket.create _ _ k) as [[x k1]|f] eqn:E1; [|by eapply create_fault]. rewrite result_bind_ok. cbv beta iota.
  rewrite (emplace_ok (sockets s)), result_bind_ok by (unfold len, reserved; lia).
  destruct (Socket.create _ _ k1) as [[y k2]|f] eqn:E2; [|by eapply create_fault]. rewrite result_bind_ok. cbv beta iota.
  rewrite (emplace_ok (sockets s ++ _)), result_bind_ok by (unfold len, reserved; rewrite length_app; simpl; lia).
  rewrite (emplace_ok (peers s)), result_bind_ok by (unfold len, reserved; lia).
  rewrite (emplace_ok (peers s ++ _)), result_bind_ok by (unfold len, reserved; rewrite length_app; simpl; lia).
  destruct (Address.of_ip_port _ (1024 + 2 * m)) as [a|f] eqn:E3; [|by eapply address_fault]. rewrite result_bind_ok.
  destruct (Socket.bind x a k2) as [k3|f] eqn:E4; [|by eapply bind_fault]. rewrite result_bind_ok.
  destruct (Address.of_ip_port _ (uint16 _)) as [b|f] eqn:E5; [|by eapply address_fault]. rewrite result_bind_ok.
  destruct (Socket.bind y b k3) as [k4|f] eqn:E6; [|by eapply bind_fault]. rewrite result_bind_ok.
  rewrite uint16_id by lia. replace (1024 + 2 * m + 2) with (1024 + 2 * (m + 1)) by lia.
  unfold EventLoop.add_rule. rewrite !length_app. cbn [length]. rewrite Hs.
  replace (2 * Z.to_nat m + 1 + 1 - 2)%nat with (2 * Z.to_nat m)%nat by lia.
  replace (2 * Z.to_nat m + 1 + 1 - 1)%nat with (2 * Z.to_nat m + 1)%nat by lia.
  rewrite <- all_rules_S. replace (S (Z.to_nat m)) with (Z.to_nat (m + 1)) by lia.
  apply IH; simpl; rewrite ?length_app; simpl; lia.
Qed.

(** The bouncer's rules never hold a dangling reference.  Whatever the system
    calls answer, the loop over the ports ends after 31489 rounds or
    with the exception of a call; at its end there are 62978 sockets and as many
    peers, less than the capacity reserved, so that no element has moved; and
    the rules are, pair by pair, the one that passes on from each socket to its neighbour. *)
Theorem bouncer_setup (k : K) :
  match port_loop (Z.to_nat 31489) 1024 (mk [] []) [] k with
  | Ok (s, rules, _) => len (sockets s) = 62978 ∧ len (peers s) = 62978 ∧ rules = all_rules (Z.to_nat 31489)
  | Throw f => f ≠ IteratorInvalidated ∧ f ≠ OutOfFuel
  end.
Proof.
  pose proof (port_loop_spec (Z.to_nat 31489) 0 (mk [] []) k ltac:(lia) ltac:(lia) ltac:(lia) eq_refl eq_refl) as Hl.
  change (all_rules (Z.to_nat 0)) with (@nil (EventLoop.Rule K t)) in Hl. change (1024 + 2 * 0) with 1024 in Hl.
  destruct (port_loop _ _ _ _ k) as [[[s rules] k']|f]; [done|]. split; intros ->; apply Hl; [by left | by right].
Qed.

(** What [learn] does to the peers, when the announcement does not throw. *)
Lemma bouncer_learn_spec i source s k s1 k1 : (i < length (peers s))%nat → learn i source s k = Ok (s1, k1) →
  ∃ p, Address.eqb p source = true ∧ s1 = set_peer i p s.
Proof.
  intros Hi. unfold learn, Address.neqb. assert (Address.eqb source source = true) as Hrefl.
  { unfold Address.eqb. by rewrite Z.eqb_refl, bool_decide_eq_true_2. }
  destruct (lookup_lt_is_Some_2 (peers s) i Hi) as [o Eo]. unfold peer_at. rewrite (nth_lookup_Some _ _ _ _ Eo).
  destruct o as [a|]; [destruct (Address.eqb a source) eqn:Ea|]; simpl.
  - intros [= <- <-]. exists a. split; [done|]. unfold set_peer. rewrite list_insert_id by done. by destruct s.
  - intros (k2 & _ & Hr)%result_bind_inv. injection Hr as <- <-. by exists source.
  - intros (k2 & _ & Hr)%result_bind_inv. injection Hr as <- <-. by exists source.
Qed.

(** [recv] of a datagram that fits the buffer. *)
Lemma recv_fits x (k k1 : K) r d addr n src : sys_recvfrom k (FileDescriptor.fd_num x) 65536 MSG_TRUNC = (k1, r, d, (addr, n)) →
  value r = len d → len d <= 65536 → n <= Address.sizeof_storage → Address.of_sockaddr addr n = Ok src →
  UDPSocket.recv x 65536 k = Ok (FileDescriptor.register_read x, k1, UDPSocket.mk src d).
Proof.
  intros Er Hv Hd Hn Hsrc. pose proof (len_nonneg d). unfold UDPSocket.recv.
  change (Address.of_sockaddr [] 0) with (Ok (Address.mk 0 (replicate 128 x00))). rewrite result_bind_ok.
  pose proof (UDPSocket.recv_into_spec x (UDPSocket.mk (Address.mk 0 (replicate 128 x00)) []) 65536 k k1 r d
    addr n ltac:(lia) Er ltac:(lia) ltac:(lia) Hn) as Hr.
  replace (65536 <? value r) with false in Hr by (symmetry; apply Z.ltb_ge; lia).
  destruct Hr as (a & Ea & ->). rewrite Hsrc in Ea. by injection Ea as <-.
Qed.

(** The bouncer passes datagrams on.  A datagram that arrives at socket [i]
    makes its sender the peer of [i] (announced on the console when it is new); if the
    neighbour [j] has a peer and the datagram is not empty, it is sent on, unchanged and
    once, from [j] to that peer; otherwise nothing is sent.  No other peer changes. *)
Theorem bouncer_relays (i j : nat) (s s1 : t) (k k1 k2 : K) (r : sysret) (d addr : bytes) (n : Z) (src : Address.t) :
  (i < length (peers s))%nat → i ≠ j →
  sys_recvfrom k (FileDescriptor.fd_num (socket_at i s)) 65536 MSG_TRUNC = (k1, r, d, (addr, n)) →
  value r = len d → len d <= 65536 → n <= Address.sizeof_storage → Address.of_sockaddr addr n = Ok src →
  learn i src (set_socket i (FileDescriptor.register_read (socket_at i s)) s) k1 = Ok (s1, k2) →
  (∃ p, Address.eqb p src = true ∧ s1 = set_peer i p (set_socket i (FileDescriptor.register_read (socket_at i s)) s)) ∧
  match peer_at j s with
  | Some a =>
      if bool_decide (d = []) then callback i j s k = Ok (s1, k2)
      else ∀ k3 r3, sys_sendmsg k2 (FileDescriptor.fd_num (socket_at j s)) (Some (Address._address a, Address.size a)) [d]
                    = (k3, r3) → value r3 = len d →
        callback i j s k = Ok (set_socket j (FileDescriptor.register_write (socket_at j s)) s1, k3)
  | None => callback i j s k = Ok (s1, k2)
  end.
Proof.
  intros Hpi Hij Er Hv Hd Hn Hsrc Hl. pose proof (len_nonneg d). unfold callback.
  rewrite (recv_fits _ _ _ _ _ _ _ _ Er Hv Hd Hn Hsrc), result_bind_ok. cbv beta iota.
  cbn [UDPSocket.source_address UDPSocket.payload]. rewrite Hl, result_bind_ok. cbv beta iota.
  set (s0 := set_socket i _ s) in *. destruct (bouncer_learn_spec i src s0 k1 s1 k2 Hpi Hl) as (p & Hp & ->).
  split; [by exists p|].
  assert (peer_at j (set_peer i p s0) = peer_at j s) as -> by (unfold peer_at; simpl; by rewrite !nth_lookup, list_lookup_insert_ne).
  assert (socket_at j (set_peer i p s0) = socket_at j s) as -> by (unfold socket_at; simpl; by rewrite !nth_lookup, list_lookup_insert_ne).
  destruct (peer_at j s) as [a|]; [|done]. case_bool_decide; [done|]. simpl negb. cbv iota.
  intros k3 r3 Es Hv2. unfold UDPSocket.sendto, UDPSocket.sendmsg_helper, BufferViewList.as_iovecs.
  rewrite Es, SystemCall_ok, result_bind_ok by lia. rewrite uint64_id by lia.
  assert (BufferViewList.size [d] = len d) as -> by (unfold BufferViewList.size; simpl; rewrite uint64_id; lia).
  rewrite Hv2, Z.eqb_refl. done.
Qed.

End Bouncer.

End Bouncer.

(** ** Two peers on the concrete kernel *)

Module BouncerDemo.
Import DottedQuad.

Definition pair : Bouncer.t :=
  Bouncer.mk [FileDescriptor.mk 3 false false 0 0; FileDescriptor.mk 4 false false 0 0]
    [None; Some (Address.of_ipv4 0x01020304)].
Definition kernel : Machine.t := Machine.new (λ n, if n =? 3 then text "hello" else []) 1.
Definition sender : Address.t := Address.mk 16 (replicate 128 x00).

Definition received : Machine.t :=
  Machine.mk (upd (Machine.inbox kernel) 3 []) (upd (Machine.got kernel) 3 ([] ++ text "hello")) (Machine.put kernel) 1 0.

Lemma bouncer_relays_witness : ∃ s1 k', Bouncer.peer_at 0 s1 = Some sender ∧
  Bouncer.callback 0 1 pair kernel = Ok (Bouncer.set_socket 1 (FileDescriptor.mk 4 false false 0 1) s1, k').
Proof.
  destruct (Bouncer.bouncer_relays (K := Machine.t) 0 1 pair
    (Bouncer.mk [FileDescriptor.mk 3 false false 1 0; FileDescriptor.mk 4 false false 0 0]
       [Some sender; Some (Address.of_ipv4 0x01020304)]) kernel received received
    (SysRet 5 0) (text "hello") (replicate 16 x00) 16 sender) as [_ H1];
    [simpl; lia | lia | reflexivity | reflexivity | vm_compute; discriminate | vm_compute; discriminate
    | reflexivity | reflexivity |].
  eexists _, _. split; [|exact (H1 _ _ eq_refl eq_refl)]. reflexivity.
Defined.

End BouncerDemo.
