(* ===== verification/tcp_config.v ===== *)
(** * Configuration (src/lab/libsponge/tcp_helpers/tcp_config.hh)

    The constants and the configuration record of the TCP implementation. *)

From S2P Require Import Prelude wrapping_integers address.

Module TCPConfig.

Definition DEFAULT_CAPACITY : Z := 64000.
Definition MAX_PAYLOAD_SIZE : Z := 1000.
Definition TIMEOUT_DFLT : Z := 1000.
Definition MAX_RETX_ATTEMPTS : Z := 8.

Record t := mk {
  rt_timeout : Z; recv_capacity : Z; send_capacity : Z; fixed_isn : option WrappingInt32.t }.

Definition new : t := mk TIMEOUT_DFLT DEFAULT_CAPACITY DEFAULT_CAPACITY None.

End TCPConfig.

Module FdAdapterConfig.

Record t := mk { source : Address.t; destination : Address.t; loss_rate_dn : Z; loss_rate_up : Z }.

(** The default addresses are [{"0", 0}]. *)
Definition new `{Address.Resolver} : result t :=
  a ← Address.of_ip_port [x30] 0;
  b ← Address.of_ip_port [x30] 0;
  Ok (mk a b 0 0).

Definition set_source (c : t) (a : Address.t) : t := mk a (destination c) (loss_rate_dn c) (loss_rate_up c).
Definition set_destination (c : t) (a : Address.t) : t := mk (source c) a (loss_rate_dn c) (loss_rate_up c).

End FdAdapterConfig.
