(* ===== verification/options.v ===== *)
(** * Command lines (src/lab/apps/tcp_ipv4.cc, tcp_udp.cc, tcp_ip_ethernet.cc, tcp_native.cc)

    The programs that open a TCP connection read their options in a [while]
    loop over [argv].  Each chain of comparisons is a table here, with the literals in the
    order of the source; [parse_options] is the loop, and the texts of [show_usage] are written to
    [cout] as the source writes them.  The theorems: the loop leaves exactly
    the two positional arguments, and reads back every command line that
    a list of options renders to; what is printed before an exit. *)

From stdpp Require Import strings.
From S2P Require Import Prelude ostream wrapping_integers system file_descriptor address socket tcp_config.

(** ** The C library *)

(** [strncmp(a, b, n) == 0] on strings without a NUL byte. *)
Fixpoint strncmp_eq (n : nat) (a b : bytes) : bool :=
  match n with
  | O => true
  | S n =>
      match a, b with
      | [], [] => true
      | c :: a, d :: b => Byte.eqb c d && strncmp_eq n a b
      | _, _ => false
      end
  end.

(** [strtol(s, nullptr, 0)]: spaces, a sign, a prefix that tells the base, and
    the leading digits of that base; out of range, the nearest [long]. *)
Definition digit_value (b : byte) : Z :=
  let v := byte_val b in
  if (48 <=? v) && (v <=? 57) then v - 48
  else if (97 <=? v) && (v <=? 122) then v - 87
  else if (65 <=? v) && (v <=? 90) then v - 55
  else 99.
Fixpoint leading (base acc : Z) (s : bytes) : Z :=
  match s with
  | b :: s => if digit_value b <? base then leading base (base * acc + digit_value b) s else acc
  | [] => acc
  end.
Definition unsigned_value (s : bytes) : Z :=
  match s with
  | x30 :: (x78 | x58) :: c :: s' => if digit_value c <? 16 then leading 16 0 (c :: s') else 0
  | x30 :: s' => leading 8 0 s'
  | _ => leading 10 0 s
  end.
Definition LONG_MAX : Z := 9223372036854775807.
Definition strtol (s : bytes) : Z :=
  let s := Address.skip_spaces s in
  let v := match s with
           | x2d :: s => - unsigned_value s
           | x2b :: s => unsigned_value s
           | _ => unsigned_value s
           end in
  Z.max (- LONG_MAX - 1) (Z.min LONG_MAX v).

(** ** The loop *)

Section Loop.
Context {S : Type}.

(** What a branch of the chain does: set a flag; store the next argument, with the error
    when there is none; or show the usage and leave. *)
Inductive action :=
| Flag (f : S → S)
| Argument (err : string) (f : S → bytes → S)
| Help.

(** The literals, with the number of characters that [strncmp] compares. *)
Definition table : Type := list (bytes * nat * action).

Fixpoint find_option (l : table) (arg : bytes) : option action :=
  match l with
  | [] => None
  | (literal, n, a) :: l => if strncmp_eq n literal arg then Some a else find_option l arg
  end.

(** A call of [show_usage] with a message or none, and [exit]. *)
Record leave := Leave { msg : option bytes; status : Z }.

(** [curr + 3 >= argc]: the argument of the option would be the host; [args] is [argv] from [curr] on. *)
Definition check_argc (args : list bytes) (err : string) : option leave :=
  if len args <=? 3 then Some (Leave (Some (text err)) 1) else None.

(** [inl]: the program exits; [inr]: what was set, and the arguments that are left. *)
Fixpoint parse_options (l : table) (args : list bytes) (s : S) : leave + (S * list bytes) :=
  match args with
  | [] => inr (s, [])
  | arg :: rest =>
      if 2 <? len args then
        match find_option l arg with
        | Some (Flag f) => parse_options l rest (f s)
        | Some (Argument err f) =>
            match check_argc args err, rest with
            | Some e, _ => inl e
            | None, value :: rest' => parse_options l rest' (f s value)
            | None, [] => inr (s, [])       (* not reached: more than three arguments are left *)
            end
        | Some Help => inl (Leave None 0)
        | None => inl (Leave (Some (text "ERROR: unrecognized option " ++ arg)) 1)
        end
      else inr (s, args)
  end.

(** ** What the loop does *)

(** An option on the command line, as text and as its effect. *)
Record given := Given { literal : bytes; value : option bytes }.

Definition render (g : given) : list bytes := literal g :: option_list (value g).

(** The effect of an option; [None] when the table does not have it in this form. *)
Definition effect (l : table) (g : given) : option (S → S) :=
  match find_option l (literal g), value g with
  | Some (Flag f), None => Some f
  | Some (Argument _ f), Some v => Some (λ s, f s v)
  | _, _ => None
  end.

Definition known (l : table) (g : given) : Prop := is_Some (effect l g).
Definition apply (l : table) (s : S) (g : given) : S := default id (effect l g) s.

Lemma len_cons_pos {A} (a : A) l : len (a :: l) = 1 + len l.
Proof. unfold len. simpl length. lia. Qed.

Lemma parse_render l gs rest : ∀ s, Forall (known l) gs → (2 <= length rest)%nat →
  parse_options l (concat (render <$> gs) ++ rest) s = parse_options l rest (foldl (apply l) s gs).
Proof.
  induction gs as [|[lit v] gs IH]; intros s Hk Hr; [done|]. apply Forall_cons in Hk as [Hk Hks].
  set (tl := concat (render <$> gs) ++ rest).
  replace (concat (render <$> Given lit v :: gs) ++ rest) with (lit :: option_list v ++ tl)
    by (unfold tl; rewrite fmap_cons; simpl; by rewrite app_assoc).
  assert (2 <= len tl) as Htl by (unfold tl, len; rewrite length_app; lia).
  cbn [parse_options foldl]. rewrite <- (IH (apply l s (Given lit v)) Hks Hr). fold tl.
  unfold known, effect in Hk. unfold apply, effect. cbn [literal value] in *.
  destruct (find_option l lit) as [[f|err f|]|]; destruct v as [v|]; try (by destruct Hk).
  - change (option_list None ++ tl) with tl. rewrite len_cons_pos.
    by replace (2 <? 1 + len tl) with true by (case_test; lia).
  - change (option_list (Some v) ++ tl) with (v :: tl). rewrite !len_cons_pos.
    replace (2 <? 1 + (1 + len tl)) with true by (case_test; lia).
    unfold check_argc. rewrite !len_cons_pos. by replace (1 + (1 + len tl) <=? 3) with false by (case_test; lia).
Qed.

(** The loop stops at the last two arguments. *)
Lemma parse_positional l host port s : parse_options l [host; port] s = inr (s, [host; port]).
Proof. done. Qed.

Lemma parse_leaves_two l args : ∀ s s' rest, (2 <= length args)%nat → parse_options l args s = inr (s', rest) →
  ∃ host port pre, rest = [host; port] ∧ args = pre ++ [host; port].
Proof.
  induction args as [args IH] using (induction_ltof1 _ (@length _)). unfold ltof in IH. intros s s' rest Hl.
  destruct args as [|arg args]; [simpl in Hl; lia|]. cbn [parse_options]. rewrite len_cons_pos.
  destruct (Z.ltb_spec 2 (1 + len args)) as [H2|H2].
  - destruct (find_option l arg) as [[f|err f|]|]; [| |done|done].
    + intros E. apply IH in E as (host & port & pre & -> & ->); [|simpl; lia | unfold len in *; lia].
      by exists host, port, (arg :: pre).
    + destruct args as [|v args]; [unfold len in H2; simpl in H2; lia|]. unfold check_argc. rewrite !len_cons_pos in *.
      destruct (Z.leb_spec (1 + (1 + len args)) 3); [done|].
      intros E. apply IH in E as (host & port & pre & -> & ->); [|simpl; lia | unfold len in *; lia].
      by exists host, port, (arg :: v :: pre).
  - intros [= <- <-]. destruct args as [|port [|? ?]]; [simpl in Hl; lia | | unfold len in *; simpl in *; lia].
    by exists arg, port, [].
Qed.

(** An option that is not in the table ends the program; so does one whose argument would be the host. *)
Lemma parse_unknown l arg host port s : find_option l arg = None →
  parse_options l [arg; host; port] s = inl (Leave (Some (text "ERROR: unrecognized option " ++ arg)) 1).
Proof. intros E. cbn [parse_options]. by rewrite E. Qed.

Lemma parse_short l arg host port s err f : find_option l arg = Some (Argument err f) →
  parse_options l [arg; host; port] s = inl (Leave (Some (text err)) 1).
Proof. intros E. cbn [parse_options]. by rewrite E. Qed.

(** Status 0 is for those who asked for help. *)
Definition leave_ok (e : leave) : Prop := status e = match msg e with Some _ => 1 | None => 0 end.

Lemma parse_leave_ok l args : ∀ s e, parse_options l args s = inl e → leave_ok e.
Proof.
  induction args as [args IH] using (induction_ltof1 _ (@length _)). unfold ltof in IH. intros s e.
  destruct args as [|arg args]; [done|]. cbn [parse_options]. destruct (2 <? _); [|done].
  destruct (find_option l arg) as [[f|err f|]|]; [apply IH; simpl; lia | | by intros [= <-] | by intros [= <-]].
  unfold check_argc. destruct (_ <=? 3); [by intros [= <-]|]. destruct args as [|v args]; [done|]. apply IH. simpl. lia.
Qed.

End Loop.
Arguments action : clear implicits.
Arguments table : clear implicits.

(** ** The programs *)

(** The variables of the three [get_config] functions. *)
Record settings := mkSettings {
  c_fsm : TCPConfig.t;
  c_filt : FdAdapterConfig.t;
  listen : bool;
  device : option bytes;      (* tundev, tapdev *)
  source_address : bytes;
  source_port : bytes;
  next_hop_address : bytes }.

Definition set_fsm (s : settings) (c : TCPConfig.t) : settings :=
  mkSettings c (c_filt s) (listen s) (device s) (source_address s) (source_port s) (next_hop_address s).
Definition set_filt (s : settings) (c : FdAdapterConfig.t) : settings :=
  mkSettings (c_fsm s) c (listen s) (device s) (source_address s) (source_port s) (next_hop_address s).
Definition set_listen (s : settings) : settings :=
  mkSettings (c_fsm s) (c_filt s) true (device s) (source_address s) (source_port s) (next_hop_address s).
Definition set_device (s : settings) (d : bytes) : settings :=
  mkSettings (c_fsm s) (c_filt s) (listen s) (Some d) (source_address s) (source_port s) (next_hop_address s).
Definition set_source_address (s : settings) (a : bytes) : settings :=
  mkSettings (c_fsm s) (c_filt s) (listen s) (device s) a (source_port s) (next_hop_address s).
Definition set_source_port (s : settings) (p : bytes) : settings :=
  mkSettings (c_fsm s) (c_filt s) (listen s) (device s) (source_address s) p (next_hop_address s).
Definition set_next_hop (s : settings) (a : bytes) : settings :=
  mkSettings (c_fsm s) (c_filt s) (listen s) (device s) (source_address s) (source_port s) a.

(** [recv_capacity] is a [size_t], [rt_timeout] a [uint16_t]. *)
Definition set_window (s : settings) (arg : bytes) : settings :=
  let c := c_fsm s in
  set_fsm s (TCPConfig.mk (TCPConfig.rt_timeout c) (uint64 (strtol arg)) (TCPConfig.send_capacity c) (TCPConfig.fixed_isn c)).
Definition set_timeout (s : settings) (arg : bytes) : settings :=
  let c := c_fsm s in
  set_fsm s (TCPConfig.mk (uint16 (strtol arg)) (TCPConfig.recv_capacity c) (TCPConfig.send_capacity c) (TCPConfig.fixed_isn c)).

(** The defaults. *)
Definition TUN_DFLT : bytes := text "tun144".
Definition LOCAL_ADDRESS_DFLT : bytes := text "169.254.144.9".
Definition TAP_DFLT : bytes := text "tap10".
Definition ETHERNET_ADDRESS_DFLT : bytes := text "169.254.10.9".
Definition GATEWAY_DFLT : bytes := text "169.254.10.1".

(** ** The usage texts *)

Section Usage.
#[local] Open Scope ostream_scope.
Context (cout : Ostream.t) (argv0 : bytes) (msg : option bytes).

(** The message, and [endl]. *)
Definition usage_end (cout : Ostream.t) : Ostream.t :=
  match msg with Some m => cout << m | None => cout end << x0a.

Definition ipv4_show_usage : Ostream.t := usage_end (
  cout << text "Usage: " << argv0 << (text " [options] <host> <port>" ++ nl ++ nl)
  << (text "   Option                                                          Default" ++ nl)
  << (text "   --                                                              --" ++ nl ++ nl)
  << (text "   -l              Server (listen) mode.                           (client mode)" ++ nl)
  << (text "                   In server mode, <host>:<port> is the address to bind." ++ nl ++ nl)
  << text "   -a <addr>       Set source address (client mode only)           " << LOCAL_ADDRESS_DFLT << nl
  << (text "   -s <port>       Set source port (client mode only)              (random)" ++ nl ++ nl)
  << text "   -w <winsz>      Use a window of <winsz> bytes                   " << TCPConfig.MAX_PAYLOAD_SIZE
  << (nl ++ nl)
  << text "   -t <tmout>      Set rt_timeout to tmout                         " << TCPConfig.TIMEOUT_DFLT << (nl ++ nl)
  << text "   -d <tundev>     Connect to tun <tundev>                         " << TUN_DFLT << (nl ++ nl)
  << (text "   -Lu <loss>      Set uplink loss to <rate> (float in 0..1)       (no loss)" ++ nl)
  << (text "   -Ld <loss>      Set downlink loss to <rate> (float in 0..1)     (no loss)" ++ nl ++ nl)
  << (text "   -h              Show this message." ++ nl ++ nl)).

Definition udp_show_usage : Ostream.t := usage_end (
  cout << text "Usage: " << argv0 << (text " [options] <host> <port>" ++ nl ++ nl)
  << (text "   Option                                                          Default" ++ nl)
  << (text "   --                                                              --" ++ nl ++ nl)
  << (text "   -l              Server (listen) mode.                           (client mode)" ++ nl)
  << (text "                   In server mode, <host>:<port> is the address to bind." ++ nl ++ nl)
  << text "   -w <winsz>      Use a window of <winsz> bytes                   " << TCPConfig.MAX_PAYLOAD_SIZE
  << (nl ++ nl)
  << text "   -t <tmout>      Set rt_timeout to tmout                         " << TCPConfig.TIMEOUT_DFLT << (nl ++ nl)
  << (text "   -Lu <loss>      Set uplink loss to <rate> (float in 0..1)       (no loss)" ++ nl)
  << (text "   -Ld <loss>      Set downlink loss to <rate> (float in 0..1)     (no loss)" ++ nl ++ nl)
  << (text "   -h              Show this message and quit." ++ nl ++ nl)).

Definition ethernet_show_usage : Ostream.t := usage_end (
  cout << text "Usage: " << argv0 << (text " [options] <host> <port>" ++ nl ++ nl)
  << (text "   Option                                                          Default" ++ nl)
  << (text "   --                                                              --" ++ nl ++ nl)
  << text "   -a <addr>       Set IP source address (client mode only)        " << ETHERNET_ADDRESS_DFLT << nl
  << (text "   -s <port>       Set TCP source port (client mode only)          (random)" ++ nl ++ nl)
  << text "   -n <addr>       Set IP next-hop address                         " << GATEWAY_DFLT << nl
  << text "   -w <winsz>      Use a window of <winsz> bytes                   " << TCPConfig.MAX_PAYLOAD_SIZE
  << (nl ++ nl)
  << text "   -t <tmout>      Set rt_timeout to tmout                         " << TCPConfig.TIMEOUT_DFLT << (nl ++ nl)
  << text "   -d <tapdev>     Connect to tap <tapdev>                         " << TAP_DFLT << (nl ++ nl)
  << (text "   -h              Show this message." ++ nl ++ nl)).

(** [tcp_native], on [cerr]. *)
Definition native_show_usage (cerr : Ostream.t) : Ostream.t :=
  cerr << text "Usage: " << argv0 << (text " [-l] <host> <port>" ++ nl ++ nl)
  << text "  -l specifies listen mode; <host>:<port> is the listening address." << x0a.

End Usage.

Section Programs.
(** [loss_of s] is [65535 * strtof(s, nullptr)], in [float], converted to [uint16_t]. *)
Context `{Address.Resolver} (loss_of : bytes → Z).

Definition set_loss_up (s : settings) (arg : bytes) : settings :=
  let c := c_filt s in
  set_filt s (FdAdapterConfig.mk (FdAdapterConfig.source c) (FdAdapterConfig.destination c)
                (FdAdapterConfig.loss_rate_dn c) (loss_of arg)).
Definition set_loss_dn (s : settings) (arg : bytes) : settings :=
  let c := c_filt s in
  set_filt s (FdAdapterConfig.mk (FdAdapterConfig.source c) (FdAdapterConfig.destination c)
                (loss_of arg) (FdAdapterConfig.loss_rate_up c)).

Definition ipv4_table : table settings :=
  [(text "-l", 3%nat, Flag set_listen);
   (text "-a", 3%nat, Argument "ERROR: -a requires one argument." set_source_address);
   (text "-s", 3%nat, Argument "ERROR: -s requires one argument." set_source_port);
   (text "-w", 3%nat, Argument "ERROR: -w requires one argument." set_window);
   (text "-t", 3%nat, Argument "ERROR: -t requires one argument." set_timeout);
   (text "-d", 3%nat, Argument "ERROR: -t requires one argument." set_device);
   (text "-Lu", 3%nat, Argument "ERROR: -Lu requires one argument." set_loss_up);
   (text "-Ld", 3%nat, Argument "ERROR: -Lu requires one argument." set_loss_dn);
   (text "-h", 3%nat, Help)].

Definition udp_table : table settings :=
  [(text "-l", 3%nat, Flag set_listen);
   (text "-w", 3%nat, Argument "ERROR: -w requires one argument." set_window);
   (text "-t", 3%nat, Argument "ERROR: -t requires one argument." set_timeout);
   (text "-Lu", 3%nat, Argument "ERROR: -Lu requires one argument." set_loss_up);
   (text "-Ld", 3%nat, Argument "ERROR: -Lu requires one argument." set_loss_dn);
   (text "-h", 3%nat, Help)].

Definition ethernet_table : table settings :=
  [(text "-a", 3%nat, Argument "ERROR: -a requires one argument." set_source_address);
   (text "-s", 3%nat, Argument "ERROR: -s requires one argument." set_source_port);
   (text "-n", 3%nat, Argument "ERROR: -n requires one argument." set_next_hop);
   (text "-w", 3%nat, Argument "ERROR: -w requires one argument." set_window);
   (text "-t", 3%nat, Argument "ERROR: -t requires one argument." set_timeout);
   (text "-d", 3%nat, Argument "ERROR: -t requires one argument." set_device);
   (text "-h", 3%nat, Help)].

(** The initial values of the variables; [random] is the value of [random_device()()]. *)
Definition ipv4_defaults (c : FdAdapterConfig.t) (random : Z) : settings :=
  mkSettings TCPConfig.new c false None LOCAL_ADDRESS_DFLT (Address.to_string (uint16 random)) [].
Definition udp_defaults (c : FdAdapterConfig.t) : settings := mkSettings TCPConfig.new c false None [] [] [].
Definition ethernet_defaults (c : FdAdapterConfig.t) (random : Z) : settings :=
  mkSettings TCPConfig.new c false (Some TAP_DFLT) ETHERNET_ADDRESS_DFLT (Address.to_string (uint16 random)) GATEWAY_DFLT.

(** The positional arguments. *)
Definition ipv4_finish (s : settings) (host port : bytes)
  : result (leave + (TCPConfig.t * FdAdapterConfig.t * bool * option bytes)) :=
  if listen s then
    source ← Address.of_host (text "0") port;
    let c := FdAdapterConfig.set_source (c_filt s) source in
    p ← Address.port (FdAdapterConfig.source c);
    if p =? 0 then Ok (inl (Leave (Some (text "ERROR: listen port cannot be zero in server mode.")) 1)) else Ok (inr (c_fsm s, c, listen s, device s))
  else
    destination ← Address.of_host host port;
    source ← Address.of_host (source_address s) (source_port s);
    Ok (inr (c_fsm s, FdAdapterConfig.set_source (FdAdapterConfig.set_destination (c_filt s) destination) source,
             listen s, device s)).

Definition udp_finish (s : settings) (host port : bytes) : result (leave + (TCPConfig.t * FdAdapterConfig.t * bool)) :=
  if listen s then
    source ← Address.of_host (text "0") port;
    Ok (inr (c_fsm s, FdAdapterConfig.set_source (c_filt s) source, listen s))
  else
    destination ← Address.of_host host port;
    Ok (inr (c_fsm s, FdAdapterConfig.set_destination (c_filt s) destination, listen s)).

Definition ethernet_finish (s : settings) (host port : bytes)
  : result (leave + (TCPConfig.t * FdAdapterConfig.t * Address.t * option bytes)) :=
  destination ← Address.of_host host port;
  source ← Address.of_host (source_address s) (source_port s);
  next_hop ← Address.of_host (next_hop_address s) (text "0");
  Ok (inr (c_fsm s, FdAdapterConfig.set_source (FdAdapterConfig.set_destination (c_filt s) destination) source,
           next_hop, device s)).

(** [get_config(argc, argv)]; [args] is [argv] from index 1. *)
Definition ipv4_get_config (random : Z) (args : list bytes)
  : result (leave + (TCPConfig.t * FdAdapterConfig.t * bool * option bytes)) :=
  c ← FdAdapterConfig.new;
  match parse_options ipv4_table args (ipv4_defaults c random) with
  | inl e => Ok (inl e)
  | inr (s, rest) => host ← at_index rest 0; port ← at_index rest 1; ipv4_finish s host port
  end.

(** The two positional arguments are found from the end of [argv]. *)
Definition udp_get_config (args : list bytes) : result (leave + (TCPConfig.t * FdAdapterConfig.t * bool)) :=
  c ← FdAdapterConfig.new;
  match parse_options udp_table args (udp_defaults c) with
  | inl e => Ok (inl e)
  | inr (s, _) => host ← at_index args (len args - 2); port ← at_index args (len args - 1); udp_finish s host port
  end.

Definition ethernet_get_config (random : Z) (args : list bytes)
  : result (leave + (TCPConfig.t * FdAdapterConfig.t * Address.t * option bytes)) :=
  c ← FdAdapterConfig.new;
  match parse_options ethernet_table args (ethernet_defaults c random) with
  | inl e => Ok (inl e)
  | inr (s, rest) => host ← at_index rest 0; port ← at_index rest 1; ethernet_finish s host port
  end.

(** The beginning of the three [main] functions; [argv] begins with the program's name. *)
Definition with_arguments {A} (get_config : list bytes → result (leave + A)) (argv : list bytes) : result (leave + A) :=
  if len argv <? 3 then Ok (inl (Leave (Some (text "ERROR: required arguments are missing.")) 1)) else get_config (tail argv).

Lemma ipv4_leave_ok random args e : ipv4_get_config random args = Ok (inl e) → leave_ok e.
Proof.
  intros (c & _ & E)%result_bind_inv. destruct (parse_options _ _ _) as [x|[s rest]] eqn:Ep.
  - injection E as <-. exact (parse_leave_ok _ _ _ _ Ep).
  - apply result_bind_inv in E as (host & _ & (port & _ & E)%result_bind_inv). unfold ipv4_finish in E. destruct (listen s).
    + apply result_bind_inv in E as (a & _ & (p & _ & E)%result_bind_inv). destruct (p =? 0); [by injection E as <- | done].
    + by apply result_bind_inv in E as (a & _ & (b & _ & E)%result_bind_inv).
Qed.

Lemma udp_leave_ok args e : udp_get_config args = Ok (inl e) → leave_ok e.
Proof.
  intros (c & _ & E)%result_bind_inv. destruct (parse_options _ _ _) as [x|[s rest]] eqn:Ep.
  - injection E as <-. exact (parse_leave_ok _ _ _ _ Ep).
  - apply result_bind_inv in E as (host & _ & (port & _ & E)%result_bind_inv). unfold udp_finish in E.
    destruct (listen s); by apply result_bind_inv in E as (a & _ & E).
Qed.

Lemma ethernet_leave_ok random args e : ethernet_get_config random args = Ok (inl e) → leave_ok e.
Proof.
  intros (c & _ & E)%result_bind_inv. destruct (parse_options _ _ _) as [x|[s rest]] eqn:Ep.
  - injection E as <-. exact (parse_leave_ok _ _ _ _ Ep).
  - apply result_bind_inv in E as (host & _ & (port & _ & E)%result_bind_inv). unfold ethernet_finish in E.
    by apply result_bind_inv in E as (a & _ & (b & _ & (h & _ & E)%result_bind_inv)%result_bind_inv).
Qed.

Lemma with_arguments_leave_ok {A} (get_config : list bytes → result (leave + A)) argv e :
  (∀ args e, get_config args = Ok (inl e) → leave_ok e) → with_arguments get_config argv = Ok (inl e) → leave_ok e.
Proof. intros Hg. unfold with_arguments. destruct (_ <? 3); [by intros [= <-] | apply Hg]. Qed.

End Programs.

(** [tcp_native]: in server mode, and the host and port. *)
Definition native_arguments (argv : list bytes) : result (Z + (bool * bytes * bytes)) :=
  if len argv <? 3 then Ok (inl 1)
  else
    first ← at_index argv 1;
    let server_mode := strncmp_eq 3 (text "-l") first in
    if server_mode && (len argv <? 4) then Ok (inl 1)
    else
      let i := if server_mode then 2 else 1 in
      host ← at_index argv i; port ← at_index argv (i + 1); Ok (inr (server_mode, host, port)).

(** The lambda that makes the socket; the listening socket is closed when it returns. *)
Definition native_socket {K} `{Kernel K} `{Address.Resolver} (server_mode : bool) (host port : bytes) (k : K)
  : result (FileDescriptor.t * K) :=
  if server_mode then
    '(listening_socket, k) ← TCPSocket.new k;
    k ← Socket.set_reuseaddr listening_socket k;
    a ← Address.of_host host port;
    k ← Socket.bind listening_socket a k;
    k ← TCPSocket.listen listening_socket 16 k;
    '(listening_socket, socket, k) ← TCPSocket.accept listening_socket k;
    Ok (socket, FileDescriptor.destroy listening_socket k)
  else
    '(connecting_socket, k) ← TCPSocket.new k;
    a ← Address.of_host host port;
    k ← Socket.connect connecting_socket a k;
    Ok (connecting_socket, k).

(** ** Properties *)

(** The options of [tcp_ipv4], as its usage text lists them. *)
Inductive ipv4_option :=
| Listen
| SourceAddress (addr : bytes)
| SourcePort (port : bytes)
| Window (winsz : bytes)
| Timeout (tmout : bytes)
| Device (tundev : bytes)
| LossUp (loss : bytes)
| LossDown (loss : bytes).

Definition show_option (o : ipv4_option) : given :=
  match o with
  | Listen => Given (text "-l") None
  | SourceAddress a => Given (text "-a") (Some a)
  | SourcePort p => Given (text "-s") (Some p)
  | Window w => Given (text "-w") (Some w)
  | Timeout t => Given (text "-t") (Some t)
  | Device d => Given (text "-d") (Some d)
  | LossUp r => Given (text "-Lu") (Some r)
  | LossDown r => Given (text "-Ld") (Some r)
  end.

Definition command_line (os : list ipv4_option) : list bytes := concat ((λ o, render (show_option o)) <$> os).

(** ** What a command line of [tcp_ipv4] asks for

    Of an option that is given more than once, the last one counts; of one that is not given, the default. *)
Definition last_of {A} (f : ipv4_option → option A) (os : list ipv4_option) : option A := last (omap f os).

Definition asked_server (os : list ipv4_option) : bool :=
  existsb (λ o, match o with Listen => true | _ => false end) os.
Definition asked_address (os : list ipv4_option) : bytes :=
  default (text "169.254.144.9") (last_of (λ o, match o with SourceAddress a => Some a | _ => None end) os).
Definition asked_port (random : Z) (os : list ipv4_option) : bytes :=
  default (Address.to_string (uint16 random)) (last_of (λ o, match o with SourcePort p => Some p | _ => None end) os).
Definition asked_window (os : list ipv4_option) : Z :=
  default TCPConfig.DEFAULT_CAPACITY (last_of (λ o, match o with Window w => Some (uint64 (strtol w)) | _ => None end) os).
Definition asked_timeout (os : list ipv4_option) : Z :=
  default TCPConfig.TIMEOUT_DFLT (last_of (λ o, match o with Timeout t => Some (uint16 (strtol t)) | _ => None end) os).
Definition asked_device (os : list ipv4_option) : option bytes :=
  last_of (λ o, match o with Device d => Some d | _ => None end) os.
Definition asked_loss_up (loss_of : bytes → Z) (os : list ipv4_option) : Z :=
  default 0 (last_of (λ o, match o with LossUp r => Some (loss_of r) | _ => None end) os).
Definition asked_loss_dn (loss_of : bytes → Z) (os : list ipv4_option) : Z :=
  default 0 (last_of (λ o, match o with LossDown r => Some (loss_of r) | _ => None end) os).

Definition asked_config (loss_of : bytes → Z) (os : list ipv4_option) (source destination : Address.t)
  : TCPConfig.t * FdAdapterConfig.t * bool * option bytes :=
  (TCPConfig.mk (asked_timeout os) (asked_window os) TCPConfig.DEFAULT_CAPACITY None,
   FdAdapterConfig.mk source destination (asked_loss_dn loss_of os) (asked_loss_up loss_of os), asked_server os, asked_device os).

(** The first argument of an option, and what the program says when it is missing. *)
Definition option_errors : list (bytes * string) :=
  [(text "-a", "ERROR: -a requires one argument."); (text "-s", "ERROR: -s requires one argument.");
   (text "-w", "ERROR: -w requires one argument."); (text "-t", "ERROR: -t requires one argument.");
   (text "-d", "ERROR: -t requires one argument."); (text "-Lu", "ERROR: -Lu requires one argument.");
   (text "-Ld", "ERROR: -Lu requires one argument.")]%string.

(** The arguments that the loop takes for an option; of the last two only the beginning counts. *)
Definition is_option (arg : bytes) : Prop :=
  arg ∈ [text "-l"; text "-a"; text "-s"; text "-w"; text "-t"; text "-d"; text "-h"] ∨ take 3 arg ∈ [text "-Lu"; text "-Ld"].

(** Membership in a list that is written out. *)
Ltac cases_elem H := repeat (apply elem_of_cons in H as [H|H]); [..| by apply elem_of_nil in H].
Ltac find_elem := apply elem_of_cons; first [left; reflexivity | right; find_elem].

Lemma strncmp_eq_whole (lit : bytes) : ∀ arg n, (length lit < n)%nat → strncmp_eq n lit arg = true ↔ arg = lit.
Proof.
  induction lit as [|c lit IH]; intros [|d arg] [|n] Hn; simpl in *; try lia; try done.
  rewrite andb_true_iff, IH by lia. split; [|by intros [= -> ->]; rewrite Byte.byte_dec_lb].
  intros [E%Byte.byte_dec_bl ->]. by rewrite E.
Qed.

Lemma strncmp_eq_start (lit : bytes) : ∀ arg, strncmp_eq (length lit) lit arg = true ↔ take (length lit) arg = lit.
Proof.
  induction lit as [|c lit IH]; intros [|d arg]; simpl; try done. rewrite andb_true_iff, IH.
  split; [intros [E%Byte.byte_dec_bl ->]; by rewrite E | intros [= -> ->]; by rewrite Byte.byte_dec_lb].
Qed.

Lemma not_an_option loss_of arg : ¬ is_option arg → find_option (ipv4_table loss_of) arg = None.
Proof.
  intros Hn. assert (∀ lit, lit ∈ [text "-l"; text "-a"; text "-s"; text "-w"; text "-t"; text "-d"; text "-h"] →
    strncmp_eq 3 lit arg = false) as Hw.
  { intros lit Hl. apply not_true_iff_false. intros E. apply Hn. left. replace arg with lit; [done|]. symmetry.
    apply (strncmp_eq_whole lit arg 3); [|done]. cases_elem Hl; subst; simpl; lia. }
  assert (∀ lit, lit ∈ [text "-Lu"; text "-Ld"] → strncmp_eq 3 lit arg = false) as Hp.
  { intros lit Hl. apply not_true_iff_false. intros E. apply Hn. right. replace (take 3 arg) with lit; [done|]. symmetry.
    cases_elem Hl; subst lit; [exact (proj1 (strncmp_eq_start (text "-Lu") arg) E) | exact (proj1 (strncmp_eq_start (text "-Ld") arg) E)]. }
  cbn [find_option ipv4_table]. repeat first [rewrite Hw by find_elem | rewrite Hp by find_elem]. done.
Qed.

Section Roundtrip.
Context `{Address.Resolver} (loss_of : bytes → Z).

(** What the setters of the table leave after a list of options. *)
Definition settings_after (c : FdAdapterConfig.t) (random : Z) (os : list ipv4_option) : settings :=
  foldl (apply (ipv4_table loss_of)) (ipv4_defaults c random) (show_option <$> os).

Lemma last_of_snoc {A} (f : ipv4_option → option A) os o : last_of f (os ++ [o]) = match f o with Some a => Some a | None => last_of f os end.
Proof. unfold last_of. rewrite omap_app. simpl. destruct (f o); [apply last_snoc | by rewrite app_nil_r]. Qed.

Lemma settings_asked c random os : FdAdapterConfig.loss_rate_dn c = 0 → FdAdapterConfig.loss_rate_up c = 0 →
  settings_after c random os
  = mkSettings (TCPConfig.mk (asked_timeout os) (asked_window os) TCPConfig.DEFAULT_CAPACITY None)
      (FdAdapterConfig.mk (FdAdapterConfig.source c) (FdAdapterConfig.destination c) (asked_loss_dn loss_of os) (asked_loss_up loss_of os))
      (asked_server os) (asked_device os) (asked_address os) (asked_port random os) [].
Proof.
  intros Hd Hu. unfold settings_after. induction os as [|o os IH] using rev_ind.
  { unfold asked_loss_dn, asked_loss_up. destruct c; simpl in *. by subst. }
  rewrite fmap_app, foldl_app, IH. unfold asked_timeout, asked_window, asked_loss_dn, asked_loss_up, asked_server, asked_device,
    asked_address, asked_port. rewrite existsb_app, !last_of_snoc. destruct o; simpl; by rewrite ?orb_false_r, ?orb_true_r.
Qed.

Lemma ipv4_options_known os : Forall (known (ipv4_table loss_of)) (show_option <$> os).
Proof. apply Forall_fmap, Forall_forall. intros [] _; by eexists. Qed.

Lemma ipv4_loop os rest s : (2 <= length rest)%nat →
  parse_options (ipv4_table loss_of) (command_line os ++ rest) s
  = parse_options (ipv4_table loss_of) rest (foldl (apply (ipv4_table loss_of)) s (show_option <$> os)).
Proof.
  intros Hr. unfold command_line.
  replace ((λ o, render (show_option o)) <$> os) with (render <$> (show_option <$> os)) by (by rewrite <- list_fmap_compose).
  apply parse_render; [apply ipv4_options_known | done].
Qed.

(** C20: A command line of [tcp_ipv4] means what its options say.  For any list of options, rendered to [argv] and followed by host
    and port, the configuration is the one asked for: the last of each option counts, with the defaults for the others.  A
    client connects to [host:port] from the asked source; a server takes connections on the port at every local address, whatever
    the host is (the usage text says that [host:port] is bound), and a port of 0 is refused.  After any options, "-h" shows the usage and ends
    the program with status 0; an argument that is no option, or an option whose argument would be the host, shows an error
    too and ends it with status 1. *)
Theorem ipv4_command_line (random : Z) (os : list ipv4_option) (host port : bytes) (a0 : Address.t) :
  Address.of_ip_port [x30] 0 = Ok a0 →
  (∀ destination source, asked_server os = false →
    Address.of_host host port = Ok destination → Address.of_host (asked_address os) (asked_port random os) = Ok source →
    ipv4_get_config loss_of random (command_line os ++ [host; port]) = Ok (inr (asked_config loss_of os source destination))) ∧
  (∀ source p, asked_server os = true → Address.of_host (text "0") port = Ok source → Address.port source = Ok p →
    ipv4_get_config loss_of random (command_line os ++ [host; port])
    = Ok (if p =? 0 then inl (Leave (Some (text "ERROR: listen port cannot be zero in server mode.")) 1)
          else inr (asked_config loss_of os source a0))) ∧
  ipv4_get_config loss_of random (command_line os ++ [text "-h"; host; port]) = Ok (inl (Leave None 0)) ∧
  (∀ arg, ¬ is_option arg → ipv4_get_config loss_of random (command_line os ++ [arg; host; port])
    = Ok (inl (Leave (Some (text "ERROR: unrecognized option " ++ arg)) 1))) ∧
  (∀ arg err, (arg, err) ∈ option_errors →
    ipv4_get_config loss_of random (command_line os ++ [arg; host; port]) = Ok (inl (Leave (Some (text err)) 1))).
Proof.
  intros Ea. set (c := FdAdapterConfig.mk a0 a0 0 0).
  assert (∀ rest, (2 <= length rest)%nat → ipv4_get_config loss_of random (command_line os ++ rest) =
    match parse_options (ipv4_table loss_of) rest (settings_after c random os) with
    | inl e => Ok (inl e)
    | inr (s, rest) => host ← at_index rest 0; port ← at_index rest 1; ipv4_finish s host port
    end) as Hget.
  { intros rest Hr. unfold ipv4_get_config, FdAdapterConfig.new. rewrite Ea, !result_bind_ok. by rewrite ipv4_loop. }
  rewrite (settings_asked c random os) in Hget by done.
  split; [|split; [|split; [|split]]]; [intros destination source El Ed Es | intros source p El Es Ep | | intros arg Hn | intros arg err He];
    rewrite Hget by (simpl; lia).
  - cbn [parse_options]. change (2 <? len [host; port]) with false. cbv iota. cbn [at_index]. unfold ipv4_finish, asked_config. simpl.
    rewrite El, Ed. simpl. by rewrite Es.
  - cbn [parse_options]. change (2 <? len [host; port]) with false. cbv iota. unfold ipv4_finish, asked_config. simpl. rewrite El.
    change [x30] with (text "0"). rewrite Es. simpl. rewrite Ep. simpl. by destruct (p =? 0).
  - done.
  - by rewrite (parse_unknown _ arg) by by apply not_an_option.
  - unfold option_errors in He. cases_elem He; simplify_eq; reflexivity.
Qed.

End Roundtrip.

(** The other two programs read the same loop. *)
Lemma udp_command_line `{Address.Resolver} loss_of gs host port c : FdAdapterConfig.new = Ok c →
  Forall (known (udp_table loss_of)) gs →
  udp_get_config loss_of (concat (render <$> gs) ++ [host; port])
  = udp_finish (foldl (apply (udp_table loss_of)) (udp_defaults c) gs) host port.
Proof.
  intros Ec Hk. unfold udp_get_config. rewrite Ec, result_bind_ok, parse_render by (done || simpl; lia).
  rewrite parse_positional. set (pre := concat _). unfold at_index. rewrite len_app.
  change (len [host; port]) with 2. pose proof (len_nonneg pre).
  rewrite !lookup_app_r by (unfold len in *; lia).
  replace (Z.to_nat (len pre + 2 - 2) - length pre)%nat with 0%nat by (unfold len; lia).
  by replace (Z.to_nat (len pre + 2 - 1) - length pre)%nat with 1%nat by (unfold len; lia).
Qed.

Lemma ethernet_command_line `{Address.Resolver} random gs host port c : FdAdapterConfig.new = Ok c →
  Forall (known ethernet_table) gs →
  ethernet_get_config random (concat (render <$> gs) ++ [host; port])
  = ethernet_finish (foldl (apply ethernet_table) (ethernet_defaults c random) gs) host port.
Proof.
  intros Ec Hk. unfold ethernet_get_config. by rewrite Ec, result_bind_ok, parse_render by (done || simpl; lia).
Qed.

(** Where the loop differs from the usage text: three characters of "-Lu" and "-Ld"
    are compared, so that anything that begins with them is taken for the option; a timeout is
    cut to 16 bits, so that 65536 is none at all; the window without "-w" is not the one announced; and
    the errors for "-d" and "-Ld" name other options. *)
Lemma usage_divergences loss_of s :
  find_option (ipv4_table loss_of) (text "-Ludicrous") = Some (Argument "ERROR: -Lu requires one argument." (set_loss_up loss_of)) ∧
  TCPConfig.rt_timeout (c_fsm (set_timeout s (text "65536"))) = 0 ∧
  TCPConfig.recv_capacity TCPConfig.new ≠ TCPConfig.MAX_PAYLOAD_SIZE ∧
  (∃ f, find_option (ipv4_table loss_of) (text "-d") = Some (Argument "ERROR: -t requires one argument." f)) ∧
  (∃ f, find_option (ipv4_table loss_of) (text "-Ld") = Some (Argument "ERROR: -Lu requires one argument." f)).
Proof. do 3 (split; [done|]). split; by eexists. Qed.

(** A server with a small window, on a resolver of dotted quads. *)
Lemma ipv4_command_line_witness :
  ipv4_get_config (H := DottedQuad.resolver) (λ _, 0) 7
    [text "-w"; text "0x10"; text "-l"; text "-t"; text "250"; text "1.2.3.4"; text "80"]
  = Ok (inr (TCPConfig.mk 250 16 TCPConfig.DEFAULT_CAPACITY None,
             FdAdapterConfig.mk (Address.endpoint 0 80) (Address.of_ipv4 0) 0 0, true, None)).
Proof.
  exact (proj1 (proj2 (ipv4_command_line (H := DottedQuad.resolver) (λ _, 0) 7 [Window (text "0x10"); Listen; Timeout (text "250")]
    (text "1.2.3.4") (text "80") (Address.of_ipv4 0) eq_refl)) (Address.endpoint 0 80) 80 eq_refl eq_refl eq_refl).
Defined.
