(* ===== verification/udp_tcpdump.v ===== *)
(** * Decoding captured packets (src/lab/apps/udp_tcpdump.cc)

    The program captures packets, finds the UDP payload in each by link type,
    IPv4 or IPv6 header, and prints it as a TCP segment.  Here: its arguments, the
    search for the payload, the loop over captured packets, and what is printed; [libpcap] is a
    record of what its functions return, [inet_ntop] an argument.  The theorems say
    which packets it reads within their bounds, that the walk over the IPv6
    extension headers ends, which packets stop the program, and what is printed of the others. *)

From stdpp Require Import strings.
From S2P Require Import Prelude address ostream hexdump wrapping_integers buffer parser util tcp_header tcp_segment header_text options.

Module Tcpdump.

(** [show_usage(arg0, errmsg)]. *)
Definition show_usage (cout : Ostream.t) (arg0 : bytes) (errmsg : option bytes) : Ostream.t :=
  (let cout := cout << text "Usage: " << arg0 << (text " [-i <intf>] [-F <file>] [-h|--help] <expression>" ++ nl ++ nl)
                 << (text "  -i <intf>    only capture packets from <intf> (default: all)" ++ nl ++ nl)
                 << (text "  -F <file>    reads in a filter expression from <file>" ++ nl)
                 << (text "               <expression> is ignored if -F is supplied." ++ nl ++ nl)
                 << (text "  -h, --help   show this message" ++ nl ++ nl)
                 << (text "  <expression> a filter expression in pcap-filter(7) syntax" ++ nl) in
   match errmsg with Some m => cout << x0a << m | None => cout end << x0a)%ostream.

(** [parse_arguments(argc, argv, &dev)]: the device and the rest of the
    arguments, which form the filter; [inl]: usage and exit.  [check_arg] is the test for an argument. *)
Fixpoint parse_arguments (args : list bytes) (dev : option bytes) : leave + (option bytes * list bytes) :=
  match args with
  | [] => inr (dev, [])
  | arg :: rest =>
      if strncmp_eq 3 (text "-i") arg then
        match rest with
        | [] => inl (Leave (Some (text "ERROR: -i requires an argument")) 1)
        | value :: rest => parse_arguments rest (Some value)
        end
      else if strncmp_eq 3 (text "-h") arg || strncmp_eq 7 (text "--help") arg then inl (Leave None 0)
      else inr (dev, args)
  end.

(** The filter expression. *)
Definition filter_expression (args : list bytes) : bytes := concat ((λ a, a ++ [x20]) <$> args).

(** ** The payload of a UDP datagram *)

(** [data[i]], and an address of [n] bytes at [data + i]; [data] holds the captured bytes. *)
Definition get (data : bytes) (i : Z) : result Z := b ← at_index data i; Ok (byte_val b).
Definition address_at (data : bytes) (i n : Z) : result bytes :=
  if i + n <=? len data then Ok (ztake n (zdrop i data)) else Throw OutOfBounds.

(** The loop over the extension headers.  The offset grows by eight or more in
    every round and stays below the length, which is enough fuel ([ipv6_loop_safe]). *)
Fixpoint ipv6_loop (fuel : nat) (data : bytes) (nxt data_offset : Z) : result (bytes + Z) :=
  if negb (nxt =? 0x11) then
    if negb (nxt =? 0) && negb (nxt =? 43) && negb (nxt =? 60) then Ok (inl (text "Not UDP or fragmented; "))
    else
      match fuel with
      | O => Throw OutOfFuel
      | S fuel =>
          nxt ← get data data_offset;
          n ← get data (data_offset + 1);
          let data_offset := data_offset + 8 * (1 + n) in
          if len data <? data_offset + 2 then Ok (inl []) else ipv6_loop fuel data nxt data_offset
      end
  else Ok (inr data_offset).

(** [process_ipv4_ipv6]: the offset of the UDP payload with the addresses; or -1, and what went to [cerr]. *)
Definition process_ipv4_ipv6 (data : bytes) : result (bytes + Z * bytes * bytes) :=
  if len data <? 1 then Ok (inl [])
  else
    first ← get data 0;
    let pt := Z.land first 0xf0 in
    if pt =? 0x40 then
      let data_offset := Z.land first 0x0f * 4 in
      if len data <? data_offset then Ok (inl [])
      else
        proto ← get data 9;
        if negb (proto =? 0x11) then Ok (inl (text "Not UDP; "))
        else
          src_addr ← address_at data 12 4;
          dst_addr ← address_at data 16 4;
          Ok (inr (data_offset + 8, src_addr, dst_addr))
    else if pt =? 0x60 then
      if len data <? 42 then Ok (inl [])
      else
        nxt ← get data 6;
        o ← ipv6_loop (length data) data nxt 40;
        match o with
        | inl e => Ok (inl e)
        | inr data_offset =>
            src_addr ← address_at data 8 16;
            dst_addr ← address_at data 24 16;
            Ok (inr (data_offset + 8, src_addr, dst_addr))
        end
    else Ok (inl []).

(** ** A captured packet *)

Inductive datalink := DLT_NULL | DLT_EN10MB | DLT_LINUX_SLL | DLT_LINUX_SLL2 | DLT_RAW.

Definition header_length (dl : datalink) : Z :=
  match dl with DLT_NULL => 4 | DLT_EN10MB => 14 | DLT_LINUX_SLL => 16 | DLT_LINUX_SLL2 => 20 | DLT_RAW => 0 end.

(** A 16-bit type field at [i]. *)
Definition type_at (pkt : bytes) (i : Z) : result Z :=
  a ← get pkt i; b ← get pkt (i + 1); Ok (Z.lor (Z.shiftl a 8) b).

Definition malformed : bytes := text "[INFO] Skipping malformed packet." ++ nl.
Definition non_ip : bytes := text "[INFO] Skipping non-IP packet." ++ nl.

(** The tests on the link-layer header: a message on [cerr] if the packet is skipped. *)
Definition link_header (dl : datalink) (pkt : bytes) : result (option bytes) :=
  match dl with
  | DLT_NULL =>
      if len pkt <? 4 then Ok (Some malformed)
      else
        pt ← get pkt 3;
        if negb (pt =? 2) && negb (pt =? 24) && negb (pt =? 28) && negb (pt =? 30) then Ok (Some non_ip) else Ok None
  | DLT_EN10MB =>
      if len pkt <? 14 then Ok (Some malformed)
      else pt ← type_at pkt 12; if negb (pt =? 0x0800) && negb (pt =? 0x86dd) then Ok (Some non_ip) else Ok None
  | DLT_LINUX_SLL =>
      if len pkt <? 16 then Ok (Some malformed)
      else pt ← type_at pkt 14; if negb (pt =? 0x0800) && negb (pt =? 0x86dd) then Ok (Some non_ip) else Ok None
  | DLT_LINUX_SLL2 =>
      if len pkt <? 20 then Ok (Some malformed)
      else pt ← type_at pkt 0; if negb (pt =? 0x0800) && negb (pt =? 0x86dd) then Ok (Some non_ip) else Ok None
  | DLT_RAW => Ok None
  end.

(** What is printed of a packet; [Skipped] with what goes to [cerr]. *)
Inductive printed :=
| Skipped (message : bytes)
| Unrecognized (src dst : bytes) (payload : bytes)
| Segment (src dst : bytes) (seg : TCPSegment.t) (correct : bool) (payload : bytes).

(** [string(payload)] of a view of [n] bytes at [off]. *)
Definition string_of_view (pkt : bytes) (off n : Z) : result bytes :=
  if max_string <? n then Throw length_error
  else if off + n <=? len pkt then Ok (ztake n (zdrop off pkt)) else Throw OutOfBounds.

Definition packet (dl : datalink) (pkt : bytes) : result printed :=
  skip ← link_header dl pkt;
  match skip with
  | Some message => Ok (Skipped message)
  | None =>
    let hdr_off := header_length dl in
    r ← process_ipv4_ipv6 (zdrop hdr_off pkt);
    match r with
    | inl e => Ok (Skipped (e ++ text "Error parsing IPv4/IPv6 packet. Skipping." ++ nl))
    | inr (start_off, src, dst) =>
        let payload_off := hdr_off + start_off in
        let payload_len := uint64 (len pkt - payload_off) in
        payload ← string_of_view pkt payload_off payload_len;
        '(seg, res) ← TCPSegment.parse TCPSegment.new (Buffer.of_string payload) 0;
        if ParseResult_index BadChecksum <? ParseResult_index res then Ok (Unrecognized src dst payload)
        else Ok (Segment src dst seg (bool_decide (res = NoError)) payload)
    end
  end.

(** ** What is printed *)

Section Output.
#[local] Open Scope ostream_scope.

(** [inet_ntop] of an IPv4 or IPv6 address, if it can be converted. *)
Context (inet_ntop : bytes → option bytes).

(** [inet4_addr] and [inet6_addr]. *)
Definition inet_addr (data : bytes) : bytes := default (text "unknown") (inet_ntop data).

Definition flag (b : bool) (s : string) : bytes := if b then text s else [].

Definition show_packet (cout cerr : Ostream.t) (p : printed) : result (Ostream.t * Ostream.t) :=
  match p with
  | Skipped message => Ok (cout, cerr << message)
  | Unrecognized src dst payload =>
      let cout := cout << text "(did not recognize TCP header) src: " << inet_addr src << text " dst: " << inet_addr dst << x0a in
      cout ← Hexdump.hexdump payload 8 cout; Ok (cout, cerr)
  | Segment src dst seg correct payload =>
      let tcp_hdr := TCPSegment.header seg in
      let seqlen := uint32 (TCPSegment.length_in_sequence_space seg) in
      let cout := cout << inet_addr src << x3a << TCPHeader.sport tcp_hdr << text " > " << inet_addr dst << x3a
                    << TCPHeader.dport tcp_hdr << (nl ++ text "    Flags [")
                    << flag (TCPHeader.urg tcp_hdr) "U" << flag (TCPHeader.psh tcp_hdr) "P" << flag (TCPHeader.rst tcp_hdr) "R"
                    << flag (TCPHeader.syn tcp_hdr) "S" << flag (TCPHeader.fin tcp_hdr) "F" << flag (TCPHeader.ack tcp_hdr) "."
                    << text "] cksum 0x" << Ostream.hex << Ostream.setw 4 << TCPHeader.cksum tcp_hdr << Ostream.dec
                    << (if correct then text " (correct)" else text " (incorrect!)")
                    << text " seq " << TCPHeader.seqno tcp_hdr in
      let cout := if 0 <? seqlen then cout << x3a << WrappingInt32.add (TCPHeader.seqno tcp_hdr) seqlen else cout in
      let cout := cout << text " ack " << TCPHeader.ackno tcp_hdr << text " win " << TCPHeader.win tcp_hdr
                    << text " length " << len payload << x0a in
      cout ← Hexdump.hexdump payload 8 cout; Ok (cout, cerr)
  end.

(** The capture loop, over what [pcap_next_ex] returns: its value, and the packet; and the end of [main].  The
    result is what was printed, and the exit status or the fault that nothing catches.  The handle is closed
    before its error is asked for. *)
Fixpoint capture (dl : datalink) (next : list (Z * bytes)) (cout cerr : Ostream.t) : Ostream.t * Ostream.t * result Z :=
  match next with
  | [] => (cout, cerr, Throw OutOfFuel)
  | (next_ret, pkt) :: next =>
      if 0 <=? next_ret then
        if next_ret =? 0 then capture dl next cout cerr
        else
          match p ← packet dl pkt; show_packet cout cerr p with
          | Ok (cout, cerr) => capture dl next cout cerr
          | Throw f => (cout, cerr, Throw f)
          end
      else if next_ret =? -1 then (cout << text "Error listening for packet: ", cerr, Throw DanglingPointer)
      else (cout, cerr, Ok 0)
  end.

(** What the functions of [libpcap] return, for a handle. *)
Record pcap := {
  pcap_open_live : option bytes → option bytes;     (* [Some errbuf] when there is no handle *)
  pcap_datalink : Z;
  datalink_of : Z → option datalink;                (* the values of the DLT_ constants *)
  pcap_datalink_val_to_description : Z → bytes;
  pcap_compile : bytes → option bytes;              (* [Some error] when the result is not 0 *)
  pcap_setfilter : bytes → option bytes;
  pcap_next_ex : list (Z * bytes) }.

Definition main (p : pcap) (argv : list bytes) (cout cerr : Ostream.t) : Ostream.t * Ostream.t * result Z :=
  match argv with
  | [] => (cout, cerr, Throw OutOfBounds)
  | argv0 :: args =>
      match parse_arguments args None with
      | inl (Leave errmsg status) => (show_usage cout argv0 errmsg, cerr, Ok status)
      | inr (dev, rest) =>
          let cout := match dev with
                      | Some d => cout << text "Capturing on interface " << d
                      | None => cout << text "Capturing on all interfaces"
                      end in
          match pcap_open_live p dev with
          | Some errbuf => (cout << (nl ++ text "Error initiating capture: ") << errbuf << x0a, cerr, Ok 1)
          | None =>
              let description := pcap_datalink_val_to_description p (pcap_datalink p) in
              match datalink_of p (pcap_datalink p) with
              | None => (cout << (nl ++ text "Error: unsupported datalink type ") << description << x0a, cerr, Ok 1)
              | Some dl =>
                  let cout := cout << text " (type: " << description << (text ")" ++ nl) in
                  let expression := filter_expression rest in
                  let cout := cout << text "Using filter expression: " << expression << nl in
                  match pcap_compile p expression with
                  | Some e => (cout << text "Error compiling filter expression: " << e << x0a, cerr, Ok 1)
                  | None =>
                      match pcap_setfilter p expression with
                      | Some e => (cout << text "Error configuring packet filter: " << e << x0a, cerr, Ok 1)
                      | None => capture dl (pcap_next_ex p) (cout << Ostream.setfill x30) cerr
                      end
                  end
              end
          end
      end
  end.

End Output.

(** ** Bounds *)

Lemma get_ok data i : 0 <= i < len data → ∃ v, get data i = Ok v ∧ 0 <= v < 256.
Proof.
  intros Hi. unfold get, at_index. destruct (lookup_lt_is_Some_2 data (Z.to_nat i)) as [b ->]; [unfold len in Hi; lia|].
  rewrite result_bind_ok. exists (byte_val b). split; [done|]. apply byte_val_range.
Qed.

Lemma address_at_ok data i n : i + n <= len data → address_at data i n = Ok (ztake n (zdrop i data)).
Proof. intros Hi. unfold address_at. case_test; [done | lia]. Qed.

(** The walk over the extension headers ends, within the bytes captured. *)
Lemma ipv6_loop_safe data fuel : ∀ nxt off, 40 <= off → off + 2 <= len data → len data - off <= Z.of_nat fuel →
  ∃ o, ipv6_loop fuel data nxt off = Ok o ∧ ∀ off', o = inr off' → 40 <= off' ∧ off' + 2 <= len data.
Proof.
  induction fuel as [|fuel IH]; intros nxt off Ho Hl Hf; [lia|]. cbn [ipv6_loop].
  destruct (negb (nxt =? 0x11)); [|eexists; split; [done|]; intros off' [= <-]; lia].
  destruct (_ && _); [by eexists|].
  destruct (get_ok data off) as (v & -> & _); [lia|]. destruct (get_ok data (off + 1)) as (w & -> & Hw); [lia|].
  rewrite !result_bind_ok. cbv zeta. destruct (Z.ltb_spec (len data) (off + 8 * (1 + w) + 2)); [by eexists|].
  apply IH; lia.
Qed.

(** An IPv4 packet with a header of at least five words. *)
Definition ipv4_header_ok (data : bytes) : Prop :=
  ∀ first, get data 0 = Ok first → Z.land first 0xf0 = 0x40 → 5 <= Z.land first 0x0f.

Lemma process_safe data : ipv4_header_ok data →
  ∃ r, process_ipv4_ipv6 data = Ok r ∧ ∀ off src dst, r = inr (off, src, dst) → 28 <= off <= len data + 8.
Proof.
  intros Hv4. unfold process_ipv4_ipv6. destruct (Z.ltb_spec (len data) 1); [by eexists|].
  destruct (get_ok data 0) as (first & E0 & _); [lia|]. specialize (Hv4 first E0). rewrite E0, result_bind_ok. cbv zeta.
  destruct (Z.eqb_spec (Z.land first 0xf0) 0x40) as [E4|_].
  - specialize (Hv4 E4). destruct (Z.ltb_spec (len data) (Z.land first 0x0f * 4)); [by eexists|].
    destruct (get_ok data 9) as (proto & -> & _); [lia|]. rewrite result_bind_ok. destruct (negb _); [by eexists|].
    rewrite !address_at_ok by lia. rewrite !result_bind_ok. eexists. split; [done|]. intros off src dst [= <- _ _]. lia.
  - destruct (_ =? 0x60); [|by eexists]. destruct (Z.ltb_spec (len data) 42); [by eexists|].
    destruct (get_ok data 6) as (nxt & -> & _); [lia|]. rewrite result_bind_ok.
    destruct (ipv6_loop_safe data (length data) nxt 40) as (o & -> & Ho); [lia | lia | unfold len; lia|].
    rewrite result_bind_ok. destruct o as [e|off]; [by eexists|]. destruct (Ho off eq_refl).
    rewrite !address_at_ok by lia. rewrite !result_bind_ok. eexists. split; [done|]. intros off' src dst [= <- _ _]. lia.
Qed.

Lemma link_header_safe dl pkt : ∃ b, link_header dl pkt = Ok b ∧ (b = None → header_length dl <= len pkt).
Proof.
  pose proof (len_nonneg pkt).
  assert (∀ i, 0 <= i → i + 2 <= len pkt → ∃ v, type_at pkt i = Ok v) as Ht.
  { intros i H0 Hi. unfold type_at. destruct (get_ok pkt i) as (v & -> & _); [lia|].
    destruct (get_ok pkt (i + 1)) as (w & -> & _); [lia|]. rewrite !result_bind_ok. by eexists. }
  destruct dl; cbn [link_header header_length].
  - destruct (Z.ltb_spec (len pkt) 4); [by eexists|]. destruct (get_ok pkt 3) as (v & -> & _); [lia|]. rewrite result_bind_ok.
    destruct (negb _ && _ && _ && _); by eexists.
  - destruct (Z.ltb_spec (len pkt) 14); [by eexists|]. destruct (Ht 12) as (v & ->); [lia..|]. rewrite result_bind_ok.
    destruct (negb _ && _); by eexists.
  - destruct (Z.ltb_spec (len pkt) 16); [by eexists|]. destruct (Ht 14) as (v & ->); [lia..|]. rewrite result_bind_ok.
    destruct (negb _ && _); by eexists.
  - destruct (Z.ltb_spec (len pkt) 20); [by eexists|]. destruct (Ht 0) as (v & ->); [lia..|]. rewrite result_bind_ok.
    destruct (negb _ && _); by eexists.
  - by eexists.
Qed.

(** ** Properties *)

(** C21: Decoding stays within the captured bytes.  For a packet of any link type
    whose IPv4 header, if it has one, claims at least five words: the walk over
    the IPv6 extension headers ends, nothing is read outside the packet, and the
    program goes on to the next packet, with one exception: when the capture ends
    inside the UDP header, the length of the payload wraps around and the
    program ends with an exception. *)
Theorem packet_bounds (dl : datalink) (pkt : bytes) :
  len pkt < 2147483648 → ipv4_header_ok (zdrop (header_length dl) pkt) →
  match packet dl pkt with
  | Ok _ => True
  | Throw f => f = length_error ∧
      ∃ off src dst, process_ipv4_ipv6 (zdrop (header_length dl) pkt) = Ok (inr (off, src, dst)) ∧
        len pkt < header_length dl + off
  end.
Proof.
  intros Hlen Hv4. unfold packet. destruct (link_header_safe dl pkt) as (b & -> & Hb). rewrite result_bind_ok.
  destruct b; [done|]. specialize (Hb eq_refl). cbv iota.
  destruct (process_safe _ Hv4) as (r & E & Hoff). rewrite E, result_bind_ok. destruct r as [e|[[off src] dst]]; [done|].
  specialize (Hoff off src dst eq_refl). pose proof (len_nonneg pkt).
  assert (0 <= header_length dl) as Hh by (by destruct dl). rewrite len_zdrop in Hoff by lia. cbv zeta. unfold string_of_view.
  destruct (Z.ltb_spec (len pkt) (header_length dl + off)) as [Hcut|Hfit].
  - assert (uint64 (len pkt - (header_length dl + off)) = two64 + (len pkt - (header_length dl + off))) as ->.
    { unfold uint64. rewrite <- (Z_mod_plus _ 1) by lia. rewrite Z.mod_small; lia. }
    replace (max_string <? _) with true by (symmetry; apply Z.ltb_lt; lia). split; [done|]. by exists off, src, dst.
  - rewrite uint64_id by lia. replace (max_string <? _) with false by (symmetry; apply Z.ltb_ge; lia).
    replace (_ <=? len pkt) with true by (symmetry; apply Z.leb_le; lia). rewrite result_bind_ok.
    match goal with |- context [Buffer.of_string ?p] =>
      destruct (TCPSegment.segment_parse_total TCPSegment.new (Buffer.of_string p) 0) as (seg & res & -> & _) end; [|lia|].
    + apply Buffer.wf_of_string. rewrite len_ztake by lia. lia.
    + rewrite result_bind_ok. by destruct (_ <? _).
Qed.

(** An Ethernet frame with an IPv4 datagram whose capture ends after two bytes of the UDP header. *)
Definition cut_packet : bytes :=
  replicate 12 x00 ++ [x08; x00] ++ [x45; x00; x00; x1c; x00; x00; x00; x00; x40; x11; x00; x00] ++
  [x0a; x00; x00; x01] ++ [x0a; x00; x00; x02] ++ [x12; x34].

Lemma packet_bounds_witness : len cut_packet = 36 ∧ packet DLT_EN10MB cut_packet = Throw length_error ∧
  ∃ off src dst, process_ipv4_ipv6 (zdrop (header_length DLT_EN10MB) cut_packet) = Ok (inr (off, src, dst)) ∧
    len cut_packet < header_length DLT_EN10MB + off.
Proof.
  split; [reflexivity|].
  assert (packet DLT_EN10MB cut_packet = Throw length_error) as E by (vm_compute; reflexivity). split; [exact E|].
  pose proof (packet_bounds DLT_EN10MB cut_packet) as H. rewrite E in H. apply H; [reflexivity|].
  intros first E0. vm_compute in E0. injection E0 as <-. intros _. vm_compute. discriminate.
Defined.

(** An IPv4 header that claims less than five words makes it read outside the packet: one byte is enough. *)
Lemma short_header_overread : process_ipv4_ipv6 [x40] = Throw OutOfBounds.
Proof. reflexivity. Qed.

(** A segment with a wrong checksum is printed with an empty header.  The
    program means to print such a segment and to call its checksum incorrect; but
    [TCPSegment::parse] returns before it reads the header, so that ports, flags
    and numbers are those of a new segment, whatever the packet holds. *)
Theorem incorrect_segment_unread (dl : datalink) (pkt : bytes) (off v : Z) (src dst payload : bytes) :
  link_header dl pkt = Ok None →
  process_ipv4_ipv6 (zdrop (header_length dl) pkt) = Ok (inr (off, src, dst)) →
  string_of_view pkt (header_length dl + off) (uint64 (len pkt - (header_length dl + off))) = Ok payload →
  InternetChecksum.value (InternetChecksum.add (InternetChecksum.new 0) payload) = Ok v → v ≠ 0 →
  packet dl pkt = Ok (Segment src dst TCPSegment.new false payload).
Proof.
  intros El Ep Es Ev Hv. unfold packet. rewrite El, result_bind_ok. cbv iota zeta.
  rewrite Ep, result_bind_ok, Es, result_bind_ok. unfold TCPSegment.parse.
  rewrite Buffer.str_of_string, Ev, result_bind_ok. replace (v =? 0) with false by (symmetry; by apply Z.eqb_neq). done.
Qed.

(** A raw packet with a segment of four bytes "abcd". *)
Definition damaged_packet : bytes :=
  [x45; x00; x00; x20; x00; x00; x00; x00; x40; x11; x00; x00] ++ [x0a; x00; x00; x01] ++ [x0a; x00; x00; x02] ++
  replicate 8 x00 ++ text "abcd".

Lemma incorrect_segment_unread_witness :
  packet DLT_RAW damaged_packet
  = Ok (Segment [x0a; x00; x00; x01] [x0a; x00; x00; x02] TCPSegment.new false (text "abcd")).
Proof.
  apply (incorrect_segment_unread DLT_RAW damaged_packet 28 (65535 - 0xc4c6));
    [reflexivity | vm_compute; reflexivity | vm_compute; reflexivity | vm_compute; reflexivity | discriminate].
Defined.

(** ** What a capture prints *)

Section Printed.
Context (inet_ntop : bytes → option bytes).

Definition payload_of (p : printed) : bytes :=
  match p with Skipped _ => [] | Unrecognized _ _ payload => payload | Segment _ _ _ _ payload => payload end.

(** The lines on [cout] and on [cerr]. *)
Definition out_text (p : printed) : bytes :=
  match p with
  | Skipped _ => []
  | Unrecognized src dst payload =>
      text "(did not recognize TCP header) src: " ++ inet_addr inet_ntop src ++ text " dst: " ++ inet_addr inet_ntop dst ++
      nl ++ Hexdump.dump 8 payload
  | Segment src dst seg correct payload =>
      let h := TCPSegment.header seg in
      let seqlen := uint32 (TCPSegment.length_in_sequence_space seg) in
      let last := WrappingInt32.raw_value (WrappingInt32.add (TCPHeader.seqno h) seqlen) in
      inet_addr inet_ntop src ++ text ":" ++ Address.decimal 20 (TCPHeader.sport h) ++ text " > " ++
      inet_addr inet_ntop dst ++ text ":" ++ Address.decimal 20 (TCPHeader.dport h) ++ nl ++ text "    Flags [" ++
      flag (TCPHeader.urg h) "U" ++ flag (TCPHeader.psh h) "P" ++ flag (TCPHeader.rst h) "R" ++
      flag (TCPHeader.syn h) "S" ++ flag (TCPHeader.fin h) "F" ++ flag (TCPHeader.ack h) "." ++
      text "] cksum 0x" ++ ReadText.padded 4 (TCPHeader.cksum h) ++ text (if correct then " (correct)" else " (incorrect!)") ++
      text " seq " ++ Address.decimal 20 (WrappingInt32.raw_value (TCPHeader.seqno h)) ++
      (if 0 <? seqlen then text ":" ++ Address.decimal 20 last else []) ++
      text " ack " ++ Address.decimal 20 (WrappingInt32.raw_value (TCPHeader.ackno h)) ++
      text " win " ++ Address.decimal 20 (TCPHeader.win h) ++
      text " length " ++ Address.decimal 20 (len payload) ++ nl ++ Hexdump.dump 8 payload
  end.
Definition err_text (p : printed) : bytes := match p with Skipped message => message | _ => [] end.

(** The state of [cout] in the loop, and of [cerr]. *)
Definition out_at (c : bytes) : Ostream.t := Ostream.at_end c false false x30.
Definition err_at (c : bytes) : Ostream.t := Ostream.at_end c false false x20.

Lemma show_packet_writes c e p : len (payload_of p) <= 2147483647 →
  show_packet inet_ntop (out_at c) (err_at e) p = Ok (out_at (c ++ out_text p), err_at (e ++ err_text p)).
Proof.
  intros Hl. unfold out_at, err_at. destruct p as [m|src dst payload|src dst seg correct payload]; cbn [show_packet payload_of] in *.
  - cbn [out_text err_text]. rewrite app_nil_r. by rewrite Ostream.string_end.
  - cbv zeta. written. rewrite Hexdump.hexdump_writes, result_bind_ok by done. cbn [out_text err_text].
    rewrite app_nil_r. unfold nl. by rewrite <- !app_assoc.
  - cbv zeta. set (seqlen := uint32 _). cbn [out_text err_text]. cbv zeta. fold seqlen. rewrite app_nil_r.
    destruct (0 <? seqlen); written; rewrite Hexdump.hexdump_writes, result_bind_ok by done; unfold ReadText.padded, nl;
      destruct correct; rewrite <- ?app_assoc; reflexivity.
Qed.

(** What [pcap_next_ex] returns, and what the packets among it are printed as; a return value of 0 is a timeout. *)
Inductive captures (dl : datalink) : list (Z * bytes) → list printed → Prop :=
| captures_nil : captures dl [] []
| captures_timeout pkt next ps : captures dl next ps → captures dl ((0, pkt) :: next) ps
| captures_packet r pkt p next ps : 0 < r → packet dl pkt = Ok p → len (payload_of p) <= 2147483647 →
    captures dl next ps → captures dl ((r, pkt) :: next) (p :: ps).

Lemma capture_app dl next ps rest : captures dl next ps → ∀ c e,
  capture inet_ntop dl (next ++ rest) (out_at c) (err_at e)
  = capture inet_ntop dl rest (out_at (c ++ concat (out_text <$> ps))) (err_at (e ++ concat (err_text <$> ps))).
Proof.
  induction 1 as [|pkt next ps _ IH|r pkt p next ps Hr Hp Hl _ IH]; intros c e.
  - simpl. by rewrite !app_nil_r.
  - exact (IH c e).
  - cbn [capture app]. replace (0 <=? r) with true by (symmetry; apply Z.leb_le; lia).
    replace (r =? 0) with false by (symmetry; apply Z.eqb_neq; lia).
    rewrite Hp, result_bind_ok, show_packet_writes by done. rewrite IH, !fmap_cons. cbn [concat]. by rewrite !app_assoc.
Qed.

(** C25: What the program prints.  Started with a filter on an interface that can be captured, it announces what it
    does, and then prints the packets in the order of their capture: a segment with its
    addresses and header and a dump of the payload, anything else in UDP with a dump, and on standard error why a packet was
    skipped.  When the capture is broken off it ends with status 0; but when the
    capture fails it asks a handle that it has closed for the error. *)
Theorem capture_prints (p : pcap) (argv0 dev : bytes) (filter : list bytes) (dl : datalink) (next : list (Z * bytes))
  (ps : list printed) (r : Z) :
  parse_arguments filter (Some dev) = inr (Some dev, filter) →
  pcap_open_live p (Some dev) = None → datalink_of p (pcap_datalink p) = Some dl →
  pcap_compile p (filter_expression filter) = None → pcap_setfilter p (filter_expression filter) = None →
  pcap_next_ex p = next ++ [(r, [])] → r < 0 → captures dl next ps →
  let banner := text "Capturing on interface " ++ dev ++
    text " (type: " ++ pcap_datalink_val_to_description p (pcap_datalink p) ++ text ")" ++ nl ++
    text "Using filter expression: " ++ filter_expression filter ++ nl in
  main inet_ntop p (argv0 :: text "-i" :: dev :: filter) Ostream.new Ostream.new
  = (out_at (banner ++ concat (out_text <$> ps) ++ (if r =? -1 then text "Error listening for packet: " else [])),
     err_at (concat (err_text <$> ps)),
     if r =? -1 then Throw DanglingPointer else Ok 0).
Proof.
  intros Hf Ho Hd Hc Hs Hn Hr Hcap. cbv zeta. cbn [main].
  assert (parse_arguments (text "-i" :: dev :: filter) None = inr (Some dev, filter)) as ->.
  { cbn [parse_arguments]. change (strncmp_eq 3 (text "-i") (text "-i")) with true. exact Hf. }
  cbv iota zeta. rewrite Ho, Hd, Hc, Hs, Hn. cbv iota. rewrite Ostream.new_end. autorewrite with ostream. cbn [app].
  rewrite <- !app_assoc. change (Ostream.at_end [] false false x20) with (err_at []).
  match goal with |- capture _ _ _ (Ostream.at_end ?c _ _ _) _ = _ => change (Ostream.at_end c false false x30) with (out_at c) end.
  rewrite (capture_app dl next ps _ Hcap). cbn [capture]. replace (0 <=? r) with false by (symmetry; apply Z.leb_gt; lia).
  destruct (r =? -1).
  - unfold out_at. rewrite Ostream.string_end. by rewrite <- !app_assoc.
  - rewrite app_nil_r. by rewrite <- !app_assoc.
Qed.

End Printed.

(** A raw interface on which a timeout, the damaged packet and a byte that is no packet are captured. *)
Definition demo_pcap (r : Z) : pcap :=
  Build_pcap (λ _, None) 12 (λ z, if z =? 12 then Some DLT_RAW else None) (λ _, text "Raw IP") (λ _, None) (λ _, None)
    [(0, []); (1, damaged_packet); (1, [x00]); (r, [])].
Definition demo_ntop (a : bytes) : option bytes :=
  match byte_val <$> a with
  | [a; b; c; d] => Some (Address.to_string a ++ x2e :: Address.to_string b ++ x2e :: Address.to_string c ++ x2e :: Address.to_string d)
  | _ => None
  end.

Lemma capture_prints_witness :
  ∃ segment, packet DLT_RAW damaged_packet = Ok segment ∧
  ztake 72 (out_text demo_ntop segment) = text "10.0.0.1:0 > 10.0.0.2:0" ++ nl ++ text "    Flags [] cksum 0x0000 (incorrect!) seq 0 ack" ∧
  main demo_ntop (demo_pcap (-2)) [text "udp_tcpdump"; text "-i"; text "tun144"] Ostream.new Ostream.new
  = (out_at ((text "Capturing on interface tun144 (type: Raw IP)" ++ nl ++ text "Using filter expression: " ++ nl) ++
       (out_text demo_ntop segment ++ []) ++ []),
     err_at (text "Error parsing IPv4/IPv6 packet. Skipping." ++ nl), Ok 0).
Proof.
  assert (∃ p, packet DLT_RAW damaged_packet = Ok p ∧ len (payload_of p) = 4 ∧ err_text p = [] ∧
    ztake 72 (out_text demo_ntop p) = text "10.0.0.1:0 > 10.0.0.2:0" ++ nl ++ text "    Flags [] cksum 0x0000 (incorrect!) seq 0 ack")
    as (p & Ep & Hl & He & Hz).
  { eexists. split; [vm_compute; reflexivity|]. split; [reflexivity|]. split; [reflexivity | vm_compute; reflexivity]. }
  exists p. split; [exact Ep|]. split; [exact Hz|].
  rewrite (capture_prints demo_ntop (demo_pcap (-2)) (text "udp_tcpdump") (text "tun144") [] DLT_RAW
    [(0, []); (1, damaged_packet); (1, [x00])] [p; Skipped (text "Error parsing IPv4/IPv6 packet. Skipping." ++ nl)] (-2)).
  - change (-2 =? -1) with false. cbn [fmap list_fmap concat out_text err_text]. rewrite He. reflexivity.
  - reflexivity.
  - reflexivity.
  - reflexivity.
  - reflexivity.
  - reflexivity.
  - reflexivity.
  - reflexivity.
  - apply captures_timeout, captures_packet; [lia | exact Ep | lia |].
    apply captures_packet; [lia | vm_compute; reflexivity | vm_compute; discriminate | constructor].
Defined.

End Tcpdump.
