(* ===== verification/tcp_receiver.v ===== *)
(** * The TCP receiver (src/lab/libsponge/tcp_receiver.hh, .cc)

    Segments become substrings of the byte stream: the receiver translates
    sequence numbers to stream indices, feeds the reassembler and computes the
    acknowledgment number and the window. *)

From S2P Require Import Prelude wrapping_integers byte_stream stream_reassembler buffer tcp_header tcp_segment.

Module TCPReceiver.

Record t := mk {
  _reassembler : StreamReassembler.t;
  _capacity : Z;
  _syn_arrived : bool;
  _isn : WrappingInt32.t;
  _ackno : Z }.

Definition new (capacity : Z) : t :=
  mk (StreamReassembler.new capacity) capacity false (WrappingInt32.mk 0) 0.

Definition stream_out (r : t) : ByteStream.t := StreamReassembler.stream_out (_reassembler r).
Definition set_stream_out (r : t) (o : ByteStream.t) : t :=
  mk (StreamReassembler.set_stream_out (_reassembler r) o) (_capacity r) (_syn_arrived r) (_isn r) (_ackno r).
Definition unassembled_bytes (r : t) : Z := StreamReassembler.unassembled_bytes (_reassembler r).

Definition ackno (r : t) : option WrappingInt32.t :=
  if negb (_syn_arrived r) then None else Some (WrappingInt32.wrap (_ackno r) (_isn r)).

Definition window_size (r : t) : Z := uint64 (_capacity r - ByteStream.buffer_size (stream_out r)).

Definition segment_received (r : t) (seg : TCPSegment.t) : result t :=
  let header := TCPSegment.header seg in
  let r := if TCPHeader.syn header
           then mk (_reassembler r) (_capacity r) true (TCPHeader.seqno header) (_ackno r) else r in
  if _syn_arrived r then
    let eof := TCPHeader.fin header in
    let idx := WrappingInt32.unwrap (TCPHeader.seqno header) (_isn r) (_ackno r) in
    if ((idx =? 0) && negb (TCPHeader.syn header)) || (uint64 (window_size r + _ackno r) <=? idx)
    then Ok r
    else
      rs ← StreamReassembler.push_substring (_reassembler r) (Buffer.copy (TCPSegment.payload seg))
             (uint64 (uint64 (idx - 1) + bool_to_Z (TCPHeader.syn header))) eof;
      let ackno := uint64 (uint64 (StreamReassembler.next_idx rs + bool_to_Z (_syn_arrived r))
                           + bool_to_Z (ByteStream.input_ended (StreamReassembler.stream_out rs))) in
      Ok (mk rs (_capacity r) (_syn_arrived r) (_isn r) ackno)
  else Ok r.

(** ** Runs: segments arrive and the application reads

    The absolute sequence number [k] of a segment is not seen by the receiver;
    it is there for the specification. *)
Inductive event :=
| Arrive (k : Z) (seg : TCPSegment.t)
| Read (n : Z).

Definition step (r : t) (e : event) : result (t * bytes) :=
  match e with
  | Arrive _ seg => r ← segment_received r seg; Ok (r, [])
  | Read n => '(o, b) ← ByteStream.read (stream_out r) n; Ok (set_stream_out r o, b)
  end.

(** The final state and everything the application read. *)
Fixpoint run (r : t) (es : list event) : result (t * bytes) :=
  match es with
  | [] => Ok (r, [])
  | e :: es => '(r, b) ← step r e; '(r, b') ← run r es; Ok (r, b ++ b')
  end.

(** Every segment arrives less than 2^31 sequence numbers away from the
    acknowledgment number, as TCP requires of the network. *)
Fixpoint near (r : t) (es : list event) : Prop :=
  match es with
  | [] => True
  | e :: es =>
      match e with Arrive k _ => Z.abs (k - _ackno r) < 2147483648 | Read _ => True end ∧
      match step r e with Ok (r, _) => near r es | Throw _ => False end
  end.

Definition syn_seen (es : list event) : bool :=
  existsb (λ e, match e with Arrive k _ => k =? 0 | Read _ => false end) es.

(** ** Segments of one stream *)

Section stream.
(** The peer's stream of [N] bytes and its initial sequence number. *)
Context (stream : Z → byte) (N : Z) (isn : WrappingInt32.t).
Context (HN : 0 <= N < 4611686018427387904) (Hisn : WrappingInt32.valid isn).

(** [segment_at k seg]: a segment of that stream at the absolute sequence
    number [k].  The SYN has number 0, byte [i] of the stream number [i + 1],
    the FIN number [N + 1]. *)
Record segment_at (k : Z) (seg : TCPSegment.t) : Prop := {
  sa_seqno : TCPHeader.seqno (TCPSegment.header seg) = WrappingInt32.wrap k isn;
  sa_syn : TCPHeader.syn (TCPSegment.header seg) = (k =? 0);
  sa_k : 0 <= k;
  sa_data : StreamReassembler.consistent stream (N + 1) N (Buffer.str (TCPSegment.payload seg))
              (k - 1 + bool_to_Z (k =? 0)) (TCPHeader.fin (TCPSegment.header seg)) }.

(** The invariant: before the SYN nothing was stored; afterwards the
    acknowledgment number is the first missing sequence number. *)
Record inv (r : t) : Prop := {
  i_store : StreamReassembler.inv stream (N + 1) N (_reassembler r);
  i_cap : StreamReassembler._capacity (_reassembler r) = _capacity r;
  i_pos : 0 < _capacity r;
  i_ack : if _syn_arrived r
          then _isn r = isn ∧
               _ackno r = StreamReassembler.next_idx (_reassembler r) + 1
                          + bool_to_Z (ByteStream.input_ended (stream_out r))
          else _ackno r = 0 ∧ StreamReassembler.next_idx (_reassembler r) = 0 ∧
               ByteStream.input_ended (stream_out r) = false }.

Lemma receiver_inv_new cap : 0 < cap < max_string → inv (new cap).
Proof.
  intros. destruct (StreamReassembler.reassembler_inv_new stream (N + 1) N cap) as (Hi & _); [lia..|].
  constructor; [done | done | simpl; lia | by simpl].
Qed.

Lemma inv_bounds r : inv r → 0 <= StreamReassembler.next_idx (_reassembler r) <= N ∧
  0 <= _ackno r <= N + 2 ∧ 0 <= window_size r < max_string ∧
  window_size r = StreamReassembler.consumed (_reassembler r) + StreamReassembler._capacity (_reassembler r)
                  - StreamReassembler.next_idx (_reassembler r).
Proof.
  intros [Hst Hc _ Ha]. pose proof (StreamReassembler.inv_nidx stream (N + 1) N ltac:(lia) _ Hst) as HnN.
  destruct Hst as [[] _ _ _]. pose proof (ByteStream.wf_sz _ so_out). pose proof (ByteStream.wf_cap _ so_out).
  unfold window_size, stream_out, StreamReassembler.stream_out, ByteStream.buffer_size,
    StreamReassembler.consumed, StreamReassembler.next_idx in *.
  pose proof (bool_to_Z_range (ByteStream.input_ended (StreamReassembler._output (_reassembler r)))).
  rewrite uint64_id by lia. destruct (_syn_arrived r); lia.
Qed.

(** The state with the SYN flag recorded. *)
Definition synchronized (r : t) (k : Z) : bool := _syn_arrived r || (k =? 0).

Lemma record_syn r k seg : inv r → segment_at k seg →
  let r1 := if TCPHeader.syn (TCPSegment.header seg)
            then mk (_reassembler r) (_capacity r) true (TCPHeader.seqno (TCPSegment.header seg)) (_ackno r)
            else r in
  _reassembler r1 = _reassembler r ∧ _capacity r1 = _capacity r ∧ _ackno r1 = _ackno r ∧
  _syn_arrived r1 = synchronized r k ∧ (synchronized r k = true → _isn r1 = isn).
Proof.
  intros Hi Hs r1. unfold r1. rewrite (sa_syn _ _ Hs). unfold synchronized.
  destruct (Z.eqb_spec k 0) as [->|]; simpl.
  - rewrite orb_true_r, (sa_seqno _ _ Hs).
    assert (WrappingInt32.wrap 0 isn = isn) as ->; [|done].
    apply WrappingInt32.t_ext. rewrite WrappingInt32.wrap_raw, Z.add_0_r. by apply uint32_id.
  - rewrite orb_false_r. do 4 (split; [done|]). intros E. destruct Hi as [_ _ _ Ha]. rewrite E in Ha. tauto.
Qed.

(** One segment: it is ignored before the SYN and outside the window; otherwise
    its bytes are pushed at their place in the stream. *)
Lemma segment_received_cases r k seg : inv r → segment_at k seg → Z.abs (k - _ackno r) < 2147483648 →
  segment_received r seg =
  if synchronized r k && (k <? window_size r + _ackno r) then
    rs ← StreamReassembler.push_substring (_reassembler r) (Buffer.str (TCPSegment.payload seg))
           (k - 1 + bool_to_Z (k =? 0)) (TCPHeader.fin (TCPSegment.header seg));
    Ok (mk rs (_capacity r) true isn
          (StreamReassembler.next_idx rs + 1
           + bool_to_Z (ByteStream.input_ended (StreamReassembler.stream_out rs))))
  else
    Ok (mk (_reassembler r) (_capacity r) (synchronized r k)
          (if k =? 0 then isn else _isn r) (_ackno r)).
Proof.
  intros Hi Hs Hnear. destruct (inv_bounds r Hi) as (Hn & Ha & Hw & _).
  pose proof (record_syn r k seg Hi Hs) as (E1 & E2 & E3 & E4 & E5). pose proof (sa_k _ _ Hs).
  unfold segment_received. set (r1 := if TCPHeader.syn _ then _ else r) in *.
  assert (r1 = mk (_reassembler r) (_capacity r) (synchronized r k) (if k =? 0 then isn else _isn r) (_ackno r)) as Er1.
  { destruct (synchronized r k) eqn:Esy.
    - destruct r1 as [a b c d e]. simpl in *. subst. rewrite E5 by done. f_equal.
      destruct (Z.eqb_spec k 0); [done|]. unfold synchronized in Esy.
      destruct Hi as [_ _ _ Hia]. destruct (_syn_arrived r) eqn:Er.
      + by destruct Hia.
      + apply orb_true_iff in Esy as [|Ez%Z.eqb_eq]; done.
    - destruct (Z.eqb_spec k 0) as [->|]; [unfold synchronized in Esy; by rewrite orb_true_r in Esy|].
      unfold r1 in *. rewrite (sa_syn _ _ Hs) in *. destruct (Z.eqb_spec k 0); [done|].
      destruct r; simpl in *. by rewrite E4. }
  rewrite E4, (sa_syn _ _ Hs). unfold window_size, stream_out. rewrite E1, E2, E3.
  fold (stream_out r). fold (window_size r).
  destruct (synchronized r k) eqn:Esy; simpl; [|by rewrite Er1].
  rewrite E5, (sa_seqno _ _ Hs), WrappingInt32.unwrap_wrap_near by (done || lia).
  replace ((k =? 0) && negb (k =? 0)) with false by (by destruct (k =? 0)). simpl.
  rewrite uint64_id by lia.
  destruct (Z.leb_spec (window_size r + _ackno r) k), (Z.ltb_spec k (window_size r + _ackno r));
    try lia; [by rewrite Er1|].
  assert (uint64 (uint64 (k - 1) + bool_to_Z (k =? 0)) = k - 1 + bool_to_Z (k =? 0)) as ->.
  { destruct (Z.eqb_spec k 0) as [->|]; [reflexivity|]. simpl bool_to_Z. word_lia. }
  unfold Buffer.copy.
  destruct (StreamReassembler.push_spec stream (N + 1) ltac:(lia) N ltac:(lia) (_reassembler r)
    (Buffer.str (TCPSegment.payload seg)) (k - 1 + bool_to_Z (k =? 0))
    (TCPHeader.fin (TCPSegment.header seg)) (i_store _ Hi) (sa_data _ _ Hs))
    as (rs & -> & Hrs & _ & _ & Hle & _). rewrite !result_bind_ok.
  pose proof (StreamReassembler.inv_nidx stream (N + 1) N ltac:(lia) _ Hrs) as HnN.
  unfold StreamReassembler.next_idx in *.
  pose proof (bool_to_Z_range (ByteStream.input_ended (StreamReassembler.stream_out rs))).
  rewrite uint64_id, (uint64_id (_ + 1)) by (rewrite ?uint64_id by lia; lia). done.
Qed.

(** Where a segment's bytes go, and that they all lie inside the window. *)
Definition index_of (k : Z) : Z := k - 1 + bool_to_Z (k =? 0).
Definition inside (r : t) (k : Z) (seg : TCPSegment.t) : Prop :=
  k < window_size r + _ackno r ∧
  k + bool_to_Z (k =? 0) + len (Buffer.str (TCPSegment.payload seg)) <= window_size r + _ackno r.

(** The index of the first byte of the stream beyond the window. *)
Definition window_end (r : t) : Z := StreamReassembler.next_idx (_reassembler r) + window_size r.

Lemma segment_spec r k seg : inv r → segment_at k seg → Z.abs (k - _ackno r) < 2147483648 →
  ∃ r', segment_received r seg = Ok r' ∧ inv r' ∧ _capacity r' = _capacity r ∧
    _syn_arrived r' = synchronized r k ∧ _ackno r <= _ackno r' ∧
    StreamReassembler.consumed (_reassembler r') = StreamReassembler.consumed (_reassembler r) ∧
    (StreamReassembler.in_window (_reassembler r) → synchronized r k = true →
     (∀ i, i < window_end r → StreamReassembler.held (_reassembler r) i ∨
        StreamReassembler.span (index_of k) (Buffer.str (TCPSegment.payload seg)) i → StreamReassembler.held (_reassembler r') i) ∧
     (inside r k seg → StreamReassembler.in_window (_reassembler r') ∧
      ∀ i, StreamReassembler.held (_reassembler r') i ↔ StreamReassembler.held (_reassembler r) i ∨
        StreamReassembler.span (index_of k) (Buffer.str (TCPSegment.payload seg)) i)) ∧
    (synchronized r k = false → _reassembler r' = _reassembler r).
Proof.
  intros Hi Hs Hnear. rewrite (segment_received_cases r k seg Hi Hs Hnear).
  destruct (inv_bounds r Hi) as (Hn & Ha & Hw & Hwe). destruct (Hi) as [Hst Hcap Hpos Hack].
  assert (synchronized r k = false → _syn_arrived r = false ∧ k ≠ 0) as Hsy.
  { unfold synchronized. destruct (_syn_arrived r); [done|]. simpl. destruct (Z.eqb_spec k 0); done. }
  destruct (synchronized r k && (k <? window_size r + _ackno r)) eqn:Ec.
  - apply andb_true_iff in Ec as [Esy Hlt%Z.ltb_lt].
    destruct (StreamReassembler.push_spec stream (N + 1) ltac:(lia) N ltac:(lia) (_reassembler r)
      (Buffer.str (TCPSegment.payload seg)) (k - 1 + bool_to_Z (k =? 0))
      (TCPHeader.fin (TCPSegment.header seg)) Hst (sa_data _ _ Hs))
      as (rs & -> & Hrs & Hc & Hcon & Hle & He & Hend & Hheld). rewrite result_bind_ok.
    eexists. split; [done|]. split; [by constructor; simpl; [done | congruence | |]|].
    split; [done|]. split; [done|]. unfold stream_out, StreamReassembler.stream_out, StreamReassembler.next_idx in *.
    cbn [_ackno _reassembler]. split; [|split; [done|split; [|by rewrite Esy]]].
    + destruct (_syn_arrived r); [|pose proof (bool_to_Z_range (ByteStream.input_ended (StreamReassembler._output rs))); lia].
      destruct Hack as [_ ->]. destruct Hst as [Hst0 _ _ Hend0].
      pose proof (StreamReassembler.inv_nidx stream (N + 1) N ltac:(lia) _ Hrs).
      destruct (ByteStream.input_ended (StreamReassembler._output (_reassembler r))) eqn:E.
      * destruct (Hend0 eq_refl) as [E1 E2]. rewrite Hend, He, E1.
        replace (StreamReassembler._nidx rs) with N by lia. rewrite Z.eqb_refl. simpl. lia.
      * pose proof (bool_to_Z_range (ByteStream.input_ended (StreamReassembler._output rs))).
        simpl bool_to_Z. lia.
    + intros Hwin _. destruct (Hheld Hwin) as [Hkeep Hexact].
      split; [intros i Hin; apply Hkeep; unfold window_end, StreamReassembler.next_idx in Hin; lia|]. intros [_ Hin]. apply Hexact.
      destruct (sa_data _ _ Hs) as (_ & Hb & _). destruct Hst as [[] _ _ Hend0].
      destruct (ByteStream.input_ended (StreamReassembler._output (_reassembler r))) eqn:E.
      * destruct (Hend0 eq_refl) as [_ E2]. destruct (ByteStream.wf_sz _ so_out).
        unfold StreamReassembler.consumed in *. destruct Hb as [->|]; [|lia].
        unfold len; simpl length. destruct (Z.eqb_spec k 0), (_syn_arrived r); simpl bool_to_Z in *; lia.
      * destruct (_syn_arrived r); simpl bool_to_Z in *; lia.
  - eexists. split; [done|]. split; [|split; [done|split; [done|split; [simpl; lia|split; [done|]]]]].
    + constructor; [done | done | done |]. simpl. destruct (synchronized r k) eqn:Esy.
      * destruct (_syn_arrived r) eqn:Er; simpl in Ec.
        -- split; [|tauto]. destruct (k =? 0); tauto.
        -- unfold synchronized in Esy. rewrite Er in Esy. simpl in Esy. apply Z.eqb_eq in Esy as ->. simpl.
           apply Z.ltb_ge in Ec. destruct Hst as [[] _ _ _]. unfold StreamReassembler.next_idx in *.
           pose proof (ByteStream.wf_sz _ so_out). unfold StreamReassembler.consumed in *. lia.
      * destruct (Hsy eq_refl) as [Er _]. rewrite Er in Hack. tauto.
    + split; [|done]. intros _ E. rewrite E in Ec. simpl in Ec. apply Z.ltb_ge in Ec. split; [|intros [Hlt _]; lia].
      intros i Hin [?|Hsp]; [done|]. exfalso. unfold StreamReassembler.span, index_of, window_end in *.
      destruct (_syn_arrived r) eqn:Er.
      * destruct Hack as [_ Hack]. pose proof (bool_to_Z_range (ByteStream.input_ended (stream_out r))).
        destruct (Z.eqb_spec k 0); simpl bool_to_Z in *; lia.
      * unfold synchronized in E. rewrite Er in E. apply Z.eqb_eq in E as ->.
        destruct Hst as [[] _ _ _]. unfold StreamReassembler.next_idx in *.
        pose proof (ByteStream.wf_sz _ so_out). unfold StreamReassembler.consumed in *. lia.
Qed.

(** The length of a segment of the stream in sequence space. *)
Lemma segment_length k seg : segment_at k seg →
  TCPSegment.length_in_sequence_space seg
  = len (Buffer.str (TCPSegment.payload seg)) + bool_to_Z (k =? 0) + bool_to_Z (TCPHeader.fin (TCPSegment.header seg)) ∧
  k + TCPSegment.length_in_sequence_space seg
  = index_of k + len (Buffer.str (TCPSegment.payload seg)) + 1 + bool_to_Z (TCPHeader.fin (TCPSegment.header seg)) ∧
  0 <= index_of k ∧ index_of k + len (Buffer.str (TCPSegment.payload seg)) <= N + 1 ∧
  (TCPHeader.fin (TCPSegment.header seg) = true → index_of k + len (Buffer.str (TCPSegment.payload seg)) = N).
Proof.
  intros [_ Hsyn Hk [(_ & Hi & Hb) [_ Hfin]]]. fold (index_of k) in *.
  pose proof (len_nonneg (Buffer.str (TCPSegment.payload seg))).
  pose proof (bool_to_Z_range (k =? 0)). pose proof (bool_to_Z_range (TCPHeader.fin (TCPSegment.header seg))).
  unfold TCPSegment.length_in_sequence_space. rewrite Hsyn, uint64_id by lia.
  unfold index_of in *. split; [lia|]. split; [lia|]. done.
Qed.

(** A segment with the first missing sequence number makes progress, when the reader has left room. *)
Lemma segment_progress r k seg r' : inv r → segment_at k seg → Z.abs (k - _ackno r) < 2147483648 →
  k <= _ackno r < k + TCPSegment.length_in_sequence_space seg →
  ByteStream.buffer_size (stream_out r) < _capacity r →
  segment_received r seg = Ok r' → _ackno r < _ackno r'.
Proof.
  intros Hi Hs Hnear Hin Hroom. rewrite (segment_received_cases r k seg Hi Hs Hnear).
  destruct (segment_length k seg Hs) as (_ & Hlen & Hidx & Hb & HfN). rewrite Hlen in Hin.
  destruct (inv_bounds r Hi) as (Hn & Ha & Hw & Hwe). destruct (Hi) as [Hst Hcap Hpos Hack].
  assert (0 < window_size r) as Hw0.
  { rewrite Hwe, Hcap. unfold stream_out, StreamReassembler.stream_out, ByteStream.buffer_size, StreamReassembler.consumed,
      StreamReassembler.next_idx in *. lia. }
  assert (synchronized r k = true) as ->.
  { unfold synchronized. destruct (_syn_arrived r); [done|]. simpl. apply Z.eqb_eq. pose proof (sa_k _ _ Hs). lia. }
  replace (k <? window_size r + _ackno r) with true by (symmetry; apply Z.ltb_lt; lia). simpl andb. cbv iota.
  fold (index_of k).
  destruct (StreamReassembler.push_spec stream (N + 1) ltac:(lia) N ltac:(lia) (_reassembler r)
    (Buffer.str (TCPSegment.payload seg)) (index_of k) (TCPHeader.fin (TCPSegment.header seg)) Hst (sa_data _ _ Hs))
    as (rs & E & Hrs & _ & _ & Hle & He & Hend & _).
  pose proof (StreamReassembler.inv_nidx stream (N + 1) N ltac:(lia) _ Hrs) as HnN.
  rewrite E, result_bind_ok. intros [= <-]. cbn [_ackno]. unfold StreamReassembler.stream_out, StreamReassembler.next_idx in *.
  pose proof (bool_to_Z_range (ByteStream.input_ended (StreamReassembler._output rs))) as Hr.
  destruct (_syn_arrived r); [|lia]. destruct Hack as [_ Hack].
  pose proof (bool_to_Z_range (TCPHeader.fin (TCPSegment.header seg))).
  destruct (ByteStream.input_ended (stream_out r)) eqn:Eend; cbn [bool_to_Z] in Hack.
  - destruct Hst as [_ _ _ Hst]. destruct (Hst Eend) as [_ HN']. unfold StreamReassembler.next_idx in *.
    destruct (TCPHeader.fin (TCPSegment.header seg)); [specialize (HfN eq_refl)|]; simpl in *; lia.
  - destruct (Z_lt_le_dec (StreamReassembler._nidx (_reassembler r)) (index_of k + len (Buffer.str (TCPSegment.payload seg)))).
    + enough (StreamReassembler._nidx (_reassembler r) < StreamReassembler._nidx rs) by lia.
      eapply (StreamReassembler.push_progress stream (N + 1) ltac:(lia) N ltac:(lia)); [done | exact (sa_data _ _ Hs) | | | exact E].
      * fold (index_of k). split; [|lia]. unfold index_of in *. destruct (Z.eqb_spec k 0); simpl in *; lia.
      * rewrite Hcap. exact Hroom.
    + destruct (TCPHeader.fin (TCPSegment.header seg)); [specialize (HfN eq_refl)|]; cbn [bool_to_Z] in *; [|lia].
      rewrite He, orb_true_r in Hend. replace (StreamReassembler._nidx rs =? N) with true in Hend by (symmetry; apply Z.eqb_eq; lia).
      rewrite Hend. simpl. lia.
Qed.

Lemma receiver_read_spec r n : inv r → 0 <= n →
  ∃ r' b, step r (Read n) = Ok (r', b) ∧ inv r' ∧ _syn_arrived r' = _syn_arrived r ∧
    b = slice stream (StreamReassembler.consumed (_reassembler r)) (len b) ∧
    StreamReassembler.consumed (_reassembler r')
    = StreamReassembler.consumed (_reassembler r) + len b.
Proof.
  intros [Hst Hcap Hpos Hack] Hn.
  destruct (StreamReassembler.take_spec stream (N + 1) N (_reassembler r) n Hst Hn)
    as (o & b & E & Hb & Hlb & Hst' & Hcap' & Hcon & Hwin).
  exists (set_stream_out r o), b. unfold step.
  change (stream_out r) with (StreamReassembler._output (_reassembler r)).
  rewrite E, result_bind_ok. split; [done|]. split; [|done].
  assert (ByteStream.input_ended o = ByteStream.input_ended (stream_out r)) as Ho.
  { destruct Hst as [[] _ _ _]. rewrite ByteStream.stream_read_spec in E by done. injection E as <- _. done. }
  constructor; [done | done | done |].
  change (stream_out (set_stream_out r o)) with o. rewrite Ho. exact Hack.
Qed.

Definition event_ok (e : event) : Prop :=
  match e with Arrive k seg => segment_at k seg | Read n => 0 <= n end.

Lemma receiver_run_spec es : ∀ r, inv r → Forall event_ok es → near r es →
  ∃ r' b, run r es = Ok (r', b) ∧ inv r' ∧
    _syn_arrived r' = _syn_arrived r || syn_seen es ∧
    b = slice stream (StreamReassembler.consumed (_reassembler r)) (len b) ∧
    StreamReassembler.consumed (_reassembler r')
    = StreamReassembler.consumed (_reassembler r) + len b.
Proof.
  induction es as [|e es IH]; intros r Hi Hes Hnear.
  { exists r, []. unfold len; simpl. rewrite orb_false_r. split; [done|]. split; [done|].
    split; [done|]. split; [done | lia]. }
  inversion_clear Hes as [|? ? He Hes']. destruct Hnear as [Hk Hnear].
  assert (∃ r1 b1, step r e = Ok (r1, b1) ∧ inv r1 ∧
    _syn_arrived r1 = _syn_arrived r || syn_seen [e] ∧
    b1 = slice stream (StreamReassembler.consumed (_reassembler r)) (len b1) ∧
    StreamReassembler.consumed (_reassembler r1)
    = StreamReassembler.consumed (_reassembler r) + len b1) as (r1 & b1 & E1 & Hi1 & Hs1 & Hb1 & Hc1).
  { destruct e as [k seg|n]; simpl in He.
    - destruct (segment_spec r k seg Hi He Hk) as (r1 & E & Hi1 & _ & Hs & _ & Hc & _).
      exists r1, []. simpl. rewrite E, orb_false_r. unfold len; simpl.
      split; [done|]. split; [done|]. split; [done|]. split; [done | lia].
    - destruct (receiver_read_spec r n Hi He) as (r1 & b & E & Hi1 & Hs & Hb & Hc).
      exists r1, b. rewrite E. simpl. by rewrite orb_false_r. }
  rewrite E1 in Hnear. destruct (IH r1 Hi1 Hes' Hnear) as (r2 & b2 & E2 & Hi2 & Hs2 & Hb2 & Hc2).
  exists r2, (b1 ++ b2). simpl. rewrite E1, result_bind_ok, E2, result_bind_ok. split; [done|]. split; [done|].
  rewrite Hs2, Hs1, len_app, Hc2, Hc1. split; [|split; [|lia]].
  - simpl. by rewrite orb_false_r, orb_assoc.
  - pose proof (len_nonneg b1). pose proof (len_nonneg b2).
    rewrite slice_app, <- Hb1, <- Hc1, <- Hb2 by lia. done.
Qed.

End stream.





(** A segment without payload and flags, such as a bare acknowledgment, belongs
    to the stream at any number from the SYN's successor to the FIN's. *)
Lemma empty_segment_at stream N isn k seg : 0 < k <= N + 2 →
  TCPHeader.seqno (TCPSegment.header seg) = WrappingInt32.wrap k isn →
  TCPHeader.syn (TCPSegment.header seg) = false → TCPHeader.fin (TCPSegment.header seg) = false →
  Buffer.str (TCPSegment.payload seg) = [] → segment_at stream N isn k seg.
Proof.
  intros Hk Hs Hsyn Hfin Hp. constructor; [done | | lia |].
  - rewrite Hsyn. symmetry. apply Z.eqb_neq. lia.
  - unfold StreamReassembler.consistent, StreamReassembler.piece. rewrite Hp, Hfin.
    unfold len; simpl length. rewrite slice_nil by lia.
    split; [|split; [by left | done]]. split; [done|].
    destruct (Z.eqb_spec k 0); simpl bool_to_Z; lia.
Qed.

(** C11: Whatever segments of one peer's stream arrive, in any order, repeated or
    overlapping, and however the application reads in between, the receiver
    never faults; what the application read followed by what waits for it is
    exactly a prefix of the peer's stream; no acknowledgment is offered before
    the SYN; and after it the acknowledgment number is the SYN, the bytes
    assembled and, once the whole stream and its end are known, the FIN. *)
Theorem receiver_delivers_prefix (stream : Z → byte) (N cap : Z) (isn : WrappingInt32.t) (es : list event) :
  0 <= N < 4611686018427387904 → WrappingInt32.valid isn → 0 < cap < max_string →
  Forall (event_ok stream N isn) es → near (new cap) es →
  ∃ r b, run (new cap) es = Ok (r, b) ∧
    let n := StreamReassembler.next_idx (_reassembler r) in
    0 <= n <= N ∧ b ++ ByteStream.contents (stream_out r) = slice stream 0 n ∧
    (ByteStream.input_ended (stream_out r) = true → n = N) ∧
    ackno r = (if syn_seen es
               then Some (WrappingInt32.wrap (n + 1 + bool_to_Z (ByteStream.input_ended (stream_out r))) isn)
               else None).
Proof.
  intros HN Hisn Hcap Hes Hnear.
  destruct (receiver_run_spec stream N isn HN Hisn es (new cap)) as (r & b & E & Hi & Hs & Hb & Hc);
    [by apply receiver_inv_new | done | done |].
  exists r, b. split; [done|]. cbv zeta. destruct (inv_bounds _ _ _ HN _ Hi) as (Hn & _).
  destruct Hi as [[[] _ _ Hend] _ _ Hack]. change (StreamReassembler.consumed (_reassembler (new cap))) with 0 in *.
  pose proof (len_nonneg b). pose proof (ByteStream.wf_sz _ so_out). rewrite Z.add_0_l in Hc.
  unfold stream_out, StreamReassembler.stream_out, StreamReassembler.next_idx in *.
  split; [done|]. split; [|split].
  - rewrite so_contents, Hc, Hb at 1. unfold StreamReassembler.consumed in Hc.
    replace (StreamReassembler._nidx (_reassembler r))
      with (len b + ByteStream._sz (StreamReassembler._output (_reassembler r))) by lia.
    by rewrite slice_app by lia.
  - intros Hie. apply (Hend Hie).
  - unfold ackno. simpl in Hs. rewrite Hs in Hack |- *. destruct (syn_seen es); [|done]. simpl.
    by destruct Hack as [-> ->].
Qed.


(** A SYN with "ab", then "ef" with the FIN, then "cd", of the stream "abcdef". *)
Definition demo_isn : WrappingInt32.t := WrappingInt32.mk 4294967295.
Definition demo_segment (k n : Z) (fin : bool) : TCPSegment.t :=
  TCPSegment.mk
    (TCPHeader.set_fin (TCPHeader.set_syn (TCPHeader.set_seqno TCPHeader.new (WrappingInt32.wrap k demo_isn))
       (k =? 0)) fin)
    (Buffer.of_string (slice StreamReassembler.demo_stream (index_of k) n)).
Definition demo_events : list event :=
  [Arrive 5 (demo_segment 5 2 true); Arrive 0 (demo_segment 0 2 false);
   Arrive 5 (demo_segment 5 2 true); Read 1; Arrive 3 (demo_segment 3 2 false); Read 9].

Lemma demo_segment_at N k n fin : 0 <= k → 0 <= n → index_of k + n <= N → (fin = true → index_of k + n = N) →
  segment_at StreamReassembler.demo_stream N demo_isn k (demo_segment k n fin).
Proof.
  intros Hk Hn Hl Hf. constructor; [done | done | done |].
  unfold StreamReassembler.consistent, StreamReassembler.piece. fold (index_of k). simpl.
  rewrite Buffer.str_of_string, len_slice by lia. split; [|split; [by right | done]]. split; [done|].
  split; [|lia]. unfold index_of. destruct (Z.eqb_spec k 0); simpl; lia.
Qed.

Lemma receiver_delivers_prefix_witness :
  ∃ r b, run (new 10) demo_events = Ok (r, b) ∧
    let n := StreamReassembler.next_idx (_reassembler r) in
    0 <= n <= 6 ∧ b ++ ByteStream.contents (stream_out r) = slice StreamReassembler.demo_stream 0 n ∧
    (ByteStream.input_ended (stream_out r) = true → n = 6) ∧
    ackno r = Some (WrappingInt32.wrap (n + 1 + bool_to_Z (ByteStream.input_ended (stream_out r))) demo_isn).
Proof.
  apply (receiver_delivers_prefix StreamReassembler.demo_stream 6 10 demo_isn demo_events);
    [lia | unfold WrappingInt32.valid; simpl; lia | lia | |].
  - repeat (apply Forall_cons; split); try apply Forall_nil; try (simpl; lia);
      apply demo_segment_at; vm_compute; done || intros; discriminate.
  - vm_compute. done.
Defined.


(** Once a segment has gone beyond the window, the bytes stored beyond it can take the room of bytes in the window: with
    capacity 4, "defg" at index 3 is stored whole, and "b" at index 1, inside the window, is dropped. *)
Lemma straddling_blocks_window : ∃ r r',
  run (new 4) [Arrive 0 (demo_segment 0 0 false); Arrive 4 (demo_segment 4 4 false)] = Ok (r, []) ∧
  synchronized r 2 = true ∧ inside r 2 (demo_segment 2 1 false) ∧ segment_received r (demo_segment 2 1 false) = Ok r' ∧
  unassembled_bytes r' = unassembled_bytes r ∧ ¬ StreamReassembler.held (_reassembler r') 1.
Proof.
  eexists _, _. split; [vm_compute; reflexivity|]. split; [reflexivity|]. split; [vm_compute; split; [done | intros; discriminate]|].
  split; [vm_compute; reflexivity|]. split; [reflexivity|]. intros [H|H]; cbn in H; [lia|].
  rewrite !StreamReassembler.covers_cons in H. pose proof (StreamReassembler.covers_nil 1). unfold len in H. simpl in H. intuition lia.
Qed.

End TCPReceiver.
