(* ===== verification/tcp_sender.v ===== *)
(** * The TCP sender (src/lab/libsponge/tcp_sender.hh, .cc)

    [Timer] keeps the outstanding segments and the retransmission timeout;
    [TCPSender] cuts its byte stream into segments.  The theorems are relative
    to the stream the application writes. *)

From S2P Require Import Prelude wrapping_integers byte_stream stream_reassembler buffer tcp_header tcp_segment tcp_config tcp_receiver.

Module Timer.

Record t := mk {
  _running : bool;
  _RTO : Z;
  _base_RTO : Z;
  _initial_RTO : Z;
  _consecutive_retransmissions : Z;
  _outstandings : list (TCPSegment.t * Z) }.

Definition new (retx_timeout : Z) : t := mk false retx_timeout retx_timeout retx_timeout 0 [].

Definition running (tm : t) : bool := _running tm.
Definition on (tm : t) : t :=
  mk true (_RTO tm) (_base_RTO tm) (_initial_RTO tm) (_consecutive_retransmissions tm) (_outstandings tm).
Definition off (tm : t) : t :=
  mk false (_RTO tm) (_base_RTO tm) (_initial_RTO tm) (_consecutive_retransmissions tm) (_outstandings tm).
Definition consecutive_retransmissions (tm : t) : Z := _consecutive_retransmissions tm.
Definition push_outstanding (tm : t) (seg : TCPSegment.t) (end_seqno : Z) : t :=
  mk (_running tm) (_RTO tm) (_base_RTO tm) (_initial_RTO tm) (_consecutive_retransmissions tm)
     (_outstandings tm ++ [(seg, end_seqno)]).

(** The queue [segments_out] is passed in and returned. *)
Definition tick_handle (tm : t) (ticks window_size : Z) (segments_out : list TCPSegment.t)
  : result (t * list TCPSegment.t) :=
  if _running tm then
    if _RTO tm <=? ticks then
      match _outstandings tm with
      | [] => Throw EmptyQueue
      | (seg, _) :: _ =>
          let segments_out := segments_out ++ [seg] in
          let '(consecutive, base) :=
            if negb (window_size =? 0)
            then (uint32 (_consecutive_retransmissions tm + 1), uint32 (_base_RTO tm * 2))
            else (_consecutive_retransmissions tm, _base_RTO tm) in
          Ok (mk (_running tm) base base (_initial_RTO tm) consecutive (_outstandings tm), segments_out)
      end
    else
      Ok (mk (_running tm) (uint32 (_RTO tm - ticks)) (_base_RTO tm) (_initial_RTO tm)
             (_consecutive_retransmissions tm) (_outstandings tm), segments_out)
  else Ok (tm, segments_out).

(** The loop of [ack_handle]: the queue, [_RTO], [_base_RTO] and [ret]. *)
Fixpoint ack_loop (initial ackno : Z) (outs : list (TCPSegment.t * Z)) (rto base ret : Z)
  : list (TCPSegment.t * Z) * Z * Z * Z :=
  match outs with
  | [] => (outs, rto, base, ret)
  | (seg, end_seqno) :: outs' =>
      if ackno <? end_seqno then (outs, rto, base, ret)
      else ack_loop initial ackno outs' initial initial
             (uint64 (ret + TCPSegment.length_in_sequence_space seg))
  end.

Definition ack_handle (tm : t) (ackno : Z) : t * Z :=
  let '(outs, rto, base, ret) :=
    ack_loop (_initial_RTO tm) ackno (_outstandings tm) (_RTO tm) (_base_RTO tm) 0 in
  let running := match outs with [] => false | _ => _running tm end in
  (mk running rto base (_initial_RTO tm) 0 outs, ret).

End Timer.

Module TCPSender.

Record t := mk {
  _isn : WrappingInt32.t;
  _segments_out : list TCPSegment.t;
  _initial_retransmission_timeout : Z;
  _stream : ByteStream.t;
  _next_seqno : Z;
  _bytes_in_flight : Z;
  _window_size : Z;
  _ackno : Z;
  _fin_sended : bool;
  _timer : Timer.t }.

(** [random] is the value [random_device()()] would give. *)
Definition new (capacity retx_timeout : Z) (fixed_isn : option WrappingInt32.t) (random : Z) : t :=
  mk (match fixed_isn with Some isn => isn | None => WrappingInt32.mk (uint32 random) end)
     [] retx_timeout (ByteStream.new capacity) 0 0 1 0 false (Timer.new retx_timeout).

Definition stream_in (s : t) : ByteStream.t := _stream s.
Definition set_stream_in (s : t) (b : ByteStream.t) : t :=
  mk (_isn s) (_segments_out s) (_initial_retransmission_timeout s) b (_next_seqno s)
     (_bytes_in_flight s) (_window_size s) (_ackno s) (_fin_sended s) (_timer s).
Definition segments_out (s : t) : list TCPSegment.t := _segments_out s.
Definition set_segments_out (s : t) (q : list TCPSegment.t) : t :=
  mk (_isn s) q (_initial_retransmission_timeout s) (_stream s) (_next_seqno s)
     (_bytes_in_flight s) (_window_size s) (_ackno s) (_fin_sended s) (_timer s).
Definition bytes_in_flight (s : t) : Z := _bytes_in_flight s.
Definition next_seqno_absolute (s : t) : Z := _next_seqno s.
Definition next_seqno (s : t) : WrappingInt32.t := WrappingInt32.wrap (_next_seqno s) (_isn s).
Definition consecutive_retransmissions (s : t) : Z := Timer.consecutive_retransmissions (_timer s).

(** The condition and the body of the loop of [fill_window]. *)
Definition fill_cond (s : t) (end_seqno : Z) : bool :=
  negb (_fin_sended s) && (_next_seqno s <? end_seqno) &&
  (negb (ByteStream.buffer_empty (_stream s)) || (_next_seqno s =? 0) || ByteStream.eof (_stream s)).

Definition fill_body (s : t) (end_seqno : Z) : result t :=
  let timer := Timer.on (_timer s) in
  let syn := _next_seqno s =? 0 in
  let header := TCPHeader.set_seqno (TCPHeader.set_syn TCPHeader.new syn)
                  (WrappingInt32.wrap (_next_seqno s) (_isn s)) in
  let read_len := Z.min (uint64 (uint64 (end_seqno - _next_seqno s) - bool_to_Z syn))
                        (ByteStream.buffer_size (_stream s)) in
  let read_len := Z.min read_len TCPConfig.MAX_PAYLOAD_SIZE in
  '(stream, data) ← ByteStream.read (_stream s) read_len;
  let seg := TCPSegment.mk header (Buffer.of_string data) in
  let seg_len := TCPSegment.length_in_sequence_space seg in
  let '(seg, seg_len, fin_sended) :=
    if seg_len <? uint64 (end_seqno - _next_seqno s)
    then (TCPSegment.mk (TCPHeader.set_fin header (ByteStream.eof stream)) (Buffer.of_string data),
          uint64 (seg_len + bool_to_Z (ByteStream.eof stream)), ByteStream.eof stream)
    else (seg, seg_len, _fin_sended s) in
  let next_seqno := uint64 (_next_seqno s + seg_len) in
  Ok (mk (_isn s) (_segments_out s ++ [seg]) (_initial_retransmission_timeout s) stream next_seqno
         (uint64 (_bytes_in_flight s + seg_len)) (_window_size s) (_ackno s) fin_sended
         (Timer.push_outstanding timer seg next_seqno)).

(** Every round sends at least one sequence number ([fill_body_spec] below), so
    the distance to [end_seqno] bounds the rounds. *)
Fixpoint fill_loop (fuel : nat) (s : t) (end_seqno : Z) : result t :=
  if fill_cond s end_seqno then
    match fuel with
    | O => Throw OutOfFuel
    | S fuel => s ← fill_body s end_seqno; fill_loop fuel s end_seqno
    end
  else Ok s.

Definition fill_window (s : t) : result t :=
  let window_size := if 0 <? _window_size s then _window_size s else 1 in
  let end_seqno := uint64 (window_size + _ackno s) in
  fill_loop (Z.to_nat (end_seqno - _next_seqno s)) s end_seqno.

Definition ack_received (s : t) (ackno : WrappingInt32.t) (window_size : Z) : t :=
  let tmp := WrappingInt32.unwrap ackno (_isn s) (_next_seqno s) in
  if tmp <=? _next_seqno s then
    let '(timer, acked) := Timer.ack_handle (_timer s) tmp in
    mk (_isn s) (_segments_out s) (_initial_retransmission_timeout s) (_stream s) (_next_seqno s)
       (uint64 (_bytes_in_flight s - acked)) window_size tmp (_fin_sended s) timer
  else s.

Definition tick (s : t) (ms_since_last_tick : Z) : result t :=
  '(timer, q) ← Timer.tick_handle (_timer s) ms_since_last_tick (_window_size s) (_segments_out s);
  Ok (mk (_isn s) q (_initial_retransmission_timeout s) (_stream s) (_next_seqno s)
         (_bytes_in_flight s) (_window_size s) (_ackno s) (_fin_sended s) timer).

Definition send_empty_segment (s : t) : t :=
  let seg := TCPSegment.mk
    (TCPHeader.set_seqno TCPHeader.new (WrappingInt32.wrap (_next_seqno s) (_isn s))) Buffer.empty in
  set_segments_out s (_segments_out s ++ [seg]).

(** ** The sender of one stream *)

Section stream.
(** The stream the application writes, [N] bytes in all, and the sender's
    initial sequence number. *)
Context (stream : Z → byte) (N : Z) (isn : WrappingInt32.t).
Context (HN : 0 <= N < 4611686018427387904) (Hisn : WrappingInt32.valid isn).

(** A payload of bounded size, no acknowledgment (that is for the connection
    to fill in) and no reset. *)
Definition modest (seg : TCPSegment.t) : Prop :=
  len (Buffer.str (TCPSegment.payload seg)) <= TCPConfig.MAX_PAYLOAD_SIZE ∧
  TCPHeader.ack (TCPSegment.header seg) = false ∧ TCPHeader.rst (TCPSegment.header seg) = false.

(** [chain k l e]: the segments of [l] follow one another in sequence space from
    [k] to [e], each a nonempty segment of the stream with its end. *)
Fixpoint chain (k : Z) (l : list (TCPSegment.t * Z)) (e : Z) : Prop :=
  match l with
  | [] => k = e
  | (seg, k') :: l =>
      TCPReceiver.segment_at stream N isn k seg ∧
      k' = k + TCPSegment.length_in_sequence_space seg ∧ k < k' ∧ modest seg ∧ chain k' l e
  end.

Lemma chain_app l1 l2 : ∀ k e, chain k (l1 ++ l2) e ↔ ∃ m, chain k l1 m ∧ chain m l2 e.
Proof.
  induction l1 as [|[seg k'] l1 IH]; intros k e; simpl.
  - split; [eauto | by intros (m & -> & ?)].
  - setoid_rewrite IH. split.
    + intros (? & ? & ? & ? & m & ? & ?). exists m. tauto.
    + intros (m & (? & ? & ? & ? & ?) & ?). eauto 10.
Qed.

Lemma chain_le l : ∀ k e, chain k l e → k <= e.
Proof.
  induction l as [|[seg k'] l IH]; intros k e; simpl; [lia|].
  intros (_ & _ & ? & _ & ?%IH). lia.
Qed.

(** Bytes of the stream already cut into segments, and bytes written. *)
Definition sent (s : t) : Z :=
  if _next_seqno s =? 0 then 0 else _next_seqno s - 1 - bool_to_Z (_fin_sended s).
Definition written (s : t) : Z := sent s + ByteStream.buffer_size (_stream s).

Record inv (s : t) : Prop := {
  i_isn : _isn s = isn;
  i_stream : ByteStream.wf (_stream s);
  i_window : 0 <= _window_size s < two16;
  i_ackno : 0 <= _ackno s <= _next_seqno s;
  i_sent : 0 <= sent s;
  i_contents : ByteStream.contents (_stream s) = slice stream (sent s) (ByteStream.buffer_size (_stream s));
  i_written : written s <= N;
  i_end : ByteStream.input_ended (_stream s) = true → written s = N;
  i_fin : _fin_sended s = true → ByteStream.eof (_stream s) = true ∧ 0 < _next_seqno s;
  i_out : ∃ una, 0 <= una ∧ chain una (Timer._outstandings (_timer s)) (_next_seqno s) ∧
                 _bytes_in_flight s = _next_seqno s - una;
  i_running : Timer._running (_timer s) = negb (bool_decide (Timer._outstandings (_timer s) = []));
  i_rto : 0 <= Timer._RTO (_timer s) < two32 ∧ 0 <= Timer._base_RTO (_timer s) < two32 ∧
          0 <= Timer._initial_RTO (_timer s) < two16 }.

Lemma sender_inv_new capacity rto fixed random :
  0 <= capacity < max_string → 0 <= rto < two16 →
  match fixed with Some i => i | None => WrappingInt32.mk (uint32 random) end = isn →
  inv (new capacity rto fixed random).
Proof.
  intros Hc Hr Hi. destruct (ByteStream.wf_new capacity Hc) as [Hw Hcon].
  assert (sent (new capacity rto fixed random) = 0) as Hs by done.
  constructor; unfold written; rewrite ?Hs; simpl; try done; try lia.
  exists 0. done.
Qed.

Lemma next_sent s : inv s → _fin_sended s = false →
  sent s = TCPReceiver.index_of (_next_seqno s) ∧ _next_seqno s <= N + 1.
Proof.
  intros Hi Hf. pose proof (i_written s Hi) as Hw. pose proof (i_sent s Hi) as H0.
  pose proof (ByteStream.wf_sz _ (i_stream s Hi)). unfold written, ByteStream.buffer_size in Hw.
  unfold TCPReceiver.index_of. unfold sent in *. rewrite Hf in *.
  destruct (Z.eqb_spec (_next_seqno s) 0); simpl in *; lia.
Qed.

(** What the segment built by one round is. *)
Definition built (s : t) (data : bytes) (fin : bool) : TCPSegment.t :=
  TCPSegment.mk
    (TCPHeader.set_fin (TCPHeader.set_seqno (TCPHeader.set_syn TCPHeader.new (_next_seqno s =? 0))
       (WrappingInt32.wrap (_next_seqno s) (_isn s))) fin)
    (Buffer.of_string data).

Lemma built_length s data fin : len data <= 1000 →
  TCPSegment.length_in_sequence_space (built s data fin)
  = len data + bool_to_Z (_next_seqno s =? 0) + bool_to_Z fin.
Proof.
  intros. unfold TCPSegment.length_in_sequence_space, TCPSegment.payload, TCPSegment.header, built.
  cbn [TCPSegment._header TCPSegment._payload TCPHeader.syn TCPHeader.fin TCPHeader.set_fin
    TCPHeader.set_seqno TCPHeader.set_syn]. rewrite Buffer.str_of_string.
  pose proof (bool_to_Z_range (_next_seqno s =? 0)). pose proof (bool_to_Z_range fin).
  pose proof (len_nonneg data). apply uint64_id. lia.
Qed.

(** The body of the loop in closed form. *)
Definition room (s : t) (e : Z) : Z :=
  Z.min (Z.min (e - _next_seqno s - bool_to_Z (_next_seqno s =? 0)) (ByteStream.buffer_size (_stream s))) 1000.

(** The state after a round that read [d] bytes. *)
Definition after (s : t) (d : Z) (fin : bool) : t :=
  let n := d + bool_to_Z (_next_seqno s =? 0) in
  let seg := built s (slice stream (sent s) d) fin in
  let next := _next_seqno s + n + bool_to_Z fin in
  mk (_isn s) (_segments_out s ++ [seg]) (_initial_retransmission_timeout s)
    (ByteStream.popped (_stream s) d) next
    (uint64 (_bytes_in_flight s + (n + bool_to_Z fin))) (_window_size s) (_ackno s) fin
    (Timer.push_outstanding (Timer.on (_timer s)) seg next).

Definition fin_of (s : t) (e : Z) : bool :=
  (room s e + bool_to_Z (_next_seqno s =? 0) <? e - _next_seqno s) &&
  ByteStream.eof (ByteStream.popped (_stream s) (room s e)).

Lemma fill_body_eq s e : inv s → _fin_sended s = false → _next_seqno s < e < 9223372036854775808 →
  fill_body s e = Ok (after s (room s e) (fin_of s e)).
Proof.
  intros Hi Hf He. pose proof (i_ackno s Hi) as Ha. pose proof (i_stream s Hi) as Hw.
  pose proof (ByteStream.wf_sz _ Hw) as Hsz. pose proof (bool_to_Z_range (_next_seqno s =? 0)) as Hb.
  assert (0 <= room s e <= 1000 ∧ room s e <= ByteStream._sz (_stream s)) as Hd.
  { unfold room, ByteStream.buffer_size. destruct (Z.eqb_spec (_next_seqno s) 0); simpl; lia. }
  unfold fill_body, TCPConfig.MAX_PAYLOAD_SIZE.
  rewrite (uint64_id (e - _next_seqno s)), (uint64_id (_ - bool_to_Z _)) by lia. fold (room s e).
  rewrite ByteStream.stream_read_spec, result_bind_ok, Z.min_l by (done || lia).
  rewrite (i_contents s Hi), ztake_slice, Z.min_l by (unfold ByteStream.buffer_size; lia).
  set (data := slice stream (sent s) (room s e)).
  assert (len data = room s e) as Hld by (unfold data; rewrite len_slice; lia).
  change (TCPSegment.mk (TCPHeader.set_seqno (TCPHeader.set_syn TCPHeader.new (_next_seqno s =? 0))
     (WrappingInt32.wrap (_next_seqno s) (_isn s))) (Buffer.of_string data)) with (built s data false).
  rewrite built_length, Hld, Z.add_0_r by lia. unfold after, fin_of. fold data. rewrite Hf.
  destruct (Z.ltb_spec (room s e + bool_to_Z (_next_seqno s =? 0)) (e - _next_seqno s)); simpl andb.
  - pose proof (bool_to_Z_range (ByteStream.eof (ByteStream.popped (_stream s) (room s e)))).
    rewrite (uint64_id (room s e + _ + _)), (uint64_id (_next_seqno s + _)) by lia.
    rewrite !Z.add_assoc. reflexivity.
  - simpl bool_to_Z. rewrite (uint64_id (_next_seqno s + _)), !Z.add_0_r, !Z.add_assoc by lia. reflexivity.
Qed.

(** Every round uses at least one sequence number and stays in the window. *)
Lemma fill_progress s e : inv s → _next_seqno s < e →
  negb (ByteStream.buffer_empty (_stream s)) || (_next_seqno s =? 0) || ByteStream.eof (_stream s) = true →
  0 < room s e + bool_to_Z (_next_seqno s =? 0) + bool_to_Z (fin_of s e) <= e - _next_seqno s.
Proof.
  intros Hi Hlt Hwork. unfold fin_of. pose proof (i_ackno s Hi). pose proof (ByteStream.wf_sz _ (i_stream s Hi)) as Hsz.
  assert (ByteStream.eof (ByteStream.popped (_stream s) (room s e))
    = ByteStream.input_ended (_stream s) && (ByteStream._sz (_stream s) - room s e =? 0)) as -> by done.
  unfold ByteStream.buffer_empty, ByteStream.eof, ByteStream.input_ended, room, ByteStream.buffer_size in *.
  destruct (ByteStream._end_input (_stream s)), (Z.eqb_spec (_next_seqno s) 0), (Z.eqb_spec (ByteStream._sz (_stream s)) 0);
    simpl in Hwork; try discriminate; simpl bool_to_Z;
    match goal with |- context [?a <? ?b] => destruct (Z.ltb_spec a b) end; simpl andb;
    try (match goal with |- context [?a =? 0] => destruct (Z.eqb_spec a 0) end); simpl bool_to_Z; lia.
Qed.

(** What one round, and the loop, leave alone. *)
Record advanced (s s' : t) (added : list (TCPSegment.t * Z)) : Prop := {
  a_inv : inv s';
  a_ackno : _ackno s' = _ackno s;
  a_window : _window_size s' = _window_size s;
  a_written : written s' = written s;
  a_ended : ByteStream.input_ended (_stream s') = ByteStream.input_ended (_stream s);
  a_cap : ByteStream._capacity (_stream s') = ByteStream._capacity (_stream s);
  a_error : ByteStream.error (_stream s') = ByteStream.error (_stream s);
  a_queue : _segments_out s' = _segments_out s ++ added.*1;
  a_out : Timer._outstandings (_timer s') = Timer._outstandings (_timer s) ++ added;
  a_chain : chain (_next_seqno s) added (_next_seqno s');
  a_count : consecutive_retransmissions s' = consecutive_retransmissions s }.

Lemma advanced_trans s1 s2 s3 a b : advanced s1 s2 a → advanced s2 s3 b → advanced s1 s3 (a ++ b).
Proof.
  intros [] []. constructor; try congruence.
  - rewrite fmap_app. rewrite app_assoc. congruence.
  - rewrite app_assoc. congruence.
  - apply chain_app. eauto.
Qed.

Lemma room_range s e : inv s → _next_seqno s < e → 0 <= room s e <= 1000 ∧
  room s e <= ByteStream._sz (_stream s) ∧ room s e + bool_to_Z (_next_seqno s =? 0) <= e - _next_seqno s.
Proof.
  intros Hi He. pose proof (i_ackno s Hi). pose proof (ByteStream.wf_sz _ (i_stream s Hi)).
  unfold room, ByteStream.buffer_size. destruct (Z.eqb_spec (_next_seqno s) 0); simpl; lia.
Qed.

(** The segment of one round belongs to the stream. *)
Lemma built_segment_at s d fin : inv s → _fin_sended s = false →
  0 <= d <= 1000 → d <= ByteStream._sz (_stream s) →
  (fin = true → ByteStream.eof (ByteStream.popped (_stream s) d) = true) →
  TCPReceiver.segment_at stream N isn (_next_seqno s) (built s (slice stream (sent s) d) fin).
Proof.
  intros Hi Hf Hd Hsz Hfin. destruct (next_sent s Hi Hf) as [Es _]. pose proof (i_written s Hi) as Hw.
  pose proof (i_ackno s Hi). constructor; [by simpl; rewrite (i_isn s Hi) | done | lia |].
  unfold StreamReassembler.consistent, StreamReassembler.piece. fold (TCPReceiver.index_of (_next_seqno s)).
  unfold built, TCPSegment.payload, TCPSegment.header. cbn [TCPSegment._payload TCPSegment._header].
  rewrite Buffer.str_of_string, len_slice by lia. rewrite <- Es. unfold written, ByteStream.buffer_size in Hw.
  split; [split; [done | split; [apply (i_sent s Hi) | lia]]|]. split; [right; lia|].
  simpl. intros Ht. apply Hfin in Ht. unfold ByteStream.eof in Ht. simpl in Ht.
  apply andb_true_iff in Ht as [Ht1 Ht2%Z.eqb_eq]. pose proof (i_end s Hi Ht1) as He.
  unfold written, ByteStream.buffer_size in He. lia.
Qed.

Lemma sent_after s d fin : inv s → _fin_sended s = false →
  0 < d + bool_to_Z (_next_seqno s =? 0) + bool_to_Z fin → sent (after s d fin) = sent s + d.
Proof.
  intros Hi Hf Hpos. destruct (next_sent s Hi Hf) as [Es _]. pose proof (i_ackno s Hi).
  unfold sent at 1, after. cbn [_next_seqno _fin_sended]. case_test; [lia|].
  rewrite Es. unfold TCPReceiver.index_of. lia.
Qed.

Lemma chain_after s d fin : inv s → _fin_sended s = false →
  0 <= d <= 1000 → d <= ByteStream._sz (_stream s) →
  (fin = true → ByteStream.eof (ByteStream.popped (_stream s) d) = true) →
  0 < d + bool_to_Z (_next_seqno s =? 0) + bool_to_Z fin →
  chain (_next_seqno s) [(built s (slice stream (sent s) d) fin, _next_seqno (after s d fin))]
    (_next_seqno (after s d fin)).
Proof.
  intros Hi Hf Hd Hds Hfin Hpos. simpl.
  rewrite built_length; rewrite len_slice by lia; [|lia].
  split; [by apply built_segment_at|]. split; [lia|]. split; [lia|]. split; [|done].
  split; [|done]. unfold built, TCPSegment.payload. cbn [TCPSegment._payload].
  rewrite Buffer.str_of_string, len_slice; unfold TCPConfig.MAX_PAYLOAD_SIZE; lia.
Qed.

Lemma inv_after s d fin : inv s → _fin_sended s = false →
  0 <= d <= 1000 → d <= ByteStream._sz (_stream s) →
  (fin = true → ByteStream.eof (ByteStream.popped (_stream s) d) = true) →
  0 < d + bool_to_Z (_next_seqno s =? 0) + bool_to_Z fin → inv (after s d fin).
Proof.
  intros Hi Hf Hd Hds Hfin Hpos. pose proof (chain_after s d fin Hi Hf Hd Hds Hfin Hpos) as Hch.
  pose proof (sent_after s d fin Hi Hf Hpos) as Hsent.
  destruct (ByteStream.popped_spec (_stream s) d (i_stream s Hi)) as [Hpw Hpc]; [lia|].
  pose proof (i_ackno s Hi) as Ha. destruct (i_out s Hi) as (una & Hu & Hch0 & Hbf).
  pose proof (chain_le _ _ _ Hch0) as Hule. destruct (next_sent s Hi Hf) as [_ Hn].
  pose proof (bool_to_Z_range (_next_seqno s =? 0)). pose proof (bool_to_Z_range fin).
  assert (written (after s d fin) = written s) as Hwr
    by (unfold written; rewrite Hsent; simpl; unfold ByteStream.buffer_size; lia).
  destruct Hi. constructor; rewrite ?Hwr, ?Hsent; try done; try lia.
  - simpl. lia.
  - simpl. rewrite Hpc, i_contents0. unfold ByteStream.buffer_size. simpl. by rewrite zdrop_slice by lia.
  - simpl. intros ->. split; [by apply Hfin | lia].
  - exists una. simpl Timer._outstandings. rewrite chain_app. split; [done|]. split; [by eauto|].
    simpl. rewrite Hbf, uint64_id; lia.
  - simpl. rewrite bool_decide_false; [done|]. intros [_ E]%app_eq_nil. discriminate E.
Qed.

Lemma fill_body_spec s e : inv s → fill_cond s e = true → e < 9223372036854775808 →
  ∃ s' added, fill_body s e = Ok s' ∧ advanced s s' added ∧ _next_seqno s < _next_seqno s' <= e.
Proof.
  intros Hi Hc He. unfold fill_cond in Hc. rewrite !andb_true_iff, negb_true_iff in Hc.
  destruct Hc as [[Hf Hlt%Z.ltb_lt] Hwork].
  destruct (room_range s e Hi Hlt) as (Hd & Hds & Hde). rewrite fill_body_eq by done.
  pose proof (fill_progress s e Hi Hlt Hwork) as Hp.
  assert (fin_of s e = true → ByteStream.eof (ByteStream.popped (_stream s) (room s e)) = true) as Hfin
    by (unfold fin_of; rewrite andb_true_iff; tauto).
  set (d := room s e) in *. set (fin := fin_of s e) in *. clearbody fin d.
  exists (after s d fin), [(built s (slice stream (sent s) d) fin, _next_seqno (after s d fin))].
  split; [done|]. split; [|simpl; lia].
  constructor; try done.
  - apply inv_after; done || lia.
  - unfold written. rewrite sent_after by (done || lia). simpl. unfold ByteStream.buffer_size. lia.
  - apply chain_after; done || lia.
Qed.

Lemma advanced_refl s : inv s → advanced s s [].
Proof. intros. constructor; try done; by rewrite app_nil_r. Qed.

(** Enough fuel: the distance to the end of the window. *)
Lemma fill_loop_spec fuel : ∀ s e, inv s → e < 9223372036854775808 → e - _next_seqno s <= Z.of_nat fuel →
  ∃ s' added, fill_loop fuel s e = Ok s' ∧ advanced s s' added ∧
    _next_seqno s' <= Z.max (_next_seqno s) e ∧ fill_cond s' e = false.
Proof.
  induction fuel as [|fuel IH]; intros s e Hi He Hfuel; simpl; destruct (fill_cond s e) eqn:Hc.
  - exfalso. unfold fill_cond in Hc. rewrite !andb_true_iff, Z.ltb_lt in Hc. lia.
  - exists s, []. split; [done|]. split; [by apply advanced_refl|]. split; [lia | done].
  - destruct (fill_body_spec s e Hi Hc He) as (s1 & a1 & -> & H1 & Hn). rewrite result_bind_ok.
    destruct (IH s1 e (a_inv _ _ _ H1) He) as (s2 & a2 & E & H2 & Hm & Hc2); [lia|].
    exists s2, (a1 ++ a2). split; [done|]. split; [by eapply advanced_trans|]. split; [lia | done].
  - exists s, []. split; [done|]. split; [by apply advanced_refl|]. split; [lia | done].
Qed.

(** The right edge of the window, at least one sequence number wide. *)
Definition window_end (s : t) : Z := _ackno s + Z.max 1 (_window_size s).

Lemma next_bound s : inv s → 0 <= _next_seqno s <= N + 2.
Proof.
  intros Hi. pose proof (i_ackno s Hi). destruct (_fin_sended s) eqn:Hf.
  - pose proof (i_written s Hi) as Hw. pose proof (ByteStream.wf_sz _ (i_stream s Hi)).
    unfold written, sent, ByteStream.buffer_size in Hw. rewrite Hf in Hw.
    destruct (Z.eqb_spec (_next_seqno s) 0); simpl in *; lia.
  - destruct (next_sent s Hi Hf). lia.
Qed.

Lemma fill_window_spec s : inv s →
  ∃ s' added, fill_window s = Ok s' ∧ advanced s s' added ∧
    _next_seqno s' <= Z.max (_next_seqno s) (window_end s) ∧ fill_cond s' (window_end s) = false.
Proof.
  intros Hi. pose proof (i_window s Hi). pose proof (i_ackno s Hi). pose proof (next_bound s Hi).
  unfold fill_window. replace (uint64 ((if 0 <? _window_size s then _window_size s else 1) + _ackno s))
    with (window_end s).
  - apply fill_loop_spec; [done | unfold window_end; lia | lia].
  - unfold window_end. case_test; word_lia.
Qed.

(** ** Acknowledgments *)

Definition unacked (ackno : Z) (l : list (TCPSegment.t * Z)) : list (TCPSegment.t * Z) :=
  filter (λ o, ackno < o.2) l.

Lemma chain_ends l : ∀ k e o, chain k l e → o ∈ l → k < o.2 <= e.
Proof.
  induction l as [|[seg k'] l IH]; intros k e o; simpl; [by intros _ ?%elem_of_nil|].
  intros (_ & _ & ? & _ & Hch) [->|Hin]%elem_of_cons; simpl.
  - pose proof (chain_le _ _ _ Hch). lia.
  - specialize (IH _ _ _ Hch Hin). lia.
Qed.

(** The start of a chain is determined by its end. *)
Definition in_flight (l : list (TCPSegment.t * Z)) : Z :=
  foldr (λ o n, TCPSegment.length_in_sequence_space o.1 + n) 0 l.

Lemma chain_in_flight l : ∀ k e, chain k l e → e - k = in_flight l.
Proof.
  induction l as [|[seg k'] l IH]; intros k e; simpl; [lia|].
  intros (_ & -> & _ & _ & Hch%IH). lia.
Qed.

Lemma chain_start l k1 k2 e : chain k1 l e → chain k2 l e → k1 = k2.
Proof. intros H1%chain_in_flight H2%chain_in_flight. lia. Qed.

Lemma ack_loop_spec initial ackno e l : ∀ una rto base ret,
  chain una l e → 0 <= ret → ret + (e - una) < two64 →
  ∃ rto' base' una',
    Timer.ack_loop initial ackno l rto base ret = (unacked ackno l, rto', base', ret + (una' - una)) ∧
    chain una' (unacked ackno l) e ∧ una <= una' ∧ (una < una' → una' <= ackno) ∧
    ((rto', base') = (if una =? una' then (rto, base) else (initial, initial))).
Proof.
  induction l as [|[seg k'] l IH]; intros una rto base ret Hch Hret Hb; simpl.
  - exists rto, base, una. rewrite Z.sub_diag, Z.add_0_r, Z.eqb_refl.
    split; [done|]. split; [done|]. split; [lia|]. split; [lia | done].
  - destruct Hch as (Hseg & Hk & Hlt & Hmax & Hch). pose proof (chain_le _ _ _ Hch).
    unfold unacked. rewrite filter_cons. simpl. destruct (Z.ltb_spec ackno k').
    + rewrite decide_True by lia. fold (unacked ackno l).
      assert (unacked ackno l = l) as ->.
      { apply filter_all. apply Forall_forall. intros o Ho. pose proof (chain_ends _ _ _ _ Hch Ho). lia. }
      exists rto, base, una. rewrite Z.sub_diag, Z.add_0_r, Z.eqb_refl.
      split; [done|]. split; [done|]. split; [lia|]. split; [lia | done].
    + rewrite decide_False by lia. fold (unacked ackno l). rewrite uint64_id by lia.
      destruct (IH k' initial initial (ret + TCPSegment.length_in_sequence_space seg) Hch)
        as (rto' & base' & una' & E & Hch' & Hu & Ha & Er); [lia..|].
      exists rto', base', una'. rewrite E. split; [f_equal; lia|]. split; [done|]. split; [lia|].
      split; [intros; destruct (Z.eq_dec k' una'); [lia | apply Ha; lia]|].
      destruct (Z.eqb_spec una una'); [lia|]. by destruct (k' =? una').
Qed.

(** The absolute number an acknowledgment stands for. *)
Definition acknowledged (s : t) (a : WrappingInt32.t) : Z :=
  WrappingInt32.unwrap a (_isn s) (_next_seqno s).

Lemma ack_received_spec s a w : inv s → WrappingInt32.valid a → 0 <= w < two16 →
  let s' := ack_received s a w in
  inv s' ∧ _stream s' = _stream s ∧ _next_seqno s' = _next_seqno s ∧ _fin_sended s' = _fin_sended s ∧
  _segments_out s' = _segments_out s ∧
  if acknowledged s a <=? _next_seqno s then
    Timer._outstandings (_timer s') = unacked (acknowledged s a) (Timer._outstandings (_timer s)) ∧
    _ackno s' = acknowledged s a ∧ _window_size s' = w ∧
    (∀ una, chain una (Timer._outstandings (_timer s)) (_next_seqno s) →
     ∃ una', chain una' (Timer._outstandings (_timer s')) (_next_seqno s) ∧ una <= una' ∧
       (una < una' → una' <= acknowledged s a))
  else s' = s.
Proof.
  intros Hi Ha Hw. cbv zeta. unfold ack_received. fold (acknowledged s a).
  destruct (Z.leb_spec (acknowledged s a) (_next_seqno s)) as [Hle|]; [|done].
  pose proof (next_bound s Hi) as Hn. destruct (i_out s Hi) as (una & Hu & Hch & Hbf).
  pose proof (chain_le _ _ _ Hch).
  unfold Timer.ack_handle.
  destruct (ack_loop_spec (Timer._initial_RTO (_timer s)) (acknowledged s a) (_next_seqno s)
    (Timer._outstandings (_timer s)) una (Timer._RTO (_timer s)) (Timer._base_RTO (_timer s)) 0 Hch)
    as (rto & base & una' & E & Hch' & Hu' & Hacked & Er); [lia..|].
  pose proof (chain_le _ _ _ Hch') as Hle'.
  rewrite E. cbn [_stream _next_seqno _fin_sended _segments_out _timer _ackno _window_size Timer._outstandings].
  split.
  - assert (0 <= acknowledged s a).
    { unfold acknowledged. rewrite (i_isn s Hi).
      pose proof (WrappingInt32.unwrap_range a isn (_next_seqno s) Ha Hisn ltac:(lia)). lia. }
    destruct Hi. constructor; try done.
    + exists una'. simpl. split; [lia|]. split; [done|]. rewrite Hbf, uint64_id; lia.
    + simpl. destruct (unacked _ _) eqn:Eu; [done|].
      rewrite i_running0. rewrite !bool_decide_false; [done | done |].
      intros Enil. rewrite Enil in Eu. done.
    + simpl. destruct (una =? una'); injection Er as -> ->; lia.
  - do 4 (split; [done|]). do 3 (split; [done|]). intros una0 Hch0.
    assert (una0 = una) as -> by by eapply chain_start.
    by exists una'.
Qed.

(** ** Time *)

Lemma sender_tick_spec s ms : inv s → 0 <= ms →
  ∃ s', tick s ms = Ok s' ∧ inv s' ∧ _stream s' = _stream s ∧ _next_seqno s' = _next_seqno s ∧
    _ackno s' = _ackno s ∧ Timer._outstandings (_timer s') = Timer._outstandings (_timer s) ∧
    _segments_out s' = _segments_out s ++
      match Timer._outstandings (_timer s) with
      | (seg, _) :: _ => if Timer._RTO (_timer s) <=? ms then [seg] else []
      | [] => []
      end.
Proof.
  intros Hi Hms. unfold tick, Timer.tick_handle. rewrite (i_running s Hi).
  destruct (i_out s Hi) as (una & Hout). destruct (i_rto s Hi) as (Hrto & Hbase & Hini).
  destruct (Timer._outstandings (_timer s)) as [|[seg k] outs] eqn:Eo.
  - rewrite bool_decide_true by done. simpl. eexists. rewrite app_nil_r. split; [done|].
    split; [|done]. destruct Hi. by constructor.
  - rewrite bool_decide_false by done. simpl. destruct (Z.leb_spec (Timer._RTO (_timer s)) ms) as [Hexp|Hexp].
    + pose proof (uint32_range (Timer._base_RTO (_timer s) * 2)).
      destruct (negb (_window_size s =? 0)); simpl; eexists; (split; [done|]); (split; [|done]);
        destruct Hi; constructor; try done; simpl; rewrite ?Eo; try (by exists una); done || lia.
    + simpl. eexists. split; [done|]. split; [|by rewrite app_nil_r].
      destruct Hi; constructor; try done; simpl; rewrite ?Eo; try (by exists una); done || word_lia.
Qed.

(** ** The application writes *)

Lemma sender_write_spec s n : inv s → 0 <= n → written s + n <= N →
  ∃ st c, ByteStream.write (_stream s) (slice stream (written s) n) = Ok (st, c) ∧
    inv (set_stream_in s st) ∧ written (set_stream_in s st) = written s + c ∧ 0 <= c <= n ∧
    ByteStream.error st = ByteStream.error (_stream s).
Proof.
  intros Hi Hn Hb. pose proof (i_sent s Hi). pose proof (ByteStream.wf_sz _ (i_stream s Hi)) as Hsz.
  destruct (ByteStream.stream_write_spec (_stream s) (slice stream (written s) n) (i_stream s Hi))
    as (st & E & Hap & _); [rewrite len_slice; unfold written, ByteStream.buffer_size in *; lia|].
  rewrite len_slice in E by lia. rewrite ztake_slice in Hap by lia.
  set (c := Z.min n (ByteStream._capacity (_stream s) - ByteStream._sz (_stream s))) in *.
  replace (Z.min (ByteStream._capacity (_stream s) - ByteStream._sz (_stream s)) n) with c in Hap by lia.
  pose proof (ByteStream.ap_sz _ _ _ (i_stream s Hi) Hap) as Hsz'. rewrite len_slice in Hsz' by lia.
  exists st, c. split; [done|]. unfold written, ByteStream.buffer_size in *.
  change (sent (set_stream_in s st)) with (sent s). simpl _stream.
  destruct Hap. split; [|split; [lia | split; [lia | done]]].
  assert (ByteStream.input_ended st = ByteStream.input_ended (_stream s)) as Hend by done.
  destruct Hi. constructor; try done; unfold written, ByteStream.buffer_size in *;
    change (sent (set_stream_in s st)) with (sent s); simpl _stream.
  - rewrite ap_contents, i_contents0, Hsz', slice_app by lia. done.
  - lia.
  - rewrite Hend. intros He%i_end0. lia.
  - intros Hf. destruct (i_fin0 Hf) as [He Hp]. split; [|done]. unfold ByteStream.eof in *.
    apply andb_true_iff in He as [He1 He2%Z.eqb_eq].
    replace (ByteStream._end_input st) with true by congruence. simpl. apply Z.eqb_eq.
    pose proof (i_end0 He1). lia.
Qed.

Lemma end_input_spec s : inv s → written s = N →
  inv (set_stream_in s (ByteStream.end_input (_stream s))).
Proof.
  intros Hi Hw. destruct Hi. constructor; try done.
  - destruct i_stream0. by constructor.
  - intros [He Hp]%i_fin0. split; [|done]. unfold ByteStream.eof in *. simpl.
    by apply andb_true_iff in He as [_ ?].
Qed.

(** A segment of the stream with a payload of bounded size. *)
Definition good (seg : TCPSegment.t) : Prop :=
  (∃ k, TCPReceiver.segment_at stream N isn k seg) ∧ modest seg.

Lemma chain_good l : ∀ k e, chain k l e → Forall good l.*1.
Proof.
  induction l as [|[seg k'] l IH]; intros k e; simpl; [constructor|].
  intros (Hs & _ & _ & Hm & Hch). constructor; [split; eauto | by eapply IH].
Qed.

End stream.

(** ** Runs

    The application writes the next bytes of its stream ([Write n], of which
    the byte stream accepts what fits) and closes it; the owner calls the
    sender's methods and takes the segments from its queue ([Transmit]). *)
Inductive op :=
| Write (n : Z)
| Close
| Fill
| Ack (a : WrappingInt32.t) (w : Z)
| Tick (ms : Z)
| Empty
| Transmit.

Definition step (stream : Z → byte) (s : t) (o : op) : result (t * list TCPSegment.t) :=
  match o with
  | Write n =>
      '(st, _) ← ByteStream.write (_stream s) (slice stream (written s) n);
      Ok (set_stream_in s st, [])
  | Close => Ok (set_stream_in s (ByteStream.end_input (_stream s)), [])
  | Fill => s ← fill_window s; Ok (s, [])
  | Ack a w => Ok (ack_received s a w, [])
  | Tick ms => s ← tick s ms; Ok (s, [])
  | Empty => Ok (send_empty_segment s, [])
  | Transmit => Ok (set_segments_out s [], segments_out s)
  end.

Fixpoint run (stream : Z → byte) (s : t) (ops : list op) : result (t * list TCPSegment.t) :=
  match ops with
  | [] => Ok (s, [])
  | o :: ops => '(s, q) ← step stream s o; '(s, q') ← run stream s ops; Ok (s, q ++ q')
  end.

(** The application keeps to its stream; arguments have their types; empty segments come after the SYN. *)
Definition op_ok (N : Z) (s : t) (o : op) : Prop :=
  match o with
  | Write n => 0 <= n ∧ written s + n <= N
  | Close => written s = N
  | Ack a w => WrappingInt32.valid a ∧ 0 <= w < two16
  | Tick ms => 0 <= ms
  | Empty => 0 < _next_seqno s
  | Fill | Transmit => True
  end.

Fixpoint ops_ok (stream : Z → byte) (N : Z) (s : t) (ops : list op) : Prop :=
  match ops with
  | [] => True
  | o :: ops =>
      op_ok N s o ∧ match step stream s o with Ok (s, _) => ops_ok stream N s ops | Throw _ => False end
  end.

Section runs.
Context (stream : Z → byte) (N : Z) (isn : WrappingInt32.t).
Context (HN : 0 <= N < 4611686018427387904) (Hisn : WrappingInt32.valid isn).

Lemma inv_set_segments_out s q : inv stream N isn s → inv stream N isn (set_segments_out s q).
Proof. intros []. by constructor. Qed.

Lemma step_spec s o : inv stream N isn s → op_ok N s o → Forall (good stream N isn) (_segments_out s) →
  ∃ s' q, step stream s o = Ok (s', q) ∧ inv stream N isn s' ∧
    Forall (good stream N isn) (q ++ _segments_out s').
Proof.
  intros Hi Ho Hq. destruct o as [n| | |a w|ms| |]; simpl in *.
  - destruct (sender_write_spec stream N isn HN s n Hi) as (st & c & -> & Hi' & _); [lia..|].
    rewrite result_bind_ok. by eexists _, [].
  - eexists _, []. split; [done|]. split; [by apply end_input_spec | done].
  - destruct (fill_window_spec stream N isn HN s Hi) as (s' & added & -> & [] & _).
    rewrite result_bind_ok. eexists _, []. split; [done|]. split; [done|]. simpl. rewrite a_queue0.
    apply Forall_app. split; [done | by eapply chain_good].
  - destruct (ack_received_spec stream N isn HN Hisn s a w Hi) as (Hi' & _ & _ & _ & Hs & _); [tauto..|].
    eexists _, []. split; [done|]. split; [done|]. by rewrite Hs.
  - destruct (sender_tick_spec stream N isn s ms Hi Ho) as (s' & -> & Hi' & _ & _ & _ & _ & Hs).
    rewrite result_bind_ok. eexists _, []. split; [done|]. split; [done|]. simpl. rewrite Hs.
    apply Forall_app. split; [done|]. destruct (i_out _ _ _ _ Hi) as (una & _ & Hch & _).
    apply chain_good in Hch. destruct (Timer._outstandings (_timer s)) as [|[seg k] l]; [done|].
    destruct (_ <=? ms); [|done]. inversion_clear Hch. by constructor.
  - pose proof (next_bound stream N isn HN s Hi) as Hn. eexists _, []. split; [done|]. split; [destruct Hi; by constructor|].
    simpl. apply Forall_app. split; [done|]. constructor; [|done]. split; [|done]. exists (_next_seqno s).
    apply TCPReceiver.empty_segment_at; [lia | by rewrite <- (i_isn _ _ _ _ Hi) | done..].
  - eexists _, _. split; [done|]. split; [by apply inv_set_segments_out|]. simpl. by rewrite app_nil_r.
Qed.

Lemma sender_run_spec ops : ∀ s, inv stream N isn s → ops_ok stream N s ops → Forall (good stream N isn) (_segments_out s) →
  ∃ s' q, run stream s ops = Ok (s', q) ∧ inv stream N isn s' ∧
    Forall (good stream N isn) (q ++ _segments_out s').
Proof.
  induction ops as [|o ops IH]; intros s Hi Hok Hq; simpl; [by eexists _, []|].
  destruct Hok as [Ho Hok]. destruct (step_spec s o Hi Ho Hq) as (s1 & q1 & E1 & Hi1 & Hq1).
  rewrite E1 in *. apply Forall_app in Hq1 as [Hq1 Hq1'].
  destruct (IH s1 Hi1 Hok Hq1') as (s2 & q2 & E2 & Hi2 & Hq2). rewrite result_bind_ok, E2, result_bind_ok.
  eexists _, _. split; [done|]. split; [done|]. rewrite <- app_assoc. by apply Forall_app.
Qed.

(** The highest acknowledgment number that the sender has had since [s]. *)
Fixpoint highest_ack (s : t) (ops : list op) : Z :=
  Z.max (_ackno s)
    match ops with
    | [] => 0
    | o :: ops => match step stream s o with Ok (s, _) => highest_ack s ops | Throw _ => 0 end
    end.

(** The outstanding segments are those that end after [b]: the first begins at or before [b]. *)
Record owed (s : t) (b : Z) : Prop := {
  o_ack : _ackno s <= b <= _next_seqno s;
  o_start : ∀ una, chain stream N isn una (Timer._outstandings (_timer s)) (_next_seqno s) → una <= b;
  o_ends : Forall (λ o, b < o.2) (Timer._outstandings (_timer s)) }.

Lemma owed_same s s' b : Timer._outstandings (_timer s') = Timer._outstandings (_timer s) → _next_seqno s' = _next_seqno s →
  _ackno s' = _ackno s → owed s b → owed s' (Z.max b (_ackno s')).
Proof. intros E1 E2 E3 []. rewrite E3, Z.max_l by lia. constructor; rewrite ?E1, ?E2, ?E3; done. Qed.

Lemma step_owed s o s' q b : inv stream N isn s → op_ok N s o → step stream s o = Ok (s', q) → owed s b →
  owed s' (Z.max b (_ackno s')).
Proof.
  intros Hi Ho E Hb. destruct o as [n| | |a w|ms| |]; simpl in E, Ho.
  - apply result_bind_inv in E as ([st c] & _ & [= <- <-]). by apply (owed_same s).
  - injection E as <- <-. by apply (owed_same s).
  - destruct (fill_window_spec stream N isn HN s Hi) as (s1 & added & E1 & [] & _). rewrite E1 in E. injection E as <- <-.
    destruct Hb as [B1 B2 B3]. pose proof (chain_le _ _ _ _ _ _ a_chain0). rewrite a_ackno0, Z.max_l by lia.
    destruct (i_out _ _ _ _ Hi) as (una & _ & Hch & _). constructor; [lia | |]; rewrite a_out0.
    + intros una' Hch'. assert (una' = una) as -> by
        (eapply (chain_start stream N isn); [exact Hch' | apply chain_app; eauto]). by apply B2.
    + apply Forall_app. split; [done|]. apply Forall_forall. intros o Hin.
      pose proof (chain_ends _ _ _ _ _ _ _ a_chain0 Hin). lia.
  - injection E as <- <-. destruct Ho as [Ha Hw]. destruct (ack_received_spec stream N isn HN Hisn s a w Hi Ha Hw) as (_ & _ & Hn & _ & _ & Hc).
    destruct (Z.leb_spec (acknowledged s a) (_next_seqno s)) as [Hle|]; [|rewrite Hc; by apply (owed_same s)].
    destruct Hc as (Eo & Ea & _ & Hst), Hb as [B1 B2 B3]. destruct (i_out _ _ _ _ Hi) as (una & _ & Hch & _).
    destruct (Hst una Hch) as (una' & Hch' & Hle' & Hacked). specialize (B2 una Hch).
    rewrite Ea. constructor; rewrite ?Ea, ?Hn; [lia | |].
    + intros una1 Hch1. assert (una1 = una') as -> by by eapply (chain_start stream N isn). destruct (Z.eq_dec una una'); [lia|].
      specialize (Hacked ltac:(lia)). lia.
    + rewrite Eo. apply Forall_forall. intros o [Hlt Hin]%list_elem_of_filter. rewrite Forall_forall in B3. specialize (B3 o Hin). simpl in *. lia.
  - destruct (sender_tick_spec stream N isn s ms Hi Ho) as (s1 & E1 & _ & _ & En & Ea & Eo & _). rewrite E1 in E. injection E as <- <-.
    by apply (owed_same s).
  - injection E as <- <-. by apply (owed_same s).
  - injection E as <- <-. by apply (owed_same s).
Qed.

Lemma run_owed ops : ∀ s s' q b, inv stream N isn s → ops_ok stream N s ops → Forall (good stream N isn) (_segments_out s) →
  run stream s ops = Ok (s', q) → owed s b → owed s' (Z.max b (highest_ack s ops)).
Proof.
  induction ops as [|o ops IH]; intros s s' q b Hi Hok Hq; simpl.
  { intros [= <- _] Hb. pose proof (i_ackno _ _ _ _ Hi). destruct Hb. rewrite !Z.max_l by lia. by constructor. }
  destruct Hok as [Ho Hok]. destruct (step_spec s o Hi Ho Hq) as (s1 & q1 & E1 & Hi1 & Hq1). rewrite E1 in *.
  apply Forall_app in Hq1 as [_ Hq1]. rewrite result_bind_ok. intros ([s2 q2] & E2 & [= <- _])%result_bind_inv Hb.
  pose proof (step_owed s o s1 q1 b Hi Ho E1 Hb) as Hb1. pose proof (IH s1 _ _ _ Hi1 Hok Hq1 E2 Hb1) as H2.
  destruct Hb as [? _ _]. replace (Z.max b (Z.max (_ackno s) (highest_ack s1 ops))) with (Z.max (Z.max b (_ackno s1)) (highest_ack s1 ops)); [done|].
  assert (_ackno s1 <= highest_ack s1 ops) by (destruct ops; simpl; lia). lia.
Qed.

End runs.

(** ** Properties *)

(** C13: Whatever the owner does with a sender (writes, fills, acknowledgments with
    any number and window, ticks, empty segments, in any order), no call faults and
    [fill_window] always returns; every segment handed out is a piece of the
    application's stream at its sequence number, with the SYN exactly at number
    0, the FIN only at the end, and at most 1000 bytes of payload;
    [bytes_in_flight] is the total length of the outstanding segments.  These are consecutive pieces of
    the stream that end at [next_seqno], and exactly the ones that the peer has not fully acknowledged: each ends after the
    highest acknowledgment number received, and the first begins at or before it.  (Not after [_ackno], which a stale acknowledgment
    moves back.)  The unsent bytes are exactly the buffered ones; and
    the retransmission timer runs exactly while something is outstanding. *)
Theorem sender_invariant (stream : Z → byte) (N capacity rto : Z) (isn : WrappingInt32.t) (ops : list op) :
  0 <= N < 4611686018427387904 → WrappingInt32.valid isn → 0 <= capacity < max_string → 0 <= rto < two16 →
  ops_ok stream N (new capacity rto (Some isn) 0) ops →
  ∃ s q, run stream (new capacity rto (Some isn) 0) ops = Ok (s, q) ∧
    Forall (good stream N isn) (q ++ segments_out s) ∧
    bytes_in_flight s = in_flight (Timer._outstandings (_timer s)) ∧
    chain stream N isn (next_seqno_absolute s - bytes_in_flight s)
      (Timer._outstandings (_timer s)) (next_seqno_absolute s) ∧
    (let acked := highest_ack stream (new capacity rto (Some isn) 0) ops in
     next_seqno_absolute s - bytes_in_flight s <= acked <= next_seqno_absolute s ∧
     Forall (λ o, acked < o.2) (Timer._outstandings (_timer s))) ∧
    ByteStream.contents (stream_in s) = slice stream (sent s) (ByteStream.buffer_size (stream_in s)) ∧
    (Timer.running (_timer s) = true ↔ Timer._outstandings (_timer s) ≠ []).
Proof.
  intros HN Hisn Hc Hr Hok.
  destruct (sender_run_spec stream N isn HN Hisn ops (new capacity rto (Some isn) 0)) as (s & q & E & Hi & Hq);
    [by apply sender_inv_new | done | constructor |].
  assert (owed stream N isn s (Z.max 0 (highest_ack stream (new capacity rto (Some isn) 0) ops))) as Howed.
  { eapply (run_owed stream N isn HN Hisn); [by apply sender_inv_new | done | constructor | done |].
    constructor; [simpl; lia | simpl; lia | constructor]. }
  assert (0 <= highest_ack stream (new capacity rto (Some isn) 0) ops) as H0 by (destruct ops; simpl; lia).
  rewrite Z.max_r in Howed by done. destruct Howed as [B1 B2 B3].
  exists s, q. split; [done|]. split; [done|]. destruct Hi. destruct i_out0 as (una & _ & Hch & Hbf).
  unfold bytes_in_flight, next_seqno_absolute. split; [|split; [|split; [|split; [done|]]]].
  - rewrite Hbf. by eapply chain_in_flight.
  - by replace (_next_seqno s - _bytes_in_flight s) with una by lia.
  - cbv zeta. specialize (B2 una Hch). split; [lia | done].
  - unfold Timer.running. rewrite i_running0, negb_true_iff. by rewrite bool_decide_eq_false.
Qed.

(** C14: [fill_window] fills the window: it adds to the queue, and to the
    outstanding segments, consecutive segments of the stream from the old to
    the new [next_seqno]; it never sends beyond the window (or one number when
    the window is zero), and it stops only when the FIN has been sent, the
    window is full, or there is nothing left to send. *)
Theorem fill_window_fills (stream : Z → byte) (N : Z) (isn : WrappingInt32.t) (s : t) :
  0 <= N < 4611686018427387904 → inv stream N isn s →
  ∃ s' added, fill_window s = Ok s' ∧ inv stream N isn s' ∧
    segments_out s' = segments_out s ++ added.*1 ∧
    Timer._outstandings (_timer s') = Timer._outstandings (_timer s) ++ added ∧
    chain stream N isn (_next_seqno s) added (_next_seqno s') ∧
    written s' = written s ∧
    _next_seqno s' <= Z.max (_next_seqno s) (_ackno s + Z.max 1 (_window_size s)) ∧
    (_fin_sended s' = true ∨ _ackno s + Z.max 1 (_window_size s) <= _next_seqno s' ∨
     (0 < _next_seqno s' ∧ ByteStream.buffer_empty (stream_in s') = true ∧
      ByteStream.input_ended (stream_in s') = false)).
Proof.
  intros HN Hi. destruct (fill_window_spec stream N isn HN s Hi) as (s' & added & E & [] & Hn & Hc).
  exists s', added. do 7 (split; [done|]). unfold fill_cond, window_end, stream_in in *.
  pose proof (i_ackno _ _ _ _ a_inv0). unfold ByteStream.eof, ByteStream.buffer_empty, ByteStream.input_ended in *.
  destruct (_fin_sended s'); [by left|]. right. revert Hc.
  destruct (Z.ltb_spec (_next_seqno s') (_ackno s + Z.max 1 (_window_size s))); [right | by left].
  revert Hc. destruct (ByteStream._sz (_stream s') =? 0), (Z.eqb_spec (_next_seqno s') 0),
    (ByteStream._end_input (_stream s')); simpl; try discriminate. intros _. split; [lia | done].
Qed.

(** The effect of an acknowledgment on the timeout. *)
Lemma ack_loop_restarts initial n l : ∀ ret,
  (Timer.ack_loop initial n l initial initial ret).1.1.2 = initial.
Proof. induction l as [|[seg k] l IH]; intros ret; simpl; [done|]. by destruct (n <? k). Qed.

Lemma ack_loop_rto initial n l rto base ret :
  (Timer.ack_loop initial n l rto base ret).1.1.2
  = match l with (_, k) :: _ => if n <? k then rto else initial | [] => rto end.
Proof. destruct l as [|[seg k] l]; [done|]. simpl. destruct (n <? k); [done | apply ack_loop_restarts]. Qed.

(** C15: [ack_received] is exact: an acknowledgment beyond [next_seqno] changes
    nothing; any other removes precisely the outstanding segments that end at
    or before it, leaves the count of bytes in flight equal to the length of
    the rest, records the window, and restarts the retransmission timeout from
    its initial value exactly when the oldest segment was acknowledged. *)
Theorem ack_received_exact (stream : Z → byte) (N w : Z) (isn a : WrappingInt32.t) (s : t) :
  0 <= N < 4611686018427387904 → WrappingInt32.valid isn → inv stream N isn s →
  WrappingInt32.valid a → 0 <= w < two16 →
  let n := acknowledged s a in
  let outs := Timer._outstandings (_timer s) in
  let s' := ack_received s a w in
  inv stream N isn s' ∧
  if n <=? _next_seqno s then
    Timer._outstandings (_timer s') = filter (λ o, n < o.2) outs ∧
    bytes_in_flight s' = in_flight (filter (λ o, n < o.2) outs) ∧
    _window_size s' = w ∧ _ackno s' = n ∧ consecutive_retransmissions s' = 0 ∧
    Timer._RTO (_timer s') = match outs with
                             | (_, k) :: _ => if n <? k then Timer._RTO (_timer s) else Timer._initial_RTO (_timer s)
                             | [] => Timer._RTO (_timer s)
                             end
  else s' = s.
Proof.
  intros HN Hisn Hi Ha Hw. cbv zeta.
  destruct (ack_received_spec stream N isn HN Hisn s a w Hi Ha Hw) as (Hi' & _ & Hn & _ & _ & Hc).
  split; [done|]. destruct (acknowledged s a <=? _next_seqno s) eqn:E; [|done].
  destruct Hc as (Ho & Hk & Hws & _). split; [done|]. split; [|split; [done|split; [done|]]].
  - destruct (i_out _ _ _ _ Hi') as (una & _ & Hch & Hbf). unfold bytes_in_flight.
    rewrite Hbf, (chain_in_flight stream N isn _ _ _ Hch), Ho. done.
  - unfold ack_received, Timer.ack_handle, consecutive_retransmissions. fold (acknowledged s a). rewrite E.
    rewrite <- (ack_loop_rto (Timer._initial_RTO (_timer s)) (acknowledged s a) (Timer._outstandings (_timer s))
      (Timer._RTO (_timer s)) (Timer._base_RTO (_timer s)) 0).
    by destruct (Timer.ack_loop _ _ _ _ _ _) as [[[? ?] ?] ?].
Qed.

(** The timer expires [k] times in a row. *)
Fixpoint expire (k : nat) (s : t) : result t :=
  match k with
  | O => Ok s
  | S k => s ← tick s (Timer._RTO (_timer s)); expire k s
  end.

Lemma expire_step s seg n outs : Timer._running (_timer s) = true → 0 < _window_size s →
  Timer._outstandings (_timer s) = (seg, n) :: outs →
  tick s (Timer._RTO (_timer s)) = Ok
    (mk (_isn s) (_segments_out s ++ [seg]) (_initial_retransmission_timeout s) (_stream s) (_next_seqno s)
      (_bytes_in_flight s) (_window_size s) (_ackno s) (_fin_sended s)
      (Timer.mk true (uint32 (Timer._base_RTO (_timer s) * 2)) (uint32 (Timer._base_RTO (_timer s) * 2))
         (Timer._initial_RTO (_timer s)) (uint32 (Timer._consecutive_retransmissions (_timer s) + 1))
         ((seg, n) :: outs))).
Proof.
  intros Hr Hw Ho. unfold tick, Timer.tick_handle. rewrite Hr, Ho, Z.leb_refl.
  destruct (Z.eqb_spec (_window_size s) 0); [lia | done].
Qed.

Lemma expire_doubles seg n outs k : ∀ s j, Timer._running (_timer s) = true → 0 < _window_size s →
  Timer._outstandings (_timer s) = (seg, n) :: outs → 0 <= Timer._base_RTO (_timer s) →
  Timer._base_RTO (_timer s) * 2 ^ Z.of_nat k < two32 →
  Timer._consecutive_retransmissions (_timer s) = j → 0 <= j → j + Z.of_nat k < two32 →
  ∃ s', expire k s = Ok s' ∧
    segments_out s' = segments_out s ++ replicate k seg ∧
    Timer._base_RTO (_timer s') = Timer._base_RTO (_timer s) * 2 ^ Z.of_nat k ∧
    (k ≠ 0%nat → Timer._RTO (_timer s') = Timer._base_RTO (_timer s')) ∧
    consecutive_retransmissions s' = j + Z.of_nat k.
Proof.
  induction k as [|k IH]; intros s j Hr Hw Ho Hb0 Hb Hc Hj Hjk.
  - exists s. simpl. rewrite app_nil_r. split; [done|]. split; [done|]. split; [lia|]. split; [done|].
    unfold consecutive_retransmissions, Timer.consecutive_retransmissions. lia.
  - simpl expire. rewrite (expire_step s seg n outs Hr Hw Ho), result_bind_ok.
    rewrite Nat2Z.inj_succ, Z.pow_succ_r in * by lia.
    assert (0 < 2 ^ Z.of_nat k) by (apply Z.pow_pos_nonneg; lia).
    rewrite (uint32_id (Timer._base_RTO (_timer s) * 2)), (uint32_id (_ + 1)) by nia.
    match goal with |- context [expire k ?s1] =>
      destruct (IH s1 (j + 1)) as (s' & E & Hq & Hb' & Hr' & Hc') end; try done; try (simpl; lia).
    exists s'. split; [exact E|]. split; [rewrite Hq; simpl; by rewrite <- app_assoc|].
    split; [rewrite Hb'; simpl; lia|]. split; [|lia].
    intros _. destruct k; [|by apply Hr']. simpl in E. injection E as <-. done.
Qed.

(** C24: Exponential backoff: while nothing is acknowledged and the peer's window
    is open, each of up to 16 consecutive expiries of the retransmission timer
    resends the oldest outstanding segment, and only that one, adds one to the
    count of consecutive retransmissions and doubles the timeout. *)
Theorem exponential_backoff (stream : Z → byte) (N n : Z) (isn : WrappingInt32.t) (s : t) (seg : TCPSegment.t)
  (outs : list (TCPSegment.t * Z)) (k : nat) :
  inv stream N isn s → 0 < _window_size s → Timer._outstandings (_timer s) = (seg, n) :: outs →
  Timer._base_RTO (_timer s) = Timer._initial_RTO (_timer s) →
  consecutive_retransmissions s = 0 → (0 < k <= 16)%nat →
  ∃ s', expire k s = Ok s' ∧ segments_out s' = segments_out s ++ replicate k seg ∧
    Timer._RTO (_timer s') = Timer._initial_RTO (_timer s) * 2 ^ Z.of_nat k ∧
    consecutive_retransmissions s' = Z.of_nat k.
Proof.
  intros Hi Hw Ho Hb Hc Hk. destruct (i_rto _ _ _ _ Hi) as (_ & _ & Hini).
  assert (2 ^ Z.of_nat k <= 65536) by (change 65536 with (2 ^ 16); apply Z.pow_le_mono_r; lia).
  assert (0 < 2 ^ Z.of_nat k) by (apply Z.pow_pos_nonneg; lia).
  destruct (expire_doubles seg n outs k s 0) as (s' & E & Hq & Hb' & Hr' & Hc'); try done; try lia.
  - rewrite (i_running _ _ _ _ Hi), Ho. done.
  - rewrite Hb. nia.
  - exists s'. split; [done|]. split; [done|]. split; [|lia]. rewrite Hr', Hb', Hb by lia. done.
Qed.

(** The stream "abcdef" from a sender with room for four bytes. *)
Definition demo_isn : WrappingInt32.t := WrappingInt32.mk 4294967294.
Definition demo_stream : Z → byte := StreamReassembler.demo_stream.
Definition demo_new : t := new 4 1000 (Some demo_isn) 0.
Definition demo_ops : list op :=
  [Fill; Write 5; Ack (WrappingInt32.wrap 1 demo_isn) 3; Fill; Transmit; Tick 1000; Transmit;
   Ack (WrappingInt32.wrap 4 demo_isn) 10; Write 2; Close; Fill].

(** The state a run ends in. *)
Definition final (ops : list op) : t :=
  match run demo_stream demo_new ops with Ok (s, _) => s | Throw _ => demo_new end.

Lemma demo_inv ops : ops_ok demo_stream 6 demo_new ops → inv demo_stream 6 demo_isn (final ops).
Proof.
  intros Hok. unfold final.
  assert (inv demo_stream 6 demo_isn demo_new) as Hi by (apply sender_inv_new; done || lia).
  destruct (sender_run_spec demo_stream 6 demo_isn ltac:(lia) ltac:(done) ops demo_new Hi Hok (Forall_nil_2 _))
    as (s & q & -> & Hi' & _). done.
Qed.

Lemma sender_invariant_witness :
  ∃ s q, run demo_stream (new 4 1000 (Some demo_isn) 0) demo_ops = Ok (s, q) ∧
    Forall (good demo_stream 6 demo_isn) (q ++ segments_out s) ∧
    bytes_in_flight s = in_flight (Timer._outstandings (_timer s)) ∧
    chain demo_stream 6 demo_isn (next_seqno_absolute s - bytes_in_flight s)
      (Timer._outstandings (_timer s)) (next_seqno_absolute s) ∧
    (let acked := highest_ack demo_stream (new 4 1000 (Some demo_isn) 0) demo_ops in
     next_seqno_absolute s - bytes_in_flight s <= acked <= next_seqno_absolute s ∧
     Forall (λ o, acked < o.2) (Timer._outstandings (_timer s))) ∧
    ByteStream.contents (stream_in s) = slice demo_stream (sent s) (ByteStream.buffer_size (stream_in s)) ∧
    (Timer.running (_timer s) = true ↔ Timer._outstandings (_timer s) ≠ []).
Proof.
  apply (sender_invariant demo_stream 6 4 1000 demo_isn demo_ops); [lia | done | lia | lia |].
  vm_compute. done.
Defined.

Lemma fill_window_fills_witness :
  let s := final [Fill; Write 4; Ack (WrappingInt32.wrap 1 demo_isn) 3] in
  ∃ s' added, fill_window s = Ok s' ∧ inv demo_stream 6 demo_isn s' ∧
    segments_out s' = segments_out s ++ added.*1 ∧
    Timer._outstandings (_timer s') = Timer._outstandings (_timer s) ++ added ∧
    chain demo_stream 6 demo_isn (_next_seqno s) added (_next_seqno s') ∧
    written s' = written s ∧
    _next_seqno s' <= Z.max (_next_seqno s) (_ackno s + Z.max 1 (_window_size s)) ∧
    (_fin_sended s' = true ∨ _ackno s + Z.max 1 (_window_size s) <= _next_seqno s' ∨
     (0 < _next_seqno s' ∧ ByteStream.buffer_empty (stream_in s') = true ∧
      ByteStream.input_ended (stream_in s') = false)).
Proof. apply (fill_window_fills demo_stream 6 demo_isn); [lia | apply demo_inv; vm_compute; done]. Defined.

Lemma ack_received_exact_witness :
  let s := final [Fill; Write 4; Ack (WrappingInt32.wrap 1 demo_isn) 3; Fill] in
  let a := WrappingInt32.wrap 4 demo_isn in
  let n := acknowledged s a in
  let outs := Timer._outstandings (_timer s) in
  let s' := ack_received s a 9 in
  inv demo_stream 6 demo_isn s' ∧
  if n <=? _next_seqno s then
    Timer._outstandings (_timer s') = filter (λ o, n < o.2) outs ∧
    bytes_in_flight s' = in_flight (filter (λ o, n < o.2) outs) ∧
    _window_size s' = 9 ∧ _ackno s' = n ∧ consecutive_retransmissions s' = 0 ∧
    Timer._RTO (_timer s') = match outs with
                             | (_, k) :: _ => if n <? k then Timer._RTO (_timer s) else Timer._initial_RTO (_timer s)
                             | [] => Timer._RTO (_timer s)
                             end
  else s' = s.
Proof.
  apply (ack_received_exact demo_stream 6 9 demo_isn);
    [lia | done | apply demo_inv; vm_compute; done | done | lia].
Defined.

Lemma exponential_backoff_witness :
  let s := final [Fill] in
  let seg := List.hd TCPSegment.new (segments_out s) in
  ∃ s', expire 3 s = Ok s' ∧ segments_out s' = segments_out s ++ replicate 3 seg ∧
    Timer._RTO (_timer s') = Timer._initial_RTO (_timer s) * 2 ^ Z.of_nat 3 ∧
    consecutive_retransmissions s' = Z.of_nat 3.
Proof.
  cbv zeta. apply (exponential_backoff demo_stream 6 1 demo_isn (final [Fill]) _ [] 3);
    [apply demo_inv; vm_compute; done | vm_compute; done | vm_compute; reflexivity | reflexivity | reflexivity | lia].
Defined.

(** Acknowledgments are accepted in any order: [ack_received] only requires the
    number not to be beyond [next_seqno], so a delayed acknowledgment moves
    [_ackno] and the window back.  In the run below the receiver has
    acknowledged everything sent and opened a window of four; the sender could
    send the two bytes that wait.  The same sender, after an old
    acknowledgment with a smaller window arrives late, sends nothing. *)
Theorem stale_ack_closes_window :
  let s := final [Fill; Write 4; Ack (WrappingInt32.wrap 1 demo_isn) 2; Fill;
                  Ack (WrappingInt32.wrap 3 demo_isn) 4] in
  let a := WrappingInt32.wrap 1 demo_isn in
  acknowledged s a < _ackno s ∧ _ackno (ack_received s a 2) = acknowledged s a ∧
  (∃ s', fill_window s = Ok s' ∧ len (segments_out s') = len (segments_out s) + 1) ∧
  fill_window (ack_received s a 2) = Ok (ack_received s a 2).
Proof.
  vm_compute. split; [done|]. split; [done|]. split; [|done]. eexists. split; reflexivity.
Qed.

End TCPSender.
