(* ===== verification/tcp_transfer.v ===== *)
(** * A transfer over an unreliable network

    One [TCPSender], one [TCPReceiver] and a network between them that may
    lose, repeat, delay and reorder both segments and acknowledgments.  The
    theorems are the promise of TCP: what the reader gets is a prefix of what
    the writer wrote, and nothing the sender forgets is lost.

    The receiver's answers carry [ackno] and [window_size] the way
    [TCPConnection::update_queue] puts them in a header: the window is cut to
    16 bits. *)

From S2P Require Import Prelude wrapping_integers byte_stream stream_reassembler buffer tcp_header tcp_segment tcp_config tcp_receiver tcp_sender.

Module Transfer.

Record t := mk {
  sender : TCPSender.t;
  receiver : TCPReceiver.t;
  wire : list TCPSegment.t;                  (* every segment transmitted so far *)
  acks : list (WrappingInt32.t * Z);         (* every answer sent so far *)
  delivered : bytes }.                       (* what the reader has read *)

Inductive action :=
| Write (n : Z)          (* the writer writes the next [n] bytes of its stream *)
| Close                  (* the writer ends its stream *)
| Fill                   (* the sender fills its window *)
| Tick (ms : Z)          (* time passes at the sender *)
| Transmit               (* the sender's queue goes to the network *)
| Deliver (i : nat)      (* the network delivers the [i]-th segment, possibly again *)
| Answer                 (* the receiver sends its acknowledgment *)
| DeliverAck (i : nat)   (* the network delivers the [i]-th answer, possibly again *)
| Read (n : Z).          (* the reader reads up to [n] bytes *)

Definition set_sender (x : t) (s : TCPSender.t) : t := mk s (receiver x) (wire x) (acks x) (delivered x).
Definition set_receiver (x : t) (r : TCPReceiver.t) : t := mk (sender x) r (wire x) (acks x) (delivered x).

Definition step (stream : Z → byte) (x : t) (a : action) : result t :=
  match a with
  | Write n => '(s, _) ← TCPSender.step stream (sender x) (TCPSender.Write n); Ok (set_sender x s)
  | Close => '(s, _) ← TCPSender.step stream (sender x) TCPSender.Close; Ok (set_sender x s)
  | Fill => s ← TCPSender.fill_window (sender x); Ok (set_sender x s)
  | Tick ms => s ← TCPSender.tick (sender x) ms; Ok (set_sender x s)
  | Transmit =>
      Ok (mk (TCPSender.set_segments_out (sender x) []) (receiver x)
             (wire x ++ TCPSender.segments_out (sender x)) (acks x) (delivered x))
  | Deliver i =>
      match wire x !! i with
      | Some seg => r ← TCPReceiver.segment_received (receiver x) seg; Ok (set_receiver x r)
      | None => Ok x
      end
  | Answer =>
      match TCPReceiver.ackno (receiver x) with
      | Some a =>
          Ok (mk (sender x) (receiver x) (wire x)
                 (acks x ++ [(a, uint16 (TCPReceiver.window_size (receiver x)))]) (delivered x))
      | None => Ok x
      end
  | DeliverAck i =>
      match acks x !! i with
      | Some (a, w) => Ok (set_sender x (TCPSender.ack_received (sender x) a w))
      | None => Ok x
      end
  | Read n =>
      '(o, b) ← ByteStream.read (TCPReceiver.stream_out (receiver x)) n;
      Ok (mk (sender x) (TCPReceiver.set_stream_out (receiver x) o) (wire x) (acks x) (delivered x ++ b))
  end.

(** The writer keeps to its stream of [N] bytes; counts are not negative. *)
Definition allowed (N : Z) (x : t) (a : action) : Prop :=
  match a with
  | Write n => 0 <= n ∧ TCPSender.written (sender x) + n <= N
  | Close => TCPSender.written (sender x) = N
  | Tick n | Read n => 0 <= n
  | _ => True
  end.

Definition start (send_cap recv_cap rto : Z) (isn : WrappingInt32.t) : t :=
  mk (TCPSender.new send_cap rto (Some isn) 0) (TCPReceiver.new recv_cap) [] [] [].

(** The states a transfer can reach. *)
Inductive reachable (stream : Z → byte) (N : Z) (x0 : t) : t → Prop :=
| reach_start : reachable stream N x0 x0
| reach_step x a x' : reachable stream N x0 x → allowed N x a → step stream x a = Ok x' →
    reachable stream N x0 x'.

Section transfer.
Context (stream : Z → byte) (N : Z) (isn : WrappingInt32.t).
Context (HN : 0 <= N < 2147483646) (Hisn : WrappingInt32.valid isn).

(** An answer some state of the receiver up to now has given. *)
Definition answer_ok (r : TCPReceiver.t) (aw : WrappingInt32.t * Z) : Prop :=
  0 <= aw.2 < two16 ∧ ∃ k, aw.1 = WrappingInt32.wrap k isn ∧ 0 <= k <= TCPReceiver._ackno r.

Record inv (x : t) : Prop := {
  i_sender : TCPSender.inv stream N isn (sender x);
  i_receiver : TCPReceiver.inv stream N isn (receiver x);
  i_queue : Forall (TCPSender.good stream N isn) (TCPSender.segments_out (sender x));
  i_wire : Forall (TCPSender.good stream N isn) (wire x);
  i_acks : Forall (answer_ok (receiver x)) (acks x);
  i_una : ∃ una, TCPSender.chain stream N isn una (Timer._outstandings (TCPSender._timer (sender x)))
                   (TCPSender._next_seqno (sender x)) ∧ una <= TCPReceiver._ackno (receiver x);
  i_delivered : delivered x = slice stream 0 (StreamReassembler.consumed (TCPReceiver._reassembler (receiver x))) }.

Lemma inv_start send_cap recv_cap rto :
  0 <= send_cap < max_string → 0 < recv_cap < max_string → 0 <= rto < two16 →
  inv (start send_cap recv_cap rto isn).
Proof.
  intros. constructor; simpl; try done.
  - apply TCPSender.sender_inv_new; done || lia.
  - apply TCPReceiver.receiver_inv_new; done || lia.
  - by exists 0.
Qed.

Lemma answer_ok_mono r r' aw : TCPReceiver._ackno r <= TCPReceiver._ackno r' → answer_ok r aw → answer_ok r' aw.
Proof. intros ? (? & k & ? & ?). split; [done|]. exists k. split; [done | lia]. Qed.

(** The steps of the sender alone. *)
Lemma inv_sender_step x o s q : inv x → TCPSender.op_ok N (sender x) o →
  TCPSender.step stream (sender x) o = Ok (s, q) → q = [] →
  Timer._outstandings (TCPSender._timer s) = Timer._outstandings (TCPSender._timer (sender x)) ∧
  TCPSender._next_seqno s = TCPSender._next_seqno (sender x) ∨
  (∃ added, TCPSender.advanced stream N isn (sender x) s added) →
  inv (set_sender x s).
Proof.
  intros [] Ho E -> Hcase.
  destruct (TCPSender.step_spec stream N isn ltac:(lia) Hisn (sender x) o i_sender0 Ho i_queue0)
    as (s' & q' & E' & Hi' & Hq'). rewrite E in E'. injection E' as <- <-.
  constructor; try done. simpl. destruct i_una0 as (una & Hch & Hle). exists una. split; [|done].
  destruct Hcase as [[-> ->]|(added & [])]; [done|]. rewrite a_out. apply TCPSender.chain_app; [lia | eauto].
Qed.

Lemma near_segment x k seg : inv x → TCPReceiver.segment_at stream N isn k seg →
  Z.abs (k - TCPReceiver._ackno (receiver x)) < 2147483648.
Proof.
  intros [] Hs. destruct (TCPReceiver.inv_bounds stream N isn ltac:(lia) _ i_receiver0) as (_ & ? & _).
  destruct Hs as [_ _ ? [(_ & _ & Hb) _]].
  pose proof (len_nonneg (Buffer.str (TCPSegment.payload seg))).
  pose proof (bool_to_Z_range (k =? 0)). lia.
Qed.

Lemma inv_deliver x i : inv x → ∃ x', step stream x (Deliver i) = Ok x' ∧ inv x'.
Proof.
  intros Hi. simpl. destruct (wire x !! i) as [seg|] eqn:E; [|by exists x].
  destruct (proj1 (Forall_lookup _ _) (i_wire x Hi) i seg E) as [(k & Hseg) _].
  destruct (TCPReceiver.segment_spec stream N isn ltac:(lia) Hisn (receiver x) k seg (i_receiver x Hi) Hseg
    (near_segment x k seg Hi Hseg)) as (r & -> & Hr & _ & _ & Hmono & Hcon & _).
  eexists. split; [done|]. destruct Hi. constructor; try done; simpl.
  - eapply Forall_impl; [done|]. intros aw. by apply answer_ok_mono.
  - destruct i_una0 as (una & ? & ?). exists una. split; [done | lia].
  - by rewrite Hcon.
Qed.

Lemma inv_deliver_ack x i : inv x → ∃ x', step stream x (DeliverAck i) = Ok x' ∧ inv x'.
Proof.
  intros Hi. simpl. destruct (acks x !! i) as [[a w]|] eqn:E; [|by exists x].
  destruct (proj1 (Forall_lookup _ _) (i_acks x Hi) i _ E) as (Hw & k & Ha & Hk). simpl in *.
  eexists. split; [done|]. destruct (i_una x Hi) as (una & Hch & Hle).
  pose proof (TCPSender.next_bound stream N isn ltac:(lia) _ (i_sender x Hi)) as Hn.
  destruct (TCPReceiver.inv_bounds stream N isn ltac:(lia) _ (i_receiver x Hi)) as (_ & Hack & _).
  assert (WrappingInt32.valid a) as Hva by (rewrite Ha; apply WrappingInt32.valid_wrap).
  destruct (TCPSender.ack_received_spec stream N isn ltac:(lia) Hisn (sender x) a w (i_sender x Hi) Hva Hw)
    as (Hs & _ & Hnext & _ & Hq & Hcase).
  assert (TCPSender.acknowledged (sender x) a = k) as Hak.
  { unfold TCPSender.acknowledged. rewrite (TCPSender.i_isn _ _ _ _ (i_sender x Hi)), Ha.
    apply WrappingInt32.unwrap_wrap_near; [done | lia | lia | lia]. }
  destruct Hi. constructor; try done; simpl.
  - unfold TCPSender.segments_out. by rewrite Hq.
  - rewrite Hnext. revert Hcase. case_test.
    + intros (_ & _ & _ & Hun). destruct (Hun una Hch) as (una' & Hch' & Hu & Hu').
      exists una'. split; [done|]. destruct (Z.eq_dec una una'); [lia|].
      specialize (Hu' ltac:(lia)). lia.
    + intros ->. by exists una.
Qed.

Lemma inv_read x n : inv x → 0 <= n → ∃ x', step stream x (Read n) = Ok x' ∧ inv x'.
Proof.
  intros Hi Hn.
  destruct (TCPReceiver.receiver_read_spec stream N isn (receiver x) n (i_receiver x Hi) Hn)
    as (r & b & E & Hr & _ & Hb & Hcon). simpl in *.
  destruct (ByteStream.read _ n) as [[o b']|] eqn:Er; [|discriminate].
  simpl in E |- *. injection E as <- <-. eexists. split; [done|].
  destruct (i_receiver x Hi) as [[[] _ _ _] _ _ _].
  destruct Hi. constructor; try done; simpl.
  change (StreamReassembler.set_stream_out (TCPReceiver._reassembler (receiver x)) o)
    with (TCPReceiver._reassembler (TCPReceiver.set_stream_out (receiver x) o)).
  pose proof (len_nonneg b'). rewrite Hcon, i_delivered0, slice_app, Z.add_0_l, <- Hb by lia. done.
Qed.

(** Every allowed action succeeds and preserves the invariant. *)
Lemma inv_step x a : inv x → allowed N x a → ∃ x', step stream x a = Ok x' ∧ inv x'.
Proof.
  intros Hi Ha. pose proof (i_sender x Hi) as Hs. destruct a as [n| | |ms| |i| |i|n].
  - destruct (TCPSender.sender_write_spec stream N isn ltac:(lia) (sender x) n Hs) as (st & c & E & _); [apply Ha..|].
    assert (TCPSender.step stream (sender x) (TCPSender.Write n) = Ok (TCPSender.set_stream_in (sender x) st, [])) as E'
      by (simpl; by rewrite E). simpl step. rewrite E. eexists. split; [done|].
    eapply (inv_sender_step x (TCPSender.Write n)); [done | exact Ha | exact E' | done | by left].
  - eexists. split; [done|]. eapply (inv_sender_step x TCPSender.Close); [done | exact Ha | done | done | by left].
  - destruct (TCPSender.fill_window_spec stream N isn ltac:(lia) (sender x) Hs) as (s & added & E & Hadv & _).
    simpl step. rewrite E. eexists. split; [done|].
    eapply (inv_sender_step x TCPSender.Fill); [done | done | simpl; by rewrite E | done | right; by exists added].
  - destruct (TCPSender.sender_tick_spec stream N isn (sender x) ms Hs Ha) as (s & E & _ & _ & Hn & _ & Ho & _).
    simpl step. rewrite E. eexists. split; [done|].
    eapply (inv_sender_step x (TCPSender.Tick ms)); [done | exact Ha | simpl; by rewrite E | done | by left].
  - eexists. split; [done|]. destruct Hi. constructor; try done; simpl.
    + by apply TCPSender.inv_set_segments_out.
    + by apply Forall_app.
  - by apply inv_deliver.
  - simpl. unfold TCPReceiver.ackno. destruct (i_receiver x Hi) as [_ _ _ Hack].
    destruct (TCPReceiver._syn_arrived (receiver x)); simpl; [|by exists x].
    eexists. split; [done|]. destruct Hi. constructor; try done; simpl.
    apply Forall_app. split; [done|]. constructor; [|done]. split; [apply uint16_range|].
    exists (TCPReceiver._ackno (receiver x)). destruct Hack as [-> _]. split; [done|].
    destruct (TCPReceiver.inv_bounds stream N isn ltac:(lia) _ i_receiver0) as (_ & ? & _). lia.
  - by apply inv_deliver_ack.
  - by apply inv_read.
Qed.

Lemma reachable_inv x0 x : inv x0 → reachable stream N x0 x → inv x.
Proof.
  intros H0. induction 1 as [|x a x' _ IH Ha E]; [done|].
  destruct (inv_step x a IH Ha) as (x'' & E' & Hi). rewrite E in E'. by injection E' as <-.
Qed.

End transfer.

(** A sequence of actions. *)
Fixpoint run (stream : Z → byte) (x : t) (l : list action) : result t :=
  match l with
  | [] => Ok x
  | a :: l => x ← step stream x a; run stream x l
  end.
Fixpoint all_allowed (stream : Z → byte) (N : Z) (x : t) (l : list action) : Prop :=
  match l with
  | [] => True
  | a :: l => allowed N x a ∧ match step stream x a with Ok x => all_allowed stream N x l | Throw _ => False end
  end.

Lemma transfer_run_reachable stream N x0 l : ∀ x x', reachable stream N x0 x → all_allowed stream N x l →
  run stream x l = Ok x' → reachable stream N x0 x'.
Proof.
  induction l as [|a l IH]; intros x x' Hr Hl E; simpl in *; [by injection E as <-|].
  destruct Hl as [Ha Hl]. destruct (step stream x a) as [x1|f] eqn:Es; [|done].
  apply (IH x1); [by eapply reach_step | done | done].
Qed.

(** The part of the stream that has arrived in order. *)
Definition assembled (x : t) : Z := StreamReassembler.next_idx (TCPReceiver._reassembler (receiver x)).

Section properties.
Context (stream : Z → byte) (N : Z) (isn : WrappingInt32.t).
Context (HN : 0 <= N < 2147483646) (Hisn : WrappingInt32.valid isn).

Lemma prefix_of_inv x : inv stream N isn x →
  delivered x ++ ByteStream.contents (TCPReceiver.stream_out (receiver x)) = slice stream 0 (assembled x) ∧
  0 <= assembled x <= N ∧
  (ByteStream.input_ended (TCPReceiver.stream_out (receiver x)) = true → assembled x = N).
Proof.
  intros Hi. rewrite (i_delivered _ _ _ _ Hi). pose proof (TCPReceiver.inv_bounds stream N isn ltac:(lia) _ (i_receiver _ _ _ _ Hi)) as (Hn & _).
  destruct (i_receiver _ _ _ _ Hi) as [[[] _ _ Hend] _ _ _]. unfold StreamReassembler.next_idx in Hn.
  pose proof (ByteStream.wf_sz _ so_out). unfold assembled, StreamReassembler.next_idx.
  unfold TCPReceiver.stream_out, StreamReassembler.stream_out, StreamReassembler.consumed in *.
  split; [|split; [lia | intros He; apply (Hend He)]].
  rewrite so_contents, <- slice_app by lia. f_equal. lia.
Qed.

(** Sequence numbers below [una] have been acknowledged. *)
Lemma forgotten_arrived x una i : inv stream N isn x → una <= TCPReceiver._ackno (receiver x) →
  0 <= i < N → i + 1 < una → i < assembled x.
Proof.
  intros Hi Hu Hin Hlt. destruct (prefix_of_inv x Hi) as (_ & Hr & Hend).
  destruct (i_receiver _ _ _ _ Hi) as [_ _ _ Hack]. unfold assembled in *.
  destruct (TCPReceiver._syn_arrived (receiver x)).
  - destruct (ByteStream.input_ended (TCPReceiver.stream_out (receiver x))); simpl in *; [|lia].
    specialize (Hend eq_refl). lia.
  - lia.
Qed.

(** A number inside a chain belongs to one of its segments. *)
Lemma chain_covers l : ∀ k e n, TCPSender.chain stream N isn k l e → k <= n < e →
  ∃ seg k0 k1, (seg, k1) ∈ l ∧ TCPReceiver.segment_at stream N isn k0 seg ∧
    k1 = k0 + TCPSegment.length_in_sequence_space seg ∧ k0 <= n < k1.
Proof.
  induction l as [|[seg k'] l IH]; intros k e n Hch Hn; simpl in Hch; [lia|].
  destruct Hch as (Hs & Hk & _ & _ & Hch). destruct (Z_lt_le_dec n k').
  - exists seg, k, k'. split; [by left|]. split; [done|]. split; [done | lia].
  - destruct (IH k' e n Hch) as (seg' & k0 & k1 & Hin & H); [lia|].
    exists seg', k0, k1. split; [by right | done].
Qed.

End properties.

(** ** Properties *)

(** Safety of a transfer: over a network that loses, repeats, delays and
    reorders segments and acknowledgments at will, and whatever the writer,
    the reader and the timer do, no call of the sender or the receiver
    faults, and what the reader has read, followed by what waits for it, is
    exactly a prefix of the writer's stream; the reader sees the end of the
    stream only after all of it. *)
Theorem transfer_is_prefix (stream : Z → byte) (N send_cap recv_cap rto : Z) (isn : WrappingInt32.t) (x : t) :
  0 <= N < 2147483646 → WrappingInt32.valid isn →
  0 <= send_cap < max_string → 0 < recv_cap < max_string → 0 <= rto < two16 →
  reachable stream N (start send_cap recv_cap rto isn) x →
  delivered x ++ ByteStream.contents (TCPReceiver.stream_out (receiver x)) = slice stream 0 (assembled x) ∧
  0 <= assembled x <= N ∧
  (ByteStream.input_ended (TCPReceiver.stream_out (receiver x)) = true → assembled x = N) ∧
  ∀ a, allowed N x a → ∃ x', step stream x a = Ok x'.
Proof.
  intros HN Hisn Hs Hc Hr Hreach.
  assert (inv stream N isn x) as Hi by (eapply reachable_inv; [done | done | by apply inv_start | done]).
  destruct (prefix_of_inv stream N isn HN x Hi) as (H1 & H2 & H3). do 3 (split; [done|]).
  intros a Ha. destruct (inv_step stream N isn HN Hisn x a Hi Ha) as (x' & E & _). by exists x'.
Qed.

(** C4: Reliability of a transfer: nothing the sender has stopped keeping is lost.
    Every byte it has sent has either arrived in order at the receiver or is
    still in an outstanding segment, ready to be sent again; and once the
    sender has sent its FIN and has no bytes in flight, the whole stream, and
    its end, have arrived. *)
Theorem transfer_is_reliable (stream : Z → byte) (N send_cap recv_cap rto : Z) (isn : WrappingInt32.t) (x : t) :
  0 <= N < 2147483646 → WrappingInt32.valid isn →
  0 <= send_cap < max_string → 0 < recv_cap < max_string → 0 <= rto < two16 →
  reachable stream N (start send_cap recv_cap rto isn) x →
  (∀ i, 0 <= i < TCPSender.sent (sender x) →
     i < assembled x ∨
     ∃ seg k0 k1, (seg, k1) ∈ Timer._outstandings (TCPSender._timer (sender x)) ∧
       TCPReceiver.segment_at stream N isn k0 seg ∧
       k1 = k0 + TCPSegment.length_in_sequence_space seg ∧ k0 <= i + 1 < k1) ∧
  (TCPSender._fin_sended (sender x) = true → TCPSender.bytes_in_flight (sender x) = 0 →
   assembled x = N ∧ ByteStream.input_ended (TCPReceiver.stream_out (receiver x)) = true ∧
   delivered x ++ ByteStream.contents (TCPReceiver.stream_out (receiver x)) = slice stream 0 N).
Proof.
  intros HN Hisn Hs Hc Hr Hreach.
  assert (inv stream N isn x) as Hi by (eapply reachable_inv; [done | done | by apply inv_start | done]).
  destruct (prefix_of_inv stream N isn HN x Hi) as (Hpre & Hrange & Hend).
  destruct (i_una _ _ _ _ Hi) as (una & Hch & Hu). pose proof (i_sender _ _ _ _ Hi) as His.
  pose proof (ByteStream.wf_sz _ (TCPSender.i_stream _ _ _ _ His)) as Hsz.
  pose proof (TCPSender.i_written _ _ _ _ His) as Hw. unfold TCPSender.written, ByteStream.buffer_size in Hw.
  split.
  - intros i Hin. assert (i + 1 < TCPSender._next_seqno (sender x)) as Hlt.
    { unfold TCPSender.sent in Hin. pose proof (bool_to_Z_range (TCPSender._fin_sended (sender x))).
      destruct (Z.eqb_spec (TCPSender._next_seqno (sender x)) 0); lia. }
    destruct (Z_lt_le_dec (i + 1) una).
    + left. eapply forgotten_arrived; try done; lia.
    + right. eapply chain_covers; [done | lia].
  - intros Hf Hb. destruct (TCPSender.i_out _ _ _ _ His) as (una' & _ & Hch' & Hbf).
    assert (una' = una) as -> by (eapply TCPSender.chain_start; [done | done]).
    unfold TCPSender.bytes_in_flight in Hb.
    destruct (TCPSender.i_fin _ _ _ _ His Hf) as [Heof Hpos].
    assert (TCPSender._next_seqno (sender x) = N + 2) as Hnext.
    { unfold ByteStream.eof in Heof. apply andb_true_iff in Heof as [He Hz%Z.eqb_eq].
      pose proof (TCPSender.i_end _ _ _ _ His He) as Hall.
      unfold TCPSender.written, TCPSender.sent, ByteStream.buffer_size in Hall. rewrite Hf in Hall.
      destruct (Z.eqb_spec (TCPSender._next_seqno (sender x)) 0); simpl in Hall; lia. }
    destruct (i_receiver _ _ _ _ Hi) as [_ _ _ Hack].
    assert (ByteStream.input_ended (TCPReceiver.stream_out (receiver x)) = true) as He.
    { unfold assembled in *. destruct (TCPReceiver._syn_arrived (receiver x)); [|lia].
      destruct (ByteStream.input_ended _); [done|]. simpl in Hack. lia. }
    specialize (Hend He). rewrite Hend in Hpre. done.
Qed.

(** "abcdef" over buffers of four bytes: the first data segment is lost, resent
    and then delivered twice. *)
Definition demo_stream : Z → byte := StreamReassembler.demo_stream.
Definition demo_start : t := start 4 4 1000 (WrappingInt32.mk 4294967295).
Definition demo_actions : list action :=
  [Fill; Transmit; Deliver 0; Answer; DeliverAck 0; Write 4; Fill; Transmit; Tick 1000; Transmit;
   Deliver 2; Deliver 1; Answer; Read 4; Answer; DeliverAck 2; DeliverAck 1; DeliverAck 2;
   Write 2; Close; Fill; Transmit; Deliver 3; Answer; DeliverAck 3; Read 1].
Definition demo_final : t :=
  match run demo_stream demo_start demo_actions with Ok x => x | Throw _ => demo_start end.

Lemma transfer_demo_reachable : reachable demo_stream 6 demo_start demo_final.
Proof.
  apply (transfer_run_reachable demo_stream 6 demo_start demo_actions demo_start);
    [constructor | vm_compute; done | vm_compute; reflexivity].
Qed.

Lemma transfer_is_prefix_witness :
  delivered demo_final ++ ByteStream.contents (TCPReceiver.stream_out (receiver demo_final))
  = slice demo_stream 0 (assembled demo_final) ∧
  0 <= assembled demo_final <= 6 ∧
  (ByteStream.input_ended (TCPReceiver.stream_out (receiver demo_final)) = true → assembled demo_final = 6) ∧
  ∀ a, allowed 6 demo_final a → ∃ x', step demo_stream demo_final a = Ok x'.
Proof.
  apply (transfer_is_prefix demo_stream 6 4 4 1000 (WrappingInt32.mk 4294967295));
    [lia | done | lia | lia | lia | apply transfer_demo_reachable].
Defined.

Lemma transfer_is_reliable_witness :
  TCPSender._fin_sended (sender demo_final) = true ∧ TCPSender.bytes_in_flight (sender demo_final) = 0 ∧
  (∀ i, 0 <= i < TCPSender.sent (sender demo_final) →
     i < assembled demo_final ∨
     ∃ seg k0 k1, (seg, k1) ∈ Timer._outstandings (TCPSender._timer (sender demo_final)) ∧
       TCPReceiver.segment_at demo_stream 6 (WrappingInt32.mk 4294967295) k0 seg ∧
       k1 = k0 + TCPSegment.length_in_sequence_space seg ∧ k0 <= i + 1 < k1) ∧
  (TCPSender._fin_sended (sender demo_final) = true → TCPSender.bytes_in_flight (sender demo_final) = 0 →
   assembled demo_final = 6 ∧
   ByteStream.input_ended (TCPReceiver.stream_out (receiver demo_final)) = true ∧
   delivered demo_final ++ ByteStream.contents (TCPReceiver.stream_out (receiver demo_final))
   = slice demo_stream 0 6).
Proof.
  split; [vm_compute; reflexivity|]. split; [vm_compute; reflexivity|].
  apply (transfer_is_reliable demo_stream 6 4 4 1000 (WrappingInt32.mk 4294967295));
    [lia | done | lia | lia | lia | apply transfer_demo_reachable].
Defined.

End Transfer.
