(* ===== verification/tcp_progress.v ===== *)
(** * Progress of a transfer

    The network of [tcp_transfer] may do its worst for any time; this file shows that
    the transfer then still completes as soon as the network behaves for long enough.
    A round is fair when the reader reads, the receiver's answer arrives, the writer writes
    what fits, the timer expires, and what the sender transmits arrives.  From every
    state that the unreliable network can produce, each fair round delivers at
    least one more sequence number, until everything is delivered and acknowledged.

    The file has no source of its own: it is about [TCPSender] and [TCPReceiver] together. *)

From S2P Require Import Prelude wrapping_integers byte_stream stream_reassembler buffer.
From S2P Require Import tcp_header tcp_segment tcp_config tcp_receiver tcp_sender tcp_transfer.

Module Progress.
Import Transfer.

(** ** A fair round *)

Section Round.
Context (stream : Z → byte) (N : Z).

(** The segments from number [i] on arrive, [n] of them, in order. *)
Fixpoint deliver_from (i n : nat) (x : t) : result t :=
  match n with
  | O => Ok x
  | S n => x ← step stream x (Deliver i); deliver_from (S i) n x
  end.

(** The first half: reading, answering, acknowledging, writing. *)
Definition exchange (x : t) : result t :=
  x ← step stream x (Read (ByteStream.buffer_size (TCPReceiver.stream_out (receiver x))));
  x ← step stream x Answer;
  step stream x (DeliverAck (length (acks x) - 1)).

Definition supply (x : t) : result t :=
  x ← step stream x (Write (N - TCPSender.written (sender x)));
  if TCPSender.written (sender x) =? N then step stream x Close else Ok x.

(** The second half: sending, resending, delivering. *)
Definition send (x : t) : result t :=
  x ← step stream x Fill;
  x ← step stream x (Tick (Timer._RTO (TCPSender._timer (sender x))));
  let n := length (wire x) in
  x ← step stream x Transmit;
  deliver_from n (length (wire x) - n) x.

Definition round (x : t) : result t := x ← exchange x; x ← supply x; send x.

Fixpoint rounds (n : nat) (x : t) : result t :=
  match n with O => Ok x | S n => x ← round x; rounds n x end.

End Round.

(** ** What the receiver has can only be what was sent *)

Section Front.
Context (stream : Z → byte) (N : Z) (isn : WrappingInt32.t).
Context (HN : 0 <= N < 2147483646) (Hisn : WrappingInt32.valid isn).

(** The bytes of the stream that were cut into segments so far. *)
Definition frontier (s : TCPSender.t) : Z := Z.max 0 (Z.min N (TCPSender._next_seqno s - 1)).

(** A segment of the stream that ends before the next sequence number. *)
Definition sent_segment (s : TCPSender.t) (seg : TCPSegment.t) : Prop :=
  ∃ k, TCPReceiver.segment_at stream N isn k seg ∧ k + TCPSegment.length_in_sequence_space seg <= TCPSender._next_seqno s.

Record front (x : t) : Prop := {
  f_store : StreamReassembler.inv stream (N + 1) (frontier (sender x)) (TCPReceiver._reassembler (receiver x));
  f_wire : Forall (sent_segment (sender x)) (wire x);
  f_queue : Forall (sent_segment (sender x)) (TCPSender.segments_out (sender x));
  f_eof : StreamReassembler._eof (TCPReceiver._reassembler (receiver x)) = true → N + 2 <= TCPSender._next_seqno (sender x);
  f_syn : TCPReceiver._syn_arrived (receiver x) = true → 0 < TCPSender._next_seqno (sender x);
  f_cap : 0 < ByteStream._capacity (TCPSender._stream (sender x)) }.

Lemma store_mono E E' r : StreamReassembler.inv stream (N + 1) E r → E <= E' →
  (StreamReassembler._eof r = true → E' = E) → StreamReassembler.inv stream (N + 1) E' r.
Proof.
  intros [H1 H2 H3 H4] Hle He. constructor; [done | | |].
  - intros i Hi. specialize (H2 i Hi). lia.
  - intros Ht. rewrite He by done. by apply H3.
  - intros Ht. destruct (H4 Ht) as [Hf Hn]. split; [done|]. by rewrite He.
Qed.

Lemma sent_segment_mono s s' seg : TCPSender._next_seqno s <= TCPSender._next_seqno s' → sent_segment s seg → sent_segment s' seg.
Proof. intros Hle (k & Hk & Hb). exists k. split; [done | lia]. Qed.

(** Steps of the sender. *)
Lemma front_sender x s : front x → TCPSender._next_seqno (sender x) <= TCPSender._next_seqno s <= N + 2 →
  Forall (sent_segment s) (TCPSender.segments_out s) → 0 < ByteStream._capacity (TCPSender._stream s) →
  front (set_sender x s).
Proof.
  intros [F1 F2 F3 F4 F5 F6] Hn Hq Hc. constructor; simpl; [| | done | | | done].
  - eapply store_mono; [exact F1 | unfold frontier; lia|]. intros He. specialize (F4 He). unfold frontier. lia.
  - eapply Forall_impl; [exact F2|]. intros seg. apply sent_segment_mono. lia.
  - intros He. specialize (F4 He). lia.
  - intros He. specialize (F5 He). lia.
Qed.

(** The segments of a chain that ends at the next sequence number. *)
Lemma chain_sent s l : ∀ k, TCPSender.chain stream N isn k l (TCPSender._next_seqno s) → Forall (sent_segment s) l.*1.
Proof.
  induction l as [|[seg k'] l IH]; intros k Hch; simpl; [constructor|].
  destruct Hch as (Hs & -> & _ & _ & Hch). pose proof (TCPSender.chain_le _ _ _ _ _ _ Hch).
  constructor; [by exists k | by eapply IH].
Qed.

(** A segment arrives. *)
Lemma front_deliver x i x' : inv stream N isn x → front x → step stream x (Deliver i) = Ok x' → front x'.
Proof.
  intros Hi [F1 F2 F3 F4 F5 F6]. simpl. destruct (wire x !! i) as [seg|] eqn:Ew; [|by intros [= <-]].
  destruct (Forall_lookup_1 _ _ _ _ F2 Ew) as (k & Hs & Hb).
  rewrite (TCPReceiver.segment_received_cases stream N isn ltac:(lia) Hisn _ k seg (i_receiver _ _ _ _ Hi) Hs
    (near_segment stream N isn HN x k seg Hi Hs)).
  destruct (TCPReceiver.segment_length stream N isn ltac:(lia) k seg Hs) as (_ & Hlen & Hidx & _ & HfN).
  rewrite Hlen in Hb. fold (TCPReceiver.index_of k).
  pose proof (bool_to_Z_range (TCPHeader.fin (TCPSegment.header seg))).
  pose proof (len_nonneg (Buffer.str (TCPSegment.payload seg))).
  destruct (TCPReceiver.synchronized _ _ && _).
  - destruct (TCPReceiver.sa_data _ _ _ _ _ Hs) as (Hp & Hd & _). fold (TCPReceiver.index_of k) in Hp, Hd.
    destruct (StreamReassembler.push_spec stream (N + 1) ltac:(lia) (frontier (sender x)) ltac:(unfold frontier; lia)
      (TCPReceiver._reassembler (receiver x)) (Buffer.str (TCPSegment.payload seg)) (TCPReceiver.index_of k)
      (TCPHeader.fin (TCPSegment.header seg)) F1) as (rs & -> & Hrs & _ & _ & _ & He & _).
    { split; [done|]. unfold frontier. split; [destruct Hd; [by left | right; lia]|].
      intros Hf. rewrite Hf in *. specialize (HfN eq_refl). simpl in *. lia. }
    rewrite !result_bind_ok. intros [= <-]. constructor; simpl; try done; [|lia].
    rewrite He. intros [?|Hf]%orb_true_iff; [by apply F4|]. rewrite Hf in *. specialize (HfN eq_refl). simpl in *. lia.
  - rewrite result_bind_ok. intros [= <-]. constructor; simpl; try done.
    unfold TCPReceiver.synchronized. intros _. lia.
Qed.

Lemma front_read x n x' : front x → 0 <= n → step stream x (Read n) = Ok x' → front x'.
Proof.
  intros [F1 F2 F3 F4 F5 F6] Hn. simpl.
  destruct (StreamReassembler.take_spec stream (N + 1) (frontier (sender x)) (TCPReceiver._reassembler (receiver x)) n F1 Hn)
    as (o & b & E & _ & _ & Hinv & _).
  change (TCPReceiver.stream_out (receiver x)) with (StreamReassembler._output (TCPReceiver._reassembler (receiver x))).
  rewrite E, result_bind_ok. intros [= <-]. by constructor.
Qed.

(** Every allowed action. *)
Lemma front_step x a x' : inv stream N isn x → front x → allowed N x a → step stream x a = Ok x' → front x'.
Proof.
  intros Hi Hf Ha E. pose proof (i_sender _ _ _ _ Hi) as Hs. pose proof (f_cap _ Hf) as Hc. pose proof (f_queue _ Hf) as Hq.
  pose proof (TCPSender.next_bound stream N isn ltac:(lia) _ Hs) as Hn. destruct a as [n| | |ms| |i| |i|n]; simpl in E.
  - destruct (ByteStream.stream_write_spec (TCPSender._stream (sender x)) (slice stream (TCPSender.written (sender x)) n)
      (TCPSender.i_stream _ _ _ _ Hs)) as (st & Ew & [] & _).
    { destruct Ha as [H0 Hb]. rewrite len_slice by lia. pose proof (TCPSender.i_sent _ _ _ _ Hs).
      pose proof (ByteStream.wf_sz _ (TCPSender.i_stream _ _ _ _ Hs)).
      unfold TCPSender.written, ByteStream.buffer_size in Hb. lia. }
    rewrite Ew, !result_bind_ok in E. injection E as <-. apply front_sender; [done | simpl; lia | done | simpl; lia].
  - injection E as <-. apply front_sender; [done | simpl; lia | done | done].
  - destruct (TCPSender.fill_window_spec stream N isn ltac:(lia) (sender x) Hs) as (s & added & Ef & [] & _).
    rewrite Ef, result_bind_ok in E. injection E as <-.
    pose proof (TCPSender.next_bound stream N isn ltac:(lia) _ a_inv). pose proof (TCPSender.chain_le _ _ _ _ _ _ a_chain).
    apply front_sender; [done | lia | | lia]. unfold TCPSender.segments_out. rewrite a_queue. apply Forall_app. split.
    + eapply Forall_impl; [exact Hq|]. intros seg. by apply sent_segment_mono.
    + by eapply chain_sent.
  - destruct (TCPSender.sender_tick_spec stream N isn (sender x) ms Hs Ha) as (s & Et & Hs' & Est & Hnx & _ & _ & Hq').
    rewrite Et, result_bind_ok in E. injection E as <-. apply front_sender; [done | lia | | by rewrite Est].
    unfold TCPSender.segments_out. rewrite Hq'. apply Forall_app. split.
    + eapply Forall_impl; [exact Hq|]. intros seg. apply sent_segment_mono. lia.
    + destruct (TCPSender.i_out _ _ _ _ Hs) as (una & _ & Hch & _).
      destruct (Timer._outstandings _) as [|[seg k] outs]; [done|]. destruct (_ <=? _); [|done].
      constructor; [|done]. destruct Hch as (Hseg & -> & _ & _ & Hch). pose proof (TCPSender.chain_le _ _ _ _ _ _ Hch).
      exists una. split; [done | lia].
  - injection E as <-. destruct Hf. constructor; simpl; try done. by apply Forall_app.
  - by eapply front_deliver.
  - destruct (TCPReceiver.ackno _); injection E as <-; [|done]. destruct Hf. by constructor.
  - destruct (acks x !! i) as [[a w]|] eqn:El; injection E as <-; [|done].
    destruct (proj1 (Forall_lookup _ _) (i_acks _ _ _ _ Hi) i _ El) as (Hw & k & Hk & _). simpl in *.
    destruct (TCPSender.ack_received_spec stream N isn ltac:(lia) Hisn (sender x) a w Hs) as (_ & Est & Hnx & _ & Hqq & _);
      [rewrite Hk; apply WrappingInt32.valid_wrap | done |].
    apply front_sender; [done | lia | | by rewrite Est]. unfold TCPSender.segments_out. rewrite Hqq.
    eapply Forall_impl; [exact Hq|]. intros seg. apply sent_segment_mono. lia.
  - by eapply front_read.
Qed.

Lemma front_start send_cap recv_cap rto : 0 < send_cap < max_string → 0 < recv_cap < max_string →
  front (start send_cap recv_cap rto isn).
Proof.
  intros Hs Hr. constructor; simpl; try done; [|lia].
  apply (StreamReassembler.reassembler_inv_new stream (N + 1)); unfold frontier; simpl; lia.
Qed.

(** Both invariants together, and the bound on the receiver's answers. *)
Definition good (x : t) : Prop := inv stream N isn x ∧ front x.

Lemma good_step x a : good x → allowed N x a → ∃ x', step stream x a = Ok x' ∧ good x'.
Proof.
  intros [Hi Hf] Ha. destruct (inv_step stream N isn HN Hisn x a Hi Ha) as (x' & E & Hi').
  exists x'. split; [done|]. split; [done|]. exact (front_step x a x' Hi Hf Ha E).
Qed.

Lemma ack_bound x : good x → TCPReceiver._ackno (receiver x) <= TCPSender._next_seqno (sender x).
Proof.
  intros [Hi [F1 _ _ F4 F5 _]]. pose proof (TCPSender.next_bound stream N isn ltac:(lia) _ (i_sender _ _ _ _ Hi)) as Hn.
  destruct (i_receiver _ _ _ _ Hi) as [_ _ _ Hack]. destruct (TCPReceiver._syn_arrived (receiver x)); [|lia].
  destruct Hack as [_ ->]. specialize (F5 eq_refl).
  pose proof (StreamReassembler.inv_nidx stream (N + 1) (frontier (sender x)) ltac:(unfold frontier; lia) _ F1) as HnE.
  destruct F1 as [_ _ _ Hend]. unfold TCPReceiver.stream_out, StreamReassembler.stream_out, StreamReassembler.next_idx.
  destruct (ByteStream.input_ended _); simpl; [|unfold frontier in HnE; lia].
  destruct (Hend eq_refl) as [He _]. specialize (F4 He). unfold frontier in HnE. lia.
Qed.

(** ** The first half of a round *)

Abbreviation outs x := (Timer._outstandings (TCPSender._timer (sender x))) (only parsing).
Abbreviation next x := (TCPSender._next_seqno (sender x)) (only parsing).
Abbreviation ack x := (TCPReceiver._ackno (receiver x)) (only parsing).
Abbreviation waiting x := (ByteStream.buffer_size (TCPReceiver.stream_out (receiver x))) (only parsing).

(** Reading everything. *)
Lemma progress_read_all x x' : good x → step stream x (Read (waiting x)) = Ok x' →
  good x' ∧ ack x' = ack x ∧ TCPReceiver._syn_arrived (receiver x') = TCPReceiver._syn_arrived (receiver x) ∧
  waiting x' = 0 ∧ sender x' = sender x.
Proof.
  intros Hg E. pose proof (ByteStream.wf_sz _ (StreamReassembler.so_out _ _ _ _ (StreamReassembler.inv_store _ _ _ _
    (TCPReceiver.i_store _ _ _ _ (i_receiver _ _ _ _ (proj1 Hg)))))) as Hsz.
  assert (0 <= waiting x) as H0 by (unfold ByteStream.buffer_size; exact (proj1 Hsz)).
  destruct (good_step x (Read (waiting x)) Hg H0) as (x1 & E1 & Hg1). rewrite E in E1. injection E1 as <-.
  split; [done|]. simpl in E.
  destruct (StreamReassembler.take_spec stream (N + 1) (frontier (sender x)) (TCPReceiver._reassembler (receiver x)) (waiting x)
    (f_store _ (proj2 Hg)) H0) as (o & b & Eo & _ & Hlb & _ & _ & Hcon & _).
  change (TCPReceiver.stream_out (receiver x)) with (StreamReassembler._output (TCPReceiver._reassembler (receiver x))) in E, Eo.
  rewrite Eo, result_bind_ok in E. injection E as <-. do 2 (split; [done|]). split; [|done].
  unfold StreamReassembler.consumed in Hcon. simpl in *. unfold TCPReceiver.stream_out, StreamReassembler.stream_out, ByteStream.buffer_size in *.
  simpl in *. lia.
Qed.

(** Answering: the last of the answers is the receiver's state. *)
Lemma answer_spec x x' : good x → step stream x Answer = Ok x' →
  receiver x' = receiver x ∧ sender x' = sender x ∧
  (TCPReceiver._syn_arrived (receiver x) = true → ∃ w, 0 <= w < two16 ∧
     acks x' !! (length (acks x') - 1)%nat = Some (WrappingInt32.wrap (ack x) isn, w)).
Proof.
  intros Hg E. simpl in E. unfold TCPReceiver.ackno in E. destruct (i_receiver _ _ _ _ (proj1 Hg)) as [_ _ _ Ha].
  destruct (TCPReceiver._syn_arrived (receiver x)); [|by injection E as <-].
  injection E as <-. split; [done|]. split; [done|]. intros _. destruct Ha as [-> _].
  eexists. split; [apply uint16_range|]. simpl. rewrite length_app, Nat.add_sub. simpl.
  by rewrite lookup_app_r, Nat.sub_diag by lia.
Qed.

(** Acknowledging: everything that is still outstanding ends after the receiver's [ackno]; if nothing
    is, the sender has been told of everything it has sent. *)
Lemma exchange_spec x : good x →
  ∃ x', exchange stream x = Ok x' ∧ good x' ∧ ack x' = ack x ∧ waiting x' = 0 ∧
    (∀ o, o ∈ outs x' → ack x < o.2) ∧
    (outs x' = [] → next x' = ack x ∧ TCPSender._ackno (sender x') = ack x).
Proof.
  intros Hg. unfold exchange.
  assert (0 <= waiting x) as H0.
  { apply (ByteStream.wf_sz _ (StreamReassembler.so_out _ _ _ _ (StreamReassembler.inv_store _ _ _ _
      (TCPReceiver.i_store _ _ _ _ (i_receiver _ _ _ _ (proj1 Hg)))))). }
  destruct (good_step x (Read (waiting x)) Hg H0) as (x1 & E1 & _). rewrite E1, result_bind_ok.
  destruct (progress_read_all x x1 Hg E1) as (Hg1 & Hack & Hsyn & Hw & Hsend).
  destruct (good_step x1 Answer Hg1 I) as (x2 & E2 & Hg2). rewrite E2, result_bind_ok.
  destruct (good_step x2 (DeliverAck (length (acks x2) - 1)) Hg2 I) as (x3 & E3 & Hg3). rewrite E3.
  exists x3. split; [done|]. split; [done|].
  destruct (answer_spec x1 x2 Hg1 E2) as (Er2 & Es2 & Hlast).
  assert (receiver x3 = receiver x2) as Er3.
  { simpl in E3. destruct (acks x2 !! _) as [[a w]|]; by injection E3 as <-. }
  rewrite Er3, Er2. split; [done|]. split; [done|]. rewrite <- Hack.
  pose proof (ack_bound x3 Hg3) as Hle. rewrite Er3, Er2 in Hle.
  destruct (i_una _ _ _ _ (proj1 Hg3)) as (una & Hch & Hu). rewrite Er3, Er2 in Hu.
  pose proof (TCPSender.i_ackno _ _ _ _ (i_sender _ _ _ _ (proj1 Hg3))) as Hak.
  destruct (TCPReceiver._syn_arrived (receiver x1)) eqn:Esyn.
  - destruct (Hlast eq_refl) as (w & Hwr & Hl). simpl in E3. rewrite Hl in E3. injection E3 as <-.
    pose proof (i_sender _ _ _ _ (proj1 Hg2)) as Hs2.
    destruct (TCPSender.ack_received_spec stream N isn ltac:(lia) Hisn (sender x2) (WrappingInt32.wrap (ack x1) isn) w Hs2
      (WrappingInt32.valid_wrap _ _) Hwr) as (_ & _ & Hn & _ & _ & Hcase). simpl in *.
    assert (TCPSender.acknowledged (sender x2) (WrappingInt32.wrap (ack x1) isn) = ack x1) as Eak.
    { unfold TCPSender.acknowledged. rewrite (TCPSender.i_isn _ _ _ _ Hs2).
      pose proof (TCPSender.next_bound stream N isn ltac:(lia) _ Hs2).
      destruct (TCPReceiver.inv_bounds stream N isn ltac:(lia) _ (i_receiver _ _ _ _ (proj1 Hg1))) as (_ & ? & _).
      apply WrappingInt32.unwrap_wrap_near; [done | lia | lia | lia]. }
    rewrite Eak in Hcase. replace (ack x1 <=? TCPSender._next_seqno (sender x2)) with true in Hcase by (symmetry; apply Z.leb_le; lia).
    destruct Hcase as (Ho & Ea & _). split.
    + intros o Hin. rewrite Ho in Hin. unfold TCPSender.unacked in Hin. by apply list_elem_of_filter in Hin as [? _].
    + intros Hnil. rewrite Hnil in Hch. simpl in Hch. rewrite Ea. split; [lia | done].
  - destruct (i_receiver _ _ _ _ (proj1 Hg1)) as [_ _ _ Ha]. rewrite Esyn in Ha. destruct Ha as [Ha _]. rewrite Ha in *.
    destruct (TCPSender.i_out _ _ _ _ (i_sender _ _ _ _ (proj1 Hg3))) as (una' & Hu0 & Hch' & _). split.
    + intros o Hin. pose proof (TCPSender.chain_ends _ _ _ _ _ _ _ Hch' Hin). lia.
    + intros Hnil. rewrite Hnil in Hch. simpl in Hch. lia.
Qed.

(** Writing what fits, and closing at the end: then there is something to send, unless all has been sent. *)
Definition has_work (s : TCPSender.t) : Prop :=
  negb (ByteStream.buffer_empty (TCPSender._stream s)) || (TCPSender._next_seqno s =? 0)
  || ByteStream.eof (TCPSender._stream s) = true.

Lemma supply_spec x : good x →
  ∃ x', supply stream N x = Ok x' ∧ good x' ∧ receiver x' = receiver x ∧ delivered x' = delivered x ∧ outs x' = outs x ∧ next x' = next x ∧
    TCPSender._ackno (sender x') = TCPSender._ackno (sender x) ∧ has_work (sender x').
Proof.
  intros Hg. unfold supply. pose proof (i_sender _ _ _ _ (proj1 Hg)) as Hs. pose proof (f_cap _ (proj2 Hg)) as Hc.
  pose proof (TCPSender.i_written _ _ _ _ Hs) as Hw. pose proof (TCPSender.i_sent _ _ _ _ Hs) as H0.
  pose proof (ByteStream.wf_sz _ (TCPSender.i_stream _ _ _ _ Hs)) as Hsz.
  set (n := N - TCPSender.written (sender x)).
  destruct (good_step x (Write n) Hg) as (x1 & E1 & Hg1); [simpl; unfold n; lia|]. rewrite E1, result_bind_ok.
  simpl in E1. destruct (ByteStream.stream_write_spec (TCPSender._stream (sender x))
    (slice stream (TCPSender.written (sender x)) n) (TCPSender.i_stream _ _ _ _ Hs)) as (st & Ew & Hap & _).
  { rewrite len_slice by (unfold n; lia). unfold n, TCPSender.written, ByteStream.buffer_size in *. lia. }
  rewrite Ew, !result_bind_ok in E1. injection E1 as <-.
  pose proof (ByteStream.ap_sz _ _ _ (TCPSender.i_stream _ _ _ _ Hs) Hap) as Hst.
  pose proof (len_slice stream (TCPSender.written (sender x)) n ltac:(unfold n; lia)) as Hl.
  rewrite len_ztake, Hl in Hst by lia.
  assert (TCPSender.written (sender (set_sender x (TCPSender.set_stream_in (sender x) st)))
    = TCPSender.sent (sender x) + ByteStream._sz st) as -> by done.
  unfold TCPSender.written, ByteStream.buffer_size in *.
  destruct (Z.eqb_spec (TCPSender.sent (sender x) + ByteStream._sz st) N) as [Hall|Hpart].
  - destruct (good_step (set_sender x (TCPSender.set_stream_in (sender x) st)) Close Hg1) as (x2 & E2 & Hg2); [exact Hall|].
    rewrite E2. injection E2 as <-. eexists. split; [done|]. split; [exact Hg2|]. do 5 (split; [done|]).
    unfold has_work, ByteStream.buffer_empty, ByteStream.eof. simpl. destruct (ByteStream._sz st =? 0); [|done].
    by rewrite orb_true_r.
  - eexists. split; [done|]. split; [exact Hg1|]. do 5 (split; [done|]).
    unfold has_work, ByteStream.buffer_empty. simpl. unfold n in *. destruct (Z.eqb_spec (ByteStream._sz st) 0); [lia | done].
Qed.

(** ** The second half of a round *)

(** The sender has sent its FIN exactly when it has used all sequence numbers. *)
Lemma fin_next s : TCPSender.inv stream N isn s →
  TCPSender._fin_sended s = true ↔ TCPSender._next_seqno s = N + 2.
Proof.
  intros Hs. split.
  - intros Hf. destruct (TCPSender.i_fin _ _ _ _ Hs Hf) as [Heof Hpos]. unfold ByteStream.eof in Heof.
    apply andb_true_iff in Heof as [He Hz%Z.eqb_eq]. pose proof (TCPSender.i_end _ _ _ _ Hs He) as Hall.
    unfold TCPSender.written, TCPSender.sent, ByteStream.buffer_size in Hall. rewrite Hf in Hall.
    destruct (Z.eqb_spec (TCPSender._next_seqno s) 0); simpl in Hall; lia.
  - intros Hn. destruct (TCPSender._fin_sended s) eqn:Hf; [done|].
    destruct (TCPSender.next_sent stream N isn ltac:(lia) s Hs Hf). lia.
Qed.

(** With room in the window and something to send, [fill_window] sends. *)
Lemma fill_sends s : TCPSender.inv stream N isn s → has_work s → TCPSender._fin_sended s = false →
  TCPSender._next_seqno s < TCPSender.window_end s →
  ∃ s' added, TCPSender.fill_window s = Ok s' ∧ TCPSender.advanced stream N isn s s' added ∧
    TCPSender._next_seqno s < TCPSender._next_seqno s'.
Proof.
  intros Hs Hwork Hf Hlt. pose proof (TCPSender.i_window _ _ _ _ Hs) as Hw. pose proof (TCPSender.i_ackno _ _ _ _ Hs) as Ha.
  pose proof (TCPSender.next_bound stream N isn ltac:(lia) s Hs) as Hn. unfold TCPSender.window_end in Hlt.
  unfold TCPSender.fill_window.
  replace (uint64 ((if 0 <? TCPSender._window_size s then TCPSender._window_size s else 1) + TCPSender._ackno s))
    with (TCPSender.window_end s) by (unfold TCPSender.window_end; case_test; word_lia).
  unfold TCPSender.window_end. set (e := TCPSender._ackno s + _) in *.
  destruct (Z.to_nat (e - TCPSender._next_seqno s)) as [|fuel] eqn:Ef; [lia|]. cbn [TCPSender.fill_loop].
  assert (TCPSender.fill_cond s e = true) as Hc.
  { unfold TCPSender.fill_cond. rewrite Hf. unfold has_work in Hwork. rewrite Hwork.
    replace (TCPSender._next_seqno s <? e) with true by (symmetry; by apply Z.ltb_lt). done. }
  rewrite Hc.
  destruct (TCPSender.fill_body_spec stream N isn ltac:(lia) s e Hs Hc ltac:(lia)) as (s1 & a1 & -> & H1 & Hn1).
  rewrite result_bind_ok.
  destruct (TCPSender.fill_loop_spec stream N isn ltac:(lia) fuel s1 e (TCPSender.a_inv _ _ _ _ _ _ H1) ltac:(lia) ltac:(lia))
    as (s2 & a2 & E2 & H2 & _).
  exists s2, (a1 ++ a2). split; [done|]. split; [eapply TCPSender.advanced_trans; [lia | eassumption | eassumption]|].
  pose proof (TCPSender.chain_le _ _ _ _ _ _ (TCPSender.a_chain _ _ _ _ _ _ H2)). lia.
Qed.

(** What stays the same while segments arrive. *)
Record arrivals (x x' : t) : Prop := {
  v_good : good x';
  v_sender : sender x' = sender x;
  v_wire : wire x' = wire x;
  v_delivered : delivered x' = delivered x;
  v_ack : ack x <= ack x';
  v_waiting : ack x' = ack x → waiting x' = waiting x }.

Lemma arrivals_refl x : good x → arrivals x x.
Proof. by constructor. Qed.
Lemma arrivals_trans x y z : arrivals x y → arrivals y z → arrivals x z.
Proof. intros [] []. constructor; try congruence; [lia|]. intros E. rewrite v_waiting1, v_waiting0; lia. Qed.

(** The same [ackno] is the same position in the stream. *)
Lemma ack_position r r' : TCPReceiver.inv stream N isn r → TCPReceiver.inv stream N isn r' →
  TCPReceiver._ackno r = TCPReceiver._ackno r' →
  StreamReassembler.next_idx (TCPReceiver._reassembler r) = StreamReassembler.next_idx (TCPReceiver._reassembler r').
Proof.
  intros Hr Hr' E. destruct (TCPReceiver.inv_bounds stream N isn ltac:(lia) r Hr) as (Hn & _).
  destruct (TCPReceiver.inv_bounds stream N isn ltac:(lia) r' Hr') as (Hn' & _).
  destruct Hr as [[_ _ _ He] _ _ Ha], Hr' as [[_ _ _ He'] _ _ Ha'].
  unfold TCPReceiver.stream_out, StreamReassembler.stream_out, StreamReassembler.next_idx in *.
  set (e := ByteStream.input_ended _) in He, Ha. set (e' := ByteStream.input_ended _) in He', Ha'.
  assert (e = true → StreamReassembler._nidx (TCPReceiver._reassembler r) = N) as Hend by (intros H1; apply (He H1)).
  assert (e' = true → StreamReassembler._nidx (TCPReceiver._reassembler r') = N) as Hend' by (intros H1; apply (He' H1)).
  clear He He'. revert Hend Hend' Ha Ha'. generalize e, e'. clear e e'. intros e e' Hend Hend' Ha Ha'.
  destruct (TCPReceiver._syn_arrived r); [destruct Ha as [_ Ha] | destruct Ha as (Ha & Hz & _)];
    (destruct (TCPReceiver._syn_arrived r'); [destruct Ha' as [_ Ha'] | destruct Ha' as (Ha' & Hz' & _)]);
    destruct e, e'; cbn [bool_to_Z] in *; try specialize (Hend eq_refl); try specialize (Hend' eq_refl); lia.
Qed.

Lemma deliver_spec x i x' : good x → step stream x (Deliver i) = Ok x' → arrivals x x'.
Proof.
  intros Hg E. destruct (good_step x (Deliver i) Hg I) as (x1 & E1 & Hg1). rewrite E in E1. injection E1 as <-.
  simpl in E. destruct (wire x !! i) as [seg|] eqn:Ew; [|injection E as <-; by apply arrivals_refl].
  destruct (Forall_lookup_1 _ _ _ _ (f_wire _ (proj2 Hg)) Ew) as (k & Hs & _).
  pose proof (i_receiver _ _ _ _ (proj1 Hg)) as Hr.
  destruct (TCPReceiver.segment_spec stream N isn ltac:(lia) Hisn (receiver x) k seg Hr Hs
    (near_segment stream N isn HN x k seg (proj1 Hg) Hs)) as (r & Er & Hr' & _ & _ & Hle & Hcon & _).
  rewrite Er, result_bind_ok in E. injection E as <-. constructor; try done; simpl.
  intros Heq. pose proof (ack_position _ _ Hr' Hr Heq) as Hn.
  unfold StreamReassembler.consumed, StreamReassembler.next_idx, TCPReceiver.stream_out, StreamReassembler.stream_out,
    ByteStream.buffer_size in *. lia.
Qed.

Lemma deliver_from_spec n : ∀ i x, good x → ∃ x', deliver_from stream i n x = Ok x' ∧ arrivals x x'.
Proof.
  induction n as [|n IH]; intros i x Hg; cbn [deliver_from]; [exists x; split; [done | by apply arrivals_refl]|].
  destruct (good_step x (Deliver i) Hg I) as (x1 & E1 & Hg1). rewrite E1, result_bind_ok.
  destruct (IH (S i) x1 Hg1) as (x2 & E2 & H2). exists x2. split; [done|].
  eapply arrivals_trans; [by eapply deliver_spec | done].
Qed.

(** When the segment with the first missing number is among those that arrive, [ackno] moves. *)
Lemma deliver_hits n : ∀ i x x' j seg k A, good x → (i <= j < i + n)%nat → wire x !! j = Some seg →
  TCPReceiver.segment_at stream N isn k seg → k <= A < k + TCPSegment.length_in_sequence_space seg →
  A <= ack x → (ack x = A → waiting x = 0) → deliver_from stream i n x = Ok x' → A < ack x'.
Proof.
  induction n as [|n IH]; intros i x x' j seg k A Hg Hj Ew Hs Hin HA Hwait; [lia|]. cbn [deliver_from].
  intros (x1 & E1 & E2)%result_bind_inv. pose proof (deliver_spec x i x1 Hg E1) as H1.
  destruct (deliver_from_spec n (S i) x1 (v_good _ _ H1)) as (x2 & E2' & H2). rewrite E2 in E2'. injection E2' as <-.
  pose proof (v_ack _ _ H1). pose proof (v_ack _ _ H2). destruct (Nat.eq_dec i j) as [->|Hne].
  - destruct (Z.eq_dec (ack x) A) as [HeqA|]; [|lia]. enough (ack x < ack x1) by lia.
    simpl in E1. rewrite Ew in E1. apply result_bind_inv in E1 as (r & Er & [= <-]).
    pose proof (i_receiver _ _ _ _ (proj1 Hg)) as Hr.
    eapply (TCPReceiver.segment_progress stream N isn ltac:(lia) Hisn (receiver x) k seg r); [done | done | | | | exact Er].
    + exact (near_segment stream N isn HN x k seg (proj1 Hg) Hs).
    + lia.
    + rewrite (Hwait HeqA). apply (TCPReceiver.i_pos _ _ _ _ Hr).
  - eapply (IH (S i) x1 x' j seg k A); [apply H1 | lia | by rewrite (v_wire _ _ H1) | done | done | lia | | done].
    intros Heq. rewrite (v_waiting _ _ H1) by lia. apply Hwait. lia.
Qed.

(** What the sender has after filling its window: the segment with the receiver's first missing
    number, or nothing because everything was received. *)
Definition armed (A : Z) (x : t) : Prop :=
  (A = N + 2 ∧ outs x = []) ∨
  ∃ seg k k' rest, outs x = (seg, k') :: rest ∧ TCPReceiver.segment_at stream N isn k seg ∧
    k' = k + TCPSegment.length_in_sequence_space seg ∧ k <= A < k'.

Lemma fill_arms x : good x → has_work (sender x) → (∀ o, o ∈ outs x → ack x < o.2) →
  (outs x = [] → next x = ack x ∧ TCPSender._ackno (sender x) = ack x) →
  ∃ x', step stream x Fill = Ok x' ∧ good x' ∧ receiver x' = receiver x ∧ delivered x' = delivered x ∧ armed (ack x) x'.
Proof.
  intros Hg Hwork Hout Hnil. destruct (good_step x Fill Hg I) as (x' & E & Hg'). exists x'.
  split; [done|]. split; [done|]. simpl in E. pose proof (i_sender _ _ _ _ (proj1 Hg)) as Hs.
  destruct (TCPSender.fill_window_spec stream N isn ltac:(lia) (sender x) Hs) as (s & added & Ef & Hadv & _).
  rewrite Ef, result_bind_ok in E. injection E as <-. split; [done|]. split; [done|].
  destruct (i_una _ _ _ _ (proj1 Hg')) as (una & Hch & Hu). simpl in Hch, Hu.
  pose proof (TCPSender.a_chain _ _ _ _ _ _ Hadv) as Hadd. pose proof (TCPSender.a_out _ _ _ _ _ _ Hadv) as Eout.
  unfold armed. simpl. destruct (Timer._outstandings (TCPSender._timer s)) as [|[seg k'] rest].
  - left. split; [|done]. symmetry in Eout. apply app_eq_nil in Eout as [Ho ->]. destruct (Hnil Ho) as [Hn Ha].
    simpl in Hadd. destruct (TCPSender._fin_sended (sender x)) eqn:Hfin; [apply (fin_next _ Hs) in Hfin; lia|].
    destruct (fill_sends (sender x) Hs Hwork Hfin) as (s1 & a1 & E1 & _ & Hlt).
    { unfold TCPSender.window_end. lia. }
    rewrite Ef in E1. injection E1 as <-. lia.
  - right. destruct Hch as (Hseg & -> & _ & _ & _). exists seg, una, (una + TCPSegment.length_in_sequence_space seg), rest.
    split; [done|]. split; [done|]. split; [done|]. split; [done|].
    destruct (outs x) as [|[seg0 k0] rest0].
    + destruct (Hnil eq_refl) as [Hn _]. simpl in Eout. subst added.
      pose proof (TCPSender.chain_ends _ _ _ _ _ _ _ Hadd (list_elem_of_here _ _)) as He. simpl in He. lia.
    + injection Eout as <- <- _. apply (Hout (seg, _)), list_elem_of_here.
Qed.

(** The whole half. *)
Lemma send_spec x : good x → has_work (sender x) → waiting x = 0 → (∀ o, o ∈ outs x → ack x < o.2) →
  (outs x = [] → next x = ack x ∧ TCPSender._ackno (sender x) = ack x) →
  ∃ x', send stream x = Ok x' ∧ good x' ∧ delivered x' = delivered x ∧
    (ack x < ack x' ∨ ack x = N + 2 ∧ ack x' = ack x ∧ outs x' = []).
Proof.
  intros Hg Hwork Hwait Hout Hnil. unfold send.
  destruct (fill_arms x Hg Hwork Hout Hnil) as (x1 & -> & Hg1 & Er1 & Ed1 & Harm). rewrite result_bind_ok.
  pose proof (i_sender _ _ _ _ (proj1 Hg1)) as Hs1. destruct (TCPSender.i_rto _ _ _ _ Hs1) as (Hrto & _).
  set (ms := Timer._RTO (TCPSender._timer (sender x1))) in *.
  destruct (good_step x1 (Tick ms) Hg1) as (x2 & E2 & Hg2); [simpl; lia|]. rewrite E2, result_bind_ok. simpl in E2.
  destruct (TCPSender.sender_tick_spec stream N isn (sender x1) ms Hs1 ltac:(lia)) as (s2 & Et & _ & _ & _ & _ & Eo & Eq).
  rewrite Et, result_bind_ok in E2. injection E2 as <-. fold ms in Eq. rewrite Z.leb_refl in Eq.
  destruct (good_step (set_sender x1 s2) Transmit Hg2 I) as (x3 & E3 & Hg3). rewrite E3, result_bind_ok.
  simpl in E3. injection E3 as <-. simpl wire. rewrite length_app, Nat.add_sub_swap, Nat.sub_diag, Nat.add_0_l by lia.
  set (x3 := mk _ _ _ _ _) in *.
  destruct (deliver_from_spec (length (TCPSender.segments_out s2)) (length (wire x1)) x3 Hg3) as (x' & E' & Har).
  exists x'. split; [done|]. destruct Har as [Hg' Es Ew Ed Ha Hwt]. split; [done|]. split; [by rewrite Ed|].
  assert (ack x3 = ack x) as EA by (simpl; by rewrite Er1). rewrite EA in Ha.
  destruct Harm as [[HA Hno]|(seg & k & k' & rest & Hcons & Hseg & -> & Hin)].
  - right. split; [done|]. split; [|rewrite Es; simpl; by rewrite Eo].
    destruct (TCPReceiver.inv_bounds stream N isn ltac:(lia) _ (i_receiver _ _ _ _ (proj1 Hg'))) as (_ & Hb & _). lia.
  - left. rewrite Hcons in Eq.
    eapply (deliver_hits (length (TCPSender.segments_out s2)) (length (wire x1)) x3 x'
      (length (wire x1) + length (TCPSender._segments_out (sender x1))) seg k (ack x)); [done | | | done | done | lia | | done].
    + unfold TCPSender.segments_out. rewrite Eq, length_app. simpl. lia.
    + simpl. rewrite lookup_app_r by lia. unfold TCPSender.segments_out. rewrite Eq, lookup_app_r by lia.
      by replace (_ + _ - _ - _)%nat with 0%nat by lia.
    + intros _. simpl. by rewrite Er1.
Qed.

(** ** Rounds *)

(** Everything is delivered, and the sender knows. *)
Record complete (x : t) : Prop := {
  c_delivered : delivered x = slice stream 0 N;
  c_ended : ByteStream.input_ended (TCPReceiver.stream_out (receiver x)) = true;
  c_fin : TCPSender._fin_sended (sender x) = true;
  c_flight : TCPSender.bytes_in_flight (sender x) = 0 }.

(** The receiver at the last number. *)
Lemma ack_end r : TCPReceiver.inv stream N isn r → TCPReceiver._ackno r = N + 2 →
  StreamReassembler.next_idx (TCPReceiver._reassembler r) = N ∧ ByteStream.input_ended (TCPReceiver.stream_out r) = true.
Proof.
  intros Hr E. destruct (TCPReceiver.inv_bounds stream N isn ltac:(lia) r Hr) as (Hn & _).
  destruct Hr as [_ _ _ Ha]. destruct (TCPReceiver._syn_arrived r); [|lia].
  destruct (ByteStream.input_ended _); simpl in Ha; [|lia]. split; [lia | done].
Qed.

Lemma progress_round_spec x : good x → ∃ x', round stream N x = Ok x' ∧ good x' ∧
  (ack x < ack x' ∨ ack x' = N + 2 ∧ complete x').
Proof.
  intros Hg. unfold round.
  destruct (exchange_spec x Hg) as (x1 & -> & Hg1 & Ha1 & Hw1 & Ho1 & Hn1). rewrite result_bind_ok.
  destruct (supply_spec x1 Hg1) as (x2 & -> & Hg2 & Er2 & Ed2 & Eo2 & En2 & Ea2 & Hwork). rewrite result_bind_ok.
  destruct (send_spec x2 Hg2 Hwork) as (x3 & E3 & Hg3 & Ed3 & Hp).
  { by rewrite Er2. } { rewrite Eo2, Er2, Ha1. done. } { rewrite Eo2, En2, Ea2, Er2, Ha1. done. }
  exists x3. split; [done|]. split; [done|]. rewrite Er2, Ha1 in Hp. destruct Hp as [Hp|(HA & HA3 & Hnil)]; [by left|].
  right. split; [lia|]. rewrite HA in HA3.
  destruct (ack_end (receiver x3) (i_receiver _ _ _ _ (proj1 Hg3)) HA3) as [_ Hend].
  destruct (ack_end (receiver x1) (i_receiver _ _ _ _ (proj1 Hg1)) ltac:(lia)) as [Hidx _].
  pose proof (i_sender _ _ _ _ (proj1 Hg3)) as Hs3. pose proof (ack_bound x3 Hg3) as Hb.
  pose proof (TCPSender.next_bound stream N isn ltac:(lia) _ Hs3) as Hnb. constructor; [|done | |].
  - rewrite Ed3, Ed2, (i_delivered _ _ _ _ (proj1 Hg1)). f_equal. unfold StreamReassembler.consumed.
    unfold StreamReassembler.next_idx, TCPReceiver.stream_out, StreamReassembler.stream_out, ByteStream.buffer_size in *. lia.
  - apply (fin_next _ Hs3). lia.
  - destruct (TCPSender.i_out _ _ _ _ Hs3) as (una & _ & Hch & Hbf). rewrite Hnil in Hch. simpl in Hch.
    unfold TCPSender.bytes_in_flight. lia.
Qed.

(** A round after the last one changes nothing of this. *)
Lemma rounds_complete n : ∀ x, good x → N + 2 - ack x < Z.of_nat n → ∃ x', rounds stream N n x = Ok x' ∧ complete x'.
Proof.
  induction n as [|n IH]; intros x Hg Hn.
  - destruct (TCPReceiver.inv_bounds stream N isn ltac:(lia) _ (i_receiver _ _ _ _ (proj1 Hg))) as (_ & ? & _). lia.
  - cbn [rounds]. destruct (progress_round_spec x Hg) as (x1 & -> & Hg1 & Hp). rewrite result_bind_ok.
    destruct (Z_lt_le_dec (N + 2 - ack x1) (Z.of_nat n)) as [Hlt|Hge]; [by apply IH|].
    destruct Hp as [Hp|[HA Hc]]; [lia|]. destruct n as [|n]; [by exists x1 | lia].
Qed.

Lemma reachable_good send_cap recv_cap rto x :
  0 < send_cap < max_string → 0 < recv_cap < max_string → 0 <= rto < two16 →
  reachable stream N (start send_cap recv_cap rto isn) x → good x.
Proof.
  intros Hs Hr Ht. induction 1 as [|x a x' _ IH Ha E].
  - split; [apply inv_start; done || lia | by apply front_start].
  - destruct (good_step x a IH Ha) as (x1 & E1 & Hg). rewrite E in E1. by injection E1 as <-.
Qed.

End Front.

(** C6: A transfer completes.  Take any state that the unreliable network has led to, whatever it has
    lost, repeated, delayed or reordered, and however far the writer and the reader have come.  From
    there, N + 3 fair rounds deliver the whole stream of N bytes and its end to the
    reader, and leave the sender with its FIN sent and nothing in flight; no call faults.
    This needs no more than a positive capacity on both sides. *)
Theorem transfer_completes (stream : Z → byte) (N send_cap recv_cap rto : Z) (isn : WrappingInt32.t) (x : t) :
  0 <= N < 2147483646 → WrappingInt32.valid isn →
  0 < send_cap < max_string → 0 < recv_cap < max_string → 0 <= rto < two16 →
  reachable stream N (start send_cap recv_cap rto isn) x →
  ∃ x', rounds stream N (Z.to_nat (N + 3)) x = Ok x' ∧ delivered x' = slice stream 0 N ∧
    ByteStream.input_ended (TCPReceiver.stream_out (receiver x')) = true ∧
    TCPSender._fin_sended (sender x') = true ∧ TCPSender.bytes_in_flight (sender x') = 0.
Proof.
  intros HN Hisn Hs Hr Ht Hreach. pose proof (reachable_good stream N isn HN Hisn _ _ _ x Hs Hr Ht Hreach) as Hg.
  destruct (TCPReceiver.inv_bounds stream N isn ltac:(lia) _ (i_receiver _ _ _ _ (proj1 Hg))) as (_ & Hb & _).
  destruct (rounds_complete stream N isn HN Hisn (Z.to_nat (N + 3)) x Hg) as (x' & E & []); [lia|]. by exists x'.
Qed.

(** The first data segment was lost, and an answer is on its way. *)
Definition stuck_actions : list action := [Fill; Transmit; Deliver 0; Answer; DeliverAck 0; Write 4; Fill; Transmit].
Definition stuck : t := match run demo_stream demo_start stuck_actions with Ok x => x | Throw _ => demo_start end.

Lemma stuck_reachable : reachable demo_stream 6 demo_start stuck.
Proof.
  apply (transfer_run_reachable demo_stream 6 demo_start stuck_actions demo_start);
    [constructor | vm_compute; done | vm_compute; reflexivity].
Qed.

Lemma transfer_completes_witness :
  ∃ x', rounds demo_stream 6 9 stuck = Ok x' ∧ delivered x' = slice demo_stream 0 6 ∧
    ByteStream.input_ended (TCPReceiver.stream_out (receiver x')) = true ∧
    TCPSender._fin_sended (sender x') = true ∧ TCPSender.bytes_in_flight (sender x') = 0.
Proof.
  apply (transfer_completes demo_stream 6 4 4 1000 (WrappingInt32.mk 4294967295) stuck);
    [lia | done | lia | lia | lia | apply stuck_reachable].
Defined.

End Progress.
