(* ===== verification/tcp_state.v ===== *)
(** * Connection states (src/lab/libsponge/tcp_helpers/tcp_state.hh, .cc)

    The summaries by which an endpoint is compared with the states of the TCP
    specification. *)

From Stdlib Require Import Strings.String.
From S2P Require Import Prelude wrapping_integers byte_stream tcp_receiver tcp_sender.

Module TCPReceiverStateSummary.
Definition ERROR : string := "error (connection was reset)".
Definition LISTEN : string := "waiting for SYN: ackno is empty".
Definition SYN_RECV : string := "SYN received (ackno exists), and input to stream hasn't ended".
Definition FIN_RECV : string := "input to stream has ended".
End TCPReceiverStateSummary.

Module TCPSenderStateSummary.
Definition ERROR : string := "error (connection was reset)".
Definition CLOSED : string := "waiting for stream to begin (no SYN sent)".
Definition SYN_SENT : string := "stream started but nothing acknowledged".
Definition SYN_ACKED : string := "stream ongoing".
Definition FIN_SENT : string := "stream finished (FIN sent) but not fully acknowledged".
Definition FIN_ACKED : string := "stream finished and fully acknowledged".
End TCPSenderStateSummary.

Module TCPState.

Inductive State :=
| LISTEN | SYN_RCVD | SYN_SENT | ESTABLISHED | CLOSE_WAIT | LAST_ACK
| FIN_WAIT_1 | FIN_WAIT_2 | CLOSING | TIME_WAIT | CLOSED | RESET.

Record t := mk {
  _sender : string; _receiver : string; _active : bool; _linger_after_streams_finish : bool }.

Definition eqb (a b : t) : bool :=
  Bool.eqb (_active a) (_active b) &&
  Bool.eqb (_linger_after_streams_finish a) (_linger_after_streams_finish b) &&
  String.eqb (_sender a) (_sender b) && String.eqb (_receiver a) (_receiver b).
Definition neqb (a b : t) : bool := negb (eqb a b).

(** [to_string] of a [bool] prints an integer. *)
Definition bool_string (b : bool) : string := if b then "1" else "0".
Definition name (a : t) : string :=
  ("sender=`" ++ _sender a ++ "`, receiver=`" ++ _receiver a ++ "`, active=" ++ bool_string (_active a)
   ++ ", linger_after_streams_finish=" ++ bool_string (_linger_after_streams_finish a))%string.

(** The constructor from an official state; the defaults are [true]. *)
Definition of_state (state : State) : t :=
  match state with
  | LISTEN => mk TCPSenderStateSummary.CLOSED TCPReceiverStateSummary.LISTEN true true
  | SYN_RCVD => mk TCPSenderStateSummary.SYN_SENT TCPReceiverStateSummary.SYN_RECV true true
  | SYN_SENT => mk TCPSenderStateSummary.SYN_SENT TCPReceiverStateSummary.LISTEN true true
  | ESTABLISHED => mk TCPSenderStateSummary.SYN_ACKED TCPReceiverStateSummary.SYN_RECV true true
  | CLOSE_WAIT => mk TCPSenderStateSummary.SYN_ACKED TCPReceiverStateSummary.FIN_RECV true false
  | LAST_ACK => mk TCPSenderStateSummary.FIN_SENT TCPReceiverStateSummary.FIN_RECV true false
  | CLOSING => mk TCPSenderStateSummary.FIN_SENT TCPReceiverStateSummary.FIN_RECV true true
  | FIN_WAIT_1 => mk TCPSenderStateSummary.FIN_SENT TCPReceiverStateSummary.SYN_RECV true true
  | FIN_WAIT_2 => mk TCPSenderStateSummary.FIN_ACKED TCPReceiverStateSummary.SYN_RECV true true
  | TIME_WAIT => mk TCPSenderStateSummary.FIN_ACKED TCPReceiverStateSummary.FIN_RECV true true
  | RESET => mk TCPSenderStateSummary.ERROR TCPReceiverStateSummary.ERROR false false
  | CLOSED => mk TCPSenderStateSummary.FIN_ACKED TCPReceiverStateSummary.FIN_RECV false false
  end.

Definition receiver_summary (receiver : TCPReceiver.t) : string :=
  if ByteStream.error (TCPReceiver.stream_out receiver) then TCPReceiverStateSummary.ERROR
  else match TCPReceiver.ackno receiver with
  | None => TCPReceiverStateSummary.LISTEN
  | Some _ =>
      if ByteStream.input_ended (TCPReceiver.stream_out receiver)
      then TCPReceiverStateSummary.FIN_RECV else TCPReceiverStateSummary.SYN_RECV
  end.

Definition sender_summary (sender : TCPSender.t) : string :=
  if ByteStream.error (TCPSender.stream_in sender) then TCPSenderStateSummary.ERROR
  else if TCPSender.next_seqno_absolute sender =? 0 then TCPSenderStateSummary.CLOSED
  else if TCPSender.next_seqno_absolute sender =? TCPSender.bytes_in_flight sender
  then TCPSenderStateSummary.SYN_SENT
  else if negb (ByteStream.eof (TCPSender.stream_in sender)) then TCPSenderStateSummary.SYN_ACKED
  else if TCPSender.next_seqno_absolute sender <? uint64 (ByteStream.bytes_written (TCPSender.stream_in sender) + 2)
  then TCPSenderStateSummary.SYN_ACKED
  else if negb (TCPSender.bytes_in_flight sender =? 0) then TCPSenderStateSummary.FIN_SENT
  else TCPSenderStateSummary.FIN_ACKED.

Definition of_parts (sender : TCPSender.t) (receiver : TCPReceiver.t) (active linger : bool) : t :=
  mk (sender_summary sender) (receiver_summary receiver) active (if active then linger else false).

Lemma state_eqb_eq a b : eqb a b = true ↔ a = b.
Proof.
  unfold eqb. rewrite !andb_true_iff, !Bool.eqb_true_iff, !String.eqb_eq.
  destruct a, b; simpl. split; [by intros (((-> & ->) & ->) & ->) | by injection 1 as -> -> -> ->].
Qed.

(** The summaries tell the official TCP states apart: [operator==] on
    summaries is equality, and no two of the twelve states of the
    specification have the same summary. *)
Theorem official_states_distinct :
  (∀ a b, eqb a b = true ↔ a = b) ∧ ∀ s1 s2, of_state s1 = of_state s2 → s1 = s2.
Proof.
  split; [apply state_eqb_eq|]. intros s1 s2 E. apply state_eqb_eq in E.
  destruct s1, s2; reflexivity || (vm_compute in E; discriminate E).
Qed.

End TCPState.
