(* ===== verification/tcp_connection.v ===== *)
(** * The TCP connection (src/lab/libsponge/tcp_connection.hh, .cc)

    The endpoint: a receiver, a sender, the queue of outgoing segments and the
    life cycle of the connection. *)

From S2P Require Import Prelude wrapping_integers byte_stream stream_reassembler buffer tcp_header tcp_segment tcp_config tcp_receiver tcp_sender tcp_state.

Module TCPConnection.

Record t := mk {
  _cfg : TCPConfig.t;
  _receiver : TCPReceiver.t;
  _sender : TCPSender.t;
  _segments_out : list TCPSegment.t;
  _linger_after_streams_finish : bool;
  _linger_time : Z;
  _last_received : bool;
  _active : bool }.

(** [random] is the value [random_device()()] would give. *)
Definition new (cfg : TCPConfig.t) (random : Z) : t :=
  mk cfg (TCPReceiver.new (TCPConfig.recv_capacity cfg))
     (TCPSender.new (TCPConfig.send_capacity cfg) (TCPConfig.rt_timeout cfg) (TCPConfig.fixed_isn cfg) random)
     [] true 0 false true.

(** Field updates. *)
Definition set_receiver (c : t) (r : TCPReceiver.t) : t :=
  mk (_cfg c) r (_sender c) (_segments_out c) (_linger_after_streams_finish c) (_linger_time c) (_last_received c) (_active c).
Definition set_sender (c : t) (s : TCPSender.t) : t :=
  mk (_cfg c) (_receiver c) s (_segments_out c) (_linger_after_streams_finish c) (_linger_time c) (_last_received c) (_active c).
Definition set_segments_out (c : t) (q : list TCPSegment.t) : t :=
  mk (_cfg c) (_receiver c) (_sender c) q (_linger_after_streams_finish c) (_linger_time c) (_last_received c) (_active c).
Definition set_linger (c : t) (b : bool) : t :=
  mk (_cfg c) (_receiver c) (_sender c) (_segments_out c) b (_linger_time c) (_last_received c) (_active c).
Definition set_linger_time (c : t) (n : Z) : t :=
  mk (_cfg c) (_receiver c) (_sender c) (_segments_out c) (_linger_after_streams_finish c) n (_last_received c) (_active c).
Definition set_active (c : t) (b : bool) : t :=
  mk (_cfg c) (_receiver c) (_sender c) (_segments_out c) (_linger_after_streams_finish c) (_linger_time c) (_last_received c) b.

Definition inbound_stream (c : t) : ByteStream.t := TCPReceiver.stream_out (_receiver c).
Definition outbound_stream (c : t) : ByteStream.t := TCPSender.stream_in (_sender c).
Definition segments_out (c : t) : list TCPSegment.t := _segments_out c.
Definition active (c : t) : bool := _active c.
Definition state (c : t) : TCPState.t :=
  TCPState.of_parts (_sender c) (_receiver c) (active c) (_linger_after_streams_finish c).
Definition remaining_outbound_capacity (c : t) : Z := ByteStream.remaining_capacity (outbound_stream c).
Definition bytes_in_flight (c : t) : Z := TCPSender.bytes_in_flight (_sender c).
Definition unassembled_bytes (c : t) : Z := TCPReceiver.unassembled_bytes (_receiver c).
Definition time_since_last_segment_received (c : t) : Z := _linger_time c.

(** [set_error] on both streams. *)
Definition set_errors (c : t) : t :=
  let c := set_receiver c (TCPReceiver.set_stream_out (_receiver c) (ByteStream.set_error (inbound_stream c))) in
  set_sender c (TCPSender.set_stream_in (_sender c) (ByteStream.set_error (outbound_stream c))).

Definition send_rst (c : t) : result t :=
  let c := set_segments_out c [] in
  let c := set_sender c (TCPSender.send_empty_segment (_sender c)) in
  match last (TCPSender.segments_out (_sender c)) with
  | None => Throw EmptyQueue
  | Some seg =>
      let seg := TCPSegment.mk (TCPHeader.set_rst (TCPSegment.header seg) true) (TCPSegment.payload seg) in
      let c := set_segments_out c (_segments_out c ++ [seg]) in
      Ok (set_active (set_errors c) false)
  end.

Definition try_clean_closed (c : t) : t :=
  if ByteStream.eof (inbound_stream c) && ByteStream.eof (outbound_stream c) && (bytes_in_flight c =? 0) then
    if negb (_linger_after_streams_finish c) || (TCPConfig.rt_timeout (_cfg c) * 10 <=? _linger_time c)
    then set_active c false else c
  else c.

(** The header fields the receiver fills in; the window is cut to 16 bits. *)
Definition stamp (r : TCPReceiver.t) (seg : TCPSegment.t) : TCPSegment.t :=
  match TCPReceiver.ackno r with
  | Some a =>
      let h := TCPHeader.set_ack (TCPSegment.header seg) true in
      let h := TCPHeader.set_ackno h a in
      let h := TCPHeader.set_win h (uint16 (TCPReceiver.window_size r)) in
      TCPSegment.mk h (TCPSegment.payload seg)
  | None => seg
  end.

(** The loop of [update_queue], over the sender's queue. *)
Fixpoint update_loop (r : TCPReceiver.t) (from to : list TCPSegment.t) : list TCPSegment.t :=
  match from with
  | [] => to
  | seg :: from => update_loop r from (to ++ [stamp r seg])
  end.

Definition update_queue (c : t) : t :=
  set_sender (set_segments_out c (update_loop (_receiver c) (TCPSender.segments_out (_sender c)) (_segments_out c)))
    (TCPSender.set_segments_out (_sender c) []).

Definition fill_window (c : t) : result t :=
  s ← TCPSender.fill_window (_sender c); Ok (set_sender c s).

Definition segment_received (c : t) (seg : TCPSegment.t) : result t :=
  let h := TCPSegment.header seg in
  let c := set_linger_time c 0 in
  if TCPHeader.rst h then Ok (set_active (set_errors c) false)
  else
    r ← TCPReceiver.segment_received (_receiver c) seg;
    let c := set_receiver c r in
    c ← (if TCPHeader.ack h then
           let c := set_sender c (TCPSender.ack_received (_sender c) (TCPHeader.ackno h) (TCPHeader.win h)) in
           if negb (TCPSender.next_seqno_absolute (_sender c) =? 0)
           then c ← fill_window c; Ok (update_queue c)
           else Ok c
         else Ok c);
    let c := if ByteStream.eof (inbound_stream c) && negb (ByteStream.eof (outbound_stream c))
             then set_linger c false else c in
    let c := try_clean_closed c in
    let len := TCPSegment.length_in_sequence_space seg in
    c ← (match TCPReceiver.ackno (_receiver c) with
         | Some _ =>
             if negb (len =? 0) then
               c ← (if (TCPSender.next_seqno_absolute (_sender c) =? 0) && TCPHeader.syn h
                    then fill_window c
                    else Ok (set_sender c (TCPSender.send_empty_segment (_sender c))));
               Ok (update_queue c)
             else Ok c
         | None => Ok c
         end);
    match TCPReceiver.ackno (_receiver c) with
    | Some a =>
        if (len =? 0) && WrappingInt32.eqb (TCPHeader.seqno h) (WrappingInt32.sub_u32 a 1)
        then Ok (update_queue (set_sender c (TCPSender.send_empty_segment (_sender c))))
        else Ok c
    | None => Ok c
    end.

Definition write (c : t) (data : bytes) : result (t * Z) :=
  '(st, ret) ← ByteStream.write (outbound_stream c) data;
  c ← fill_window (set_sender c (TCPSender.set_stream_in (_sender c) st));
  Ok (update_queue c, ret).

Definition tick (c : t) (ms_since_last_tick : Z) : result t :=
  s ← TCPSender.tick (_sender c) ms_since_last_tick;
  let c := update_queue (set_sender c s) in
  let c := set_linger_time c (uint64 (_linger_time c + ms_since_last_tick)) in
  if TCPConfig.MAX_RETX_ATTEMPTS <? TCPSender.consecutive_retransmissions (_sender c) then send_rst c
  else Ok (try_clean_closed c).

Definition end_input_stream (c : t) : result t :=
  c ← fill_window (set_sender c (TCPSender.set_stream_in (_sender c) (ByteStream.end_input (outbound_stream c))));
  Ok (update_queue c).

Definition connect (c : t) : result t :=
  c ← fill_window c; Ok (update_queue c).

(** The destructor. *)
Definition destroy (c : t) : result t := if active c then send_rst c else Ok c.

(** The application reads from the inbound stream. *)
Definition read (c : t) (n : Z) : result (t * bytes) :=
  '(o, b) ← ByteStream.read (inbound_stream c) n;
  Ok (set_receiver c (TCPReceiver.set_stream_out (_receiver c) o), b).

(** ** The endpoint of two streams *)

Section endpoint.
(** The peer's stream of [N] bytes and its initial sequence number; the local
    application's stream of [M] bytes and the local one. *)
Context (inb : Z → byte) (N : Z) (peer : WrappingInt32.t).
Context (outb : Z → byte) (M : Z) (local : WrappingInt32.t).
Context (HN : 0 <= N < 4611686018427387904) (Hpeer : WrappingInt32.valid peer).
Context (HM : 0 <= M < 4611686018427387904) (Hlocal : WrappingInt32.valid local).

(** An acknowledgment in a header is one the receiver could give now or could
    have given before. *)
Definition stamped (r : TCPReceiver.t) (seg : TCPSegment.t) : Prop :=
  TCPHeader.ack (TCPSegment.header seg) = true →
  0 <= TCPHeader.win (TCPSegment.header seg) < two16 ∧
  ∃ k, TCPHeader.ackno (TCPSegment.header seg) = WrappingInt32.wrap k peer ∧ 0 <= k <= TCPReceiver._ackno r.

(** What leaves the endpoint: a reset, or a segment of the local stream. *)
Definition outgoing (r : TCPReceiver.t) (seg : TCPSegment.t) : Prop :=
  TCPHeader.rst (TCPSegment.header seg) = true ∨
  (∃ k, TCPReceiver.segment_at outb M local k seg) ∧
  len (Buffer.str (TCPSegment.payload seg)) <= TCPConfig.MAX_PAYLOAD_SIZE ∧ stamped r seg.

(** What holds at every point of a method; [A] bounds what the peer has
    acknowledged. *)
Record parts (A : Z) (c : t) : Prop := {
  p_receiver : TCPReceiver.inv inb N peer (_receiver c);
  p_sender : TCPSender.inv outb M local (_sender c);
  p_queue : Forall (TCPSender.good outb M local) (TCPSender.segments_out (_sender c));
  p_out : Forall (outgoing (_receiver c)) (_segments_out c);
  p_una : ∃ una, TCPSender.chain outb M local una (Timer._outstandings (TCPSender._timer (_sender c)))
                   (TCPSender._next_seqno (_sender c)) ∧ una <= A;
  p_retx : TCPSender._next_seqno (_sender c) = 0 → TCPSender.consecutive_retransmissions (_sender c) = 0 }.

(** The connection was reset: the streams carry the error flag. *)
Definition failed (c : t) : bool := ByteStream.error (outbound_stream c).

(** What holds between calls, also after a reset: the parts are in order, nothing is left in the sender's queue
    of a connection that was not reset, and a connection that has seen the peer's SYN has sent its own. *)
Record inv (A : Z) (c : t) : Prop := {
  i_active : active c = true → failed c = false;
  i_parts : parts A c;
  i_receiver : TCPReceiver.inv inb N peer (_receiver c);
  i_out : Forall (outgoing (_receiver c)) (_segments_out c);
  i_drained : failed c = false → TCPSender.segments_out (_sender c) = [];
  i_syn : TCPReceiver._syn_arrived (_receiver c) = true → 0 < TCPSender._next_seqno (_sender c) }.

Lemma outgoing_mono r r' seg : TCPReceiver._ackno r <= TCPReceiver._ackno r' →
  outgoing r seg → outgoing r' seg.
Proof.
  intros Hle [?|(? & ? & Hs)]; [by left|right]. split; [done|]. split; [done|].
  intros (? & k & ? & ?)%Hs. split; [done|]. exists k. split; [done | lia].
Qed.

Lemma stamp_outgoing r seg : TCPReceiver.inv inb N peer r → TCPSender.good outb M local seg →
  outgoing r (stamp r seg).
Proof.
  intros Hr [(k & Hk) (Hl & Ha & _)]. right. unfold stamp, TCPReceiver.ackno.
  destruct (TCPReceiver.inv_bounds _ _ _ HN _ Hr) as (_ & Hack & _). destruct Hr as [_ _ _ Hi].
  destruct (TCPReceiver._syn_arrived r); simpl.
  - split; [exists k; destruct Hk; by constructor|]. split; [done|]. intros _. simpl.
    split; [apply uint16_range|]. exists (TCPReceiver._ackno r). destruct Hi as [-> _]. split; [done | lia].
  - split; [by exists k|]. split; [done|]. intros E. congruence.
Qed.

Lemma update_loop_map r from : ∀ to, update_loop r from to = to ++ (stamp r <$> from).
Proof.
  induction from as [|seg from IH]; intros to; simpl; [by rewrite app_nil_r|].
  by rewrite IH, <- app_assoc.
Qed.

Lemma parts_update_queue A c : parts A c →
  parts A (update_queue c) ∧ TCPSender.segments_out (_sender (update_queue c)) = [] ∧
  _receiver (update_queue c) = _receiver c ∧ active (update_queue c) = active c ∧
  failed (update_queue c) = failed c ∧
  TCPSender._next_seqno (_sender (update_queue c)) = TCPSender._next_seqno (_sender c).
Proof.
  intros []. split; [|done]. constructor; simpl; try done.
  - by apply TCPSender.inv_set_segments_out.
  - rewrite update_loop_map. apply Forall_app. split; [done|]. apply Forall_fmap.
    eapply Forall_impl; [exact p_queue0|]. intros seg. by apply stamp_outgoing.
Qed.

Lemma parts_fill_window A c : parts A c →
  ∃ c', fill_window c = Ok c' ∧ parts A c' ∧ 0 < TCPSender._next_seqno (_sender c') ∧
    _receiver c' = _receiver c ∧ active c' = active c ∧ failed c' = failed c ∧
    TCPSender.written (_sender c') = TCPSender.written (_sender c).
Proof.
  intros []. unfold fill_window.
  destruct (TCPSender.fill_window_spec outb M local HM (_sender c) p_sender0) as (s & added & -> & [] & _ & Hc).
  rewrite result_bind_ok. eexists. split; [done|].
  assert (0 < TCPSender._next_seqno s) as Hpos.
  { pose proof (TCPSender.i_ackno _ _ _ _ a_inv).
    destruct (Z.eq_dec (TCPSender._next_seqno s) 0) as [E|]; [|lia]. exfalso.
    pose proof (TCPSender.i_fin _ _ _ _ a_inv) as Hfin.
    pose proof (TCPSender.i_ackno _ _ _ _ p_sender0).
    unfold TCPSender.fill_cond, TCPSender.window_end in Hc. rewrite E in Hc, Hfin. simpl in Hc.
    rewrite orb_true_r in Hc. simpl in Hc.
    destruct (TCPSender._fin_sended s); [destruct (Hfin eq_refl); lia|].
    destruct (Z.ltb_spec 0 (TCPSender._ackno (_sender c) + Z.max 1 (TCPSender._window_size (_sender c))));
      [done | lia]. }
  split; [|done]. constructor; simpl; try done.
  - unfold TCPSender.segments_out in *. rewrite a_queue. apply Forall_app.
    split; [done | by eapply TCPSender.chain_good].
  - destruct p_una0 as (una & ? & ?). exists una. split; [|done]. rewrite a_out.
    apply TCPSender.chain_app; [done | eauto].
  - lia.
Qed.

(** An acknowledgment of the local stream that the peer may have sent. *)
Definition ack_ok (A : Z) (c : t) (a : WrappingInt32.t) : Prop :=
  ∃ k, a = WrappingInt32.wrap k local ∧ 0 <= k <= A ∧
    Z.abs (k - TCPSender._next_seqno (_sender c)) < 2147483648.

Lemma parts_ack_received A c a w : parts A c → ack_ok A c a → 0 <= w < two16 →
  let c' := set_sender c (TCPSender.ack_received (_sender c) a w) in
  parts A c' ∧ TCPSender._next_seqno (_sender c') = TCPSender._next_seqno (_sender c) ∧
  TCPSender.segments_out (_sender c') = TCPSender.segments_out (_sender c) ∧ failed c' = failed c.
Proof.
  intros [] (k & -> & Hk & Hnear) Hw. cbv zeta.
  pose proof (TCPSender.next_bound outb M local HM _ p_sender0) as Hn.
  destruct (TCPSender.ack_received_spec outb M local HM Hlocal (_sender c) (WrappingInt32.wrap k local) w
    p_sender0 (WrappingInt32.valid_wrap k local) Hw) as (Hs & Hst & Hnext & _ & Hq & Hcase).
  assert (TCPSender.acknowledged (_sender c) (WrappingInt32.wrap k local) = k) as Hak.
  { unfold TCPSender.acknowledged. rewrite (TCPSender.i_isn _ _ _ _ p_sender0).
    apply WrappingInt32.unwrap_wrap_near; [done | lia | lia | lia]. }
  split; [|split; [done | split; [done | unfold failed, outbound_stream, TCPSender.stream_in; simpl; by rewrite Hst]]].
  constructor; simpl; try done.
  - unfold TCPSender.segments_out in *. by rewrite Hq.
  - rewrite Hnext. destruct p_una0 as (una & Hch & Hle). revert Hcase. case_test.
    + intros (_ & _ & _ & Hun). destruct (Hun una Hch) as (una' & Hch' & Hu & Hu').
      exists una'. split; [done|]. destruct (Z.eq_dec una una'); [lia|]. specialize (Hu' ltac:(lia)). lia.
    + intros ->. by exists una.
  - intros E. rewrite Hnext in E. specialize (p_retx0 E). unfold TCPSender.ack_received.
    destruct (_ <=? _); [|done]. unfold Timer.ack_handle. by destruct (Timer.ack_loop _ _ _ _ _ _) as [[[? ?] ?] ?].
Qed.

Lemma parts_send_empty A c : parts A c → 0 < TCPSender._next_seqno (_sender c) →
  parts A (set_sender c (TCPSender.send_empty_segment (_sender c))).
Proof.
  intros [] Hn. pose proof (TCPSender.next_bound outb M local HM _ p_sender0).
  constructor; simpl; try done; [by apply TCPSender.inv_set_segments_out|].
  apply Forall_app. split; [done|]. constructor; [|done]. split; [|done].
  exists (TCPSender._next_seqno (_sender c)).
  apply TCPReceiver.empty_segment_at; try done; [lia|]. simpl. by rewrite (TCPSender.i_isn _ _ _ _ p_sender0).
Qed.

Lemma parts_receive A c k seg : parts A c → TCPReceiver.segment_at inb N peer k seg →
  Z.abs (k - TCPReceiver._ackno (_receiver c)) < 2147483648 →
  ∃ r, TCPReceiver.segment_received (_receiver c) seg = Ok r ∧ parts A (set_receiver c r) ∧
    TCPReceiver._syn_arrived r = TCPReceiver._syn_arrived (_receiver c) || (k =? 0) ∧
    TCPReceiver._ackno (_receiver c) <= TCPReceiver._ackno r ∧
    StreamReassembler.consumed (TCPReceiver._reassembler r)
    = StreamReassembler.consumed (TCPReceiver._reassembler (_receiver c)).
Proof.
  intros [] Hs Hnear.
  destruct (TCPReceiver.segment_spec inb N peer HN Hpeer (_receiver c) k seg p_receiver0 Hs Hnear)
    as (r & -> & Hr & _ & Hsyn & Hmono & Hcon & _).
  exists r. split; [done|]. split; [|done]. constructor; simpl; try done.
  eapply Forall_impl; [exact p_out0|]. intros x. by apply outgoing_mono.
Qed.

(** The parts do not depend on the life-cycle fields. *)
Lemma parts_ext A c c' : _receiver c' = _receiver c → _sender c' = _sender c →
  _segments_out c' = _segments_out c → parts A c → parts A c'.
Proof. destruct c, c'; simpl. intros -> -> -> []. by constructor. Qed.

(** Both streams have ended, everything was read and acknowledged, and there is no
    reason to linger. *)
Definition closing (c : t) : Prop :=
  ByteStream.eof (inbound_stream c) = true ∧ ByteStream.eof (outbound_stream c) = true ∧
  bytes_in_flight c = 0 ∧
  (_linger_after_streams_finish c = false ∨ TCPConfig.rt_timeout (_cfg c) * 10 <= _linger_time c).

Lemma try_clean_closed_closing c :
  try_clean_closed c = c ∧ ¬ closing c ∨ try_clean_closed c = set_active c false ∧ closing c.
Proof.
  unfold try_clean_closed, closing.
  destruct (ByteStream.eof (inbound_stream c)), (ByteStream.eof (outbound_stream c)),
    (Z.eqb_spec (bytes_in_flight c) 0), (_linger_after_streams_finish c),
    (Z.leb_spec (TCPConfig.rt_timeout (_cfg c) * 10) (_linger_time c)); simpl;
    (right; split; [done|]; by auto) || (left; split; [done|]; intros (? & ? & ? & [?|?]); done || lia).
Qed.

Lemma try_clean_closed_cases c : try_clean_closed c = c ∨ try_clean_closed c = set_active c false.
Proof. destruct (try_clean_closed_closing c) as [[? _]|[? _]]; auto. Qed.

(** The connection went from [c] to an inactive state; [c1] is the state in which it
    found that it may close. *)
Definition closed_cleanly (A : Z) (c' : t) : Prop :=
  ∃ c1, parts A c1 ∧ closing c1 ∧ _receiver c1 = _receiver c'.

Lemma parts_try_clean_closed A c : parts A c → parts A (try_clean_closed c).
Proof. intros. destruct (try_clean_closed_cases c) as [->| ->]; [done|]. by apply (parts_ext A c). Qed.

(** Marking the streams as failed. *)
Lemma receiver_set_error r : TCPReceiver.inv inb N peer r →
  TCPReceiver.inv inb N peer (TCPReceiver.set_stream_out r (ByteStream.set_error (TCPReceiver.stream_out r))).
Proof.
  intros [[[] Hd He Hend] Hc Hp Ha]. constructor; [|done | done | done].
  constructor; [|done | done | done]. destruct so_out. by constructor.
Qed.

Lemma parts_set_errors A c : parts A c → parts A (set_errors c).
Proof.
  intros []. constructor; simpl; try done; [by apply receiver_set_error|].
  destruct p_sender0. constructor; try done. destruct i_stream. by constructor.
Qed.

(** A reset leaves the parts in order. *)
Lemma inv_reset A c : parts A c →
  (TCPReceiver._syn_arrived (_receiver c) = true → 0 < TCPSender._next_seqno (_sender c)) →
  inv A (set_active (set_errors c) false).
Proof.
  intros Hp Hs. pose proof (parts_set_errors A c Hp) as Hp'. constructor; try done; [|apply Hp' | apply Hp'].
  by apply (parts_ext A (set_errors c)).
Qed.

Lemma send_rst_spec A c : parts A c → 0 < TCPSender._next_seqno (_sender c) →
  (TCPReceiver._syn_arrived (_receiver c) = true → 0 < TCPSender._next_seqno (_sender c)) →
  ∃ c' seg, send_rst c = Ok c' ∧ inv A c' ∧ active c' = false ∧ segments_out c' = [seg] ∧
    TCPHeader.rst (TCPSegment.header seg) = true ∧
    TCPHeader.seqno (TCPSegment.header seg) = TCPSender.next_seqno (_sender c) ∧
    ByteStream.error (inbound_stream c') = true ∧ ByteStream.error (outbound_stream c') = true.
Proof.
  intros Hp Hn Hsyn. unfold send_rst. cbn [set_segments_out set_sender _sender].
  unfold TCPSender.send_empty_segment at 1. simpl TCPSender.segments_out. rewrite last_snoc.
  do 2 eexists. split; [done|]. split; [|done]. apply inv_reset; [|done].
  destruct (parts_send_empty A c Hp Hn). constructor; try done. simpl. constructor; [by left | constructor].
Qed.

(** ** An inbound segment *)

(** The acknowledgment part of [segment_received]. *)
Definition handle_ack (c : t) (h : TCPHeader.t) : result t :=
  if TCPHeader.ack h then
    let c := set_sender c (TCPSender.ack_received (_sender c) (TCPHeader.ackno h) (TCPHeader.win h)) in
    if negb (TCPSender.next_seqno_absolute (_sender c) =? 0)
    then c ← fill_window c; Ok (update_queue c)
    else Ok c
  else Ok c.

(** The replying part. *)
Definition reply (c : t) (seg : TCPSegment.t) : result t :=
  let h := TCPSegment.header seg in
  let len := TCPSegment.length_in_sequence_space seg in
  c ← (match TCPReceiver.ackno (_receiver c) with
       | Some _ =>
           if negb (len =? 0) then
             c ← (if (TCPSender.next_seqno_absolute (_sender c) =? 0) && TCPHeader.syn h
                  then fill_window c
                  else Ok (set_sender c (TCPSender.send_empty_segment (_sender c))));
             Ok (update_queue c)
           else Ok c
       | None => Ok c
       end);
  match TCPReceiver.ackno (_receiver c) with
  | Some a =>
      if (len =? 0) && WrappingInt32.eqb (TCPHeader.seqno h) (WrappingInt32.sub_u32 a 1)
      then Ok (update_queue (set_sender c (TCPSender.send_empty_segment (_sender c))))
      else Ok c
  | None => Ok c
  end.

(** What the handlers of one method keep. *)
Record same_side (c c' : t) : Prop := {
  ss_receiver : _receiver c' = _receiver c;
  ss_active : active c' = active c;
  ss_failed : failed c' = failed c;
  ss_next : 0 < TCPSender._next_seqno (_sender c) → 0 < TCPSender._next_seqno (_sender c');
  ss_written : TCPSender.written (_sender c') = TCPSender.written (_sender c) }.

(** Acknowledgments and ticks do not touch what the application has written. *)
Lemma written_ack_received s a w : TCPSender.written (TCPSender.ack_received s a w) = TCPSender.written s.
Proof. unfold TCPSender.ack_received. case_test; [|done]. by destruct (Timer.ack_handle _ _). Qed.

Lemma written_tick s ms s' : TCPSender.tick s ms = Ok s' → TCPSender.written s' = TCPSender.written s.
Proof. intros ([tm q] & _ & [= <-])%result_bind_inv. done. Qed.

Lemma written_connection_tick c ms c' : tick c ms = Ok c' →
  TCPSender.written (_sender c') = TCPSender.written (_sender c).
Proof.
  intros (s & Es & E)%result_bind_inv. pose proof (written_tick _ _ _ Es) as Hw.
  cbv zeta in E. set (c2 := set_linger_time _ _) in E. revert E. destruct (_ <? _).
  - unfold send_rst. destruct (last _); [|done]. by intros [= <-].
  - intros [= <-]. by destruct (try_clean_closed_cases c2) as [->| ->].
Qed.

Lemma handle_ack_spec A c h : parts A c →
  (TCPHeader.ack h = true → ack_ok A c (TCPHeader.ackno h) ∧ 0 <= TCPHeader.win h < two16) →
  ∃ c', handle_ack c h = Ok c' ∧ parts A c' ∧ same_side c c' ∧
    (TCPSender.segments_out (_sender c) = [] → TCPSender.segments_out (_sender c') = []).
Proof.
  intros Hp Ha. unfold handle_ack. destruct (TCPHeader.ack h).
  2:{ exists c. split; [done|]. split; [done|]. split; [by split | done]. }
  destruct (Ha eq_refl) as [Hack Hw].
  destruct (parts_ack_received A c _ _ Hp Hack Hw) as (Hp1 & Hn1 & Hq1 & Hf1).
  set (c1 := set_sender c _) in *.
  destruct (negb (TCPSender.next_seqno_absolute (_sender c1) =? 0)).
  - destruct (parts_fill_window A c1 Hp1) as (c2 & -> & Hp2 & Hn2 & Hr2 & Ha2 & Hf2 & Hwr). rewrite result_bind_ok.
    destruct (parts_update_queue A c2 Hp2) as (Hp3 & Hq3 & Hr3 & Ha3 & Hf3 & Hn3).
    exists (update_queue c2). split; [done|]. split; [done|]. split; [|done].
    constructor; [by rewrite Hr3, Hr2 | by rewrite Ha3, Ha2 | by rewrite Hf3, Hf2, Hf1 | lia|].
    change (TCPSender.written (_sender (update_queue c2))) with (TCPSender.written (_sender c2)).
    rewrite Hwr. apply written_ack_received.
  - exists c1. split; [done|]. split; [done|]. split; [|by rewrite Hq1].
    constructor; [done | done | done | lia|]. apply written_ack_received.
Qed.

Lemma reply_spec A c seg : parts A c →
  (TCPHeader.syn (TCPSegment.header seg) = true → TCPSegment.length_in_sequence_space seg ≠ 0) →
  (TCPReceiver._syn_arrived (_receiver c) = true →
   0 < TCPSender._next_seqno (_sender c) ∨ TCPHeader.syn (TCPSegment.header seg) = true) →
  ∃ c', reply c seg = Ok c' ∧ parts A c' ∧
    (TCPSender.segments_out (_sender c) = [] → TCPSender.segments_out (_sender c') = []) ∧ same_side c c' ∧
    (TCPReceiver._syn_arrived (_receiver c) = true → 0 < TCPSender._next_seqno (_sender c')).
Proof.
  intros Hp Hlen Hsyn. unfold reply, TCPReceiver.ackno.
  pose proof (TCPSender.next_bound outb M local HM _ (p_sender _ _ Hp)) as Hn.
  destruct (TCPReceiver._syn_arrived (_receiver c)) eqn:Ea; simpl.
  2:{ rewrite Ea. exists c. split; [done|]. split; [done|]. split; [done|]. by split; [split|]. }
  specialize (Hsyn eq_refl). unfold TCPSender.next_seqno_absolute.
  destruct (Z.eqb_spec (TCPSegment.length_in_sequence_space seg) 0) as [E|E]; simpl.
  - rewrite Ea. assert (0 < TCPSender._next_seqno (_sender c)) as Hpos.
    { destruct Hsyn as [|Hs]; [done|]. by specialize (Hlen Hs). }
    simpl. destruct (WrappingInt32.eqb _ _).
    + pose proof (parts_send_empty A c Hp Hpos) as Hp1.
      destruct (parts_update_queue A _ Hp1) as (Hp3 & Hq3 & Hr3 & Ha3 & Hf3 & Hn3).
      eexists. split; [done|]. split; [done|]. split; [done|]. split; [|done]. by constructor.
    + exists c. split; [done|]. split; [done|]. split; [done|]. split; [by split | done].
  - assert (∃ c1, (if (TCPSender._next_seqno (_sender c) =? 0) && TCPHeader.syn (TCPSegment.header seg)
                   then fill_window c else Ok (set_sender c (TCPSender.send_empty_segment (_sender c)))) = Ok c1 ∧
      parts A c1 ∧ 0 < TCPSender._next_seqno (_sender c1) ∧ _receiver c1 = _receiver c ∧ active c1 = active c ∧
      failed c1 = failed c ∧ TCPSender.written (_sender c1) = TCPSender.written (_sender c))
      as (c1 & -> & Hp1 & Hn1 & Hr1 & Ha1 & Hf1 & Hwr).
    { destruct (Z.eqb_spec (TCPSender._next_seqno (_sender c)) 0) as [E0|E0]; simpl.
      - destruct Hsyn as [|Hs]; [lia|]. rewrite Hs.
        destruct (parts_fill_window A c Hp) as (c1 & ? & ? & ? & ? & ? & ? & ?). by exists c1.
      - eexists. split; [done|]. split; [apply parts_send_empty; [done | lia]|].
        split; [simpl; lia | done]. }
    cbn [mbind result_bind]. destruct (parts_update_queue A c1 Hp1) as (Hp3 & Hq3 & Hr3 & Ha3 & Hf3 & Hn3).
    rewrite Hr3, Hr1, Ea. cbn [negb andb].
    eexists. split; [done|]. split; [done|]. split; [done|]. split; [|intros _; lia].
    constructor; [by rewrite Hr3, Hr1 | by rewrite Ha3, Ha1 | by rewrite Hf3, Hf1 | lia | done].
Qed.

(** A segment the peer may have sent: a reset, or a segment of its stream, with an
    acknowledgment of ours. *)
Definition incoming (A : Z) (c : t) (seg : TCPSegment.t) : Prop :=
  TCPHeader.rst (TCPSegment.header seg) = true ∨
  (∃ k, TCPReceiver.segment_at inb N peer k seg ∧ Z.abs (k - TCPReceiver._ackno (_receiver c)) < 2147483648) ∧
  (TCPHeader.ack (TCPSegment.header seg) = true →
   ack_ok A c (TCPHeader.ackno (TCPSegment.header seg)) ∧ 0 <= TCPHeader.win (TCPSegment.header seg) < two16).

Lemma syn_length k seg : TCPReceiver.segment_at inb N peer k seg →
  TCPHeader.syn (TCPSegment.header seg) = true → TCPSegment.length_in_sequence_space seg ≠ 0.
Proof.
  intros [_ _ Hk [(_ & _ & Hl) _]] Hs. unfold TCPSegment.length_in_sequence_space. rewrite Hs.
  pose proof (len_nonneg (Buffer.str (TCPSegment.payload seg))). pose proof (bool_to_Z_range (k =? 0)).
  pose proof (bool_to_Z_range (TCPHeader.fin (TCPSegment.header seg))). simpl bool_to_Z.
  rewrite uint64_id; lia.
Qed.

Lemma segment_received_stages c seg : TCPHeader.rst (TCPSegment.header seg) = false →
  segment_received c seg =
  (r ← TCPReceiver.segment_received (_receiver c) seg;
   c ← handle_ack (set_receiver (set_linger_time c 0) r) (TCPSegment.header seg);
   let c := if ByteStream.eof (inbound_stream c) && negb (ByteStream.eof (outbound_stream c))
            then set_linger c false else c in
   reply (try_clean_closed c) seg).
Proof. intros E. unfold segment_received. rewrite E. reflexivity. Qed.

Lemma segment_received_spec A c seg : inv A c → incoming A c seg →
  ∃ c', segment_received c seg = Ok c' ∧ inv A c' ∧
    TCPReceiver._ackno (_receiver c) <= TCPReceiver._ackno (_receiver c') ∧
    StreamReassembler.consumed (TCPReceiver._reassembler (_receiver c'))
    = StreamReassembler.consumed (TCPReceiver._reassembler (_receiver c)) ∧
    failed c' = failed c || TCPHeader.rst (TCPSegment.header seg) ∧
    (TCPHeader.rst (TCPSegment.header seg) = true → active c' = false) ∧
    (active c = true → active c' = false → failed c' = false → closed_cleanly A c') ∧
    TCPSender.written (_sender c') = TCPSender.written (_sender c).
Proof.
  intros Hi Hin. pose proof (i_parts A c Hi) as Hp.
  destruct (TCPHeader.rst (TCPSegment.header seg)) eqn:Hrst.
  { unfold segment_received. rewrite Hrst. eexists. split; [done|].
    split; [apply inv_reset; [by apply (parts_ext A c) | by destruct Hi]|].
    split; [done|]. split; [done|]. split; [by rewrite orb_true_r | done]. }
  destruct Hin as [|[(k & Hs & Hnear) Hack]]; [congruence|]. rewrite segment_received_stages by done.
  destruct (parts_receive A c k seg Hp Hs Hnear) as (r & -> & Hp1 & Hsyn & Hmono & Hcon). rewrite result_bind_ok.
  set (c1 := set_receiver (set_linger_time c 0) r).
  assert (parts A c1) as Hp1' by (by apply (parts_ext A (set_receiver c r))).
  destruct (handle_ack_spec A c1 (TCPSegment.header seg) Hp1' Hack)
    as (c2 & -> & Hp2 & [] & Hq2). rewrite result_bind_ok. cbv zeta.
  set (c3 := if _ && _ then _ else c2).
  assert (_receiver c3 = _receiver c2 ∧ _sender c3 = _sender c2 ∧ _segments_out c3 = _segments_out c2)
    as (E1 & E2 & E3) by (unfold c3; by destruct (_ && _)).
  assert (_receiver (try_clean_closed c3) = r ∧ _sender (try_clean_closed c3) = _sender c2) as [E4 E5].
  { destruct (try_clean_closed_cases c3) as [->| ->]; simpl; rewrite ?E1, ?E2; by rewrite ss_receiver0. }
  destruct (reply_spec A (try_clean_closed c3) seg) as (c4 & -> & Hp4 & Hq4 & [] & Hs4).
  - apply parts_try_clean_closed. by apply (parts_ext A c2).
  - by apply (syn_length k).
  - rewrite E4, E5. rewrite Hsyn, (TCPReceiver.sa_syn _ _ _ _ _ Hs). intros [Hold|Hk]%orb_true_iff.
    + left. apply ss_next0. by apply (i_syn A c Hi).
    + by right.
  - assert (failed c4 = failed c) as Hf4.
    { rewrite ss_failed1. unfold failed, outbound_stream in *. rewrite E5. by rewrite ss_failed0. }
    assert (active c4 = true → active c = true) as Hac4.
    { rewrite ss_active1. change (active c) with (active c1). rewrite <- ss_active0.
      assert (active c3 = active c2) as <- by (unfold c3; by destruct (_ && _)).
      by destruct (try_clean_closed_cases c3) as [->| ->]. }
    rewrite E4 in *. exists c4. split; [done|]. rewrite ss_receiver1, Hf4, orb_false_r. split; [|do 4 (split; [done|]); split].
    + constructor; [intros Hc; rewrite Hf4; by apply (i_active A c Hi), Hac4 | done | by apply Hp4 | by apply Hp4 | |].
      * rewrite Hf4. intros Hf. apply Hq4. rewrite E5. apply Hq2. exact (i_drained A c Hi Hf).
      * rewrite ss_receiver1. done.
    + intros Hac Hin _. rewrite ss_active1 in Hin.
      assert (active c3 = active c2) as Hac3 by (unfold c3; by destruct (_ && _)).
      change (active c1) with (active c) in ss_active0.
      destruct (try_clean_closed_closing c3) as [[Et _]|[Et Hcl]]; [congruence|].
      exists c3. split; [by apply (parts_ext A c2)|]. split; [done|].
      by rewrite E1, ss_receiver0, ss_receiver1.
    + by rewrite ss_written1, E5, ss_written0.
Qed.

(** ** The other methods *)

(** The receiver is untouched, or only marked as failed. *)
Definition receiver_kept (c c' : t) : Prop :=
  TCPReceiver._ackno (_receiver c') = TCPReceiver._ackno (_receiver c) ∧
  StreamReassembler.consumed (TCPReceiver._reassembler (_receiver c'))
  = StreamReassembler.consumed (TCPReceiver._reassembler (_receiver c)).

Lemma inv_of_parts A c : parts A c → TCPSender.segments_out (_sender c) = [] →
  (TCPReceiver._syn_arrived (_receiver c) = true → 0 < TCPSender._next_seqno (_sender c)) →
  (active c = true → failed c = false) → inv A c.
Proof. intros Hp Hq Hs Ha. constructor; try done; apply Hp. Qed.

(** Filling the window and passing on the segments. *)
Lemma fill_and_update A c : parts A c → (active c = true → failed c = false) →
  ∃ c1, fill_window c = Ok c1 ∧ inv A (update_queue c1) ∧ failed (update_queue c1) = failed c ∧
    _receiver (update_queue c1) = _receiver c ∧
    TCPSender.written (_sender (update_queue c1)) = TCPSender.written (_sender c).
Proof.
  intros Hp Hf. destruct (parts_fill_window A c Hp) as (c1 & E & Hp1 & Hn1 & Hr1 & Ha1 & Hf1 & Hwr).
  destruct (parts_update_queue A c1 Hp1) as (Hp2 & Hq2 & Hr2 & Ha2 & Hf2 & Hn2).
  exists c1. split; [done|]. split; [|split; [congruence | split; [congruence | exact Hwr]]].
  apply inv_of_parts; [done | done | lia | by rewrite Ha2, Ha1, Hf2, Hf1].
Qed.

Lemma parts_set_stream_in A c st : parts A c → TCPSender.inv outb M local (TCPSender.set_stream_in (_sender c) st) →
  parts A (set_sender c (TCPSender.set_stream_in (_sender c) st)).
Proof. intros [] Hs. by constructor. Qed.

Lemma connect_spec A c : inv A c →
  ∃ c', connect c = Ok c' ∧ inv A c' ∧ failed c' = failed c ∧ _receiver c' = _receiver c ∧
    TCPSender.written (_sender c') = TCPSender.written (_sender c).
Proof.
  intros Hi. destruct (fill_and_update A c (i_parts A c Hi) (i_active A c Hi)) as (c1 & E & Hi1 & Ha1 & Hr1 & Hw1).
  unfold connect. rewrite E. eexists. split; [done|]. by rewrite Ha1.
Qed.

Lemma connection_write_spec A c n : inv A c → 0 <= n → TCPSender.written (_sender c) + n <= M →
  ∃ c' ret, write c (slice outb (TCPSender.written (_sender c)) n) = Ok (c', ret) ∧ inv A c' ∧
    failed c' = failed c ∧ _receiver c' = _receiver c ∧ 0 <= ret <= n ∧
    TCPSender.written (_sender c') = TCPSender.written (_sender c) + ret.
Proof.
  intros Hi Hn Hw. pose proof (i_parts A c Hi) as Hp. unfold write.
  destruct (TCPSender.sender_write_spec outb M local HM (_sender c) n (p_sender A c Hp) Hn Hw)
    as (st & ret & E & Hs & Hwr & Hret & Herr).
  change (outbound_stream c) with (TCPSender._stream (_sender c)). rewrite E, result_bind_ok.
  destruct (fill_and_update A _ (parts_set_stream_in A c st Hp Hs) (λ Hac, eq_trans Herr (i_active A c Hi Hac)))
    as (c1 & E1 & Hi1 & Ha1 & Hr1 & Hw1).
  rewrite E1, result_bind_ok. eexists _, ret. split; [done|]. split; [done|].
  split; [rewrite Ha1; exact Herr|]. split; [done|]. split; [done|].
  rewrite Hw1. exact Hwr.
Qed.

Lemma end_input_stream_spec A c : inv A c → TCPSender.written (_sender c) = M →
  ∃ c', end_input_stream c = Ok c' ∧ inv A c' ∧ failed c' = failed c ∧ _receiver c' = _receiver c ∧
    TCPSender.written (_sender c') = TCPSender.written (_sender c).
Proof.
  intros Hi Hw. pose proof (i_parts A c Hi) as Hp. unfold end_input_stream.
  pose proof (TCPSender.end_input_spec outb M local (_sender c) (p_sender A c Hp) Hw) as Hs.
  destruct (fill_and_update A _ (parts_set_stream_in A c _ Hp Hs) (i_active A c Hi)) as (c1 & E1 & Hi1 & Ha1 & Hr1 & Hw1).
  unfold outbound_stream, TCPSender.stream_in. rewrite E1, result_bind_ok. eexists. split; [done|].
  by rewrite Ha1.
Qed.

Lemma parts_tick A c ms : parts A c → 0 <= ms →
  ∃ s, TCPSender.tick (_sender c) ms = Ok s ∧ parts A (set_sender c s) ∧
    TCPSender._next_seqno s = TCPSender._next_seqno (_sender c) ∧
    TCPSender._stream s = TCPSender._stream (_sender c).
Proof.
  intros [] Hms. destruct (TCPSender.sender_tick_spec outb M local (_sender c) ms p_sender0 Hms)
    as (s & Et & Hs & Hst & Hn & _ & Ho & Hq).
  exists s. split; [done|]. split; [|done]. destruct p_una0 as (una & Hch & Hle).
  constructor; simpl; try done.
  - unfold TCPSender.segments_out in *. rewrite Hq. apply Forall_app. split; [done|].
    apply TCPSender.chain_good in Hch.
    destruct (Timer._outstandings (TCPSender._timer (_sender c))) as [|[seg e] l]; [done|].
    destruct (_ <=? ms); [|done]. inversion_clear Hch. by constructor.
  - exists una. by rewrite Ho, Hn.
  - intros E. rewrite Hn in E. specialize (p_retx0 E). destruct (TCPSender.i_out _ _ _ _ p_sender0) as (una' & H0 & Hch' & _).
    assert (Timer._outstandings (TCPSender._timer (_sender c)) = []) as Hnil.
    { destruct (Timer._outstandings _) as [|[seg e] l]; [done|]. simpl in Hch'.
      destruct Hch' as (_ & _ & ? & _ & ?%TCPSender.chain_le). lia. }
    pose proof (TCPSender.i_running _ _ _ _ p_sender0) as Hrun. rewrite Hnil in Hrun. simpl in Hrun.
    revert Et. unfold TCPSender.tick, Timer.tick_handle. rewrite Hrun. by intros [= <-].
Qed.

Lemma retransmitted_positive A c : parts A c → 0 < TCPSender.consecutive_retransmissions (_sender c) →
  0 < TCPSender._next_seqno (_sender c).
Proof.
  intros Hp Hk. pose proof (TCPSender.next_bound outb M local HM _ (p_sender _ _ Hp)) as Hb.
  destruct (Z.eq_dec (TCPSender._next_seqno (_sender c)) 0) as [E0|]; [|lia]. rewrite (p_retx _ _ Hp E0) in Hk. lia.
Qed.

Lemma connection_tick_spec A c ms : inv A c → 0 <= ms →
  ∃ c', tick c ms = Ok c' ∧ inv A c' ∧ receiver_kept c c' ∧ (failed c = true → failed c' = true) ∧
    (active c = true → active c' = false → failed c' = false → closed_cleanly A c').
Proof.
  intros Hi Hms. unfold tick.
  destruct (parts_tick A c ms (i_parts A c Hi) Hms) as (s & -> & Hp1 & Hn1 & Hst). rewrite result_bind_ok.
  destruct (parts_update_queue A _ Hp1) as (Hp2 & Hq2 & Hr2 & Ha2 & Hf2 & Hn2).
  set (c2 := update_queue (set_sender c s)) in *. cbv zeta.
  set (c3 := set_linger_time c2 _). assert (parts A c3) as Hp3 by (by apply (parts_ext A c2)).
  assert (TCPReceiver._syn_arrived (_receiver c3) = true → 0 < TCPSender._next_seqno (_sender c3)) as Hs3.
  { change (_receiver c3) with (_receiver c2). change (_sender c3) with (_sender c2).
    rewrite Hr2, Hn2. simpl. rewrite Hn1. apply (i_syn A c Hi). }
  assert (failed c3 = failed c) as Hf3.
  { unfold failed, outbound_stream, TCPSender.stream_in in *. simpl. by rewrite Hst. }
  assert (active c3 = active c) as Ha3 by (change (active c3) with (active c2); by rewrite Ha2).
  destruct (Z.ltb_spec TCPConfig.MAX_RETX_ATTEMPTS (TCPSender.consecutive_retransmissions (_sender c3))) as [Hk|Hk].
  - assert (0 < TCPSender._next_seqno (_sender c3)) as Hn3
      by (apply (retransmitted_positive A); [done | unfold TCPConfig.MAX_RETX_ATTEMPTS in Hk; lia]).
    destruct (send_rst_spec A c3 Hp3 Hn3 Hs3) as (c4 & seg & E & Hi4 & _ & _ & _ & _ & _ & Her).
    exists c4. split; [done|]. split; [done|]. split; [|split; [done | unfold failed; congruence]].
    unfold send_rst in E. destruct (last _); [|done]. injection E as <-. done.
  - eexists. split; [done|].
    destruct (try_clean_closed_closing c3) as [[-> _]|[-> Hcl]].
    + split; [apply inv_of_parts; [done | done | done | rewrite Hf3, Ha3; apply (i_active A c Hi)]|]. split; [done|].
      split; [congruence|]. rewrite Ha3. congruence.
    + split; [apply inv_of_parts; [by apply (parts_ext A c3) | done | done | done]|]. split; [done|].
      split; [change (failed (set_active c3 false)) with (failed c3); congruence|]. intros _ _ _. by exists c3.
Qed.

Lemma connection_read_spec A c n : inv A c → 0 <= n →
  ∃ c' b, read c n = Ok (c', b) ∧ inv A c' ∧ active c' = active c ∧
    TCPReceiver._ackno (_receiver c') = TCPReceiver._ackno (_receiver c) ∧
    b = slice inb (StreamReassembler.consumed (TCPReceiver._reassembler (_receiver c))) (len b) ∧
    StreamReassembler.consumed (TCPReceiver._reassembler (_receiver c'))
    = StreamReassembler.consumed (TCPReceiver._reassembler (_receiver c)) + len b.
Proof.
  intros Hi Hn. unfold read, inbound_stream.
  destruct (TCPReceiver.receiver_read_spec inb N peer (_receiver c) n (i_receiver A c Hi) Hn)
    as (r & b & E & Hr & Hs & Hb & Hcon). unfold TCPReceiver.step in E.
  destruct (ByteStream.read _ n) as [[o b']|] eqn:Er; [|discriminate].
  simpl in E |- *. injection E as <- <-.
  eexists _, _. split; [done|]. split; [|done]. destruct Hi as [Hact Hp _ Ho Hd Hsy].
  constructor; try done. destruct Hp. by constructor.
Qed.

Lemma dequeue_inv A c : inv A c → inv A (set_segments_out c []).
Proof.
  intros [? Hp ? ? ? ?]. constructor; try done. destruct Hp. by constructor.
Qed.

Lemma inv_mono A A' c : A <= A' → inv A c → inv A' c.
Proof.
  intros Hle [? Hp ? ? ? ?]. constructor; try done. destruct Hp.
  destruct p_una0 as (una & ? & ?). constructor; try done. exists una. split; [done | lia].
Qed.

Lemma connection_inv_new cfg random A :
  0 < TCPConfig.recv_capacity cfg < max_string → 0 <= TCPConfig.send_capacity cfg < max_string →
  0 <= TCPConfig.rt_timeout cfg < two16 → 0 <= A →
  match TCPConfig.fixed_isn cfg with Some i => i | None => WrappingInt32.mk (uint32 random) end = local →
  inv A (new cfg random).
Proof.
  intros Hr Hs Ht HA Hl. apply inv_of_parts; [|done | done | done].
  constructor; simpl; try done.
  - by apply TCPReceiver.receiver_inv_new.
  - by apply TCPSender.sender_inv_new.
  - by exists 0.
Qed.

(** The retransmission timer expires. *)
Lemma tick_expired A c ms seg n outs : inv A c → failed c = false → 0 <= ms →
  Timer._outstandings (TCPSender._timer (_sender c)) = (seg, n) :: outs →
  Timer._RTO (TCPSender._timer (_sender c)) <= ms → 0 < TCPSender._window_size (_sender c) →
  0 <= TCPSender.consecutive_retransmissions (_sender c) < 4294967295 →
  ∃ c', tick c ms = Ok c' ∧ inv A c' ∧
    if TCPConfig.MAX_RETX_ATTEMPTS <=? TCPSender.consecutive_retransmissions (_sender c) then
      active c' = false ∧ ByteStream.error (inbound_stream c') = true ∧ ByteStream.error (outbound_stream c') = true ∧
      ∃ rst, segments_out c' = [rst] ∧ TCPHeader.rst (TCPSegment.header rst) = true ∧
        TCPHeader.seqno (TCPSegment.header rst) = TCPSender.next_seqno (_sender c)
    else
      failed c' = false ∧ segments_out c' = segments_out c ++ [stamp (_receiver c) seg].
Proof.
  intros Hi Hf Hms Ho Hrto Hw Hk. pose proof (i_parts A c Hi) as Hp.
  destruct (parts_tick A c ms Hp Hms) as (s & Es & Hp1 & Hn1 & Hst).
  assert (TCPSender._segments_out s = [seg] ∧ TCPSender._isn s = TCPSender._isn (_sender c) ∧
    TCPSender.consecutive_retransmissions s = TCPSender.consecutive_retransmissions (_sender c) + 1) as (Hq & His & Hc).
  { unfold TCPSender.tick, Timer.tick_handle in Es.
    rewrite (TCPSender.i_running _ _ _ _ (p_sender A c Hp)), Ho in Es. simpl in Es.
    pose proof (i_drained A c Hi Hf) as Hd. unfold TCPSender.segments_out in Hd. rewrite Hd in Es.
    destruct (Z.leb_spec (Timer._RTO (TCPSender._timer (_sender c))) ms); [|lia].
    destruct (Z.eqb_spec (TCPSender._window_size (_sender c)) 0); [lia|]. simpl in Es. injection Es as <-.
    split; [done|]. split; [done|]. unfold TCPSender.consecutive_retransmissions, Timer.consecutive_retransmissions in *.
    simpl. apply uint32_id. lia. }
  destruct (parts_update_queue A _ Hp1) as (Hp2 & Hq2 & Hr2 & Ha2 & Hf2 & Hn2).
  unfold tick. rewrite Es, result_bind_ok. set (c3 := set_linger_time _ _).
  assert (parts A c3) as Hp3 by (by apply (parts_ext A (update_queue (set_sender c s)))).
  assert (TCPReceiver._syn_arrived (_receiver c3) = true → 0 < TCPSender._next_seqno (_sender c3)) as Hs3.
  { simpl. rewrite Hn1. apply (i_syn A c Hi). }
  change (TCPSender.consecutive_retransmissions (_sender c3)) with (TCPSender.consecutive_retransmissions s).
  rewrite Hc. unfold TCPConfig.MAX_RETX_ATTEMPTS.
  destruct (Z.leb_spec 8 (TCPSender.consecutive_retransmissions (_sender c)));
    destruct (Z.ltb_spec 8 (TCPSender.consecutive_retransmissions (_sender c) + 1)); try lia.
  - assert (0 < TCPSender._next_seqno (_sender c3)) as Hn3.
    { apply (retransmitted_positive A); [done|].
      change (TCPSender.consecutive_retransmissions (_sender c3)) with (TCPSender.consecutive_retransmissions s). lia. }
    destruct (send_rst_spec A c3 Hp3 Hn3 Hs3) as (c4 & rst & E4 & Hi4 & H1 & H2 & H3 & H4 & H5 & H6).
    exists c4. do 5 (split; [done|]). exists rst. split; [done|]. split; [done|]. rewrite H4.
    unfold TCPSender.next_seqno. simpl. by rewrite Hn1, His.
  - assert (failed c3 = false) as Hf3.
    { unfold failed, outbound_stream, TCPSender.stream_in in *. simpl. by rewrite Hst. }
    assert (segments_out c3 = segments_out c ++ [stamp (_receiver c) seg]) as Hout.
    { unfold segments_out. simpl. rewrite update_loop_map. unfold TCPSender.segments_out. by rewrite Hq. }
    eexists. split; [done|]. split; [|by destruct (try_clean_closed_cases c3) as [->| ->]].
    destruct (try_clean_closed_cases c3) as [->| ->]; [by apply inv_of_parts|].
    apply inv_of_parts; [by apply (parts_ext A c3) | done | done | done].
Qed.

End endpoint.

End TCPConnection.
