(* ===== verification/tcp_link.v ===== *)
(** * Two connections over an unreliable network

    Two [TCPConnection]s talk to each other over a network that may lose,
    repeat, delay and reorder segments in both directions.  Each side has its
    own stream to send.  The theorems lift the promises of the sender and the
    receiver to whole endpoints, with the handshake, acknowledgments carried by
    data segments, retransmissions, resets and shutdown. *)

From S2P Require Import Prelude wrapping_integers byte_stream stream_reassembler buffer tcp_header tcp_segment tcp_config tcp_receiver tcp_sender tcp_state tcp_connection.

Module Link.

Record endpoint := mk {
  conn : TCPConnection.t;
  wire : list TCPSegment.t;   (* every segment this side has sent *)
  got : bytes }.              (* what its application has read *)

Inductive action :=
| Connect
| Write (n : Z)      (* the application writes the next [n] bytes of its stream *)
| End                (* the application closes its stream *)
| Tick (ms : Z)
| Send               (* the outgoing queue goes to the network *)
| Deliver (i : nat)  (* the [i]-th segment the other side sent arrives, possibly again *)
| Read (n : Z).

Definition set_conn (e : endpoint) (c : TCPConnection.t) : endpoint := mk c (wire e) (got e).

(** An action of the side [me]; [out] is its application's stream. *)
Definition act (out : Z → byte) (me other : endpoint) (a : action) : result endpoint :=
  match a with
  | Connect => c ← TCPConnection.connect (conn me); Ok (set_conn me c)
  | Write n =>
      '(c, _) ← TCPConnection.write (conn me)
                  (slice out (TCPSender.written (TCPConnection._sender (conn me))) n);
      Ok (set_conn me c)
  | End => c ← TCPConnection.end_input_stream (conn me); Ok (set_conn me c)
  | Tick ms => c ← TCPConnection.tick (conn me) ms; Ok (set_conn me c)
  | Send =>
      Ok (mk (TCPConnection.set_segments_out (conn me) [])
             (wire me ++ TCPConnection.segments_out (conn me)) (got me))
  | Deliver i =>
      match wire other !! i with
      | Some seg => c ← TCPConnection.segment_received (conn me) seg; Ok (set_conn me c)
      | None => Ok me
      end
  | Read n => '(c, b) ← TCPConnection.read (conn me) n; Ok (mk c (wire me) (got me ++ b))
  end.

(** The application keeps to its stream of [M] bytes; time does not run backwards.  Nothing is asked of
    the order of the actions: a connection that was reset may be used like any other. *)
Definition allowed (M : Z) (me : endpoint) (a : action) : Prop :=
  let written := TCPSender.written (TCPConnection._sender (conn me)) in
  match a with
  | Read n => 0 <= n
  | Send => True
  | Connect | Deliver _ => True
  | Write n => 0 <= n ∧ written + n <= M
  | End => written = M
  | Tick ms => 0 <= ms
  end.

(** The part of the other side's stream that has arrived in order. *)
Definition assembled (e : endpoint) : Z :=
  StreamReassembler.next_idx (TCPReceiver._reassembler (TCPConnection._receiver (conn e))).
Definition position (e : endpoint) : Z :=
  StreamReassembler.consumed (TCPReceiver._reassembler (TCPConnection._receiver (conn e))).
Definition acked (e : endpoint) : Z := TCPReceiver._ackno (TCPConnection._receiver (conn e)).

Section one_side.
Context (inb : Z → byte) (N : Z) (peer : WrappingInt32.t).
Context (outb : Z → byte) (M : Z) (local : WrappingInt32.t).
Context (HN : 0 <= N < 2147483646) (Hpeer : WrappingInt32.valid peer).
Context (HM : 0 <= M < 2147483646) (Hlocal : WrappingInt32.valid local).

(** The invariant of one side: its connection, what it has sent, what it has read. *)
Record half (me other : endpoint) : Prop := {
  h_conn : TCPConnection.inv inb N peer outb M local (acked other) (conn me);
  h_wire : Forall (TCPConnection.outgoing peer outb M local (TCPConnection._receiver (conn me))) (wire me);
  h_got : got me = slice inb 0 (position me) }.

(** A step of one side in these terms. *)
Lemma half_conn me other c : half me other →
  TCPConnection.inv inb N peer outb M local (acked other) c →
  TCPReceiver._ackno (TCPConnection._receiver (conn me)) <= TCPReceiver._ackno (TCPConnection._receiver c) →
  StreamReassembler.consumed (TCPReceiver._reassembler (TCPConnection._receiver c)) = position me →
  half (set_conn me c) other ∧ acked me <= acked (set_conn me c).
Proof.
  intros [] Hi Hle Hc. split; [|done]. constructor; [done | |].
  - simpl. eapply Forall_impl; [exact h_wire0|]. intros seg. by apply TCPConnection.outgoing_mono.
  - simpl. rewrite h_got0. unfold position at 2. simpl. by rewrite Hc.
Qed.

Lemma receiver_range me other : half me other → 0 <= acked me <= N + 2 ∧
  0 <= position me <= assembled me ∧ assembled me <= N.
Proof.
  intros []. pose proof (TCPConnection.i_receiver _ _ _ _ _ _ _ _ h_conn0) as Hr.
  destruct (TCPReceiver.inv_bounds inb N peer ltac:(lia) _ Hr) as (? & ? & _).
  destruct Hr as [[[] _ _ _] _ _ _]. pose proof (ByteStream.wf_sz _ so_out).
  unfold acked, position, assembled, StreamReassembler.next_idx, StreamReassembler.consumed in *. lia.
Qed.

(** What the other side sent may arrive here. *)
Lemma outgoing_incoming me other seg : half me other → 0 <= acked other <= M + 2 →
  TCPConnection.outgoing local inb N peer (TCPConnection._receiver (conn other)) seg →
  TCPConnection.incoming inb N peer local (acked other) (conn me) seg.
Proof.
  intros Hh Ho [?|((k & Hk) & _ & Hs)]; [by left|right].
  destruct (receiver_range me other Hh) as (Ha & _). destruct Hh as [Hi _ _].
  pose proof (TCPConnection.p_sender _ _ _ _ _ _ _ _ (TCPConnection.i_parts _ _ _ _ _ _ _ _ Hi)) as His.
  pose proof (TCPSender.next_bound outb M local ltac:(lia) _ His) as Hn. split.
  - exists k. split; [done|]. destruct Hk as [_ _ Hk0 [(_ & _ & Hb) _]].
    pose proof (len_nonneg (Buffer.str (TCPSegment.payload seg))). pose proof (bool_to_Z_range (k =? 0)).
    unfold acked in *. lia.
  - intros Hack. destruct (Hs Hack) as (Hw & j & Ej & Hj). split; [|done].
    exists j. split; [done|]. unfold acked in *. lia.
Qed.

Lemma half_act me other a : half me other → allowed M me a → 0 <= acked other <= M + 2 →
  Forall (TCPConnection.outgoing local inb N peer (TCPConnection._receiver (conn other))) (wire other) →
  ∃ me', act outb me other a = Ok me' ∧ half me' other ∧ acked me <= acked me'.
Proof.
  intros Hh Ha Ho Hwire. pose proof (h_conn me other Hh) as Hi. destruct a as [|n| |ms| |i|n]; simpl in *.
  - destruct (TCPConnection.connect_spec inb N peer outb M local ltac:(lia) ltac:(lia) _ _ Hi)
      as (c & -> & Hi' & _ & Hr & _). eexists. split; [done|]. apply half_conn; rewrite ?Hr; done.
  - destruct Ha as (Hn & Hw).
    destruct (TCPConnection.connection_write_spec inb N peer outb M local ltac:(lia) ltac:(lia) _ _ n Hi Hn Hw)
      as (c & ret & -> & Hi' & _ & Hr & _). eexists. split; [done|]. apply half_conn; rewrite ?Hr; done.
  - destruct (TCPConnection.end_input_stream_spec inb N peer outb M local ltac:(lia) ltac:(lia) _ _ Hi Ha)
      as (c & -> & Hi' & _ & Hr & _). eexists. split; [done|]. apply half_conn; rewrite ?Hr; done.
  - destruct (TCPConnection.connection_tick_spec inb N peer outb M local ltac:(lia) ltac:(lia) _ _ ms Hi Ha)
      as (c & -> & Hi' & [Hr1 Hr2] & _). eexists. split; [done|]. apply half_conn; rewrite ?Hr1; done.
  - eexists. split; [done|]. split; [|done]. destruct Hh. constructor; [by apply TCPConnection.dequeue_inv | | done].
    simpl. apply Forall_app. split; [done|]. exact (TCPConnection.i_out _ _ _ _ _ _ _ _ Hi).
  - destruct (wire other !! i) as [seg|] eqn:E; [|by exists me].
    pose proof (proj1 (Forall_lookup _ _) Hwire i seg E) as Hs. simpl in Hs.
    destruct (TCPConnection.segment_received_spec inb N peer outb M local ltac:(lia) Hpeer ltac:(lia) Hlocal
      _ _ seg Hi (outgoing_incoming me other seg Hh Ho Hs)) as (c & -> & Hi' & Hle & Hc & _).
    eexists. split; [done|]. by apply half_conn.
  - destruct (TCPConnection.connection_read_spec inb N peer outb M local _ _ n Hi Ha)
      as (c & b & -> & Hi' & _ & Hk & Hb & Hc). eexists. split; [done|].
    destruct (receiver_range me other Hh) as (_ & Hpos & _). destruct Hh.
    split; [|unfold acked; simpl; lia]. constructor; [done | |]; simpl.
    + eapply Forall_impl; [exact h_wire0|]. intros seg. apply TCPConnection.outgoing_mono. lia.
    + unfold position in *. simpl. pose proof (len_nonneg b).
      rewrite Hc, h_got0, slice_app, Z.add_0_l, <- Hb by lia. done.
Qed.

(** The other side's point of view: it only sees the acknowledgments grow. *)
Lemma half_other me me' other : half other me → acked me <= acked me' → half other me'.
Proof. intros [] Hle. constructor; try done. by eapply TCPConnection.inv_mono. Qed.

End one_side.

(** ** The two sides together *)

Inductive side := A | B.

(** One side's configuration and stream. *)
Record peer_spec := mkPeer {
  stream : Z → byte; size : Z; config : TCPConfig.t;
  random : Z;             (* what [random_device()()] gives *)
  isn : WrappingInt32.t }.

Record peer_ok (p : peer_spec) : Prop := {
  po_size : 0 <= size p < 2147483646;
  po_isn : match TCPConfig.fixed_isn (config p) with Some i => i | None => WrappingInt32.mk (uint32 (random p)) end = isn p ∧
    WrappingInt32.valid (isn p);
  po_recv : 0 < TCPConfig.recv_capacity (config p) < max_string;
  po_send : 0 <= TCPConfig.send_capacity (config p) < max_string;
  po_timeout : 0 <= TCPConfig.rt_timeout (config p) < two16 }.

Record t := mkLink { a : endpoint; b : endpoint }.

Definition start_endpoint (p : peer_spec) : endpoint := mk (TCPConnection.new (config p) (random p)) [] [].
Definition start (pa pb : peer_spec) : t := mkLink (start_endpoint pa) (start_endpoint pb).

Definition step (pa pb : peer_spec) (x : t) (s : side) (op : action) : result t :=
  match s with
  | A => e ← act (stream pa) (a x) (b x) op; Ok (mkLink e (b x))
  | B => e ← act (stream pb) (b x) (a x) op; Ok (mkLink (a x) e)
  end.

Definition step_allowed (pa pb : peer_spec) (x : t) (s : side) (op : action) : Prop :=
  match s with A => allowed (size pa) (a x) op | B => allowed (size pb) (b x) op end.

Inductive reachable (pa pb : peer_spec) : t → Prop :=
| reach_start : reachable pa pb (start pa pb)
| reach_step x s op x' : reachable pa pb x → step_allowed pa pb x s op → step pa pb x s op = Ok x' →
    reachable pa pb x'.

(** The invariant of side [me] facing side [other]. *)
Definition side_inv (me other : peer_spec) (x y : endpoint) : Prop :=
  half (stream other) (size other) (isn other) (stream me) (size me) (isn me) x y.

Lemma side_start me other : peer_ok me → peer_ok other →
  side_inv me other (start_endpoint me) (start_endpoint other).
Proof.
  intros [] []. constructor; simpl; try done.
  apply TCPConnection.connection_inv_new; try done; try lia. apply po_isn0.
Qed.

Lemma side_act me other x y op : peer_ok me → peer_ok other →
  side_inv me other x y → side_inv other me y x → allowed (size me) x op →
  ∃ x', act (stream me) x y op = Ok x' ∧ side_inv me other x' y ∧ side_inv other me y x'.
Proof.
  intros [] [] Hx Hy Ha.
  assert (0 <= acked y <= size me + 2) as Hk by (by eapply receiver_range).
  destruct (half_act (stream other) (size other) (isn other) (stream me) (size me) (isn me)
    po_size1 (proj2 po_isn1) po_size0 (proj2 po_isn0) x y op Hx Ha Hk (h_wire _ _ _ _ _ _ _ _ Hy))
    as (x' & E & Hx' & Hle).
  exists x'. split; [done|]. split; [done|]. by eapply half_other.
Qed.

(** A segment that arrives does not change what the application has written. *)
Lemma deliver_written me other ex ey seg c : peer_ok me → peer_ok other →
  side_inv me other ex ey → side_inv other me ey ex →
  seg ∈ wire ey → TCPConnection.segment_received (conn ex) seg = Ok c →
  TCPSender.written (TCPConnection._sender c) = TCPSender.written (TCPConnection._sender (conn ex)).
Proof.
  intros [] [] Hx Hy Hin E.
  assert (0 <= acked ey <= size me + 2) as Hk by (by eapply receiver_range).
  pose proof (h_conn _ _ _ _ _ _ _ _ Hx) as Hi.
  pose proof (proj1 (Forall_forall _ _) (h_wire _ _ _ _ _ _ _ _ Hy) seg Hin) as Hs. simpl in Hs.
  destruct (TCPConnection.segment_received_spec (stream other) (size other) (isn other)
    (stream me) (size me) (isn me) ltac:(lia) (proj2 po_isn1) ltac:(lia) (proj2 po_isn0)
    _ _ seg Hi (outgoing_incoming _ _ _ _ _ _ po_size1 po_size0 ex ey seg Hx Hk Hs))
    as (c' & E' & _ & _ & _ & _ & _ & _ & Hw).
  rewrite E in E'. by injection E' as <-.
Qed.

Definition link_inv (pa pb : peer_spec) (x : t) : Prop :=
  side_inv pa pb (a x) (b x) ∧ side_inv pb pa (b x) (a x).

Lemma link_step pa pb x s op : peer_ok pa → peer_ok pb → link_inv pa pb x → step_allowed pa pb x s op →
  ∃ x', step pa pb x s op = Ok x' ∧ link_inv pa pb x'.
Proof.
  intros Hpa Hpb [Ha Hb] Hop. destruct s; simpl in *.
  - destruct (side_act pa pb (a x) (b x) op Hpa Hpb Ha Hb Hop) as (e & -> & H1 & H2). by eexists.
  - destruct (side_act pb pa (b x) (a x) op Hpb Hpa Hb Ha Hop) as (e & -> & H1 & H2). by eexists.
Qed.

Lemma link_reachable pa pb x : peer_ok pa → peer_ok pb → reachable pa pb x → link_inv pa pb x.
Proof.
  intros Hpa Hpb. induction 1 as [|x s op x' _ IH Hop E].
  - split; by apply side_start.
  - destruct (link_step pa pb x s op Hpa Hpb IH Hop) as (x'' & E' & Hi). rewrite E in E'. by injection E' as <-.
Qed.

(** What one side knows of the other's stream. *)
Lemma side_prefix me other x y : peer_ok other → side_inv me other x y →
  got x ++ ByteStream.contents (TCPConnection.inbound_stream (conn x)) = slice (stream other) 0 (assembled x) ∧
  0 <= assembled x <= size other ∧
  (ByteStream.input_ended (TCPConnection.inbound_stream (conn x)) = true → assembled x = size other).
Proof.
  intros [] Hx. destruct (receiver_range _ _ _ _ _ _ po_size0 x y Hx) as (_ & Hp & Hle).
  rewrite (h_got _ _ _ _ _ _ _ _ Hx).
  destruct (TCPConnection.i_receiver _ _ _ _ _ _ _ _ (h_conn _ _ _ _ _ _ _ _ Hx)) as [[[] _ _ Hend] _ _ _].
  pose proof (ByteStream.wf_sz _ so_out).
  unfold assembled, position, TCPConnection.inbound_stream, TCPReceiver.stream_out, StreamReassembler.stream_out,
    StreamReassembler.next_idx, StreamReassembler.consumed in *.
  split; [|split; [lia | intros He; apply (Hend He)]].
  rewrite so_contents, <- slice_app by lia. f_equal. lia.
Qed.

(** A sender with nothing in flight has been heard. *)
Lemma side_heard me other x y c : peer_ok me → side_inv other me y x →
  TCPConnection.parts (stream other) (size other) (isn other) (stream me) (size me) (isn me) (acked y) c →
  TCPConnection.bytes_in_flight c = 0 → ByteStream.eof (TCPConnection.outbound_stream c) = true →
  assembled y = size me ∧
  (TCPSender._fin_sended (TCPConnection._sender c) = true →
   ByteStream.input_ended (TCPConnection.inbound_stream (conn y)) = true).
Proof.
  intros Hme Hy [_ His _ _ (una & Hch & Hu)] Hb Heof.
  destruct (side_prefix other me y x Hme Hy) as (_ & Hr & Hend).
  destruct (TCPConnection.i_receiver _ _ _ _ _ _ _ _ (h_conn _ _ _ _ _ _ _ _ Hy)) as [_ _ _ Hack].
  destruct (TCPSender.i_out _ _ _ _ His) as (una' & _ & Hch' & Hbf).
  assert (una' = una) as -> by (eapply TCPSender.chain_start; done).
  unfold TCPConnection.bytes_in_flight, TCPSender.bytes_in_flight in Hb.
  set (s := TCPConnection._sender c) in *.
  apply andb_true_iff in Heof as [He Hz%Z.eqb_eq].
  pose proof (TCPSender.i_end _ _ _ _ His He) as Hall. pose proof (TCPSender.i_fin _ _ _ _ His) as Hfin.
  change (ByteStream._sz (TCPConnection.outbound_stream c))
    with (ByteStream.buffer_size (TCPSender._stream s)) in Hz.
  unfold TCPSender.written, TCPSender.sent in Hall. rewrite Hz in Hall.
  unfold acked, assembled, TCPConnection.inbound_stream in *.
  destruct (ByteStream.input_ended (TCPReceiver.stream_out (TCPConnection._receiver (conn y)))) eqn:Hie.
  - split; [by apply Hend | done].
  - destruct (TCPSender._fin_sended s); simpl bool_to_Z in *.
    + destruct (Hfin eq_refl) as [_ Hpos]. exfalso.
      destruct (Z.eqb_spec (TCPSender._next_seqno s) 0), (TCPReceiver._syn_arrived (TCPConnection._receiver (conn y))); lia.
    + split; [|done].
      destruct (Z.eqb_spec (TCPSender._next_seqno s) 0), (TCPReceiver._syn_arrived (TCPConnection._receiver (conn y))); lia.
Qed.

(** The two ends as seen from one side. *)
Definition here (x : t) (s : side) : endpoint := match s with A => a x | B => b x end.
Definition there (x : t) (s : side) : endpoint := match s with A => b x | B => a x end.
Definition own (pa pb : peer_spec) (s : side) : peer_spec := match s with A => pa | B => pb end.
Definition far (pa pb : peer_spec) (s : side) : peer_spec := match s with A => pb | B => pa end.

Lemma link_sides pa pb x s : link_inv pa pb x →
  side_inv (own pa pb s) (far pa pb s) (here x s) (there x s) ∧
  side_inv (far pa pb s) (own pa pb s) (there x s) (here x s).
Proof. intros [? ?]. by destruct s. Qed.

Lemma peers_ok pa pb s : peer_ok pa → peer_ok pb → peer_ok (own pa pb s) ∧ peer_ok (far pa pb s).
Proof. by destruct s. Qed.

(** The state in which a side finds that it may close. *)
Lemma side_closes me other x y x' op : peer_ok me → peer_ok other →
  side_inv me other x y → side_inv other me y x → allowed (size me) x op →
  act (stream me) x y op = Ok x' →
  TCPConnection.active (conn x) = true → TCPConnection.active (conn x') = false →
  TCPConnection.failed (conn x') = false →
  TCPConnection.closed_cleanly (stream other) (size other) (isn other) (stream me) (size me) (isn me)
    (acked y) (conn x').
Proof.
  intros [] [] Hx Hy Ha E Hac Hin Hf. pose proof (h_conn _ _ _ _ _ _ _ _ Hx) as Hi.
  assert (0 <= acked y <= size me + 2) as Hk by (by eapply receiver_range).
  pose proof (TCPConnection.i_active _ _ _ _ _ _ _ _ Hi Hac) as Hf0.
  destruct op as [|n| |ms| |i|n]; simpl in *.
  - unfold TCPConnection.connect, TCPConnection.fill_window in E.
    destruct (TCPSender.fill_window _); [|done]. injection E as <-. revert Hac Hin. unfold TCPConnection.active. simpl. congruence.
  - unfold TCPConnection.write, TCPConnection.fill_window in E. destruct (ByteStream.write _ _) as [[? ?]|]; [|done].
    simpl in E. destruct (TCPSender.fill_window _); [|done]. injection E as <-. revert Hac Hin. unfold TCPConnection.active. simpl. congruence.
  - unfold TCPConnection.end_input_stream, TCPConnection.fill_window in E.
    destruct (TCPSender.fill_window _); [|done]. injection E as <-. revert Hac Hin. unfold TCPConnection.active. simpl. congruence.
  - destruct (TCPConnection.connection_tick_spec (stream other) (size other) (isn other) (stream me) (size me) (isn me)
      ltac:(lia) ltac:(lia) _ _ ms Hi Ha) as (c & Ec & _ & _ & _ & Hc).
    rewrite Ec in E. injection E as <-. by apply Hc.
  - injection E as <-. revert Hac Hin. unfold TCPConnection.active. simpl. congruence.
  - destruct (wire y !! i) as [seg|] eqn:Ew; [|injection E as <-; congruence].
    pose proof (proj1 (Forall_lookup _ _) (h_wire _ _ _ _ _ _ _ _ Hy) i seg Ew) as Hs. simpl in Hs.
    destruct (TCPConnection.segment_received_spec (stream other) (size other) (isn other) (stream me) (size me) (isn me)
      ltac:(lia) (proj2 po_isn1) ltac:(lia) (proj2 po_isn0)
      _ _ seg Hi (outgoing_incoming _ _ _ _ _ _ po_size1 po_size0 x y seg Hx Hk Hs))
      as (c & Ec & _ & _ & _ & _ & _ & Hc & _).
    rewrite Ec in E. injection E as <-. by apply Hc.
  - unfold TCPConnection.read in E. destruct (ByteStream.read _ n) as [[? ?]|]; [|done].
    injection E as <-. revert Hac Hin. unfold TCPConnection.active. simpl. congruence.
Qed.

(** ** Properties *)

(** C1: Two endpoints over an unreliable network are safe in both directions: from
    the first SYN on, whatever the applications, the timers and the network
    do (loss, repetition, delay, reordering), and also after one or both
    connections were reset, no method of a connection faults, and on each side what the application has read, followed by what
    waits for it, is exactly a prefix of the other application's stream; the
    end of the stream is seen only after all of it. *)
Theorem link_delivers_prefix (pa pb : peer_spec) (x : t) (s : side) :
  peer_ok pa → peer_ok pb → reachable pa pb x →
  let e := here x s in
  let p := far pa pb s in
  got e ++ ByteStream.contents (TCPConnection.inbound_stream (conn e)) = slice (stream p) 0 (assembled e) ∧
  0 <= assembled e <= size p ∧
  (ByteStream.input_ended (TCPConnection.inbound_stream (conn e)) = true → assembled e = size p) ∧
  ∀ op, step_allowed pa pb x s op → ∃ x', step pa pb x s op = Ok x'.
Proof.
  intros Hpa Hpb Hr. cbv zeta. pose proof (link_reachable pa pb x Hpa Hpb Hr) as Hi.
  destruct (link_sides pa pb x s Hi) as [Hx _]. destruct (peers_ok pa pb s Hpa Hpb) as [_ Hfar].
  destruct (side_prefix _ _ _ _ Hfar Hx) as (H1 & H2 & H3). do 3 (split; [done|]).
  intros op Hop. destruct (link_step pa pb x s op Hpa Hpb Hi Hop) as (x' & E & _). by exists x'.
Qed.

(** C2: A connection that closes cleanly has done its work: when a step takes a
    connection from active to inactive without a reset, its application has
    read the whole stream of the other side, and the other side has received
    the whole stream of this application. *)
Theorem clean_close_is_complete (pa pb : peer_spec) (x x' : t) (s : side) (op : action) :
  peer_ok pa → peer_ok pb → reachable pa pb x → step_allowed pa pb x s op → step pa pb x s op = Ok x' →
  TCPConnection.active (conn (here x s)) = true → TCPConnection.active (conn (here x' s)) = false →
  TCPConnection.failed (conn (here x' s)) = false →
  got (here x' s) = slice (stream (far pa pb s)) 0 (size (far pa pb s)) ∧
  assembled (there x' s) = size (own pa pb s).
Proof.
  intros Hpa Hpb Hr Hop E Hac Hin Hf. destruct (peers_ok pa pb s Hpa Hpb) as [Hown Hfar].
  destruct (link_sides pa pb x s (link_reachable pa pb x Hpa Hpb Hr)) as [Hx Hy].
  destruct (link_sides pa pb x' s (link_reachable pa pb x' Hpa Hpb (reach_step _ _ _ _ _ _ Hr Hop E))) as [Hx' Hy'].
  assert (act (stream (own pa pb s)) (here x s) (there x s) op = Ok (here x' s) ∧ there x' s = there x s ∧
    allowed (size (own pa pb s)) (here x s) op) as (Ea & Et & Hal).
  { destruct s; simpl in *; (destruct (act _ _ _ op) as [e|]; [|done]); by injection E as <-. }
  destruct (side_closes _ _ _ _ _ op Hown Hfar Hx Hy Hal Ea Hac Hin Hf) as (c1 & Hp & (He1 & He2 & Hb & _) & Hrc).
  rewrite Et in *. destruct (side_heard _ _ _ _ c1 Hown Hy Hp Hb He2) as [Hall _]. split; [|done].
  destruct (side_prefix _ _ _ _ Hfar Hx') as (Hpre & _ & Hend).
  unfold TCPConnection.inbound_stream in *. rewrite Hrc in He1.
  apply andb_true_iff in He1 as [He1 Hz%Z.eqb_eq]. rewrite (Hend He1) in Hpre. rewrite <- Hpre.
  pose proof (TCPConnection.i_receiver _ _ _ _ _ _ _ _ (h_conn _ _ _ _ _ _ _ _ Hx')) as [[[] _ _ _] _ _ _].
  pose proof (ByteStream.len_contents _ so_out) as Hl.
  unfold TCPReceiver.stream_out, StreamReassembler.stream_out in *. rewrite Hz in Hl.
  rewrite (len_0_nil _ Hl). by rewrite app_nil_r.
Qed.

(** C16: An endpoint gives up after eight retransmissions in a row.  When the
    retransmission timer of a live connection expires, with the peer's window
    open, and fewer than eight retransmissions have gone unanswered, the oldest
    outstanding segment is sent again, stamped with the receiver's current
    acknowledgment; at the ninth the connection is reset: it becomes inactive,
    both streams carry the error flag, and the outgoing queue is exactly one
    RST segment at the next sequence number. *)
Theorem retransmission_limit (pa pb : peer_spec) (x : t) (s : side) (ms n : Z) (seg : TCPSegment.t)
  (outs : list (TCPSegment.t * Z)) :
  peer_ok pa → peer_ok pb → reachable pa pb x →
  let c := conn (here x s) in
  let sender := TCPConnection._sender c in
  let k := TCPSender.consecutive_retransmissions sender in
  TCPConnection.failed c = false → Timer._outstandings (TCPSender._timer sender) = (seg, n) :: outs →
  0 <= ms → Timer._RTO (TCPSender._timer sender) <= ms → 0 < TCPSender._window_size sender → 0 <= k < 4294967295 →
  ∃ c', TCPConnection.tick c ms = Ok c' ∧
    if TCPConfig.MAX_RETX_ATTEMPTS <=? k then
      TCPConnection.active c' = false ∧
      ByteStream.error (TCPConnection.inbound_stream c') = true ∧
      ByteStream.error (TCPConnection.outbound_stream c') = true ∧
      ∃ rst, TCPConnection.segments_out c' = [rst] ∧ TCPHeader.rst (TCPSegment.header rst) = true ∧
        TCPHeader.seqno (TCPSegment.header rst) = TCPSender.next_seqno sender
    else
      TCPConnection.failed c' = false ∧
      TCPConnection.segments_out c'
      = TCPConnection.segments_out c ++ [TCPConnection.stamp (TCPConnection._receiver c) seg].
Proof.
  intros Hpa Hpb Hr c sender k Hf Ho Hms Hrto Hw Hk.
  destruct (link_sides pa pb x s (link_reachable pa pb x Hpa Hpb Hr)) as [Hx _].
  destruct (peers_ok pa pb s Hpa Hpb) as [[] []].
  destruct (TCPConnection.tick_expired (stream (far pa pb s)) (size (far pa pb s)) (isn (far pa pb s))
    (stream (own pa pb s)) (size (own pa pb s)) (isn (own pa pb s)) ltac:(lia) ltac:(lia) _ c ms seg n outs
    (h_conn _ _ _ _ _ _ _ _ Hx) Hf Hms Ho Hrto Hw Hk) as (c' & E & _ & H). by exists c'.
Qed.

(** ** A conversation

    "abc" one way, "xy" the other, with a lost segment, a duplicate and both
    kinds of shutdown. *)

Fixpoint run (pa pb : peer_spec) (x : t) (l : list (side * action)) : result t :=
  match l with
  | [] => Ok x
  | (s, op) :: l => x ← step pa pb x s op; run pa pb x l
  end.
Fixpoint all_allowed (pa pb : peer_spec) (x : t) (l : list (side * action)) : Prop :=
  match l with
  | [] => True
  | (s, op) :: l =>
      step_allowed pa pb x s op ∧
      match step pa pb x s op with Ok x => all_allowed pa pb x l | Throw _ => False end
  end.

Lemma link_run_reachable pa pb l : ∀ x x', reachable pa pb x → all_allowed pa pb x l →
  run pa pb x l = Ok x' → reachable pa pb x'.
Proof.
  induction l as [|[s op] l IH]; intros x x' Hr Hl E; simpl in *; [by injection E as <-|].
  destruct Hl as [Ha Hl]. destruct (step pa pb x s op) as [x1|f] eqn:Es; [|done].
  apply (IH x1); [by eapply reach_step | done | done].
Qed.

Definition demo_a : peer_spec :=
  mkPeer (λ i, byte_of (0x61 + i)) 3
    (TCPConfig.mk 10 8 8 (Some (WrappingInt32.mk 4294967294))) 0 (WrappingInt32.mk 4294967294).
Definition demo_b : peer_spec :=
  mkPeer (λ i, byte_of (0x78 + i)) 2 (TCPConfig.mk 10 8 8 (Some (WrappingInt32.mk 7))) 0 (WrappingInt32.mk 7).

Lemma link_demo_ok : peer_ok demo_a ∧ peer_ok demo_b.
Proof. split; constructor; simpl; unfold WrappingInt32.valid; simpl; try split; done || lia. Qed.

Definition demo_script : list (side * action) :=
  [(A, Connect); (A, Send); (B, Deliver 0); (B, Send); (A, Deliver 0); (A, Send); (B, Deliver 1);
   (A, Write 3); (A, Send); (A, Tick 10); (A, Send); (B, Deliver 3); (B, Deliver 2); (B, Send);
   (A, Deliver 1); (A, End); (A, Send); (B, Deliver 4); (B, Send); (A, Deliver 3);
   (B, Read 9); (B, Write 2); (B, End); (B, Send); (A, Deliver 4); (A, Deliver 5); (A, Read 9); (A, Send)].

Definition demo_state (l : list (side * action)) : t :=
  match run demo_a demo_b (start demo_a demo_b) l with Ok x => x | Throw _ => start demo_a demo_b end.

Lemma link_demo_reachable : reachable demo_a demo_b (demo_state demo_script).
Proof.
  apply (link_run_reachable demo_a demo_b demo_script (start demo_a demo_b));
    [constructor | vm_compute; done | vm_compute; reflexivity].
Qed.

Lemma link_delivers_prefix_witness :
  let e := here (demo_state demo_script) B in
  let p := far demo_a demo_b B in
  got e ++ ByteStream.contents (TCPConnection.inbound_stream (conn e)) = slice (stream p) 0 (assembled e) ∧
  0 <= assembled e <= size p ∧
  (ByteStream.input_ended (TCPConnection.inbound_stream (conn e)) = true → assembled e = size p) ∧
  ∀ op, step_allowed demo_a demo_b (demo_state demo_script) B op →
    ∃ x', step demo_a demo_b (demo_state demo_script) B op = Ok x'.
Proof.
  apply (link_delivers_prefix demo_a demo_b (demo_state demo_script) B);
    [apply link_demo_ok | apply link_demo_ok | apply link_demo_reachable].
Defined.

(** Side A has read everything and lingers for ten timeouts. *)
Lemma clean_close_is_complete_witness :
  got (here (demo_state (demo_script ++ [(A, Tick 100)])) A)
  = slice (stream (far demo_a demo_b A)) 0 (size (far demo_a demo_b A)) ∧
  assembled (there (demo_state (demo_script ++ [(A, Tick 100)])) A) = size (own demo_a demo_b A).
Proof.
  apply (clean_close_is_complete demo_a demo_b (demo_state demo_script)
    (demo_state (demo_script ++ [(A, Tick 100)])) A (Tick 100));
    [apply link_demo_ok | apply link_demo_ok | apply link_demo_reachable | vm_compute; done | vm_compute; reflexivity
    | vm_compute; reflexivity | vm_compute; reflexivity | vm_compute; reflexivity].
Defined.

(** A SYN that nobody answers, resent eight times. *)
Definition unanswered : list (side * action) :=
  (A, Connect) :: ((λ i, (A, Tick (10 * 2 ^ Z.of_nat i))) <$> seq 0 8).

Lemma retransmission_limit_witness :
  let c := conn (here (demo_state unanswered) A) in
  let sender := TCPConnection._sender c in
  TCPSender.consecutive_retransmissions sender = 8 ∧
  ∃ c', TCPConnection.tick c 2560 = Ok c' ∧
    TCPConnection.active c' = false ∧
    ByteStream.error (TCPConnection.inbound_stream c') = true ∧
    ByteStream.error (TCPConnection.outbound_stream c') = true ∧
    ∃ rst, TCPConnection.segments_out c' = [rst] ∧ TCPHeader.rst (TCPSegment.header rst) = true ∧
      TCPHeader.seqno (TCPSegment.header rst) = TCPSender.next_seqno sender.
Proof.
  split; [vm_compute; reflexivity|].
  assert (reachable demo_a demo_b (demo_state unanswered)) as Hr.
  { apply (link_run_reachable demo_a demo_b unanswered (start demo_a demo_b));
      [constructor | vm_compute; done | vm_compute; reflexivity]. }
  edestruct (retransmission_limit demo_a demo_b (demo_state unanswered) A 2560 1) as (c' & E & H);
    [apply link_demo_ok | apply link_demo_ok | exact Hr | vm_compute; reflexivity | vm_compute; reflexivity
    | lia | vm_compute; done | vm_compute; done | vm_compute; done |].
  exists c'. split; [exact E | exact H].
Defined.

(** The same conversation with a receive buffer of three bytes on side B.  Side
    B's SYN, with its window of three, arrives again after side A's three bytes
    have been acknowledged. *)
Definition narrow_b : peer_spec :=
  mkPeer (stream demo_b) 2 (TCPConfig.mk 10 3 8 (Some (WrappingInt32.mk 7))) 0 (WrappingInt32.mk 7).

Lemma narrow_ok : peer_ok narrow_b.
Proof. constructor; simpl; unfold WrappingInt32.valid; simpl; try split; done || lia. Qed.

Definition stale_script : list (side * action) :=
  [(A, Connect); (A, Send); (B, Deliver 0); (B, Send); (A, Deliver 0); (A, Send); (B, Deliver 1);
   (A, Write 3); (A, Send); (B, Deliver 2); (B, Read 9); (B, Send); (A, Deliver 1);
   (B, Write 2); (B, End); (B, Send); (A, Deliver 2); (A, Deliver 3); (A, Read 9); (A, Send);
   (A, Deliver 0); (A, End); (A, Tick 1); (A, Send)].

Definition stale_state : t :=
  match run demo_a narrow_b (start demo_a narrow_b) stale_script with
  | Ok x => x | Throw _ => start demo_a narrow_b end.

(** C38: A connection can close "cleanly" without ever sending its FIN.  A delayed
    copy of the peer's first segment moves the sender's window back
    ([ack_received] accepts old acknowledgments), so that the FIN does not fit
    when the application closes its stream; nothing is in flight, and
    [try_clean_closed] does not ask whether the FIN was sent.  Side A has shut
    down; side B has not seen the end of the stream and never will. *)
Theorem closed_without_fin :
  peer_ok demo_a ∧ peer_ok narrow_b ∧
  ∃ x, reachable demo_a narrow_b x ∧
    TCPConnection.active (conn (a x)) = false ∧ TCPConnection.failed (conn (a x)) = false ∧
    ByteStream.input_ended (TCPConnection.outbound_stream (conn (a x))) = true ∧
    TCPSender._fin_sended (TCPConnection._sender (conn (a x))) = false ∧
    TCPConnection.segments_out (conn (a x)) = [] ∧
    Forall (λ seg, TCPHeader.fin (TCPSegment.header seg) = false) (wire (a x)) ∧
    ByteStream.input_ended (TCPConnection.inbound_stream (conn (b x))) = false.
Proof.
  split; [apply link_demo_ok|]. split; [apply narrow_ok|].
  exists stale_state. split.
  { apply (link_run_reachable demo_a narrow_b stale_script (start demo_a narrow_b));
      [constructor | vm_compute; done | vm_compute; reflexivity]. }
  vm_compute. do 5 (split; [done|]). split; [|done]. repeat constructor.
Qed.

(** The side that is closed by its peer lingers as if it had closed first, when
    its application has not yet read everything: [segment_received] tests
    [eof] of the inbound stream, which also asks for an empty buffer, where the
    state machine asks whether the peer's FIN has arrived.  In the conversation
    above the FIN of side A has arrived at side B, which has not closed its
    own stream, and side B's [_linger_after_streams_finish] is still set: its
    summary is that of no official state with the peer's FIN received before
    the own one, CLOSE_WAIT. *)
Theorem passive_closer_lingers :
  let x := demo_state [(A, Connect); (A, Send); (B, Deliver 0); (B, Send); (A, Deliver 0); (A, Send);
                       (B, Deliver 1); (A, Write 3); (A, End); (A, Send); (B, Deliver 2); (B, Deliver 3)] in
  ByteStream.input_ended (TCPConnection.inbound_stream (conn (b x))) = true ∧
  ByteStream.input_ended (TCPConnection.outbound_stream (conn (b x))) = false ∧
  TCPConnection._linger_after_streams_finish (conn (b x)) = true ∧
  TCPState.eqb (TCPConnection.state (conn (b x))) (TCPState.of_state TCPState.CLOSE_WAIT) = false.
Proof. vm_compute. done. Qed.

End Link.
