(* ===== verification/network_interface.v ===== *)
(** * The network interface (src/lab/libsponge/network_interface.hh, .cc)

    IP datagrams to Ethernet frames and back, with address resolution.  The two
    [std::unordered_map]s are finite maps; their iteration order, which the
    language leaves open, does not matter to the results below. *)

From stdpp Require Import gmap.
From S2P Require Import Prelude buffer parser ipv4 ethernet address.

Module NetworkInterface.

Record t := mk {
  _ethernet_address : EthernetAddress;
  _ip_address : Address.t;
  _frames_out : list EthernetFrame.t;
  _addr_mp : gmap Z (Z * EthernetAddress);
  _data_mp : gmap Z IPv4Datagram.t }.

Definition new (ethernet_address : EthernetAddress) (ip_address : Address.t) : t :=
  mk ethernet_address ip_address [] ∅ ∅.

Definition frames_out (ni : t) : list EthernetFrame.t := _frames_out ni.
Definition set_frames_out (ni : t) (q : list EthernetFrame.t) : t :=
  mk (_ethernet_address ni) (_ip_address ni) q (_addr_mp ni) (_data_mp ni).
Definition push_frame (ni : t) (ef : EthernetFrame.t) : t := set_frames_out ni (_frames_out ni ++ [ef]).
Definition set_addr_mp (ni : t) (mp : gmap Z (Z * EthernetAddress)) : t :=
  mk (_ethernet_address ni) (_ip_address ni) (_frames_out ni) mp (_data_mp ni).
Definition set_data_mp (ni : t) (mp : gmap Z IPv4Datagram.t) : t :=
  mk (_ethernet_address ni) (_ip_address ni) (_frames_out ni) (_addr_mp ni) mp.

(** A frame from this interface. *)
Definition frame (ni : t) (type : Z) (dst : EthernetAddress) (payload : BufferList.t) : EthernetFrame.t :=
  EthernetFrame.mk (EthernetHeader.mk dst (_ethernet_address ni) type) payload.

Definition send_datagram (ni : t) (dgram : IPv4Datagram.t) (next_hop : Address.t) : result t :=
  next_hop_ip ← Address.ipv4_numeric next_hop;
  match _addr_mp ni !! next_hop_ip with
  | Some (_, eth) =>
      if negb (bool_decide (eth = ETHERNET_BROADCAST)) then
        l ← IPv4Datagram.serialize dgram;
        Ok (push_frame ni (frame ni EthernetHeader.TYPE_IPv4 eth l))
      else Ok ni
  | None =>
      ip ← Address.ipv4_numeric (_ip_address ni);
      let am := ARPMessage.mk ARPMessage.TYPE_ETHERNET EthernetHeader.TYPE_IPv4 6 4 ARPMessage.OPCODE_REQUEST
                  (_ethernet_address ni) ip (replicate 6 x00) next_hop_ip in
      s ← ARPMessage.serialize am;
      let ni := push_frame ni (frame ni EthernetHeader.TYPE_ARP ETHERNET_BROADCAST (BufferList.of_string s)) in
      let ni := set_addr_mp ni (<[next_hop_ip := (5000, ETHERNET_BROADCAST)]> (_addr_mp ni)) in
      Ok (set_data_mp ni (<[next_hop_ip := dgram]> (_data_mp ni)))
  end.

(** The first half of the handling of an ARP message: the mapping is learned and
    a datagram waiting for it is sent. *)
Definition learn (ni : t) (sender_ip : Z) (sender_eth : EthernetAddress) : result t :=
  let ni := set_addr_mp ni (<[sender_ip := (30000, sender_eth)]> (_addr_mp ni)) in
  match _data_mp ni !! sender_ip with
  | Some dgram =>
      l ← IPv4Datagram.serialize dgram;
      let ni := set_data_mp ni (delete sender_ip (_data_mp ni)) in
      Ok (push_frame ni (frame ni EthernetHeader.TYPE_IPv4 sender_eth l))
  | None => Ok ni
  end.

(** The handling of a parsed ARP message. *)
Definition recv_arp (ni : t) (am : ARPMessage.t) : result t :=
  let sender_ip := ARPMessage.sender_ip_address am in
  let sender_eth := ARPMessage.sender_ethernet_address am in
  ni ← learn ni sender_ip sender_eth;
  if ARPMessage.opcode am =? ARPMessage.OPCODE_REQUEST then
    ip ← Address.ipv4_numeric (_ip_address ni);
    if ARPMessage.target_ip_address am =? ip then
      let reply := ARPMessage.mk ARPMessage.TYPE_ETHERNET EthernetHeader.TYPE_IPv4 6 4 ARPMessage.OPCODE_REPLY
                     (_ethernet_address ni) (ARPMessage.target_ip_address am) sender_eth sender_ip in
      s ← ARPMessage.serialize reply;
      Ok (push_frame ni (frame ni EthernetHeader.TYPE_ARP sender_eth (BufferList.of_string s)))
    else Ok ni
  else Ok ni.

(** The payload is converted to a single [Buffer] for parsing. *)
Definition recv_frame (ni : t) (f : EthernetFrame.t) : result (t * option IPv4Datagram.t) :=
  let h := EthernetFrame.header f in
  if (EthernetHeader.type h =? EthernetHeader.TYPE_IPv4) &&
     bool_decide (EthernetHeader.dst h = _ethernet_address ni) then
    b ← BufferList.to_buffer (EthernetFrame.payload f);
    '(ret, r) ← IPv4Datagram.parse IPv4Datagram.new b;
    if bool_decide (r = NoError) then Ok (ni, Some ret) else Ok (ni, None)
  else if EthernetHeader.type h =? EthernetHeader.TYPE_ARP then
    b ← BufferList.to_buffer (EthernetFrame.payload f);
    '(am, r) ← ARPMessage.parse ARPMessage.new b;
    if bool_decide (r = NoError) then ni ← recv_arp ni am; Ok (ni, None) else Ok (ni, None)
  else Ok (ni, None).

(** The range-based [for] of [tick] over the entries of the map.  [erase] of the
    current entry invalidates the iterator that the loop then advances, so a
    round that erases has undefined behaviour. *)
Fixpoint tick_loop (l : list (Z * (Z * EthernetAddress))) (mp : gmap Z (Z * EthernetAddress)) (ms : Z)
  : result (gmap Z (Z * EthernetAddress)) :=
  match l with
  | [] => Ok mp
  | (key, (release_time, eth)) :: l =>
      if ms <? release_time then tick_loop l (<[key := (uint64 (release_time - ms), eth)]> mp) ms
      else Throw IteratorInvalidated
  end.

Definition tick (ni : t) (ms_since_last_tick : Z) : result t :=
  mp ← tick_loop (map_to_list (_addr_mp ni)) (_addr_mp ni) ms_since_last_tick;
  Ok (set_addr_mp ni mp).

(** ** Invariant *)

(** Cached mappings are at most 30 s old, addresses have six bytes, and every
    queued datagram is one of [P] and waits for a pending request. *)
Record inv_with (P : IPv4Datagram.t → Prop) (ni : t) : Prop := {
  i_eth : length (_ethernet_address ni) = 6%nat;
  i_ip : ∃ ip, 0 <= ip < two32 ∧ _ip_address ni = Address.of_ipv4 ip;
  i_age : map_Forall (λ _ e, 0 < e.1 <= 30000 ∧ length e.2 = 6%nat) (_addr_mp ni);
  i_data : map_Forall (λ ip d, P d ∧ ∃ age, _addr_mp ni !! ip = Some (age, ETHERNET_BROADCAST)) (_data_mp ni) }.
#[global] Arguments i_eth {P}.
#[global] Arguments i_ip {P}.
#[global] Arguments i_age {P}.
#[global] Arguments i_data {P}.

(** What holds whatever datagrams are sent, and what holds when all of them can be serialized. *)
Definition sound (ni : t) : Prop := inv_with (λ _, True) ni.
Definition inv (ni : t) : Prop := inv_with IPv4Datagram.sendable ni.

(** [transit]: a frame put on the wire and parsed at the other end. *)
Definition transit (f : EthernetFrame.t) : result (EthernetFrame.t * ParseResult) :=
  EthernetFrame.parse EthernetFrame.new (Buffer.of_string (BufferList.concatenate (EthernetFrame.serialize f))).

Lemma tick_loop_spec l ms : ∀ mp, NoDup l.*1 → 0 <= ms →
  (∀ k e, (k, e) ∈ l → mp !! k = Some e ∧ 0 < e.1 <= 30000) →
  tick_loop l mp ms
  = if forallb (λ ke, ms <? ke.2.1) l
    then Ok (map_imap (λ k e, Some (if bool_decide (k ∈ l.*1) then (e.1 - ms, e.2) else e)) mp)
    else Throw IteratorInvalidated.
Proof.
  induction l as [|[k [age eth]] l IH]; intros mp Hnd Hms Hl; simpl.
  - f_equal. apply map_eq. intros k. rewrite map_lookup_imap. by destruct (mp !! k).
  - apply NoDup_cons in Hnd as [Hk Hnd]. destruct (Hl k (age, eth)) as [E Ha]; [by left|]. simpl in Ha.
    destruct (Z.ltb_spec ms age); [|done]. simpl. rewrite uint64_id by lia. rewrite IH; [|done|done|].
    + destruct (forallb _ l); [|done]. f_equal. apply map_eq. intros k'. rewrite !map_lookup_imap.
      destruct (decide (k' = k)) as [->|Hne].
      * rewrite lookup_insert_eq, E. simpl. rewrite bool_decide_eq_false_2 by done.
        by rewrite bool_decide_eq_true_2 by by left.
      * rewrite lookup_insert_ne by done. destruct (mp !! k') as [e|]; [|done]. simpl. do 2 f_equal.
        assert (k' ∈ l.*1 ↔ k' ∈ k :: l.*1) as Hiff by (rewrite elem_of_cons; tauto).
        by rewrite (bool_decide_ext _ _ Hiff).
    + intros k' e He. destruct (Hl k' e) as [E' He']; [by right|]. split; [|done].
      rewrite lookup_insert_ne; [done|]. intros ->. apply Hk. apply list_elem_of_fmap. by exists (k', e).
Qed.

(** What [tick] does: ages every mapping, or runs into undefined behaviour. *)
Lemma interface_tick_spec P ni ms : inv_with P ni → 0 <= ms →
  tick ni ms = if bool_decide (map_Forall (λ _ e, ms < e.1) (_addr_mp ni))
    then Ok (set_addr_mp ni ((λ e, (e.1 - ms, e.2)) <$> _addr_mp ni))
    else Throw IteratorInvalidated.
Proof.
  intros Hi Hms. unfold tick. rewrite tick_loop_spec; [|apply NoDup_fst_map_to_list | done |].
  2:{ intros k e He. apply elem_of_map_to_list in He. split; [done|]. apply (i_age _ Hi _ _ He). }
  replace (forallb (λ ke, ms <? ke.2.1) (map_to_list (_addr_mp ni)))
    with (bool_decide (map_Forall (λ _ e, ms < e.1) (_addr_mp ni))).
  - destruct (bool_decide _); [|done]. simpl. do 2 f_equal. apply map_eq. intros k.
    rewrite map_lookup_imap, lookup_fmap. destruct (_addr_mp ni !! k) as [e|] eqn:E; [|done]. simpl.
    rewrite bool_decide_eq_true_2; [done|]. apply list_elem_of_fmap. exists (k, e). split; [done|].
    by apply elem_of_map_to_list.
  - apply eq_bool_prop_intro. rewrite bool_decide_spec, forallb_True, Forall_forall, map_Forall_to_list.
    rewrite Forall_forall. split; intros H [k e] He; specialize (H (k, e) He); simpl in *;
      rewrite Is_true_true, Z.ltb_lt in *; lia.
Qed.

Section AnyDatagrams.

Context (P : IPv4Datagram.t → Prop).

(** [send_datagram] throws exactly when the hop is known and the datagram cannot be serialized. *)
Lemma send_datagram_cases ni d hop : inv_with P ni → P d → 0 <= hop < two32 →
  match send_datagram ni d (Address.of_ipv4 hop) with
  | Ok ni' => inv_with P ni'
  | Throw e => IPv4Datagram.serialize d = Throw e ∧
      ∃ age eth, _addr_mp ni !! hop = Some (age, eth) ∧ eth ≠ ETHERNET_BROADCAST
  end.
Proof.
  intros Hi Hd Hh. unfold send_datagram. rewrite Address.ipv4_numeric_of_ipv4, result_bind_ok by done.
  destruct (_addr_mp ni !! hop) as [[age eth]|] eqn:E.
  - destruct (bool_decide (eth = ETHERNET_BROADCAST)) eqn:Eb; simpl negb; [done|]. apply bool_decide_eq_false in Eb.
    destruct (IPv4Datagram.serialize d) as [l|e]; simpl; [by destruct Hi; constructor | eauto].
  - destruct (i_ip _ Hi) as (ip & Hip & ->). rewrite Address.ipv4_numeric_of_ipv4, result_bind_ok by done.
    rewrite ARPMessage.arp_serialize_wire, result_bind_ok by done.
    destruct Hi as [H1 H2 H3 H4]. constructor; [done | done | |]; simpl.
    + apply map_Forall_insert_2; [simpl; split; [lia | done] | done].
    + apply map_Forall_insert_2; [by split; [done | exists 5000; rewrite lookup_insert_eq]|].
      intros k d' Ek. destruct (H4 k d' Ek) as (Hs & a & Ea). split; [done|]. exists a.
      rewrite lookup_insert_ne by congruence. done.
Qed.

(** Learning a mapping throws exactly when the datagram that waits for it cannot be serialized. *)
Lemma interface_learn_cases ni ip eth : inv_with P ni → length eth = 6%nat →
  match learn ni ip eth with
  | Ok ni' => inv_with P ni'
  | Throw e => ∃ d, _data_mp ni !! ip = Some d ∧ IPv4Datagram.serialize d = Throw e
  end.
Proof.
  intros [H1 H2 H3 H4] Hl. unfold learn.
  assert (∀ k d, k ≠ ip → _data_mp ni !! k = Some d → P d ∧
    ∃ age, <[ip := (30000, eth)]> (_addr_mp ni) !! k = Some (age, ETHERNET_BROADCAST)) as H5.
  { intros k d Hk Ek. rewrite lookup_insert_ne by done. by apply H4. }
  assert (map_Forall (λ _ e, 0 < e.1 <= 30000 ∧ length e.2 = 6%nat) (<[ip := (30000, eth)]> (_addr_mp ni))) as H6
    by (apply map_Forall_insert_2; [simpl; split; [lia | done] | done]).
  simpl _data_mp. destruct (_data_mp ni !! ip) as [d|] eqn:Ed.
  - destruct (IPv4Datagram.serialize d) as [l|e] eqn:Es; simpl; [|eauto].
    constructor; [done | done | done |]. simpl.
    intros k d' Ek. apply lookup_delete_Some in Ek as [Hk Ek]. by apply H5.
  - constructor; [done | done | done |]. simpl. intros k d' Ek. apply H5; [congruence | done].
Qed.

Lemma recv_arp_cases ni am : inv_with P ni → length (ARPMessage.sender_ethernet_address am) = 6%nat →
  match recv_arp ni am with
  | Ok ni' => inv_with P ni'
  | Throw e => ∃ ip d, _data_mp ni !! ip = Some d ∧ IPv4Datagram.serialize d = Throw e
  end.
Proof.
  intros Hi Hl. unfold recv_arp.
  pose proof (interface_learn_cases ni (ARPMessage.sender_ip_address am) _ Hi Hl) as H.
  destruct (learn _ _ _) as [ni1|e]; [|simpl; by eauto]. rewrite result_bind_ok.
  destruct (_ =? _); [|done]. destruct (i_ip _ H) as (ip' & Hip & Ei). rewrite Ei.
  rewrite Address.ipv4_numeric_of_ipv4, result_bind_ok by done. destruct (_ =? _); [|done].
  rewrite ARPMessage.arp_serialize_wire, result_bind_ok by done. by destruct H; constructor.
Qed.

(** [recv_frame] throws exactly when an ARP message releases a datagram that cannot be serialized. *)
Lemma recv_frame_cases ni h b : inv_with P ni → Buffer.wf b →
  match recv_frame ni (EthernetFrame.mk h (BufferList.of_buffer b)) with
  | Ok (ni', d) => inv_with P ni' ∧ ∀ x, d = Some x → IPv4Header.in_range (IPv4Datagram.header x) ∧
      ∃ bf, IPv4Datagram.payload x = BufferList.of_buffer bf ∧ Buffer.wf bf
  | Throw e => EthernetHeader.type h = EthernetHeader.TYPE_ARP ∧
      ∃ ip d, _data_mp ni !! ip = Some d ∧ IPv4Datagram.serialize d = Throw e
  end.
Proof.
  intros Hi Hb. unfold recv_frame. simpl BufferList.to_buffer. rewrite !result_bind_ok.
  destruct (_ && _).
  - destruct (IPv4Datagram.datagram_parse_total IPv4Datagram.new b Hb) as (d & r & bf & -> & Hr & Hbf); [done|].
    rewrite result_bind_ok. destruct (bool_decide _); (split; [done|]).
    + intros x [= <-]. split; [done | by exists bf].
    + intros x [=].
  - cbn [EthernetFrame.header EthernetFrame._header].
    destruct (Z.eqb_spec (EthernetHeader.type h) EthernetHeader.TYPE_ARP) as [Et|]; [|done].
    destruct (ARPMessage.arp_parse_total ARPMessage.new b Hb) as (m & r & -> & Hm).
    rewrite result_bind_ok. destruct (bool_decide (r = NoError)) eqn:Er; [|done].
    apply bool_decide_eq_true in Er. pose proof (recv_arp_cases ni m Hi (proj1 (Hm Er))) as H.
    destruct (recv_arp ni m) as [ni'|e]; simpl; [by split | done].
Qed.

Lemma tick_keeps ni ms ni' : inv_with P ni → 0 <= ms → tick ni ms = Ok ni' → inv_with P ni'.
Proof.
  intros Hi Hms. rewrite (interface_tick_spec P) by done. destruct (bool_decide _) eqn:E; [|done].
  apply bool_decide_eq_true in E. intros [= <-]. destruct Hi as [H1 H2 H3 H4]. constructor; [done | done | |]; simpl.
  - intros k e Ek. apply lookup_fmap_Some in Ek as (e0 & <- & Ek). specialize (E k e0 Ek).
    specialize (H3 k e0 Ek). simpl in *. split; [lia | apply H3].
  - intros k d Ek. destruct (H4 k d Ek) as (Hd & age & Ea). split; [done|]. exists (age - ms).
    by rewrite lookup_fmap, Ea.
Qed.

End AnyDatagrams.

(** With datagrams that can be serialized nothing throws. *)
Lemma sendable_serializes d e : IPv4Datagram.sendable d → IPv4Datagram.serialize d ≠ Throw e.
Proof. intros H. by destruct (IPv4Datagram.datagram_serialize_wire d H) as (v & l & -> & _). Qed.

Lemma send_datagram_spec ni d hop : inv ni → IPv4Datagram.sendable d → 0 <= hop < two32 →
  ∃ ni', send_datagram ni d (Address.of_ipv4 hop) = Ok ni' ∧ inv ni'.
Proof.
  intros Hi Hd Hh. pose proof (send_datagram_cases IPv4Datagram.sendable ni d hop Hi Hd Hh) as H.
  destruct (send_datagram _ _ _) as [ni'|e]; [by exists ni'|]. by destruct (sendable_serializes d e Hd (proj1 H)).
Qed.

Lemma interface_learn_spec ni ip eth : inv ni → length eth = 6%nat →
  ∃ ni', learn ni ip eth = Ok ni' ∧ inv ni'.
Proof.
  intros Hi Hl. pose proof (interface_learn_cases IPv4Datagram.sendable ni ip eth Hi Hl) as H.
  destruct (learn _ _ _) as [ni'|e]; [by exists ni'|]. destruct H as (d & Ed & Es).
  by destruct (sendable_serializes d e (proj1 (i_data _ Hi ip d Ed)) Es).
Qed.

Lemma recv_arp_spec ni am : inv ni → length (ARPMessage.sender_ethernet_address am) = 6%nat →
  ∃ ni', recv_arp ni am = Ok ni' ∧ inv ni'.
Proof.
  intros Hi Hl. pose proof (recv_arp_cases IPv4Datagram.sendable ni am Hi Hl) as H.
  destruct (recv_arp _ _) as [ni'|e]; [by exists ni'|]. destruct H as (ip & d & Ed & Es).
  by destruct (sendable_serializes d e (proj1 (i_data _ Hi ip d Ed)) Es).
Qed.

Lemma recv_frame_spec ni h b : inv ni → Buffer.wf b →
  ∃ ni' d, recv_frame ni (EthernetFrame.mk h (BufferList.of_buffer b)) = Ok (ni', d) ∧ inv ni' ∧
    ∀ x, d = Some x → IPv4Header.in_range (IPv4Datagram.header x) ∧
      ∃ bf, IPv4Datagram.payload x = BufferList.of_buffer bf ∧ Buffer.wf bf.
Proof.
  intros Hi Hb. pose proof (recv_frame_cases IPv4Datagram.sendable ni h b Hi Hb) as H.
  destruct (recv_frame _ _) as [[ni' d]|e]; [by exists ni', d|]. destruct H as (_ & ip & d & Ed & Es).
  by destruct (sendable_serializes d e (proj1 (i_data _ Hi ip d Ed)) Es).
Qed.

(** ** Address resolution between two interfaces *)

(** The received datagram is the sent one, with its checksum filled in, and its
    payload is one buffer. *)
Definition same_datagram (d d' : IPv4Datagram.t) : Prop :=
  (∃ v, IPv4Datagram.header d' = IPv4Header.set_cksum (IPv4Datagram.header d) v) ∧
  BufferList.concatenate (IPv4Datagram.payload d') = BufferList.concatenate (IPv4Datagram.payload d) ∧
  ∃ b, IPv4Datagram.payload d' = BufferList.of_buffer b ∧ Buffer.wf b.

Lemma transit_ok f : EthernetHeader.valid (EthernetFrame.header f) →
  len (BufferList.concatenate (EthernetFrame.payload f)) < two32 →
  ∃ b, transit f = Ok (EthernetFrame.mk (EthernetFrame.header f) (BufferList.of_buffer b), NoError) ∧
    Buffer.wf b ∧ Buffer.str b = BufferList.concatenate (EthernetFrame.payload f).
Proof. apply EthernetFrame.parse_serialized. Qed.

(** An IPv4 frame addressed to an interface delivers its datagram there, fit to be sent on. *)
Lemma ipv4_frame_arrives ni ni' d l : inv ni → inv ni' → IPv4Datagram.sendable d →
  IPv4Datagram.serialize d = Ok l →
  ∃ f d', transit (frame ni EthernetHeader.TYPE_IPv4 (_ethernet_address ni') l) = Ok (f, NoError) ∧
    recv_frame ni' f = Ok (ni', Some d') ∧ same_datagram d d' ∧ IPv4Datagram.sendable d'.
Proof.
  intros Hi Hi' Hd El. pose proof (IPv4Datagram.datagram_len_serialized d l Hd El) as Hlen.
  assert (IPv4Header.len_ (IPv4Datagram.header d) < two16) as Hmax by (destruct Hd as [[] _]; lia).
  destruct (transit_ok (frame ni EthernetHeader.TYPE_IPv4 (_ethernet_address ni') l)) as (b & Et & Hb & Hs).
  { destruct Hi, Hi'. by constructor. }
  { simpl. rewrite Hlen. lia. }
  destruct (IPv4Datagram.datagram_parse_wire d IPv4Datagram.new b Hd Hb) as (v & d' & Ep & Hh & Hv & Hp & _).
  { intros l' El'. rewrite El in El'. by injection El' as <-. }
  exists (EthernetFrame.mk (EthernetHeader.mk (_ethernet_address ni') (_ethernet_address ni) EthernetHeader.TYPE_IPv4)
            (BufferList.of_buffer b)), d'.
  destruct (IPv4Datagram.datagram_parse_total IPv4Datagram.new b Hb) as (d1 & r1 & bf & Ep1 & _ & Hone); [done|].
  rewrite Ep in Ep1. injection Ep1 as <- <-.
  split; [done|]. split; [|split; [split; [by exists v | split; [done | by exists bf]] | by eapply IPv4Datagram.sendable_received]].
  unfold recv_frame. cbn [EthernetFrame.header EthernetFrame._header EthernetHeader.type EthernetHeader.dst].
  rewrite bool_decide_eq_true_2 by done. rewrite Z.eqb_refl. simpl andb. cbv iota.
  cbn [EthernetFrame.payload EthernetFrame._payload BufferList.of_buffer BufferList.to_buffer].
  by rewrite result_bind_ok, Ep, result_bind_ok.
Qed.

Lemma ipv4_frame_delivers ni ni' d l : inv ni → inv ni' → IPv4Datagram.sendable d →
  IPv4Datagram.serialize d = Ok l →
  ∃ f d', transit (frame ni EthernetHeader.TYPE_IPv4 (_ethernet_address ni') l) = Ok (f, NoError) ∧
    recv_frame ni' f = Ok (ni', Some d') ∧ same_datagram d d'.
Proof.
  intros Hi Hi' Hd El. destruct (ipv4_frame_arrives ni ni' d l Hi Hi' Hd El) as (f & d' & Et & Er & Hs & _). by exists f, d'.
Qed.

(** An ARP frame is handled by every interface it reaches. *)
Lemma arp_frame_handled ni ni' m dst : inv ni → inv ni' → length dst = 6%nat →
  ARPMessage.valid m → ARPMessage.supported m = true →
  ∃ f, transit (frame ni EthernetHeader.TYPE_ARP dst (BufferList.of_string (ARPMessage.wire m))) = Ok (f, NoError) ∧
    recv_frame ni' f = (ni'' ← recv_arp ni' m; Ok (ni'', None)).
Proof.
  intros Hi Hi' Hdst Hv Hs.
  destruct (transit_ok (frame ni EthernetHeader.TYPE_ARP dst (BufferList.of_string (ARPMessage.wire m))))
    as (b & Et & Hb & Hstr).
  { destruct Hi. by constructor. }
  { simpl EthernetFrame.payload. rewrite BufferList.concatenate_string, ARPMessage.arp_len_wire by done. lia. }
  exists (EthernetFrame.mk (EthernetHeader.mk dst (_ethernet_address ni) EthernetHeader.TYPE_ARP)
            (BufferList.of_buffer b)). split; [done|].
  unfold recv_frame. cbn [EthernetFrame.header EthernetFrame._header EthernetHeader.type EthernetHeader.dst].
  change (EthernetHeader.TYPE_ARP =? EthernetHeader.TYPE_IPv4) with false. simpl andb. cbv iota.
  rewrite Z.eqb_refl. cbn [EthernetFrame.payload EthernetFrame._payload BufferList.of_buffer BufferList.to_buffer].
  rewrite result_bind_ok, (ARPMessage.arp_parse_wire m _ b []), result_bind_ok; [done | done | done | done |].
  rewrite Hstr, app_nil_r. apply BufferList.concatenate_string.
Qed.

(** The request sent for an unknown hop, and the reply to it. *)
Definition request (ni : t) (ip hop : Z) : ARPMessage.t :=
  ARPMessage.mk ARPMessage.TYPE_ETHERNET EthernetHeader.TYPE_IPv4 6 4 ARPMessage.OPCODE_REQUEST
    (_ethernet_address ni) ip (replicate 6 x00) hop.
Definition reply (ni nj : t) (ip hop : Z) : ARPMessage.t :=
  ARPMessage.mk ARPMessage.TYPE_ETHERNET EthernetHeader.TYPE_IPv4 6 4 ARPMessage.OPCODE_REPLY
    (_ethernet_address nj) hop (_ethernet_address ni) ip.

Lemma send_unknown ni d ip hop : _ip_address ni = Address.of_ipv4 ip → 0 <= ip < two32 → 0 <= hop < two32 →
  _addr_mp ni !! hop = None →
  send_datagram ni d (Address.of_ipv4 hop)
  = Ok (mk (_ethernet_address ni) (_ip_address ni)
          (_frames_out ni ++ [frame ni EthernetHeader.TYPE_ARP ETHERNET_BROADCAST
             (BufferList.of_string (ARPMessage.wire (request ni ip hop)))])
          (<[hop := (5000, ETHERNET_BROADCAST)]> (_addr_mp ni)) (<[hop := d]> (_data_mp ni))).
Proof.
  intros Ei Hip Hh E. unfold send_datagram. rewrite Address.ipv4_numeric_of_ipv4, result_bind_ok, E by done.
  rewrite Ei, Address.ipv4_numeric_of_ipv4, result_bind_ok, <- Ei by done.
  by rewrite ARPMessage.arp_serialize_wire, result_bind_ok.
Qed.

Lemma send_known ni d age eth hop l : 0 <= hop < two32 → _addr_mp ni !! hop = Some (age, eth) →
  eth ≠ ETHERNET_BROADCAST → IPv4Datagram.serialize d = Ok l →
  send_datagram ni d (Address.of_ipv4 hop) = Ok (push_frame ni (frame ni EthernetHeader.TYPE_IPv4 eth l)).
Proof.
  intros Hh E He El. unfold send_datagram. rewrite Address.ipv4_numeric_of_ipv4, result_bind_ok, E by done.
  by rewrite bool_decide_eq_false_2, El by done.
Qed.

Lemma recv_request ni nj ip hop : _ip_address nj = Address.of_ipv4 hop → 0 <= hop < two32 →
  _data_mp nj !! ip = None →
  recv_arp nj (request ni ip hop)
  = Ok (push_frame (set_addr_mp nj (<[ip := (30000, _ethernet_address ni)]> (_addr_mp nj)))
          (frame nj EthernetHeader.TYPE_ARP (_ethernet_address ni)
             (BufferList.of_string (ARPMessage.wire (reply ni nj ip hop))))).
Proof.
  intros Ej Hh Ed. unfold recv_arp, learn. simpl ARPMessage.sender_ip_address. cbn [_data_mp set_addr_mp].
  rewrite Ed, result_bind_ok. change (ARPMessage.opcode (request ni ip hop) =? ARPMessage.OPCODE_REQUEST) with true.
  cbv iota. cbn [_ip_address set_addr_mp]. rewrite Ej, Address.ipv4_numeric_of_ipv4, result_bind_ok by done.
  simpl ARPMessage.target_ip_address. rewrite Z.eqb_refl.
  rewrite ARPMessage.arp_serialize_wire, result_bind_ok by done. done.
Qed.

Lemma recv_reply ni ni0 nj ip hop d l : _data_mp ni !! hop = Some d → IPv4Datagram.serialize d = Ok l →
  recv_arp ni (reply ni0 nj ip hop)
  = Ok (push_frame (set_data_mp (set_addr_mp ni (<[hop := (30000, _ethernet_address nj)]> (_addr_mp ni)))
                      (delete hop (_data_mp ni)))
          (frame ni EthernetHeader.TYPE_IPv4 (_ethernet_address nj) l)).
Proof.
  intros Ed El. unfold recv_arp, learn. simpl ARPMessage.sender_ip_address. cbn [_data_mp set_addr_mp].
  rewrite Ed, El, result_bind_ok. reflexivity.
Qed.

(** C28: Address resolution delivers.  When interface [ni] is given a datagram
    for a hop it does not know, it queues it and broadcasts one ARP request;
    over the wire the interface [nj] that has the hop's address learns the
    sender and answers it alone; the answer releases the queued datagram, and
    [nj] receives exactly that datagram.  From then on, every datagram for the
    hop is sent at once and received. *)
Theorem arp_resolution (ni nj : t) (ip hop : Z) (d : IPv4Datagram.t) :
  inv ni → inv nj → 0 <= ip < two32 → 0 <= hop < two32 →
  _ip_address ni = Address.of_ipv4 ip → _ip_address nj = Address.of_ipv4 hop →
  _ethernet_address nj ≠ ETHERNET_BROADCAST → IPv4Datagram.sendable d →
  _addr_mp ni !! hop = None → _data_mp nj !! ip = None →
  ∃ ni1 q q' nj1 r r' ni2 f f' d',
    send_datagram ni d (Address.of_ipv4 hop) = Ok ni1 ∧ frames_out ni1 = frames_out ni ++ [q] ∧
    EthernetHeader.dst (EthernetFrame.header q) = ETHERNET_BROADCAST ∧
    transit q = Ok (q', NoError) ∧ recv_frame nj q' = Ok (nj1, None) ∧ frames_out nj1 = frames_out nj ++ [r] ∧
    EthernetHeader.dst (EthernetFrame.header r) = _ethernet_address ni ∧
    transit r = Ok (r', NoError) ∧ recv_frame ni1 r' = Ok (ni2, None) ∧ frames_out ni2 = frames_out ni1 ++ [f] ∧
    transit f = Ok (f', NoError) ∧ recv_frame nj1 f' = Ok (nj1, Some d') ∧ same_datagram d d' ∧
    ∀ e, IPv4Datagram.sendable e → ∃ ni3 g g' e',
      send_datagram ni2 e (Address.of_ipv4 hop) = Ok ni3 ∧ frames_out ni3 = frames_out ni2 ++ [g] ∧
      transit g = Ok (g', NoError) ∧ recv_frame nj1 g' = Ok (nj1, Some e') ∧ same_datagram e e'.
Proof.
  intros Hi Hj Hip Hh Ei Ej Hbc Hd Ea Edat.
  destruct (send_datagram_spec ni d hop Hi Hd Hh) as (ni1 & E1 & Hi1).
  pose proof (send_unknown ni d ip hop Ei Hip Hh Ea) as E1'. rewrite E1 in E1'. injection E1' as E1'.
  assert (ARPMessage.valid (request ni ip hop)) as Vq by (constructor; [apply Hi | done..]).
  assert (ARPMessage.valid (reply ni nj ip hop)) as Vr by (constructor; [apply Hj | apply Hi | done..]).
  destruct (arp_frame_handled ni nj (request ni ip hop) ETHERNET_BROADCAST) as (q' & Tq & Rq); [done..|].
  pose proof (recv_request ni nj ip hop Ej Hh Edat) as Rq'. rewrite Rq', result_bind_ok in Rq.
  destruct (recv_arp_spec nj (request ni ip hop) Hj) as (nj1 & Ej1 & Hj1); [apply Hi|].
  rewrite Rq' in Ej1. injection Ej1 as Ej1.
  destruct (arp_frame_handled nj ni1 (reply ni nj ip hop) (_ethernet_address ni)) as (r' & Tr & Rr);
    [done | done | apply Hi | done | done |].
  destruct (IPv4Datagram.datagram_serialize_wire d Hd) as (v & l & El & _).
  assert (_data_mp ni1 !! hop = Some d) as Ed1 by (rewrite E1'; apply lookup_insert_eq).
  pose proof (recv_reply ni1 ni nj ip hop d l Ed1 El) as Rr'. rewrite Rr', result_bind_ok in Rr.
  destruct (recv_arp_spec ni1 (reply ni nj ip hop) Hi1) as (ni2 & Ei2 & Hi2); [apply Hj|].
  rewrite Rr' in Ei2. injection Ei2 as Ei2.
  assert (_ethernet_address nj1 = _ethernet_address nj) as Eeth by by rewrite <- Ej1.
  destruct (ipv4_frame_delivers ni1 nj1 d l Hi1 Hj1 Hd El) as (f' & d' & Tf & Rf & Hsame). rewrite Eeth in Tf.
  exists ni1. eexists. exists q', nj1. eexists. exists r', ni2. eexists. exists f', d'.
  split; [done|]. split; [by rewrite E1'|]. split; [done|]. split; [exact Tq|]. split; [by rewrite <- Ej1|].
  split; [by rewrite <- Ej1|]. split; [done|]. split; [exact Tr|]. split; [by rewrite <- Ei2|].
  split; [by rewrite <- Ei2|]. split; [exact Tf|]. split; [done|]. split; [done|].
  intros e He. destruct (IPv4Datagram.datagram_serialize_wire e He) as (_ & le & Ele & _).
  destruct (ipv4_frame_delivers ni2 nj1 e le Hi2 Hj1 He Ele) as (g' & e' & Tg & Rg & Hse).
  rewrite Eeth in Tg. eexists. eexists. exists g', e'. split; [|split; [|split; [exact Tg | by split]]].
  - apply (send_known ni2 e 30000); [done | | done | done]. rewrite <- Ei2. apply lookup_insert_eq.
  - done.
Qed.

(** Two hosts on one network. *)
Definition host1 : t := new [x02; x00; x00; x00; x00; x01] (Address.of_ipv4 0x0a000001).
Definition host2 : t := new [x02; x00; x00; x00; x00; x02] (Address.of_ipv4 0x0a000002).

Lemma interface_inv_new eth ip : length eth = 6%nat → 0 <= ip < two32 → inv (new eth (Address.of_ipv4 ip)).
Proof. intros He Hip. constructor; [done | by exists ip | apply map_Forall_empty | apply map_Forall_empty]. Qed.

Lemma arp_resolution_witness :
  ∃ ni1 q q' nj1 r r' ni2 f f' d',
    send_datagram host1 IPv4Datagram.demo (Address.of_ipv4 0x0a000002) = Ok ni1 ∧
    frames_out ni1 = frames_out host1 ++ [q] ∧
    EthernetHeader.dst (EthernetFrame.header q) = ETHERNET_BROADCAST ∧
    transit q = Ok (q', NoError) ∧ recv_frame host2 q' = Ok (nj1, None) ∧ frames_out nj1 = frames_out host2 ++ [r] ∧
    EthernetHeader.dst (EthernetFrame.header r) = _ethernet_address host1 ∧
    transit r = Ok (r', NoError) ∧ recv_frame ni1 r' = Ok (ni2, None) ∧ frames_out ni2 = frames_out ni1 ++ [f] ∧
    transit f = Ok (f', NoError) ∧ recv_frame nj1 f' = Ok (nj1, Some d') ∧ same_datagram IPv4Datagram.demo d' ∧
    ∀ e, IPv4Datagram.sendable e → ∃ ni3 g g' e',
      send_datagram ni2 e (Address.of_ipv4 0x0a000002) = Ok ni3 ∧ frames_out ni3 = frames_out ni2 ++ [g] ∧
      transit g = Ok (g', NoError) ∧ recv_frame nj1 g' = Ok (nj1, Some e') ∧ same_datagram e e'.
Proof.
  apply (arp_resolution host1 host2 0x0a000001 0x0a000002 IPv4Datagram.demo);
    [apply interface_inv_new; [done | lia] | apply interface_inv_new; [done | lia] | lia | lia | done | done | discriminate
    | apply IPv4Datagram.datagram_demo_sendable | reflexivity | reflexivity].
Defined.

(** C29: The interface keeps its invariant, and throws only for datagrams that cannot be serialized.  From any sound state (mappings at most
    30 s old, addresses of six bytes, every queued datagram waiting for a pending request), and for
    every datagram, sendable or not: [send_datagram] gives a sound state, or throws, which it does exactly when the next
    hop's address is known and [serialize] of the datagram throws, with the same exception;
    [recv_frame] of a frame from the wire, whatever its header and the bytes of its payload, gives a sound state, or throws, which it does only
    for an ARP message that releases a queued datagram whose [serialize] throws.  When the queued datagrams
    are sendable, [recv_frame] does not throw, [send_datagram] does not throw for sendable datagrams, and the queued datagrams stay sendable.
    [tick] keeps all of this as long as no mapping expires. *)
Theorem interface_invariant (ni : t) :
  sound ni →
  (∀ d hop, 0 <= hop < two32 →
    match send_datagram ni d (Address.of_ipv4 hop) with
    | Ok ni' => sound ni'
    | Throw e => IPv4Datagram.serialize d = Throw e ∧
        ∃ age eth, _addr_mp ni !! hop = Some (age, eth) ∧ eth ≠ ETHERNET_BROADCAST
    end ∧
    (∀ age eth e, _addr_mp ni !! hop = Some (age, eth) → eth ≠ ETHERNET_BROADCAST → IPv4Datagram.serialize d = Throw e →
      send_datagram ni d (Address.of_ipv4 hop) = Throw e)) ∧
  (∀ h b, Buffer.wf b →
    match recv_frame ni (EthernetFrame.mk h (BufferList.of_buffer b)) with
    | Ok (ni', _) => sound ni'
    | Throw e => EthernetHeader.type h = EthernetHeader.TYPE_ARP ∧
        ∃ ip d, _data_mp ni !! ip = Some d ∧ IPv4Datagram.serialize d = Throw e
    end) ∧
  (∀ ms ni', 0 <= ms → tick ni ms = Ok ni' → sound ni') ∧
  (map_Forall (λ _ d, IPv4Datagram.sendable d) (_data_mp ni) →
    (∀ d hop, IPv4Datagram.sendable d → 0 <= hop < two32 → ∃ ni', send_datagram ni d (Address.of_ipv4 hop) = Ok ni' ∧
      map_Forall (λ _ d, IPv4Datagram.sendable d) (_data_mp ni')) ∧
    (∀ h b, Buffer.wf b → ∃ ni' o, recv_frame ni (EthernetFrame.mk h (BufferList.of_buffer b)) = Ok (ni', o) ∧
      map_Forall (λ _ d, IPv4Datagram.sendable d) (_data_mp ni')) ∧
    (∀ ms ni', 0 <= ms → tick ni ms = Ok ni' → map_Forall (λ _ d, IPv4Datagram.sendable d) (_data_mp ni'))).
Proof.
  intros Hi. split; [|split; [|split]].
  - intros d hop Hh. split; [by apply send_datagram_cases|]. intros age eth e Ea Hb Es. unfold send_datagram.
    rewrite Address.ipv4_numeric_of_ipv4, result_bind_ok, Ea, bool_decide_eq_false_2, Es by done. done.
  - intros h b Hb. pose proof (recv_frame_cases (λ _, True) ni h b Hi Hb) as H.
    destruct (recv_frame _ _) as [[ni' o]|e]; [apply H | done].
  - intros ms ni'. by apply tick_keeps.
  - intros Hq. assert (inv ni) as Hv.
    { destruct Hi as [H1 H2 H3 H4]. constructor; [done..|]. intros k d Ek. split; [by apply (Hq k)|]. by apply (H4 k d). }
    assert (∀ n, inv n → map_Forall (λ _ d, IPv4Datagram.sendable d) (_data_mp n)) as G
      by (intros n Hn k d Ek; by apply (i_data _ Hn k)).
    split; [|split].
    + intros d hop Hd Hh. destruct (send_datagram_spec ni d hop Hv Hd Hh) as (ni' & E & H'). eauto.
    + intros h b Hb. destruct (recv_frame_spec ni h b Hv Hb) as (ni' & o & E & H' & _). eauto 6.
    + intros ms ni' Hms E. apply G. by apply (tick_keeps _ ni ms).
Qed.

(** A host that knows [host2]; a datagram with a wrong length makes it throw. *)
Definition host1_knows : t := set_addr_mp host1 {[0x0a000002 := (30000, [x02; x00; x00; x00; x00; x02])]}.

Lemma interface_invariant_witness :
  sound host1_knows ∧
  send_datagram host1_knows (IPv4Datagram.set_header IPv4Datagram.demo
    (IPv4Header.set_len (IPv4Datagram.header IPv4Datagram.demo) 0)) (Address.of_ipv4 0x0a000002) = Throw runtime_error.
Proof.
  assert (sound host1_knows) as Hs.
  { constructor; [done | exists 0x0a000001; split; [lia | done] | | done].
    apply map_Forall_singleton. simpl. split; [lia | done]. }
  split; [done|]. destruct (interface_invariant host1_knows Hs) as (H & _).
  apply (proj2 (H _ 0x0a000002 ltac:(lia)) 30000 [x02; x00; x00; x00; x00; x02] runtime_error).
  - apply lookup_singleton_eq.
  - discriminate.
  - vm_compute. reflexivity.
Defined.

(** C39: What [tick] does, exactly.  While every mapping has more than the elapsed
    time left, each one is aged by it and nothing else changes; as soon as one
    expires, the range-based [for] advances an iterator that [erase] has
    invalidated, which is undefined behaviour. *)
Theorem tick_expiry_undefined (ni : t) (ms : Z) :
  inv ni → 0 <= ms →
  if bool_decide (map_Forall (λ _ e, ms < e.1) (_addr_mp ni)) then
    ∃ ni', tick ni ms = Ok ni' ∧ frames_out ni' = frames_out ni ∧ _data_mp ni' = _data_mp ni ∧
      ∀ k, _addr_mp ni' !! k = (λ e, (e.1 - ms, e.2)) <$> _addr_mp ni !! k
  else tick ni ms = Throw IteratorInvalidated.
Proof.
  intros Hi Hms. rewrite (interface_tick_spec IPv4Datagram.sendable) by done. destruct (bool_decide _); [|done].
  eexists. split; [done|]. split; [done|]. split; [done|]. intros k. apply lookup_fmap.
Qed.

(** A host with a pending request. *)
Definition waiting : t :=
  match send_datagram host1 IPv4Datagram.demo (Address.of_ipv4 0x0a000002) with Ok ni => ni | Throw _ => host1 end.

Lemma tick_expiry_undefined_witness : tick waiting 5000 = Throw IteratorInvalidated.
Proof.
  pose proof (tick_expiry_undefined waiting 5000) as H.
  replace (bool_decide (map_Forall (λ _ e, 5000 < e.1) (_addr_mp waiting))) with false in H by (by vm_compute).
  apply H; [|lia]. unfold waiting.
  destruct (send_datagram_spec host1 IPv4Datagram.demo 0x0a000002) as (ni & -> & Hi);
    [apply interface_inv_new; [done | lia] | apply IPv4Datagram.datagram_demo_sendable | lia | exact Hi].
Defined.

(** While a request is pending, datagrams for the hop are dropped: after the
    first datagram has been queued, [send_datagram] of any other one leaves
    the interface as it is, so that the reply releases the first alone. *)
Theorem pending_datagram_dropped (ni ni1 : t) (d d' : IPv4Datagram.t) (hop : Z) :
  inv ni → 0 <= hop < two32 → _addr_mp ni !! hop = None →
  send_datagram ni d (Address.of_ipv4 hop) = Ok ni1 →
  send_datagram ni1 d' (Address.of_ipv4 hop) = Ok ni1.
Proof.
  intros Hi Hh Ea E. destruct (i_ip _ Hi) as (ip & Hip & Ei).
  rewrite (send_unknown ni d ip hop Ei Hip Hh Ea) in E. injection E as <-.
  unfold send_datagram. rewrite Address.ipv4_numeric_of_ipv4, result_bind_ok by done. cbn [_addr_mp].
  rewrite lookup_insert_eq. by rewrite bool_decide_eq_true_2.
Qed.

Lemma pending_datagram_dropped_witness :
  send_datagram waiting IPv4Datagram.new (Address.of_ipv4 0x0a000002) = Ok waiting.
Proof.
  apply (pending_datagram_dropped host1 waiting IPv4Datagram.demo IPv4Datagram.new 0x0a000002);
    [apply interface_inv_new; [done | lia] | lia | reflexivity | vm_compute; reflexivity].
Defined.

End NetworkInterface.
