(* ===== verification/router.v ===== *)
(** * The router (src/lab/libsponge/router.hh, .cc)

    [AsyncNetworkInterface] stores the datagrams it receives; [Router] forwards
    them by the longest matching prefix.  The table is a vector of 33 hash
    maps, one per prefix length, probed from the longest to the shortest; the
    theorems compare it with a linear search of the list of routes. *)

From stdpp Require Import gmap.
From S2P Require Import Prelude buffer parser ipv4 ethernet address wire_types network_interface.

Module AsyncNetworkInterface.

Record t := mk { base : NetworkInterface.t; _datagrams_out : list IPv4Datagram.t }.

Definition of_interface (interface : NetworkInterface.t) : t := mk interface [].
Definition datagrams_out (a : t) : list IPv4Datagram.t := _datagrams_out a.

Definition recv_frame (a : t) (frame : EthernetFrame.t) : result t :=
  '(ni, optional_dgram) ← NetworkInterface.recv_frame (base a) frame;
  match optional_dgram with
  | Some d => Ok (mk ni (_datagrams_out a ++ [d]))
  | None => Ok (mk ni (_datagrams_out a))
  end.

(** The inherited methods. *)
Definition send_datagram (a : t) (dgram : IPv4Datagram.t) (next_hop : Address.t) : result t :=
  ni ← NetworkInterface.send_datagram (base a) dgram next_hop; Ok (mk ni (_datagrams_out a)).
Definition tick (a : t) (ms : Z) : result t :=
  ni ← NetworkInterface.tick (base a) ms; Ok (mk ni (_datagrams_out a)).

End AsyncNetworkInterface.

Module Router.

(** [std::pair<std::optional<Address>, size_t>]. *)
Definition entry : Type := option Address.t * Z.

Record t := mk {
  _interfaces : list AsyncNetworkInterface.t;
  route_mps : list (gmap Z entry) }.

Definition new : t := mk [] (replicate 33 ∅).

Definition add_interface (r : t) (interface : AsyncNetworkInterface.t) : t * Z :=
  let l := _interfaces r ++ [interface] in
  (mk l (route_mps r), uint64 (len l - 1)).

(** [_interfaces.at(N)]. *)
Definition interface (r : t) (N : Z) : result AsyncNetworkInterface.t :=
  match _interfaces r !! Z.to_nat N with Some a => Ok a | None => Throw out_of_range end.
Definition set_interface (r : t) (N : Z) (a : AsyncNetworkInterface.t) : t :=
  mk (<[Z.to_nat N := a]> (_interfaces r)) (route_mps r).

Section WideShift.
(** What the machine makes of [x >> n << n] when [n] is not less than the width
    of [x], which the language leaves undefined.  The strict reading is
    [λ _ _, Throw ShiftTooWide]; processors that use the shift count modulo 32
    give [Ok x] for [n = 32]. *)
Variable wide_shift : Z → Z → result Z.

(** [x >> n << n] on [uint32_t]. *)
Definition mask_low (x n : Z) : Z := uint32 (Z.shiftl (Z.shiftr x n) n).
Definition shift_back (x n : Z) : result Z :=
  if (0 <=? n) && (n <? 32) then Ok (mask_low x n) else wide_shift x n.

Definition add_route (r : t) (route_prefix prefix_length : Z) (next_hop : option Address.t) (interface_num : Z)
  : result t :=
  real_prefix ← shift_back route_prefix (32 - prefix_length);
  mp ← at_index (route_mps r) prefix_length;
  mps ← store (route_mps r) prefix_length (<[real_prefix := (next_hop, interface_num)]> mp);
  Ok (mk (_interfaces r) mps).

End WideShift.

(** The loop of [route_one_datagram] from prefix length [n] down. *)
Fixpoint find_route (n : nat) (mps : list (gmap Z entry)) (dst : Z) : result (option entry) :=
  let dst := match n with O => 0 | S _ => mask_low dst (32 - Z.of_nat n) end in
  mp ← at_index mps (Z.of_nat n);
  match mp !! dst with
  | Some e => Ok (Some e)
  | None => match n with O => Ok None | S n => find_route n mps dst end
  end.

Definition route_one_datagram (r : t) (dgram : IPv4Datagram.t) : result t :=
  let h := IPv4Datagram.header dgram in
  if IPv4Header.ttl h =? 0 then Ok r
  else
    let h := IPv4Header.set_ttl h (uint8 (IPv4Header.ttl h - 1)) in
    let dgram := IPv4Datagram.set_header dgram h in
    if IPv4Header.ttl h =? 0 then Ok r
    else
      found ← find_route 32 (route_mps r) (IPv4Header.dst h);
      match found with
      | None => Ok r
      | Some (next_hop, interface_num) =>
          real_next_hop ← match next_hop with
                          | Some a => Ok a
                          | None => Address.from_ipv4_numeric (IPv4Header.dst h)
                          end;
          a ← interface r interface_num;
          a ← AsyncNetworkInterface.send_datagram a dgram real_next_hop;
          Ok (set_interface r interface_num a)
      end.

(** [queue.pop()] on the queue of interface [i]. *)
Definition pop (r : t) (i : nat) : t :=
  match _interfaces r !! i with
  | Some a => mk (<[i := AsyncNetworkInterface.mk (AsyncNetworkInterface.base a)
                          (tail (AsyncNetworkInterface._datagrams_out a))]> (_interfaces r)) (route_mps r)
  | None => r
  end.

(** The [while] loop of [route] on interface [i]; the queue only shrinks, so its
    length is enough fuel ([router_drain_spec]). *)
Fixpoint drain (fuel : nat) (r : t) (i : nat) : result t :=
  match (AsyncNetworkInterface.datagrams_out <$> _interfaces r !! i) with
  | None | Some [] => Ok r
  | Some (front :: _) =>
      match fuel with
      | O => Throw OutOfFuel
      | S fuel => r ← route_one_datagram r front; drain fuel (pop r i) i
      end
  end.

(** The queue of interface [i]. *)
Definition queue_of (r : t) (i : nat) : list IPv4Datagram.t :=
  match _interfaces r !! i with Some a => AsyncNetworkInterface.datagrams_out a | None => [] end.

(** The outer loop over the interfaces [i], [i + 1], ... ([n] of them). *)
Fixpoint route_loop (n : nat) (r : t) (i : nat) : result t :=
  match n with
  | O => Ok r
  | S n => r ← drain (length (queue_of r i)) r i; route_loop n r (S i)
  end.

Definition route (r : t) : result t := route_loop (length (_interfaces r)) r 0.

(** ** Longest-prefix match: the specification *)

(** A route as given to [add_route]. *)
Record rule := Rule { r_prefix : Z; r_length : nat; r_entry : entry }.

(** The first [r_length] bits of the destination are those of the prefix. *)
Definition matches (dst : Z) (ru : rule) : bool :=
  let n := 32 - Z.of_nat (r_length ru) in Z.shiftr dst n =? Z.shiftr (r_prefix ru) n.

(** The matching rule with the longest prefix; among equals, the last added. *)
Definition better (dst : Z) (acc : option rule) (ru : rule) : option rule :=
  if matches dst ru &&
     match acc with None => true | Some ru' => (r_length ru' <=? r_length ru)%nat end
  then Some ru else acc.
Definition best (rules : list rule) (dst : Z) : option rule := foldl (better dst) None rules.

Fixpoint add_rules (wide_shift : Z → Z → result Z) (r : t) (rules : list rule) : result t :=
  match rules with
  | [] => Ok r
  | ru :: rules =>
      r ← add_route wide_shift r (r_prefix ru) (Z.of_nat (r_length ru)) (r_entry ru).1 (r_entry ru).2;
      add_rules wide_shift r rules
  end.

(** A rule the table can hold; for a default route it matters what the machine
    makes of the shift by 32. *)
Definition valid_rule (wide_shift : Z → Z → result Z) (ru : rule) : Prop :=
  0 <= r_prefix ru < two32 ∧ (r_length ru <= 32)%nat ∧
  (r_length ru = 0%nat → wide_shift (r_prefix ru) 32 = Ok 0).

(** ** The prefix mask *)

Lemma mask_low_eq x n : 0 <= x < two32 → 0 <= n → mask_low x n = Z.shiftr x n * 2 ^ n.
Proof.
  intros Hx Hn. unfold mask_low. rewrite Z.shiftl_mul_pow2, Z.shiftr_div_pow2 by done.
  apply uint32_id. assert (0 < 2 ^ n) by (apply Z.pow_pos_nonneg; lia).
  pose proof (Z.mul_div_le x (2 ^ n)). pose proof (Z.div_pos x (2 ^ n)). nia.
Qed.

Lemma mask_low_range x n : 0 <= x < two32 → 0 <= mask_low x n < two32.
Proof. intros. apply uint32_range. Qed.

Lemma mask_low_inj x y n : 0 <= x < two32 → 0 <= y < two32 → 0 <= n →
  mask_low x n = mask_low y n ↔ Z.shiftr x n = Z.shiftr y n.
Proof.
  intros Hx Hy Hn. rewrite !mask_low_eq by done. assert (0 < 2 ^ n) by (apply Z.pow_pos_nonneg; lia).
  split; [apply Z.mul_reg_r; lia | by intros ->].
Qed.

Lemma mask_low_mask x n m : 0 <= x < two32 → 0 <= n <= m → mask_low (mask_low x n) m = mask_low x m.
Proof.
  intros Hx Hn. rewrite (mask_low_eq (mask_low x n)), (mask_low_eq x m) by (try apply mask_low_range; lia).
  f_equal. rewrite mask_low_eq by lia. rewrite <- Z.shiftl_mul_pow2 by lia.
  apply Z.bits_inj'. intros k Hk. rewrite !Z.shiftr_spec, Z.shiftl_spec, Z.shiftr_spec by lia. f_equal. lia.
Qed.

(** The key looked up for a destination in the map of prefix length [n]. *)
Definition key (dst : Z) (n : nat) : Z :=
  match n with O => 0 | S _ => mask_low dst (32 - Z.of_nat n) end.

Lemma key_key dst n m : 0 <= dst < two32 → (m <= n <= 32)%nat → key (key dst n) m = key dst m.
Proof.
  intros Hd Hm. unfold key. destruct m as [|m]; [done|]. destruct n as [|n]; [lia|]. apply mask_low_mask; lia.
Qed.

Lemma key_range dst n : 0 <= dst < two32 → 0 <= key dst n < two32.
Proof. intros. destruct n; [simpl; lia | by apply mask_low_range]. Qed.

Lemma matches_key dst ru : 0 <= dst < two32 → 0 <= r_prefix ru < two32 → (r_length ru <= 32)%nat →
  matches dst ru = (key dst (r_length ru) =? key (r_prefix ru) (r_length ru)).
Proof.
  intros Hd Hp Hl. unfold matches, key. destruct (r_length ru) as [|n] eqn:E.
  - change (32 - Z.of_nat 0) with 32. rewrite !Z.shiftr_div_pow2 by lia. change (2 ^ 32) with two32.
    rewrite !Z.div_small by lia. done.
  - apply eq_bool_prop_intro. rewrite !Is_true_true, !Z.eqb_eq. symmetry. apply mask_low_inj; lia.
Qed.

(** ** The table *)

(** The scan of [find_route], with the prefix length of the entry found. *)
Fixpoint scan (n : nat) (mps : list (gmap Z entry)) (dst : Z) : option (nat * entry) :=
  match mps !! n ≫= lookup (key dst n) with
  | Some e => Some (n, e)
  | None => match n with O => None | S n => scan n mps dst end
  end.

Lemma find_route_scan n mps : ∀ dst, (n < length mps)%nat → (n <= 32)%nat → 0 <= dst < two32 →
  find_route n mps dst = Ok (snd <$> scan n mps dst).
Proof.
  induction n as [|n IH]; intros dst Hn Hm Hd; unfold find_route; fold find_route; unfold at_index;
    rewrite Nat2Z.id; (destruct (mps !! _) as [mp|] eqn:E; [|apply lookup_ge_None in E; lia]);
    rewrite result_bind_ok; unfold scan; fold scan; rewrite E; simpl mbind.
  - simpl key. by destruct (mp !! 0).
  - change (mask_low dst (32 - Z.of_nat (S n))) with (key dst (S n)).
    destruct (mp !! key dst (S n)); [done|]. rewrite IH by (try apply key_range; lia). do 2 f_equal.
    clear E IH. assert (∀ m, (m <= n)%nat → scan m mps (key dst (S n)) = scan m mps dst) as H; [|by apply H].
    induction m as [|m IHm]; intros Hmn; unfold scan; fold scan; rewrite (key_key dst (S n)) by lia; [done|].
    by rewrite IHm by lia.
Qed.

(** One more entry in the table. *)
Lemma scan_insert n mps L mp p e dst : mps !! L = Some mp → (L < length mps)%nat →
  scan n (<[L := <[p := e]> mp]> mps) dst
  = if (L <=? n)%nat && (key dst L =? p) &&
       match scan n mps dst with None => true | Some (m, _) => (m <=? L)%nat end
    then Some (L, e) else scan n mps dst.
Proof.
  intros El HL.
  assert (∀ m k, <[L := <[p := e]> mp]> mps !! m ≫= lookup k
    = if bool_decide (m = L ∧ k = p) then Some e else (mps !! m ≫= lookup k)) as Hlk.
  { intros m k. destruct (decide (m = L)) as [->|Hne].
    - rewrite list_lookup_insert_eq, El by done. simpl. destruct (decide (k = p)) as [->|Hk].
      + by rewrite lookup_insert_eq, bool_decide_eq_true_2.
      + rewrite lookup_insert_ne, bool_decide_eq_false_2 by (done || intros [? ?]; congruence). done.
    - rewrite list_lookup_insert_ne, bool_decide_eq_false_2 by (done || intros [? ?]; congruence). done. }
  induction n as [|n IH]; unfold scan; fold scan; rewrite Hlk.
  - destruct (decide (L = 0%nat)) as [->|HL0].
    + destruct (Z.eqb_spec (key dst 0) p) as [->|Hk].
      * rewrite bool_decide_eq_true_2 by done. by destruct (mps !! _ ≫= _).
      * rewrite bool_decide_eq_false_2 by (intros [? ?]; congruence). done.
    + rewrite bool_decide_eq_false_2 by (intros [? ?]; congruence). destruct (Nat.leb_spec L 0); [lia|]. done.
  - destruct (decide (L = S n)) as [->|HLn].
    + rewrite Nat.leb_refl. destruct (Z.eqb_spec (key dst (S n)) p) as [->|Hk].
      * rewrite bool_decide_eq_true_2 by done. simpl andb.
        assert (∀ k m x, scan k mps dst = Some (m, x) → (m <= k)%nat) as Hle.
        { induction k as [|k IHk]; intros m x; unfold scan; fold scan; destruct (mps !! _ ≫= _);
            try (by intros [= <- <-]); [done..|]. intros Hk. apply IHk in Hk. lia. }
        destruct (mps !! _ ≫= _); [by rewrite Nat.leb_refl|].
        destruct (scan n mps dst) as [[m x]|] eqn:Es; [|done]. apply Hle in Es.
        destruct (Nat.leb_spec m (S n)); [done | lia].
      * rewrite bool_decide_eq_false_2 by (intros [? ?]; congruence). simpl andb. cbv iota.
        destruct (mps !! _ ≫= _); [done|]. rewrite IH. destruct (Nat.leb_spec (S n) n); [lia|]. done.
    + rewrite bool_decide_eq_false_2 by (intros [? ?]; congruence). destruct (mps !! S n ≫= _) eqn:En.
      * destruct (Nat.leb_spec L (S n)), (Nat.leb_spec (S n) L); try lia; by rewrite ?andb_false_r.
      * rewrite IH. destruct (Nat.leb_spec L (S n)), (Nat.leb_spec L n); try lia; done.
Qed.

(** What the table must answer for a destination. *)
Definition answers (rules : list rule) (mps : list (gmap Z entry)) : Prop :=
  length mps = 33%nat ∧ ∀ dst, 0 <= dst < two32 →
    scan 32 mps dst = (λ ru, (r_length ru, r_entry ru)) <$> best rules dst.

Lemma answers_new : answers [] (replicate 33 ∅).
Proof. split; [done|]. intros dst _. vm_compute. reflexivity. Qed.

Lemma shift_back_key wide ru : valid_rule wide ru →
  shift_back wide (r_prefix ru) (32 - Z.of_nat (r_length ru)) = Ok (key (r_prefix ru) (r_length ru)).
Proof.
  intros (Hp & Hl & Hw). unfold shift_back, key. destruct (r_length ru) as [|n] eqn:E.
  - simpl. by apply Hw.
  - destruct (Z.leb_spec 0 (32 - Z.of_nat (S n))), (Z.ltb_spec (32 - Z.of_nat (S n)) 32); try lia. done.
Qed.

Lemma add_route_answers wide r rules ru : answers rules (route_mps r) → valid_rule wide ru →
  ∃ mps, add_route wide r (r_prefix ru) (Z.of_nat (r_length ru)) (r_entry ru).1 (r_entry ru).2
         = Ok (mk (_interfaces r) mps) ∧ answers (rules ++ [ru]) mps.
Proof.
  intros [Hlen Ha] Hv. unfold add_route. rewrite (shift_back_key wide ru Hv), result_bind_ok.
  destruct Hv as (Hp & Hl & _). set (L := r_length ru) in *.
  destruct (lookup_lt_is_Some_2 (route_mps r) L) as [mp Emp]; [lia|].
  unfold at_index. rewrite Nat2Z.id, Emp, result_bind_ok. rewrite store_ok, result_bind_ok by (unfold len; lia).
  eexists. split; [done|]. rewrite Nat2Z.id. split; [by rewrite length_insert|]. intros dst Hd.
  rewrite (scan_insert 32 _ L mp) by (done || lia). rewrite Ha by done.
  unfold best. rewrite foldl_app. simpl foldl. fold (best rules dst). unfold better.
  rewrite matches_key by done. fold L. destruct (Nat.leb_spec L 32); [|lia]. simpl andb.
  destruct (best rules dst) as [ru'|]; simpl; destruct (_ =? _); simpl; try done; [|by destruct (r_entry ru)].
  destruct (_ <=? L)%nat; simpl; [by destruct (r_entry ru) | done].
Qed.

Lemma add_rules_answers wide rules : ∀ r rules0, answers rules0 (route_mps r) → Forall (valid_rule wide) rules →
  ∃ mps, add_rules wide r rules = Ok (mk (_interfaces r) mps) ∧ answers (rules0 ++ rules) mps.
Proof.
  induction rules as [|ru rules IH]; intros r rules0 Ha Hv.
  - exists (route_mps r). rewrite app_nil_r. by destruct r.
  - apply Forall_cons in Hv as [Hv Hvs]. destruct (add_route_answers wide r rules0 ru Ha Hv) as (mps & E & Ha').
    simpl. rewrite E, result_bind_ok. destruct (IH (mk (_interfaces r) mps) (rules0 ++ [ru]) Ha' Hvs) as (mps' & E' & Ha'').
    exists mps'. split; [done|]. by rewrite <- app_assoc in Ha''.
Qed.

(** [best] is the longest match. *)
Lemma best_spec rules dst :
  match best rules dst with
  | Some ru => ru ∈ rules ∧ matches dst ru = true ∧
      ∀ ru', ru' ∈ rules → matches dst ru' = true → (r_length ru' <= r_length ru)%nat
  | None => ∀ ru', ru' ∈ rules → matches dst ru' = false
  end.
Proof.
  induction rules as [|ru rules IH] using rev_ind; [by intros ? ?%elem_of_nil|].
  unfold best. rewrite foldl_app. simpl foldl. fold (best rules dst). unfold better.
  destruct (matches dst ru) eqn:Em; destruct (best rules dst) as [b|]; simpl.
  - destruct IH as (Hb & Hm & Hmax). destruct (Nat.leb_spec (r_length b) (r_length ru)).
    + split; [set_solver|]. split; [done|]. intros ru' [Hr | ->%list_elem_of_singleton]%elem_of_app Hm'; [|done].
      specialize (Hmax ru' Hr Hm'). lia.
    + split; [set_solver|]. split; [done|]. intros ru' [Hr | ->%list_elem_of_singleton]%elem_of_app Hm'; [eauto | lia].
  - split; [set_solver|]. split; [done|]. intros ru' [Hr | ->%list_elem_of_singleton]%elem_of_app Hm'; [|done].
    by rewrite IH in Hm'.
  - destruct IH as (Hb & Hm & Hmax). split; [set_solver|]. split; [done|].
    intros ru' [Hr | ->%list_elem_of_singleton]%elem_of_app Hm'; [eauto | congruence].
  - intros ru' [Hr | ->%list_elem_of_singleton]%elem_of_app; [eauto | done].
Qed.

(** ** Forwarding: the specification

    The state is the list of network interfaces; the datagrams waiting in the
    queues are an argument. *)

(** [send_datagram] on interface [n]. *)
Definition send_on (bs : list NetworkInterface.t) (n : Z) (d : IPv4Datagram.t) (hop : Address.t)
  : result (list NetworkInterface.t) :=
  match bs !! Z.to_nat n with
  | None => Throw out_of_range
  | Some b => b ← NetworkInterface.send_datagram b d hop; Ok (<[Z.to_nat n := b]> bs)
  end.

Definition forward (rules : list rule) (bs : list NetworkInterface.t) (d : IPv4Datagram.t)
  : result (list NetworkInterface.t) :=
  let h := IPv4Datagram.header d in
  if IPv4Header.ttl h <=? 1 then Ok bs
  else match best rules (IPv4Header.dst h) with
  | None => Ok bs
  | Some ru =>
      send_on bs (r_entry ru).2
        (IPv4Datagram.set_header d (IPv4Header.set_ttl h (IPv4Header.ttl h - 1)))
        (default (Address.of_ipv4 (IPv4Header.dst h)) (r_entry ru).1)
  end.

Fixpoint forward_all (rules : list rule) (bs : list NetworkInterface.t) (ds : list IPv4Datagram.t)
  : result (list NetworkInterface.t) :=
  match ds with
  | [] => Ok bs
  | d :: ds => bs ← forward rules bs d; forward_all rules bs ds
  end.

(** The router with given interfaces and queues. *)
Definition build (bs : list NetworkInterface.t) (qs : list (list IPv4Datagram.t)) : list AsyncNetworkInterface.t :=
  zip_with AsyncNetworkInterface.mk bs qs.

Lemma build_eta itfs :
  build (AsyncNetworkInterface.base <$> itfs) (AsyncNetworkInterface.datagrams_out <$> itfs) = itfs.
Proof. unfold build. induction itfs as [|[] itfs IH]; [done|]. simpl. by f_equal. Qed.

Lemma build_empty bs n : length bs = n → build bs (replicate n []) = AsyncNetworkInterface.of_interface <$> bs.
Proof. intros <-. unfold build. induction bs as [|b bs IH]; [done|]. simpl. by f_equal. Qed.

Lemma build_lookup bs qs i b q : bs !! i = Some b → qs !! i = Some q →
  build bs qs !! i = Some (AsyncNetworkInterface.mk b q).
Proof. intros Hb Hq. unfold build. by rewrite lookup_zip_with, Hb, Hq. Qed.

Lemma insert_build bs qs i b q : length bs = length qs →
  <[i := AsyncNetworkInterface.mk b q]> (build bs qs) = build (<[i := b]> bs) (<[i := q]> qs).
Proof. intros. unfold build. apply insert_zip_with. Qed.

Lemma forward_length rules bs d bs' : forward rules bs d = Ok bs' → length bs' = length bs.
Proof.
  unfold forward, send_on. destruct (_ <=? _); [by intros [= <-]|]. destruct (best _ _); [|by intros [= <-]].
  destruct (bs !! _); [|done]. intros (b & _ & [= <-])%result_bind_inv. apply length_insert.
Qed.

(** The fields the router reads are in range. *)
Definition routable (d : IPv4Datagram.t) : Prop :=
  0 <= IPv4Header.dst (IPv4Datagram.header d) < two32 ∧ 0 <= IPv4Header.ttl (IPv4Datagram.header d) < two8.

Lemma route_one_forward rules bs qs mps d : answers rules mps → length bs = length qs → routable d →
  route_one_datagram (mk (build bs qs) mps) d = (bs' ← forward rules bs d; Ok (mk (build bs' qs) mps)).
Proof.
  intros [Hlen Ha] Hbq [Hd Ht]. unfold route_one_datagram, forward. set (h := IPv4Datagram.header d) in *.
  destruct (Z.eqb_spec (IPv4Header.ttl h) 0) as [E|E]; [by rewrite E|].
  simpl IPv4Header.ttl. simpl IPv4Header.dst. rewrite uint8_id by lia.
  destruct (Z.eqb_spec (IPv4Header.ttl h - 1) 0), (Z.leb_spec (IPv4Header.ttl h) 1); try lia; [done|].
  cbn [route_mps]. rewrite find_route_scan, result_bind_ok, Ha by (done || lia).
  destruct (best rules _) as [ru|]; [|done]. simpl. destruct (r_entry ru) as [nh k]. simpl.
  assert (match nh with Some a => Ok a | None => Address.from_ipv4_numeric (IPv4Header.dst h) end
    = Ok (default (Address.of_ipv4 (IPv4Header.dst h)) nh)) as ->
    by (destruct nh; [done | apply Address.from_ipv4_numeric_eq]).
  rewrite result_bind_ok. unfold interface, send_on, set_interface. cbn [_interfaces Router.route_mps].
  destruct (bs !! Z.to_nat k) as [b|] eqn:Eb.
  - destruct (lookup_lt_is_Some_2 qs (Z.to_nat k)) as [q Eq]; [apply lookup_lt_Some in Eb; lia|].
    rewrite (build_lookup bs qs _ b q Eb Eq), result_bind_ok. unfold AsyncNetworkInterface.send_datagram. simpl.
    destruct (NetworkInterface.send_datagram _ _ _) as [b'|]; [|done]. simpl.
    by rewrite insert_build, (list_insert_id qs) by done.
  - unfold build. by rewrite lookup_zip_with, Eb.
Qed.

Lemma forward_all_length rules ds : ∀ bs bs', forward_all rules bs ds = Ok bs' → length bs' = length bs.
Proof.
  induction ds as [|d ds IH]; intros bs bs'; simpl; [by intros [= <-]|].
  intros (bs1 & E & E')%result_bind_inv. apply IH in E'. apply forward_length in E. lia.
Qed.

Lemma forward_all_app rules ds1 ds2 : ∀ bs,
  forward_all rules bs (ds1 ++ ds2) = (bs' ← forward_all rules bs ds1; forward_all rules bs' ds2).
Proof.
  induction ds1 as [|d ds1 IH]; intros bs; [done|]. simpl. destruct (forward rules bs d); [|done]. apply IH.
Qed.

(** The inner loop forwards the whole queue of an interface. *)
Lemma router_drain_spec rules mps i q : ∀ bs qs, answers rules mps → length bs = length qs → Forall routable q →
  qs !! i = Some q →
  drain (length q) (mk (build bs qs) mps) i
  = (bs' ← forward_all rules bs q; Ok (mk (build bs' (<[i := []]> qs)) mps)).
Proof.
  induction q as [|d q IH]; intros bs qs Ha Hl Hq Eq; cbn [length drain _interfaces];
    (destruct (lookup_lt_is_Some_2 bs i) as [b Eb]; [apply lookup_lt_Some in Eq; lia|]);
    rewrite (build_lookup bs qs i b _ Eb Eq); simpl.
  - by rewrite list_insert_id.
  - apply Forall_cons in Hq as [Hd Hq]. rewrite (route_one_forward rules) by done.
    destruct (forward rules bs d) as [bs'|] eqn:Ef; [|done]. rewrite !result_bind_ok.
    apply forward_length in Ef. destruct (lookup_lt_is_Some_2 bs' i) as [b' Eb']; [apply lookup_lt_Some in Eb; lia|].
    unfold pop. cbn [_interfaces Router.route_mps]. rewrite (build_lookup bs' qs i b' _ Eb' Eq). simpl.
    rewrite insert_build, (list_insert_id bs') by (done || lia).
    rewrite (IH bs' (<[i := q]> qs)); [|done | rewrite length_insert; lia | done |].
    + by rewrite list_insert_insert_eq.
    + apply list_lookup_insert_eq. apply lookup_lt_Some in Eq. lia.
Qed.

(** The outer loop forwards all the queues in order. *)
Lemma route_loop_spec rules mps n : ∀ bs done_ qs, answers rules mps → length bs = (length done_ + length qs)%nat →
  length qs = n → Forall (Forall routable) qs →
  route_loop n (mk (build bs (done_ ++ qs)) mps) (length done_)
  = (bs' ← forward_all rules bs (concat qs); Ok (mk (build bs' (done_ ++ replicate n [])) mps)).
Proof.
  induction n as [|n IH]; intros bs done_ qs Ha Hl Hn Hq; destruct qs as [|q qs]; try done; simpl.
  apply Forall_cons in Hq as [Hq Hqs]. simpl in *.
  assert ((done_ ++ q :: qs) !! length done_ = Some q) as El by (by rewrite list_lookup_middle).
  destruct (lookup_lt_is_Some_2 bs (length done_)) as [b Eb]; [lia|].
  assert (queue_of (mk (build bs (done_ ++ q :: qs)) mps) (length done_) = q) as ->.
  { unfold queue_of. cbn [_interfaces]. by rewrite (build_lookup bs _ _ b q Eb El). }
  rewrite (router_drain_spec rules mps _ q) by (done || rewrite ?length_app; simpl; lia).
  rewrite forward_all_app. destruct (forward_all rules bs q) as [bs'|] eqn:Ef; [|done]. rewrite !result_bind_ok.
  apply forward_all_length in Ef. rewrite insert_app_r_alt, Nat.sub_diag by done. simpl insert.
  specialize (IH bs' (done_ ++ [[]]) qs Ha). rewrite length_app, Nat.add_1_r, <- !app_assoc in IH. simpl in IH.
  apply IH; [lia | lia | done].
Qed.

Lemma route_forward_all rules itfs mps : answers rules mps →
  Forall (λ a, Forall routable (AsyncNetworkInterface.datagrams_out a)) itfs →
  route (mk itfs mps)
  = (bs ← forward_all rules (AsyncNetworkInterface.base <$> itfs)
            (concat (AsyncNetworkInterface.datagrams_out <$> itfs));
     Ok (mk (AsyncNetworkInterface.of_interface <$> bs) mps)).
Proof.
  intros Ha Hq. unfold route. cbn [_interfaces Router.route_mps]. rewrite <- (build_eta itfs) at 2.
  pose proof (route_loop_spec rules mps (length itfs) (AsyncNetworkInterface.base <$> itfs) []
    (AsyncNetworkInterface.datagrams_out <$> itfs) Ha) as H. simpl in H. rewrite H; clear H;
    [| by rewrite !length_fmap | by rewrite length_fmap | by rewrite Forall_fmap].
  destruct (forward_all _ _ _) as [bs|] eqn:Ef; [|done]. simpl. do 2 f_equal. apply build_empty.
  apply forward_all_length in Ef. by rewrite Ef, length_fmap.
Qed.

(** ** Idle rounds, and rounds with one datagram *)

(** Interfaces with nothing in their queues. *)
Definition drained (itfs : list AsyncNetworkInterface.t) : Prop :=
  Forall (λ a, AsyncNetworkInterface.datagrams_out a = []) itfs.

Lemma drained_interfaces itfs : drained itfs →
  AsyncNetworkInterface.of_interface <$> (AsyncNetworkInterface.base <$> itfs) = itfs.
Proof. induction 1 as [|[b q] l Hq _ IH]; [done|]. simpl in *. subst q. by f_equal. Qed.

Lemma drained_concat itfs : drained itfs → concat (AsyncNetworkInterface.datagrams_out <$> itfs) = [].
Proof. induction 1 as [|a l Ha _ IH]; [done|]. simpl. by rewrite Ha. Qed.

Lemma route_drained rules itfs mps : answers rules mps → drained itfs → route (mk itfs mps) = Ok (mk itfs mps).
Proof.
  intros Ha Hd. rewrite (route_forward_all rules), drained_concat; [|done | done|].
  - simpl. by rewrite drained_interfaces.
  - eapply Forall_impl; [exact Hd|]. by intros a ->.
Qed.

Lemma concat_insert {A} (l : list (list A)) i q : concat l = [] → (i < length l)%nat → concat (<[i := q]> l) = q.
Proof.
  revert i. induction l as [|x l IH]; intros i Hc Hi; [simpl in Hi; lia|].
  apply app_eq_nil in Hc as [-> Hc]. change (concat l = []) in Hc.
  destruct i as [|i]; simpl in *; [by rewrite Hc, app_nil_r|]. apply IH; [done | lia].
Qed.

(** One datagram in the queue of interface [i], forwarded to interface [j]. *)
Lemma route_single rules itfs mps i a d j b : answers rules mps → drained itfs → itfs !! i = Some a → routable d →
  forward rules (AsyncNetworkInterface.base <$> itfs) d = Ok (<[j := b]> (AsyncNetworkInterface.base <$> itfs)) →
  route (mk (<[i := AsyncNetworkInterface.mk (AsyncNetworkInterface.base a) [d]]> itfs) mps)
  = Ok (mk (<[j := AsyncNetworkInterface.of_interface b]> itfs) mps).
Proof.
  intros Ha Hd Ea Hr Hf. rewrite (route_forward_all rules); [|done|].
  - rewrite !list_fmap_insert. cbn [AsyncNetworkInterface.base AsyncNetworkInterface.datagrams_out].
    rewrite concat_insert; [|by apply drained_concat | rewrite length_fmap; by eapply lookup_lt_Some].
    rewrite (list_insert_id (AsyncNetworkInterface.base <$> _)) by (by rewrite list_lookup_fmap, Ea).
    cbn [AsyncNetworkInterface.datagrams_out AsyncNetworkInterface._datagrams_out forward_all].
    rewrite Hf, !result_bind_ok. simpl. by rewrite list_fmap_insert, drained_interfaces.
  - apply Forall_insert; [|by repeat constructor; apply Hr]. eapply Forall_impl; [exact Hd|]. by intros x ->.
Qed.

(** C27: The router performs longest-prefix-match routing.  After any sequence of
    [add_route] calls, [route] takes the waiting datagrams of all interfaces
    in order and leaves the queues empty; it drops a datagram whose time to
    live is exhausted or that no route matches, and gives any other, with
    its time to live decremented, to the interface of the matching route with
    the longest prefix (the last added of the longest), for the route's next
    hop or, on an attached network, for the destination itself. *)
Theorem longest_prefix_match (wide_shift : Z → Z → result Z) (rules : list rule) (itfs : list AsyncNetworkInterface.t) :
  Forall (valid_rule wide_shift) rules →
  Forall (λ a, Forall routable (AsyncNetworkInterface.datagrams_out a)) itfs →
  (∃ r, add_rules wide_shift (mk itfs (route_mps new)) rules = Ok r ∧
    route r
    = (bs ← forward_all rules (AsyncNetworkInterface.base <$> itfs)
              (concat (AsyncNetworkInterface.datagrams_out <$> itfs));
       Ok (mk (AsyncNetworkInterface.of_interface <$> bs) (route_mps r)))) ∧
  ∀ dst, match best rules dst with
    | Some ru => ru ∈ rules ∧ matches dst ru = true ∧
        ∀ ru', ru' ∈ rules → matches dst ru' = true → (r_length ru' <= r_length ru)%nat
    | None => ∀ ru', ru' ∈ rules → matches dst ru' = false
    end.
Proof.
  intros Hv Hq. split; [|apply best_spec].
  destruct (add_rules_answers wide_shift rules (mk itfs (route_mps new)) [] answers_new Hv) as (mps & E & Ha).
  eexists. split; [done|]. by apply route_forward_all.
Qed.

(** ** A small router *)

(** Processors that take the shift count modulo 32. *)
Definition modulo_shift (x n : Z) : result Z := Ok (mask_low x (n mod 32)).

Definition itf1 : NetworkInterface.t :=
  NetworkInterface.new [x02; x00; x00; x00; x01; x01] (Address.of_ipv4 0x0a000001).
Definition itf2 : NetworkInterface.t :=
  NetworkInterface.new [x02; x00; x00; x00; x01; x02] (Address.of_ipv4 0xac100001).

Definition demo_rules : list rule :=
  [Rule 0 0 (Some (Address.of_ipv4 0x0a0000fe), 0); Rule 0xac100000 16 (None, 1);
   Rule 0x0a000000 8 (None, 0); Rule 0xac10ff00 24 (Some (Address.of_ipv4 0xac100002), 1)].

Lemma demo_rules_valid : Forall (valid_rule modulo_shift) demo_rules.
Proof. repeat constructor; simpl; lia. Qed.

Definition demo_itfs : list AsyncNetworkInterface.t :=
  [AsyncNetworkInterface.mk itf1 [IPv4Datagram.demo]; AsyncNetworkInterface.mk itf2 []].

Lemma longest_prefix_match_witness :
  (∃ r, add_rules modulo_shift (mk demo_itfs (route_mps new)) demo_rules = Ok r ∧
    route r
    = (bs ← forward_all demo_rules (AsyncNetworkInterface.base <$> demo_itfs)
              (concat (AsyncNetworkInterface.datagrams_out <$> demo_itfs));
       Ok (mk (AsyncNetworkInterface.of_interface <$> bs) (route_mps r)))) ∧
  ∀ dst, match best demo_rules dst with
    | Some ru => ru ∈ demo_rules ∧ matches dst ru = true ∧
        ∀ ru', ru' ∈ demo_rules → matches dst ru' = true → (r_length ru' <= r_length ru)%nat
    | None => ∀ ru', ru' ∈ demo_rules → matches dst ru' = false
    end.
Proof.
  apply (longest_prefix_match modulo_shift demo_rules demo_itfs); [apply demo_rules_valid|].
  repeat constructor; simpl; lia.
Defined.

(** A rule whose interface exists and whose next hop is an IPv4 address. *)
Definition connected (n : nat) (ru : rule) : Prop :=
  0 <= (r_entry ru).2 < Z.of_nat n ∧
  ∀ a, (r_entry ru).1 = Some a → ∃ ip, 0 <= ip < two32 ∧ a = Address.of_ipv4 ip.

Lemma sendable_ttl d x : IPv4Datagram.sendable d → 0 <= x < two8 →
  IPv4Datagram.sendable (IPv4Datagram.set_header d (IPv4Header.set_ttl (IPv4Datagram.header d) x)).
Proof. intros [[] H] Hx. by constructor; [constructor|]. Qed.

Lemma sendable_routable d : IPv4Datagram.sendable d → routable d.
Proof. intros [[] H]. by split. Qed.

(** Forwarding keeps what [send_datagram] keeps. *)
Definition kept (P : NetworkInterface.t → Prop) : Prop :=
  ∀ b d ip, P b → IPv4Datagram.sendable d → 0 <= ip < two32 →
    ∃ b', NetworkInterface.send_datagram b d (Address.of_ipv4 ip) = Ok b' ∧ P b'.

Lemma forward_total P rules bs d : kept P → Forall P bs → Forall (connected (length bs)) rules →
  IPv4Datagram.sendable d → ∃ bs', forward rules bs d = Ok bs' ∧ Forall P bs'.
Proof.
  intros HP Hbs Hr Hd. destruct (sendable_routable d Hd) as [Hdst Httl]. unfold forward, send_on.
  destruct (Z.leb_spec (IPv4Header.ttl (IPv4Datagram.header d)) 1); [eauto|].
  pose proof (best_spec rules (IPv4Header.dst (IPv4Datagram.header d))) as Hb. destruct (best _ _) as [ru|]; [|eauto].
  destruct Hb as (Hin & _). rewrite Forall_forall in Hr. destruct (Hr ru Hin) as [Hn Hhop].
  destruct (lookup_lt_is_Some_2 bs (Z.to_nat (r_entry ru).2)) as [b Eb]; [lia|]. rewrite Eb.
  assert (∃ ip, 0 <= ip < two32 ∧ default (Address.of_ipv4 (IPv4Header.dst (IPv4Datagram.header d))) (r_entry ru).1
    = Address.of_ipv4 ip) as (ip & Hip & ->) by (destruct ((r_entry ru).1) as [a|]; simpl; eauto).
  destruct (HP b
    (IPv4Datagram.set_header d (IPv4Header.set_ttl (IPv4Datagram.header d) (IPv4Header.ttl (IPv4Datagram.header d) - 1)))
    ip) as (b' & -> & Hb').
  - rewrite Forall_lookup in Hbs. by apply (Hbs _ _ Eb).
  - apply sendable_ttl; [done | lia].
  - done.
  - rewrite result_bind_ok. eexists. split; [done|]. by apply Forall_insert.
Qed.

Lemma forward_all_total P rules ds : kept P → ∀ bs, Forall P bs → Forall (connected (length bs)) rules →
  Forall IPv4Datagram.sendable ds → ∃ bs', forward_all rules bs ds = Ok bs' ∧ Forall P bs'.
Proof.
  intros HP. induction ds as [|d ds IH]; intros bs Hbs Hr Hds; simpl; [eauto|]. apply Forall_cons in Hds as [Hd Hds].
  destruct (forward_total P rules bs d HP Hbs Hr Hd) as (bs1 & E & H1). rewrite E, result_bind_ok.
  apply IH; [done | by rewrite (forward_length _ _ _ _ E) | done].
Qed.

(** A round of the router on such interfaces. *)
Lemma route_total P rules itfs mps : kept P → answers rules mps → Forall (connected (length itfs)) rules →
  Forall (λ a, P (AsyncNetworkInterface.base a) ∧
               Forall IPv4Datagram.sendable (AsyncNetworkInterface.datagrams_out a)) itfs →
  ∃ itfs', route (mk itfs mps) = Ok (mk itfs' mps) ∧ length itfs' = length itfs ∧
    Forall (λ a, P (AsyncNetworkInterface.base a) ∧ AsyncNetworkInterface.datagrams_out a = []) itfs'.
Proof.
  intros HP Ha Hc Hi.
  assert (Forall (λ a, Forall routable (AsyncNetworkInterface.datagrams_out a)) itfs) as Hq.
  { eapply Forall_impl; [exact Hi|]. intros a [_ Hs]. eapply Forall_impl; [exact Hs|]. exact sendable_routable. }
  rewrite (route_forward_all rules itfs mps Ha Hq).
  destruct (forward_all_total P rules (concat (AsyncNetworkInterface.datagrams_out <$> itfs)) HP
    (AsyncNetworkInterface.base <$> itfs)) as (bs & E & Hbs).
  - rewrite Forall_fmap. eapply Forall_impl; [exact Hi|]. by intros a [? _].
  - by rewrite length_fmap.
  - apply Forall_concat. rewrite Forall_fmap. eapply Forall_impl; [exact Hi|]. by intros a [_ ?].
  - rewrite E, result_bind_ok. eexists. split; [done|]. apply forward_all_length in E. rewrite length_fmap in E.
    split; [by rewrite length_fmap|]. rewrite Forall_fmap. eapply Forall_impl; [exact Hbs|]. done.
Qed.

(** The router never throws on the datagrams it is meant for: with routes to
    existing interfaces, interfaces that keep their invariant and datagrams that
    can be serialized, [add_route] and [route] return, and afterwards every
    interface keeps its invariant and has an empty queue. *)
Theorem router_total (wide_shift : Z → Z → result Z) (rules : list rule) (itfs : list AsyncNetworkInterface.t) :
  Forall (valid_rule wide_shift) rules → Forall (connected (length itfs)) rules →
  Forall (λ a, NetworkInterface.inv (AsyncNetworkInterface.base a) ∧
               Forall IPv4Datagram.sendable (AsyncNetworkInterface.datagrams_out a)) itfs →
  ∃ r r', add_rules wide_shift (mk itfs (route_mps new)) rules = Ok r ∧ route r = Ok r' ∧
    length (_interfaces r') = length itfs ∧
    Forall (λ a, NetworkInterface.inv (AsyncNetworkInterface.base a) ∧ AsyncNetworkInterface.datagrams_out a = [])
      (_interfaces r').
Proof.
  intros Hv Hc Hi.
  destruct (add_rules_answers wide_shift rules (mk itfs (route_mps new)) [] answers_new Hv) as (mps & E & Ha).
  destruct (route_total NetworkInterface.inv rules itfs mps) as (itfs' & E' & Hl & Hf);
    [|done | done | done | by exists (mk itfs mps), (mk itfs' mps)].
  intros b d ip Hb Hd Hip. by apply NetworkInterface.send_datagram_spec.
Qed.

Lemma router_total_witness :
  ∃ r r', add_rules modulo_shift (mk demo_itfs (route_mps new)) demo_rules = Ok r ∧ route r = Ok r' ∧
    length (_interfaces r') = length demo_itfs ∧
    Forall (λ a, NetworkInterface.inv (AsyncNetworkInterface.base a) ∧ AsyncNetworkInterface.datagrams_out a = [])
      (_interfaces r').
Proof.
  apply (router_total modulo_shift demo_rules demo_itfs); [apply demo_rules_valid | |].
  - repeat (constructor; [split; [simpl; lia | intros a E; first [discriminate E |
      injection E as <-; eexists; split; [|reflexivity]; lia]]|]).
    constructor.
  - repeat (constructor; [split; [apply NetworkInterface.interface_inv_new; [done | lia]|]|]); [|constructor..].
    repeat constructor; simpl; lia.
Defined.

(** A default route is a shift by 32.  [add_route] with prefix length 0 has
    undefined behaviour, whatever the prefix; and on a processor that takes
    the count modulo 32, a default route given with a nonzero prefix is stored
    where [route_one_datagram] never looks. *)
Theorem default_route_undefined :
  (∀ r prefix next_hop n, add_route (λ _ _, Throw ShiftTooWide) r prefix 0 next_hop n = Throw ShiftTooWide) ∧
  ∃ r, add_route modulo_shift new 0x0a000000 0 None 0 = Ok r ∧
    ∀ dst, 0 <= dst < two32 → find_route 32 (route_mps r) dst = Ok None.
Proof.
  split; [reflexivity|]. eexists. split; [reflexivity|]. intros dst Hd.
  rewrite find_route_scan by (done || simpl; lia).
  set (mps := route_mps _). assert (∀ n, (0 < n)%nat → mps !! n ≫= lookup (key dst n) = None) as Hn.
  { intros n H. do 33 (destruct n as [|n]; [first [lia | reflexivity]|]). reflexivity. }
  assert (∀ n, scan n mps dst = None) as ->; [|done].
  induction n as [|n IH]; unfold scan; fold scan; [done|]. by rewrite Hn by lia.
Qed.

(** One queue with a datagram among empty ones. *)
Lemma concat_one {A} (qs : list (list A)) i d : Forall (λ q, q = []) qs → (i < length qs)%nat → concat (<[i := [d]]> qs) = [d].
Proof.
  assert (∀ l : list (list A), Forall (λ q, q = []) l → concat l = []) as He.
  { induction l as [|q l IH]; [done|]. intros [-> H]%Forall_cons. by apply IH. }
  revert i. induction qs as [|q qs IH]; intros i H Hi; simpl in Hi; [lia|]. apply Forall_cons in H as [-> H].
  destruct i as [|i]; simpl; [by rewrite He|]. apply IH; [done | lia].
Qed.

(** A datagram of another version is put in the queue of the interface that receives it. *)
Lemma other_version_received a h b d res : EthernetHeader.type h = EthernetHeader.TYPE_IPv4 →
  EthernetHeader.dst h = NetworkInterface._ethernet_address (AsyncNetworkInterface.base a) →
  IPv4Datagram.parse IPv4Datagram.new b = Ok (d, res) → res = NoError →
  AsyncNetworkInterface.recv_frame a (EthernetFrame.mk h (BufferList.of_buffer b))
  = Ok (AsyncNetworkInterface.mk (AsyncNetworkInterface.base a) (AsyncNetworkInterface.datagrams_out a ++ [d])).
Proof.
  intros Et Ed Ep ->. unfold AsyncNetworkInterface.recv_frame, NetworkInterface.recv_frame.
  cbn [EthernetFrame.header EthernetFrame._header]. rewrite Et, bool_decide_eq_true_2, Z.eqb_refl by done. simpl andb. cbv iota.
  cbn [EthernetFrame.payload EthernetFrame._payload BufferList.of_buffer BufferList.to_buffer].
  by rewrite result_bind_ok, Ep, result_bind_ok.
Qed.

(** What the parsers say of a datagram of another version whose length is right. *)
Lemma other_version_parsed b d res : Buffer.wf b → IPv4Datagram.parse IPv4Datagram.new b = Ok (d, res) →
  IPv4Header.ver (IPv4Datagram.header d) ≠ 4 →
  BufferList.size (IPv4Datagram.payload d) = IPv4Header.payload_length (IPv4Datagram.header d) →
  (∃ p verdict, IPv4Header.parse IPv4Header.new (NetParser.new b) = Ok (IPv4Datagram.header d, p, verdict) ∧ verdict ≠ NoError) ∧
  res = NoError ∧ routable d.
Proof.
  intros Hb Ep Hver Hsz. pose proof (ParserFacts.after_new b Hb) as Ha.
  destruct (datagram_typed IPv4Datagram.new b Hb) as (d' & r & Ed & Ht & Hout); [by split|].
  rewrite Ep in Ed. injection Ed as <- <-. split; [|split].
  - unfold IPv4Datagram.parse in Ep. change (IPv4Datagram._header IPv4Datagram.new) with IPv4Header.new in Ep.
    destruct (IPv4Header.ip_header_parse_total IPv4Header.new _ _ _ Ha) as (h & p & verdict & E & _); [done|].
    rewrite E, result_bind_ok in Ep. cbv beta iota zeta in Ep.
    assert (IPv4Datagram.header d = h) as Eh by (destruct (negb _); by injection Ep as <- _). rewrite Eh in *.
    exists p, verdict. split; [done|]. by apply (IPv4Header.other_version_refused IPv4Header.new _ _ _ h p verdict Ha eq_refl E).
  - by apply Hout.
  - by destruct Ht.
Qed.

(** The interface [itf] of the router has the address [ip] of the next hop for [dst] in its cache. *)
Definition knows_hop (rules : list rule) (itfs : list AsyncNetworkInterface.t) (dst : Z) : Prop :=
  ∃ ru itf ip age eth, best rules dst = Some ru ∧ itfs !! Z.to_nat (r_entry ru).2 = Some itf ∧
    default (Address.of_ipv4 dst) (r_entry ru).1 = Address.of_ipv4 ip ∧ 0 <= ip < two32 ∧
    NetworkInterface._addr_mp (AsyncNetworkInterface.base itf) !! ip = Some (age, eth) ∧ eth ≠ ETHERNET_BROADCAST.

Lemma forward_other_version rules itfs d : knows_hop rules itfs (IPv4Header.dst (IPv4Datagram.header d)) →
  1 < IPv4Header.ttl (IPv4Datagram.header d) → IPv4Header.ver (IPv4Datagram.header d) ≠ 4 →
  forward rules (AsyncNetworkInterface.base <$> itfs) d = Throw runtime_error.
Proof.
  intros (ru & itf & ip & age & eth & Eb & Ei & Eh & Hip & Ea & Hne) Ht Hv. unfold forward, send_on.
  destruct (Z.leb_spec (IPv4Header.ttl (IPv4Datagram.header d)) 1); [lia|]. rewrite Eb, list_lookup_fmap, Ei, Eh. simpl.
  unfold NetworkInterface.send_datagram. rewrite Address.ipv4_numeric_of_ipv4, result_bind_ok, Ea by done.
  rewrite bool_decide_eq_false_2 by done. simpl negb. cbv iota.
  rewrite IPv4Datagram.other_version_throws; [done|]. exact Hv.
Qed.

(** C40: A datagram of another IP version stops the router.  Take any frame for an interface of the router that holds, as its IPv4 payload, bytes
    that parse to a datagram [d] whose version is not 4, whose
    payload is as long as its header says and whose time to live is above 1.  [IPv4Header::parse] gives an
    error, but [IPv4Datagram::parse] ignores it and gives [NoError], so that
    [recv_frame] puts [d] into the queue; and with empty queues and a route for its destination
    over an interface that has the next hop's Ethernet address in its cache, [route] throws [runtime_error]. *)
Theorem malformed_header_stops_router (wide_shift : Z → Z → result Z) (rules : list rule)
  (itfs : list AsyncNetworkInterface.t) (i : Z) (a : AsyncNetworkInterface.t) (h : EthernetHeader.t)
  (b : Buffer.t) (d : IPv4Datagram.t) (res : ParseResult) :
  Forall (valid_rule wide_shift) rules →
  Forall (λ a, AsyncNetworkInterface.datagrams_out a = []) itfs → itfs !! Z.to_nat i = Some a →
  EthernetHeader.type h = EthernetHeader.TYPE_IPv4 →
  EthernetHeader.dst h = NetworkInterface._ethernet_address (AsyncNetworkInterface.base a) →
  Buffer.wf b → IPv4Datagram.parse IPv4Datagram.new b = Ok (d, res) →
  IPv4Header.ver (IPv4Datagram.header d) ≠ 4 →
  BufferList.size (IPv4Datagram.payload d) = IPv4Header.payload_length (IPv4Datagram.header d) →
  1 < IPv4Header.ttl (IPv4Datagram.header d) →
  knows_hop rules itfs (IPv4Header.dst (IPv4Datagram.header d)) →
  (∃ p verdict, IPv4Header.parse IPv4Header.new (NetParser.new b) = Ok (IPv4Datagram.header d, p, verdict) ∧ verdict ≠ NoError) ∧
  res = NoError ∧
  ∃ r a', add_rules wide_shift (mk itfs (route_mps new)) rules = Ok r ∧
    AsyncNetworkInterface.recv_frame a (EthernetFrame.mk h (BufferList.of_buffer b)) = Ok a' ∧
    AsyncNetworkInterface.datagrams_out a' = [d] ∧
    route (set_interface r i a') = Throw runtime_error.
Proof.
  intros Hv Hq Hi Et Ed Hb Ep Hver Hsz Httl Hk.
  destruct (other_version_parsed b d res Hb Ep Hver Hsz) as (H1 & Hres & Hr). split; [done|]. split; [done|].
  destruct (add_rules_answers wide_shift rules (mk itfs (route_mps new)) [] answers_new Hv) as (mps & E & Ha).
  eexists _, _. split; [exact E|]. split; [by apply (other_version_received a h b d res)|].
  rewrite (Forall_lookup_1 _ _ _ _ Hq Hi). change ([] ++ [d]) with [d]. split; [done|]. unfold set_interface. cbn [_interfaces route_mps].
  assert (Forall (λ q, q = []) (AsyncNetworkInterface.datagrams_out <$> itfs)) as Hq' by by rewrite Forall_fmap.
  pose proof (lookup_lt_Some _ _ _ Hi) as Hlt.
  assert (AsyncNetworkInterface.base <$> <[Z.to_nat i := AsyncNetworkInterface.mk (AsyncNetworkInterface.base a) [d]]> itfs
    = AsyncNetworkInterface.base <$> itfs) as Hbase
    by (rewrite list_fmap_insert; apply list_insert_id; by rewrite list_lookup_fmap, Hi).
  rewrite (route_forward_all rules _ mps Ha), Hbase, list_fmap_insert.
  - cbn [AsyncNetworkInterface.datagrams_out AsyncNetworkInterface._datagrams_out].
    rewrite concat_one by (done || by rewrite length_fmap). simpl. by rewrite forward_other_version.
  - apply Forall_insert; [|by apply Forall_singleton]. eapply Forall_impl; [exact Hq|]. by intros x ->.
Qed.

(** A router that knows 172.16.0.7 behind its second interface, and a datagram of version 6 for it. *)
Definition version6_itfs : list AsyncNetworkInterface.t :=
  AsyncNetworkInterface.of_interface <$> [itf1; NetworkInterface.set_addr_mp itf2 {[ 0xac100007 := (30000, replicate 6 x07) ]}].
Definition version6 : bytes :=
  [x65; x00; x00; x14; x00; x00; x40; x00; x80; x06; x00; x00] ++ replicate 4 x00 ++ [xac; x10; x00; x07].

Lemma malformed_header_stops_router_witness :
  ∃ r a', add_rules modulo_shift (mk version6_itfs (route_mps new)) [Rule 0xac100000 16 (None, 1)] = Ok r ∧
    AsyncNetworkInterface.recv_frame (AsyncNetworkInterface.of_interface itf1)
      (EthernetFrame.mk (EthernetHeader.mk [x02; x00; x00; x00; x01; x01] (replicate 6 x07) EthernetHeader.TYPE_IPv4)
        (BufferList.of_buffer (Buffer.of_string version6))) = Ok a' ∧
    route (set_interface r 0 a') = Throw runtime_error.
Proof.
  destruct (malformed_header_stops_router modulo_shift [Rule 0xac100000 16 (None, 1)] version6_itfs 0
    (AsyncNetworkInterface.of_interface itf1)
    (EthernetHeader.mk [x02; x00; x00; x00; x01; x01] (replicate 6 x07) EthernetHeader.TYPE_IPv4)
    (Buffer.of_string version6)
    (IPv4Datagram.mk (IPv4Header.mk 6 5 0 20 0 true false 0 128 6 0 0 0xac100007) (BufferList.of_buffer (Buffer.mk None 20))) NoError)
    as (_ & _ & r & a' & H1 & H2 & _ & H3); [.. | exists r, a'; exact (conj H1 (conj H2 H3))].
  - repeat constructor; simpl; lia.
  - repeat constructor.
  - reflexivity.
  - reflexivity.
  - reflexivity.
  - apply Buffer.wf_of_string. reflexivity.
  - vm_compute. reflexivity.
  - discriminate.
  - reflexivity.
  - simpl; lia.
  - exists (Rule 0xac100000 16 (None, 1)), (AsyncNetworkInterface.of_interface
      (NetworkInterface.set_addr_mp itf2 {[ 0xac100007 := (30000, replicate 6 x07) ]})), 0xac100007, 30000, (replicate 6 x07).
    split; [vm_compute; reflexivity|]. split; [reflexivity|]. split; [reflexivity|]. split; [lia|].
    split; [apply lookup_singleton_eq | discriminate].
Defined.

End Router.
