(* ===== verification/network_simulator.v ===== *)
(** * The network simulator (src/lab/apps/network_simulator.cc)

    A router with seven interfaces, six hosts, and the wires between them.  The
    program sends datagrams between hosts, lets the network run for 256 rounds
    and checks that each host has received exactly what it expected.

    The theorems: the rounds never throw, whatever is on its way; a host's check is the
    comparison of two multisets; and a datagram sent from an attached host
    to another, through the router, with the address resolutions this
    takes, arrives within the rounds the program allows, also
    between the two hosts that share a wire.  The lines of progress are left out; the text of a frame is in frame_summary. *)

From stdpp Require Import gmap strings.
From S2P Require Import Prelude buffer parser util ipv4 ethernet address network_interface router.

(** The six values that [rd()] gives to a call. *)
Definition random_bytes (rd : nat → Z) : EthernetAddress := (λ i, byte_of (rd i)) <$> seq 0 6.

Definition random_host_ethernet_address (rd : nat → Z) : EthernetAddress :=
  let addr := random_bytes rd in
  <[0%nat := byte_of (Z.land (Z.lor (byte_val (nth 0 addr x00)) 0x02) 0xfe)]> addr.

Definition random_router_ethernet_address (rd : nat → Z) : EthernetAddress :=
  <[2%nat := x00]> (<[1%nat := x00]> (<[0%nat := x02]> (random_bytes rd))).

(** [clear(queue1, queue2)]: [queue2] afterwards ([queue1] is empty). *)
Fixpoint clear {A} (queue1 queue2 : list A) : result (list A) :=
  match queue1 with
  | [] => Ok queue2
  | _ :: queue1 => match queue2 with [] => Throw EmptyQueue | _ :: queue2 => clear queue1 queue2 end
  end.

(** ** The hosts *)

Module Host.

Record t := mk {
  _name : string;
  _my_address : Address.t;
  _interface : AsyncNetworkInterface.t;
  _next_hop : Address.t;
  _expecting_to_receive : list IPv4Datagram.t
}.

Definition new (name : string) (my_address next_hop : Address.t) (rd : nat → Z) : t :=
  mk name my_address
    (AsyncNetworkInterface.of_interface (NetworkInterface.new (random_host_ethernet_address rd) my_address)) next_hop [].

Definition set_interface (h : t) (a : AsyncNetworkInterface.t) : t :=
  mk (_name h) (_my_address h) a (_next_hop h) (_expecting_to_receive h).
Definition set_expecting (h : t) (l : list IPv4Datagram.t) : t :=
  mk (_name h) (_my_address h) (_interface h) (_next_hop h) l.

(** [x.serialize().concatenate()]. *)
Definition image (d : IPv4Datagram.t) : result bytes := l ← IPv4Datagram.serialize d; Ok (BufferList.concatenate l).

Fixpoint expecting_loop (l : list IPv4Datagram.t) (expected : IPv4Datagram.t) : result bool :=
  match l with
  | [] => Ok false
  | x :: l => a ← image x; b ← image expected; if bool_decide (a = b) then Ok true else expecting_loop l expected
  end.
Definition expecting (h : t) (expected : IPv4Datagram.t) : result bool :=
  expecting_loop (_expecting_to_receive h) expected.

Fixpoint remove_loop (l : list IPv4Datagram.t) (expected : IPv4Datagram.t) : result (list IPv4Datagram.t) :=
  match l with
  | [] => Ok []
  | x :: l' =>
      a ← image x; b ← image expected;
      if bool_decide (a = b) then Ok l' else l' ← remove_loop l' expected; Ok (x :: l')
  end.
Definition remove_expectation (h : t) (expected : IPv4Datagram.t) : result t :=
  l ← remove_loop (_expecting_to_receive h) expected; Ok (set_expecting h l).

(** [random] is the value of [rd()]. *)
Definition random_payload (random : Z) : bytes :=
  text "random payload: {" ++ Address.to_string random ++ text "}".

Definition send_to (h : t) (destination : Address.t) (ttl random : Z) : result (t * IPv4Datagram.t) :=
  src ← Address.ipv4_numeric (_my_address h);
  dst ← Address.ipv4_numeric destination;
  let hd := IPv4Header.set_dst (IPv4Header.set_src IPv4Header.new src) dst in
  let payload := BufferList.of_string (random_payload random) in
  let hd := IPv4Header.set_len hd (uint16 (IPv4Header.hlen hd * 4 + BufferList.size payload)) in
  let hd := IPv4Header.set_ttl hd ttl in
  let dgram := IPv4Datagram.mk hd payload in
  a ← AsyncNetworkInterface.send_datagram (_interface h) dgram (_next_hop h);
  Ok (set_interface h a, dgram).

Definition expect (h : t) (expected : IPv4Datagram.t) : t :=
  set_expecting h (_expecting_to_receive h ++ [expected]).

(** The [while] loop of [check] over the queue [q] of received datagrams. *)
Fixpoint check_loop (q : list IPv4Datagram.t) (h : t) : result t :=
  match q with
  | [] => Ok h
  | d :: q =>
      ok ← expecting h d;
      if negb ok then Throw runtime_error
      else
        h ← remove_expectation h d;
        check_loop q (set_interface h (AsyncNetworkInterface.mk (AsyncNetworkInterface.base (_interface h)) q))
  end.
Definition check (h : t) : result t :=
  h ← check_loop (AsyncNetworkInterface.datagrams_out (_interface h)) h;
  if negb (bool_decide (_expecting_to_receive h = [])) then Throw runtime_error else Ok h.

(** ** A check compares two multisets *)

(** What a host compares of a datagram that can be serialized. *)
Definition bytes_of (d : IPv4Datagram.t) : bytes := match image d with Ok b => b | Throw _ => [] end.

Lemma image_ok d : IPv4Datagram.sendable d → image d = Ok (bytes_of d).
Proof.
  intros Hd. unfold bytes_of, image. destruct (IPv4Datagram.datagram_serialize_wire d Hd) as (v & l & -> & _).
  by rewrite result_bind_ok.
Qed.

(** The checksum of the header does not matter. *)
Lemma image_arrived d d' v : IPv4Datagram.header d' = IPv4Header.set_cksum (IPv4Datagram.header d) v →
  IPv4Datagram.sendable d → IPv4Datagram.sendable d' →
  BufferList.concatenate (IPv4Datagram.payload d') = BufferList.concatenate (IPv4Datagram.payload d) →
  image d' = image d.
Proof.
  intros Hh Hs Hs' Hp.
  assert (∀ d, IPv4Datagram.sendable d → image d
    = (header_zero_checksum ← IPv4Header.serialize (IPv4Header.set_cksum (IPv4Datagram.header d) 0);
       v ← InternetChecksum.value (InternetChecksum.add (InternetChecksum.new 0) header_zero_checksum);
       h ← IPv4Header.serialize (IPv4Header.set_cksum (IPv4Datagram.header d) v);
       Ok (h ++ BufferList.concatenate (IPv4Datagram.payload d)))) as H.
  { intros e He. unfold image, IPv4Datagram.serialize. destruct (IPv4Datagram.sendable_payload_length e He) as [E _].
    unfold IPv4Datagram.payload, IPv4Datagram.header in *. rewrite E, Z.eqb_refl. simpl negb. cbv iota zeta.
    destruct (IPv4Header.serialize _) as [z|]; [|done]. rewrite !result_bind_ok.
    destruct (InternetChecksum.value _) as [w|]; [|done]. rewrite !result_bind_ok.
    change (IPv4Header.set_cksum (IPv4Header.set_cksum (IPv4Datagram._header e) 0) w)
      with (IPv4Header.set_cksum (IPv4Datagram._header e) w).
    destruct (IPv4Header.serialize _) as [h|]; [|done]. rewrite !result_bind_ok.
    by rewrite !BufferList.concatenate_append, BufferList.concatenate_string. }
  rewrite !H by done. rewrite Hh, Hp. reflexivity.
Qed.

Lemma expecting_spec l d : Forall IPv4Datagram.sendable l → IPv4Datagram.sendable d →
  expecting_loop l d = Ok (bool_decide (bytes_of d ∈ bytes_of <$> l)).
Proof.
  intros Hl Hd. induction Hl as [|x l Hx _ IH]; cbn [expecting_loop].
  { rewrite bool_decide_eq_false_2; [done | by intros ?%elem_of_nil]. }
  rewrite !image_ok, !result_bind_ok by done.
  destruct (decide (bytes_of x = bytes_of d)) as [E|E];
    [rewrite (bool_decide_eq_true_2 (_ = _)) by done | rewrite (bool_decide_eq_false_2 (_ = _)) by done].
  - rewrite bool_decide_eq_true_2; [done|]. rewrite fmap_cons, E. by left.
  - rewrite IH. f_equal. apply bool_decide_ext. rewrite fmap_cons, elem_of_cons. split; [by right|]. intros [?|?]; congruence.
Qed.

Lemma remove_spec l d : Forall IPv4Datagram.sendable l → IPv4Datagram.sendable d → bytes_of d ∈ bytes_of <$> l →
  ∃ l', remove_loop l d = Ok l' ∧ bytes_of <$> l ≡ₚ bytes_of d :: (bytes_of <$> l') ∧ Forall IPv4Datagram.sendable l'.
Proof.
  intros Hl Hd. induction Hl as [|x l Hx Hl IH]; cbn [remove_loop]; [by intros ?%elem_of_nil|].
  rewrite !image_ok, !result_bind_ok by done. case_bool_decide as E.
  - intros _. exists l. rewrite fmap_cons, E. done.
  - rewrite fmap_cons, elem_of_cons. intros [?|Hin]; [done|]. destruct (IH Hin) as (l' & -> & Hp & Hf).
    rewrite result_bind_ok. exists (x :: l'). split; [done|]. split; [|by constructor].
    rewrite !fmap_cons, Hp. apply Permutation_swap.
Qed.

(** The host after a check that succeeds. *)
Definition satisfied (h : t) : t :=
  set_expecting (set_interface h (AsyncNetworkInterface.of_interface (AsyncNetworkInterface.base (_interface h)))) [].

Definition with_queue (h : t) (q : list IPv4Datagram.t) : t :=
  set_interface h (AsyncNetworkInterface.mk (AsyncNetworkInterface.base (_interface h)) q).

Lemma check_loop_spec q : ∀ h, Forall IPv4Datagram.sendable q → Forall IPv4Datagram.sendable (_expecting_to_receive h) →
  AsyncNetworkInterface.datagrams_out (_interface h) = q →
  match check_loop q h with
  | Ok h' => ∃ e, h' = set_expecting (with_queue h []) e ∧
      bytes_of <$> _expecting_to_receive h ≡ₚ (bytes_of <$> q) ++ (bytes_of <$> e)
  | Throw f => f = runtime_error ∧ ¬ (bytes_of <$> q) ⊆+ (bytes_of <$> _expecting_to_receive h)
  end.
Proof.
  induction q as [|d q IH]; intros h Hq He Eq; cbn [check_loop].
  { exists (_expecting_to_receive h). split; [|done]. destruct h as [? ? [b q] ? ?]. simpl in *. by subst q. }
  apply Forall_cons in Hq as [Hd Hq]. unfold expecting. rewrite expecting_spec, result_bind_ok by done.
  case_bool_decide as Hin; simpl negb; cbv iota.
  - unfold remove_expectation. destruct (remove_spec _ d He Hd Hin) as (l' & -> & Hp & Hl').
    rewrite !result_bind_ok. set (h1 := with_queue (set_expecting h l') q).
    specialize (IH h1 Hq Hl' eq_refl). change (set_interface _ _) with h1. destruct (check_loop q h1) as [h'|f].
    + destruct IH as (e & -> & Hpe). exists e. split; [done|]. rewrite Hp. simpl in Hpe. rewrite Hpe. done.
    + destruct IH as [-> Hn]. split; [done|]. rewrite fmap_cons, Hp. intros Hs. apply Hn.
      apply submseteq_cons_l in Hs as (k' & Hk%(Permutation_cons_inv) & Hs). simpl. by rewrite Hk.
  - split; [done|]. intros Hs. apply Hin. eapply elem_of_submseteq; [|exact Hs]. rewrite fmap_cons. by left.
Qed.

Lemma check_multiset h : Forall IPv4Datagram.sendable (AsyncNetworkInterface.datagrams_out (_interface h)) →
  Forall IPv4Datagram.sendable (_expecting_to_receive h) →
  let received := bytes_of <$> AsyncNetworkInterface.datagrams_out (_interface h) in
  let expected := bytes_of <$> _expecting_to_receive h in
  (received ≡ₚ expected → check h = Ok (satisfied h)) ∧ (¬ received ≡ₚ expected → check h = Throw runtime_error).
Proof.
  intros Hq He received expected. unfold check.
  pose proof (check_loop_spec _ h Hq He eq_refl) as H. fold received expected in H.
  destruct (check_loop _ h) as [h'|f].
  - destruct H as (e & -> & Hp). rewrite !result_bind_ok. destruct e as [|d e]; simpl in *.
    + rewrite app_nil_r in Hp. split; [done|]. intros []. by symmetry.
    + split; [|done]. intros E. apply Permutation_length in Hp. apply Permutation_length in E.
      rewrite length_app in Hp. simpl in Hp. lia.
  - destruct H as [-> Hn]. split; [|done]. intros E. destruct Hn. by rewrite E.
Qed.

End Host.

(** ** The wires *)

Module Network.

Definition frames (a : AsyncNetworkInterface.t) : list EthernetFrame.t := NetworkInterface.frames_out (AsyncNetworkInterface.base a).
Definition set_frames (a : AsyncNetworkInterface.t) (q : list EthernetFrame.t) : AsyncNetworkInterface.t :=
  AsyncNetworkInterface.mk (NetworkInterface.set_frames_out (AsyncNetworkInterface.base a) q)
    (AsyncNetworkInterface._datagrams_out a).

(** The frame as it travels, its payload in one piece. *)
Definition on_wire (f : EthernetFrame.t) : EthernetFrame.t :=
  EthernetFrame.mk (EthernetFrame.header f) (BufferList.of_string (BufferList.concatenate (EthernetFrame.payload f))).

Fixpoint deliver (to_send : list EthernetFrame.t) (dst : AsyncNetworkInterface.t) : result AsyncNetworkInterface.t :=
  match to_send with
  | [] => Ok dst
  | f :: to_send => dst ← AsyncNetworkInterface.recv_frame dst (on_wire f); deliver to_send dst
  end.

(** [clear(q, a.frames_out())]. *)
Definition clear_frames (q : list EthernetFrame.t) (a : AsyncNetworkInterface.t) : result AsyncNetworkInterface.t :=
  q ← clear q (frames a); Ok (set_frames a q).

(** [exchange_frames] on two and on three interfaces. *)
Definition exchange (x y : AsyncNetworkInterface.t) : result (AsyncNetworkInterface.t * AsyncNetworkInterface.t) :=
  let x_frames := frames x in
  let y_frames := frames y in
  y ← deliver x_frames y;
  x ← deliver y_frames x;
  x ← clear_frames x_frames x;
  y ← clear_frames y_frames y;
  Ok (x, y).

Definition exchange3 (x y z : AsyncNetworkInterface.t) : result (AsyncNetworkInterface.t * AsyncNetworkInterface.t * AsyncNetworkInterface.t) :=
  let x_frames := frames x in
  let y_frames := frames y in
  let z_frames := frames z in
  y ← deliver x_frames y;
  z ← deliver x_frames z;
  x ← deliver y_frames x;
  z ← deliver y_frames z;
  x ← deliver z_frames x;
  y ← deliver z_frames y;
  x ← clear_frames x_frames x;
  y ← clear_frames y_frames y;
  z ← clear_frames z_frames z;
  Ok (x, y, z).

(** ** The network *)

Record t := mk {
  _router : Router.t;
  default_id : Z; eth0_id : Z; eth1_id : Z; eth2_id : Z; uun3_id : Z; hs4_id : Z; mit5_id : Z;
  _hosts : gmap string Host.t
}.

Definition set_router (n : t) (r : Router.t) : t :=
  mk r (default_id n) (eth0_id n) (eth1_id n) (eth2_id n) (uun3_id n) (hs4_id n) (mit5_id n) (_hosts n).
Definition set_hosts (n : t) (hs : gmap string Host.t) : t :=
  mk (_router n) (default_id n) (eth0_id n) (eth1_id n) (eth2_id n) (uun3_id n) (hs4_id n) (mit5_id n) hs.

Definition host (n : t) (name : string) : result Host.t :=
  match _hosts n !! name with
  | None => Throw runtime_error
  | Some h => if negb (bool_decide (Host._name h = name)) then Throw runtime_error else Ok h
  end.

(** Writing through the references that [interface] and [host] return. *)
Definition put_interface (n : t) (id : Z) (a : AsyncNetworkInterface.t) : t := set_router n (Router.set_interface (_router n) id a).
Definition put_host (n : t) (name : string) (h : Host.t) : t := set_hosts n (<[name := h]> (_hosts n)).
Definition put_host_interface (n : t) (name : string) (a : AsyncNetworkInterface.t) : t :=
  set_hosts n (alter (λ h, Host.set_interface h a) name (_hosts n)).

(** A wire between an interface of the router and one or two hosts. *)
Definition wire (n : t) (id : Z) (name : string) : result t :=
  x ← Router.interface (_router n) id;
  h ← host n name;
  '(x, y) ← exchange x (Host._interface h);
  Ok (put_host_interface (put_interface n id x) name y).
Definition wire3 (n : t) (id : Z) (name1 name2 : string) : result t :=
  x ← Router.interface (_router n) id;
  h1 ← host n name1;
  h2 ← host n name2;
  '(x, y, z) ← exchange3 x (Host._interface h1) (Host._interface h2);
  Ok (put_host_interface (put_host_interface (put_interface n id x) name1 y) name2 z).

Definition simulate_physical_connections (n : t) : result t :=
  n ← wire n (default_id n) "default_router";
  n ← wire n (eth0_id n) "applesauce";
  n ← wire n (eth2_id n) "cherrypie";
  n ← wire n (hs4_id n) "hs_router";
  wire3 n (uun3_id n) "dm42" "dm43".

(** One turn of the loop of [simulate], and [k] turns. *)
Definition round (n : t) : result t :=
  r ← Router.route (_router n); simulate_physical_connections (set_router n r).
Fixpoint rounds (k : nat) (n : t) : result t :=
  match k with O => Ok n | S k => n ← round n; rounds k n end.

(** The hosts in the order in which the map gives them. *)
Fixpoint check_all (l : list (string * Host.t)) (n : t) : result t :=
  match l with
  | [] => Ok n
  | (name, h) :: l => h ← Host.check h; check_all l (put_host n name h)
  end.

Definition simulate (n : t) : result t := n ← rounds 256 n; check_all (map_to_list (_hosts n)) n.

(** [host(name).send_to(destination, ttl)] and [host(name).expect(expected)]. *)
Definition send_to (n : t) (name : string) (destination : Address.t) (ttl random : Z) : result (t * IPv4Datagram.t) :=
  h ← host n name; '(h, d) ← Host.send_to h destination ttl random; Ok (put_host n name h, d).
Definition expect (n : t) (name : string) (expected : IPv4Datagram.t) : result t :=
  h ← host n name; Ok (put_host n name (Host.expect h expected)).

(** [dgram_sent.header().ttl--]. *)
Definition decrement (d : IPv4Datagram.t) : IPv4Datagram.t :=
  IPv4Datagram.set_header d
    (IPv4Header.set_ttl (IPv4Datagram.header d) (uint8 (IPv4Header.ttl (IPv4Datagram.header d) - 1))).

Section Construction.
Context `{Address.Resolver} (wide_shift : Z → Z → result Z).

(** [Address{str}], with the default port, and [ip(str)]. *)
Definition address (s : string) : result Address.t := Address.of_ip_port (text s) 0.
Definition ip (s : string) : result Z := a ← address s; Address.ipv4_numeric a.

Definition add_interface (r : Router.t) (rd : nat → Z) (s : string) : result (Router.t * Z) :=
  a ← address s;
  Ok (Router.add_interface r
        (AsyncNetworkInterface.of_interface (NetworkInterface.new (random_router_ethernet_address rd) a))).

Definition insert_host (hs : gmap string Host.t) (name my next : string) (rd : nat → Z) : result (gmap string Host.t) :=
  my ← address my; next ← address next;
  Ok (match hs !! name with Some _ => hs | None => <[name := Host.new name my next rd]> hs end).

Definition add_route (n : t) (prefix : string) (prefix_length : Z) (next_hop : option Address.t) (id : Z) : result t :=
  p ← ip prefix; r ← Router.add_route wide_shift (_router n) p prefix_length next_hop id; Ok (set_router n r).

(** [rd k] is the [k]-th value of the generator; an Ethernet address takes six. *)
Definition after (rd : nat → Z) (k : nat) : nat → Z := λ i, rd (k + i)%nat.

Definition new (rd : nat → Z) : result t :=
  '(r, default_id) ← add_interface Router.new rd "171.67.76.46";
  '(r, eth0_id) ← add_interface r (after rd 6) "10.0.0.1";
  '(r, eth1_id) ← add_interface r (after rd 12) "172.16.0.1";
  '(r, eth2_id) ← add_interface r (after rd 18) "192.168.0.1";
  '(r, uun3_id) ← add_interface r (after rd 24) "198.178.229.1";
  '(r, hs4_id) ← add_interface r (after rd 30) "143.195.0.2";
  '(r, mit5_id) ← add_interface r (after rd 36) "128.30.76.255";
  hs ← insert_host ∅ "applesauce" "10.0.0.2" "10.0.0.1" (after rd 42);
  hs ← insert_host hs "default_router" "171.67.76.1" "0" (after rd 48);
  hs ← insert_host hs "cherrypie" "192.168.0.2" "192.168.0.1" (after rd 54);
  hs ← insert_host hs "hs_router" "143.195.0.1" "0" (after rd 60);
  hs ← insert_host hs "dm42" "198.178.229.42" "198.178.229.1" (after rd 66);
  hs ← insert_host hs "dm43" "198.178.229.43" "198.178.229.1" (after rd 72);
  let n := mk r default_id eth0_id eth1_id eth2_id uun3_id hs4_id mit5_id hs in
  d ← host n "default_router";
  n ← add_route n "0.0.0.0" 0 (Some (Host._my_address d)) default_id;
  n ← add_route n "10.0.0.0" 8 None eth0_id;
  n ← add_route n "172.16.0.0" 16 None eth1_id;
  n ← add_route n "192.168.0.0" 24 None eth2_id;
  n ← add_route n "198.178.229.0" 24 None uun3_id;
  d ← host n "hs_router";
  n ← add_route n "143.195.0.0" 17 (Some (Host._my_address d)) hs4_id;
  n ← add_route n "143.195.128.0" 18 (Some (Host._my_address d)) hs4_id;
  n ← add_route n "143.195.192.0" 19 (Some (Host._my_address d)) hs4_id;
  mit ← address "128.30.0.1";
  add_route n "128.30.76.255" 16 (Some mit) mit5_id.

(** A test: [from] sends to a destination, [to] expects the datagram with its time to live decremented. *)
Definition expect_delivery (n : t) (from : string) (destination : Address.t) (to : string) (random : Z) : result t :=
  '(n, dgram_sent) ← send_to n from destination 64 random;
  n ← expect n to (decrement dgram_sent);
  simulate n.

(** A test of the time to live: no host expects anything. *)
Definition expect_drop (n : t) (from : string) (destination : Address.t) (ttl random : Z) : result t :=
  '(n, _) ← send_to n from destination ttl random; simulate n.

Definition network_simulator (rd : nat → Z) : result t :=
  n ← new rd;
  cherrypie ← host n "cherrypie";
  n ← expect_delivery n "applesauce" (Host._my_address cherrypie) "cherrypie" (rd 78%nat);
  applesauce ← host n "applesauce";
  n ← expect_delivery n "cherrypie" (Host._my_address applesauce) "applesauce" (rd 79%nat);
  a ← address "1.2.3.4";
  n ← expect_delivery n "applesauce" a "default_router" (rd 80%nat);
  a ← address "143.195.131.17";
  n ← expect_delivery n "applesauce" a "hs_router" (rd 81%nat);
  a ← address "143.195.193.52";
  n ← expect_delivery n "cherrypie" a "hs_router" (rd 82%nat);
  a ← address "143.195.223.255";
  n ← expect_delivery n "cherrypie" a "hs_router" (rd 83%nat);
  a ← address "143.195.224.0";
  n ← expect_delivery n "cherrypie" a "default_router" (rd 84%nat);
  dm43 ← host n "dm43";
  n ← expect_delivery n "dm42" (Host._my_address dm43) "dm43" (rd 85%nat);
  a ← address "1.2.3.4";
  n ← expect_drop n "applesauce" a 1 (rd 86%nat);
  a ← address "1.2.3.4";
  expect_drop n "applesauce" a 0 (rd 87%nat).

(** The status of the program. *)
Definition main (rd : nat → Z) : result Z := status_of (network_simulator rd).

End Construction.

(** ** The rounds never throw

    Every frame in a queue is a serialized datagram or ARP message. *)

Definition good_frame (f : EthernetFrame.t) : Prop :=
  EthernetHeader.valid (EthernetFrame.header f) ∧
  ((EthernetHeader.type (EthernetFrame.header f) = EthernetHeader.TYPE_IPv4 ∧
    ∃ d, IPv4Datagram.sendable d ∧ IPv4Datagram.serialize d = Ok (EthernetFrame.payload f)) ∨
   (EthernetHeader.type (EthernetFrame.header f) = EthernetHeader.TYPE_ARP ∧
    ∃ m, ARPMessage.valid m ∧ ARPMessage.supported m = true ∧
      EthernetFrame.payload f = BufferList.of_string (ARPMessage.wire m))).

Record good_base (b : NetworkInterface.t) : Prop := {
  g_inv : NetworkInterface.inv b;
  g_frames : Forall good_frame (NetworkInterface.frames_out b) }.

Record good (a : AsyncNetworkInterface.t) : Prop := {
  g_base : good_base (AsyncNetworkInterface.base a);
  g_queue : Forall IPv4Datagram.sendable (AsyncNetworkInterface.datagrams_out a) }.

(** [b'] has queued frames behind those of [b]. *)
Definition queues_behind (b b' : NetworkInterface.t) : Prop :=
  good_base b' ∧ NetworkInterface.frames_out b `prefix_of` NetworkInterface.frames_out b'.

Lemma good_push b f : NetworkInterface.inv b → Forall good_frame (NetworkInterface.frames_out b) → good_frame f →
  queues_behind b (NetworkInterface.push_frame b f).
Proof.
  intros [] Hf Hg. split; [|by eexists]. constructor; [by constructor|]. apply Forall_app. split; [done|]. by constructor.
Qed.

Lemma good_ipv4_frame b d eth l : NetworkInterface.inv b → IPv4Datagram.sendable d → length eth = 6%nat →
  IPv4Datagram.serialize d = Ok l → good_frame (NetworkInterface.frame b EthernetHeader.TYPE_IPv4 eth l).
Proof.
  intros [] Hd He El. split; [by constructor|]. left. split; [done|]. by exists d.
Qed.

Lemma good_arp_frame b m eth : NetworkInterface.inv b → length eth = 6%nat → ARPMessage.valid m →
  ARPMessage.supported m = true →
  good_frame (NetworkInterface.frame b EthernetHeader.TYPE_ARP eth (BufferList.of_string (ARPMessage.wire m))).
Proof. intros [] He Hv Hs. split; [by constructor|]. right. split; [done|]. by exists m. Qed.

Lemma send_good b d ip : good_base b → IPv4Datagram.sendable d → 0 <= ip < two32 →
  ∃ b', NetworkInterface.send_datagram b d (Address.of_ipv4 ip) = Ok b' ∧ queues_behind b b'.
Proof.
  intros [Hi Hf] Hd Hip. destruct (NetworkInterface.send_datagram_spec b d ip Hi Hd Hip) as (b' & E & Hi').
  exists b'. split; [done|]. revert E. unfold NetworkInterface.send_datagram.
  rewrite Address.ipv4_numeric_of_ipv4, result_bind_ok by done.
  destruct (NetworkInterface._addr_mp b !! ip) as [[age eth]|] eqn:Em.
  - destruct (negb _); [|intros [= <-]; by split].
    intros (l & El & [= <-])%result_bind_inv. apply good_push; [done | done|].
    apply (good_ipv4_frame b d); [done | done | by apply (NetworkInterface.i_age _ Hi) in Em as [_ ?] | done].
  - destruct (NetworkInterface.i_ip _ Hi) as (my & Hmy & Emy).
    rewrite Emy, Address.ipv4_numeric_of_ipv4, result_bind_ok, ARPMessage.arp_serialize_wire, result_bind_ok by done.
    intros [= <-]. split; [|by eexists]. constructor; [done|]. apply Forall_app. split; [done|].
    constructor; [|done]. apply good_arp_frame; [done | done | | done].
    constructor; simpl; [apply Hi | done | done | done].
Qed.

Lemma learn_good b ip eth : good_base b → length eth = 6%nat →
  ∃ b', NetworkInterface.learn b ip eth = Ok b' ∧ queues_behind b b'.
Proof.
  intros [Hi Hf] He. destruct (NetworkInterface.interface_learn_spec b ip eth Hi He) as (b' & E & Hi'). exists b'. split; [done|].
  revert E. unfold NetworkInterface.learn. simpl NetworkInterface._data_mp.
  destruct (NetworkInterface._data_mp b !! ip) as [d|] eqn:Ed; [|intros [= <-]; by split].
  destruct (NetworkInterface.i_data _ Hi ip d Ed) as [Hd _].
  intros (l & El & [= <-])%result_bind_inv. split; [|by eexists]. constructor; [done|].
  apply Forall_app. split; [done|]. constructor; [|done]. by apply (good_ipv4_frame b d).
Qed.

Lemma recv_arp_good b m : good_base b → ARPMessage.valid m →
  ∃ b', NetworkInterface.recv_arp b m = Ok b' ∧ queues_behind b b'.
Proof.
  intros Hg Hv. unfold NetworkInterface.recv_arp.
  destruct (learn_good b (ARPMessage.sender_ip_address m) (ARPMessage.sender_ethernet_address m) Hg) as (b1 & -> & Hb1);
    [apply Hv|]. rewrite result_bind_ok. destruct (_ =? _); [|by exists b1].
  destruct Hb1 as [[Hi1 Hf1] Hp]. destruct (NetworkInterface.i_ip _ Hi1) as (my & Hmy & ->).
  rewrite Address.ipv4_numeric_of_ipv4, result_bind_ok by done. destruct (_ =? _); [|by exists b1].
  rewrite ARPMessage.arp_serialize_wire, result_bind_ok by done. eexists. split; [done|].
  destruct (good_push b1 (NetworkInterface.frame b1 EthernetHeader.TYPE_ARP (ARPMessage.sender_ethernet_address m)
    (BufferList.of_string (ARPMessage.wire (ARPMessage.mk ARPMessage.TYPE_ETHERNET EthernetHeader.TYPE_IPv4 6 4
       ARPMessage.OPCODE_REPLY (NetworkInterface._ethernet_address b1) (ARPMessage.target_ip_address m)
       (ARPMessage.sender_ethernet_address m) (ARPMessage.sender_ip_address m)))))) as [H1 H2]; [done | done | |].
  - apply good_arp_frame; [done | apply Hv | | done]. constructor; simpl; [apply Hi1 | apply Hv..].
  - split; [done|]. by etrans.
Qed.

Lemma on_wire_buffer f : len (BufferList.concatenate (EthernetFrame.payload f)) < two64 →
  ∃ b, BufferList.to_buffer (EthernetFrame.payload (on_wire f)) = Ok b ∧ Buffer.wf b ∧
    Buffer.str b = BufferList.concatenate (EthernetFrame.payload f).
Proof.
  intros Hl. exists (Buffer.of_string (BufferList.concatenate (EthernetFrame.payload f))).
  split; [done|]. split; [by apply Buffer.wf_of_string | apply Buffer.str_of_string].
Qed.

(** The datagram a frame delivers is the one that was sent. *)
Definition arrived (d d' : IPv4Datagram.t) : Prop :=
  IPv4Datagram.sendable d' ∧
  (∃ v, IPv4Datagram.header d' = IPv4Header.set_cksum (IPv4Datagram.header d) v) ∧
  BufferList.concatenate (IPv4Datagram.payload d') = BufferList.concatenate (IPv4Datagram.payload d).

Lemma recv_ipv4 b f d : EthernetHeader.type (EthernetFrame.header f) = EthernetHeader.TYPE_IPv4 →
  IPv4Datagram.sendable d → IPv4Datagram.serialize d = Ok (EthernetFrame.payload f) →
  if bool_decide (EthernetHeader.dst (EthernetFrame.header f) = NetworkInterface._ethernet_address b)
  then ∃ d', NetworkInterface.recv_frame b (on_wire f) = Ok (b, Some d') ∧ arrived d d'
  else NetworkInterface.recv_frame b (on_wire f) = Ok (b, None).
Proof.
  intros Ht Hd El. unfold NetworkInterface.recv_frame. cbn [on_wire EthernetFrame.header EthernetFrame._header].
  fold (EthernetFrame.header f). rewrite Ht, Z.eqb_refl. destruct (bool_decide _); [|done]. simpl andb. cbv iota.
  destruct (on_wire_buffer f) as (bf & Eb & Hb & Hs).
  { rewrite (IPv4Datagram.datagram_len_serialized d _ Hd El). destruct Hd as [[] _]. lia. }
  rewrite Eb, result_bind_ok.
  destruct (IPv4Datagram.datagram_parse_wire d IPv4Datagram.new bf Hd Hb) as (v & d' & -> & Hh & Hv & Hp & _).
  { intros l E. rewrite El in E. injection E as <-. done. }
  rewrite result_bind_ok. exists d'. split; [done|]. split; [by eapply IPv4Datagram.sendable_received|]. split; [by exists v | done].
Qed.

Lemma recv_arp_frame b f m : EthernetHeader.type (EthernetFrame.header f) = EthernetHeader.TYPE_ARP →
  ARPMessage.valid m → ARPMessage.supported m = true →
  EthernetFrame.payload f = BufferList.of_string (ARPMessage.wire m) →
  NetworkInterface.recv_frame b (on_wire f) = (b ← NetworkInterface.recv_arp b m; Ok (b, None)).
Proof.
  intros Ht Hv Hs Hp. unfold NetworkInterface.recv_frame. cbn [on_wire EthernetFrame.header EthernetFrame._header].
  fold (EthernetFrame.header f). rewrite Ht.
  change (EthernetHeader.TYPE_ARP =? EthernetHeader.TYPE_IPv4) with false. simpl andb. cbv iota. rewrite Z.eqb_refl.
  destruct (on_wire_buffer f) as (bf & Eb & Hb & Hbs).
  { rewrite Hp, BufferList.concatenate_string, ARPMessage.arp_len_wire by done. lia. }
  rewrite Eb, result_bind_ok, (ARPMessage.arp_parse_wire m _ bf []), result_bind_ok; [done | done | done | done |].
  rewrite Hbs, Hp, app_nil_r. apply BufferList.concatenate_string.
Qed.

Lemma recv_good a f : good a → good_frame f →
  ∃ a', AsyncNetworkInterface.recv_frame a (on_wire f) = Ok a' ∧ good a' ∧ frames a `prefix_of` frames a'.
Proof.
  intros [Hb Hq] [Hh [[Ht (d & Hd & El)]|[Ht (m & Hv & Hs & Hp)]]]; unfold AsyncNetworkInterface.recv_frame.
  - pose proof (recv_ipv4 (AsyncNetworkInterface.base a) f d Ht Hd El) as Hr. destruct (bool_decide _).
    + destruct Hr as (d' & -> & Hd' & _). rewrite result_bind_ok. eexists. split; [done|].
      split; [|done]. constructor; [done|]. apply Forall_app. split; [done|]. by constructor.
    + rewrite Hr, result_bind_ok. by eexists.
  - rewrite (recv_arp_frame _ f m Ht Hv Hs Hp).
    destruct (recv_arp_good (AsyncNetworkInterface.base a) m Hb Hv) as (b' & -> & Hb' & Hpre).
    rewrite !result_bind_ok. by eexists.
Qed.

Lemma deliver_good fs : ∀ a, good a → Forall good_frame fs →
  ∃ a', deliver fs a = Ok a' ∧ good a' ∧ frames a `prefix_of` frames a'.
Proof.
  induction fs as [|f fs IH]; intros a Ha Hf; simpl; [by eexists|]. apply Forall_cons in Hf as [Hf Hfs].
  destruct (recv_good a f Ha Hf) as (a1 & -> & Ha1 & Hp1). rewrite result_bind_ok.
  destruct (IH a1 Ha1 Hfs) as (a2 & E & Ha2 & Hp2). exists a2. split; [done|]. split; [done|]. by etrans.
Qed.

Lemma clear_app {A} (q1 q2 : list A) : clear q1 (q1 ++ q2) = Ok q2.
Proof. by induction q1. Qed.

Lemma clear_good q a : good a → q `prefix_of` frames a → ∃ a', clear_frames q a = Ok a' ∧ good a'.
Proof.
  intros [[Hi Hf] Hq] [q' Eq]. unfold clear_frames. rewrite Eq, clear_app, result_bind_ok. eexists. split; [done|].
  constructor; [|done]. constructor; [by destruct Hi; constructor|].
  change (Forall good_frame (frames a)) in Hf. rewrite Eq in Hf. apply Forall_app in Hf as [_ Hf]. exact Hf.
Qed.

Lemma good_frames a : good a → Forall good_frame (frames a).
Proof. by intros [[] _]. Qed.

Lemma exchange_good x y : good x → good y → ∃ x' y', exchange x y = Ok (x', y') ∧ good x' ∧ good y'.
Proof.
  intros Hx Hy. unfold exchange.
  destruct (deliver_good (frames x) y Hy (good_frames x Hx)) as (y1 & -> & Hy1 & Py1). rewrite result_bind_ok.
  destruct (deliver_good (frames y) x Hx (good_frames y Hy)) as (x1 & -> & Hx1 & Px1). rewrite result_bind_ok.
  destruct (clear_good (frames x) x1 Hx1 Px1) as (x2 & -> & Hx2). rewrite result_bind_ok.
  destruct (clear_good (frames y) y1 Hy1 Py1) as (y2 & -> & Hy2). rewrite result_bind_ok. by eexists _, _.
Qed.

Lemma exchange3_good x y z : good x → good y → good z →
  ∃ x' y' z', exchange3 x y z = Ok (x', y', z') ∧ good x' ∧ good y' ∧ good z'.
Proof.
  intros Hx Hy Hz. unfold exchange3.
  destruct (deliver_good (frames x) y Hy (good_frames x Hx)) as (y1 & -> & Hy1 & Py1). rewrite result_bind_ok.
  destruct (deliver_good (frames x) z Hz (good_frames x Hx)) as (z1 & -> & Hz1 & Pz1). rewrite result_bind_ok.
  destruct (deliver_good (frames y) x Hx (good_frames y Hy)) as (x1 & -> & Hx1 & Px1). rewrite result_bind_ok.
  destruct (deliver_good (frames y) z1 Hz1 (good_frames y Hy)) as (z2 & -> & Hz2 & Pz2). rewrite result_bind_ok.
  destruct (deliver_good (frames z) x1 Hx1 (good_frames z Hz)) as (x2 & -> & Hx2 & Px2). rewrite result_bind_ok.
  destruct (deliver_good (frames z) y1 Hy1 (good_frames z Hz)) as (y2 & -> & Hy2 & Py2). rewrite result_bind_ok.
  destruct (clear_good (frames x) x2 Hx2) as (x3 & -> & Hx3); [by etrans|]. rewrite result_bind_ok.
  destruct (clear_good (frames y) y2 Hy2) as (y3 & -> & Hy3); [by etrans|]. rewrite result_bind_ok.
  destruct (clear_good (frames z) z2 Hz2) as (z3 & -> & Hz3); [by etrans|]. rewrite result_bind_ok. by eexists _, _, _.
Qed.

(** The hosts that are wired to the router. *)
Definition names : list string := ["default_router"; "applesauce"; "cherrypie"; "hs_router"; "dm42"; "dm43"]%string.

Definition interfaces (n : t) : list AsyncNetworkInterface.t := Router._interfaces (_router n).

Record net_ok (rules : list Router.rule) (n : t) : Prop := {
  n_answers : Router.answers rules (Router.route_mps (_router n));
  n_rules : Forall (Router.connected (length (interfaces n))) rules;
  n_itfs : Forall good (interfaces n);
  n_ids : Forall (λ id, 0 <= id < len (interfaces n)) [default_id n; eth0_id n; eth2_id n; hs4_id n; uun3_id n];
  n_hosts : map_Forall (λ name h, Host._name h = name ∧ good (Host._interface h)) (_hosts n);
  n_names : Forall (λ name, is_Some (_hosts n !! name)) names }.

Lemma host_ok rules n name : net_ok rules n → name ∈ names →
  ∃ h, host n name = Ok h ∧ _hosts n !! name = Some h ∧ good (Host._interface h).
Proof.
  intros Hn Hin. destruct (proj1 (Forall_forall _ _) (n_names _ _ Hn) name Hin) as [h Eh].
  destruct (n_hosts _ _ Hn name h Eh) as [Hname Hg]. exists h. unfold host. rewrite Eh, bool_decide_eq_true_2 by done. done.
Qed.

Lemma interface_ok rules n id : net_ok rules n → 0 <= id < len (interfaces n) →
  ∃ a, Router.interface (_router n) id = Ok a ∧ interfaces n !! Z.to_nat id = Some a ∧ good a.
Proof.
  intros Hn Hid. destruct (lookup_lt_is_Some_2 (interfaces n) (Z.to_nat id)) as [a Ea]; [unfold len in Hid; lia|].
  exists a. split; [|split; [done|]]; [unfold Router.interface, interfaces in *; by rewrite Ea|].
  exact (Forall_lookup_1 _ _ _ _ (n_itfs _ _ Hn) Ea).
Qed.

Lemma net_ok_interface rules n id a : net_ok rules n → good a → net_ok rules (put_interface n id a).
Proof.
  intros [] Ha. constructor; try done; cbn [put_interface set_router Router.set_interface]; unfold interfaces, len in *; simpl;
    rewrite ?length_insert; [done | by apply Forall_insert | done].
Qed.

Lemma net_ok_hosts rules n name h h' : net_ok rules n → _hosts n !! name = Some h → Host._name h' = Host._name h →
  good (Host._interface h') → net_ok rules (put_host n name h').
Proof.
  intros [] Eh En Hg. constructor; try done; simpl.
  - apply map_Forall_insert_2; [|done]. split; [|done]. rewrite En. by apply (n_hosts0 name h).
  - eapply Forall_impl; [exact n_names0|]. intros m Hm. simpl. destruct (decide (m = name)) as [->|].
    + rewrite lookup_insert_eq. by eexists.
    + by rewrite lookup_insert_ne.
Qed.

Lemma put_host_interface_eq n name h a : _hosts n !! name = Some h →
  put_host_interface n name a = put_host n name (Host.set_interface h a).
Proof. intros E. unfold put_host_interface, put_host. by rewrite (alter_alt_Some _ _ _ _ E). Qed.

Lemma wire_ok rules n id name : net_ok rules n → 0 <= id < len (interfaces n) → name ∈ names →
  ∃ n', wire n id name = Ok n' ∧ net_ok rules n'.
Proof.
  intros Hn Hid Hname. unfold wire.
  destruct (interface_ok rules n id Hn Hid) as (a & -> & _ & Ha). rewrite result_bind_ok.
  destruct (host_ok rules n name Hn Hname) as (h & -> & Eh & Hh). rewrite result_bind_ok.
  destruct (exchange_good a (Host._interface h) Ha Hh) as (x & y & -> & Hx & Hy). rewrite result_bind_ok.
  eexists. split; [done|]. rewrite (put_host_interface_eq _ _ h) by done.
  apply (net_ok_hosts rules _ name h); [by apply net_ok_interface | done | done | done].
Qed.

Lemma wire3_ok rules n id name1 name2 : net_ok rules n → 0 <= id < len (interfaces n) → name1 ∈ names → name2 ∈ names →
  name1 ≠ name2 → ∃ n', wire3 n id name1 name2 = Ok n' ∧ net_ok rules n'.
Proof.
  intros Hn Hid Hname1 Hname2 Hne. unfold wire3.
  destruct (interface_ok rules n id Hn Hid) as (a & -> & _ & Ha). rewrite result_bind_ok.
  destruct (host_ok rules n name1 Hn Hname1) as (h1 & -> & Eh1 & Hh1). rewrite result_bind_ok.
  destruct (host_ok rules n name2 Hn Hname2) as (h2 & -> & Eh2 & Hh2). rewrite result_bind_ok.
  destruct (exchange3_good a (Host._interface h1) (Host._interface h2) Ha Hh1 Hh2) as (x & y & z & -> & Hx & Hy & Hz).
  rewrite result_bind_ok. eexists. split; [done|]. rewrite (put_host_interface_eq _ name1 h1) by done.
  rewrite (put_host_interface_eq _ name2 h2) by (simpl; by rewrite lookup_insert_ne).
  apply (net_ok_hosts rules _ name2 h2); [| simpl; by rewrite lookup_insert_ne | done | done].
  apply (net_ok_hosts rules _ name1 h1); [by apply net_ok_interface | done | done | done].
Qed.

Lemma wires_ok rules n : net_ok rules n → ∃ n', simulate_physical_connections n = Ok n' ∧ net_ok rules n'.
Proof.
  assert (∀ n i id, net_ok rules n →
    [default_id n; eth0_id n; eth2_id n; hs4_id n; uun3_id n] !! i = Some id → 0 <= id < len (interfaces n)) as Hid.
  { intros m i id Hm E. exact (Forall_lookup_1 _ _ _ _ (n_ids _ _ Hm) E). }
  intros H0. unfold simulate_physical_connections.
  destruct (wire_ok rules n (default_id n) "default_router" H0) as (n1 & -> & H1);
    [by apply (Hid n 0%nat) | by apply (list_elem_of_lookup_2 names 0)|]. rewrite result_bind_ok.
  destruct (wire_ok rules n1 (eth0_id n1) "applesauce" H1) as (n2 & -> & H2);
    [by apply (Hid n1 1%nat) | by apply (list_elem_of_lookup_2 names 1)|]. rewrite result_bind_ok.
  destruct (wire_ok rules n2 (eth2_id n2) "cherrypie" H2) as (n3 & -> & H3);
    [by apply (Hid n2 2%nat) | by apply (list_elem_of_lookup_2 names 2)|]. rewrite result_bind_ok.
  destruct (wire_ok rules n3 (hs4_id n3) "hs_router" H3) as (n4 & -> & H4);
    [by apply (Hid n3 3%nat) | by apply (list_elem_of_lookup_2 names 3)|]. rewrite result_bind_ok.
  apply wire3_ok; [done | by apply (Hid n4 4%nat) | by apply (list_elem_of_lookup_2 names 4)
    | by apply (list_elem_of_lookup_2 names 5) | done].
Qed.

Lemma round_ok rules n : net_ok rules n → ∃ n', round n = Ok n' ∧ net_ok rules n'.
Proof.
  intros Hn. unfold round. pose proof Hn as [Ha Hr Hi Hid Hh Hnm].
  destruct (Router.route_total good_base rules (interfaces n) (Router.route_mps (_router n))) as (itfs & E & Hl & Hg);
    [| done | done | |].
  - intros b d ip Hb Hd Hip. destruct (send_good b d ip Hb Hd Hip) as (b' & E & Hb' & _). by exists b'.
  - eapply Forall_impl; [exact Hi|]. by intros a [].
  - replace (Router.mk (interfaces n) (Router.route_mps (_router n))) with (_router n) in E by (unfold interfaces; by destruct (_router n)).
    rewrite E, result_bind_ok. apply wires_ok. constructor; unfold interfaces, len in *; simpl; rewrite ?Hl; try done.
    eapply Forall_impl; [exact Hg|]. intros a [Hb Hq]. constructor; [done|]. by rewrite Hq.
Qed.

Lemma rounds_ok rules k : ∀ n, net_ok rules n → ∃ n', rounds k n = Ok n' ∧ net_ok rules n'.
Proof.
  induction k as [|k IH]; intros n Hn; simpl; [by exists n|].
  destruct (round_ok rules n Hn) as (n1 & -> & H1). rewrite result_bind_ok. by apply IH.
Qed.

(** ** A datagram crosses a wire

    The two ends of a wire at rest: nothing is queued, and each end has no mapping for the
    other's address or the right one. *)

Record at_rest (b : NetworkInterface.t) (ip : Z) : Prop := {
  r_frames : NetworkInterface.frames_out b = [];
  r_pending : NetworkInterface._data_mp b = ∅;
  r_unicast : NetworkInterface._ethernet_address b ≠ ETHERNET_BROADCAST;
  r_range : 0 <= ip < two32;
  r_ip : NetworkInterface._ip_address b = Address.of_ipv4 ip }.

Definition knows (b c : NetworkInterface.t) (ip : Z) : Prop :=
  NetworkInterface._addr_mp b !! ip = None ∨
  ∃ age, NetworkInterface._addr_mp b !! ip = Some (age, NetworkInterface._ethernet_address c).

Record settled (b c : NetworkInterface.t) (ipb ipc : Z) : Prop := {
  s_left : at_rest b ipb; s_right : at_rest c ipc; s_knows : knows b c ipc; s_known : knows c b ipb }.

Lemma settled_sym b c ipb ipc : settled b c ipb ipc → settled c b ipc ipb.
Proof. by intros []. Qed.

(** [b'] is [b] but for what it knows of the address [ip]. *)
Definition keeps (b b' : NetworkInterface.t) (ip : Z) : Prop :=
  NetworkInterface._ethernet_address b' = NetworkInterface._ethernet_address b ∧
  NetworkInterface._ip_address b' = NetworkInterface._ip_address b ∧
  ∀ ip', ip' ≠ ip → NetworkInterface._addr_mp b' !! ip' = NetworkInterface._addr_mp b !! ip'.

(** A frame of the traffic between two interfaces. *)
Definition between (ethx : EthernetAddress) (ipx : Z) (ethy : EthernetAddress) (ipy : Z) (f : EthernetFrame.t) : Prop :=
  (EthernetHeader.type (EthernetFrame.header f) = EthernetHeader.TYPE_IPv4 ∧
    (EthernetHeader.dst (EthernetFrame.header f) = ethx ∨ EthernetHeader.dst (EthernetFrame.header f) = ethy)) ∨
  (EthernetHeader.type (EthernetFrame.header f) = EthernetHeader.TYPE_ARP ∧
    ∃ m, ARPMessage.valid m ∧ ARPMessage.supported m = true ∧ EthernetFrame.payload f = BufferList.of_string (ARPMessage.wire m) ∧
      ((ARPMessage.sender_ethernet_address m = ethx ∧ ARPMessage.sender_ip_address m = ipx) ∨
       (ARPMessage.sender_ethernet_address m = ethy ∧ ARPMessage.sender_ip_address m = ipy)) ∧
      (ARPMessage.target_ip_address m = ipx ∨ ARPMessage.target_ip_address m = ipy)).

Lemma between_sym ethx ipx ethy ipy f : between ethx ipx ethy ipy f → between ethy ipy ethx ipx f.
Proof.
  intros [[Ht Hd]|(Ht & m & Hv & Hs & Hp & Hm & Hg)]; [left | right]; (split; [done|]); [tauto|].
  exists m. split; [done|]. split; [done|]. split; [done|]. tauto.
Qed.

(** [k] exchanges between [x] and [y], with frames of [P]; the queue of [x] stays as it is until the last. *)
Inductive moves (P : EthernetFrame.t → Prop) : nat → AsyncNetworkInterface.t → AsyncNetworkInterface.t →
  AsyncNetworkInterface.t → AsyncNetworkInterface.t → Prop :=
| moves_last x y x' y' : exchange x y = Ok (x', y') → Forall P (frames x ++ frames y) → moves P 1 x y x' y'
| moves_more k x y x1 y1 x' y' : exchange x y = Ok (x1, y1) → Forall P (frames x ++ frames y) →
    AsyncNetworkInterface.datagrams_out x1 = AsyncNetworkInterface.datagrams_out x →
    moves P k x1 y1 x' y' → moves P (S k) x y x' y'.

(** Exchanges that take [d] from [x] to [y]; until the last, both queues of datagrams stay as they are. *)
Inductive conveys (P : EthernetFrame.t → Prop) (d : IPv4Datagram.t) : nat → AsyncNetworkInterface.t → AsyncNetworkInterface.t →
  AsyncNetworkInterface.t → AsyncNetworkInterface.t → Prop :=
| conveys_now x y x' y' d' : exchange x y = Ok (x', y') → Forall P (frames x ++ frames y) → arrived d d' →
    AsyncNetworkInterface.datagrams_out x' = AsyncNetworkInterface.datagrams_out x →
    AsyncNetworkInterface.datagrams_out y' = AsyncNetworkInterface.datagrams_out y ++ [d'] →
    conveys P d 1 x y x' y'
| conveys_later k x y x1 y1 x' y' : exchange x y = Ok (x1, y1) → Forall P (frames x ++ frames y) →
    AsyncNetworkInterface.datagrams_out x1 = AsyncNetworkInterface.datagrams_out x →
    AsyncNetworkInterface.datagrams_out y1 = AsyncNetworkInterface.datagrams_out y →
    conveys P d k x1 y1 x' y' → conveys P d (S k) x y x' y'.

Lemma clear_all {A} (q : list A) : clear q q = Ok [].
Proof. rewrite <- (app_nil_r q) at 2. apply clear_app. Qed.

Lemma set_frames_id a : set_frames a (frames a) = a.
Proof. by destruct a as [[]]. Qed.

Lemma exchange_left x y y' : frames y = [] → deliver (frames x) y = Ok y' → exchange x y = Ok (set_frames x [], y').
Proof.
  intros Ey E. unfold exchange. rewrite E, result_bind_ok, Ey. simpl deliver. rewrite result_bind_ok.
  unfold clear_frames. rewrite clear_all, !result_bind_ok. simpl clear. by rewrite !result_bind_ok, set_frames_id.
Qed.

Lemma exchange_comm x y x' y' : exchange x y = Ok (x', y') → exchange y x = Ok (y', x').
Proof.
  intros (y1 & Ey & E)%result_bind_inv. apply result_bind_inv in E as (x1 & Ex & E).
  apply result_bind_inv in E as (x2 & Ex2 & (y2 & Ey2 & [= <- <-])%result_bind_inv).
  unfold exchange. by rewrite Ex, result_bind_ok, Ey, result_bind_ok, Ey2, result_bind_ok, Ex2, result_bind_ok.
Qed.

Lemma exchange_idle x y : frames x = [] → frames y = [] → exchange x y = Ok (x, y).
Proof.
  intros Ex Ey. rewrite (exchange_left x y y Ey); [|by rewrite Ex]. rewrite <- Ex at 1. by rewrite set_frames_id.
Qed.

(** The exchanges that convey a datagram, seen from its source and from its destination. *)
Lemma conveys_down P d k x y x' y' : conveys P d k x y x' y' → moves P k x y x' y'.
Proof. induction 1; [by apply moves_last | by eapply moves_more]. Qed.

Lemma conveys_up P d k x y x' y' : conveys P d k y x y' x' → moves P k x y x' y'.
Proof.
  induction 1 as [y x y' x' d' E HP _ _ _|k y x y1 x1 y' x' E HP _ Ex _ IH];
    rewrite Forall_app in HP; destruct HP as [HPy HPx]; apply exchange_comm in E.
  - apply moves_last; [done|]. by apply Forall_app.
  - apply (moves_more _ _ _ _ x1 y1); [done | by apply Forall_app | done | done].
Qed.

(** One frame from [x] to [y]. *)
Lemma exchange_frame x y f b od : frames x = [f] → frames y = [] →
  NetworkInterface.recv_frame (AsyncNetworkInterface.base y) (on_wire f) = Ok (b, od) →
  exchange x y = Ok (set_frames x [],
    AsyncNetworkInterface.mk b (AsyncNetworkInterface.datagrams_out y ++ option_list od)).
Proof.
  intros Ex Ey Er. apply exchange_left; [done|]. rewrite Ex. cbn [deliver]. unfold AsyncNetworkInterface.recv_frame.
  rewrite Er, result_bind_ok. destruct od; [done|]. simpl. by rewrite app_nil_r.
Qed.

(** A datagram in a frame for [y] arrives. *)
Lemma convey_frame bx by_ qx qy d l ipx ipy : settled bx by_ ipx ipy → IPv4Datagram.sendable d →
  IPv4Datagram.serialize d = Ok l →
  let f := NetworkInterface.frame bx EthernetHeader.TYPE_IPv4 (NetworkInterface._ethernet_address by_) l in
  ∃ d', arrived d d' ∧
    conveys (between (NetworkInterface._ethernet_address bx) ipx (NetworkInterface._ethernet_address by_) ipy) d 1
      (AsyncNetworkInterface.mk (NetworkInterface.push_frame bx f) qx) (AsyncNetworkInterface.mk by_ qy)
      (AsyncNetworkInterface.mk bx qx) (AsyncNetworkInterface.mk by_ (qy ++ [d'])).
Proof.
  intros [Hx Hy _ _] Hd El f. pose proof (recv_ipv4 by_ f d eq_refl Hd El) as Hr.
  rewrite bool_decide_eq_true_2 in Hr by done. destruct Hr as (d' & Er & Ha). exists d'. split; [done|].
  apply (conveys_now _ _ _ _ _ _ d'); [| | done | done | done].
  2:{ unfold frames. simpl. unfold NetworkInterface.frames_out. simpl.
  rewrite (r_frames _ _ Hx : NetworkInterface._frames_out _ = []), (r_frames _ _ Hy : NetworkInterface._frames_out _ = []). simpl.
    constructor; [|constructor]. left. split; [done|]. by right. }
  rewrite (exchange_frame _ _ f by_ (Some d')); [| | apply Hy | done].
  - unfold set_frames. simpl. do 3 f_equal. destruct bx, Hx. simpl in *. by subst.
  - change (NetworkInterface.frames_out bx ++ [f] = [f]). by rewrite (r_frames _ _ Hx).
Qed.

(** The resolution of an unknown address: a request, the answer to it, and the datagram. *)
Lemma convey_unknown bx by_ qx qy d ipx ipy bx1 : settled bx by_ ipx ipy → NetworkInterface.inv bx →
  NetworkInterface.inv by_ → IPv4Datagram.sendable d → NetworkInterface._addr_mp bx !! ipy = None →
  NetworkInterface.send_datagram bx d (Address.of_ipv4 ipy) = Ok bx1 →
  ∃ bx' by' d', arrived d d' ∧ settled bx' by' ipx ipy ∧ keeps bx bx' ipy ∧ keeps by_ by' ipx ∧
    conveys (between (NetworkInterface._ethernet_address bx) ipx (NetworkInterface._ethernet_address by_) ipy) d 3
      (AsyncNetworkInterface.mk bx1 qx) (AsyncNetworkInterface.mk by_ qy)
      (AsyncNetworkInterface.mk bx' qx) (AsyncNetworkInterface.mk by' (qy ++ [d'])).
Proof.
  intros Hs Hix Hiy Hd Ea. pose proof Hs as [Hx Hy _ _].
  rewrite (NetworkInterface.send_unknown bx d ipx ipy (r_ip _ _ Hx) (r_range _ _ Hx) (r_range _ _ Hy) Ea).
  intros [= <-]. destruct (IPv4Datagram.datagram_serialize_wire d Hd) as (_ & l & El & _).
  set (ethx := NetworkInterface._ethernet_address bx). set (ethy := NetworkInterface._ethernet_address by_).
  set (req := NetworkInterface.request bx ipx ipy). set (rep := NetworkInterface.reply bx by_ ipx ipy).
  assert (ARPMessage.valid req) as Vq by (constructor; [apply Hix | done | apply Hx | apply Hy]).
  assert (ARPMessage.valid rep) as Vr by (constructor; [apply Hiy | apply Hix | apply Hy | apply Hx]).
  set (f := NetworkInterface.frame bx EthernetHeader.TYPE_ARP ETHERNET_BROADCAST (BufferList.of_string (ARPMessage.wire req))).
  set (g := NetworkInterface.frame by_ EthernetHeader.TYPE_ARP ethx (BufferList.of_string (ARPMessage.wire rep))).
  set (mp1 := <[ipy := (5000, ETHERNET_BROADCAST)]> (NetworkInterface._addr_mp bx)).
  set (bx1 := NetworkInterface.mk ethx (NetworkInterface._ip_address bx) [] mp1 (<[ipy := d]> (NetworkInterface._data_mp bx))).
  set (by1 := NetworkInterface.set_addr_mp by_ (<[ipx := (30000, ethx)]> (NetworkInterface._addr_mp by_))).
  set (bx2 := NetworkInterface.mk ethx (NetworkInterface._ip_address bx) [] (<[ipy := (30000, ethy)]> mp1) ∅).
  assert (settled bx2 by1 ipx ipy) as Hs2.
  { destruct Hx, Hy. constructor; [by constructor | by constructor | |]; right; exists 30000; apply lookup_insert_eq. }
  destruct (convey_frame bx2 by1 qx qy d l ipx ipy Hs2 Hd El) as (d' & Hd' & Hc). exists bx2, by1, d'.
  split; [done|]. split; [done|].
  split. { split; [done|]. split; [done|]. intros ip' Hne. simpl. unfold mp1. by rewrite !lookup_insert_ne. }
  split. { split; [done|]. split; [done|]. intros ip' Hne. simpl. by rewrite lookup_insert_ne. }
  assert (between ethx ipx ethy ipy f) as Bf 
    by (right; split; [done|]; exists req; do 3 (split; [done|]); split; [by left | by right]).
  assert (between ethx ipx ethy ipy g) as Bg 
    by (right; split; [done|]; exists rep; do 3 (split; [done|]); split; [by right | by left]).
  apply (conveys_later _ _ _ _ _ (AsyncNetworkInterface.mk bx1 qx) (AsyncNetworkInterface.mk (NetworkInterface.push_frame by1 g) qy));
    [| |done | done|].
  2:{ unfold frames. simpl. unfold NetworkInterface.frames_out. simpl.
  rewrite (r_frames _ _ Hx : NetworkInterface._frames_out _ = []), (r_frames _ _ Hy : NetworkInterface._frames_out _ = []). simpl. by constructor. }
  { rewrite (exchange_frame _ _ f (NetworkInterface.push_frame by1 g) None); [| | apply Hy |].
    - unfold set_frames. simpl. by rewrite app_nil_r.
    - change (NetworkInterface.frames_out bx ++ [f] = [f]). by rewrite (r_frames _ _ Hx).
    - rewrite (recv_arp_frame _ f req) by done. cbn [AsyncNetworkInterface.base].
      unfold req. rewrite NetworkInterface.recv_request; [done | apply Hy | apply Hy |]. by rewrite (r_pending _ _ Hy). }
  apply (conveys_later _ _ _ _ _ (AsyncNetworkInterface.mk
      (NetworkInterface.push_frame bx2 (NetworkInterface.frame bx2 EthernetHeader.TYPE_IPv4 ethy l)) qx)
    (AsyncNetworkInterface.mk by1 qy)); [| |done | done | exact Hc].
  2:{ unfold frames. simpl. unfold NetworkInterface.frames_out. simpl. rewrite (r_frames _ _ Hy : NetworkInterface._frames_out _ = []). simpl.
  by constructor. }
  apply exchange_comm. rewrite (exchange_frame _ _ g (NetworkInterface.push_frame bx2 (NetworkInterface.frame bx2 EthernetHeader.TYPE_IPv4 ethy l)) None); [| | done |].
  - unfold set_frames. simpl. rewrite app_nil_r. do 3 f_equal. unfold by1. destruct by_, Hy. simpl in *. by subst.
  - change (NetworkInterface.frames_out by_ ++ [g] = [g]). by rewrite (r_frames _ _ Hy).
  - rewrite (recv_arp_frame _ g rep) by done. cbn [AsyncNetworkInterface.base].
    unfold rep. rewrite (NetworkInterface.recv_reply bx1 bx by_ ipx ipy d l); [|apply lookup_insert_eq | done]. simpl.
    unfold bx2, NetworkInterface.push_frame, NetworkInterface.set_frames_out. simpl. do 3 f_equal.
    rewrite (r_pending _ _ Hx). by rewrite delete_insert_eq, delete_empty.
Qed.

Lemma convey bx by_ qx qy d ipx ipy : settled bx by_ ipx ipy → NetworkInterface.inv bx → NetworkInterface.inv by_ →
  IPv4Datagram.sendable d →
  ∃ bx1 k bx' by' d', NetworkInterface.send_datagram bx d (Address.of_ipv4 ipy) = Ok bx1 ∧ (1 <= k <= 3)%nat ∧
    arrived d d' ∧ settled bx' by' ipx ipy ∧ keeps bx bx' ipy ∧ keeps by_ by' ipx ∧
    conveys (between (NetworkInterface._ethernet_address bx) ipx (NetworkInterface._ethernet_address by_) ipy) d k
      (AsyncNetworkInterface.mk bx1 qx) (AsyncNetworkInterface.mk by_ qy)
      (AsyncNetworkInterface.mk bx' qx) (AsyncNetworkInterface.mk by' (qy ++ [d'])).
Proof.
  intros Hs Hix Hiy Hd. pose proof Hs as [Hx Hy Hk _].
  destruct (NetworkInterface.send_datagram_spec bx d ipy Hix Hd (r_range _ _ Hy)) as (bx1 & E & _).
  exists bx1. destruct Hk as [Ea|(age & Ea)].
  - destruct (convey_unknown bx by_ qx qy d ipx ipy bx1 Hs Hix Hiy Hd Ea E) as (bx' & by' & d' & ? & ? & ? & ? & ?).
    exists 3%nat, bx', by', d'. split; [done|]. split; [lia | done].
  - destruct (IPv4Datagram.datagram_serialize_wire d Hd) as (_ & l & El & _).
    rewrite (NetworkInterface.send_known bx d age _ ipy l (r_range _ _ Hy) Ea (r_unicast _ _ Hy) El) in E.
    injection E as <-. destruct (convey_frame bx by_ qx qy d l ipx ipy Hs Hd El) as (d' & Hd' & Hc).
    exists 1%nat, bx, by_, d'. rewrite (NetworkInterface.send_known bx d age _ ipy l (r_range _ _ Hy) Ea (r_unicast _ _ Hy) El).
    split; [done|]. split; [lia | done].
Qed.

(** ** Rounds of a network at rest, but for one wire *)

(** The network with other interfaces at the ends of a wire. *)
Definition put (n : t) (id : Z) (x : AsyncNetworkInterface.t) (name : string) (y : AsyncNetworkInterface.t) : t :=
  put_host_interface (put_interface n id x) name y.

Lemma put_interface_id n id a : interfaces n !! Z.to_nat id = Some a → put_interface n id a = n.
Proof.
  intros Ea. unfold put_interface, Router.set_interface, set_router. destruct n as [[itfs mps] ? ? ? ? ? ? ? ?].
  unfold interfaces in Ea. simpl in *. by rewrite (list_insert_id _ _ _ Ea).
Qed.

Lemma put_host_interface_id n name h : _hosts n !! name = Some h → put_host_interface n name (Host._interface h) = n.
Proof.
  intros Eh. rewrite (put_host_interface_eq _ _ h) by done. unfold put_host, set_hosts. destruct n. simpl in *. f_equal.
  apply insert_id. rewrite Eh. by destruct h.
Qed.

Lemma put_put n id x name y x' y' : put (put n id x name y) id x' name y' = put n id x' name y'.
Proof.
  unfold put, put_host_interface, put_interface, Router.set_interface, set_router, set_hosts. simpl.
  rewrite list_insert_insert_eq. f_equal. apply map_eq. intros k. destruct (decide (k = name)) as [->|].
  - rewrite !lookup_alter_eq. by destruct (_hosts n !! name).
  - by rewrite !lookup_alter_ne.
Qed.

(** A wire with no frame on it. *)
Definition idle_wire (n : t) (id : Z) (name : string) : Prop :=
  ∃ a h, interfaces n !! Z.to_nat id = Some a ∧ _hosts n !! name = Some h ∧ Host._name h = name ∧
    frames a = [] ∧ frames (Host._interface h) = [].

Lemma host_lookup n name h : _hosts n !! name = Some h → Host._name h = name → host n name = Ok h.
Proof. intros E En. unfold host. by rewrite E, bool_decide_eq_true_2. Qed.

Lemma interface_lookup n id a : interfaces n !! Z.to_nat id = Some a → Router.interface (_router n) id = Ok a.
Proof. intros E. unfold Router.interface, interfaces in *. by rewrite E. Qed.

Lemma wire_idle n id name : idle_wire n id name → wire n id name = Ok n.
Proof.
  intros (a & h & Ea & Eh & En & Fa & Fh). unfold wire. rewrite (interface_lookup _ _ _ Ea), result_bind_ok.
  rewrite (host_lookup _ _ _ Eh En), result_bind_ok, exchange_idle, result_bind_ok by done.
  by rewrite put_interface_id, put_host_interface_id.
Qed.

Lemma wire3_idle n id name1 name2 : idle_wire n id name1 → idle_wire n id name2 → wire3 n id name1 name2 = Ok n.
Proof.
  intros (a & h1 & Ea & Eh1 & En1 & Fa & Fh1) (a2 & h2 & Ea2 & Eh2 & En2 & _ & Fh2).
  unfold wire3. rewrite (interface_lookup _ _ _ Ea), result_bind_ok.
  rewrite (host_lookup _ _ _ Eh1 En1), result_bind_ok, (host_lookup _ _ _ Eh2 En2), result_bind_ok.
  unfold exchange3. rewrite Fa, Fh1, Fh2. cbn [deliver]. rewrite !result_bind_ok. unfold clear_frames. cbn [clear].
  rewrite !result_bind_ok, !set_frames_id, (put_interface_id _ _ _ Ea).
  by rewrite (put_host_interface_id _ _ _ Eh1), (put_host_interface_id _ _ _ Eh2).
Qed.

Lemma wire_active n id name x y x' y' h : (Z.to_nat id < length (interfaces n))%nat → _hosts n !! name = Some h →
  Host._name h = name → exchange x y = Ok (x', y') → wire (put n id x name y) id name = Ok (put n id x' name y').
Proof.
  intros Hid Eh En E. unfold wire.
  rewrite (interface_lookup _ _ x) by (by apply list_lookup_insert_eq). rewrite result_bind_ok.
  rewrite (host_lookup _ _ (Host.set_interface h y)); [| |done].
  - rewrite result_bind_ok. simpl Host._interface. rewrite E, result_bind_ok. f_equal. apply put_put.
  - simpl. by rewrite lookup_alter_eq, Eh.
Qed.

Lemma idle_wire_put n id x name y id' name' : Z.to_nat id ≠ Z.to_nat id' → name ≠ name' → idle_wire n id' name' →
  idle_wire (put n id x name y) id' name'.
Proof.
  intros Hid Hname (a & h & Ea & Eh & H). exists a, h. split; [|split; [|done]].
  - by rewrite <- Ea; apply list_lookup_insert_ne.
  - simpl. by rewrite lookup_alter_ne.
Qed.

(** The wires with one host, and all of them at rest. *)
Definition cables (n : t) : list (Z * string) :=
  [(default_id n, "default_router"); (eth0_id n, "applesauce"); (eth2_id n, "cherrypie"); (hs4_id n, "hs_router")]%string.

Record calm (n : t) : Prop := {
  c_ids : NoDup (Z.to_nat <$> [default_id n; eth0_id n; eth2_id n; hs4_id n; uun3_id n]);
  c_cables : Forall (λ p, idle_wire n p.1 p.2) (cables n);
  c_dm42 : idle_wire n (uun3_id n) "dm42";
  c_dm43 : idle_wire n (uun3_id n) "dm43" }.

Lemma wires_idle n : calm n → simulate_physical_connections n = Ok n.
Proof.
  intros [_ Hc H2 H3]. unfold cables in Hc. rewrite !Forall_cons in Hc. destruct Hc as (Ha & Hb & Hc & Hd & _).
  unfold simulate_physical_connections. do 4 (rewrite wire_idle, result_bind_ok by done). by apply wire3_idle.
Qed.

Lemma default_put n id x name y : default_id (put n id x name y) = default_id n.
Proof. done. Qed.
Lemma eth0_put n id x name y : eth0_id (put n id x name y) = eth0_id n.
Proof. done. Qed.
Lemma eth2_put n id x name y : eth2_id (put n id x name y) = eth2_id n.
Proof. done. Qed.
Lemma hs4_put n id x name y : hs4_id (put n id x name y) = hs4_id n.
Proof. done. Qed.
Lemma uun3_put n id x name y : uun3_id (put n id x name y) = uun3_id n.
Proof. done. Qed.

Create Rewrite HintDb ids.
#[export] Hint Rewrite default_put eth0_put eth2_put hs4_put uun3_put @result_bind_ok : ids.

Lemma wires_one n id name x y x' y' : calm n → (id, name) ∈ cables n → exchange x y = Ok (x', y') →
  simulate_physical_connections (put n id x name y) = Ok (put n id x' name y').
Proof.
  intros [Hids Hc H2 H3] Hin E.
  destruct (proj1 (Forall_forall _ _) Hc _ Hin) as (a & h & Ea & Eh & En & _). simpl in *. apply lookup_lt_Some in Ea.
  pose proof (wire_active n id name x y x' y' h Ea Eh En E) as Hw. clear Ea Eh En E.
  rewrite !NoDup_cons, !not_elem_of_cons in Hids. unfold cables in *. rewrite !Forall_cons in Hc.
  destruct Hc as (Ha & Hb & Hc & Hd & _). simpl in *. unfold simulate_physical_connections.
  rewrite !elem_of_cons in Hin. destruct Hin as [E|[E|[E|[E|[]%elem_of_nil]]]]; injection E as -> ->;
    destruct_and! Hids;
    repeat (autorewrite with ids; first [rewrite wire_idle by (by apply idle_wire_put) | rewrite Hw]); autorewrite with ids;
    by apply wire3_idle; apply idle_wire_put.
Qed.

(** No datagram waits for the router. *)
Definition drained (n : t) : Prop := Router.drained (interfaces n).

Lemma drained_put n id x name y : drained n → AsyncNetworkInterface.datagrams_out x = [] → drained (put n id x name y).
Proof. intros Hd Hx. by apply Forall_insert. Qed.

(** The router with nothing to do, and with one datagram in the queue of interface [id]. *)
Lemma route_idle rules n : Router.answers rules (Router.route_mps (_router n)) → drained n →
  Router.route (_router n) = Ok (_router n).
Proof.
  unfold drained, interfaces. destruct (_router n) as [itfs mps]. by apply Router.route_drained.
Qed.

Lemma route_one rules n id a d j b : Router.answers rules (Router.route_mps (_router n)) → drained n →
  interfaces n !! Z.to_nat id = Some a → Router.routable d →
  Router.forward rules (AsyncNetworkInterface.base <$> interfaces n) d
    = Ok (<[Z.to_nat j := b]> (AsyncNetworkInterface.base <$> interfaces n)) →
  Router.route (_router (put_interface n id (AsyncNetworkInterface.mk (AsyncNetworkInterface.base a) [d])))
  = Ok (_router (put_interface n j (AsyncNetworkInterface.of_interface b))).
Proof.
  intros Ha Hd Ea Hr Hf. exact (Router.route_single rules _ _ _ a d _ b Ha Hd Ea Hr Hf).
Qed.

(** A round that moves the frames of one wire. *)
Lemma round_one rules n id name x y x' y' : Router.answers rules (Router.route_mps (_router n)) → calm n → drained n →
  (id, name) ∈ cables n → AsyncNetworkInterface.datagrams_out x = [] → exchange x y = Ok (x', y') →
  round (put n id x name y) = Ok (put n id x' name y').
Proof.
  intros Ha Hc Hd Hin Hx E. unfold round.
  rewrite (route_idle rules); [|done | by apply drained_put]. rewrite result_bind_ok. by apply wires_one.
Qed.

(** ** The shared wire

    On the wire of "dm42" and "dm43" each of them hears the traffic of the other with the router.
    What it overhears changes its cache and nothing else. *)

Definition sharers : list (string * string) := [("dm42", "dm43"); ("dm43", "dm42")]%string.

(** The network with other interfaces at the ends of the shared wire. *)
Definition put3 (n : t) (x : AsyncNetworkInterface.t) (name : string) (y : AsyncNetworkInterface.t) (other : string)
  (z : AsyncNetworkInterface.t) : t :=
  put_host_interface (put n (uun3_id n) x name y) other z.

Record overhears (ethx : EthernetAddress) (ipx : Z) (z z' : AsyncNetworkInterface.t) : Prop := {
  o_queue : AsyncNetworkInterface.datagrams_out z' = AsyncNetworkInterface.datagrams_out z;
  o_cache : ∃ mp, AsyncNetworkInterface.base z' = NetworkInterface.set_addr_mp (AsyncNetworkInterface.base z) mp ∧
    (mp !! ipx = NetworkInterface._addr_mp (AsyncNetworkInterface.base z) !! ipx ∨ ∃ age, mp !! ipx = Some (age, ethx)) }.

Lemma overhears_refl ethx ipx z : overhears ethx ipx z z.
Proof.
  constructor; [done|]. exists (NetworkInterface._addr_mp (AsyncNetworkInterface.base z)). split; [|by left].
  by destruct z as [[]].
Qed.

Lemma overhears_trans ethx ipx z1 z2 z3 : overhears ethx ipx z1 z2 → overhears ethx ipx z2 z3 → overhears ethx ipx z1 z3.
Proof.
  intros [Q1 (mp1 & E1 & H1)] [Q2 (mp2 & E2 & H2)]. constructor; [by rewrite Q2|]. exists mp2. rewrite E1 in E2. split; [done|].
  destruct H2 as [H2|H2]; [|by right]. rewrite E1 in H2. simpl in H2. by rewrite H2.
Qed.

Lemma overhears_rest ethx ipx z z' ip : overhears ethx ipx z z' → at_rest (AsyncNetworkInterface.base z) ip →
  at_rest (AsyncNetworkInterface.base z') ip.
Proof. intros [_ (mp & E & _)] []. rewrite E. by constructor. Qed.

Lemma overhears_frames ethx ipx z z' : overhears ethx ipx z z' → frames z' = frames z.
Proof. intros [_ (mp & E & _)]. unfold frames. by rewrite E. Qed.

Section Overhearing.
Context (ethx ethy : EthernetAddress) (ipx ipy : Z) (Hxy : ipx ≠ ipy).

Lemma overhear_frame z ipz f : at_rest (AsyncNetworkInterface.base z) ipz → between ethx ipx ethy ipy f →
  NetworkInterface._ethernet_address (AsyncNetworkInterface.base z) ≠ ethx →
  NetworkInterface._ethernet_address (AsyncNetworkInterface.base z) ≠ ethy → ipz ≠ ipx → ipz ≠ ipy →
  ∃ z', AsyncNetworkInterface.recv_frame z (on_wire f) = Ok z' ∧ overhears ethx ipx z z'.
Proof.
  intros Hz Hf Hex Hey Hix Hiy. unfold AsyncNetworkInterface.recv_frame.
  destruct Hf as [[Ht Hd]|(Ht & m & Hv & Hs & Hp & Hm & Hg)].
  - exists z. split; [|apply overhears_refl]. unfold NetworkInterface.recv_frame.
    cbn [on_wire EthernetFrame.header EthernetFrame._header]. fold (EthernetFrame.header f).
    rewrite Ht, Z.eqb_refl, bool_decide_eq_false_2 by (intros E; destruct Hd; congruence). by destruct z.
  - rewrite (recv_arp_frame _ f m Ht Hv Hs Hp). unfold NetworkInterface.recv_arp, NetworkInterface.learn.
    simpl NetworkInterface._data_mp. rewrite (r_pending _ _ Hz), lookup_empty, result_bind_ok.
    set (mp := <[_ := _]> _). exists (AsyncNetworkInterface.mk (NetworkInterface.set_addr_mp (AsyncNetworkInterface.base z) mp)
      (AsyncNetworkInterface.datagrams_out z)). split.
    + destruct (_ =? _); [|done]. cbn [NetworkInterface._ip_address NetworkInterface.set_addr_mp].
      rewrite (r_ip _ _ Hz), Address.ipv4_numeric_of_ipv4, result_bind_ok by apply Hz.
      destruct (Z.eqb_spec (ARPMessage.target_ip_address m) ipz) as [E|]; [destruct Hg; congruence | done].
    + constructor; [done|]. exists mp. split; [done|]. unfold mp. destruct Hm as [[-> ->]|[_ ->]].
      * right. exists 30000. apply lookup_insert_eq.
      * left. by apply lookup_insert_ne.
Qed.

Lemma overhear_all fs z ipz : at_rest (AsyncNetworkInterface.base z) ipz → Forall (between ethx ipx ethy ipy) fs →
  NetworkInterface._ethernet_address (AsyncNetworkInterface.base z) ≠ ethx →
  NetworkInterface._ethernet_address (AsyncNetworkInterface.base z) ≠ ethy → ipz ≠ ipx → ipz ≠ ipy →
  ∃ z', deliver fs z = Ok z' ∧ overhears ethx ipx z z'.
Proof.
  intros Hz Hfs Hex Hey Hix Hiy. revert z Hz Hex Hey. induction Hfs as [|f fs Hf _ IH]; intros z Hz Hex Hey; simpl.
  { exists z. split; [done | apply overhears_refl]. }
  destruct (overhear_frame z ipz f Hz Hf Hex Hey Hix Hiy) as (z1 & -> & O1). rewrite result_bind_ok.
  assert (NetworkInterface._ethernet_address (AsyncNetworkInterface.base z1)
    = NetworkInterface._ethernet_address (AsyncNetworkInterface.base z)) as Ee.
  { destruct O1 as [_ (mp & -> & _)]. done. }
  destruct (IH z1) as (z2 & E & O2); [by eapply overhears_rest | congruence | congruence|].
  exists z2. split; [done|]. by eapply overhears_trans.
Qed.

End Overhearing.

Lemma deliver_app fs gs : ∀ a, deliver (fs ++ gs) a = (a ← deliver fs a; deliver gs a).
Proof.
  induction fs as [|f fs IH]; intros a; [done|]. simpl. destruct (AsyncNetworkInterface.recv_frame _ _); [|done].
  rewrite !result_bind_ok. apply IH.
Qed.

(** The third interface listens. *)
Lemma exchange3_listen x y z x' y' z' : frames z = [] → exchange x y = Ok (x', y') →
  deliver (frames x ++ frames y) z = Ok z' →
  exchange3 x y z = Ok (x', y', z') ∧ exchange3 x z y = Ok (x', z', y').
Proof.
  intros Fz (y1 & Ey & E)%result_bind_inv Ez. apply result_bind_inv in E as (x1 & Ex & E).
  apply result_bind_inv in E as (x2 & Ex2 & (y2 & Ey2 & [= <- <-])%result_bind_inv).
  rewrite deliver_app in Ez. apply result_bind_inv in Ez as (z1 & Ez1 & Ez2).
  assert (clear_frames [] z' = Ok z') as Ec by (unfold clear_frames; simpl; by rewrite set_frames_id).
  unfold exchange3. rewrite Fz. split.
  - do 2 (rewrite ?Ey, ?Ez1, result_bind_ok). rewrite Ex, result_bind_ok, Ez2, result_bind_ok. cbn [deliver].
    rewrite !result_bind_ok, Ex2, result_bind_ok, Ey2, result_bind_ok, Ec. done.
  - rewrite Ez1, result_bind_ok, Ey, result_bind_ok. cbn [deliver]. rewrite !result_bind_ok, Ex, result_bind_ok.
    rewrite Ez2, result_bind_ok, Ex2, result_bind_ok, Ec, result_bind_ok, Ey2. done.
Qed.

Lemma sharers_cases name other : (name, other) ∈ sharers →
  (name = "dm42"%string ∧ other = "dm43"%string) ∨ (name = "dm43"%string ∧ other = "dm42"%string).
Proof. unfold sharers. rewrite !elem_of_cons. intros [[= -> ->]|[[= -> ->]|[]%elem_of_nil]]; auto. Qed.

Lemma sharers_sym name other : (name, other) ∈ sharers → (other, name) ∈ sharers.
Proof. intros [[-> ->]|[-> ->]]%sharers_cases; unfold sharers; rewrite !elem_of_cons; auto. Qed.

Lemma sharers_distinct name other : (name, other) ∈ sharers → name ≠ other.
Proof. by intros [[-> ->]|[-> ->]]%sharers_cases. Qed.

Lemma put3_flip n x name y other z : name ≠ other → put3 n x name y other z = put3 n x other z name y.
Proof.
  intros Hne. unfold put3, put, put_host_interface, put_interface, set_hosts. simpl. f_equal. apply map_eq. intros k.
  destruct (decide (k = other)) as [->|]; [|destruct (decide (k = name)) as [->|]].
  - by rewrite lookup_alter_eq, !lookup_alter_ne, lookup_alter_eq by done.
  - by rewrite lookup_alter_ne, !lookup_alter_eq, lookup_alter_ne by done.
  - by rewrite !lookup_alter_ne.
Qed.

Lemma put3_put3 n x name y other z x' y' z' : name ≠ other →
  put_host_interface (put_host_interface (put_interface (put3 n x name y other z) (uun3_id n) x') name y') other z'
  = put3 n x' name y' other z'.
Proof.
  intros Hne. change (put_host_interface (put_host_interface (put_interface (put3 n x name y other z) (uun3_id n) x') name y') other z')
    with (put3 (put3 n x name y other z) x' name y' other z').
  unfold put3, put, put_host_interface, put_interface, Router.set_interface, set_router, set_hosts. simpl.
  rewrite list_insert_insert_eq. f_equal. apply map_eq. intros k.
  destruct (decide (k = other)) as [->|]; [|destruct (decide (k = name)) as [->|]].
  - repeat first [rewrite lookup_alter_eq | rewrite lookup_alter_ne by done]. by destruct (_hosts n !! other).
  - repeat first [rewrite lookup_alter_eq | rewrite lookup_alter_ne by done]. by destruct (_hosts n !! name).
  - by rewrite !lookup_alter_ne.
Qed.

(** What is at the ends of the shared wire. *)
Lemma put3_ends n x name y other z h h' : (Z.to_nat (uun3_id n) < length (interfaces n))%nat → name ≠ other →
  _hosts n !! name = Some h → _hosts n !! other = Some h' →
  interfaces (put3 n x name y other z) !! Z.to_nat (uun3_id n) = Some x ∧
  _hosts (put3 n x name y other z) !! name = Some (Host.set_interface h y) ∧
  _hosts (put3 n x name y other z) !! other = Some (Host.set_interface h' z).
Proof.
  intros Hid Hne Eh Eh'. split; [by apply list_lookup_insert_eq|]. simpl.
  rewrite lookup_alter_ne, lookup_alter_eq, Eh by done. split; [done|]. by rewrite lookup_alter_eq, lookup_alter_ne, Eh' by done.
Qed.

Lemma idle_wire_host n id name other z : name ≠ other → idle_wire n id name → idle_wire (put_host_interface n other z) id name.
Proof.
  intros Hne (a & h & Ea & Eh & H). exists a, h. split; [done|]. split; [|done]. simpl. by rewrite lookup_alter_ne.
Qed.

(** The names and numbers of the wires with one host are not those of the shared wire. *)
Lemma cable_uun3 n id name : calm n → (id, name) ∈ cables n →
  Z.to_nat id ≠ Z.to_nat (uun3_id n) ∧ name ≠ "dm42"%string ∧ name ≠ "dm43"%string ∧ name ∈ names.
Proof.
  intros [Hids _ _ _] H. simpl in Hids. rewrite !NoDup_cons, !not_elem_of_cons in Hids. destruct_and! Hids.
  unfold cables in *. rewrite !elem_of_cons in H.
  destruct H as [E|[E|[E|[E|[]%elem_of_nil]]]]; injection E as -> ->; unfold names; rewrite !elem_of_cons;
    repeat split; naive_solver.
Qed.

Lemma cable_ends n id name : calm n → (id, name) ∈ cables n → idle_wire n id name.
Proof. intros Hc Hin. exact (proj1 (Forall_forall _ _) (c_cables _ Hc) _ Hin). Qed.

Lemma cable_put3 n x name y other z id name' : calm n → (name, other) ∈ sharers → (id, name') ∈ cables n →
  idle_wire (put3 n x name y other z) id name'.
Proof.
  intros Hc Hs Hin. destruct (cable_uun3 n id name' Hc Hin) as (Hid & H2 & H3 & _).
  assert (name' ≠ name ∧ name' ≠ other) as [Hn Ho] by (by destruct (sharers_cases _ _ Hs) as [[-> ->]|[-> ->]]).
  apply idle_wire_host; [done|]. apply idle_wire_put; [done | done|]. by apply (cable_ends n).
Qed.

Lemma sharer_ends n name other : calm n → (name, other) ∈ sharers →
  ∃ a h h', interfaces n !! Z.to_nat (uun3_id n) = Some a ∧ _hosts n !! name = Some h ∧ Host._name h = name ∧
    _hosts n !! other = Some h' ∧ Host._name h' = other ∧
    frames a = [] ∧ frames (Host._interface h) = [] ∧ frames (Host._interface h') = [].
Proof.
  intros [_ _ (a & h & Ea & Eh & En & Fa & Fh) (a' & h' & Ea' & Eh' & En' & _ & Fh')] Hs.
  destruct (sharers_cases _ _ Hs) as [[-> ->]|[-> ->]]; [by exists a, h, h' | by exists a, h', h].
Qed.

Lemma wires_shared n name other x y z x' y' z' : calm n → (name, other) ∈ sharers → frames z = [] →
  exchange x y = Ok (x', y') → deliver (frames x ++ frames y) z = Ok z' →
  simulate_physical_connections (put3 n x name y other z) = Ok (put3 n x' name y' other z').
Proof.
  intros Hc Hs Fz E Ez. destruct (sharer_ends n name other Hc Hs) as (a & h & h' & Ea & Eh & En & Eh' & En' & _).
  destruct (put3_ends n x name y other z h h' (lookup_lt_Some _ _ _ Ea) (sharers_distinct _ _ Hs) Eh Eh') as (Ex & Ey & Ez').
  destruct (exchange3_listen x y z x' y' z' Fz E Ez) as [H1 H2].
  assert (∀ id nm, (id, nm) ∈ cables n → wire (put3 n x name y other z) id nm = Ok (put3 n x name y other z)) as Hw.
  { intros id nm Hin. by apply wire_idle, cable_put3. }
  unfold simulate_physical_connections. change (default_id (put3 n x name y other z)) with (default_id n).
  rewrite Hw, result_bind_ok by (unfold cables; by left). change (eth0_id (put3 n x name y other z)) with (eth0_id n).
  rewrite Hw, result_bind_ok by (unfold cables; do 1 right; by left). change (eth2_id (put3 n x name y other z)) with (eth2_id n).
  rewrite Hw, result_bind_ok by (unfold cables; do 2 right; by left). change (hs4_id (put3 n x name y other z)) with (hs4_id n).
  rewrite Hw, result_bind_ok by (unfold cables; do 3 right; by left). change (uun3_id (put3 n x name y other z)) with (uun3_id n).
  unfold wire3. rewrite (interface_lookup _ _ x Ex), result_bind_ok.
  pose proof (host_lookup _ name _ Ey En) as Ly. pose proof (host_lookup _ other _ Ez' En') as Lz.
  destruct (sharers_cases _ _ Hs) as [[-> ->]|[-> ->]].
  - rewrite Ly, result_bind_ok, Lz, result_bind_ok. simpl Host._interface. rewrite H1, result_bind_ok. f_equal. by apply put3_put3.
  - rewrite Lz, result_bind_ok, Ly, result_bind_ok. simpl Host._interface. rewrite H2, result_bind_ok. f_equal.
    rewrite put3_flip, put3_put3, put3_flip by done. done.
Qed.

Lemma round_shared rules n name other x y z x' y' z' : Router.answers rules (Router.route_mps (_router n)) → calm n → drained n →
  (name, other) ∈ sharers → AsyncNetworkInterface.datagrams_out x = [] → frames z = [] →
  exchange x y = Ok (x', y') → deliver (frames x ++ frames y) z = Ok z' →
  round (put3 n x name y other z) = Ok (put3 n x' name y' other z').
Proof.
  intros Ha Hc Hd Hs Hx Fz E Ez. unfold round.
  rewrite (route_idle rules); [|done | by apply (drained_put n (uun3_id n) x name y)]. rewrite result_bind_ok.
  by apply wires_shared.
Qed.

Section Carry.
Context (rules : list Router.rule) (n : t).
Context (Hans : Router.answers rules (Router.route_mps (_router n))) (Hcalm : calm n) (Hdrained : drained n).

(** Over a wire with one host, and over the shared wire. *)
Lemma carry P id name k x y x' y' : (id, name) ∈ cables n → moves P k x y x' y' → AsyncNetworkInterface.datagrams_out x = [] →
  rounds k (put n id x name y) = Ok (put n id x' name y').
Proof.
  intros Hin. induction 1 as [x y x' y' E _|k x y x1 y1 x' y' E _ Ex _ IH]; intros Hq; cbn [rounds];
    rewrite (round_one rules n id name _ _ _ _ Hans Hcalm Hdrained Hin Hq E), result_bind_ok; [done|].
  apply IH. by rewrite Ex.
Qed.

Lemma carry_shared ethx ethy ipx ipy ipz name other k x y x' y' : (name, other) ∈ sharers →
  moves (between ethx ipx ethy ipy) k x y x' y' → ipx ≠ ipy → ipz ≠ ipx → ipz ≠ ipy →
  ∀ z, at_rest (AsyncNetworkInterface.base z) ipz →
  NetworkInterface._ethernet_address (AsyncNetworkInterface.base z) ≠ ethx →
  NetworkInterface._ethernet_address (AsyncNetworkInterface.base z) ≠ ethy → AsyncNetworkInterface.datagrams_out x = [] →
  ∃ z', rounds k (put3 n x name y other z) = Ok (put3 n x' name y' other z') ∧ overhears ethx ipx z z'.
Proof.
  intros Hs Hm Hxy Hzx Hzy. induction Hm as [x y x' y' E HP|k x y x1 y1 x' y' E HP Ex _ IH]; intros z Hz Hex Hey Hq; cbn [rounds];
    destruct (overhear_all ethx ethy ipx ipy Hxy _ z ipz Hz HP Hex Hey Hzx Hzy) as (z1 & Ez & O1);
    rewrite (round_shared rules n name other _ _ _ _ _ z1 Hans Hcalm Hdrained Hs Hq (r_frames _ _ Hz) E Ez), result_bind_ok; [by exists z1|].
  assert (NetworkInterface._ethernet_address (AsyncNetworkInterface.base z1)
    = NetworkInterface._ethernet_address (AsyncNetworkInterface.base z)) as Ee by (destruct O1 as [_ (mp & -> & _)]; done).
  destruct (IH z1) as (z2 & -> & O2); [by eapply overhears_rest | congruence | congruence | by rewrite Ex|].
  exists z2. split; [done|]. by eapply overhears_trans.
Qed.

End Carry.

Lemma rounds_idle rules k n : Router.answers rules (Router.route_mps (_router n)) → calm n → drained n →
  rounds k n = Ok n.
Proof.
  intros Ha Hc Hd. induction k as [|k IH]; [done|]. cbn [rounds]. unfold round.
  rewrite (route_idle rules), result_bind_ok by done.
  replace (set_router n (_router n)) with n by (by destruct n). by rewrite wires_idle, result_bind_ok.
Qed.

Lemma rounds_add k1 k2 n n1 : rounds k1 n = Ok n1 → rounds (k1 + k2) n = rounds k2 n1.
Proof.
  revert n. induction k1 as [|k1 IH]; intros n; simpl; [by intros [= <-]|].
  intros (n2 & E & E2)%result_bind_inv. rewrite E, result_bind_ok. by apply IH.
Qed.

(** ** The network at rest *)

(** All wires: those with one host, and the shared one with each of its hosts. *)
Definition links (n : t) : list (Z * string) :=
  cables n ++ [(uun3_id n, "dm42"%string); (uun3_id n, "dm43"%string)].

(** Two interfaces with different addresses. *)
Definition apart (b c : NetworkInterface.t) : Prop :=
  NetworkInterface._ethernet_address b ≠ NetworkInterface._ethernet_address c ∧
  NetworkInterface._ip_address b ≠ NetworkInterface._ip_address c.

Record quiet (rules : list Router.rule) (n : t) : Prop := {
  q_ok : net_ok rules n;
  q_calm : calm n;
  q_drained : drained n;
  q_settled id name a h : (id, name) ∈ links n → interfaces n !! Z.to_nat id = Some a → _hosts n !! name = Some h →
    ∃ ipa iph, settled (AsyncNetworkInterface.base a) (AsyncNetworkInterface.base (Host._interface h)) ipa iph;
  q_apart name other a h h' : (name, other) ∈ sharers → interfaces n !! Z.to_nat (uun3_id n) = Some a →
    _hosts n !! name = Some h → _hosts n !! other = Some h' →
    apart (AsyncNetworkInterface.base (Host._interface h')) (AsyncNetworkInterface.base a) ∧
    apart (AsyncNetworkInterface.base (Host._interface h')) (AsyncNetworkInterface.base (Host._interface h));
  q_hosts : map_Forall (λ _ h, AsyncNetworkInterface.datagrams_out (Host._interface h) = []) (_hosts n) }.

Lemma links_cases n id name : (id, name) ∈ links n →
  (id, name) ∈ cables n ∨ (id = uun3_id n ∧ ∃ other, (name, other) ∈ sharers).
Proof.
  unfold links, sharers. rewrite elem_of_app, !elem_of_cons.
  intros [H|[[= -> ->]|[[= -> ->]|[]%elem_of_nil]]]; [by left | |]; right; (split; [done|]); eexists; rewrite !elem_of_cons; eauto.
Qed.

Lemma sharer_links n name other : (name, other) ∈ sharers → (uun3_id n, name) ∈ links n ∧ (uun3_id n, other) ∈ links n.
Proof.
  intros [[-> ->]|[-> ->]]%sharers_cases; unfold links; rewrite !elem_of_app, !elem_of_cons; auto 6.
Qed.

(** Two wires are the same or have different ends. *)
Lemma cables_distinct n id name id' name' : calm n → (id, name) ∈ cables n → (id', name') ∈ cables n →
  (id = id' ∧ name = name') ∨ (Z.to_nat id ≠ Z.to_nat id' ∧ name ≠ name').
Proof.
  intros [Hids _ _ _] H H'. simpl in Hids. rewrite !NoDup_cons, !not_elem_of_cons in Hids. destruct_and! Hids.
  unfold cables in *. rewrite !elem_of_cons in H, H'.
  destruct H as [E|[E|[E|[E|[]%elem_of_nil]]]]; injection E as -> ->;
    destruct H' as [E|[E|[E|[E|[]%elem_of_nil]]]]; injection E as -> ->; first [by left | by right].
Qed.

Lemma calm_put n id name x y : calm n → (id, name) ∈ cables n → frames x = [] → frames y = [] →
  calm (put n id x name y).
Proof.
  intros Hc Hin Fx Fy. destruct (cable_uun3 n id name Hc Hin) as (Hu & H42 & H43 & _).
  destruct (cable_ends n id name Hc Hin) as (a & h & Ea & Eh & En & _).
  constructor; [apply Hc | | apply idle_wire_put; [done | done | apply Hc]..].
  apply Forall_forall. intros [id' name'] Hin'. simpl.
  destruct (cables_distinct n id name id' name' Hc Hin Hin') as [[<- <-]|[Hid Hname]].
  - exists x, (Host.set_interface h y). split; [|split; [|done]].
    + apply list_lookup_insert_eq. by eapply lookup_lt_Some.
    + simpl. by rewrite lookup_alter_eq, Eh.
  - apply idle_wire_put; [done | done|]. by apply (cable_ends n).
Qed.

Lemma net_ok_put rules n id name x y : net_ok rules n → name ∈ names → good x → good y → net_ok rules (put n id x name y).
Proof.
  intros Hn Hname Hx Hy. destruct (host_ok rules n name Hn Hname) as (h & _ & Eh & _). unfold put.
  rewrite (put_host_interface_eq _ _ h) by done.
  apply (net_ok_hosts rules _ name h); [by apply net_ok_interface | done | done | done].
Qed.

Lemma quiet_put rules n id name x y ipx ipy : quiet rules n → (id, name) ∈ cables n → good x → good y →
  AsyncNetworkInterface.datagrams_out x = [] → AsyncNetworkInterface.datagrams_out y = [] →
  settled (AsyncNetworkInterface.base x) (AsyncNetworkInterface.base y) ipx ipy → quiet rules (put n id x name y).
Proof.
  intros [] Hin Gx Gy Qx Qy Hs. destruct (cable_uun3 n id name q_calm0 Hin) as (Hu & H42 & H43 & Hname).
  assert (∀ id' name' a h, Z.to_nat id ≠ Z.to_nat id' → name ≠ name' → interfaces (put n id x name y) !! Z.to_nat id' = Some a →
    _hosts (put n id x name y) !! name' = Some h → interfaces n !! Z.to_nat id' = Some a ∧ _hosts n !! name' = Some h) as Hold.
  { intros id' name' a h Hid Hn' Ea Eh. split.
    - rewrite <- Ea. symmetry. by apply list_lookup_insert_ne.
    - revert Eh. simpl. by rewrite lookup_alter_ne. }
  constructor.
  - by apply net_ok_put.
  - apply calm_put; [done | done | apply Hs | apply Hs].
  - by apply drained_put.
  - intros id' name' a h Hin' Ea Eh.
    destruct (links_cases n id' name' Hin') as [Hin2|(Eid & other & Hsh)].
    2:{ destruct (Hold id' name' a h) as [Ea' Eh']; [by rewrite Eid | by destruct (sharers_cases _ _ Hsh) as [[-> _]|[-> _]] | done | done |].
        by apply (q_settled0 id' name'). }
    destruct (cables_distinct n id name id' name' q_calm0 Hin Hin2) as [[<- <-]|[Hid Hn']].
    + destruct (cable_ends n id name q_calm0 Hin) as (a0 & h0 & Ea0 & Eh0 & _).
      assert (a = x) as ->.
      { revert Ea. unfold interfaces; simpl. rewrite list_lookup_insert_eq by (by eapply lookup_lt_Some). congruence. }
      revert Eh. simpl. rewrite lookup_alter_eq, Eh0. intros [= <-]. by exists ipx, ipy.
    + destruct (Hold id' name' a h Hid Hn' Ea Eh) as [Ea' Eh']. by apply (q_settled0 id' name').
  - intros m o a h h' Hsh Ea Eh Eh'. change (uun3_id (put n id x name y)) with (uun3_id n) in Ea.
    assert (name ≠ m ∧ name ≠ o) as [Hm Ho] by (by destruct (sharers_cases _ _ Hsh) as [[-> ->]|[-> ->]]).
    destruct (Hold (uun3_id n) m a h Hu Hm Ea Eh) as [Ea1 Eh1]. destruct (Hold (uun3_id n) o a h' Hu Ho Ea Eh') as [_ Eh2].
    by apply (q_apart0 m o).
  - intros m h Eh. revert Eh. simpl. destruct (decide (m = name)) as [->|].
    + rewrite lookup_alter_eq. by intros (h0 & E & ->)%fmap_Some_1.
    + rewrite lookup_alter_ne by done. apply q_hosts0.
Qed.

(** The same for the shared wire. *)
Definition same_addresses (b b' : NetworkInterface.t) : Prop :=
  NetworkInterface._ethernet_address b' = NetworkInterface._ethernet_address b ∧
  NetworkInterface._ip_address b' = NetworkInterface._ip_address b.

Lemma apart_same b b' c c' : same_addresses b b' → same_addresses c c' → apart b c → apart b' c'.
Proof. intros [E1 E2] [E3 E4]. unfold apart. by rewrite E1, E2, E3, E4. Qed.

(** A host of the changed network is one of the two at the shared wire, or an old one. *)
Lemma put3_hosts n x name y other z h h' k g : (name, other) ∈ sharers → _hosts n !! name = Some h → _hosts n !! other = Some h' →
  _hosts (put3 n x name y other z) !! k = Some g →
  (k = name ∧ g = Host.set_interface h y) ∨ (k = other ∧ g = Host.set_interface h' z) ∨
  (k ≠ name ∧ k ≠ other ∧ _hosts n !! k = Some g).
Proof.
  intros Hs Eh Eh'. pose proof (sharers_distinct _ _ Hs) as Hne. simpl. destruct (decide (k = other)) as [->|Ho].
  - rewrite lookup_alter_eq, lookup_alter_ne, Eh' by done. intros [= <-]. auto.
  - rewrite lookup_alter_ne by done. destruct (decide (k = name)) as [->|].
    + rewrite lookup_alter_eq, Eh. intros [= <-]. auto.
    + rewrite lookup_alter_ne by done. auto.
Qed.

Section QuietShared.
Context (rules : list Router.rule) (n : t) (name other : string) (x y z a : AsyncNetworkInterface.t) (h h' : Host.t) (ipx ipy ipz : Z).
Context (Hq : quiet rules n) (Hsh : (name, other) ∈ sharers) (Ea : interfaces n !! Z.to_nat (uun3_id n) = Some a)
  (Eh : _hosts n !! name = Some h) (Eh' : _hosts n !! other = Some h').
Context (Gx : good x) (Gy : good y) (Gz : good z).
Context (Hxy : settled (AsyncNetworkInterface.base x) (AsyncNetworkInterface.base y) ipx ipy)
  (Hxz : settled (AsyncNetworkInterface.base x) (AsyncNetworkInterface.base z) ipx ipz).

Lemma net_ok_put3 : net_ok rules (put3 n x name y other z).
Proof.
  pose proof (sharers_distinct _ _ Hsh) as Hne. pose proof (q_ok _ _ Hq) as Hok. unfold put3, put.
  rewrite (put_host_interface_eq (put_interface n (uun3_id n) x) name h) by done.
  rewrite (put_host_interface_eq _ other h') by (simpl; by rewrite lookup_insert_ne).
  apply (net_ok_hosts rules _ other h'); [|simpl; by rewrite lookup_insert_ne | done | done].
  apply (net_ok_hosts rules _ name h); [by apply net_ok_interface | done | done | done].
Qed.

Lemma calm_put3 : calm (put3 n x name y other z).
Proof.
  pose proof (sharers_distinct _ _ Hsh) as Hne. pose proof (q_calm _ _ Hq) as Hc.
  destruct (put3_ends n x name y other z h h' (lookup_lt_Some _ _ _ Ea) Hne Eh Eh') as (Ex & Ey & Ez).
  destruct (n_hosts _ _ (q_ok _ _ Hq) _ _ Eh) as [En _]. destruct (n_hosts _ _ (q_ok _ _ Hq) _ _ Eh') as [En' _].
  assert (idle_wire (put3 n x name y other z) (uun3_id n) name) as Iy.
  { exists x, (Host.set_interface h y). do 3 (split; [done|]). split; apply Hxy. }
  assert (idle_wire (put3 n x name y other z) (uun3_id n) other) as Iz.
  { exists x, (Host.set_interface h' z). do 3 (split; [done|]). split; apply Hxz. }
  constructor; [apply Hc | | by destruct (sharers_cases _ _ Hsh) as [[-> ->]|[-> ->]]..].
  apply Forall_forall. intros [id nm] Hin. by apply cable_put3.
Qed.

Lemma quiet_put3 :
  AsyncNetworkInterface.datagrams_out x = [] → AsyncNetworkInterface.datagrams_out y = [] → AsyncNetworkInterface.datagrams_out z = [] →
  same_addresses (AsyncNetworkInterface.base a) (AsyncNetworkInterface.base x) →
  same_addresses (AsyncNetworkInterface.base (Host._interface h)) (AsyncNetworkInterface.base y) →
  same_addresses (AsyncNetworkInterface.base (Host._interface h')) (AsyncNetworkInterface.base z) →
  quiet rules (put3 n x name y other z).
Proof.
  intros Qx Qy Qz Sx Sy Sz. pose proof (sharers_distinct _ _ Hsh) as Hne. pose proof Hq as [_ Hc Hd Hset Hap Hh].
  pose proof (put3_ends n x name y other z h h' (lookup_lt_Some _ _ _ Ea) Hne Eh Eh') as (Ex & Ey & Ez).
  constructor; [apply net_ok_put3 | apply calm_put3 | by apply (drained_put n (uun3_id n) x name y) | | |].
  - intros id nm b g Hin Eb Eg. change (links (put3 n x name y other z)) with (links n) in Hin.
    destruct (links_cases n id nm Hin) as [Hcab|(-> & o & Hs')].
    + destruct (cable_uun3 n id nm Hc Hcab) as (Hid & H2 & H3 & _).
      destruct (put3_hosts n x name y other z h h' nm g Hsh Eh Eh' Eg) as [[-> _]|[[-> _]|(_ & _ & Eg')]];
        [by destruct (sharers_cases _ _ Hsh) as [[-> ->]|[-> ->]].. |].
      apply (Hset id nm); [done | | done]. rewrite <- Eb. symmetry. by apply list_lookup_insert_ne.
    + assert (b = x) as -> by congruence.
      destruct (put3_hosts n x name y other z h h' nm g Hsh Eh Eh' Eg) as [[_ ->]|[[_ ->]|(Hn1 & Hn2 & _)]].
      * by exists ipx, ipy.
      * by exists ipx, ipz.
      * by destruct (sharers_cases _ _ Hsh) as [[-> ->]|[-> ->]], (sharers_cases _ _ Hs') as [[-> _]|[-> _]].
  - intros m o b g g' Hmo Eb Eg Eg'. change (uun3_id (put3 n x name y other z)) with (uun3_id n) in Eb.
    assert (b = x) as -> by congruence.
    destruct (Hap name other a h h' Hsh Ea Eh Eh') as [A1 A2]. destruct (Hap other name a h' h (sharers_sym _ _ Hsh) Ea Eh' Eh) as [A3 A4].
    assert ((m = name ∧ o = other) ∨ (m = other ∧ o = name)) as [[-> ->]|[-> ->]]
      by (destruct (sharers_cases _ _ Hsh) as [[-> ->]|[-> ->]], (sharers_cases _ _ Hmo) as [[-> ->]|[-> ->]]; auto).
    + rewrite Ey in Eg. rewrite Ez in Eg'. injection Eg as <-. injection Eg' as <-. simpl.
      split; [by apply (apart_same _ _ _ _ Sz Sx) | by apply (apart_same _ _ _ _ Sz Sy)].
    + rewrite Ez in Eg. rewrite Ey in Eg'. injection Eg as <-. injection Eg' as <-. simpl.
      split; [by apply (apart_same _ _ _ _ Sy Sx) | by apply (apart_same _ _ _ _ Sy Sz)].
  - intros k g Eg. destruct (put3_hosts n x name y other z h h' k g Hsh Eh Eh' Eg) as [[_ ->]|[[_ ->]|(_ & _ & Eg')]]; [done | done |].
    by apply (Hh k).
Qed.

End QuietShared.
(** An interface with a given queue of datagrams. *)
#[local] Notation "b ⊣ q" := (AsyncNetworkInterface.mk b q) (at level 30).

Lemma no_queue a : AsyncNetworkInterface.datagrams_out a = [] → AsyncNetworkInterface.base a ⊣ [] = a.
Proof. destruct a. simpl. by intros ->. Qed.

Lemma good_no_queue b q : good (b ⊣ q) → good (b ⊣ []).
Proof. intros []. by constructor. Qed.

(** The ends of a wire, from the state of the network. *)
Lemma put_ends rules n id x name y : quiet rules n → (id, name) ∈ cables n → net_ok rules (put n id x name y) →
  good x ∧ good y.
Proof.
  intros Hq Hin Hok. destruct (cable_ends n id name (q_calm _ _ Hq) Hin) as (a & h & Ea & Eh & _). split.
  - apply (Forall_lookup_1 _ _ (Z.to_nat id) _ (n_itfs _ _ Hok)). apply list_lookup_insert_eq. by eapply lookup_lt_Some.
  - assert (_hosts (put n id x name y) !! name = Some (Host.set_interface h y)) as E
      by (simpl; by rewrite lookup_alter_eq, Eh).
    by destruct (n_hosts _ _ Hok name _ E).
Qed.

Definition expectations (n : t) : gmap string (list IPv4Datagram.t) := Host._expecting_to_receive <$> _hosts n.

Lemma expectations_put n id x name y : expectations (put n id x name y) = expectations n.
Proof.
  apply map_eq. intros k. unfold expectations. rewrite !lookup_fmap. simpl. destruct (decide (k = name)) as [->|].
  - rewrite lookup_alter_eq. by destruct (_hosts n !! name).
  - by rewrite lookup_alter_ne.
Qed.

(** What the traffic of one host leaves as it is: the wires, the expectations, and the addresses of the other hosts. *)
Record same_shape (n m : t) (name : string) : Prop := {
  sh_links : links m = links n;
  sh_expect : expectations m = expectations n;
  sh_host c h : c ≠ name → _hosts n !! c = Some h → ∃ h', _hosts m !! c = Some h' ∧
    NetworkInterface._ip_address (AsyncNetworkInterface.base (Host._interface h'))
    = NetworkInterface._ip_address (AsyncNetworkInterface.base (Host._interface h)) }.

Lemma expectations_host n name y : expectations (put_host_interface n name y) = expectations n.
Proof.
  apply map_eq. intros k. unfold expectations. rewrite !lookup_fmap. simpl. destruct (decide (k = name)) as [->|].
  - rewrite lookup_alter_eq. by destruct (_hosts n !! name).
  - by rewrite lookup_alter_ne.
Qed.

Lemma moves_impl (P Q : EthernetFrame.t → Prop) k x y x' y' : (∀ f, P f → Q f) → moves P k x y x' y' → moves Q k x y x' y'.
Proof.
  intros HPQ. induction 1; [apply moves_last; [done|] | eapply moves_more; [done | | done | done]];
    (eapply Forall_impl; [done|]; exact HPQ).
Qed.

Lemma of_ipv4_inj ip ip' : 0 <= ip < two32 → 0 <= ip' < two32 → Address.of_ipv4 ip = Address.of_ipv4 ip' → ip = ip'.
Proof.
  intros H H' E. pose proof (Address.ipv4_numeric_of_ipv4 ip H) as E1. rewrite E in E1.
  pose proof (Address.ipv4_numeric_of_ipv4 ip' H') as E2. congruence.
Qed.

Lemma apart_ip b c ipb ipc : apart b c → at_rest b ipb → at_rest c ipc → ipb ≠ ipc.
Proof. intros [_ H] [] [] ->. congruence. Qed.

(** The router's end [b] has talked to another host, and [z] has listened: the two are still settled. *)
Lemma settled_listening b z b' z' ip ipz ipy : settled b (AsyncNetworkInterface.base z) ip ipz → at_rest b' ip → ipz ≠ ipy →
  keeps b b' ipy → overhears (NetworkInterface._ethernet_address b) ip z z' →
  settled b' (AsyncNetworkInterface.base z') ip ipz.
Proof.
  intros [_ Hz Hk Hk'] Hb Hne (Ee & _ & Hmp) Ho. constructor; [done | by eapply overhears_rest | |].
  - unfold knows in *. rewrite Hmp by done. destruct Ho as [_ (mp & -> & _)]. exact Hk.
  - unfold knows in *. rewrite Ee. destruct Ho as [_ (mp & -> & Hc)]. simpl. destruct Hc as [->|Hc]; [exact Hk' | by right].
Qed.

Section Links.
Context (rules : list Router.rule) (n : t) (id : Z) (name : string) (x0 : AsyncNetworkInterface.t) (h0 : Host.t) (ipx ipy : Z).
Context (Hq : quiet rules n) (Hin : (id, name) ∈ links n) (Ex0 : interfaces n !! Z.to_nat id = Some x0)
  (Eh0 : _hosts n !! name = Some h0).
#[local] Abbreviation b0 := (AsyncNetworkInterface.base x0).
#[local] Abbreviation c0 := (AsyncNetworkInterface.base (Host._interface h0)).
Context (Hset : settled b0 c0 ipx ipy).
#[local] Abbreviation traffic :=
  (between (NetworkInterface._ethernet_address b0) ipx (NetworkInterface._ethernet_address c0) ipy).

Definition runs (k : nat) (x y : AsyncNetworkInterface.t) (bx by_ : NetworkInterface.t) (qx qy : list IPv4Datagram.t) : Prop :=
  ∃ m, same_shape n m name ∧ rounds k (put n id x name y) = Ok (put m id (bx ⊣ qx) name (by_ ⊣ qy)) ∧
    interfaces (put m id (bx ⊣ []) name (by_ ⊣ [])) !! Z.to_nat id = Some (bx ⊣ []) ∧
    quiet rules (put m id (bx ⊣ []) name (by_ ⊣ [])).

(** A wire with one host. *)
Lemma cable_runs k x y bx by_ qx qy : (id, name) ∈ cables n → moves traffic k x y (bx ⊣ qx) (by_ ⊣ qy) →
  AsyncNetworkInterface.datagrams_out x = [] → good x → good y → settled bx by_ ipx ipy → runs k x y bx by_ qx qy.
Proof.
  intros Hc Hm Qx Gx Gy Hs. pose proof Hq as [Hok Hcalm Hdr _ _ _]. exists n.
  pose proof (carry rules n (n_answers _ _ Hok) Hcalm Hdr _ id name k x y _ _ Hc Hm Qx) as Hr.
  destruct (cable_uun3 n id name Hcalm Hc) as (_ & _ & _ & Hname).
  destruct (rounds_ok rules k (put n id x name y)) as (n' & Er & Hok'); [by apply net_ok_put|].
  rewrite Hr in Er. injection Er as <-. destruct (put_ends _ _ _ _ _ _ Hq Hc Hok') as [Gx' Gy'].
  split; [constructor; [done | done | eauto]|]. split; [done|].
  split; [apply list_lookup_insert_eq; by eapply lookup_lt_Some|].
  by apply (quiet_put rules n id name _ _ ipx ipy); [| | eapply good_no_queue | eapply good_no_queue | | |].
Qed.

(** The host that listens on the shared wire. *)
Lemma listener other : id = uun3_id n → (name, other) ∈ sharers →
  ∃ h' ipz, _hosts n !! other = Some h' ∧ settled b0 (AsyncNetworkInterface.base (Host._interface h')) ipx ipz ∧
    NetworkInterface._ethernet_address (AsyncNetworkInterface.base (Host._interface h')) ≠ NetworkInterface._ethernet_address b0 ∧
    NetworkInterface._ethernet_address (AsyncNetworkInterface.base (Host._interface h')) ≠ NetworkInterface._ethernet_address c0 ∧
    ipx ≠ ipy ∧ ipz ≠ ipx ∧ ipz ≠ ipy.
Proof.
  intros Eid Hsh. rewrite Eid in *. pose proof Hq as [_ Hcalm _ Hst Hap _].
  destruct (sharer_ends n name other Hcalm Hsh) as (a & h & h' & Ea & Eh & _ & Eh' & _).
  rewrite Ex0 in Ea. rewrite Eh0 in Eh. injection Ea as <-. injection Eh as <-.
  destruct (Hst (uun3_id n) other x0 h' (proj2 (sharer_links n _ _ Hsh)) Ex0 Eh') as (ipx' & ipz & Hz).
  assert (ipx' = ipx) as ->.
  { apply of_ipv4_inj; [apply Hz | apply Hset|]. rewrite <- (r_ip _ _ (s_left _ _ _ _ Hz)). apply Hset. }
  destruct (Hap name other x0 h0 h' Hsh Ex0 Eh0 Eh') as [Azx Azy].
  destruct (Hap other name x0 h' h0 (sharers_sym _ _ Hsh) Ex0 Eh' Eh0) as [A _].
  exists h', ipz. split; [done|]. split; [done|]. split; [apply Azx|]. split; [apply Azy|]. split; [|split].
  - apply not_eq_sym. eapply (apart_ip _ _ _ _ A); [apply Hset | apply Hset].
  - eapply (apart_ip _ _ _ _ Azx); [apply Hz | apply Hset].
  - eapply (apart_ip _ _ _ _ Azy); [apply Hz | apply Hset].
Qed.

(** The shared wire. *)
Lemma shared_runs other k x y bx by_ qx qy : id = uun3_id n → (name, other) ∈ sharers →
  moves traffic k x y (bx ⊣ qx) (by_ ⊣ qy) → AsyncNetworkInterface.datagrams_out x = [] → good x → good y →
  settled bx by_ ipx ipy → keeps b0 bx ipy → keeps c0 by_ ipx → runs k x y bx by_ qx qy.
Proof.
  unfold runs. intros Eid Hsh Hm Qx Gx Gy Hs Kx Ky. pose proof Hq as [Hok Hcalm Hdr _ _ Hh]. pose proof (sharers_distinct _ _ Hsh) as Hne.
  destruct (listener other Eid Hsh) as (h' & ipz & Eh' & Hz & Azx & Azy & Hxy & Hzx & Hzy). set (z0 := Host._interface h') in *.
  rewrite Eid in *.
  destruct (carry_shared rules n (n_answers _ _ Hok) Hcalm Hdr _ _ ipx ipy ipz name other k x y _ _ Hsh Hm Hxy Hzx Hzy z0)
    as (z' & Er & Ho); [apply Hz | done | done | done |].
  destruct (n_hosts _ _ Hok _ _ Eh') as [_ Gz]. fold z0 in Gz.
  destruct (rounds_ok rules k (put3 n x name y other z0)) as (n' & Er' & Hok').
  { apply (net_ok_put3 rules n name other x y z0 h0 h'); done. }
  rewrite Er in Er'. injection Er' as <-.
  destruct (put3_ends n (bx ⊣ qx) name (by_ ⊣ qy) other z' h0 h' (lookup_lt_Some _ _ _ Ex0) Hne Eh0 Eh') as (Lx & Ly & Lz).
  pose proof (Forall_lookup_1 _ _ _ _ (n_itfs _ _ Hok') Lx) as Gx'.
  destruct (n_hosts _ _ Hok' _ _ Ly) as [_ Gy']. destruct (n_hosts _ _ Hok' _ _ Lz) as [_ Gz'].
  exists (put_host_interface n other z').
  assert (∀ X Y, put (put_host_interface n other z') (uun3_id n) X name Y = put3 n X name Y other z') as Hput.
  { intros X Y. rewrite put3_flip by done. done. }
  split; [|split; [|split]].
  - constructor; [done | apply expectations_host|]. intros c g Hc Eg. simpl. destruct (decide (c = other)) as [->|].
    + rewrite lookup_alter_eq, Eg. eexists. split; [done|]. simpl. rewrite Eh' in Eg. injection Eg as <-.
      destruct Ho as [_ (mp & -> & _)]. done.
    + rewrite lookup_alter_ne by done. eauto.
  - rewrite Hput, <- Er. f_equal. unfold put3. symmetry. apply (put_host_interface_id _ other h'). simpl. by rewrite lookup_alter_ne.
  - apply list_lookup_insert_eq. by eapply lookup_lt_Some.
  - rewrite Hput. destruct Kx as (Kx1 & Kx2 & Kx3), Ky as (Ky1 & Ky2 & _).
    apply (quiet_put3 rules n name other _ _ z' x0 h0 h' ipx ipy ipz); [done | done | done | done | done
      | exact (good_no_queue bx qx Gx') | exact (good_no_queue by_ qy Gy') | exact Gz' | done | | done | done | | done | done |].
    + apply (settled_listening b0 z0 bx z' ipx ipz ipy); [done | apply Hs | done | done | done].
    + rewrite (o_queue _ _ _ _ Ho). by apply (Hh other).
    + destruct Ho as [_ (mp & -> & _)]. done.
Qed.

Lemma link_runs k x y bx by_ qx qy : moves traffic k x y (bx ⊣ qx) (by_ ⊣ qy) → AsyncNetworkInterface.datagrams_out x = [] →
  good x → good y → settled bx by_ ipx ipy → keeps b0 bx ipy → keeps c0 by_ ipx → runs k x y bx by_ qx qy.
Proof.
  intros. destruct (links_cases n id name Hin) as [Hc|(Hid & other & Hsh)]; [by apply cable_runs | by apply (shared_runs other)].
Qed.

End Links.

Lemma link_name n id name : calm n → (id, name) ∈ links n → name ∈ names.
Proof.
  intros Hc [Hin|(_ & other & Hs)]%links_cases; [by apply (cable_uun3 n id)|].
  destruct (sharers_cases _ _ Hs) as [[-> _]|[-> _]]; unfold names; rewrite !elem_of_cons; auto 8.
Qed.

(** From a host to the router, in at most three rounds. *)
Lemma leg_up rules n id name x h d : quiet rules n → (id, name) ∈ links n → interfaces n !! Z.to_nat id = Some x →
  _hosts n !! name = Some h → IPv4Datagram.sendable d →
  ∃ b1 k m bx by_ d', NetworkInterface.send_datagram (AsyncNetworkInterface.base (Host._interface h)) d
                     (NetworkInterface._ip_address (AsyncNetworkInterface.base x)) = Ok b1 ∧ (k <= 3)%nat ∧ arrived d d' ∧
    same_shape n m name ∧ interfaces (put m id (bx ⊣ []) name (by_ ⊣ [])) !! Z.to_nat id = Some (bx ⊣ []) ∧
    quiet rules (put m id (bx ⊣ []) name (by_ ⊣ [])) ∧
    rounds k (put_host_interface n name (b1 ⊣ [])) = Ok (put m id (bx ⊣ [d']) name (by_ ⊣ [])).
Proof.
  intros Hq Hin Ex Eh Hd. pose proof Hq as [Hok Hcalm Hdr Hset _ Hh].
  pose proof (Forall_lookup_1 _ _ _ _ (n_itfs _ _ Hok) Ex) as Gx. destruct (n_hosts _ _ Hok _ _ Eh) as [_ Gy].
  pose proof (Forall_lookup_1 _ _ _ _ Hdr Ex) as Qx. simpl in Qx.
  destruct (Hset id name x h Hin Ex Eh) as (ipx & ipy & Hs). pose proof (settled_sym _ _ _ _ Hs) as Hs0.
  destruct (convey _ _ [] [] d _ _ Hs0 (g_inv _ (g_base _ Gy)) (g_inv _ (g_base _ Gx)) Hd)
    as (b1 & k & by' & bx & d' & Es & Hk & Ha & Hs' & Ky & Kx & Hc).
  destruct (send_good _ d ipx (g_base _ Gy) Hd (r_range _ _ (s_left _ _ _ _ Hs))) as (b1' & Es' & Hb1 & _).
  rewrite Es in Es'. injection Es' as <-. rewrite (no_queue x Qx) in Hc. cbn [app] in Hc.
  apply conveys_up in Hc. apply (moves_impl _ _ _ _ _ _ _ (between_sym _ _ _ _)) in Hc.
  destruct (link_runs rules n id name x h ipx ipy Hq Hin Ex Eh Hs k x (b1 ⊣ []) bx by' [d'] [] Hc Qx Gx)
    as (m & Hm & Hr & Hi & Hqm); [by constructor | by apply settled_sym | done | done |].
  exists b1, k, m, bx, by', d'. rewrite (r_ip _ _ (s_left _ _ _ _ Hs)).
  split; [done|]. split; [lia|]. do 4 (split; [done|]).
  rewrite <- Hr. unfold put. by rewrite (put_interface_id n id x Ex).
Qed.

(** From the router to a host. *)
Lemma leg_down rules n id name x h d : quiet rules n → (id, name) ∈ links n → interfaces n !! Z.to_nat id = Some x →
  _hosts n !! name = Some h → IPv4Datagram.sendable d →
  ∃ b1 k m bx by_ d', NetworkInterface.send_datagram (AsyncNetworkInterface.base x) d
                     (NetworkInterface._ip_address (AsyncNetworkInterface.base (Host._interface h))) = Ok b1 ∧
    (1 <= k <= 3)%nat ∧ arrived d d' ∧ same_shape n m name ∧ quiet rules (put m id (bx ⊣ []) name (by_ ⊣ [])) ∧
    rounds k (put_interface n id (b1 ⊣ [])) = Ok (put m id (bx ⊣ []) name (by_ ⊣ [d'])).
Proof.
  intros Hq Hin Ex Eh Hd. pose proof Hq as [Hok Hcalm Hdr Hset _ Hh].
  pose proof (Forall_lookup_1 _ _ _ _ (n_itfs _ _ Hok) Ex) as Gx. destruct (n_hosts _ _ Hok _ _ Eh) as [_ Gy].
  pose proof (Hh _ _ Eh) as Qy. simpl in Qy. destruct (Hset id name x h Hin Ex Eh) as (ipx & ipy & Hs).
  destruct (convey _ _ [] [] d _ _ Hs (g_inv _ (g_base _ Gx)) (g_inv _ (g_base _ Gy)) Hd)
    as (b1 & k & bx & by_ & d' & Es & Hk & Ha & Hs' & Kx & Ky & Hc).
  destruct (send_good _ d ipy (g_base _ Gx) Hd (r_range _ _ (s_right _ _ _ _ Hs))) as (b1' & Es' & Hb1 & _).
  rewrite Es in Es'. injection Es' as <-. rewrite (no_queue _ Qy) in Hc. cbn [app] in Hc.
  apply conveys_down in Hc.
  destruct (link_runs rules n id name x h ipx ipy Hq Hin Ex Eh Hs k (b1 ⊣ []) (Host._interface h) bx by_ [] [d'] Hc eq_refl)
    as (m & Hm & Hr & _ & Hqm); [by constructor | done | done | done | done |].
  exists b1, k, m, bx, by_, d'. rewrite (r_ip _ _ (s_right _ _ _ _ Hs)).
  split; [done|]. split; [done|]. do 3 (split; [done|]).
  rewrite <- Hr. unfold put. by rewrite (put_host_interface_id _ name h) by done.
Qed.

Lemma arrived_decrement d d1 d2 : 0 < IPv4Header.ttl (IPv4Datagram.header d) < two8 → arrived d d1 →
  arrived (IPv4Datagram.set_header d1
    (IPv4Header.set_ttl (IPv4Datagram.header d1) (IPv4Header.ttl (IPv4Datagram.header d1) - 1))) d2 →
  arrived (decrement d) d2.
Proof.
  intros Ht (_ & (v & Hh1) & Hp1) (Hs2 & (w & Hh2) & Hp2). split; [done|]. split; [|by rewrite Hp2].
  exists w. rewrite Hh2. unfold decrement. cbn [IPv4Datagram.set_header IPv4Datagram.header IPv4Datagram._header].
  fold (IPv4Datagram.header d1). rewrite Hh1. rewrite uint8_id by (unfold IPv4Datagram.header in *; lia). done.
Qed.

(** What the router makes of a datagram for a host on a wire. *)
Lemma forward_to rules n id x d d1 b ru : interfaces n !! Z.to_nat id = Some x → arrived d d1 →
  1 < IPv4Header.ttl (IPv4Datagram.header d) → Router.best rules (IPv4Header.dst (IPv4Datagram.header d)) = Some ru →
  (Router.r_entry ru).2 = id →
  NetworkInterface.send_datagram (AsyncNetworkInterface.base x)
    (IPv4Datagram.set_header d1
      (IPv4Header.set_ttl (IPv4Datagram.header d1) (IPv4Header.ttl (IPv4Datagram.header d1) - 1)))
    (default (Address.of_ipv4 (IPv4Header.dst (IPv4Datagram.header d))) (Router.r_entry ru).1) = Ok b →
  Router.forward rules (AsyncNetworkInterface.base <$> interfaces n) d1
  = Ok (<[Z.to_nat id := b]> (AsyncNetworkInterface.base <$> interfaces n)).
Proof.
  intros Ex (_ & (v & Hh) & _) Ht Hb Hid Es. unfold Router.forward.
  assert (IPv4Header.ttl (IPv4Datagram.header d1) = IPv4Header.ttl (IPv4Datagram.header d) ∧
    IPv4Header.dst (IPv4Datagram.header d1) = IPv4Header.dst (IPv4Datagram.header d)) as [Et Ed] by (by rewrite Hh).
  replace (IPv4Header.ttl (IPv4Datagram.header d1) <=? 1) with false by (symmetry; apply Z.leb_gt; lia).
  rewrite Ed, Hb. unfold Router.send_on. rewrite Hid, list_lookup_fmap, Ex. simpl. by rewrite Es, result_bind_ok.
Qed.

(** The round in which the router forwards is one in which the datagram is already at the other interface. *)
Lemma round_forward rules n id a d j b : net_ok rules n → drained n → interfaces n !! Z.to_nat id = Some a →
  Router.routable d → Router.forward rules (AsyncNetworkInterface.base <$> interfaces n) d
    = Ok (<[Z.to_nat j := b]> (AsyncNetworkInterface.base <$> interfaces n)) →
  round (put_interface n id (AsyncNetworkInterface.base a ⊣ [d])) = round (put_interface n j (b ⊣ [])).
Proof.
  intros Hok Hd Ea Hr Hf. unfold round.
  rewrite (route_one rules n id a d j b (n_answers _ _ Hok) Hd Ea Hr Hf), result_bind_ok.
  rewrite (route_idle rules (put_interface n j (b ⊣ []))); [done | apply Hok | by apply Forall_insert].
Qed.

Section Crossing.
Context (rules : list Router.rule) (n : t) (Hq : quiet rules n).
Context (ida idc : Z) (a c : string) (Ha : (ida, a) ∈ links n) (Hc : (idc, c) ∈ links n) (Hac : a ≠ c).
Context (xa : AsyncNetworkInterface.t) (ha hc : Host.t).
Context (Exa : interfaces n !! Z.to_nat ida = Some xa) (Eha : _hosts n !! a = Some ha) (Ehc : _hosts n !! c = Some hc).

(** From host [a] through the router to host [c], in at most six rounds. *)
Lemma crossing d ru : IPv4Datagram.sendable d → 1 < IPv4Header.ttl (IPv4Datagram.header d) →
  Router.best rules (IPv4Header.dst (IPv4Datagram.header d)) = Some ru → (Router.r_entry ru).2 = idc →
  default (Address.of_ipv4 (IPv4Header.dst (IPv4Datagram.header d))) (Router.r_entry ru).1
    = NetworkInterface._ip_address (AsyncNetworkInterface.base (Host._interface hc)) →
  ∃ b1 k q by_ d', NetworkInterface.send_datagram (AsyncNetworkInterface.base (Host._interface ha)) d
                     (NetworkInterface._ip_address (AsyncNetworkInterface.base xa)) = Ok b1 ∧
    (k <= 6)%nat ∧ arrived (decrement d) d' ∧ quiet rules (put_host_interface q c (by_ ⊣ [])) ∧
    expectations q = expectations n ∧
    rounds k (put_host_interface n a (b1 ⊣ [])) = Ok (put_host_interface q c (by_ ⊣ [d'])).
Proof.
  intros Hd Ht Hb Hid Hhop.
  destruct (leg_up rules n ida a xa ha d Hq Ha Exa Eha Hd) as (b1 & k1 & m0 & bx & ya & d1 & E1 & Hk1 & A1 & [SL SE SH] & Ema & Qm & R1).
  set (m := put m0 ida (bx ⊣ []) a (ya ⊣ [])) in *.
  assert ((idc, c) ∈ links m) as Hcm by (change (links m) with (links m0); by rewrite SL).
  destruct (SH c hc) as (hm & Ehm & Eip); [done | done |].
  assert (_hosts m !! c = Some hm) as Emc by (simpl; by rewrite lookup_alter_ne).
  assert (∃ xc, interfaces m !! Z.to_nat idc = Some xc) as [xc Emx].
  { destruct (links_cases m idc c Hcm) as [Hcab|(-> & o & Hs)].
    - destruct (cable_ends m idc c (q_calm _ _ Qm) Hcab) as (x & _ & Ex & _). by exists x.
    - destruct (sharer_ends m c o (q_calm _ _ Qm) Hs) as (x & _ & _ & Ex & _). by exists x. }
  pose proof A1 as (Hs1 & (v & Hh1) & _). pose proof (Router.sendable_routable d1 Hs1) as Hr1.
  assert (0 <= IPv4Header.ttl (IPv4Datagram.header d1) - 1 < two8) as Ht1.
  { destruct Hr1 as [_ Ht1]. rewrite Hh1 in *. simpl in *. lia. }
  destruct (leg_down rules m idc c xc hm _ Qm Hcm Emx Emc (Router.sendable_ttl d1 _ Hs1 Ht1))
    as (b3 & k2 & m2 & bc & by_ & d2 & E3 & Hk2 & A2 & [_ SE2 _] & Q2 & R2).
  exists b1, (k1 + k2)%nat, (put_interface m2 idc (bc ⊣ [])), by_, d2. split; [done|]. split; [lia|].
  split. { eapply arrived_decrement; [|done | exact A2]. destruct Hd as [[] _]. lia. }
  split; [exact Q2|]. split.
  { transitivity (expectations m); [exact SE2|]. transitivity (expectations m0); [apply expectations_put | done]. }
  rewrite (rounds_add _ _ _ _ R1).
  change (put_host_interface (put_interface m2 idc (bc ⊣ [])) c (by_ ⊣ [d2])) with (put m2 idc (bc ⊣ []) c (by_ ⊣ [d2])).
  rewrite <- R2. destruct k2 as [|k2]; [lia|]. cbn [rounds].
  replace (put m0 ida (bx ⊣ [d1]) a (ya ⊣ [])) with (put_interface m ida (bx ⊣ [d1])).
  - rewrite <- (round_forward rules m ida (bx ⊣ []) d1 idc b3); [done | apply Qm | apply Qm | done | done |].
    apply (forward_to rules m idc xc d d1 b3 ru); [done | done | done | done | done |]. by rewrite Hhop, <- Eip.
  - unfold m, put, put_interface, put_host_interface, Router.set_interface, set_router, set_hosts. simpl.
    by rewrite list_insert_insert_eq.
Qed.

End Crossing.

(** ** The checks *)

Lemma check_all_spec l : ∀ n, NoDup l.*1 → Forall (λ p, Host.check p.2 = Ok (Host.satisfied p.2)) l →
  ∃ hs, check_all l n = Ok (set_hosts n hs) ∧
    ∀ k, hs !! k = match (list_to_map l : gmap string Host.t) !! k with
                   | Some h => Some (Host.satisfied h) | None => _hosts n !! k end.
Proof.
  induction l as [|[name h] l IH]; intros n Hnd Hl; cbn [check_all].
  { exists (_hosts n). split; [by destruct n | done]. }
  simpl in Hnd. apply NoDup_cons in Hnd as [Hni Hnd]. apply Forall_cons in Hl as [Hh Hl]. simpl in Hh.
  rewrite Hh, result_bind_ok. destruct (IH (put_host n name (Host.satisfied h)) Hnd Hl) as (hs & E & Hk).
  exists hs. split; [exact E|]. intros k. rewrite Hk. simpl. destruct (decide (k = name)) as [->|Hne].
  - rewrite (not_elem_of_list_to_map_1 l name Hni). by rewrite !lookup_insert_eq.
  - by rewrite !lookup_insert_ne.
Qed.

Lemma check_all_hosts n : map_Forall (λ _ h, Host.check h = Ok (Host.satisfied h)) (_hosts n) →
  check_all (map_to_list (_hosts n)) n = Ok (set_hosts n (Host.satisfied <$> _hosts n)).
Proof.
  intros H. destruct (check_all_spec (map_to_list (_hosts n)) n) as (hs & E & Hk).
  - apply NoDup_fst_map_to_list.
  - apply Forall_forall. intros [k h] Hin%elem_of_map_to_list. exact (H k h Hin).
  - rewrite E. do 2 f_equal. apply map_eq. intros k. rewrite Hk, list_to_map_to_list, lookup_fmap.
    by destruct (_hosts n !! k).
Qed.

(** What is said of the network at rest does not depend on the expectations. *)
Definition ends (h : Host.t) : string * AsyncNetworkInterface.t := (Host._name h, Host._interface h).

Lemma same_ends hs hs' k h : (∀ k : string, ends <$> (hs : gmap string Host.t) !! k = ends <$> (hs' : gmap string Host.t) !! k) →
  hs !! k = Some h → ∃ h', hs' !! k = Some h' ∧ Host._name h' = Host._name h ∧ Host._interface h' = Host._interface h.
Proof.
  intros Hs E. specialize (Hs k). rewrite E in Hs. destruct (hs' !! k) as [h'|]; [|done].
  injection Hs as E1 E2. by exists h'.
Qed.

Lemma idle_wire_hosts n hs id name : (∀ k, ends <$> hs !! k = ends <$> _hosts n !! k) → idle_wire n id name →
  idle_wire (set_hosts n hs) id name.
Proof.
  intros Hs (a & h & Ea & Eh & En & Fa & Fh). destruct (same_ends (_hosts n) hs name h) as (h' & Eh' & En' & Ei); [done..|].
  exists a, h'. split; [done|]. split; [done|]. by rewrite En', Ei.
Qed.

Lemma quiet_hosts rules n hs : (∀ k, ends <$> hs !! k = ends <$> _hosts n !! k) → quiet rules n →
  quiet rules (set_hosts n hs).
Proof.
  intros Hs [[] [] Hd Hset Hap Hq]. constructor.
  - constructor; try done; simpl.
    + intros k h Eh. destruct (same_ends _ _ k h Hs Eh) as (h' & Eh' & <- & <-). by apply n_hosts0.
    + eapply Forall_impl; [exact n_names0|]. intros k [h Eh]. simpl.
      destruct (same_ends (_hosts n) hs k h) as (h' & -> & _); [done..|]. by exists h'.
  - constructor; [done | | by apply idle_wire_hosts..].
    eapply Forall_impl; [exact c_cables0|]. intros p. by apply idle_wire_hosts.
  - done.
  - intros id name a h Hin Ea Eh. destruct (same_ends _ _ name h Hs Eh) as (h' & Eh' & _ & <-).
    by apply (Hset id name).
  - intros name other a h1 h2 Hsh Ea E1 E2. destruct (same_ends _ _ name h1 Hs E1) as (g1 & G1 & _ & <-).
    destruct (same_ends _ _ other h2 Hs E2) as (g2 & G2 & _ & <-). by apply (Hap name other).
  - intros k h Eh. destruct (same_ends _ _ k h Hs Eh) as (h' & Eh' & _ & <-). by apply (Hq k).
Qed.

(** No host expects anything. *)
Definition patient (n : t) : Prop := map_Forall (λ _ h, Host._expecting_to_receive h = []) (_hosts n).

(** The datagram that [send_to] makes. *)
Definition sent (src dst ttl random : Z) : IPv4Datagram.t :=
  IPv4Datagram.mk
    (IPv4Header.mk 4 5 0 (20 + len (Host.random_payload random)) 0 true false 0 ttl IPv4Header.PROTO_TCP 0 src dst)
    (BufferList.of_string (Host.random_payload random)).

Lemma len_random_payload random : 0 <= len (Host.random_payload random) <= 28.
Proof.
  split; [apply len_nonneg|]. unfold Host.random_payload. rewrite !len_app.
  change (len (text "random payload: {")) with 17. change (len (text "}")) with 1.
  assert (∀ fuel z, len (Address.decimal fuel z) <= Z.of_nat fuel) as H.
  { induction fuel as [|fuel IH]; intros z; [done|]. cbn [Address.decimal]. destruct (_ <? _); [unfold len; simpl; lia|].
    rewrite len_app. specialize (IH (z / 10)). unfold len in *. simpl length. lia. }
  specialize (H 10%nat random). unfold Address.to_string. lia.
Qed.

Lemma sent_sendable src dst ttl random : 0 <= src < two32 → 0 <= dst < two32 → 0 <= ttl < two8 →
  IPv4Datagram.sendable (sent src dst ttl random).
Proof.
  intros. pose proof (len_random_payload random).
  constructor; [constructor; simpl; try done; lia|]. cbn [sent IPv4Datagram.header IPv4Datagram._header IPv4Datagram.payload IPv4Datagram._payload].
  rewrite BufferList.concatenate_string. done.
Qed.

Lemma send_to_eq h src dst ttl random b : Host._my_address h = Address.of_ipv4 src → 0 <= src < two32 → 0 <= dst < two32 →
  NetworkInterface.send_datagram (AsyncNetworkInterface.base (Host._interface h)) (sent src dst ttl random) (Host._next_hop h) = Ok b →
  Host.send_to h (Address.of_ipv4 dst) ttl random
  = Ok (Host.set_interface h (b ⊣ AsyncNetworkInterface.datagrams_out (Host._interface h)), sent src dst ttl random).
Proof.
  intros Hm Hs Hd E. unfold Host.send_to. rewrite Hm, !Address.ipv4_numeric_of_ipv4, !result_bind_ok by done.
  pose proof (len_random_payload random).
  assert (BufferList.size (BufferList.of_string (Host.random_payload random)) = len (Host.random_payload random)) as Hz.
  { rewrite BufferList.size_concatenate; rewrite BufferList.concatenate_string; [done | lia]. }
  cbv zeta. rewrite Hz. change (IPv4Header.hlen _ * 4) with 20. rewrite uint16_id by lia.
  unfold AsyncNetworkInterface.send_datagram.
  match goal with |- context [NetworkInterface.send_datagram _ ?d _] => change d with (sent src dst ttl random) end.
  by rewrite E.
Qed.

(** A host whose expectation arrived. *)
Lemma check_arrived h d d' : IPv4Datagram.sendable d → arrived d d' →
  AsyncNetworkInterface.datagrams_out (Host._interface h) = [d'] → Host._expecting_to_receive h = [d] →
  Host.check h = Ok (Host.satisfied h).
Proof.
  intros Hd (Hd' & (v & Hh) & Hp) Eq Ee.
  destruct (Host.check_multiset h) as [H _]; rewrite ?Eq, ?Ee in *; [by constructor | by constructor|].
  apply H. simpl. unfold Host.bytes_of. by rewrite (Host.image_arrived d d' v).
Qed.

Lemma check_nothing h : AsyncNetworkInterface.datagrams_out (Host._interface h) = [] → Host._expecting_to_receive h = [] →
  Host.check h = Ok (Host.satisfied h).
Proof.
  intros Eq Ee. destruct (Host.check_multiset h) as [H _]; rewrite ?Eq, ?Ee in *; [by constructor | by constructor|]. by apply H.
Qed.

Lemma idle_wire_queue n c b q q' id name : idle_wire (put_host_interface n c (b ⊣ q)) id name →
  idle_wire (put_host_interface n c (b ⊣ q')) id name.
Proof.
  intros (a & h & Ea & Eh & En & Fa & Fh). simpl in Eh. destruct (decide (name = c)) as [->|Hne].
  - rewrite lookup_alter_eq in Eh. apply fmap_Some_1 in Eh as (h0 & E0 & ->).
    exists a, (Host.set_interface h0 (b ⊣ q')). split; [done|]. split; [simpl; by rewrite lookup_alter_eq, E0 | done].
  - exists a, h. split; [done|]. split; [|done]. rewrite lookup_alter_ne in Eh by done. simpl. by rewrite lookup_alter_ne.
Qed.

(** The end of a simulation: one datagram has arrived at host [c], which expected it, and everything else is at rest. *)
Lemma simulation_ends rules q c by_ d d' : quiet rules (put_host_interface q c (by_ ⊣ [])) →
  IPv4Datagram.sendable d → arrived d d' →
  (∀ k e, expectations q !! k = Some e → e = if decide (k = c) then [d] else []) →
  let n' := put_host_interface q c (by_ ⊣ [d']) in
  calm n' ∧ drained n' ∧
  ∃ n3, check_all (map_to_list (_hosts n')) n' = Ok n3 ∧ quiet rules n3 ∧ patient n3.
Proof.
  intros Hq Hd Ha He n'. pose proof Hq as [_ [Hids Hcab H42 H43] Hdr _ _ Hqq].
  assert (∀ id name, idle_wire (put_host_interface q c (by_ ⊣ [])) id name → idle_wire n' id name) as Hidle
    by (intros; by eapply idle_wire_queue).
  split. { constructor; [done | | by apply Hidle..]. eapply Forall_impl; [exact Hcab|]. intros p. apply Hidle. }
  split; [done|]. exists (set_hosts n' (Host.satisfied <$> _hosts n')).
  assert (∀ k h, _hosts n' !! k = Some h → Host._expecting_to_receive h = if decide (k = c) then [d] else []) as Hexp.
  { intros k h Eh. apply He. unfold expectations. rewrite lookup_fmap. simpl in Eh. destruct (decide (k = c)) as [->|].
    - rewrite lookup_alter_eq in Eh. apply fmap_Some_1 in Eh as (h0 & -> & ->). done.
    - rewrite lookup_alter_ne in Eh by done. by rewrite Eh. }
  assert (∀ k h, _hosts n' !! k = Some h → AsyncNetworkInterface.datagrams_out (Host._interface h) = if decide (k = c) then [d'] else []) as Hque.
  { intros k h Eh. simpl in Eh. destruct (decide (k = c)) as [->|].
    - rewrite lookup_alter_eq in Eh. by apply fmap_Some_1 in Eh as (h0 & _ & ->).
    - rewrite lookup_alter_ne in Eh by done. apply (Hqq k). simpl. by rewrite lookup_alter_ne. }
  split; [|split].
  - apply check_all_hosts. intros k h Eh. pose proof (Hexp k h Eh). pose proof (Hque k h Eh). destruct (decide (k = c)).
    + by apply (check_arrived h d d').
    + by apply check_nothing.
  - change (quiet rules (set_hosts (put_host_interface q c (by_ ⊣ [])) (Host.satisfied <$> _hosts n'))).
    apply quiet_hosts; [|done]. intros k. rewrite lookup_fmap. simpl. destruct (decide (k = c)) as [->|Hne].
    + rewrite !lookup_alter_eq. by destruct (_hosts q !! c).
    + rewrite !lookup_alter_ne by done. destruct (_hosts q !! k) as [h|] eqn:Eh; [|done].
      change (Some (Host._name h, AsyncNetworkInterface.base (Host._interface h) ⊣ []) = Some (ends h)).
      rewrite no_queue; [done|]. apply (Hqq k). simpl. by rewrite lookup_alter_ne.
  - intros k h. simpl. rewrite lookup_fmap. by intros (h0 & _ & ->)%fmap_Some_1.
Qed.

(** C18: The network delivers.  In a network at rest, with any contents of the
    address caches that are right, let [a] and [c] be two of the six hosts: the four on wires of their own, and "dm42" and
    "dm43", which share a wire with the router and hear all of its frames, and whose addresses and the router's there are
    different.  A datagram that [a] sends through its
    gateway to a destination whose longest matching route leads to [c]
    (directly, or as next hop of the route), with a time to live of at least
    two, is in the queue of [c] after six rounds, with its time to live decremented, and stays the only one; all the
    address resolutions on the way succeed.  So [simulate], which runs 256
    rounds and checks every host, succeeds when [c] expects that datagram and
    the others nothing; and it leaves the network at rest. *)
Theorem datagram_reaches_host (rules : list Router.rule) (n : t) (ida idc : Z) (a c : string)
  (xa : AsyncNetworkInterface.t) (ha hc : Host.t) (ru : Router.rule) (src dst ttl random : Z) :
  quiet rules n → patient n → (ida, a) ∈ links n → (idc, c) ∈ links n → a ≠ c →
  interfaces n !! Z.to_nat ida = Some xa → _hosts n !! a = Some ha → _hosts n !! c = Some hc →
  0 <= src < two32 → Host._my_address ha = Address.of_ipv4 src →
  Host._next_hop ha = NetworkInterface._ip_address (AsyncNetworkInterface.base xa) →
  0 <= dst < two32 → Router.best rules dst = Some ru → (Router.r_entry ru).2 = idc →
  default (Address.of_ipv4 dst) (Router.r_entry ru).1
    = NetworkInterface._ip_address (AsyncNetworkInterface.base (Host._interface hc)) →
  2 <= ttl < two8 →
  ∃ n1 d n2 n3, send_to n a (Address.of_ipv4 dst) ttl random = Ok (n1, d) ∧ expect n1 c (decrement d) = Ok n2 ∧
    (∃ d', arrived (decrement d) d' ∧ ∀ k, (6 <= k)%nat → ∃ n' h, rounds k n2 = Ok n' ∧ _hosts n' !! c = Some h ∧
      AsyncNetworkInterface.datagrams_out (Host._interface h) = [d']) ∧
    simulate n2 = Ok n3 ∧ quiet rules n3 ∧ patient n3.
Proof.
  intros Hq Hpat Ha Hc Hac Exa Eha Ehc Hsrc Emy Ehop Hdst Hbest Hid Hhop Httl.
  pose proof (q_ok _ _ Hq) as Hok. destruct (n_hosts _ _ Hok _ _ Eha) as [Nha _]. destruct (n_hosts _ _ Hok _ _ Ehc) as [Nhc _].
  pose proof (q_hosts _ _ Hq _ _ Eha) as Qha. simpl in Qha.
  set (d := sent src dst ttl random). assert (IPv4Datagram.sendable d) as Hd by (apply sent_sendable; lia || done).
  set (hc0 := Host.expect hc (decrement d)). set (n0 := put_host n c hc0).
  assert (quiet rules n0) as Hq0.
  { apply quiet_hosts; [|done]. intros k. destruct (decide (k = c)) as [->|].
    - by rewrite lookup_insert_eq, Ehc.
    - by rewrite lookup_insert_ne. }
  destruct (crossing rules n0 Hq0 ida idc a c Ha Hc Hac xa ha hc0 Exa) with (d := d) (ru := ru)
    as (b1 & k & q & by_ & d' & Es & Hk & Har & Hqq & Hexp & Hr); [| | done | simpl; lia | done | done | done |].
  { simpl. by rewrite lookup_insert_ne. }
  { simpl. by rewrite lookup_insert_eq. }
  assert (IPv4Datagram.sendable (decrement d)) as Hdd.
  { apply Router.sendable_ttl; [done | apply uint8_range]. }
  destruct (simulation_ends rules q c by_ (decrement d) d' Hqq Hdd Har) as (Hcalm & Hdr & n3 & Echk & Hq3 & Hp3).
  { intros m e. rewrite Hexp. unfold expectations. rewrite lookup_fmap. simpl. intros (h & Eh & ->)%fmap_Some_1.
    destruct (decide (m = c)) as [->|].
    - rewrite lookup_insert_eq in Eh. injection Eh as <-. simpl. by rewrite (Hpat c hc Ehc).
    - rewrite lookup_insert_ne in Eh by done. exact (Hpat m h Eh). }
  assert (∀ m, (6 <= m)%nat → rounds m (put_host_interface n0 a (b1 ⊣ [])) = Ok (put_host_interface q c (by_ ⊣ [d']))) as Hrm.
  { intros m Hm. replace m with (k + (m - k))%nat by lia. rewrite (rounds_add _ _ _ _ Hr).
    apply (rounds_idle rules); [apply (n_answers _ _ (q_ok _ _ Hqq)) | done | done]. }
  exists (put_host_interface n a (b1 ⊣ [])), d, (put_host_interface n0 a (b1 ⊣ [])), n3.
  split. { unfold send_to. rewrite (host_lookup _ _ _ Eha Nha), result_bind_ok.
    rewrite (send_to_eq ha src dst ttl random b1), result_bind_ok; [|done | done | done | by rewrite Ehop].
    by rewrite (put_host_interface_eq _ _ ha), Qha by done. }
  split. { unfold expect. rewrite (host_lookup _ _ hc), result_bind_ok; [|simpl; by rewrite lookup_alter_ne | done].
    f_equal. unfold put_host, put_host_interface, set_hosts. simpl. by rewrite alter_insert_ne. }
  split; [|split; [|done]].
  - exists d'. split; [done|]. intros m Hm. rewrite (Hrm m Hm).
    destruct (host_ok rules _ c (q_ok _ _ Hqq)) as (h & _ & Eh & _); [by apply (link_name n idc c (q_calm _ _ Hq) Hc)|].
    simpl in Eh. rewrite lookup_alter_eq in Eh. apply fmap_Some_1 in Eh as (h0 & E0 & ->).
    eexists _, _. split; [done|]. split; [simpl; by rewrite lookup_alter_eq, E0 | done].
  - unfold simulate. rewrite (Hrm 256%nat), result_bind_ok by lia. exact Echk.
Qed.

(** The simulation never throws outside its checks.  In a network whose
    routes lead to existing interfaces and whose queues hold only what the stack itself
    has put there, any number of rounds returns and keeps it so; and a
    host with IPv4 addresses can send to any destination with any time to
    live, whether or not the destination exists. *)
Theorem simulation_total (rules : list Router.rule) (n : t) : net_ok rules n →
  (∀ k, ∃ n', rounds k n = Ok n' ∧ net_ok rules n') ∧
  (∀ name h src hop dst ttl random, _hosts n !! name = Some h → name ∈ names →
    Host._my_address h = Address.of_ipv4 src → Host._next_hop h = Address.of_ipv4 hop →
    0 <= src < two32 → 0 <= hop < two32 → 0 <= dst < two32 → 0 <= ttl < two8 →
    ∃ n' d, send_to n name (Address.of_ipv4 dst) ttl random = Ok (n', d) ∧ IPv4Datagram.sendable d ∧ net_ok rules n').
Proof.
  intros Hok. split; [intros k; by apply rounds_ok|].
  intros name h src hop dst ttl random Eh Hname Emy Ehop Hsrc Hhop Hdst Httl.
  destruct (host_ok rules n name Hok Hname) as (h' & Hh & Eh' & Hg). rewrite Eh in Eh'. injection Eh' as <-.
  pose proof (sent_sendable src dst ttl random Hsrc Hdst Httl) as Hs.
  destruct (send_good _ _ hop (g_base _ Hg) Hs Hhop) as (b & Es & Hb & _). rewrite <- Ehop in Es.
  unfold send_to. rewrite Hh, result_bind_ok.
  rewrite (send_to_eq h src dst ttl random b Emy Hsrc Hdst Es), result_bind_ok.
  eexists _, _. split; [done|]. split; [done|]. apply (net_ok_hosts rules n name h); [done | done | done|].
  constructor; [done | apply Hg].
Qed.

(** C19: A host's check is a comparison of multisets.  It succeeds, and forgets
    both lists, exactly when the datagrams received are those expected up to their order
    and the checksums in their headers, each as often as expected; otherwise it throws. *)
Theorem check_compares_multisets (h : Host.t) :
  Forall IPv4Datagram.sendable (AsyncNetworkInterface.datagrams_out (Host._interface h)) →
  Forall IPv4Datagram.sendable (Host._expecting_to_receive h) →
  let received := Host.bytes_of <$> AsyncNetworkInterface.datagrams_out (Host._interface h) in
  let expected := Host.bytes_of <$> Host._expecting_to_receive h in
  (received ≡ₚ expected → Host.check h = Ok (Host.satisfied h)) ∧
  (¬ received ≡ₚ expected → Host.check h = Throw runtime_error).
Proof. apply Host.check_multiset. Qed.

(** ** The program's own network

    With a generator of numbers, a resolver of dotted quads, and a processor that
    shifts modulo 32. *)

Definition demo_rd (i : nat) : Z := (Z.of_nat i * 2654435761 + 12345) mod two32.
Definition demo_net : result t := new (H := DottedQuad.resolver) Router.modulo_shift demo_rd.

(** The whole program, with these numbers: every host receives what it expects. *)
Lemma simulator_succeeds : main (H := DottedQuad.resolver) Router.modulo_shift demo_rd = Ok EXIT_SUCCESS.
Proof. vm_compute. reflexivity. Qed.

(** The routes that the constructor adds. *)
Definition demo_rules : list Router.rule :=
  [Router.Rule 0 0 (Some (Address.of_ipv4 0xab434c01), 0);
   Router.Rule 0x0a000000 8 (None, 1);
   Router.Rule 0xac100000 16 (None, 2);
   Router.Rule 0xc0a80000 24 (None, 3);
   Router.Rule 0xc6b2e500 24 (None, 4);
   Router.Rule 0x8fc30000 17 (Some (Address.of_ipv4 0x8fc30001), 5);
   Router.Rule 0x8fc38000 18 (Some (Address.of_ipv4 0x8fc30001), 5);
   Router.Rule 0x8fc3c000 19 (Some (Address.of_ipv4 0x8fc30001), 5);
   Router.Rule 0x801e4cff 16 (Some (Address.of_ipv4 0x801e0001), 6)].

Definition demo : t := match demo_net with Ok n => n | Throw _ => mk Router.new 0 0 0 0 0 0 0 ∅ end.

Definition fresh (eth : EthernetAddress) (ip : Z) : AsyncNetworkInterface.t :=
  NetworkInterface.new eth (Address.of_ipv4 ip) ⊣ [].

Definition demo_interfaces : list AsyncNetworkInterface.t :=
  (λ p : nat * Z, fresh (random_router_ethernet_address (after demo_rd p.1)) p.2) <$>
    [(0%nat, 0xab434c2e); (6%nat, 0x0a000001); (12%nat, 0xac100001); (18%nat, 0xc0a80001); (24%nat, 0xc6b2e501);
     (30%nat, 0x8fc30002); (36%nat, 0x801e4cff)].
Definition demo_hosts : list (string * Host.t) :=
  (λ p : string * nat * Z * Z, let '(name, k, ip, hop) := p in
     (name, Host.mk name (Address.of_ipv4 ip) (fresh (random_host_ethernet_address (after demo_rd k)) ip)
              (Address.of_ipv4 hop) [])) <$>
    [("applesauce"%string, 42%nat, 0x0a000002, 0x0a000001); ("default_router"%string, 48%nat, 0xab434c01, 0);
     ("cherrypie"%string, 54%nat, 0xc0a80002, 0xc0a80001); ("hs_router"%string, 60%nat, 0x8fc30001, 0);
     ("dm42"%string, 66%nat, 0xc6b2e52a, 0xc6b2e501); ("dm43"%string, 72%nat, 0xc6b2e52b, 0xc6b2e501)].

Lemma demo_parts : interfaces demo = demo_interfaces ∧ _hosts demo = list_to_map demo_hosts ∧
  Router.add_rules Router.modulo_shift (Router.mk (interfaces demo) (Router.route_mps Router.new)) demo_rules
  = Ok (_router demo).
Proof. split; [vm_compute; reflexivity|]. split; vm_compute; reflexivity. Qed.

Lemma demo_ids : [default_id demo; eth0_id demo; eth2_id demo; hs4_id demo; uun3_id demo] = [0; 1; 3; 5; 4].
Proof. vm_compute. reflexivity. Qed.

Lemma rules_answer wide rules itfs r : Forall (Router.valid_rule wide) rules →
  Router.add_rules wide (Router.mk itfs (Router.route_mps Router.new)) rules = Ok r →
  Router.answers rules (Router.route_mps r).
Proof.
  intros Hv Er. destruct (Router.add_rules_answers wide rules (Router.mk itfs (Router.route_mps Router.new)) []
    Router.answers_new Hv) as (mps & E & Ha). rewrite Er in E. by injection E as ->.
Qed.

(** An interface that was just made. *)
Definition is_fresh (a : AsyncNetworkInterface.t) : Prop :=
  ∃ eth ip, a = fresh eth ip ∧ length eth = 6%nat ∧ eth ≠ ETHERNET_BROADCAST ∧ 0 <= ip < two32.

Lemma fresh_good a : is_fresh a → good a.
Proof.
  intros (eth & ip & -> & He & _ & Hip). constructor; [|constructor].
  constructor; [by apply NetworkInterface.interface_inv_new | constructor].
Qed.

Lemma fresh_idle a : is_fresh a → frames a = [] ∧ AsyncNetworkInterface.datagrams_out a = [].
Proof. by intros (eth & ip & -> & _). Qed.

Lemma fresh_settled a b : is_fresh a → is_fresh b →
  ∃ ip ip', settled (AsyncNetworkInterface.base a) (AsyncNetworkInterface.base b) ip ip'.
Proof.
  intros (eth & ip & -> & _ & Hb & Hr) (eth' & ip' & -> & _ & Hb' & Hr'). exists ip, ip'.
  constructor; [by constructor | by constructor | by left | by left].
Qed.

Lemma demo_rules_ok : Forall (Router.valid_rule Router.modulo_shift) demo_rules ∧ Forall (Router.connected 7) demo_rules.
Proof.
  split.
  - repeat (constructor; [split; [simpl; lia | split; [simpl; lia | intros; first [done | simpl in *; lia]]]|]). constructor.
  - repeat (constructor; [split; [simpl; lia | intros x E; first [discriminate E |
      injection E as <-; eexists; split; [|reflexivity]; lia]]|]). constructor.
Qed.

Lemma demo_interfaces_fresh : Forall is_fresh demo_interfaces.
Proof. repeat (constructor; [eexists _, _; split; [reflexivity|]; done|]). constructor. Qed.

Lemma demo_hosts_fresh : Forall (λ p, Host._name p.2 = p.1 ∧ is_fresh (Host._interface p.2) ∧
  Host._expecting_to_receive p.2 = []) demo_hosts.
Proof.
  repeat (constructor; [split; [done|]; split; [|done]; eexists _, _; split; [reflexivity|]; done|]). constructor.
Qed.

Lemma demo_host k h : _hosts demo !! k = Some h →
  Host._name h = k ∧ is_fresh (Host._interface h) ∧ Host._expecting_to_receive h = [].
Proof.
  destruct demo_parts as (_ & -> & _). intros Hin%elem_of_list_to_map_2.
  exact (proj1 (Forall_forall _ _) demo_hosts_fresh (k, h) Hin).
Qed.

Lemma demo_interface i a : interfaces demo !! i = Some a → is_fresh a.
Proof. destruct demo_parts as (-> & _ & _). apply (Forall_lookup_1 _ _ _ _ demo_interfaces_fresh). Qed.

Lemma network_demo_ok : net_ok demo_rules demo.
Proof.
  destruct demo_parts as (Ei & _ & Er). constructor.
  - exact (rules_answer Router.modulo_shift demo_rules (interfaces demo) _ (proj1 demo_rules_ok) Er).
  - rewrite Ei. apply demo_rules_ok.
  - apply Forall_lookup. intros i a Ea. apply fresh_good. by eapply demo_interface.
  - clear Er. rewrite Ei, demo_ids. clear Ei. repeat (constructor; [done|]). constructor.
  - clear Ei Er. intros k h Eh. destruct (demo_host k h Eh) as (? & ? & _). split; [done | by apply fresh_good].
  - clear Ei Er. apply (bool_decide_unpack _). vm_compute. exact I.
Qed.

Lemma demo_idle id name : Z.to_nat id ∈ seq 0 7 → name ∈ names → idle_wire demo id name.
Proof.
  intros Hid Hname. destruct (proj1 (Forall_forall _ _) (n_names _ _ network_demo_ok) name Hname) as [h Eh].
  destruct (lookup_lt_is_Some_2 (interfaces demo) (Z.to_nat id)) as [a Ea].
  { destruct demo_parts as (-> & _). apply elem_of_seq in Hid. apply Hid. }
  exists a, h. split; [done|]. split; [done|]. destruct (demo_host name h Eh) as (? & ? & _). split; [done|].
  split; apply fresh_idle; [by eapply demo_interface | done].
Qed.

Lemma demo_cables : cables demo = [(0, "default_router"); (1, "applesauce"); (3, "cherrypie"); (5, "hs_router")]%string ∧
  uun3_id demo = 4.
Proof. split; vm_compute; reflexivity. Qed.

Lemma demo_wires : Forall (λ p, idle_wire demo p.1 p.2)
  [(0, "default_router"); (1, "applesauce"); (3, "cherrypie"); (5, "hs_router"); (4, "dm42"); (4, "dm43")]%string.
Proof.
  eapply (Forall_impl (λ p, Z.to_nat p.1 ∈ seq 0 7 ∧ p.2 ∈ names)).
  - apply (bool_decide_unpack _). vm_compute. exact I.
  - intros p [Hid Hname]. apply demo_idle; assumption.
Qed.

Lemma demo_calm : calm demo.
Proof.
  pose proof demo_wires as Hw. rewrite !Forall_cons in Hw. destruct Hw as (H0 & H1 & H3 & H5 & H42 & H43 & _).
  destruct demo_cables as [Ec Eu]. constructor.
  - rewrite demo_ids. apply (bool_decide_unpack _). vm_compute. exact I.
  - rewrite Ec. repeat (constructor; [assumption|]). constructor.
  - rewrite Eu. assumption.
  - rewrite Eu. assumption.
Qed.

Definition demo_host_of (name : string) : Host.t :=
  match (list_to_map demo_hosts : gmap string Host.t) !! name with
  | Some h => h | None => Host.mk name (Address.of_ipv4 0) (fresh [] 0) (Address.of_ipv4 0) [] end.

Lemma demo_lookups : interfaces demo !! 4%nat = Some (fresh (random_router_ethernet_address (after demo_rd 24)) 0xc6b2e501) ∧
  _hosts demo !! "applesauce"%string = Some (demo_host_of "applesauce") ∧
  _hosts demo !! "dm42"%string = Some (demo_host_of "dm42") ∧ _hosts demo !! "dm43"%string = Some (demo_host_of "dm43").
Proof.
  destruct demo_parts as (-> & -> & _). split; [vm_compute; reflexivity|].
  split; [vm_compute; reflexivity|]. split; vm_compute; reflexivity.
Qed.

Lemma demo_apart name other a h h' : (name, other) ∈ sharers → interfaces demo !! Z.to_nat (uun3_id demo) = Some a →
  _hosts demo !! name = Some h → _hosts demo !! other = Some h' →
  apart (AsyncNetworkInterface.base (Host._interface h')) (AsyncNetworkInterface.base a) ∧
  apart (AsyncNetworkInterface.base (Host._interface h')) (AsyncNetworkInterface.base (Host._interface h)).
Proof.
  destruct demo_lookups as (E1 & _ & E2 & E3). destruct demo_cables as [_ ->]. change (Z.to_nat 4) with 4%nat.
  rewrite E1. intros Hs [= <-]. destruct (sharers_cases _ _ Hs) as [[-> ->]|[-> ->]]; rewrite E2, E3; intros [= <-] [= <-];
    (split; split; intros H; vm_compute in H; discriminate H).
Qed.

Lemma demo_quiet : quiet demo_rules demo ∧ patient demo.
Proof.
  split; [constructor|].
  - apply network_demo_ok.
  - apply demo_calm.
  - apply Forall_lookup. intros i a Ea. by apply fresh_idle, (demo_interface i).
  - intros id name a h _ Ea Eh. apply fresh_settled; [by eapply demo_interface | by apply (demo_host name)].
  - exact demo_apart.
  - intros k h Eh. by apply fresh_idle, (demo_host k).
  - intros k h Eh. by apply (demo_host k).
Qed.

(** "dm42" sends to "dm43", over the shared wire. *)
Lemma datagram_reaches_host_witness :
  ∃ n1 d n2 n3, send_to demo "dm42" (Address.of_ipv4 0xc6b2e52b) 64 7 = Ok (n1, d) ∧
    expect n1 "dm43" (decrement d) = Ok n2 ∧
    (∃ d', arrived (decrement d) d' ∧ ∀ k, (6 <= k)%nat → ∃ n' h, rounds k n2 = Ok n' ∧
      _hosts n' !! "dm43"%string = Some h ∧ AsyncNetworkInterface.datagrams_out (Host._interface h) = [d']) ∧
    simulate n2 = Ok n3 ∧ quiet demo_rules n3 ∧ patient n3.
Proof.
  destruct demo_lookups as (E1 & _ & E2 & E3). destruct demo_cables as [_ Eu].
  apply (datagram_reaches_host demo_rules demo 4 4 "dm42" "dm43"
    (fresh (random_router_ethernet_address (after demo_rd 24)) 0xc6b2e501) (demo_host_of "dm42") (demo_host_of "dm43")
    (Router.Rule 0xc6b2e500 24 (None, 4)) 0xc6b2e52a 0xc6b2e52b 64 7 (proj1 demo_quiet) (proj2 demo_quiet));
    [unfold links; rewrite Eu; apply elem_of_app; right; by left
    | unfold links; rewrite Eu; apply elem_of_app; right; right; by left
    | discriminate | exact E1 | exact E2 | exact E3 | lia | vm_compute; reflexivity | vm_compute; reflexivity | lia
    | vm_compute; reflexivity | reflexivity | vm_compute; reflexivity | lia].
Defined.

Lemma simulation_total_witness :
  (∃ n', rounds 3 demo = Ok n' ∧ net_ok demo_rules n') ∧
  ∃ n' d, send_to demo "applesauce" (Address.of_ipv4 0x01020304) 0 7 = Ok (n', d) ∧ IPv4Datagram.sendable d ∧
    net_ok demo_rules n'.
Proof.
  destruct (simulation_total demo_rules demo network_demo_ok) as [H1 H2]. split; [apply H1|].
  apply (H2 "applesauce"%string (demo_host_of "applesauce") 0x0a000002 0x0a000001 0x01020304 0 7);
    [apply demo_lookups | apply (list_elem_of_lookup_2 names 1); reflexivity | vm_compute; reflexivity
    | vm_compute; reflexivity | lia..].
Defined.

(** Two datagrams, expected in the other order. *)
Definition checked_host (e : list IPv4Datagram.t) : Host.t :=
  Host.mk "checked" (Address.of_ipv4 1) (NetworkInterface.new (replicate 6 x02) (Address.of_ipv4 1) ⊣ [sent 1 2 3 4; sent 1 2 3 5])
    (Address.of_ipv4 2) e.

Lemma check_compares_multisets_witness :
  Host.check (checked_host [sent 1 2 3 5; sent 1 2 3 4]) = Ok (Host.satisfied (checked_host [sent 1 2 3 5; sent 1 2 3 4])) ∧
  Host.check (checked_host [sent 1 2 3 5]) = Throw runtime_error.
Proof.
  split.
  - apply (check_compares_multisets (checked_host [sent 1 2 3 5; sent 1 2 3 4]));
      [repeat (constructor; [apply sent_sendable; lia|]); constructor
      | repeat (constructor; [apply sent_sendable; lia|]); constructor | apply Permutation_swap].
  - apply (check_compares_multisets (checked_host [sent 1 2 3 5]));
      [repeat (constructor; [apply sent_sendable; lia|]); constructor
      | repeat (constructor; [apply sent_sendable; lia|]); constructor | intros H%Permutation_length; discriminate H].
Defined.

End Network.
