(* ===== verification/adapters.v ===== *)
(** * The adapters between TCP and the devices
    (src/lab/libsponge/tcp_helpers/fd_adapter.hh, fd_adapter.cc, tcp_over_ip.hh, tcp_over_ip.cc,
    lossy_fd_adapter.hh, tuntap_adapter.hh, tuntap_adapter.cc)

    An adapter turns TCP segments into what a device carries and back.  The
    template parameter [AdapterT] of [LossyFdAdapter] and of the socket is the
    class [FdAdapter]; the class [SegmentLink] states what an adapter promises
    to its clients, the three adapters discharge it, and the theorems on
    [LossyFdAdapter] are proved against it.  Reading from a device is an
    argument of [read] (what the device returned), writing to it a result (what
    the device was given, in order). *)

From stdpp Require Import gmap.
From S2P Require Import Prelude wrapping_integers buffer parser util tcp_header tcp_segment ipv4 ethernet address tcp_config network_interface.

(** ** The common base *)

Module FdAdapterBase.

Record t := mk { _cfg : FdAdapterConfig.t; _listen : bool }.

Definition set_listening (a : t) (l : bool) : t := mk (_cfg a) l.
Definition listening (a : t) : bool := _listen a.
Definition config (a : t) : FdAdapterConfig.t := _cfg a.
Definition set_config (a : t) (c : FdAdapterConfig.t) : t := mk c (_listen a).
Definition tick (a : t) (ms : Z) : t := a.

Definition source (a : t) : Address.t := FdAdapterConfig.source (_cfg a).
Definition destination (a : t) : Address.t := FdAdapterConfig.destination (_cfg a).

End FdAdapterBase.

(** ** The interface *)

(** [A]: the adapter; [I]: what its device returns from a read; [O]: what the
    device is given in a write.  [write] takes the segment by reference. *)
Class FdAdapter (A I O : Type) := {
  read : A → I → result (A * list O * option TCPSegment.t);
  write : A → TCPSegment.t → result (A * list O * TCPSegment.t);
  tick : A → Z → result (A * list O);
  config : A → FdAdapterConfig.t;
  set_config : A → FdAdapterConfig.t → A;
  set_listening : A → bool → A }.

(** ** TCP in IPv4 *)

Module TCPOverIPv4Adapter.

Section Adapter.
Context `{Address.Resolver}.

Definition unwrap_tcp_in_ip (a : FdAdapterBase.t) (ip_dgram : IPv4Datagram.t)
  : result (FdAdapterBase.t * option TCPSegment.t) :=
  let h := IPv4Datagram.header ip_dgram in
  for_us ← (if negb (FdAdapterBase.listening a)
            then src ← Address.ipv4_numeric (FdAdapterBase.source a); Ok (IPv4Header.dst h =? src)
            else Ok true);
  if negb for_us then Ok (a, None) else
  from_peer ← (if negb (FdAdapterBase.listening a)
               then dst ← Address.ipv4_numeric (FdAdapterBase.destination a); Ok (IPv4Header.src h =? dst)
               else Ok true);
  if negb from_peer then Ok (a, None) else
  if negb (IPv4Header.proto h =? IPv4Header.PROTO_TCP) then Ok (a, None) else
  b ← BufferList.to_buffer (IPv4Datagram.payload ip_dgram);
  '(tcp_seg, r) ← TCPSegment.parse TCPSegment.new b (IPv4Header.pseudo_cksum h);
  if negb (bool_decide (r = NoError)) then Ok (a, None) else
  source_port ← Address.port (FdAdapterBase.source a);
  if negb (TCPHeader.dport (TCPSegment.header tcp_seg) =? source_port) then Ok (a, None) else
  accepted ← (if FdAdapterBase.listening a then
                if TCPHeader.syn (TCPSegment.header tcp_seg) && negb (TCPHeader.rst (TCPSegment.header tcp_seg)) then
                  port ← Address.port (FdAdapterBase.source a);
                  src ← Address.of_ip_port (Address.inet_ntoa (IPv4Header.dst h)) port;
                  let a := FdAdapterBase.set_config a (FdAdapterConfig.set_source (FdAdapterBase.config a) src) in
                  dst ← Address.of_ip_port (Address.inet_ntoa (IPv4Header.src h))
                          (TCPHeader.sport (TCPSegment.header tcp_seg));
                  let a := FdAdapterBase.set_config a (FdAdapterConfig.set_destination (FdAdapterBase.config a) dst) in
                  Ok (Some (FdAdapterBase.set_listening a false))
                else Ok None
              else Ok (Some a));
  match accepted with
  | None => Ok (a, None)
  | Some a =>
      destination_port ← Address.port (FdAdapterBase.destination a);
      if negb (TCPHeader.sport (TCPSegment.header tcp_seg) =? destination_port) then Ok (a, None)
      else Ok (a, Some tcp_seg)
  end.

(** The segment with its ports set. *)
Definition set_ports (seg : TCPSegment.t) (sport dport : Z) : TCPSegment.t :=
  TCPSegment.mk (TCPHeader.set_dport (TCPHeader.set_sport (TCPSegment.header seg) sport) dport)
    (TCPSegment.payload seg).

(** [seg] is a reference: its new value is returned too. *)
Definition wrap_tcp_in_ip (a : FdAdapterBase.t) (seg : TCPSegment.t) : result (TCPSegment.t * IPv4Datagram.t) :=
  sport ← Address.port (FdAdapterBase.source a);
  dport ← Address.port (FdAdapterBase.destination a);
  let seg := set_ports seg sport dport in
  src ← Address.ipv4_numeric (FdAdapterBase.source a);
  dst ← Address.ipv4_numeric (FdAdapterBase.destination a);
  let h := IPv4Header.set_dst (IPv4Header.set_src (IPv4Datagram.header IPv4Datagram.new) src) dst in
  let h := IPv4Header.set_len h
             (uint16 (IPv4Header.hlen h * 4 + TCPHeader.doff (TCPSegment.header seg) * 4
                      + Buffer.size (TCPSegment.payload seg))) in
  payload ← TCPSegment.serialize seg (IPv4Header.pseudo_cksum h);
  Ok (seg, IPv4Datagram.mk h payload).

End Adapter.

End TCPOverIPv4Adapter.

(** ** TCP in IPv4 on a TUN device *)

Module TCPOverIPv4OverTunFdAdapter.

Section Adapter.
Context `{Address.Resolver}.

Definition t := FdAdapterBase.t.

(** [bytes_read] is the result of [_tun.read()]. *)
Definition read (a : t) (bytes_read : bytes) : result (t * list BufferList.t * option TCPSegment.t) :=
  '(ip_dgram, r) ← IPv4Datagram.parse IPv4Datagram.new (Buffer.of_string bytes_read);
  if negb (bool_decide (r = NoError)) then Ok (a, [], None)
  else '(a, seg) ← TCPOverIPv4Adapter.unwrap_tcp_in_ip a ip_dgram; Ok (a, [], seg).

Definition write (a : t) (seg : TCPSegment.t) : result (t * list BufferList.t * TCPSegment.t) :=
  '(seg, ip_dgram) ← TCPOverIPv4Adapter.wrap_tcp_in_ip a seg;
  l ← IPv4Datagram.serialize ip_dgram;
  Ok (a, [l], seg).

#[global] Instance adapter : FdAdapter t bytes BufferList.t := {
  read := read; write := write; tick a _ := Ok (a, []);
  config := FdAdapterBase.config; set_config := FdAdapterBase.set_config;
  set_listening := FdAdapterBase.set_listening }.

End Adapter.

End TCPOverIPv4OverTunFdAdapter.

(** ** TCP in IPv4 in Ethernet on a TAP device *)

Module TCPOverIPv4OverEthernetAdapter.

Section Adapter.
Context `{Address.Resolver}.

Record t := mk { base : FdAdapterBase.t; _interface : NetworkInterface.t; _next_hop : Address.t }.

(** The constructor writes an empty frame to the device. *)
Definition new (cfg : FdAdapterConfig.t) (eth_address : EthernetAddress) (ip_address next_hop : Address.t)
  : t * list BufferList.t :=
  (mk (FdAdapterBase.mk cfg false) (NetworkInterface.new eth_address ip_address) next_hop,
   [EthernetFrame.serialize EthernetFrame.new]).

(** [send_pending]: the loop writes and pops every frame. *)
Definition send_pending (a : t) : t * list BufferList.t :=
  (mk (base a) (NetworkInterface.set_frames_out (_interface a) []) (_next_hop a),
   EthernetFrame.serialize <$> NetworkInterface.frames_out (_interface a)).

Definition set_interface (a : t) (ni : NetworkInterface.t) : t := mk (base a) ni (_next_hop a).

(** [bytes_read] is the result of [_tap.read()]. *)
Definition read (a : t) (bytes_read : bytes) : result (t * list BufferList.t * option TCPSegment.t) :=
  '(frame, r) ← EthernetFrame.parse EthernetFrame.new (Buffer.of_string bytes_read);
  if negb (bool_decide (r = NoError)) then Ok (a, [], None)
  else
    '(ni, ip_dgram) ← NetworkInterface.recv_frame (_interface a) frame;
    let '(a, out) := send_pending (set_interface a ni) in
    match ip_dgram with
    | Some d =>
        '(b, seg) ← TCPOverIPv4Adapter.unwrap_tcp_in_ip (base a) d;
        Ok (mk b (_interface a) (_next_hop a), out, seg)
    | None => Ok (a, out, None)
    end.

Definition tick (a : t) (ms : Z) : result (t * list BufferList.t) :=
  ni ← NetworkInterface.tick (_interface a) ms;
  Ok (send_pending (set_interface a ni)).

Definition write (a : t) (seg : TCPSegment.t) : result (t * list BufferList.t * TCPSegment.t) :=
  '(seg, ip_dgram) ← TCPOverIPv4Adapter.wrap_tcp_in_ip (base a) seg;
  ni ← NetworkInterface.send_datagram (_interface a) ip_dgram (_next_hop a);
  let '(a, out) := send_pending (set_interface a ni) in
  Ok (a, out, seg).

#[global] Instance adapter : FdAdapter t bytes BufferList.t := {
  read := read; write := write; tick := tick;
  config a := FdAdapterBase.config (base a);
  set_config a c := mk (FdAdapterBase.set_config (base a) c) (_interface a) (_next_hop a);
  set_listening a l := mk (FdAdapterBase.set_listening (base a) l) (_interface a) (_next_hop a) }.

End Adapter.

End TCPOverIPv4OverEthernetAdapter.

(** ** TCP in UDP *)

Module TCPOverUDPSocketAdapter.

Section Adapter.
Context `{Address.Resolver}.

Definition t := FdAdapterBase.t.

(** A datagram from [_sock.recv()]: source address and payload. *)
Definition read (a : t) (datagram : Address.t * bytes)
  : result (t * list (Address.t * BufferList.t) * option TCPSegment.t) :=
  let '(source_address, payload) := datagram in
  if negb (FdAdapterBase.listening a) && Address.neqb source_address (FdAdapterBase.destination a)
  then Ok (a, [], None)
  else
    '(seg, r) ← TCPSegment.parse TCPSegment.new (Buffer.of_string payload) 0;
    if negb (bool_decide (r = NoError)) then Ok (a, [], None)
    else if FdAdapterBase.listening a then
      if TCPHeader.syn (TCPSegment.header seg) && negb (TCPHeader.rst (TCPSegment.header seg)) then
        let a := FdAdapterBase.set_config a
                   (FdAdapterConfig.set_destination (FdAdapterBase.config a) source_address) in
        Ok (FdAdapterBase.set_listening a false, [], Some seg)
      else Ok (a, [], None)
    else Ok (a, [], Some seg).

(** [_sock.sendto(destination, payload)]. *)
Definition write (a : t) (seg : TCPSegment.t) : result (t * list (Address.t * BufferList.t) * TCPSegment.t) :=
  sport ← Address.port (FdAdapterBase.source a);
  dport ← Address.port (FdAdapterBase.destination a);
  let seg := TCPOverIPv4Adapter.set_ports seg sport dport in
  l ← TCPSegment.serialize seg 0;
  Ok (a, [(FdAdapterBase.destination a, l)], seg).

#[global] Instance adapter : FdAdapter t (Address.t * bytes) (Address.t * BufferList.t) := {
  read := read; write := write; tick a _ := Ok (a, []);
  config := FdAdapterBase.config; set_config := FdAdapterBase.set_config;
  set_listening := FdAdapterBase.set_listening }.

End Adapter.

End TCPOverUDPSocketAdapter.

(** Two classes with the same base: a socket over one does not use the methods of the other. *)
#[global] Typeclasses Opaque TCPOverIPv4OverTunFdAdapter.t TCPOverUDPSocketAdapter.t.

(** ** Random loss *)

Module LossyFdAdapter.

Section Lossy.
Context {A I O : Type} `{FdAdapter A I O}.

(** The state of [std::mt19937] and its next 32-bit output. *)
Context {rng : Type} (draw : rng → rng * Z).

Record t := mk { _rand : rng; _adapter : A }.

Definition _should_drop (l : t) (uplink : bool) : t * bool :=
  let cfg := config (_adapter l) in
  let loss := if uplink then FdAdapterConfig.loss_rate_up cfg else FdAdapterConfig.loss_rate_dn cfg in
  if loss =? 0 then (l, false)
  else let '(g, z) := draw (_rand l) in (mk g (_adapter l), uint16 z <? loss).

Definition read (l : t) (i : I) : result (t * list O * option TCPSegment.t) :=
  '(a, out, ret) ← adapters.read (_adapter l) i;
  let '(l, drop) := _should_drop (mk (_rand l) a) false in
  if drop then Ok (l, out, None) else Ok (l, out, ret).

Definition write (l : t) (seg : TCPSegment.t) : result (t * list O * TCPSegment.t) :=
  let '(l, drop) := _should_drop l true in
  if drop then Ok (l, [], seg)
  else '(a, out, seg) ← adapters.write (_adapter l) seg; Ok (mk (_rand l) a, out, seg).

Definition tick (l : t) (ms : Z) : result (t * list O) :=
  '(a, out) ← adapters.tick (_adapter l) ms; Ok (mk (_rand l) a, out).

#[global] Instance adapter : FdAdapter t I O := {
  read := read; write := write; tick := tick;
  config l := adapters.config (_adapter l);
  set_config l c := mk (_rand l) (adapters.set_config (_adapter l) c);
  set_listening l b := mk (_rand l) (adapters.set_listening (_adapter l) b) }.

End Lossy.

End LossyFdAdapter.

(** ** What an adapter promises *)

(** The segment as the peer gets it: the checksum is filled in. *)
Definition same_segment (s s' : TCPSegment.t) : Prop :=
  (∃ v, TCPSegment.header s' = TCPHeader.set_cksum (TCPSegment.header s) v) ∧
  Buffer.str (TCPSegment.payload s') = Buffer.str (TCPSegment.payload s).

(** The segment fits an IPv4 datagram. *)
Definition fits (s : TCPSegment.t) : Prop :=
  TCPSegment.sendable s ∧
  20 + 4 * TCPHeader.doff (TCPSegment.header s) + len (Buffer.str (TCPSegment.payload s)) <= 65535.

(** [linked a b]: the adapters are configured for each other; [carry a o]: what
    the device of the peer returns when the device of [a] was given [o].  A
    segment written at one end, with the ports of the connection, is read at the
    other, and the link stays up. *)
Class SegmentLink (A I O : Type) `{FdAdapter A I O} := {
  linked : A → A → Prop;
  carry : A → O → I;
  link_transfer a b seg : linked a b → fits seg →
    ∃ a' o sport dport,
      write a seg = Ok (a', [o], TCPOverIPv4Adapter.set_ports seg sport dport) ∧
      config a' = config a ∧ linked a' b ∧
      ∃ b' s, read b (carry a o) = Ok (b', [], Some s) ∧ config b' = config b ∧
        same_segment (TCPOverIPv4Adapter.set_ports seg sport dport) s ∧ linked a' b' }.

(** Two adapters with mirrored addresses, both connected. *)
Definition mirrored (a b : FdAdapterBase.t) : Prop :=
  FdAdapterBase.listening b = false ∧
  ∃ ip1 port1 ip2 port2,
    0 <= ip1 < two32 ∧ 0 <= port1 < two16 ∧ 0 <= ip2 < two32 ∧ 0 <= port2 < two16 ∧
    FdAdapterBase.source a = Address.endpoint ip1 port1 ∧ FdAdapterBase.destination a = Address.endpoint ip2 port2 ∧
    FdAdapterBase.source b = Address.endpoint ip2 port2 ∧ FdAdapterBase.destination b = Address.endpoint ip1 port1.

Section Promises.
Context `{Address.NumericResolver}.

Lemma fits_set_ports seg sport dport : fits seg → 0 <= sport < two16 → 0 <= dport < two16 →
  fits (TCPOverIPv4Adapter.set_ports seg sport dport).
Proof. intros [[[] ? ?] ?] Hs Hd. split; [|done]. by constructor; [constructor| |]. Qed.

(** Wrapping a segment gives a datagram from the source to the destination. *)
Lemma wrap_spec a seg ip1 port1 ip2 port2 :
  0 <= ip1 < two32 → 0 <= port1 < two16 → 0 <= ip2 < two32 → 0 <= port2 < two16 →
  FdAdapterBase.source a = Address.endpoint ip1 port1 → FdAdapterBase.destination a = Address.endpoint ip2 port2 →
  fits seg →
  ∃ d, TCPOverIPv4Adapter.wrap_tcp_in_ip a seg = Ok (TCPOverIPv4Adapter.set_ports seg port1 port2, d) ∧
    IPv4Datagram.sendable d ∧ IPv4Header.src (IPv4Datagram.header d) = ip1 ∧
    IPv4Header.dst (IPv4Datagram.header d) = ip2 ∧ IPv4Header.proto (IPv4Datagram.header d) = IPv4Header.PROTO_TCP ∧
    TCPSegment.serialize (TCPOverIPv4Adapter.set_ports seg port1 port2) (IPv4Header.pseudo_cksum (IPv4Datagram.header d))
    = Ok (IPv4Datagram.payload d).
Proof.
  intros Hi1 Hp1 Hi2 Hp2 Hs Hd Hf. unfold TCPOverIPv4Adapter.wrap_tcp_in_ip. rewrite Hs, Hd.
  rewrite !Address.port_endpoint, !result_bind_ok by done. rewrite !Address.ipv4_numeric_endpoint, !result_bind_ok by done.
  destruct (fits_set_ports seg port1 port2 Hf Hp1 Hp2) as [Hsend Hlen].
  set (s := TCPOverIPv4Adapter.set_ports seg port1 port2) in *.
  set (l := uint16 _). assert (l = 20 + 4 * TCPHeader.doff (TCPSegment.header s) + len (Buffer.str (TCPSegment.payload s))) as Hl.
  { unfold l. pose proof (len_nonneg (Buffer.str (TCPSegment.payload s))). pose proof (TCPSegment.s_doff _ Hsend).
    rewrite uint16_id; unfold Buffer.size;
      change (IPv4Header.hlen (IPv4Header.set_dst (IPv4Header.set_src (IPv4Datagram.header IPv4Datagram.new) ip1) ip2))
        with 5; lia. }
  set (h := IPv4Header.set_len _ l).
  assert (IPv4Header.valid h) as Hv.
  { pose proof (len_nonneg (Buffer.str (TCPSegment.payload s))). pose proof (TCPSegment.s_doff _ Hsend).
    constructor; simpl; unfold IPv4Header.DEFAULT_TTL, IPv4Header.PROTO_TCP, IPv4Header.LENGTH; try done; lia. }
  pose proof (IPv4Header.pseudo_cksum_range h Hv) as Hps.
  destruct (TCPSegment.segment_serialize_wire s _ Hsend Hps) as (v & pl & E & _). rewrite E, result_bind_ok.
  eexists. split; [done|]. split; [|done]. split; [done|].
  cbn [IPv4Datagram.payload IPv4Datagram.header IPv4Datagram._payload IPv4Datagram._header].
  rewrite (TCPSegment.segment_len_serialized s _ pl Hsend Hps E). change (IPv4Header.hlen h) with 5.
  change (IPv4Header.len_ h) with l. lia.
Qed.

(** Wrapped segments start with the default time to live. *)
Lemma wrap_ttl a seg seg' d : TCPOverIPv4Adapter.wrap_tcp_in_ip a seg = Ok (seg', d) →
  IPv4Header.ttl (IPv4Datagram.header d) = IPv4Header.DEFAULT_TTL.
Proof.
  unfold TCPOverIPv4Adapter.wrap_tcp_in_ip. intros H1.
  repeat (apply result_bind_inv in H1 as (? & _ & H1)). by injection H1 as _ <-.
Qed.

(** Unwrapping does not look at the time to live. *)
Lemma unwrap_ttl b d x :
  TCPOverIPv4Adapter.unwrap_tcp_in_ip b (IPv4Datagram.set_header d (IPv4Header.set_ttl (IPv4Datagram.header d) x))
  = TCPOverIPv4Adapter.unwrap_tcp_in_ip b d.
Proof. reflexivity. Qed.

(** The adapter after it has accepted a connection. *)
Definition accepted (b : FdAdapterBase.t) (source destination : Address.t) : FdAdapterBase.t :=
  FdAdapterBase.mk (FdAdapterConfig.set_destination
    (FdAdapterConfig.set_source (FdAdapterBase.config b) source) destination) false.

(** Unwrapping what an adapter with source [ip1:port1] and destination [ip2:port2]
    wrapped, at an adapter with source [ip3:port3] and destination [ip4:port4]. *)
Lemma unwrap_eval a b seg d d' ip1 port1 ip2 port2 ip3 port3 ip4 port4 :
  0 <= ip1 < two32 → 0 <= port1 < two16 → 0 <= ip2 < two32 → 0 <= port2 < two16 →
  0 <= ip3 < two32 → 0 <= port3 < two16 → 0 <= ip4 < two32 → 0 <= port4 < two16 →
  FdAdapterBase.source a = Address.endpoint ip1 port1 → FdAdapterBase.destination a = Address.endpoint ip2 port2 →
  FdAdapterBase.source b = Address.endpoint ip3 port3 → FdAdapterBase.destination b = Address.endpoint ip4 port4 →
  fits seg → TCPOverIPv4Adapter.wrap_tcp_in_ip a seg = Ok d → NetworkInterface.same_datagram d.2 d' →
  ∃ s, same_segment d.1 s ∧
    TCPOverIPv4Adapter.unwrap_tcp_in_ip b d'
    = if FdAdapterBase.listening b then
        if (port2 =? port3) && (TCPHeader.syn (TCPSegment.header seg) && negb (TCPHeader.rst (TCPSegment.header seg)))
        then Ok (accepted b (Address.endpoint ip2 port3) (Address.endpoint ip1 port1), Some s) else Ok (b, None)
      else if (ip2 =? ip3) && (ip1 =? ip4) && (port2 =? port3) && (port1 =? port4)
        then Ok (b, Some s) else Ok (b, None).
Proof.
  intros Hi1 Hp1 Hi2 Hp2 Hi3 Hp3 Hi4 Hp4 Sa Da Sb Db Hf Ew ((v & Hh) & Hpay & bf & Hone & Hbf).
  destruct (wrap_spec a seg ip1 port1 ip2 port2) as (d0 & Ew' & [Hv _] & Hsrc & Hdst & Hproto & Eser); try done.
  rewrite Ew in Ew'. injection Ew' as ->. cbn [fst snd] in *.
  destruct (fits_set_ports seg port1 port2 Hf Hp1 Hp2) as [Hsend _].
  set (s := TCPOverIPv4Adapter.set_ports seg port1 port2) in *.
  destruct (TCPSegment.segment_parse_wire s TCPSegment.new _ bf Hsend (IPv4Header.pseudo_cksum_range _ Hv) Hbf)
    as (w & s' & Ep & _ & Hh' & Hd' & _).
  { intros l El. rewrite Eser in El. injection El as <-. rewrite <- Hpay, Hone.
    unfold BufferList.of_buffer. rewrite BufferList.concatenate_cons. by rewrite app_nil_r. }
  exists s'. split; [by split; [exists w|]|].
  unfold TCPOverIPv4Adapter.unwrap_tcp_in_ip. rewrite Sb, Db, Hh, Hone.
  rewrite !Address.ipv4_numeric_endpoint, !Address.port_endpoint, !result_bind_ok by done.
  cbn [IPv4Header.dst IPv4Header.src IPv4Header.proto IPv4Header.set_cksum BufferList.to_buffer BufferList.of_buffer].
  change (IPv4Header.pseudo_cksum (IPv4Header.set_cksum (IPv4Datagram.header d0) v))
    with (IPv4Header.pseudo_cksum (IPv4Datagram.header d0)).
  rewrite Hsrc, Hdst, Hproto, Z.eqb_refl, result_bind_ok, Ep, result_bind_ok, Hh'. rewrite bool_decide_eq_true_2 by done.
  change (TCPHeader.dport (TCPHeader.set_cksum (TCPSegment.header s) w)) with port2.
  change (TCPHeader.sport (TCPHeader.set_cksum (TCPSegment.header s) w)) with port1.
  change (TCPHeader.syn (TCPHeader.set_cksum (TCPSegment.header s) w)) with (TCPHeader.syn (TCPSegment.header seg)).
  change (TCPHeader.rst (TCPHeader.set_cksum (TCPSegment.header s) w)) with (TCPHeader.rst (TCPSegment.header seg)).
  destruct (FdAdapterBase.listening b) eqn:Hl; cbn [negb]; cbv iota; rewrite !result_bind_ok; cbn [negb]; cbv iota.
  - rewrite !Address.of_ip_port_numeric, !result_bind_ok by done. cbn [negb].
    destruct (port2 =? port3); [|done]. cbn [negb andb]. destruct (_ && _); [|done].
    rewrite result_bind_ok. fold (accepted b (Address.endpoint ip2 port3) (Address.endpoint ip1 port1)).
    cbn [FdAdapterBase.destination FdAdapterBase.set_listening FdAdapterBase.set_config FdAdapterBase._cfg
      FdAdapterConfig.set_destination FdAdapterConfig.destination FdAdapterBase.config].
    rewrite Address.port_endpoint, result_bind_ok, Z.eqb_refl by done. done.
  - destruct (ip2 =? ip3); cbn [negb andb]; [|done]. rewrite ?result_bind_ok.
    destruct (ip1 =? ip4); cbn [negb andb]; [|done].
    destruct (port2 =? port3); cbn [negb andb]; [|done]. rewrite ?result_bind_ok, Db.
    rewrite Address.port_endpoint, result_bind_ok by done. by destruct (port1 =? port4).
Qed.

(** Unwrapping what a mirrored adapter wrapped. *)
Lemma unwrap_spec a b seg d d' : mirrored a b → fits seg →
  TCPOverIPv4Adapter.wrap_tcp_in_ip a seg = Ok d → NetworkInterface.same_datagram d.2 d' →
  ∃ s, TCPOverIPv4Adapter.unwrap_tcp_in_ip b d' = Ok (b, Some s) ∧ same_segment d.1 s.
Proof.
  intros (Hnl & ip1 & port1 & ip2 & port2 & Hi1 & Hp1 & Hi2 & Hp2 & Sa & Da & Sb & Db) Hf Ew Hsame.
  destruct (unwrap_eval a b seg d d' ip1 port1 ip2 port2 ip2 port2 ip1 port1) as (s & Hs & E); try done.
  exists s. split; [|done]. by rewrite E, Hnl, !Z.eqb_refl.
Qed.

(** A written datagram parses at the other end. *)
Lemma wire_parse d l : IPv4Datagram.sendable d → IPv4Datagram.serialize d = Ok l →
  ∃ d', IPv4Datagram.parse IPv4Datagram.new (Buffer.of_string (BufferList.concatenate l)) = Ok (d', NoError) ∧
    NetworkInterface.same_datagram d d'.
Proof.
  intros Hd El. pose proof (IPv4Datagram.datagram_len_serialized d l Hd El) as Hlen.
  assert (Buffer.wf (Buffer.of_string (BufferList.concatenate l))) as Hb.
  { apply Buffer.wf_of_string. rewrite Hlen. destruct Hd as [[] _]. lia. }
  destruct (IPv4Datagram.datagram_parse_wire d IPv4Datagram.new _ Hd Hb) as (v & d' & Ep & Hh & _ & Hp & _).
  { intros l' El'. rewrite El in El'. by injection El' as <-. }
  destruct (IPv4Datagram.datagram_parse_total IPv4Datagram.new _ Hb) as (d1 & r1 & bf & Ep1 & _ & Hone); [done|].
  rewrite Ep in Ep1. injection Ep1 as <- <-.
  exists d'. split; [done|]. split; [by exists v|]. split; [done | by exists bf].
Qed.

Lemma tun_transfer a b seg : mirrored a b → fits seg →
  ∃ o sport dport, TCPOverIPv4OverTunFdAdapter.write a seg = Ok (a, [o], TCPOverIPv4Adapter.set_ports seg sport dport) ∧
    ∃ s, TCPOverIPv4OverTunFdAdapter.read b (BufferList.concatenate o) = Ok (b, [], Some s) ∧
      same_segment (TCPOverIPv4Adapter.set_ports seg sport dport) s.
Proof.
  intros Hm Hf. pose proof Hm as (_ & ip1 & port1 & ip2 & port2 & Hi1 & Hp1 & Hi2 & Hp2 & Sa & Da & _).
  destruct (wrap_spec a seg ip1 port1 ip2 port2) as (d & Ew & Hd & _); try done.
  destruct (IPv4Datagram.datagram_serialize_wire d Hd) as (v & l & El & _).
  destruct (wire_parse d l Hd El) as (d' & Ep & Hsame).
  destruct (unwrap_spec a b seg _ d' Hm Hf Ew Hsame) as (s & Eu & Hs).
  exists l, port1, port2. split.
  - unfold TCPOverIPv4OverTunFdAdapter.write. by rewrite Ew, result_bind_ok, El.
  - exists s. split; [|done]. unfold TCPOverIPv4OverTunFdAdapter.read. rewrite Ep, result_bind_ok. simpl negb. cbv iota.
    by rewrite Eu.
Qed.

Lemma udp_transfer a b seg : mirrored a b → fits seg →
  ∃ o sport dport, TCPOverUDPSocketAdapter.write a seg = Ok (a, [o], TCPOverIPv4Adapter.set_ports seg sport dport) ∧
    ∃ s, TCPOverUDPSocketAdapter.read b (FdAdapterBase.source a, BufferList.concatenate o.2) = Ok (b, [], Some s) ∧
      same_segment (TCPOverIPv4Adapter.set_ports seg sport dport) s.
Proof.
  intros (Hnl & ip1 & port1 & ip2 & port2 & Hi1 & Hp1 & Hi2 & Hp2 & Sa & Da & Sb & Db) Hf.
  destruct (fits_set_ports seg port1 port2 Hf Hp1 Hp2) as [Hsend _].
  destruct (TCPSegment.segment_serialize_wire _ 0 Hsend) as (v & l & El & _); [lia|].
  destruct (TCPSegment.segment_parse_wire _ TCPSegment.new 0 (Buffer.of_string (BufferList.concatenate l)) Hsend)
    as (w & s & Ep & _ & Hh & Hp & _); [lia | | |].
  { apply Buffer.wf_of_string. rewrite (TCPSegment.segment_len_serialized _ 0 l Hsend) by (lia || done).
    destruct Hsend as [_ _ Hl]. lia. }
  { intros l' El'. rewrite El in El'. by injection El' as <-. }
  eexists. exists port1, port2. split.
  - unfold TCPOverUDPSocketAdapter.write. rewrite Sa, Da, !Address.port_endpoint, !result_bind_ok by done. by rewrite El.
  - exists s. split; [|split; [by exists w | done]]. unfold TCPOverUDPSocketAdapter.read. rewrite Hnl, Db, Sa.
    assert (Address.neqb (Address.endpoint ip1 port1) (Address.endpoint ip1 port1) = false) as ->.
    { unfold Address.neqb, Address.eqb. rewrite Z.eqb_refl. by rewrite bool_decide_eq_true_2. }
    simpl andb. cbv iota. cbn [snd]. by rewrite Ep, result_bind_ok.
Qed.

(** On Ethernet, a link needs a resolved next hop and no frames left over. *)
Definition resolved (ni nj : NetworkInterface.t) (next_hop : Address.t) : Prop :=
  NetworkInterface.inv ni ∧ NetworkInterface.inv nj ∧
  NetworkInterface.frames_out ni = [] ∧ NetworkInterface.frames_out nj = [] ∧
  NetworkInterface._ethernet_address nj ≠ ETHERNET_BROADCAST ∧
  ∃ hop age, 0 <= hop < two32 ∧ next_hop = Address.of_ipv4 hop ∧
    NetworkInterface._addr_mp ni !! hop = Some (age, NetworkInterface._ethernet_address nj).

Definition ethernet_linked (a b : TCPOverIPv4OverEthernetAdapter.t) : Prop :=
  mirrored (TCPOverIPv4OverEthernetAdapter.base a) (TCPOverIPv4OverEthernetAdapter.base b) ∧
  resolved (TCPOverIPv4OverEthernetAdapter._interface a) (TCPOverIPv4OverEthernetAdapter._interface b)
    (TCPOverIPv4OverEthernetAdapter._next_hop a).

(** Writing to a hop whose address is known, and reading a frame with a datagram. *)
Lemma ethernet_write a seg seg' d l hop age eth :
  TCPOverIPv4Adapter.wrap_tcp_in_ip (TCPOverIPv4OverEthernetAdapter.base a) seg = Ok (seg', d) →
  IPv4Datagram.serialize d = Ok l → NetworkInterface.frames_out (TCPOverIPv4OverEthernetAdapter._interface a) = [] →
  TCPOverIPv4OverEthernetAdapter._next_hop a = Address.of_ipv4 hop → 0 <= hop < two32 →
  NetworkInterface._addr_mp (TCPOverIPv4OverEthernetAdapter._interface a) !! hop = Some (age, eth) →
  eth ≠ ETHERNET_BROADCAST →
  TCPOverIPv4OverEthernetAdapter.write a seg
  = Ok (a, [EthernetFrame.serialize (NetworkInterface.frame (TCPOverIPv4OverEthernetAdapter._interface a)
              EthernetHeader.TYPE_IPv4 eth l)], seg').
Proof.
  destruct a as [ba ni next_hop]. cbn [TCPOverIPv4OverEthernetAdapter.base TCPOverIPv4OverEthernetAdapter._interface
    TCPOverIPv4OverEthernetAdapter._next_hop]. intros Ew El Fi Enext Hhop Emp Hbc.
  unfold TCPOverIPv4OverEthernetAdapter.write. cbn [TCPOverIPv4OverEthernetAdapter.base
    TCPOverIPv4OverEthernetAdapter._interface TCPOverIPv4OverEthernetAdapter._next_hop].
  rewrite Ew, result_bind_ok, Enext. rewrite (NetworkInterface.send_known ni d age _ hop l) by done.
  rewrite result_bind_ok. unfold TCPOverIPv4OverEthernetAdapter.send_pending, NetworkInterface.push_frame,
    NetworkInterface.frames_out in *. cbn. rewrite Fi. cbn. do 3 f_equal. f_equal.
  destruct ni; simpl in *. by subst.
Qed.

Lemma ethernet_read b raw f d bb seg :
  EthernetFrame.parse EthernetFrame.new (Buffer.of_string raw) = Ok (f, NoError) →
  NetworkInterface.recv_frame (TCPOverIPv4OverEthernetAdapter._interface b) f
  = Ok (TCPOverIPv4OverEthernetAdapter._interface b, Some d) →
  NetworkInterface.frames_out (TCPOverIPv4OverEthernetAdapter._interface b) = [] →
  TCPOverIPv4Adapter.unwrap_tcp_in_ip (TCPOverIPv4OverEthernetAdapter.base b) d = Ok (bb, seg) →
  TCPOverIPv4OverEthernetAdapter.read b raw
  = Ok (TCPOverIPv4OverEthernetAdapter.mk bb (TCPOverIPv4OverEthernetAdapter._interface b)
          (TCPOverIPv4OverEthernetAdapter._next_hop b), [], seg).
Proof.
  intros Et Er Fj Eu. unfold TCPOverIPv4OverEthernetAdapter.read. rewrite Et, result_bind_ok. simpl negb. cbv iota.
  rewrite Er, result_bind_ok. destruct b as [b0 nj hop]. simpl in *.
  unfold TCPOverIPv4OverEthernetAdapter.send_pending. cbn. rewrite Fj, Eu. cbn.
  do 3 f_equal. f_equal. destruct nj; simpl in *. by subst.
Qed.

Lemma ethernet_transfer a b seg : ethernet_linked a b → fits seg →
  ∃ o sport dport,
    TCPOverIPv4OverEthernetAdapter.write a seg = Ok (a, [o], TCPOverIPv4Adapter.set_ports seg sport dport) ∧
    ∃ s, TCPOverIPv4OverEthernetAdapter.read b (BufferList.concatenate o) = Ok (b, [], Some s) ∧
      same_segment (TCPOverIPv4Adapter.set_ports seg sport dport) s.
Proof.
  intros [Hm (Hi & Hj & Fi & Fj & Hbc & hop & age & Hhop & Enext & Emp)] Hf.
  pose proof Hm as (_ & ip1 & port1 & ip2 & port2 & Hi1 & Hp1 & Hi2 & Hp2 & Sa & Da & _).
  destruct (wrap_spec (TCPOverIPv4OverEthernetAdapter.base a) seg ip1 port1 ip2 port2) as (d & Ew & Hd & _); try done.
  destruct (IPv4Datagram.datagram_serialize_wire d Hd) as (v & l & El & _).
  destruct (NetworkInterface.ipv4_frame_delivers _ _ d l Hi Hj Hd El) as (f & d' & Et & Er & Hsame).
  destruct (unwrap_spec _ _ seg _ d' Hm Hf Ew Hsame) as (s & Eu & Hs).
  eexists _, port1, port2. split; [by eapply ethernet_write|]. exists s. split; [|done].
  rewrite (ethernet_read b _ f d' _ (Some s) Et Er Fj Eu). by destruct b.
Qed.

(** The three adapters keep the promise. *)
#[global] Instance tun_link : SegmentLink TCPOverIPv4OverTunFdAdapter.t bytes BufferList.t.
Proof.
  refine {| linked := mirrored; carry _ o := BufferList.concatenate o |}.
  intros a b seg Hl Hf. destruct (tun_transfer a b seg Hl Hf) as (o & sp & dp & E & s & Er & Hs).
  exists a, o, sp, dp. split; [exact E|]. split; [done|]. split; [done|]. by exists b, s.
Defined.

#[global] Instance udp_link : SegmentLink TCPOverUDPSocketAdapter.t (Address.t * bytes) (Address.t * BufferList.t).
Proof.
  refine {| linked := mirrored; carry a o := (FdAdapterBase.source a, BufferList.concatenate o.2) |}.
  intros a b seg Hl Hf. destruct (udp_transfer a b seg Hl Hf) as (o & sp & dp & E & s & Er & Hs).
  exists a, o, sp, dp. split; [exact E|]. split; [done|]. split; [done|]. by exists b, s.
Defined.

#[global] Instance ethernet_link : SegmentLink TCPOverIPv4OverEthernetAdapter.t bytes BufferList.t.
Proof.
  refine {| linked := ethernet_linked; carry _ o := BufferList.concatenate o |}.
  intros a b seg Hl Hf. destruct (ethernet_transfer a b seg Hl Hf) as (o & sp & dp & E & s & Er & Hs).
  exists a, o, sp, dp. split; [exact E|]. split; [done|]. split; [done|]. by exists b, s.
Defined.

End Promises.

(** ** A lossy adapter loses segments and does nothing else *)

Section LossyLink.
Context {A I O : Type} `{SegmentLink A I O} {rng : Type} (draw : rng → rng * Z).

Definition lossy : Type := @LossyFdAdapter.t A rng.

(** A segment written through [l] and, unless dropped, read through [m]. *)
Definition exchange_one (l m : lossy) (seg : TCPSegment.t) : result (lossy * lossy * list TCPSegment.t) :=
  '(l', out, _) ← LossyFdAdapter.write draw l seg;
  match out with
  | [] => Ok (l', m, [])
  | o :: _ =>
      '(m', _, r) ← LossyFdAdapter.read draw m (carry (LossyFdAdapter._adapter l) o);
      Ok (l', m', option_list r)
  end.

Fixpoint exchange (l m : lossy) (segs : list TCPSegment.t) : result (lossy * lossy * list TCPSegment.t) :=
  match segs with
  | [] => Ok (l, m, [])
  | seg :: segs =>
      '(l, m, got) ← exchange_one l m seg;
      '(l, m, rest) ← exchange l m segs;
      Ok (l, m, got ++ rest)
  end.

(** What arrives is the segment with the ports and checksum filled in. *)
Definition arrived (seg s : TCPSegment.t) : Prop :=
  ∃ sport dport, same_segment (TCPOverIPv4Adapter.set_ports seg sport dport) s.

(** No loss in either direction used. *)
Definition lossless (l m : lossy) : Prop :=
  FdAdapterConfig.loss_rate_up (config (LossyFdAdapter._adapter l)) = 0 ∧
  FdAdapterConfig.loss_rate_dn (config (LossyFdAdapter._adapter m)) = 0.

Lemma should_drop_spec (l : lossy) up :
  ∃ l' d, LossyFdAdapter._should_drop draw l up = (l', d) ∧
    LossyFdAdapter._adapter l' = LossyFdAdapter._adapter l ∧
    ((if up then FdAdapterConfig.loss_rate_up (config (LossyFdAdapter._adapter l))
      else FdAdapterConfig.loss_rate_dn (config (LossyFdAdapter._adapter l))) = 0 → d = false).
Proof.
  unfold LossyFdAdapter._should_drop. case_test; [by exists l, false|].
  destruct (draw (LossyFdAdapter._rand l)) as [g z]. eexists _, _. by split; [done|].
Qed.

Lemma exchange_one_spec l m seg : linked (LossyFdAdapter._adapter l) (LossyFdAdapter._adapter m) → fits seg →
  ∃ l' m' got, exchange_one l m seg = Ok (l', m', got) ∧
    linked (LossyFdAdapter._adapter l') (LossyFdAdapter._adapter m') ∧
    config (LossyFdAdapter._adapter l') = config (LossyFdAdapter._adapter l) ∧
    config (LossyFdAdapter._adapter m') = config (LossyFdAdapter._adapter m) ∧
    ((∃ s, got = [s] ∧ arrived seg s) ∨ got = [] ∧ ¬ lossless l m).
Proof.
  intros Hl Hf. unfold exchange_one, LossyFdAdapter.write.
  destruct (should_drop_spec l true) as (l1 & d1 & E1 & A1 & H1). rewrite E1. destruct d1.
  { rewrite result_bind_ok. eexists _, _, _. split; [done|]. rewrite A1. do 3 (split; [done|]). right.
    split; [done|]. intros [H2 _]. by apply H1 in H2. }
  destruct (link_transfer _ _ seg Hl Hf) as (a' & o & sp & dp & Ew & Ca & La & b' & s & Er & Cb & Hs & Lb).
  rewrite A1, Ew, !result_bind_ok. unfold LossyFdAdapter.read. rewrite Er, !result_bind_ok.
  destruct (should_drop_spec (LossyFdAdapter.mk (LossyFdAdapter._rand m) b') false) as (m1 & d2 & E2 & A2 & H2).
  rewrite E2. cbn [LossyFdAdapter._adapter] in A2, H2. rewrite Cb in H2.
  destruct d2; rewrite result_bind_ok; eexists _, _, _; (split; [done|]); rewrite A2; cbn [LossyFdAdapter._adapter];
    (split; [done|]); (split; [done|]); (split; [done|]).
  - right. split; [done|]. intros [_ Hd]. by apply H2 in Hd.
  - left. exists s. split; [done|]. by exists sp, dp.
Qed.

(** C30: Over any adapter that keeps its promise, a pair of lossy adapters loses
    segments and does nothing else: whatever the random generator and the loss
    rates, no call throws, and the segments read are the written ones, with
    ports and checksum filled in, in order and possibly with some left out;
    with loss rates of zero none is left out. *)
Theorem lossy_exchange_subsequence (l m : lossy) (segs : list TCPSegment.t) :
  linked (LossyFdAdapter._adapter l) (LossyFdAdapter._adapter m) → Forall fits segs →
  ∃ l' m' got kept, exchange l m segs = Ok (l', m', got) ∧
    sublist kept segs ∧ Forall2 arrived kept got ∧ (lossless l m → kept = segs).
Proof.
  revert l m. induction segs as [|seg segs IH]; intros l m Hl Hf; simpl.
  { exists l, m, [], []. split; [done|]. split; [constructor|]. split; [constructor | done]. }
  apply Forall_cons in Hf as [Hseg Hf].
  destruct (exchange_one_spec l m seg Hl Hseg) as (l1 & m1 & got1 & E1 & Hl1 & Cl & Cm & Hgot).
  destruct (IH l1 m1 Hl1 Hf) as (l2 & m2 & got2 & kept & E2 & Hsub & Harr & Hall).
  rewrite E1, result_bind_ok, E2, result_bind_ok. unfold lossless in *. rewrite Cl, Cm in Hall.
  destruct Hgot as [(s & -> & Hs) | [-> Hno]].
  - exists l2, m2, (s :: got2), (seg :: kept). split; [done|]. split; [by constructor|]. split; [by constructor|].
    intros Hz. by rewrite Hall.
  - exists l2, m2, got2, kept. split; [done|]. split; [by constructor|]. split; [done|]. tauto.
Qed.

End LossyLink.

(** ** Which segments an adapter accepts *)

Section Accepting.
Context `{Address.NumericResolver}.

(** An adapter whose configuration holds two IPv4 endpoints. *)
Definition configured (a : FdAdapterBase.t) (ip1 port1 ip2 port2 : Z) : Prop :=
  0 <= ip1 < two32 ∧ 0 <= port1 < two16 ∧ 0 <= ip2 < two32 ∧ 0 <= port2 < two16 ∧
  FdAdapterBase.source a = Address.endpoint ip1 port1 ∧ FdAdapterBase.destination a = Address.endpoint ip2 port2.

(** C23: TCP over IPv4 delivers to the right connection.  The datagram that
    [wrap_tcp_in_ip] makes of a segment can be put on the wire, and after the
    wire [unwrap_tcp_in_ip] of a connected adapter gives the segment if the
    adapter's addresses and ports are the sender's reversed, and nothing
    otherwise; the adapter does not change. *)
Theorem tcp_in_ip_demultiplex (a b : FdAdapterBase.t) (seg : TCPSegment.t) (ip1 port1 ip2 port2 ip3 port3 ip4 port4 : Z) :
  configured a ip1 port1 ip2 port2 → configured b ip3 port3 ip4 port4 →
  FdAdapterBase.listening b = false → fits seg →
  ∃ seg' d, TCPOverIPv4Adapter.wrap_tcp_in_ip a seg = Ok (seg', d) ∧ IPv4Datagram.sendable d ∧
    ∀ d', NetworkInterface.same_datagram d d' →
      if bool_decide (ip3 = ip2 ∧ port3 = port2 ∧ ip4 = ip1 ∧ port4 = port1)
      then ∃ s, TCPOverIPv4Adapter.unwrap_tcp_in_ip b d' = Ok (b, Some s) ∧ same_segment seg' s
      else TCPOverIPv4Adapter.unwrap_tcp_in_ip b d' = Ok (b, None).
Proof.
  intros (Hi1 & Hp1 & Hi2 & Hp2 & Sa & Da) (Hi3 & Hp3 & Hi4 & Hp4 & Sb & Db) Hl Hf.
  destruct (wrap_spec a seg ip1 port1 ip2 port2) as (d & Ew & Hd & _); try done.
  eexists _, d. split; [exact Ew|]. split; [done|]. intros d' Hsame.
  destruct (unwrap_eval a b seg (TCPOverIPv4Adapter.set_ports seg port1 port2, d) d' ip1 port1 ip2 port2 ip3 port3 ip4 port4) as (s & Hs & E);
    try done.
  rewrite E, Hl. case_bool_decide as Hb.
  - destruct Hb as (-> & -> & -> & ->). rewrite !Z.eqb_refl. by exists s.
  - destruct (Z.eqb_spec ip2 ip3), (Z.eqb_spec ip1 ip4), (Z.eqb_spec port2 port3), (Z.eqb_spec port1 port4);
      simpl; try done. by destruct Hb.
Qed.

(** A listening adapter accepts a connection on its port: on a segment with
    SYN and without RST it hands up the segment, takes the two addresses from
    the datagram, and is from then on the mirror image of the sender, so that
    the sender's later segments reach it and its own reach the sender; any
    other segment is ignored and the adapter keeps listening. *)
Theorem listener_accepts_syn (a b : FdAdapterBase.t) (seg : TCPSegment.t) (ip1 port1 ip2 port2 ip3 port3 ip4 port4 : Z) :
  configured a ip1 port1 ip2 port2 → configured b ip3 port3 ip4 port4 →
  FdAdapterBase.listening a = false → FdAdapterBase.listening b = true → fits seg →
  ∃ seg' d, TCPOverIPv4Adapter.wrap_tcp_in_ip a seg = Ok (seg', d) ∧
    ∀ d', NetworkInterface.same_datagram d d' →
      if bool_decide (port3 = port2) &&
         (TCPHeader.syn (TCPSegment.header seg) && negb (TCPHeader.rst (TCPSegment.header seg)))
      then ∃ b' s, TCPOverIPv4Adapter.unwrap_tcp_in_ip b d' = Ok (b', Some s) ∧ same_segment seg' s ∧
             mirrored a b' ∧ mirrored b' a
      else TCPOverIPv4Adapter.unwrap_tcp_in_ip b d' = Ok (b, None).
Proof.
  intros (Hi1 & Hp1 & Hi2 & Hp2 & Sa & Da) (Hi3 & Hp3 & Hi4 & Hp4 & Sb & Db) Hla Hl Hf.
  destruct (wrap_spec a seg ip1 port1 ip2 port2) as (d & Ew & Hd & _); try done.
  eexists _, d. split; [exact Ew|]. intros d' Hsame.
  destruct (unwrap_eval a b seg (TCPOverIPv4Adapter.set_ports seg port1 port2, d) d' ip1 port1 ip2 port2 ip3 port3 ip4 port4) as (s & Hs & E);
    try done.
  rewrite E, Hl. case_bool_decide as Hb; (destruct (Z.eqb_spec port2 port3) as [E'|E']; [|done || congruence]);
    [|congruence]. subst port3. simpl andb. destruct (_ && _); [|done].
  eexists _, s. split; [done|]. split; [done|].
  split; (split; [done|]); [exists ip1, port1, ip2, port2 | exists ip2, port2, ip1, port1]; done.
Qed.

(** Any datagram from the wire: [unwrap_tcp_in_ip] returns. *)
Lemma unwrap_total a d ip1 port1 ip2 port2 bf : configured a ip1 port1 ip2 port2 →
  IPv4Header.in_range (IPv4Datagram.header d) → IPv4Datagram.payload d = BufferList.of_buffer bf → Buffer.wf bf →
  ∃ a' s ip3 port3 ip4 port4, TCPOverIPv4Adapter.unwrap_tcp_in_ip a d = Ok (a', s) ∧ configured a' ip3 port3 ip4 port4.
Proof.
  intros Hc (Hs & Hd & _) Hone Hbf. pose proof Hc as (Hi1 & Hp1 & Hi2 & Hp2 & Sa & Da).
  assert (∀ (r : result (FdAdapterBase.t * option TCPSegment.t)) s, r = Ok (a, s) → ∃ a' s ip3 port3 ip4 port4,
    r = Ok (a', s) ∧ configured a' ip3 port3 ip4 port4) as Hsame
    by (intros r s ->; by exists a, s, ip1, port1, ip2, port2).
  unfold TCPOverIPv4Adapter.unwrap_tcp_in_ip. rewrite Sa, Da, Hone.
  rewrite !Address.ipv4_numeric_endpoint, !Address.port_endpoint, !result_bind_ok by done.
  cbn [BufferList.to_buffer BufferList.of_buffer]. rewrite !result_bind_ok.
  match goal with |- context [TCPSegment.parse _ _ ?ck] =>
    destruct (TCPSegment.segment_parse_total TCPSegment.new bf ck Hbf) as (seg & r & -> & Hseg); [apply uint32_range|] end.
  rewrite !result_bind_ok. destruct (bool_decide (r = NoError)) eqn:Er; cbn [negb].
  2:{ destruct (FdAdapterBase.listening a); cbn [negb]; rewrite ?result_bind_ok; repeat (destruct (negb _); [by eapply Hsame|];
        rewrite ?result_bind_ok); by eapply Hsame. }
  apply bool_decide_eq_true in Er. destruct (Hseg Er) as (_ & Hsp & _).
  destruct (FdAdapterBase.listening a); cbn [negb]; rewrite ?result_bind_ok; cbn [negb]; cbv iota.
  - destruct (negb (_ =? _)); [by eapply Hsame|]. destruct (negb (_ =? port1)); [by eapply Hsame|].
    rewrite !Address.of_ip_port_numeric, !result_bind_ok by done. destruct (_ && _); [|by eapply Hsame].
    rewrite result_bind_ok. cbn [FdAdapterBase.destination FdAdapterBase.set_listening FdAdapterBase.set_config
      FdAdapterBase._cfg FdAdapterConfig.set_destination FdAdapterConfig.destination FdAdapterBase.config].
    rewrite Address.port_endpoint, result_bind_ok, Z.eqb_refl by done. cbn [negb].
    eexists _, _, (IPv4Header.dst (IPv4Datagram.header d)), port1, (IPv4Header.src (IPv4Datagram.header d)),
      (TCPHeader.sport (TCPSegment.header seg)). by split; [done|].
  - destruct (negb (_ =? ip1)); [by eapply Hsame|]. rewrite ?result_bind_ok. destruct (negb (_ =? ip2)); [by eapply Hsame|].
    destruct (negb (_ =? _)); [by eapply Hsame|]. destruct (negb (_ =? port1)); [by eapply Hsame|].
    rewrite ?result_bind_ok, Da, Address.port_endpoint, result_bind_ok by done.
    destruct (negb (_ =? port2)); by eapply Hsame.
Qed.

(** Reading never throws.  Whatever bytes the TUN device, the TAP device or
    the UDP socket returns, the [read] of the connected or listening adapter
    returns, with a segment or without, and leaves the adapter able to read
    again: its addresses stay IPv4 endpoints, and on Ethernet the interface
    keeps its invariant. *)
Theorem adapters_read_total (a : FdAdapterBase.t) (ip1 port1 ip2 port2 : Z) (raw : bytes) :
  configured a ip1 port1 ip2 port2 → len raw < two64 →
  (∃ a' out s ip3 port3 ip4 port4,
    TCPOverIPv4OverTunFdAdapter.read a raw = Ok (a', out, s) ∧ configured a' ip3 port3 ip4 port4) ∧
  (∀ ni next_hop, NetworkInterface.inv ni → ∃ a' out s ip3 port3 ip4 port4,
    TCPOverIPv4OverEthernetAdapter.read (TCPOverIPv4OverEthernetAdapter.mk a ni next_hop) raw = Ok (a', out, s) ∧
    configured (TCPOverIPv4OverEthernetAdapter.base a') ip3 port3 ip4 port4 ∧
    NetworkInterface.inv (TCPOverIPv4OverEthernetAdapter._interface a')) ∧
  (∀ from, ∃ a' out s, TCPOverUDPSocketAdapter.read a (from, raw) = Ok (a', out, s)).
Proof.
  intros Hc Hraw. assert (Buffer.wf (Buffer.of_string raw)) as Hb by by apply Buffer.wf_of_string.
  split; [|split].
  - unfold TCPOverIPv4OverTunFdAdapter.read.
    destruct (IPv4Datagram.datagram_parse_total IPv4Datagram.new _ Hb) as (d & r & bf & -> & Hr & Hone & Hbf); [done|].
    rewrite result_bind_ok. destruct (negb _); [by eexists _, _, _, _, _, _, _|].
    destruct (unwrap_total a d ip1 port1 ip2 port2 bf Hc Hr Hone Hbf) as (a' & s & i3 & p3 & i4 & p4 & -> & Hc').
    rewrite result_bind_ok. by eexists _, _, _, _, _, _, _.
  - intros ni next_hop Hi. unfold TCPOverIPv4OverEthernetAdapter.read.
    destruct (EthernetFrame.frame_parse_total EthernetFrame.new _ Hb) as (h & bf & r & -> & Hbf). rewrite result_bind_ok.
    destruct (negb _); [by eexists _, _, _, _, _, _, _|]. cbn [TCPOverIPv4OverEthernetAdapter._interface].
    destruct (NetworkInterface.recv_frame_spec ni h bf Hi Hbf) as (ni' & d & E & Hi' & Hd). rewrite E, result_bind_ok.
    assert (NetworkInterface.inv (NetworkInterface.set_frames_out ni' [])) as Hi'' by (by destruct Hi'; constructor).
    unfold TCPOverIPv4OverEthernetAdapter.send_pending. cbv beta iota zeta.
    destruct d as [d|]; [|by eexists _, _, _, _, _, _, _]. destruct (Hd d eq_refl) as (Hr & bd & Hone & Hbd).
    cbn [TCPOverIPv4OverEthernetAdapter.base TCPOverIPv4OverEthernetAdapter.set_interface].
    destruct (unwrap_total a d ip1 port1 ip2 port2 bd Hc Hr Hone Hbd) as (a' & s & i3 & p3 & i4 & p4 & -> & Hc').
    rewrite result_bind_ok. by eexists _, _, _, _, _, _, _.
  - intros from. unfold TCPOverUDPSocketAdapter.read. destruct (_ && _); [by eexists _, _, _|].
    destruct (TCPSegment.segment_parse_total TCPSegment.new _ 0 Hb) as (seg & r & -> & _); [lia|]. rewrite result_bind_ok.
    destruct (negb _); [by eexists _, _, _|]. destruct (FdAdapterBase.listening a); [|by eexists _, _, _].
    destruct (_ && _); by eexists _, _, _.
Qed.

End Accepting.

(** ** Two hosts *)

Module Hosts.
Import DottedQuad.

Definition client : FdAdapterBase.t :=
  FdAdapterBase.mk (FdAdapterConfig.mk (Address.endpoint 0xa9fe9001 40000) (Address.endpoint 0xa9fe9002 80) 0 0x4000) false.
Definition server : FdAdapterBase.t :=
  FdAdapterBase.mk (FdAdapterConfig.mk (Address.endpoint 0xa9fe9002 80) (Address.endpoint 0xa9fe9001 40000) 0x2000 0) false.
Definition listener : FdAdapterBase.t :=
  FdAdapterBase.mk (FdAdapterConfig.mk (Address.endpoint 0 80) (Address.endpoint 0 0) 0 0) true.

(** A linear congruential generator. *)
Definition lcg (s : Z) : Z * Z := let s' := uint32 (1664525 * s + 1013904223) in (s', s').

Lemma demo_fits : fits TCPSegment.demo.
Proof. split; [apply TCPSegment.segment_demo_sendable|]. unfold len; simpl; lia. Qed.

Lemma client_server : mirrored client server.
Proof.
  split; [done|]. exists 0xa9fe9001, 40000, 0xa9fe9002, 80.
  do 4 (split; [lia|]). do 3 (split; [reflexivity|]). reflexivity.
Qed.

Definition tun_client : TCPOverIPv4OverTunFdAdapter.t := client.
Definition tun_server : TCPOverIPv4OverTunFdAdapter.t := server.
Definition lossy_client := LossyFdAdapter.mk 7 tun_client.
Definition lossy_server := LossyFdAdapter.mk 11 tun_server.

Lemma lossy_exchange_subsequence_witness :
  ∃ l' m' got kept,
    exchange lcg lossy_client lossy_server [TCPSegment.demo; TCPSegment.demo]
    = Ok (l', m', got) ∧
    sublist kept [TCPSegment.demo; TCPSegment.demo] ∧ Forall2 arrived kept got ∧
    (lossless lossy_client lossy_server → kept = [TCPSegment.demo; TCPSegment.demo]).
Proof.
  apply (lossy_exchange_subsequence (A := TCPOverIPv4OverTunFdAdapter.t) lcg
    lossy_client lossy_server [TCPSegment.demo; TCPSegment.demo]).
  - exact client_server.
  - repeat constructor; apply demo_fits.
Defined.

Lemma client_configured : configured client 0xa9fe9001 40000 0xa9fe9002 80.
Proof. do 4 (split; [lia|]). split; reflexivity. Qed.
Lemma server_configured : configured server 0xa9fe9002 80 0xa9fe9001 40000.
Proof. do 4 (split; [lia|]). split; reflexivity. Qed.
Lemma listener_configured : configured listener 0 80 0 0.
Proof. do 4 (split; [lia|]). split; reflexivity. Qed.

Lemma tcp_in_ip_demultiplex_witness :
  ∃ seg' d, TCPOverIPv4Adapter.wrap_tcp_in_ip client TCPSegment.demo = Ok (seg', d) ∧ IPv4Datagram.sendable d ∧
    ∀ d', NetworkInterface.same_datagram d d' →
      ∃ s, TCPOverIPv4Adapter.unwrap_tcp_in_ip server d' = Ok (server, Some s) ∧ same_segment seg' s.
Proof.
  exact (tcp_in_ip_demultiplex client server TCPSegment.demo 0xa9fe9001 40000 0xa9fe9002 80
    0xa9fe9002 80 0xa9fe9001 40000 client_configured server_configured eq_refl demo_fits).
Defined.

(** A SYN segment without payload. *)
Definition syn_segment : TCPSegment.t := TCPSegment.mk (TCPHeader.set_syn TCPHeader.new true) Buffer.empty.

Lemma syn_fits : fits syn_segment.
Proof.
  split; [constructor; [constructor; simpl; unfold WrappingInt32.valid; simpl; lia | |]|];
    change (TCPHeader.doff (TCPSegment.header syn_segment)) with 5; unfold len; simpl; lia.
Qed.

Lemma listener_accepts_syn_witness :
  ∃ seg' d, TCPOverIPv4Adapter.wrap_tcp_in_ip client syn_segment = Ok (seg', d) ∧
    ∀ d', NetworkInterface.same_datagram d d' →
      ∃ b' s, TCPOverIPv4Adapter.unwrap_tcp_in_ip listener d' = Ok (b', Some s) ∧ same_segment seg' s ∧
        mirrored client b' ∧ mirrored b' client.
Proof.
  exact (listener_accepts_syn client listener syn_segment 0xa9fe9001 40000 0xa9fe9002 80 0 80 0 0
    client_configured listener_configured eq_refl eq_refl syn_fits).
Defined.

Lemma adapters_read_total_witness :
  (∃ a' out s ip3 port3 ip4 port4,
    TCPOverIPv4OverTunFdAdapter.read server [x45; x00; x00] = Ok (a', out, s) ∧ configured a' ip3 port3 ip4 port4) ∧
  (∀ ni next_hop, NetworkInterface.inv ni → ∃ a' out s ip3 port3 ip4 port4,
    TCPOverIPv4OverEthernetAdapter.read (TCPOverIPv4OverEthernetAdapter.mk server ni next_hop) [x45; x00; x00]
    = Ok (a', out, s) ∧
    configured (TCPOverIPv4OverEthernetAdapter.base a') ip3 port3 ip4 port4 ∧
    NetworkInterface.inv (TCPOverIPv4OverEthernetAdapter._interface a')) ∧
  (∀ from, ∃ a' out s, TCPOverUDPSocketAdapter.read server (from, [x45; x00; x00]) = Ok (a', out, s)).
Proof.
  apply (adapters_read_total server 0xa9fe9002 80 0xa9fe9001 40000 [x45; x00; x00] server_configured).
  unfold len; simpl; lia.
Defined.

End Hosts.
