(* ===== verification/frame_summary.v ===== *)
(** * A frame in one line (the functions [summary] of src/lab/apps/network_simulator.cc and lab7.cc)

    What the two programs print of an Ethernet frame.  The theorem: whatever a frame carries, its line is
    printed, and it begins with the header of the frame; of a datagram or an ARP message that
    was sent, the line shows what was sent. *)

From stdpp Require Import strings.
From S2P Require Import Prelude buffer parser tcp_header tcp_segment ipv4 ethernet address header_text network_interface adapters.

(** The end of the two functions: the payload of an ARP frame. *)
Definition arp_summary `{Address.Resolver} (ret : bytes) (frame : EthernetFrame.t) : result bytes :=
  b ← BufferList.to_buffer (EthernetFrame.payload frame);
  '(arp, r) ← ARPMessage.parse ARPMessage.new b;
  Ok (ret ++ if bool_decide (r = NoError) then text " " ++ ARPMessageText.to_string arp else text " (bad ARP)").

Definition quote : bytes := [x22].

(** [network_simulator]: the payload of a datagram is shown. *)
Definition simulator_summary `{Address.Resolver} (frame : EthernetFrame.t) : result bytes :=
  let ret := EthernetHeaderText.to_string (EthernetFrame.header frame) in
  let type := EthernetHeader.type (EthernetFrame.header frame) in
  if type =? EthernetHeader.TYPE_IPv4 then
    b ← BufferList.to_buffer (EthernetFrame.payload frame);
    '(dgram, r) ← IPv4Datagram.parse IPv4Datagram.new b;
    if bool_decide (r = NoError) then
      let ret := ret ++ text " " ++ IPv4HeaderText.summary (IPv4Datagram.header dgram) in
      Ok (ret ++ text " payload=" ++ quote ++ BufferList.concatenate (IPv4Datagram.payload dgram) ++ quote)
    else Ok (ret ++ text " (bad IPv4)")
  else if type =? EthernetHeader.TYPE_ARP then arp_summary ret frame
  else Ok ret.

(** [lab7]: the header of a TCP segment is shown. *)
Definition lab7_summary `{Address.Resolver} (frame : EthernetFrame.t) : result bytes :=
  let ret := EthernetHeaderText.to_string (EthernetFrame.header frame) in
  let type := EthernetHeader.type (EthernetFrame.header frame) in
  if type =? EthernetHeader.TYPE_IPv4 then
    '(dgram, r) ← IPv4Datagram.parse IPv4Datagram.new (Buffer.of_string (BufferList.concatenate (EthernetFrame.payload frame)));
    if bool_decide (r = NoError) then
      let ret := ret ++ text " " ++ IPv4HeaderText.summary (IPv4Datagram.header dgram) in
      if IPv4Header.proto (IPv4Datagram.header dgram) =? IPv4Header.PROTO_TCP then
        '(tcp_seg, r) ← TCPSegment.parse TCPSegment.new
                          (Buffer.of_string (BufferList.concatenate (IPv4Datagram.payload dgram)))
                          (IPv4Header.pseudo_cksum (IPv4Datagram.header dgram));
        Ok (ret ++ if bool_decide (r = NoError) then text " " ++ TCPHeaderText.summary (TCPSegment.header tcp_seg) else [])
      else Ok ret
    else Ok (ret ++ text " (bad IPv4)")
  else if type =? EthernetHeader.TYPE_ARP then arp_summary ret frame
  else Ok ret.

Section Summaries.
Context `{Address.Resolver}.

Lemma arp_summary_total ret h bf : Buffer.wf bf →
  ∃ s, arp_summary ret (EthernetFrame.mk h (BufferList.of_buffer bf)) = Ok (ret ++ s).
Proof.
  intros Hb. unfold arp_summary. cbn [EthernetFrame.payload EthernetFrame._payload BufferList.of_buffer BufferList.to_buffer].
  rewrite result_bind_ok. destruct (ARPMessage.arp_parse_total ARPMessage.new bf Hb) as (m & r & -> & _). by eexists.
Qed.

Lemma simulator_summary_total h bf : Buffer.wf bf →
  ∃ s, simulator_summary (EthernetFrame.mk h (BufferList.of_buffer bf)) = Ok (EthernetHeaderText.to_string h ++ s).
Proof.
  intros Hb. unfold simulator_summary. cbn [EthernetFrame.header EthernetFrame._header].
  destruct (_ =? EthernetHeader.TYPE_IPv4); [|destruct (_ =? EthernetHeader.TYPE_ARP); [by apply arp_summary_total|]].
  - cbn [EthernetFrame.payload EthernetFrame._payload BufferList.of_buffer BufferList.to_buffer]. rewrite result_bind_ok.
    destruct (IPv4Datagram.datagram_parse_total IPv4Datagram.new bf Hb) as (d & r & b2 & -> & _); [done|].
    rewrite result_bind_ok. destruct (bool_decide _); eexists; [|done]. by rewrite <- !app_assoc.
  - exists []. by rewrite app_nil_r.
Qed.

Lemma lab7_summary_total h bf : Buffer.wf bf →
  ∃ s, lab7_summary (EthernetFrame.mk h (BufferList.of_buffer bf)) = Ok (EthernetHeaderText.to_string h ++ s).
Proof.
  intros Hb. unfold lab7_summary. cbn [EthernetFrame.header EthernetFrame._header].
  destruct (_ =? EthernetHeader.TYPE_IPv4); [|destruct (_ =? EthernetHeader.TYPE_ARP); [by apply arp_summary_total|]].
  - cbn [EthernetFrame.payload EthernetFrame._payload].
    assert (BufferList.concatenate (BufferList.of_buffer bf) = Buffer.str bf) as -> by done.
    destruct (IPv4Datagram.datagram_parse_total IPv4Datagram.new (Buffer.of_string (Buffer.str bf)))
      as (d & r & b2 & -> & _ & Hp & Hw); [by apply Buffer.wf_of_string, Buffer.len_str_wf | done |].
    rewrite result_bind_ok. destruct (bool_decide _); [|by eexists]. destruct (_ =? _); [|by eexists].
    rewrite Hp. assert (BufferList.concatenate (BufferList.of_buffer b2) = Buffer.str b2) as -> by done.
    destruct (TCPSegment.segment_parse_total TCPSegment.new (Buffer.of_string (Buffer.str b2)) (IPv4Header.pseudo_cksum (IPv4Datagram.header d)))
      as (s & r' & -> & _); [|unfold IPv4Header.pseudo_cksum; apply uint32_range|].
    + by apply Buffer.wf_of_string, Buffer.len_str_wf.
    + rewrite result_bind_ok. eexists. by rewrite <- !app_assoc.
  - exists []. by rewrite app_nil_r.
Qed.

(** An ARP message, with padding behind it. *)
Lemma arp_summary_shows ret h bf m pad : ARPMessage.valid m → ARPMessage.supported m = true → Buffer.wf bf →
  Buffer.str bf = ARPMessage.wire m ++ pad →
  arp_summary ret (EthernetFrame.mk h (BufferList.of_buffer bf)) = Ok (ret ++ text " " ++ ARPMessageText.to_string m).
Proof.
  intros Hv Hs Hb Hw. unfold arp_summary. cbn [EthernetFrame.payload EthernetFrame._payload BufferList.of_buffer BufferList.to_buffer].
  rewrite result_bind_ok, (ARPMessage.arp_parse_wire m _ bf pad), result_bind_ok by done. reflexivity.
Qed.

(** A datagram: its checksum is not part of the summary. *)
Lemma summary_cksum h v : IPv4HeaderText.summary (IPv4Header.set_cksum h v) = IPv4HeaderText.summary h.
Proof.
  unfold IPv4HeaderText.summary.
  cbn [IPv4Header.set_cksum IPv4Header.ver IPv4Header.len_ IPv4Header.proto IPv4Header.ttl IPv4Header.src IPv4Header.dst].
  reflexivity.
Qed.

Lemma tcp_summary_cksum h v : TCPHeaderText.summary (TCPHeader.set_cksum h v) = TCPHeaderText.summary h.
Proof.
  unfold TCPHeaderText.summary.
  cbn [TCPHeader.set_cksum TCPHeader.syn TCPHeader.ack TCPHeader.rst TCPHeader.fin TCPHeader.seqno TCPHeader.ackno TCPHeader.win].
  reflexivity.
Qed.

Lemma lab7_shows_segment h bf d l seg ls : Buffer.wf bf → EthernetHeader.type h = EthernetHeader.TYPE_IPv4 →
  IPv4Datagram.sendable d → IPv4Datagram.serialize d = Ok l → Buffer.str bf = BufferList.concatenate l →
  IPv4Header.proto (IPv4Datagram.header d) = IPv4Header.PROTO_TCP → TCPSegment.sendable seg →
  TCPSegment.serialize seg (IPv4Header.pseudo_cksum (IPv4Datagram.header d)) = Ok ls →
  BufferList.concatenate ls = BufferList.concatenate (IPv4Datagram.payload d) →
  lab7_summary (EthernetFrame.mk h (BufferList.of_buffer bf))
  = Ok (EthernetHeaderText.to_string h ++ text " " ++ IPv4HeaderText.summary (IPv4Datagram.header d) ++
        text " " ++ TCPHeaderText.summary (TCPSegment.header seg)).
Proof.
  intros Hb Ht Hd El Hw Hproto Hs Es Ec. unfold lab7_summary. cbn [EthernetFrame.header EthernetFrame._header].
  rewrite Ht, Z.eqb_refl. cbn [EthernetFrame.payload EthernetFrame._payload].
  assert (BufferList.concatenate (BufferList.of_buffer bf) = Buffer.str bf) as -> by done. rewrite Hw.
  destruct (wire_parse d l Hd El) as (d' & Ep & (w & Hh) & Hpay & _). rewrite Ep, result_bind_ok. cbv beta iota zeta.
  rewrite bool_decide_eq_true_2, Hh, summary_cksum, Hpay by done. cbn [IPv4Header.proto IPv4Header.set_cksum].
  rewrite Hproto, Z.eqb_refl. change (IPv4Header.pseudo_cksum (IPv4Header.set_cksum (IPv4Datagram.header d) w))
    with (IPv4Header.pseudo_cksum (IPv4Datagram.header d)).
  destruct (TCPSegment.segment_parse_wire seg TCPSegment.new (IPv4Header.pseudo_cksum (IPv4Datagram.header d))
    (Buffer.of_string (BufferList.concatenate (IPv4Datagram.payload d))) Hs) as (u & s & Eseg & _ & Hsh & _).
  - exact (IPv4Header.pseudo_cksum_range _ (IPv4Datagram.s_header _ Hd)).
  - apply Buffer.wf_of_string. destruct Hd as [[] Hlen]. lia.
  - intros l' El'. rewrite Es in El'. injection El' as <-. symmetry. exact Ec.
  - rewrite Eseg, result_bind_ok. cbv beta iota. rewrite bool_decide_eq_true_2, Hsh, tcp_summary_cksum by done.
    by rewrite <- !app_assoc.
Qed.

(** The lines that the programs print of a frame are right.  Whatever bytes a frame carries, both
    functions return, and the line begins with the header of the frame; an ARP message
    and a datagram that were sent are shown as they were sent, a datagram by its
    header and its payload ([network_simulator]) or the header of the segment in it ([lab7]). *)
Theorem summaries_describe (h : EthernetHeader.t) (bf : Buffer.t) : Buffer.wf bf →
  let frame := EthernetFrame.mk h (BufferList.of_buffer bf) in
  let header := EthernetHeaderText.to_string h in
  (∃ s, simulator_summary frame = Ok (header ++ s)) ∧ (∃ s, lab7_summary frame = Ok (header ++ s)) ∧
  (EthernetHeader.type h = EthernetHeader.TYPE_ARP → ∀ m pad, ARPMessage.valid m → ARPMessage.supported m = true →
     Buffer.str bf = ARPMessage.wire m ++ pad →
     simulator_summary frame = Ok (header ++ text " " ++ ARPMessageText.to_string m) ∧
     lab7_summary frame = Ok (header ++ text " " ++ ARPMessageText.to_string m)) ∧
  (EthernetHeader.type h = EthernetHeader.TYPE_IPv4 → ∀ d l, IPv4Datagram.sendable d → IPv4Datagram.serialize d = Ok l →
     Buffer.str bf = BufferList.concatenate l →
     simulator_summary frame = Ok (header ++ text " " ++ IPv4HeaderText.summary (IPv4Datagram.header d) ++
       text " payload=" ++ quote ++ BufferList.concatenate (IPv4Datagram.payload d) ++ quote) ∧
     (IPv4Header.proto (IPv4Datagram.header d) = IPv4Header.PROTO_TCP → ∀ seg ls, TCPSegment.sendable seg →
      TCPSegment.serialize seg (IPv4Header.pseudo_cksum (IPv4Datagram.header d)) = Ok ls →
      BufferList.concatenate ls = BufferList.concatenate (IPv4Datagram.payload d) →
      lab7_summary frame = Ok (header ++ text " " ++ IPv4HeaderText.summary (IPv4Datagram.header d) ++
        text " " ++ TCPHeaderText.summary (TCPSegment.header seg)))).
Proof.
  intros Hb. cbv zeta. split; [by apply simulator_summary_total|]. split; [by apply lab7_summary_total|]. split.
  - intros Ht m pad Hv Hs Hw. unfold simulator_summary, lab7_summary. cbn [EthernetFrame.header EthernetFrame._header].
    rewrite Ht. split; by apply (arp_summary_shows _ _ _ _ pad).
  - intros Ht d l Hd El Hw. split; [|intros Hp seg ls Hs Es Ec; by apply (lab7_shows_segment _ _ d l seg ls)].
    unfold simulator_summary. cbn [EthernetFrame.header EthernetFrame._header]. rewrite Ht, Z.eqb_refl.
    cbn [EthernetFrame.payload EthernetFrame._payload BufferList.of_buffer BufferList.to_buffer]. rewrite result_bind_ok.
    destruct (IPv4Datagram.datagram_parse_wire d IPv4Datagram.new bf Hd Hb) as (v & d' & Ep & Hh & _ & Hp & _).
    { intros l' El'. rewrite El in El'. injection El' as <-. exact Hw. }
    rewrite Ep, result_bind_ok. cbv beta iota. rewrite bool_decide_eq_true_2, Hh, summary_cksum, Hp by done.
    by rewrite <- !app_assoc.
Qed.

End Summaries.

(** An ARP request, and a datagram of six bytes. *)
Lemma summaries_describe_witness :
  let frame := EthernetFrame.mk (EthernetHeader.mk (replicate 6 xff) (replicate 6 x02) EthernetHeader.TYPE_ARP)
    (BufferList.of_string (ARPMessage.wire ARPMessage.demo)) in
  simulator_summary (H := DottedQuad.resolver) frame
  = Ok (text "dst=ff:ff:ff:ff:ff:ff, src=02:02:02:02:02:02, type=ARP" ++ text " " ++
        ARPMessageText.to_string (H := DottedQuad.resolver) ARPMessage.demo).
Proof.
  cbv zeta.
  refine (proj1 (proj1 (proj2 (proj2 (summaries_describe (H := DottedQuad.resolver)
    (EthernetHeader.mk (replicate 6 xff) (replicate 6 x02) EthernetHeader.TYPE_ARP)
    (Buffer.of_string (ARPMessage.wire ARPMessage.demo)) _))) eq_refl ARPMessage.demo [] _ _ _)).
  - apply Buffer.wf_of_string. unfold len. simpl. lia.
  - constructor; simpl; lia || reflexivity.
  - reflexivity.
  - by rewrite app_nil_r.
Defined.
