(* ===== verification/bidirectional_stream_copy.v ===== *)
(** * Copying between a socket and the terminal
      (src/lab/apps/bidirectional_stream_copy.cc)

    Four rules of an event loop move bytes from standard input to the socket and
    from the socket to standard output, each way through a [ByteStream].  The
    theorems: no byte is lost, duplicated or reordered on the way; on a kernel
    whose calls succeed no round throws; when the loop exits with the writing
    rule of a direction still in place, that direction is complete. *)

From S2P Require Import Prelude byte_stream buffer system file_descriptor stream_pump eventloop address socket.

(** ** The application *)

Module Copy.

Definition STDIN_FILENO : Z := 0.
Definition STDOUT_FILENO : Z := 1.
Definition max_copy_length : Z := 65536.
Definition buffer_size : Z := 1048576.

(** The local variables that the rules capture by reference. *)
Record t := mk {
  socket : FileDescriptor.t;
  _input : FileDescriptor.t;
  _output : FileDescriptor.t;
  _outbound : ByteStream.t;
  _inbound : ByteStream.t;
  _outbound_shutdown : bool;
  _inbound_shutdown : bool
}.

Definition set_input_outbound (s : t) (f : FileDescriptor.t) (b : ByteStream.t) : t :=
  mk (socket s) f (_output s) b (_inbound s) (_outbound_shutdown s) (_inbound_shutdown s).
Definition set_socket_outbound (s : t) (f : FileDescriptor.t) (b : ByteStream.t) (shut : bool) : t :=
  mk f (_input s) (_output s) b (_inbound s) shut (_inbound_shutdown s).
Definition set_socket_inbound (s : t) (f : FileDescriptor.t) (b : ByteStream.t) : t :=
  mk f (_input s) (_output s) (_outbound s) b (_outbound_shutdown s) (_inbound_shutdown s).
Definition set_output_inbound (s : t) (f : FileDescriptor.t) (b : ByteStream.t) (shut : bool) : t :=
  mk (socket s) (_input s) f (_outbound s) b (_outbound_shutdown s) shut.

Section Rules.
Context {K : Type} `{Kernel K}.

(** The cancel callbacks. *)
Definition end_outbound (s : t) (k : K) : result (t * K) :=
  Ok (set_input_outbound s (_input s) (ByteStream.end_input (_outbound s)), k).
Definition end_inbound (s : t) (k : K) : result (t * K) :=
  Ok (set_socket_inbound s (socket s) (ByteStream.end_input (_inbound s)), k).

(** Rule 1: read from stdin into the outbound stream. *)
Definition rule1 : EventLoop.Rule K t := EventLoop.mkRule _input EventLoop.In
  (λ s k, '(f, b, k) ← Pump.fill (_input s) (_outbound s) k; Ok (set_input_outbound s f b, k))
  (λ s, negb (ByteStream.error (_outbound s)) && (0 <? ByteStream.remaining_capacity (_outbound s))
        && negb (ByteStream.error (_inbound s)))
  end_outbound.

(** Rule 2: write the outbound stream to the socket. *)
Definition rule2 : EventLoop.Rule K t := EventLoop.mkRule socket EventLoop.Out
  (λ s k,
    '(f, b, k) ← Pump.drain max_copy_length (socket s) (_outbound s) k;
    if ByteStream.eof b then
      '(f, k) ← Socket.shutdown f SHUT_WR k; Ok (set_socket_outbound s f b true, k)
    else Ok (set_socket_outbound s f b (_outbound_shutdown s), k))
  (λ s, negb (ByteStream.buffer_empty (_outbound s))
        || (ByteStream.eof (_outbound s) && negb (_outbound_shutdown s)))
  end_outbound.

(** Rule 3: read from the socket into the inbound stream. *)
Definition rule3 : EventLoop.Rule K t := EventLoop.mkRule socket EventLoop.In
  (λ s k, '(f, b, k) ← Pump.fill (socket s) (_inbound s) k; Ok (set_socket_inbound s f b, k))
  (λ s, negb (ByteStream.error (_inbound s)) && (0 <? ByteStream.remaining_capacity (_inbound s))
        && negb (ByteStream.error (_outbound s)))
  end_inbound.

(** Rule 4: write the inbound stream to stdout. *)
Definition rule4 : EventLoop.Rule K t := EventLoop.mkRule _output EventLoop.Out
  (λ s k,
    '(f, b, k) ← Pump.drain max_copy_length (_output s) (_inbound s) k;
    if ByteStream.eof b then
      '(f, k) ← FileDescriptor.close f k; Ok (set_output_inbound s f b true, k)
    else Ok (set_output_inbound s f b (_inbound_shutdown s), k))
  (λ s, negb (ByteStream.buffer_empty (_inbound s))
        || (ByteStream.eof (_inbound s) && negb (_inbound_shutdown s)))
  end_inbound.

Definition rules : list (EventLoop.Rule K t) := [rule1; rule2; rule3; rule4].

(** The variables and the calls of [set_blocking] before the loop. *)
Definition start (sock : FileDescriptor.t) (k : K) : result (t * K) :=
  input ← FileDescriptor.new STDIN_FILENO;
  output ← FileDescriptor.new STDOUT_FILENO;
  k ← FileDescriptor.set_blocking sock false k;
  k ← FileDescriptor.set_blocking input false k;
  k ← FileDescriptor.set_blocking output false k;
  Ok (mk sock input output (ByteStream.new buffer_size) (ByteStream.new buffer_size) false false, k).

(** The [while (true)] loop, stopped after [rounds] rounds. *)
Fixpoint loop (rounds : nat) (rules : list (EventLoop.Rule K t)) (s : t) (k : K)
  : result (EventLoop.Result * list (EventLoop.Rule K t) * t * K) :=
  match rounds with
  | O => Ok (EventLoop.Success, rules, s, k)
  | S rounds =>
      '(res, rules, s, k) ← EventLoop.wait_next_event rules (-1) s k;
      if bool_decide (res = EventLoop.Exit) then Ok (EventLoop.Exit, rules, s, k)
      else loop rounds rules s k
  end.

Definition bidirectional_stream_copy (rounds : nat) (sock : FileDescriptor.t) (k : K)
  : result (EventLoop.Result * list (EventLoop.Rule K t) * t * K) :=
  '(s, k) ← start sock k; loop rounds rules s k.

End Rules.

Section Faithful.
Context {K : Type} `{StreamLedger K}.

(** The descriptor of the socket, and what had been transferred before. *)
Context (n : Z) (r0 s0 : Z → bytes).
Context (Hn0 : n ≠ STDIN_FILENO) (Hn1 : n ≠ STDOUT_FILENO).

(** What was read from [i] since the start is what was written to [o], and [buffered]. *)
Definition relayed (k : K) (i o : Z) (buffered : bytes) : Prop :=
  ∃ y, received k i = r0 i ++ y ++ buffered ∧ sent k o = s0 o ++ y.

Record stream_ok (b : ByteStream.t) : Prop := {
  ok_wf : ByteStream.wf b;
  ok_cap : ByteStream._capacity b = buffer_size
}.

Record inv (s : t) (k : K) : Prop := {
  i_socket : FileDescriptor._fd (socket s) = n;
  i_input : FileDescriptor._fd (_input s) = STDIN_FILENO;
  i_output : FileDescriptor._fd (_output s) = STDOUT_FILENO;
  i_outbound : stream_ok (_outbound s);
  i_inbound : stream_ok (_inbound s);
  i_there : relayed k STDIN_FILENO n (ByteStream.contents (_outbound s));
  i_back : relayed k n STDOUT_FILENO (ByteStream.contents (_inbound s))
}.

Lemma relayed_same k k' i o b : same (received k') (received k) → same (sent k') (sent k) →
  relayed k i o b → relayed k' i o b.
Proof. intros Hr Hs (y & ? & ?). exists y. by rewrite Hr, Hs. Qed.

Lemma inv_same s k k' : same (received k') (received k) → same (sent k') (sent k) → inv s k → inv s k'.
Proof. intros Hr Hs []. constructor; try done; by eapply relayed_same. Qed.

Lemma stream_kept b b' : stream_ok b → Pump.kept b b' → stream_ok b'.
Proof. intros [] []. constructor; [done | congruence]. Qed.

Lemma stream_end_input b : stream_ok b → stream_ok (ByteStream.end_input b).
Proof. intros [[] ?]. by constructor. Qed.

(** Filling from [i], and another direction while something is read elsewhere. *)
Lemma relayed_fill k k' i o c d b : same (received k') (upd (received k) i (received k i ++ d)) →
  same (sent k') (sent k) → relayed k i o b → c = b ++ d → relayed k' i o c.
Proof.
  intros Hr Hs (y & E1 & E2) ->. exists y. rewrite Hr, upd_eq, Hs, E1. split; [|done]. by rewrite !app_assoc.
Qed.

Lemma relayed_fill_other k k' i j o d b : same (received k') (upd (received k) j (received k j ++ d)) →
  same (sent k') (sent k) → i ≠ j → relayed k i o b → relayed k' i o b.
Proof. intros Hr Hs Hne (y & E1 & E2). exists y. by rewrite Hr, upd_ne, Hs. Qed.

Lemma relayed_drain k k' i o c d b : same (sent k') (upd (sent k) o (sent k o ++ d)) →
  same (received k') (received k) → relayed k i o b → b = d ++ c → relayed k' i o c.
Proof.
  intros Hs Hr (y & E1 & E2) ->. exists (y ++ d). rewrite Hs, upd_eq, Hr, E1, E2.
  by rewrite <- !app_assoc.
Qed.

Lemma relayed_drain_other k k' i j o d b : same (sent k') (upd (sent k) j (sent k j ++ d)) →
  same (received k') (received k) → o ≠ j → relayed k i o b → relayed k' i o b.
Proof. intros Hs Hr Hne (y & E1 & E2). exists y. by rewrite Hs, upd_ne, Hr. Qed.

(** The four callbacks, given what the pumps did. *)
Lemma inv_rule1 s k f b k' : inv s k → Pump.filled (_input s) (_outbound s) k f b k' → inv (set_input_outbound s f b) k'.
Proof.
  intros [] (d & Hf & _ & _ & Hk & Hc & Hr & Hs). rewrite i_input0 in *. constructor; simpl; try done.
  - exact (stream_kept _ _ i_outbound0 Hk).
  - by eapply (relayed_fill _ _ _ _ _ _ _ Hr Hs i_there0).
  - by eapply (relayed_fill_other _ _ _ _ _ _ _ Hr Hs Hn0 i_back0).
Qed.

Lemma inv_rule3 s k f b k' : inv s k → Pump.filled (socket s) (_inbound s) k f b k' → inv (set_socket_inbound s f b) k'.
Proof.
  intros [] (d & Hf & _ & _ & Hk & Hc & Hr & Hs). rewrite i_socket0 in *. constructor; simpl; try done.
  - exact (stream_kept _ _ i_inbound0 Hk).
  - by eapply (relayed_fill_other _ _ _ _ _ _ _ Hr Hs (not_eq_sym Hn0) i_there0).
  - by eapply (relayed_fill _ _ _ _ _ _ _ Hr Hs i_back0).
Qed.

Lemma inv_rule2 s k f b k' g shut : inv s k → Pump.drained (socket s) (_outbound s) k f b k' →
  FileDescriptor._fd g = FileDescriptor._fd f → inv (set_socket_outbound s g b shut) k'.
Proof.
  intros [] (d & -> & Hk & _ & Hc & Hs & Hr) Hg. rewrite i_socket0 in *. constructor; simpl; try done.
  - by rewrite Hg.
  - exact (stream_kept _ _ i_outbound0 Hk).
  - by eapply (relayed_drain _ _ _ _ _ _ _ Hs Hr i_there0).
  - by eapply (relayed_drain_other _ _ _ _ _ _ _ Hs Hr (not_eq_sym Hn1) i_back0).
Qed.

Lemma inv_rule4 s k f b k' g shut : inv s k → Pump.drained (_output s) (_inbound s) k f b k' →
  FileDescriptor._fd g = FileDescriptor._fd f → inv (set_output_inbound s g b shut) k'.
Proof.
  intros [] (d & -> & Hk & _ & Hc & Hs & Hr) Hg. rewrite i_output0 in *. constructor; simpl; try done.
  - by rewrite Hg.
  - exact (stream_kept _ _ i_inbound0 Hk).
  - by eapply (relayed_drain_other _ _ _ _ _ _ _ Hs Hr Hn1 i_there0).
  - by eapply (relayed_drain _ _ _ _ _ _ _ Hs Hr i_back0).
Qed.

(** Every rule is honest: it keeps the invariant and services its descriptor. *)
Lemma inv_end_outbound s k : inv s k → ∃ s' k', end_outbound s k = Ok (s', k') ∧ inv s' k'.
Proof. intros []. do 2 eexists. split; [done|]. constructor; try done. by apply stream_end_input. Qed.

Lemma inv_end_inbound s k : inv s k → ∃ s' k', end_inbound s k = Ok (s', k') ∧ inv s' k'.
Proof. intros []. do 2 eexists. split; [done|]. constructor; try done. by apply stream_end_input. Qed.

Lemma stream_positive b : stream_ok b → 0 < ByteStream._capacity b.
Proof. intros [_ ->]. done. Qed.

Context `{!HealthyKernel K}.

Lemma rule1_honest : EventLoop.honest inv rule1.
Proof.
  constructor; [|apply inv_end_outbound]. intros s k HI. pose proof (ok_wf _ (i_outbound _ _ HI)) as Hw.
  destruct (Pump.fill_total (_input s) (_outbound s) k Hw) as (f & b & k1 & E).
  cbn [EventLoop.callback rule1]. rewrite E, result_bind_ok. apply Pump.fill_spec in E; [|done].
  do 2 eexists. split; [done|]. split; [by eapply inv_rule1|]. left.
  destruct E as (d & _ & Hc & _). unfold EventLoop.service_count; simpl.
  unfold FileDescriptor.read_count. rewrite Hc. apply uint32_next.
Qed.

Lemma rule3_honest : EventLoop.honest inv rule3.
Proof.
  constructor; [|apply inv_end_inbound]. intros s k HI. pose proof (ok_wf _ (i_inbound _ _ HI)) as Hw.
  destruct (Pump.fill_total (socket s) (_inbound s) k Hw) as (f & b & k1 & E).
  cbn [EventLoop.callback rule3]. rewrite E, result_bind_ok. apply Pump.fill_spec in E; [|done].
  do 2 eexists. split; [done|]. split; [by eapply inv_rule3|]. left.
  destruct E as (d & _ & Hc & _). unfold EventLoop.service_count; simpl.
  unfold FileDescriptor.read_count. rewrite Hc. apply uint32_next.
Qed.

Lemma shutdown_write f k : ∃ k', Socket.shutdown f SHUT_WR k = Ok (FileDescriptor.register_write f, k') ∧
  same (received k') (received k) ∧ same (sent k') (sent k).
Proof.
  unfold Socket.shutdown. destruct (sys_shutdown _ _ _) as [k1 r] eqn:E.
  pose proof E as Hr%shutdown_healthy. apply shutdown_law in E. rewrite SystemCall_ok by done.
  exists k1. by split.
Qed.

Lemma close_total f k : ∃ f' k', FileDescriptor.close f k = Ok (f', k') ∧
  FileDescriptor._fd f' = FileDescriptor._fd f ∧ FileDescriptor._write_count f' = FileDescriptor._write_count f ∧
  same (received k') (received k) ∧ same (sent k') (sent k).
Proof.
  unfold FileDescriptor.close. destruct (sys_close _ _) as [k1 r] eqn:E.
  pose proof E as Hr%close_healthy. apply close_law in E. rewrite SystemCall_ok by done.
  do 2 eexists. split; [done|]. by split.
Qed.

Lemma rule2_honest : EventLoop.honest inv rule2.
Proof.
  constructor; [|apply inv_end_outbound]. intros s k HI. pose proof (i_outbound _ _ HI) as Ho.
  destruct (Pump.drain_total max_copy_length (socket s) (_outbound s) k) as (f & b & k1 & E);
    [apply Ho | by apply stream_positive | done|].
  cbn [EventLoop.callback rule2]. rewrite E, result_bind_ok.
  apply Pump.drain_spec in E; [|apply Ho|by apply stream_positive|done].
  assert (f = FileDescriptor.register_write (socket s)) as Hf by (destruct E as (d & -> & _); done).
  destruct (uint32_next (FileDescriptor._write_count (socket s))) as [H1 H2].
  destruct (ByteStream.eof b).
  - destruct (shutdown_write f k1) as (k2 & -> & Hr & Hs). rewrite result_bind_ok. do 2 eexists. split; [done|].
    split; [eapply inv_same; [done..|]; by eapply inv_rule2|]. left. by rewrite Hf.
  - do 2 eexists. split; [done|]. split; [by eapply inv_rule2|]. left. by rewrite Hf.
Qed.

Lemma rule4_honest : EventLoop.honest inv rule4.
Proof.
  constructor; [|apply inv_end_inbound]. intros s k HI. pose proof (i_inbound _ _ HI) as Ho.
  destruct (Pump.drain_total max_copy_length (_output s) (_inbound s) k) as (f & b & k1 & E);
    [apply Ho | by apply stream_positive | done|].
  cbn [EventLoop.callback rule4]. rewrite E, result_bind_ok.
  apply Pump.drain_spec in E; [|apply Ho|by apply stream_positive|done].
  assert (f = FileDescriptor.register_write (_output s)) as Hf by (destruct E as (d & -> & _); done).
  destruct (uint32_next (FileDescriptor._write_count (_output s))) as [H1 H2].
  destruct (ByteStream.eof b).
  - destruct (close_total f k1) as (g & k2 & -> & Hg & Hw & Hr & Hs). rewrite result_bind_ok. do 2 eexists.
    split; [done|]. split; [eapply inv_same; [done..|]; by eapply inv_rule4|]. left.
    unfold EventLoop.service_count; simpl. unfold FileDescriptor.write_count. by rewrite Hw, Hf.
  - do 2 eexists. split; [done|]. split; [by eapply inv_rule4|]. left. by rewrite Hf.
Qed.

Lemma rules_honest : Forall (EventLoop.honest inv) rules.
Proof. repeat constructor; apply rule1_honest || apply rule2_honest || apply rule3_honest || apply rule4_honest. Qed.

Lemma poll_stable_inv : EventLoop.poll_stable inv.
Proof. intros s k fds ms k' r revents HI (? & ? & _)%poll_law. by eapply inv_same. Qed.

(** The buffer of a direction is empty at an exit if its writing rule is still there. *)
Definition flushed (rules : list (EventLoop.Rule K t)) (s : t) : Prop :=
  (rule2 ∈ rules → ByteStream.contents (_outbound s) = []) ∧
  (rule4 ∈ rules → ByteStream.contents (_inbound s) = []).

Lemma empty_contents b : ByteStream.wf b → ByteStream.buffer_empty b = true → ByteStream.contents b = [].
Proof. intros Hw E%Z.eqb_eq. apply len_0_nil. by rewrite ByteStream.len_contents. Qed.

Lemma exit_flushed rs s k rules' s' k' : sublist rs rules → inv s' k' →
  EventLoop.wait_next_event rs (-1) s k = Ok (EventLoop.Exit, rules', s', k') → flushed rules' s'.
Proof.
  intros Hsub HI (fds & E)%EventLoop.exit_nothing_to_poll.
  assert (∀ P : t → Prop, (∀ s f, P s → P (set_input_outbound s f (ByteStream.end_input (_outbound s)))) →
    (∀ s f, P s → P (set_socket_inbound s f (ByteStream.end_input (_inbound s)))) →
    Forall (λ r : EventLoop.Rule K t, ∀ s k s' k', P s → EventLoop.cancel r s k = Ok (s', k') → P s') rs) as Hc.
  { intros P H1 H2. eapply Forall_sublist; [done|].
    repeat apply Forall_cons_2; [..|constructor]; intros s1 k1 s2 k2 HP [= <- <-]; auto. }
  split; intros Hin; apply empty_contents; try apply HI.
  - eapply (EventLoop.setup_uninterested (λ s, ByteStream.buffer_empty (_outbound s) = true) rule2 rs); [| |done|by left].
    + intros s1. simpl. by destruct (ByteStream.buffer_empty (_outbound s1)).
    + by apply Hc.
  - eapply (EventLoop.setup_uninterested (λ s, ByteStream.buffer_empty (_inbound s) = true) rule4 rs); [| |done|by left].
    + intros s1. simpl. by destruct (ByteStream.buffer_empty (_inbound s1)).
    + by apply Hc.
Qed.

Lemma loop_spec rounds : ∀ rs s k, sublist rs rules → inv s k →
  ∃ res rules' s' k', loop rounds rs s k = Ok (res, rules', s', k') ∧ inv s' k' ∧
    (res = EventLoop.Exit → flushed rules' s').
Proof.
  induction rounds as [|rounds IH]; intros rs s k Hsub HI; cbn [loop].
  { exists EventLoop.Success, rs, s, k. done. }
  destruct (EventLoop.wait_next_event_ok inv rs (-1) s k) as (res & rules1 & s1 & k1 & E & HI1 & Hsub1);
    [eapply Forall_sublist; [done | apply rules_honest] | apply poll_stable_inv | done|].
  rewrite E, result_bind_ok. case_bool_decide as Hres.
  - subst res. do 4 eexists. split; [done|]. split; [done|]. intros _. by eapply exit_flushed.
  - apply IH; [by etrans | done].
Qed.

End Faithful.

Section Theorem_copy.
Context {K : Type} `{StreamLedger K} `{!HealthyKernel K}.

Lemma set_blocking_total f b k : ∃ k', FileDescriptor.set_blocking f b k = Ok k' ∧
  same (received k') (received k) ∧ same (sent k') (sent k).
Proof.
  unfold FileDescriptor.set_blocking. destruct (sys_fcntl k _ _ _) as [k1 r1] eqn:E1.
  pose proof E1 as Hr1%fcntl_healthy. apply fcntl_law in E1 as [Ha1 Hb1]. rewrite SystemCall_ok, result_bind_ok by done.
  destruct (sys_fcntl k1 _ _ _) as [k2 r2] eqn:E2.
  pose proof E2 as Hr2%fcntl_healthy. apply fcntl_law in E2 as [Ha2 Hb2]. rewrite SystemCall_ok, result_bind_ok by done.
  exists k2. split; [done|]. split; intros i; [by rewrite Ha2, Ha1 | by rewrite Hb2, Hb1].
Qed.

Lemma start_spec sock k : ∃ s k', start sock k = Ok (s, k') ∧
  inv (FileDescriptor._fd sock) (received k) (sent k) s k'.
Proof.
  unfold start. change (FileDescriptor.new STDIN_FILENO) with (Ok (FileDescriptor.mk STDIN_FILENO false false 0 0)).
  change (FileDescriptor.new STDOUT_FILENO) with (Ok (FileDescriptor.mk STDOUT_FILENO false false 0 0)).
  rewrite !result_bind_ok.
  destruct (set_blocking_total sock false k) as (k1 & -> & Hr1 & Hs1). rewrite result_bind_ok.
  destruct (set_blocking_total (FileDescriptor.mk STDIN_FILENO false false 0 0) false k1) as (k2 & -> & Hr2 & Hs2).
  rewrite result_bind_ok.
  destruct (set_blocking_total (FileDescriptor.mk STDOUT_FILENO false false 0 0) false k2) as (k3 & -> & Hr3 & Hs3).
  rewrite result_bind_ok. do 2 eexists. split; [done|].
  destruct (ByteStream.wf_new buffer_size ltac:(unfold buffer_size; lia)) as [Hw Hc].
  constructor; cbn [socket _input _output _outbound _inbound]; try done; rewrite ?Hc;
    exists []; rewrite app_nil_r, app_nil_r; by rewrite ?Hr3, ?Hr2, ?Hr1, ?Hs3, ?Hs2, ?Hs1.
Qed.

(** The whole function. *)
Lemma copy_spec (rounds : nat) (sock : FileDescriptor.t) (k : K) :
  FileDescriptor._fd sock ≠ STDIN_FILENO → FileDescriptor._fd sock ≠ STDOUT_FILENO →
  ∃ res rules' s k', bidirectional_stream_copy rounds sock k = Ok (res, rules', s, k') ∧
    inv (FileDescriptor._fd sock) (received k) (sent k) s k' ∧ (res = EventLoop.Exit → flushed rules' s).
Proof.
  intros Hin Hout. unfold bidirectional_stream_copy. destruct (start_spec sock k) as (s1 & k1 & -> & HI).
  rewrite result_bind_ok.
  destruct (loop_spec (FileDescriptor._fd sock) (received k) (sent k) Hin Hout rounds rules s1 k1)
    as (res & rules' & s2 & k2 & E & Hi & Hf); [done..|].
  exists res, rules', s2, k2. by split.
Qed.

(** C35: Copying loses nothing.  On a kernel whose calls succeed, any number of
    rounds of [bidirectional_stream_copy] returns without an exception (no busy
    wait is ever detected); at every point the bytes read from standard input
    since the start are those written to the socket followed by those in the
    outbound buffer, and the bytes read from the socket are those written to
    standard output followed by those in the inbound buffer; when the loop exits
    while the writing rule of a direction is in place, its buffer is empty. *)
Theorem copy_is_faithful (rounds : nat) (sock : FileDescriptor.t) (k : K) :
  FileDescriptor._fd sock ≠ STDIN_FILENO → FileDescriptor._fd sock ≠ STDOUT_FILENO →
  ∃ res rules' s k', bidirectional_stream_copy rounds sock k = Ok (res, rules', s, k') ∧
    relayed (received k) (sent k) k' STDIN_FILENO (FileDescriptor._fd sock) (ByteStream.contents (_outbound s)) ∧
    relayed (received k) (sent k) k' (FileDescriptor._fd sock) STDOUT_FILENO (ByteStream.contents (_inbound s)) ∧
    (res = EventLoop.Exit → flushed rules' s).
Proof.
  intros Hin Hout. destruct (copy_spec rounds sock k Hin Hout) as (res & rules' & s & k' & E & [] & Hf).
  exists res, rules', s, k'. by split.
Qed.

End Theorem_copy.

Lemma copy_is_faithful_witness :
  let k := Machine.new (λ fd, if fd =? 0 then [x68; x69] else if fd =? 5 then [x6f; x6b] else []) 1 in
  let sock := FileDescriptor.mk 5 false false 0 0 in
  ∃ res rules' s k', bidirectional_stream_copy 7 sock k = Ok (res, rules', s, k') ∧
    relayed (received k) (sent k) k' 0 5 (ByteStream.contents (_outbound s)) ∧
    relayed (received k) (sent k) k' 5 1 (ByteStream.contents (_inbound s)) ∧
    (res = EventLoop.Exit → flushed rules' s).
Proof. apply (copy_is_faithful 7 (FileDescriptor.mk 5 false false 0 0)); done. Defined.

End Copy.
