(* ===== verification/tcp_sponge_socket.v ===== *)
(** * The TCP socket of the applications
      (src/lab/libsponge/tcp_helpers/tcp_sponge_socket.hh, .cc)

    [TCPSpongeSocket] runs a [TCPConnection] over an adapter: four rules of an
    event loop connect the connection to the adapter's device and to a stream
    socket shared with the application, and [_tcp_loop] adds the ticks.  The
    model is parametric in the adapter ([FdAdapter]), in its device ([Device])
    and in the kernel; [_abort], which the owner's thread may set at any time, is
    given to the loop as the list of the values it loads, one per round.

    The theorems: the connection accepts all of what rule 2 reads; no rule makes
    the event loop detect a busy wait; [connect] always finds the connection in
    the state it expects; an aborted connection sends no RST. *)

From S2P Require Import Prelude wrapping_integers byte_stream buffer system file_descriptor stream_pump eventloop.
From S2P Require Import tcp_header tcp_segment ethernet address socket tcp_config tcp_receiver tcp_sender tcp_state tcp_connection adapters.

(** ** The device under an adapter *)

(** [device_read]: the call by which the adapter reads its device; [device_write]:
    the one by which it writes one output. *)
Class Device (I O K : Type) `{Kernel K} := {
  device_read : FileDescriptor.t → K → result (FileDescriptor.t * K * I);
  device_write : FileDescriptor.t → O → K → result (FileDescriptor.t * K) }.

Definition SIZE_MAX : Z := 18446744073709551615.

(** [TunFD] and [TapFD]: [read()] and [write(BufferList)]. *)
#[global] Instance tun_device {K} `{Kernel K} : Device bytes BufferList.t K := {
  device_read f k := FileDescriptor.read f SIZE_MAX k;
  device_write f l k := '(f, k, _) ← FileDescriptor.write f (BufferViewList.of_list l) true k; Ok (f, k) }.

(** [UDPSocket]: [recv()] and [sendto(address, BufferList)]. *)
#[global] Instance udp_device {K} `{Kernel K} : Device (Address.t * bytes) (Address.t * BufferList.t) K := {
  device_read f k :=
    '(f, k, d) ← UDPSocket.recv f 65536 k;
    Ok (f, k, (UDPSocket.source_address d, UDPSocket.payload d));
  device_write f o k := UDPSocket.sendto f o.1 (BufferViewList.of_list o.2) k }.

Module TCPSpongeSocket.

Definition TCP_TICK_MS : Z := 10.

Section Socket.
Context {A I O K : Type} `{FdAdapter A I O} `{Device I O K} `{Address.Resolver}.

(** [_socket] is the base class, the owner's end of the stream socket; [_device]
    is the descriptor of the adapter; [_tcp_thread]: the thread is joinable. *)
Record t := mk {
  _socket : FileDescriptor.t;
  _thread_data : FileDescriptor.t;
  _device : FileDescriptor.t;
  _datagram_adapter : A;
  _tcp : option TCPConnection.t;
  _tcp_thread : bool;
  _abort : bool;
  _inbound_shutdown : bool;
  _outbound_shutdown : bool;
  _fully_acked : bool
}.

Definition set_socket (s : t) (f : FileDescriptor.t) : t :=
  mk f (_thread_data s) (_device s) (_datagram_adapter s) (_tcp s) (_tcp_thread s) (_abort s) (_inbound_shutdown s)
     (_outbound_shutdown s) (_fully_acked s).
Definition set_thread_data (s : t) (f : FileDescriptor.t) : t :=
  mk (_socket s) f (_device s) (_datagram_adapter s) (_tcp s) (_tcp_thread s) (_abort s) (_inbound_shutdown s)
     (_outbound_shutdown s) (_fully_acked s).
Definition set_adapter (s : t) (f : FileDescriptor.t) (a : A) : t :=
  mk (_socket s) (_thread_data s) f a (_tcp s) (_tcp_thread s) (_abort s) (_inbound_shutdown s)
     (_outbound_shutdown s) (_fully_acked s).
Definition set_tcp (s : t) (c : option TCPConnection.t) : t :=
  mk (_socket s) (_thread_data s) (_device s) (_datagram_adapter s) c (_tcp_thread s) (_abort s) (_inbound_shutdown s)
     (_outbound_shutdown s) (_fully_acked s).
Definition set_thread (s : t) (b : bool) : t :=
  mk (_socket s) (_thread_data s) (_device s) (_datagram_adapter s) (_tcp s) b (_abort s) (_inbound_shutdown s)
     (_outbound_shutdown s) (_fully_acked s).
Definition set_abort (s : t) : t :=
  mk (_socket s) (_thread_data s) (_device s) (_datagram_adapter s) (_tcp s) (_tcp_thread s) true (_inbound_shutdown s)
     (_outbound_shutdown s) (_fully_acked s).
Definition set_flags (s : t) (inbound outbound acked : bool) : t :=
  mk (_socket s) (_thread_data s) (_device s) (_datagram_adapter s) (_tcp s) (_tcp_thread s) (_abort s) inbound outbound acked.

(** [_tcp.value()]; without a value it throws. *)
Definition tcp (s : t) : result TCPConnection.t :=
  match _tcp s with Some c => Ok c | None => Throw runtime_error end.

Definition set_inbound (c : TCPConnection.t) (b : ByteStream.t) : TCPConnection.t :=
  TCPConnection.set_receiver c (TCPReceiver.set_stream_out (TCPConnection._receiver c) b).

(** What the adapter hands to its device. *)
Fixpoint emit (f : FileDescriptor.t) (outs : list O) (k : K) : result (FileDescriptor.t * K) :=
  match outs with
  | [] => Ok (f, k)
  | o :: outs => '(f, k) ← device_write f o k; emit f outs k
  end.

(** The text of the debugging messages names the destination. *)
Definition destination_text (s : t) : result bytes :=
  Address.show (FdAdapterConfig.destination (config (_datagram_adapter s))).

(** ** The rules *)

(** Rule 1: incoming datagrams. *)
Definition rule1_callback (s : t) (k : K) : result (t * K) :=
  c ← tcp s;
  '(f, k, i) ← device_read (_device s) k;
  '(a, outs, seg) ← adapters.read (_datagram_adapter s) i;
  '(f, k) ← emit f outs k;
  let s := set_adapter s f a in
  c ← match seg with Some seg => TCPConnection.segment_received c seg | None => Ok c end;
  let s := set_tcp s (Some c) in
  if FileDescriptor.eof (_thread_data s) && (TCPConnection.bytes_in_flight c =? 0) && negb (_fully_acked s) then
    _ ← destination_text s;
    Ok (set_flags s (_inbound_shutdown s) (_outbound_shutdown s) true, k)
  else Ok (s, k).

Definition rule1_interest (s : t) : bool :=
  match _tcp s with Some c => TCPConnection.active c | None => false end.

(** Rule 2: bytes from the application. *)
Definition rule2_callback (s : t) (k : K) : result (t * K) :=
  c ← tcp s;
  '(f, k, data) ← FileDescriptor.read (_thread_data s) (TCPConnection.remaining_outbound_capacity c) k;
  let length := len data in
  '(c, amount_written) ← TCPConnection.write c data;
  if negb (amount_written =? length) then Throw runtime_error
  else
    let s := set_tcp (set_thread_data s f) (Some c) in
    if FileDescriptor.eof f then
      c ← TCPConnection.end_input_stream c;
      let s := set_flags (set_tcp s (Some c)) (_inbound_shutdown s) true (_fully_acked s) in
      _ ← destination_text s;
      Ok (s, k)
    else Ok (s, k).

Definition rule2_interest (s : t) : bool :=
  match _tcp s with
  | Some c => TCPConnection.active c && negb (_outbound_shutdown s) && (0 <? TCPConnection.remaining_outbound_capacity c)
  | None => false
  end.

Definition rule2_cancel (s : t) (k : K) : result (t * K) :=
  c ← tcp s;
  c ← TCPConnection.end_input_stream c;
  Ok (set_flags (set_tcp s (Some c)) (_inbound_shutdown s) true (_fully_acked s), k).

(** Rule 3: bytes for the application. *)
Definition rule3_callback (s : t) (k : K) : result (t * K) :=
  c ← tcp s;
  '(f, inbound, k) ← Pump.drain 65536 (_thread_data s) (TCPConnection.inbound_stream c) k;
  let s := set_tcp (set_thread_data s f) (Some (set_inbound c inbound)) in
  if ByteStream.eof inbound || ByteStream.error inbound then
    '(f, k) ← Socket.shutdown f SHUT_WR k;
    let s := set_flags (set_thread_data s f) true (_outbound_shutdown s) (_fully_acked s) in
    _ ← destination_text s;
    Ok (s, k)
  else Ok (s, k).

Definition rule3_interest (s : t) : bool :=
  match _tcp s with
  | Some c =>
      let inbound := TCPConnection.inbound_stream c in
      negb (ByteStream.buffer_empty inbound)
      || ((ByteStream.eof inbound || ByteStream.error inbound) && negb (_inbound_shutdown s))
  | None => false
  end.

(** Rule 4: outgoing segments; the loop writes and pops the front of the queue. *)
Fixpoint send_segments (f : FileDescriptor.t) (a : A) (q : list TCPSegment.t) (k : K) : result (FileDescriptor.t * A * K) :=
  match q with
  | [] => Ok (f, a, k)
  | seg :: q =>
      '(a, outs, _) ← adapters.write a seg;
      '(f, k) ← emit f outs k;
      send_segments f a q k
  end.

Definition rule4_callback (s : t) (k : K) : result (t * K) :=
  c ← tcp s;
  '(f, a, k) ← send_segments (_device s) (_datagram_adapter s) (TCPConnection.segments_out c) k;
  Ok (set_tcp (set_adapter s f a) (Some (TCPConnection.set_segments_out c [])), k).

Definition rule4_interest (s : t) : bool :=
  match _tcp s with Some c => negb (bool_decide (TCPConnection.segments_out c = [])) | None => false end.

(** The default cancel callback. *)
Definition no_cancel (s : t) (k : K) : result (t * K) := Ok (s, k).

Definition rule1 : EventLoop.Rule K t := EventLoop.mkRule _device EventLoop.In rule1_callback rule1_interest no_cancel.
Definition rule2 : EventLoop.Rule K t := EventLoop.mkRule _thread_data EventLoop.In rule2_callback rule2_interest rule2_cancel.
Definition rule3 : EventLoop.Rule K t := EventLoop.mkRule _thread_data EventLoop.Out rule3_callback rule3_interest no_cancel.
Definition rule4 : EventLoop.Rule K t := EventLoop.mkRule _device EventLoop.Out rule4_callback rule4_interest no_cancel.

(** [random] is the value [random_device()()] would give. *)
Definition _initialize_TCP (s : t) (rules : list (EventLoop.Rule K t)) (cfg : TCPConfig.t) (random : Z)
  : t * list (EventLoop.Rule K t) :=
  (set_tcp s (Some (TCPConnection.new cfg random)),
   EventLoop.add_rule (EventLoop.add_rule (EventLoop.add_rule (EventLoop.add_rule rules rule1) rule2) rule3) rule4).

(** ** The loop *)

(** The part of a round after the event: the ticks. *)
Definition tick_round (s : t) (base_time : Z) (k : K) : result (t * Z * K) :=
  c ← tcp s;
  if TCPConnection.active c then
    let '(k, next_time) := timestamp_ms k in
    let ms := uint64 (next_time - base_time) in
    c ← TCPConnection.tick c ms;
    '(a, outs) ← adapters.tick (_datagram_adapter s) ms;
    '(f, k) ← emit (_device s) outs k;
    Ok (set_tcp (set_adapter s f a) (Some c), next_time, k)
  else Ok (s, base_time, k).

(** The rounds of the loop: [true] in the answer when it ended, [false] when it
    was still running after as many rounds as there are values in [aborts]. *)
Fixpoint tcp_rounds (aborts : list bool) (condition : t → bool) (rules : list (EventLoop.Rule K t)) (s : t)
  (base_time : Z) (k : K) : result (bool * list (EventLoop.Rule K t) * t * K) :=
  if negb (condition s) then Ok (true, rules, s, k)
  else
    match aborts with
    | [] => Ok (false, rules, s, k)
    | abort :: aborts =>
        '(ret, rules, s, k) ← EventLoop.wait_next_event rules TCP_TICK_MS s k;
        if bool_decide (ret = EventLoop.Exit) || _abort s || abort then Ok (true, rules, s, k)
        else
          '(s, base_time, k) ← tick_round s base_time k;
          tcp_rounds aborts condition rules s base_time k
    end.

Definition _tcp_loop (aborts : list bool) (condition : t → bool) (rules : list (EventLoop.Rule K t)) (s : t) (k : K)
  : result (bool * list (EventLoop.Rule K t) * t * K) :=
  let '(k, base_time) := timestamp_ms k in
  tcp_rounds aborts condition rules s base_time k.

(** ** The interface for the owner *)

(** [socket_pair_helper]. *)
Definition socket_pair_helper (type : Z) (k : K) : result (FileDescriptor.t * FileDescriptor.t * K) :=
  let '(k, r, (fd0, fd1)) := sys_socketpair k AF_UNIX type 0 in
  _ ← SystemCall r 0;
  f0 ← FileDescriptor.new fd0;
  f1 ← FileDescriptor.new fd1;
  Ok (f0, f1, k).

Definition new (device : FileDescriptor.t) (a : A) (k : K) : result (t * K) :=
  '(f0, f1, k) ← socket_pair_helper SOCK_STREAM k;
  '(f0, k) ← Socket.local_stream f0 k;
  '(f1, k) ← Socket.local_stream f1 k;
  k ← FileDescriptor.set_blocking f1 false k;
  Ok (mk f0 f1 device a None false false false false false, k).

Definition in_state (s : t) (st : TCPState.State) : bool :=
  match _tcp s with Some c => TCPState.eqb (TCPConnection.state c) (TCPState.of_state st) | None => false end.

(** [connect] up to the loop, and whole. *)
Definition connect_begin (s : t) (rules : list (EventLoop.Rule K t)) (c_tcp : TCPConfig.t) (c_ad : FdAdapterConfig.t)
  (random : Z) : result (t * list (EventLoop.Rule K t)) :=
  match _tcp s with
  | Some _ => Throw runtime_error
  | None =>
      let '(s, rules) := _initialize_TCP s rules c_tcp random in
      let s := set_adapter s (_device s) (set_config (_datagram_adapter s) c_ad) in
      _ ← Address.show (FdAdapterConfig.destination c_ad);
      c ← tcp s;
      c ← TCPConnection.connect c;
      let s := set_tcp s (Some c) in
      if negb (in_state s TCPState.SYN_SENT) then Throw runtime_error else Ok (s, rules)
  end.

Definition connect (aborts : list bool) (s : t) (rules : list (EventLoop.Rule K t)) (c_tcp : TCPConfig.t)
  (c_ad : FdAdapterConfig.t) (random : Z) (k : K) : result (bool * list (EventLoop.Rule K t) * t * K) :=
  '(s, rules) ← connect_begin s rules c_tcp c_ad random;
  '(ended, rules, s, k) ← _tcp_loop aborts (λ s, in_state s TCPState.SYN_SENT) rules s k;
  if negb ended then Ok (false, rules, s, k)
  else
    _ ← Address.show (FdAdapterConfig.destination c_ad);
    Ok (true, rules, set_thread s true, k).

Definition listening_state (s : t) : bool :=
  in_state s TCPState.LISTEN || in_state s TCPState.SYN_RCVD || in_state s TCPState.SYN_SENT.

Definition listen_and_accept (aborts : list bool) (s : t) (rules : list (EventLoop.Rule K t)) (c_tcp : TCPConfig.t)
  (c_ad : FdAdapterConfig.t) (random : Z) (k : K) : result (bool * list (EventLoop.Rule K t) * t * K) :=
  match _tcp s with
  | Some _ => Throw runtime_error
  | None =>
      let '(s, rules) := _initialize_TCP s rules c_tcp random in
      let s := set_adapter s (_device s) (set_listening (set_config (_datagram_adapter s) c_ad) true) in
      '(ended, rules, s, k) ← _tcp_loop aborts listening_state rules s k;
      if negb ended then Ok (false, rules, s, k)
      else
        _ ← destination_text s;
        Ok (true, rules, set_thread s true, k)
  end.

(** [_tcp.reset()] destroys the connection; its destructor catches its exceptions. *)
Definition reset_tcp (s : t) : t := set_tcp s None.

(** The end of [_tcp_main], after its loop. *)
Definition finish (s : t) (k : K) : result (t * K) :=
  '(f, k) ← Socket.shutdown (_socket s) SHUT_RDWR k;
  let s := set_socket s f in
  _ ← tcp s;
  Ok (reset_tcp s, k).

Definition _tcp_main (aborts : list bool) (rules : list (EventLoop.Rule K t)) (s : t) (k : K)
  : result (bool * list (EventLoop.Rule K t) * t * K) :=
  _ ← tcp s;
  '(ended, rules, s, k) ← _tcp_loop aborts (λ _, true) rules s k;
  if negb ended then Ok (false, rules, s, k)
  else '(s, k) ← finish s k; Ok (true, rules, s, k).

(** [wait_until_closed]: shut down, then join; the thread's rounds are run here. *)
Definition wait_until_closed (aborts : list bool) (rules : list (EventLoop.Rule K t)) (s : t) (k : K)
  : result (bool * list (EventLoop.Rule K t) * t * K) :=
  '(f, k) ← Socket.shutdown (_socket s) SHUT_RDWR k;
  let s := set_socket s f in
  if _tcp_thread s then
    '(ended, rules, s, k) ← _tcp_main aborts rules s k;
    Ok (ended : bool, rules, (if ended : bool then set_thread s false else s), k)
  else Ok (true, rules, s, k).

(** The destructor: set [_abort], then join. *)
Definition destroy (aborts : list bool) (rules : list (EventLoop.Rule K t)) (s : t) (k : K)
  : result (bool * list (EventLoop.Rule K t) * t * K) :=
  if _tcp_thread s then _tcp_main aborts rules (set_abort s) k else Ok (true, rules, s, k).

End Socket.

Arguments t : clear implicits.

(** ** What the device promises to the event loop *)

(** A read registers one read; a write registers no read. *)
Class DeviceCounts (I O K : Type) `{Device I O K} : Prop := {
  device_read_counts f k f' k' i : device_read f k = Ok (f', k', i) →
    FileDescriptor.read_count f' = uint32 (FileDescriptor.read_count f + 1);
  device_write_counts f o k f' k' : device_write f o k = Ok (f', k') →
    FileDescriptor.read_count f' = FileDescriptor.read_count f }.

Section Counts.
Context {K : Type} `{Kernel K}.

Lemma read_counts f limit k f' k' d : FileDescriptor.read f limit k = Ok (f', k', d) →
  FileDescriptor.read_count f' = uint32 (FileDescriptor.read_count f + 1) ∧
  FileDescriptor.write_count f' = FileDescriptor.write_count f.
Proof.
  unfold FileDescriptor.read, FileDescriptor.read_into. destruct (sys_read _ _ _) as [[k1 r] e].
  intros (n & _ & E)%result_bind_inv. destruct (_ <? n); [done|]. destruct (n <? 0); [done|].
  injection E as <- _ _. by destruct (_ && _).
Qed.

Lemma write_loop_counts fuel : ∀ f buffer all total k f' k' n,
  FileDescriptor.write_loop fuel f buffer all total k = Ok (f', k', n) →
  FileDescriptor.read_count f' = FileDescriptor.read_count f.
Proof.
  induction fuel as [|fuel IH]; intros f buffer all total k f' k' n; [done|]. cbn [FileDescriptor.write_loop].
  destruct (sys_writev _ _ _) as [k1 r]. intros (m & _ & E)%result_bind_inv.
  destruct (_ && _); [done|]. destruct (_ <? m); [done|].
  apply result_bind_inv in E as (b & _ & E). destruct (_ && _); [by apply IH in E | by injection E as <- _ _].
Qed.

#[global] Instance tun_counts : DeviceCounts bytes BufferList.t K.
Proof.
  constructor.
  - intros f k f' k' i E. by apply read_counts in E as [E _].
  - intros f o k f' k' ([[f1 k1] n] & E & [= <- <-])%result_bind_inv. by apply write_loop_counts in E.
Qed.

#[global] Instance udp_counts : DeviceCounts (Address.t * bytes) (Address.t * BufferList.t) K.
Proof.
  constructor.
  - intros f k f' k' i ([[f1 k1] d] & E & [= <- <- <-])%result_bind_inv. unfold UDPSocket.recv in E.
    apply result_bind_inv in E as (a & _ & E). unfold UDPSocket.recv_into in E.
    destruct (sys_recvfrom _ _ _ _) as [[[k2 r] e] [addr n]]. apply result_bind_inv in E as (m & _ & E).
    destruct (_ <? m); [done|]. apply result_bind_inv in E as (src & _ & E). destruct (m <? 0); [done|].
    by injection E as <- _ _.
  - intros f o k f' k' E. unfold device_write in E. simpl in E. unfold UDPSocket.sendto in E.
    apply result_bind_inv in E as (k1 & _ & [= <- <-]). done.
Qed.

End Counts.

(** ** The rules and the streams *)

Section Rules.
Context {A I O K : Type} `{FdAdapter A I O} `{DeviceCounts I O K} `{Address.Resolver} `{!StreamLedger K}.
Implicit Types (s : t A) (k : K).

Lemma emit_counts outs : ∀ f k f' k', emit f outs k = Ok (f', k') →
  FileDescriptor.read_count f' = FileDescriptor.read_count f.
Proof.
  induction outs as [|o outs IH]; intros f k f' k'; simpl; [by intros [= <- <-]|].
  intros ([f1 k1] & E1%device_write_counts & E%IH)%result_bind_inv. by rewrite E.
Qed.

(** The streams of the connection are ring buffers in order, and the inbound one is not empty-sized. *)
Definition streams_ok (c : TCPConnection.t) : Prop :=
  ByteStream.wf (TCPConnection.outbound_stream c) ∧ ByteStream.wf (TCPConnection.inbound_stream c) ∧
  0 < ByteStream._capacity (TCPConnection.inbound_stream c).

(** The connection accepts everything that was read for it. *)
Lemma write_accepts c f k f' k' data c' n : streams_ok c →
  FileDescriptor.read f (TCPConnection.remaining_outbound_capacity c) k = Ok (f', k', data) →
  TCPConnection.write c data = Ok (c', n) → n = len data.
Proof.
  intros (Hw & _) Er Ew. apply FileDescriptor.read_spec in Er as (_ & Hl & _);
    [|apply Pump.remaining_capacity_wf, Hw].
  destruct (Pump.write_fits (TCPConnection.outbound_stream c) data Hw) as (st & E & _);
    [unfold TCPConnection.remaining_outbound_capacity in Hl; lia|].
  unfold TCPConnection.write in Ew. rewrite E, result_bind_ok in Ew.
  by apply result_bind_inv in Ew as (c2 & _ & [= _ <-]).
Qed.

(** Inversion of the callbacks. *)
Lemma rule1_inv s k s' k' : rule1_callback s k = Ok (s', k') →
  FileDescriptor.read_count (_device s') = uint32 (FileDescriptor.read_count (_device s) + 1).
Proof.
  intros (c & _ & E)%result_bind_inv.
  apply result_bind_inv in E as ([[f k1] i] & E1%device_read_counts & E).
  apply result_bind_inv in E as ([[a outs] seg] & _ & E).
  apply result_bind_inv in E as ([f2 k2] & E2%emit_counts & E).
  apply result_bind_inv in E as (c2 & _ & E). cbv zeta in E. rewrite <- E1, <- E2.
  destruct (_ && _ && _); [apply result_bind_inv in E as (x & _ & E)|]; by injection E as <- _.
Qed.

Lemma rule2_inv s k s' k' : rule2_callback s k = Ok (s', k') →
  ∃ c c1 f d, _tcp s = Some c ∧
    FileDescriptor.read (_thread_data s) (TCPConnection.remaining_outbound_capacity c) k = Ok (f, k', d) ∧
    TCPConnection.write c d = Ok (c1, len d) ∧ _thread_data s' = f ∧
    (if FileDescriptor.eof f
     then ∃ c2, TCPConnection.end_input_stream c1 = Ok c2 ∧ _tcp s' = Some c2 ∧ _outbound_shutdown s' = true
     else _tcp s' = Some c1).
Proof.
  unfold rule2_callback, tcp. destruct (_tcp s) as [c|]; [|done]. rewrite result_bind_ok.
  intros ([[f k1] d] & E1 & E)%result_bind_inv. apply result_bind_inv in E as ([c1 n] & E2 & E).
  destruct (Z.eqb_spec n (len d)) as [->|]; [|done]. cbn [negb] in E. exists c, c1, f, d. split; [done|].
  destruct (FileDescriptor.eof f).
  - apply result_bind_inv in E as (c2 & E3 & (x & _ & [= <- <-])%result_bind_inv).
    split; [done|]. split; [done|]. split; [done|]. by exists c2.
  - by injection E as <- <-.
Qed.

Lemma rule3_inv s k s' k' c : _tcp s = Some c → streams_ok c → rule3_callback s k = Ok (s', k') →
  ∃ b d, _tcp s' = Some (set_inbound c b) ∧
    ByteStream.contents (TCPConnection.inbound_stream c) = d ++ ByteStream.contents b ∧
    same (sent k') (upd (sent k) (FileDescriptor._fd (_thread_data s)) (sent k (FileDescriptor._fd (_thread_data s)) ++ d)) ∧
    same (received k') (received k) ∧
    (ByteStream.eof b || ByteStream.error b = true → _inbound_shutdown s' = true) ∧
    (_thread_data s' = FileDescriptor.register_write (_thread_data s) ∨
     _thread_data s' = FileDescriptor.register_write (FileDescriptor.register_write (_thread_data s))).
Proof.
  intros Ec (_ & Hw & Hc). unfold rule3_callback, tcp. rewrite Ec, result_bind_ok.
  intros ([[f b] k1] & E1 & E)%result_bind_inv.
  apply Pump.drain_spec in E1 as (d & -> & _ & _ & Hd & Hs & Hr); [|done|done|lia].
  exists b, d. destruct (ByteStream.eof b || ByteStream.error b).
  - apply result_bind_inv in E as ([g k2] & Eg & (x & _ & [= <- <-])%result_bind_inv).
    unfold Socket.shutdown in Eg. destruct (sys_shutdown _ _ _) as [k3 r] eqn:Ek. apply shutdown_law in Ek as [Hr3 Hs3].
    apply result_bind_inv in Eg as (y & _ & [= <- <-]).
    split; [done|]. split; [done|]. split; [intros i; by rewrite Hs3, Hs|].
    split; [intros i; by rewrite Hr3, Hr|]. split; [done | by right].
  - injection E as <- <-. split; [done|]. split; [done|]. split; [done|]. split; [done|].
    split; [done | by left].
Qed.

(** C36: The socket moves bytes faithfully between the application and the
    connection.  When rule 2 returns, everything it read from the application's
    socket was accepted by the connection ([write] took the whole string, so the
    exception about its length is out of reach), and at the end of file the
    outbound stream was ended; when rule 3 returns, what the application's
    socket took is exactly what left the front of the inbound stream, and the
    socket is shut down once the stream has ended or failed. *)
Theorem socket_relays_bytes s k c : _tcp s = Some c → streams_ok c →
  (∀ f k' data c' n,
     FileDescriptor.read (_thread_data s) (TCPConnection.remaining_outbound_capacity c) k = Ok (f, k', data) →
     TCPConnection.write c data = Ok (c', n) → n = len data) ∧
  (∀ s' k', rule2_callback s k = Ok (s', k') →
     ∃ d c1, TCPConnection.write c d = Ok (c1, len d) ∧
       same (received k') (upd (received k) (FileDescriptor._fd (_thread_data s))
                               (received k (FileDescriptor._fd (_thread_data s)) ++ d)) ∧
       same (sent k') (sent k) ∧
       (if FileDescriptor.eof (_thread_data s')
        then ∃ c2, TCPConnection.end_input_stream c1 = Ok c2 ∧ _tcp s' = Some c2 ∧ _outbound_shutdown s' = true
        else _tcp s' = Some c1)) ∧
  (∀ s' k', rule3_callback s k = Ok (s', k') →
     ∃ d b, _tcp s' = Some (set_inbound c b) ∧
       ByteStream.contents (TCPConnection.inbound_stream c) = d ++ ByteStream.contents b ∧
       same (sent k') (upd (sent k) (FileDescriptor._fd (_thread_data s))
                           (sent k (FileDescriptor._fd (_thread_data s)) ++ d)) ∧
       same (received k') (received k) ∧
       (ByteStream.eof b || ByteStream.error b = true → _inbound_shutdown s' = true)).
Proof.
  intros Ec Hok. split; [by intros; eapply write_accepts|]. split.
  - intros s' k' (c0 & c1 & f & d & E0 & Er & Ew & <- & Hrest)%rule2_inv. rewrite E0 in Ec. injection Ec as ->.
    apply FileDescriptor.read_spec in Er as (_ & _ & Hr & Hs); [|apply Pump.remaining_capacity_wf, Hok].
    exists d, c1. split; [done|]. split; [done|]. by split.
  - intros s' k' E. destruct (rule3_inv s k s' k' c Ec Hok E) as (b & d & ? & ? & ? & ? & ? & _).
    exists d, b. split; [done|]. split; [done|]. split; [done|]. by split.
Qed.

(** C37: No rule of the socket makes the event loop detect a busy wait: whenever a
    callback returns, it has read or written its descriptor, or it is no longer
    interested.  (An adapter that drops a segment writes nothing: rule 4 has then
    emptied the queue.) *)
Theorem socket_never_busy_waits s k s' k' (r : EventLoop.Rule K (t A)) :
  r ∈ [rule1; rule2; rule3; rule4] → (∀ c, _tcp s = Some c → streams_ok c) →
  EventLoop.callback r s k = Ok (s', k') →
  (EventLoop.service_count r s =? EventLoop.service_count r s') && EventLoop.interest r s' = false.
Proof.
  intros Hr Hok E. apply andb_false_iff. rewrite Z.eqb_neq.
  destruct (uint32_next (EventLoop.service_count r s)) as [Hn1 Hn2].
  apply list_elem_of_In in Hr as [<-|[<-|[<-|[<-|[]]]]]; simpl in E.
  - left. apply rule1_inv in E. unfold EventLoop.service_count in *; simpl in *. by rewrite E.
  - left. apply rule2_inv in E as (c & c1 & f & d & _ & Er & _ & Hf & _). apply read_counts in Er as [Er _].
    unfold EventLoop.service_count in *; simpl in *. by rewrite Hf, Er.
  - left. assert (∃ c, _tcp s = Some c) as (c & Ec).
    { apply result_bind_inv in E as (c & Ec & _). unfold tcp in Ec. destruct (_tcp s); [by eexists | done]. }
    destruct (rule3_inv s k s' k' c Ec (Hok c Ec) E) as (_ & _ & _ & _ & _ & _ & _ & [Hf|Hf]);
      unfold EventLoop.service_count in *; simpl in *; by rewrite Hf.
  - right. apply result_bind_inv in E as (c & _ & ([[f a] k1] & _ & [= <- _])%result_bind_inv). done.
Qed.

(** The end of the connection's thread sends nothing: the RST that the
    destructor of an active connection puts in its queue is destroyed with it. *)
Theorem destroyed_without_rst s k s' k' : finish s k = Ok (s', k') →
  same (sent k') (sent k) ∧ _tcp s' = None ∧ _device s' = _device s.
Proof.
  intros ([f k1] & E & (c & _ & [= <- <-])%result_bind_inv)%result_bind_inv.
  unfold Socket.shutdown in E. destruct (sys_shutdown _ _ _) as [k2 r] eqn:Ek. apply shutdown_law in Ek as [_ Hs].
  by apply result_bind_inv in E as (y & _ & [= _ <-]).
Qed.

(** The first segment of a connection. *)
Definition first_syn (c_tcp : TCPConfig.t) (random : Z) : TCPSegment.t :=
  TCPSegment.mk (TCPHeader.set_seqno (TCPHeader.set_syn TCPHeader.new true)
    (WrappingInt32.wrap 0 (TCPSender._isn (TCPConnection._sender (TCPConnection.new c_tcp random)))))
    (Buffer.of_string []).

Lemma connect_new c_tcp random : ∃ c, TCPConnection.connect (TCPConnection.new c_tcp random) = Ok c ∧
  TCPConnection.state c = TCPState.of_state TCPState.SYN_SENT ∧
  TCPConnection.segments_out c = [first_syn c_tcp random].
Proof. destruct c_tcp. eexists. split; [reflexivity|]. split; reflexivity. Qed.

(** [connect] finds the state it expects.  For every configuration and every
    random number, a fresh socket whose destination can be printed gets through
    the part of [connect] before the loop: the exception about the state is not
    thrown, the connection is in SYN_SENT with exactly one segment to send, the
    SYN with the initial sequence number, the four rules are installed and rule 4
    is interested; a socket that has a connection refuses. *)
Theorem connect_reaches_syn_sent s (rules : list (EventLoop.Rule K (t A))) c_tcp c_ad random text :
  Address.show (FdAdapterConfig.destination c_ad) = Ok text →
  (_tcp s = None →
   ∃ s', connect_begin s rules c_tcp c_ad random = Ok (s', rules ++ [rule1; rule2; rule3; rule4]) ∧
     in_state s' TCPState.SYN_SENT = true ∧ rule1_interest s' = true ∧ rule4_interest s' = true ∧
     _datagram_adapter s' = set_config (_datagram_adapter s) c_ad ∧
     (TCPConnection.segments_out <$> _tcp s') = Some [first_syn c_tcp random]) ∧
  (_tcp s ≠ None → connect_begin s rules c_tcp c_ad random = Throw runtime_error).
Proof.
  intros Ht. split.
  - intros E. unfold connect_begin. rewrite E. unfold _initialize_TCP, EventLoop.add_rule.
    rewrite Ht, result_bind_ok. cbn [tcp set_tcp set_adapter _tcp]. rewrite result_bind_ok.
    destruct (connect_new c_tcp random) as (c & -> & Hst & Hq). rewrite result_bind_ok.
    unfold in_state at 1. cbn [_tcp set_tcp]. rewrite Hst, (proj2 (TCPState.state_eqb_eq _ _) eq_refl).
    rewrite <- !app_assoc. eexists. split; [done|]. unfold in_state, rule1_interest, rule4_interest. cbn [_tcp set_tcp set_adapter].
    rewrite Hst, Hq. split; [by apply TCPState.state_eqb_eq|]. split.
    { change (TCPConnection.active c) with (TCPState._active (TCPConnection.state c)). by rewrite Hst. }
    split; [done|]. split; [done|]. simpl. by rewrite Hq.
  - intros E. unfold connect_begin. by destruct (_tcp s).
Qed.

End Rules.

End TCPSpongeSocket.

(** ** Ready-made sockets *)

(** Six values of [random_device()()], the first byte marked as local and unicast. *)
Definition random_private_ethernet_address (random : list Z) : EthernetAddress :=
  match byte_of <$> random with
  | [] => []
  | b :: addr => byte_of (Z.land (Z.lor (byte_val b) 0x02) 0xfe) :: addr
  end.

(** A private address has the local bit, is not a group address, and so is not the broadcast address. *)
Lemma private_address_bits r random : ∃ b addr, random_private_ethernet_address (r :: random) = b :: addr ∧
  Z.testbit (byte_val b) 1 = true ∧ Z.testbit (byte_val b) 0 = false ∧
  random_private_ethernet_address (r :: random) ≠ ETHERNET_BROADCAST.
Proof.
  do 2 eexists. split; [reflexivity|].
  assert (∀ b, let b' := byte_of (Z.land (Z.lor (byte_val b) 0x02) 0xfe) in
    Z.testbit (byte_val b') 1 = true ∧ Z.testbit (byte_val b') 0 = false ∧ Byte.eqb b' xff = false) as Hb.
  { by intros []. }
  destruct (Hb (byte_of r)) as (H1 & H0 & Hne). split; [done|]. split; [done|].
  intros E. apply (f_equal (λ l, Byte.eqb (hd x00 l) xff)) in E. simpl in E. by rewrite Hne in E.
Qed.

Section Helpers.
Context {K : Type} `{Kernel K} `{Address.Resolver}.

(** The string [a.b.c.d]. *)
Definition dotted (a b c d : Z) : bytes :=
  Address.to_string a ++ x2e :: Address.to_string b ++ x2e :: Address.to_string c ++ x2e :: Address.to_string d.

Definition CS144_ADDRESS : bytes := dotted 169 254 144 9.
Definition LOCAL_TAP_IP_ADDRESS : bytes := dotted 169 254 10 9.
Definition LOCAL_TAP_NEXT_HOP_ADDRESS : bytes := dotted 169 254 10 1.

(** The device names [tun144] and [tap10]. *)
Definition tun144 : bytes := [x74; x75; x6e; x31; x34; x34].
Definition tap10 : bytes := [x74; x61; x70; x31; x30].

(** The configurations of the two [connect] functions; [random] is the value of [random_device()()]. *)
Definition rt_timeout_100 : TCPConfig.t :=
  TCPConfig.mk 100 (TCPConfig.recv_capacity TCPConfig.new) (TCPConfig.send_capacity TCPConfig.new)
    (TCPConfig.fixed_isn TCPConfig.new).

Definition multiplexer_config (local_ip : bytes) (random : Z) (destination : Address.t) : result FdAdapterConfig.t :=
  cfg ← FdAdapterConfig.new;
  source ← Address.of_host local_ip (Address.to_string (uint16 random));
  Ok (FdAdapterConfig.set_destination (FdAdapterConfig.set_source cfg source) destination).

(** [CS144TCPSocket]. *)
Definition CS144TCPSocket_new (k : K) : result (TCPSpongeSocket.t TCPOverIPv4OverTunFdAdapter.t * K) :=
  '(tun, k) ← TunTapFD.new tun144 true k;
  cfg ← FdAdapterConfig.new;
  TCPSpongeSocket.new (A := TCPOverIPv4OverTunFdAdapter.t) tun (FdAdapterBase.mk cfg false) k.

Definition CS144TCPSocket_connect (aborts : list bool) (s : TCPSpongeSocket.t TCPOverIPv4OverTunFdAdapter.t)
  (rules : list (EventLoop.Rule K _)) (address : Address.t) (random_port random_isn : Z) (k : K) :=
  cfg ← multiplexer_config CS144_ADDRESS random_port address;
  TCPSpongeSocket.connect aborts s rules rt_timeout_100 cfg random_isn k.

(** [FullStackSocket]: the constructor of its adapter writes an empty frame. *)
Definition FullStackSocket_new (random : list Z) (k : K) : result (TCPSpongeSocket.t TCPOverIPv4OverEthernetAdapter.t * K) :=
  '(tap, k) ← TunTapFD.new tap10 false k;
  ip ← Address.of_host LOCAL_TAP_IP_ADDRESS [x30];
  hop ← Address.of_host LOCAL_TAP_NEXT_HOP_ADDRESS [x30];
  cfg ← FdAdapterConfig.new;
  let '(a, outs) := TCPOverIPv4OverEthernetAdapter.new cfg (random_private_ethernet_address random) ip hop in
  '(tap, k) ← TCPSpongeSocket.emit (I := bytes) tap outs k;
  TCPSpongeSocket.new tap a k.

Definition FullStackSocket_connect (aborts : list bool) (s : TCPSpongeSocket.t TCPOverIPv4OverEthernetAdapter.t)
  (rules : list (EventLoop.Rule K _)) (address : Address.t) (random_port random_isn : Z) (k : K) :=
  cfg ← multiplexer_config LOCAL_TAP_IP_ADDRESS random_port address;
  TCPSpongeSocket.connect aborts s rules rt_timeout_100 cfg random_isn k.

End Helpers.

(** ** A socket over a TUN device *)

Module TunSocket.
Import DottedQuad.

Definition fd (n : Z) : FileDescriptor.t := FileDescriptor.mk n false false 0 0.

Definition small : TCPConfig.t := TCPConfig.mk 100 8 4 (Some (WrappingInt32.mk 7)).

Definition fresh : TCPSpongeSocket.t TCPOverIPv4OverTunFdAdapter.t :=
  TCPSpongeSocket.mk (fd 4) (fd 5) (fd 7) Hosts.client None false false false false false.

Definition open : TCPSpongeSocket.t TCPOverIPv4OverTunFdAdapter.t :=
  TCPSpongeSocket.set_tcp fresh (Some (TCPConnection.new small 0)).

(** The application has written three bytes. *)
Definition kernel : Machine.t := Machine.new (λ n, if n =? 5 then [x61; x62; x63] else []) 2.

Lemma open_streams_ok : TCPSpongeSocket.streams_ok (TCPConnection.new small 0).
Proof. split; [|split]; [apply ByteStream.wf_new; simpl; lia..|]. simpl. lia. Qed.

Lemma socket_relays_bytes_witness :
  let s := open in let k := kernel in let c := TCPConnection.new small 0 in
  match TCPSpongeSocket.rule2_callback s k with
  | Ok (s', k') => received k' 5 = [x61; x62; x63] ∧
      (ByteStream.contents ∘ TCPConnection.outbound_stream <$> TCPSpongeSocket._tcp s') = Some [x61; x62; x63]
  | Throw _ => False
  end ∧
  (∀ s' k', TCPSpongeSocket.rule3_callback s k = Ok (s', k') →
     ∃ d b, TCPSpongeSocket._tcp s' = Some (TCPSpongeSocket.set_inbound c b) ∧
       ByteStream.contents (TCPConnection.inbound_stream c) = d ++ ByteStream.contents b ∧
       same (sent k') (upd (sent k) 5 (sent k 5 ++ d)) ∧
       same (received k') (received k) ∧
       (ByteStream.eof b || ByteStream.error b = true → TCPSpongeSocket._inbound_shutdown s' = true)).
Proof.
  split.
  - vm_compute. split; reflexivity.
  - apply (TCPSpongeSocket.socket_relays_bytes open kernel (TCPConnection.new small 0) eq_refl open_streams_ok).
Defined.

Lemma socket_never_busy_waits_witness :
  ∃ s' k', EventLoop.callback TCPSpongeSocket.rule2 open kernel = Ok (s', k') ∧
    (EventLoop.service_count TCPSpongeSocket.rule2 open =? EventLoop.service_count TCPSpongeSocket.rule2 s')
    && EventLoop.interest TCPSpongeSocket.rule2 s' = false.
Proof.
  assert (is_ok (EventLoop.callback TCPSpongeSocket.rule2 open kernel) = true) as Hok by (vm_compute; reflexivity).
  destruct (EventLoop.callback TCPSpongeSocket.rule2 open kernel) as [[s' k']|] eqn:E; [|discriminate Hok].
  exists s', k'. split; [reflexivity|].
  apply (TCPSpongeSocket.socket_never_busy_waits open kernel s' k'); [|intros c [= <-]; apply open_streams_ok | exact E].
  right. left.
Defined.

(** [169.254.144.2:80]. *)
Definition server_text : bytes := dotted 169 254 144 2 ++ x3a :: Address.to_string 80.

Lemma server_shown : Address.show (FdAdapterConfig.destination (FdAdapterBase._cfg Hosts.client)) = Ok server_text.
Proof. vm_compute. reflexivity. Qed.

Lemma connect_reaches_syn_sent_witness :
  ∃ s', TCPSpongeSocket.connect_begin (K := Machine.t) fresh [] small (FdAdapterBase._cfg Hosts.client) 0
        = Ok (s', [TCPSpongeSocket.rule1; TCPSpongeSocket.rule2; TCPSpongeSocket.rule3; TCPSpongeSocket.rule4]) ∧
    TCPSpongeSocket.in_state s' TCPState.SYN_SENT = true.
Proof.
  destruct (TCPSpongeSocket.connect_reaches_syn_sent (K := Machine.t) fresh [] small
    (FdAdapterBase._cfg Hosts.client) 0 server_text server_shown) as [Hfresh _].
  destruct (Hfresh eq_refl) as (s' & E & Hst & _). exists s'. split; [exact E | exact Hst].
Defined.

End TunSocket.
