(* ===== verification/socket_link.v ===== *)
(** * Two applications, two machines, four threads
      (src/lab/libsponge/tcp_helpers/tcp_sponge_socket.cc with the connections of both ends)

    Each machine runs an application and the thread of a [TCPSpongeSocket].  The threads of a machine share a
    pair of stream sockets, the machines share a network.  A state is the socket and the kernel of each side; a step
    is one callback of a thread (the event loop calls them one after another), a tick, the end
    of a thread, or anything that another thread or the network does to the kernel or to the owner's
    handle meanwhile.  So every interleaving of the threads is a sequence of steps.

    [main_reach] says that what [_tcp_main] does is such a sequence.  [sim_step] says that a step is a step of [Link]
    at one end, so what holds of two [TCPConnection]s over an unreliable network holds of the
    sockets, and what an application reads is a prefix of what the other one has written. *)

From stdpp Require Import relations.
From stdpp Require Import strings.
From S2P Require Import Prelude wrapping_integers byte_stream stream_reassembler buffer system file_descriptor stream_pump eventloop.
From S2P Require Import tcp_header tcp_segment ethernet address socket tcp_config tcp_receiver tcp_sender tcp_state tcp_connection.
From S2P Require Import tcp_link adapters tcp_sponge_socket.

Module SocketLink.

Import TCPSpongeSocket.

(** ** A segment in transit *)

(** The adapters fill in ports and checksum. *)
Definition carried (seg seg' : TCPSegment.t) : Prop :=
  (∃ sport dport v, TCPSegment.header seg'
     = TCPHeader.set_cksum (TCPHeader.set_dport (TCPHeader.set_sport (TCPSegment.header seg) sport) dport) v) ∧
  Buffer.str (TCPSegment.payload seg') = Buffer.str (TCPSegment.payload seg).

(** What arrives is a segment that the other side has sent. *)
Definition in_transit (wire : list TCPSegment.t) (seg' : TCPSegment.t) : Prop := ∃ seg, seg ∈ wire ∧ carried seg seg'.

(** The connection does not look at the ports and the checksum. *)
Lemma received_carried c seg seg' : carried seg seg' →
  TCPConnection.segment_received c seg' = TCPConnection.segment_received c seg.
Proof.
  intros [(sport & dport & v & Hh) Hp].
  assert (∀ r, TCPReceiver.segment_received r seg' = TCPReceiver.segment_received r seg) as Hr.
  { intros r. unfold TCPReceiver.segment_received, Buffer.copy. rewrite Hh, Hp. done. }
  assert (TCPSegment.length_in_sequence_space seg' = TCPSegment.length_in_sequence_space seg) as Hl.
  { unfold TCPSegment.length_in_sequence_space. by rewrite Hh, Hp. }
  unfold TCPConnection.segment_received. rewrite Hh, Hr, Hl. done.
Qed.

Lemma same_segment_carried seg sport dport seg' :
  same_segment (TCPOverIPv4Adapter.set_ports seg sport dport) seg' → carried seg seg'.
Proof. intros [(v & Hh) Hp]. split; [by exists sport, dport, v | done]. Qed.

(** ** What the kernel leaves alone *)

Section Frames.
Context {K : Type} `{StreamLedger K}.

(** The bytes that went through descriptor [i] are the same in both states. *)
Definition untouched (i : Z) (k k' : K) : Prop := received k' i = received k i ∧ sent k' i = sent k i.

Lemma untouched_refl i k : untouched i k k.
Proof. done. Qed.
Lemma untouched_trans i k1 k2 k3 : untouched i k1 k2 → untouched i k2 k3 → untouched i k1 k3.
Proof. intros [E1 E2] [E3 E4]. split; congruence. Qed.
Lemma untouched_same i k k' : same (received k') (received k) → same (sent k') (sent k) → untouched i k k'.
Proof. by split. Qed.

(** Reading the clock and the calls on datagram sockets concern no stream but their own. *)
Class QuietKernel : Prop := {
  clock_law k k' t : steady_clock k = (k', t) → same (received k') (received k) ∧ same (sent k') (sent k);
  recvfrom_law k fd n flags k' r d a : sys_recvfrom k fd n flags = (k', r, d, a) → ∀ i, i ≠ fd → untouched i k k';
  sendmsg_law k fd a iov k' r : sys_sendmsg k fd a iov = (k', r) → ∀ i, i ≠ fd → untouched i k k' }.

(** The device of an adapter keeps its descriptor and touches no other. *)
Class DeviceFrame (I O : Type) `{!Device I O K} : Prop := {
  device_read_frame f k f' k' i : device_read f k = Ok (f', k', i) →
    FileDescriptor._fd f' = FileDescriptor._fd f ∧ ∀ j, j ≠ FileDescriptor._fd f → untouched j k k';
  device_write_frame f o k f' k' : device_write f o k = Ok (f', k') →
    FileDescriptor._fd f' = FileDescriptor._fd f ∧ ∀ j, j ≠ FileDescriptor._fd f → untouched j k k' }.

Lemma write_loop_frame fuel : ∀ f buffer all total k f' k' n,
  FileDescriptor.write_loop fuel f buffer all total k = Ok (f', k', n) →
  FileDescriptor._fd f' = FileDescriptor._fd f ∧ (∀ j, j ≠ FileDescriptor._fd f → untouched j k k') ∧
  same (received k') (received k).
Proof.
  induction fuel as [|fuel IH]; intros f buffer all total k f' k' n; [done|]. cbn [FileDescriptor.write_loop].
  destruct (sys_writev k (FileDescriptor.fd_num f) (BufferViewList.as_iovecs buffer)) as [k1 r] eqn:Ew. apply writev_law in Ew as [Hr Hs].
  assert (∀ j, j ≠ FileDescriptor._fd f → untouched j k k1) as Hu.
  { intros j Hj. split; [apply Hr|]. destruct Hs as [[_ Hs]|[_ Hs]]; rewrite Hs; [done|]. by rewrite upd_ne. }
  intros (m & _ & E)%result_bind_inv. destruct (_ && _); [done|]. destruct (_ <? m); [done|].
  apply result_bind_inv in E as (b & _ & E). destruct (_ && _).
  - apply IH in E as (E1 & E2 & E3). split; [done|]. split; [|intros i; by rewrite E3, Hr].
    intros j Hj. eapply untouched_trans; [by apply Hu | by apply E2].
  - by injection E as <- <- _.
Qed.

(** Rule 3 reads nothing. *)
Lemma drain_received m f st k f' st' k' : Pump.drain m f st k = Ok (f', st', k') →
  FileDescriptor._fd f' = FileDescriptor._fd f ∧ same (received k') (received k).
Proof.
  intros (d & _ & ([[f1 k1] n] & E & (st1 & _ & [= <- _ <-])%result_bind_inv)%result_bind_inv)%result_bind_inv.
  by apply write_loop_frame in E as (? & _ & ?).
Qed.

#[global] Instance tun_frame : DeviceFrame bytes BufferList.t.
Proof.
  constructor.
  - intros f k f' k' i E. apply FileDescriptor.read_spec in E as (-> & _ & Hr & Hs); [|done]. split.
    + unfold FileDescriptor.after_read. by destruct (_ && _).
    + intros j Hj. split; [by rewrite Hr, upd_ne | by rewrite Hs].
  - intros f o k f' k' ([[f1 k1] n] & E & [= <- <-])%result_bind_inv. by apply write_loop_frame in E as (? & ? & _).
Qed.

#[global] Instance udp_frame `{!QuietKernel} : DeviceFrame (Address.t * bytes) (Address.t * BufferList.t).
Proof.
  constructor.
  - intros f k f' k' i ([[f1 k1] d] & E & [= <- <- <-])%result_bind_inv. unfold UDPSocket.recv in E.
    apply result_bind_inv in E as (a & _ & E). unfold UDPSocket.recv_into in E.
    destruct (sys_recvfrom _ _ _ _) as [[[k2 r] e] [addr n]] eqn:Er. apply result_bind_inv in E as (m & _ & E).
    destruct (_ <? m); [done|]. apply result_bind_inv in E as (src & _ & E). destruct (m <? 0); [done|].
    injection E as <- <- _. split; [done|]. exact (recvfrom_law _ _ _ _ _ _ _ _ Er).
  - intros f o k f' k' E. unfold device_write in E. simpl in E. unfold UDPSocket.sendto, UDPSocket.sendmsg_helper in E.
    destruct (sys_sendmsg _ _ _ _) as [k2 r] eqn:Es. apply result_bind_inv in E as (k1 & Ek & [= <- <-]).
    apply result_bind_inv in Ek as (m & _ & Ek). destruct (negb _); [done|]. injection Ek as <-.
    split; [done|]. exact (sendmsg_law _ _ _ _ _ _ Es).
Qed.

End Frames.

Arguments QuietKernel K {_ _}.
Arguments DeviceFrame K {_ _} I O {_}.

(** ** The steps of one machine *)

Section Host.
Context {A I O K : Type} `{FdAdapter A I O} `{Device I O K} `{Address.Resolver} `{!StreamLedger K}.

(** The socket, the kernel, and the segments that rule 4 has given to the adapter so far. *)
Record host := mkHost { sock : t A; kernel : K; offered : list TCPSegment.t }.

(** What the device gives to the adapter in rule 1: if it makes a segment of it, the segment has arrived. *)
Definition delivers (arrived : TCPSegment.t → Prop) (s : t A) (k : K) : Prop :=
  ∀ f k1 i a outs seg, device_read (_device s) k = Ok (f, k1, i) →
    adapters.read (_datagram_adapter s) i = Ok (a, outs, Some seg) → arrived seg.

Definition thread_fd (h : host) : Z := FileDescriptor._fd (_thread_data (sock h)).

Inductive thread_step (arrived : TCPSegment.t → Prop) : host → host → Prop :=
| Connect s k w c c' : _tcp s = Some c → TCPConnection.connect c = Ok c' →
    thread_step arrived (mkHost s k w) (mkHost (set_tcp s (Some c')) k w)
| Rule1 s k w s' k' : delivers arrived s k → rule1_callback s k = Ok (s', k') →
    thread_step arrived (mkHost s k w) (mkHost s' k' w)
| Rule2 s k w s' k' : _outbound_shutdown s = false → rule2_callback s k = Ok (s', k') →
    thread_step arrived (mkHost s k w) (mkHost s' k' w)
| Cancel2 s k w s' k' : rule2_cancel s k = Ok (s', k') →
    thread_step arrived (mkHost s k w) (mkHost s' k' w)
| Rule3 s k w s' k' : rule3_callback s k = Ok (s', k') →
    thread_step arrived (mkHost s k w) (mkHost s' k' w)
| Rule4 s k w c s' k' : _tcp s = Some c → rule4_callback s k = Ok (s', k') →
    thread_step arrived (mkHost s k w) (mkHost s' k' (w ++ TCPConnection.segments_out c))
| Ticks s k w base s' base' k' : tick_round s base k = Ok (s', base', k') →
    thread_step arrived (mkHost s k w) (mkHost s' k' w)
| Finish s k w s' k' : finish s k = Ok (s', k') →
    thread_step arrived (mkHost s k w) (mkHost s' k' w)
(** The owner's thread, other processes and the network: the kernel changes, but not the streams of the
    thread's descriptor; the owner's handle changes. *)
| World s k w f k' : untouched (FileDescriptor._fd (_thread_data s)) k k' →
    thread_step arrived (mkHost s k w) (mkHost (set_socket s f) k' w)
| Abort s k w : thread_step arrived (mkHost s k w) (mkHost (set_abort s) k w).

(** ** What a step does, in terms of the connection *)

Context `{!DeviceFrame K I O} `{!QuietKernel K}.

Lemma emit_frame outs : ∀ f k f' k', emit f outs k = Ok (f', k') →
  FileDescriptor._fd f' = FileDescriptor._fd f ∧ ∀ j, j ≠ FileDescriptor._fd f → untouched j k k'.
Proof.
  induction outs as [|o outs IH]; intros f k f' k'; simpl; [by intros [= <- <-]|].
  intros ([f1 k1] & [E1 U1]%device_write_frame & [E2 U2]%IH)%result_bind_inv. rewrite E1 in E2, U2.
  split; [done|]. intros j Hj. eapply untouched_trans; [by apply U1 | by apply U2].
Qed.

Lemma send_segments_frame q : ∀ f a k f' a' k', send_segments f a q k = Ok (f', a', k') →
  FileDescriptor._fd f' = FileDescriptor._fd f ∧ ∀ j, j ≠ FileDescriptor._fd f → untouched j k k'.
Proof.
  induction q as [|seg q IH]; intros f a k f' a' k'; simpl; [by intros [= <- _ <-]|].
  intros ([[a1 outs] x] & _ & E)%result_bind_inv. apply result_bind_inv in E as ([f1 k1] & [E1 U1]%emit_frame & [E2 U2]%IH).
  rewrite E1 in E2, U2. split; [done|]. intros j Hj. eapply untouched_trans; [by apply U1 | by apply U2].
Qed.

(** The descriptors and the direction of shutdown stay; so do the streams of the thread's descriptor. *)
Record kept (s s' : t A) (k k' : K) : Prop := {
  k_thread : FileDescriptor._fd (_thread_data s') = FileDescriptor._fd (_thread_data s);
  k_device : FileDescriptor._fd (_device s') = FileDescriptor._fd (_device s);
  k_shut : _outbound_shutdown s' = _outbound_shutdown s;
  k_quiet : FileDescriptor._fd (_device s) ≠ FileDescriptor._fd (_thread_data s) →
            untouched (FileDescriptor._fd (_thread_data s)) k k' }.

Lemma rule1_effect arrived s k s' k' : delivers arrived s k → rule1_callback s k = Ok (s', k') →
  kept s s' k k' ∧ ∃ c, _tcp s = Some c ∧
    (_tcp s' = Some c ∨ ∃ seg c', arrived seg ∧ TCPConnection.segment_received c seg = Ok c' ∧ _tcp s' = Some c').
Proof.
  intros Hd. unfold rule1_callback, tcp. destruct (_tcp s) as [c|] eqn:Ec; [|done]. rewrite result_bind_ok.
  intros ([[f k1] i] & E1 & E)%result_bind_inv. pose proof (device_read_frame _ _ _ _ _ E1) as [F1 U1].
  apply result_bind_inv in E as ([[a outs] seg] & E2 & E).
  apply result_bind_inv in E as ([f2 k2] & [F2 U2]%emit_frame & E).
  apply result_bind_inv in E as (c2 & E3 & E). rewrite F1 in F2, U2.
  assert (∃ b1 b2 b3, s' = set_flags (set_tcp (set_adapter s f2 a) (Some c2)) b1 b2 b3 ∧ k' = k2 ∧ b2 = _outbound_shutdown s)
    as (b1 & b2 & b3 & -> & -> & ->).
  { cbv zeta in E. destruct (_ && _ && _); [apply result_bind_inv in E as (x & _ & E)|]; injection E as <- <-;
      by eexists _, _, _. }
  split; [constructor; [done | done | done|]; intros Hne; eapply untouched_trans; [apply U1 | apply U2]; congruence|].
  exists c. split; [done|]. destruct seg as [seg|]; [|injection E3 as <-; by left]. right. exists seg, c2.
  split; [by eapply Hd | done].
Qed.

Lemma rule2_effect s k s' k' : rule2_callback s k = Ok (s', k') →
  _device s' = _device s ∧ (_outbound_shutdown s' = _outbound_shutdown s ∨ _outbound_shutdown s' = true).
Proof.
  intros (c & _ & E)%result_bind_inv. apply result_bind_inv in E as ([[f k1] d] & _ & E).
  apply result_bind_inv in E as ([c1 n] & _ & E). destruct (negb _); [done|]. destruct (FileDescriptor.eof f).
  - apply result_bind_inv in E as (c2 & _ & (x & _ & [= <- _])%result_bind_inv). split; [done | by right].
  - injection E as <- _. split; [done | by left].
Qed.

Lemma rule3_effect s k s' k' c : _tcp s = Some c → rule3_callback s k = Ok (s', k') →
  _device s' = _device s ∧ _outbound_shutdown s' = _outbound_shutdown s ∧
  ∃ f b k1, Pump.drain 65536 (_thread_data s) (TCPConnection.inbound_stream c) k = Ok (f, b, k1) ∧
    _tcp s' = Some (set_inbound c b) ∧ FileDescriptor._fd (_thread_data s') = FileDescriptor._fd f ∧
    same (received k') (received k1) ∧ same (sent k') (sent k1).
Proof.
  intros Ec. unfold rule3_callback, tcp. rewrite Ec, result_bind_ok. intros ([[f b] k1] & E1 & E)%result_bind_inv.
  destruct (ByteStream.eof b || ByteStream.error b).
  - apply result_bind_inv in E as ([g k2] & Eg & (x & _ & [= <- <-])%result_bind_inv).
    unfold Socket.shutdown in Eg. destruct (sys_shutdown _ _ _) as [k3 r] eqn:Ek. apply shutdown_law in Ek as [Hr3 Hs3].
    apply result_bind_inv in Eg as (y & _ & [= <- <-]). split; [done|]. split; [done|]. by exists f, b, k1.
  - injection E as <- <-. split; [done|]. split; [done|]. by exists f, b, k1.
Qed.

Lemma rule4_effect s k s' k' c : _tcp s = Some c → rule4_callback s k = Ok (s', k') →
  kept s s' k k' ∧ _tcp s' = Some (TCPConnection.set_segments_out c []).
Proof.
  intros Ec. unfold rule4_callback, tcp. rewrite Ec, result_bind_ok.
  intros ([[f a] k1] & [F U]%send_segments_frame & [= <- <-])%result_bind_inv.
  split; [|done]. constructor; [done | done | done|]. intros Hne. apply U. congruence.
Qed.

Lemma tick_effect s base k s' base' k' : tick_round s base k = Ok (s', base', k') →
  kept s s' k k' ∧ ∃ c, _tcp s = Some c ∧
    (_tcp s' = Some c ∨ ∃ ms c', 0 <= ms ∧ TCPConnection.tick c ms = Ok c' ∧ _tcp s' = Some c').
Proof.
  unfold tick_round, tcp. destruct (_tcp s) as [c|] eqn:Ec; [|done]. rewrite result_bind_ok.
  destruct (TCPConnection.active c).
  - unfold timestamp_ms. destruct (steady_clock k) as [k1 t1] eqn:Et. apply clock_law in Et as [Hr Hs].
    intros (c2 & E2 & E)%result_bind_inv. apply result_bind_inv in E as ([a outs] & _ & E).
    apply result_bind_inv in E as ([f k2] & [F U]%emit_frame & [= <- _ <-]).
    split; [constructor; [done | done | done|]; intros Hne; eapply untouched_trans; [by apply untouched_same | apply U; congruence]|].
    exists c. split; [done|]. right. eexists _, c2. split; [apply uint64_range | done].
  - intros [= <- _ <-]. split; [by constructor|]. exists c. split; [done | by left].
Qed.

Lemma finish_effect s k s' k' : finish s k = Ok (s', k') → kept s s' k k' ∧ _tcp s' = None.
Proof.
  intros ([f k1] & E & (c & _ & [= <- <-])%result_bind_inv)%result_bind_inv.
  unfold Socket.shutdown in E. destruct (sys_shutdown _ _ _) as [k2 r] eqn:Ek. apply shutdown_law in Ek as [Hr Hs].
  apply result_bind_inv in E as (y & _ & [= _ <-]). split; [|done]. constructor; [done | done | done|].
  intros _. by apply untouched_same.
Qed.

(** ** The rounds of the loop are such steps *)

Section Rounds.
Context (arrived : TCPSegment.t → Prop) (h0 : host).

(** The states that steps lead to; the network gives no segment but those that have arrived. *)
Definition reach (s : t A) (k : K) : Prop := ∃ w, rtc (thread_step arrived) h0 (mkHost s k w).
Context (Hnet : ∀ s k, reach s k → delivers arrived s k).

Lemma reach_world s k f k' : reach s k → untouched (FileDescriptor._fd (_thread_data s)) k k' → reach (set_socket s f) k'.
Proof. intros (w & Hr) Hu. exists w. eapply rtc_r; [exact Hr | by apply World]. Qed.

Lemma reach_kernel s k k' : reach s k → same (received k') (received k) → same (sent k') (sent k) → reach s k'.
Proof.
  intros Hr Hu1 Hu2. replace s with (set_socket s (_socket s)) by (by destruct s).
  eapply reach_world; [exact Hr | by apply untouched_same].
Qed.

Lemma safe1 : EventLoop.safe reach rule1.
Proof.
  split; intros s k s' k' Hr; simpl; [|by intros [= <- <-]].
  intros E. pose proof (Hnet s k Hr) as Hd. destruct Hr as (w & Hr). exists w. by eapply rtc_r; [|eapply Rule1].
Qed.

Lemma safe_tail l : sublist l [rule3; rule4] → Forall (EventLoop.safe reach) l.
Proof.
  intros Hl. eapply Forall_sublist; [exact Hl|]. apply Forall_cons. split; [|apply Forall_singleton].
  - constructor; intros s k s' k' (w & Hr) E; exists w; [by eapply rtc_r; [|eapply Rule3] | by injection E as <- <-].
  - constructor; intros s k s' k' (w & Hr) E; [|exists w; by injection E as <- <-].
    assert (∃ c, _tcp s = Some c) as (c & Ec).
    { simpl in E. unfold rule4_callback, tcp in E. destruct (_tcp s); [by eexists | done]. }
    eexists. by eapply rtc_r; [|eapply Rule4].
Qed.

Lemma reach_cancel2 s k s' k' : reach s k → rule2_cancel s k = Ok (s', k') → reach s' k'.
Proof. intros (w & Hr) E. exists w. by eapply rtc_r; [|eapply Cancel2]. Qed.

Lemma setup_tail l s k s' k' l' fds b : sublist l [rule3; rule4] →
  EventLoop.setup l s k = Ok (s', k', l', fds, b) → s' = s ∧ k' = k ∧ sublist l' [rule3; rule4].
Proof.
  intros Hl E. apply (EventLoop.setup_safe (λ s1 k1, s1 = s ∧ k1 = k)) in E as ([-> ->] & Hs & _); [|..|done].
  - split; [done|]. split; [done|]. by etrans.
  - eapply Forall_sublist; [exact Hl|]. apply Forall_cons. split; [|apply Forall_singleton]; by intros ? ? ? ? [-> ->] [= <- <-].
Qed.

(** Rule 2 is polled only while the outbound stream is open, and rule 1 does not close it. *)
Definition polled2 (rules : list (EventLoop.Rule K (t A))) (polled : list (pollfd * Z)) (s : t A) : Prop :=
  sublist rules [rule3; rule4] ∨
  ∃ rest, rules = rule2 :: rest ∧ sublist rest [rule3; rule4] ∧
    ∀ p e l, polled = (p, e) :: l → events p ≠ 0 → _outbound_shutdown s = false.

Lemma dispatch2 rules polled s k s' k' rules' : polled2 rules polled s → reach s k →
  EventLoop.dispatch rules polled s k = Ok (s', k', rules') → reach s' k'.
Proof.
  intros [Hl|(rest & -> & Hl & Hopen)] Hr E.
  - apply (EventLoop.dispatch_safe reach) in E as [Hr' _]; [done | by apply safe_tail | done].
  - apply EventLoop.dispatch_cons_inv in E as (p & e & polled1 & s1 & k1 & rules1 & -> & Hc & E).
    apply (EventLoop.dispatch_safe reach) in E as [Hr' _]; [done | by apply safe_tail |].
    destruct Hc as [Hc|[[Hp Hc]|[-> ->]]]; [by eapply reach_cancel2| |done].
    destruct Hr as (w & Hr). exists w. eapply rtc_r; [exact Hr|]. apply Rule2; [by eapply Hopen | exact Hc].
Qed.

Lemma setup2 rules s k s' k' rules' fds b revents : sublist rules [rule2; rule3; rule4] → reach s k →
  EventLoop.setup rules s k = Ok (s', k', rules', fds, b) →
  reach s' k' ∧ polled2 rules' (zip fds revents) s'.
Proof.
  intros [Hl|(rest & -> & Hl)]%sublist_cons_r Hr.
  { intros (-> & -> & Hl')%setup_tail; [|done]. by split; [|left]. }
  intros [(s1 & k1 & E1 & E)|(rules1 & fds1 & b1 & n & E & -> & ->)]%EventLoop.setup_cons_inv.
  - apply setup_tail in E as (-> & -> & Hl'); [|done]. split; [by eapply reach_cancel2 | by left].
  - apply setup_tail in E as (-> & -> & Hl'); [|done]. split; [done|]. right. exists rules1.
    split; [done|]. split; [done|]. destruct revents as [|e revents]; [done|]. intros p e' l [= <- <- <-]. simpl.
    unfold rule2_interest. destruct (_tcp s); [|done]. destruct (_outbound_shutdown s); [by rewrite andb_false_r | done].
Qed.

Definition polled1 (rules : list (EventLoop.Rule K (t A))) (polled : list (pollfd * Z)) (s : t A) : Prop :=
  polled2 rules polled s ∨
  ∃ rest, rules = rule1 :: rest ∧ ∀ p e l, polled = (p, e) :: l → polled2 rest l s.

Lemma polled2_shut rules polled s s' : _outbound_shutdown s' = _outbound_shutdown s →
  polled2 rules polled s → polled2 rules polled s'.
Proof. intros E [Hl|(rest & -> & Hl & Ho)]; [by left | right]. exists rest. rewrite E. done. Qed.

Lemma dispatch1 rules polled s k s' k' rules' : polled1 rules polled s → reach s k →
  EventLoop.dispatch rules polled s k = Ok (s', k', rules') → reach s' k'.
Proof.
  intros [Hp|(rest & -> & Hp)] Hr E; [by eapply dispatch2|].
  apply EventLoop.dispatch_cons_inv in E as (p & e & polled1 & s1 & k1 & rules1 & -> & Hc & E).
  specialize (Hp p e polled1 eq_refl). destruct Hc as [[= <- <-]|[[_ Hc]|[-> ->]]]; [by eapply dispatch2| |by eapply dispatch2].
  eapply dispatch2; [|by eapply safe1|exact E]. eapply polled2_shut; [|exact Hp].
  destruct (rule1_effect arrived s k s1 k1 (Hnet s k Hr) Hc) as [[_ _ Hs _] _]. exact Hs.
Qed.

Lemma setup1 rules s k s' k' rules' fds b revents : sublist rules [rule1; rule2; rule3; rule4] → reach s k →
  EventLoop.setup rules s k = Ok (s', k', rules', fds, b) → reach s' k' ∧ polled1 rules' (zip fds revents) s'.
Proof.
  intros [Hl|(rest & -> & Hl)]%sublist_cons_r Hr.
  { intros E. apply (setup2 _ _ _ _ _ _ _ _ revents Hl Hr) in E as [? ?]. by split; [|left]. }
  intros [(s1 & k1 & [= <- <-] & E)|(rules1 & fds1 & b1 & n & E & -> & ->)]%EventLoop.setup_cons_inv.
  - apply (setup2 _ _ _ _ _ _ _ _ revents Hl Hr) in E as [? ?]. by split; [|left].
  - apply (setup2 _ _ _ _ _ _ _ _ (drop 1 revents) Hl Hr) in E as [Hr' Hp]. split; [done|]. right. exists rules1.
    split; [done|]. destruct revents as [|e revents]; [done|]. by intros p e' l [= <- <- <-].
Qed.

(** One wait: setting up, polling, calling back. *)
Lemma wait_reach rules timeout s k res rules' s' k' : sublist rules [rule1; rule2; rule3; rule4] → reach s k →
  EventLoop.wait_next_event rules timeout s k = Ok (res, rules', s', k') → reach s' k' ∧ sublist rules' rules.
Proof.
  intros Hl Hr E. split.
  2:{ apply (EventLoop.wait_next_event_safe (λ _ _, True)) in E as [_ Hs]; [done | | done | done].
      apply Forall_true. done. }
  unfold EventLoop.wait_next_event in E. apply result_bind_inv in E as ([[[[s1 k1] rules1] fds1] b1] & E1 & E).
  destruct (sys_poll k1 fds1 timeout) as [[k2 r] revents] eqn:Ep.
  destruct (setup1 _ _ _ _ _ _ _ _ revents Hl Hr E1) as [Hr1 Hp1].
  destruct b1; cbn [negb] in E; [|by injection E as _ _ <- <-].
  apply poll_law in Ep as (P1 & P2 & _). pose proof (reach_kernel _ _ _ Hr1 P1 P2) as Hr2.
  assert (∀ x, ('(s, k, rules) ← EventLoop.dispatch rules1 (zip fds1 revents) s1 k2; Ok (EventLoop.Success, rules, s, k)) = Ok x →
    reach x.1.2 x.2) as Hd.
  { intros x ([[s3 k3] rules3] & E3 & [= <-])%result_bind_inv. by eapply dispatch1. }
  destruct (SystemCall r 0) as [n|[]]; try done.
  - destruct (n =? 0); [by injection E as _ _ <- <- | apply (Hd _ E)].
  - destruct (_ =? EINTR); [by injection E as _ _ <- <- | apply (Hd _ E)].
Qed.

Lemma rounds_reach aborts condition : ∀ rules s base k ended rules' s' k',
  sublist rules [rule1; rule2; rule3; rule4] → reach s k →
  tcp_rounds aborts condition rules s base k = Ok (ended, rules', s', k') → reach s' k'.
Proof.
  induction aborts as [|abort aborts IH]; intros rules s base k ended rules' s' k' Hl Hr; simpl;
    (destruct (negb (condition s)); [by intros [= _ _ <- <-]|]); [by intros [= _ _ <- <-]|].
  intros ([[[ret rules1] s1] k1] & E1 & E)%result_bind_inv. apply wait_reach in E1 as [Hr1 Hl1]; [|done|done].
  destruct (_ || _); [by injection E as _ _ <- <-|]. apply result_bind_inv in E as ([[s2 base2] k2] & E2 & E).
  eapply IH; [by etrans | | exact E]. destruct Hr1 as (w & Hr1). exists w. by eapply rtc_r; [|eapply Ticks].
Qed.

(** The whole thread. *)
Lemma main_reach aborts rules s k ended rules' s' k' :
  sublist rules [rule1; rule2; rule3; rule4] → reach s k →
  _tcp_main aborts rules s k = Ok (ended, rules', s', k') → reach s' k'.
Proof.
  intros Hl Hr (c & _ & E)%result_bind_inv. apply result_bind_inv in E as ([[[ended1 rules1] s1] k1] & E1 & E).
  assert (reach s1 k1) as Hr1.
  { unfold _tcp_loop, timestamp_ms in E1. destruct (steady_clock k) as [k2 t2] eqn:Et. apply clock_law in Et as [C1 C2].
    eapply rounds_reach; [exact Hl | exact (reach_kernel _ _ _ Hr C1 C2) | exact E1]. }
  destruct ended1; [|by injection E as _ _ <- <-]. apply result_bind_inv in E as ([s2 k2] & E2 & [= _ _ <- <-]).
  destruct Hr1 as (w & Hr1). exists w. by eapply rtc_r; [|eapply Finish].
Qed.

End Rounds.

(** ** What a thread has read only grows *)

(** [grows h h']: between the two states the thread may have read more from the application, but not
    after it has ended the outbound stream. *)
Record grows (h h' : host) : Prop := {
  g_fd : thread_fd h' = thread_fd h;
  g_dev : FileDescriptor._fd (_device (sock h')) = FileDescriptor._fd (_device (sock h));
  g_read : FileDescriptor._fd (_device (sock h)) ≠ thread_fd h →
    received (kernel h) (thread_fd h) `prefix_of` received (kernel h') (thread_fd h);
  g_shut : _outbound_shutdown (sock h) = true → _outbound_shutdown (sock h') = true ∧
    (FileDescriptor._fd (_device (sock h)) ≠ thread_fd h →
     received (kernel h') (thread_fd h) = received (kernel h) (thread_fd h)) }.

Lemma grows_refl h : grows h h.
Proof. by constructor. Qed.

Lemma grows_trans h1 h2 h3 : grows h1 h2 → grows h2 h3 → grows h1 h3.
Proof.
  intros [F1 D1 R1 S1] [F2 D2 R2 S2]. rewrite D1, F1 in *. constructor; [by rewrite F2 | by rewrite D2 | |].
  - intros Hne. etrans; [by apply R1 | by apply R2].
  - intros [Hs Hr]%S1. apply S2 in Hs as [Hs Hr2]. split; [done|]. intros Hne. rewrite Hr2 by done. by apply Hr.
Qed.

(** A step that reads nothing from the application. *)
Lemma grows_same h h' : thread_fd h' = thread_fd h →
  FileDescriptor._fd (_device (sock h')) = FileDescriptor._fd (_device (sock h)) →
  (FileDescriptor._fd (_device (sock h)) ≠ thread_fd h →
   received (kernel h') (thread_fd h) = received (kernel h) (thread_fd h)) →
  (_outbound_shutdown (sock h) = true → _outbound_shutdown (sock h') = true) → grows h h'.
Proof.
  intros Hf Hd Hr Hs. constructor; [done | done | |]; [|by intros ?%Hs].
  intros Hne. by rewrite Hr.
Qed.

Lemma grows_kept s s' k k' w w' : kept s s' k k' → grows (mkHost s k w) (mkHost s' k' w').
Proof.
  intros [Ht Hd Hs Hq]. apply grows_same; simpl; [done | done | | by rewrite Hs]. intros [Hr _]%Hq. exact Hr.
Qed.

Lemma step_grows arrived h h' : thread_step arrived h h' → grows h h'.
Proof.
  intros [s k w c c' _ _|s k w s' k' Hd E|s k w s' k' Hsh E|s k w s' k' E|s k w s' k' E|s k w c s' k' Ec E
    |s k w base s' base' k' E|s k w s' k' E|s k w f k' Hu|s k w].
  - by apply grows_same.
  - apply (rule1_effect _ _ _ _ _ Hd) in E as [Hk _]. by apply grows_kept.
  - pose proof (rule2_effect _ _ _ _ E) as [Hdev _]. apply rule2_inv in E as (c & c1 & f & d & _ & Er & _ & Hf & _).
    apply FileDescriptor.read_spec in Er as (Ef & _ & Hr & _); [|apply uint64_range].
    constructor; simpl; [|by rewrite Hdev | | by rewrite Hsh].
    + unfold thread_fd. simpl. rewrite Hf, Ef. unfold FileDescriptor.after_read. by destruct (_ && _).
    + intros _. unfold thread_fd. simpl. rewrite Hr, upd_eq. by apply prefix_app_r.
  - apply result_bind_inv in E as (c & _ & (c' & _ & [= <- <-])%result_bind_inv). by apply grows_same.
  - assert (∃ c, _tcp s = Some c) as (c & Ec).
    { unfold rule3_callback, tcp in E. destruct (_tcp s); [by eexists | done]. }
    destruct (rule3_effect s k s' k' c Ec E) as (Edev & Hsh & f & b & k1 & [Ef Er]%drain_received & _ & Hfd & Hr1 & _).
    apply grows_same; unfold thread_fd; simpl; [by rewrite Hfd | by rewrite Edev | intros _; by rewrite Hr1, Er | by rewrite Hsh].
  - apply (rule4_effect _ _ _ _ _ Ec) in E as [Hk _]. by apply grows_kept.
  - apply tick_effect in E as [Hk _]. by apply grows_kept.
  - apply finish_effect in E as [Hk _]. by apply grows_kept.
  - apply grows_same; [done | done | | done]. intros _. exact (proj1 Hu).
  - by apply grows_same.
Qed.

End Host.
Arguments host : clear implicits.

(** ** A step of the socket is a step of its end of the link *)

Section Simulation.
Context {A I O K : Type} `{FdAdapter A I O} `{Device I O K} `{Address.Resolver} `{!StreamLedger K}.
Context `{!DeviceFrame K I O} `{!QuietKernel K}.
(** [F] is what the thread reads from the application in the whole run. *)
Context (F : bytes) (cfg : TCPConfig.t) (random : Z) (isn : WrappingInt32.t) (other : Link.peer_spec) (thr : Z).

Definition nth_byte (l : bytes) (i : Z) : byte := nth (Z.to_nat i) l x00.
Definition me : Link.peer_spec := Link.mkPeer (nth_byte F) (len F) cfg random isn.
Context (Hme : Link.peer_ok me) (Hother : Link.peer_ok other).

Record sim (h : host A K) (e : Link.endpoint) : Prop := {
  s_conn c : _tcp (sock h) = Some c → Link.conn e = c;
  s_fd : thread_fd h = thr;
  s_dev : FileDescriptor._fd (_device (sock h)) ≠ thr;
  s_wire : Link.wire e = offered h;
  s_in : received (kernel h) thr = ztake (TCPSender.written (TCPConnection._sender (Link.conn e))) F;
  s_out : sent (kernel h) thr = Link.got e }.

Definition sides (x y : Link.endpoint) : Prop := Link.side_inv me other x y ∧ Link.side_inv other me y x.

(** The actions of this side. *)
Definition moves (y : Link.endpoint) (x x' : Link.endpoint) : Prop :=
  ∃ op, Link.allowed (len F) x op ∧ Link.act (nth_byte F) x y op = Ok x'.

Lemma moves_sides x y op : sides x y → Link.allowed (len F) x op →
  ∃ x', Link.act (nth_byte F) x y op = Ok x' ∧ moves y x x' ∧ sides x' y.
Proof.
  intros [Hx Hy] Ha. destruct (Link.side_act me other x y op Hme Hother Hx Hy Ha) as (x' & E & Hx' & Hy').
  exists x'. split; [done|]. split; [by exists op | done].
Qed.

Lemma sides_streams x y : sides x y → streams_ok (Link.conn x) ∧
  0 <= TCPSender.written (TCPConnection._sender (Link.conn x)) <= len F.
Proof.
  intros [Hx _]. pose proof (Link.h_conn _ _ _ _ _ _ _ _ Hx) as Hi.
  pose proof (TCPConnection.p_sender _ _ _ _ _ _ _ _ (TCPConnection.i_parts _ _ _ _ _ _ _ _ Hi)) as Hs.
  destruct (TCPConnection.i_receiver _ _ _ _ _ _ _ _ Hi) as [[[] _ _ _] Hc Hp _]. split.
  - split; [apply (TCPSender.i_stream _ _ _ _ Hs)|]. split; [exact so_out|].
    change (0 < ByteStream._capacity (StreamReassembler._output (TCPReceiver._reassembler (TCPConnection._receiver (Link.conn x))))).
    lia.
  - pose proof (TCPSender.i_written _ _ _ _ Hs). pose proof (TCPSender.i_sent _ _ _ _ Hs).
    pose proof (ByteStream.wf_sz _ (TCPSender.i_stream _ _ _ _ Hs)). simpl Link.size in *.
    unfold TCPSender.written, ByteStream.buffer_size in *. lia.
Qed.

(** A callback that leaves the thread's descriptor alone. *)
Lemma sim_kept h x s' k' w' x' : sim h x → kept (sock h) s' (kernel h) k' →
  (∀ c, _tcp s' = Some c → Link.conn x' = c) → Link.wire x' = w' → Link.got x' = Link.got x →
  TCPSender.written (TCPConnection._sender (Link.conn x')) = TCPSender.written (TCPConnection._sender (Link.conn x)) →
  sim (mkHost s' k' w') x'.
Proof.
  intros [] [Kt Kd _ Kq] Hc Hw Hg Hwr. unfold thread_fd in *. rewrite s_fd0 in *. destruct (Kq s_dev0) as [Qr Qs].
  constructor; simpl; try done; [by rewrite Kd | by rewrite Qr, s_in0, Hwr | by rewrite Qs, s_out0].
Qed.

Lemma sim_deliver h x y s' k' seg c c' : sim h x → sides x y → kept (sock h) s' (kernel h) k' → _tcp (sock h) = Some c →
  in_transit (Link.wire y) seg → TCPConnection.segment_received c seg = Ok c' → _tcp s' = Some c' →
  ∃ x', rtc (moves y) x x' ∧ sim (mkHost s' k' (offered h)) x'.
Proof.
  intros Hs Hxy Hk Ec (seg0 & Hin & Hcar) E Ec'. rewrite (received_carried _ _ _ Hcar) in E.
  pose proof (s_conn _ _ Hs c Ec) as Hc. rewrite <- Hc in E. pose proof Hin as (i & Hi)%list_elem_of_lookup_1.
  destruct (moves_sides x y (Link.Deliver i) Hxy Logic.I) as (x' & Ex & Hm & _). pose proof Ex as Ex'.
  simpl in Ex'. rewrite Hi, E, result_bind_ok in Ex'. injection Ex' as <-.
  eexists. split; [by apply rtc_once|]. eapply sim_kept; [done | done | | exact (s_wire _ _ Hs) | done |].
  - rewrite Ec'. by intros ? [= <-].
  - destruct Hxy as [Hx Hy]. exact (Link.deliver_written _ _ _ _ _ _ Hme Hother Hx Hy Hin E).
Qed.

Lemma sim_tick h x y s' k' ms c c' : sim h x → sides x y → kept (sock h) s' (kernel h) k' → _tcp (sock h) = Some c →
  0 <= ms → TCPConnection.tick c ms = Ok c' → _tcp s' = Some c' →
  ∃ x', rtc (moves y) x x' ∧ sim (mkHost s' k' (offered h)) x'.
Proof.
  intros Hs Hxy Hk Ec Hms E Ec'. pose proof (s_conn _ _ Hs c Ec) as Hc. rewrite <- Hc in E.
  destruct (moves_sides x y (Link.Tick ms) Hxy Hms) as (x' & Ex & Hm & _).
  simpl in Ex. rewrite E, result_bind_ok in Ex. injection Ex as <-.
  eexists. split; [by apply rtc_once|]. eapply sim_kept; [done | done | | exact (s_wire _ _ Hs) | done |].
  - rewrite Ec'. by intros ? [= <-].
  - by apply TCPConnection.written_connection_tick in E.
Qed.

Lemma sim_send h x y s' k' c : sim h x → sides x y → kept (sock h) s' (kernel h) k' → _tcp (sock h) = Some c →
  _tcp s' = Some (TCPConnection.set_segments_out c []) →
  ∃ x', rtc (moves y) x x' ∧ sim (mkHost s' k' (offered h ++ TCPConnection.segments_out c)) x'.
Proof.
  intros Hs Hxy Hk Ec Ec'. pose proof (s_conn _ _ Hs c Ec) as Hc.
  destruct (moves_sides x y Link.Send Hxy Logic.I) as (x' & [= <-] & Hm & _).
  eexists. split; [by apply rtc_once|]. eapply sim_kept; [done | done | | | done | done].
  - rewrite Ec', Hc. by intros ? [= <-].
  - simpl. by rewrite (s_wire _ _ Hs), Hc.
Qed.

(** A method of the connection that writes nothing to the outbound stream. *)
Lemma sim_conn s k w x s' c' : sim (mkHost s k w) x →
  TCPSender.written (TCPConnection._sender c') = TCPSender.written (TCPConnection._sender (Link.conn x)) →
  _tcp s' = Some c' → _thread_data s' = _thread_data s → _device s' = _device s →
  sim (mkHost s' k w) (Link.set_conn x c').
Proof.
  intros [] Hwr Ec Ht Hd. unfold thread_fd in *. simpl in *. constructor; simpl; unfold thread_fd; simpl; try done.
  - rewrite Ec. by intros ? [= <-].
  - by rewrite Ht.
  - by rewrite Hd.
  - by rewrite Hwr.
Qed.

Lemma sim_connect s k w x y c c' : sim (mkHost s k w) x → sides x y → _tcp s = Some c → TCPConnection.connect c = Ok c' →
  ∃ x', rtc (moves y) x x' ∧ sim (mkHost (set_tcp s (Some c')) k w) x'.
Proof.
  intros Hs Hxy Ec E. rewrite <- (s_conn _ _ Hs c Ec) in E.
  destruct (moves_sides x y Link.Connect Hxy Logic.I) as (x' & Ex & Hm & _).
  simpl in Ex. rewrite E, result_bind_ok in Ex. injection Ex as <-. eexists. split; [by apply rtc_once|].
  destruct Hxy as [Hx _]. destruct Hme as [Hsz _ _ _ _]. destruct Hother as [Hsz' _ _ _ _]. simpl Link.size in *.
  destruct (TCPConnection.connect_spec _ (Link.size other) _ _ (len F) _ ltac:(lia) ltac:(lia) _ _
    (Link.h_conn _ _ _ _ _ _ _ _ Hx)) as (c2 & E' & _ & _ & _ & Hwr). rewrite E in E'. injection E' as <-.
  by apply (sim_conn s).
Qed.

(** The end of the stream, when all of [F] has been written. *)
Lemma sim_end s k w x y : sim (mkHost s k w) x → sides x y →
  TCPSender.written (TCPConnection._sender (Link.conn x)) = len F → ∀ c' s',
  TCPConnection.end_input_stream (Link.conn x) = Ok c' → _tcp s' = Some c' →
  _thread_data s' = _thread_data s → _device s' = _device s →
  ∃ x', rtc (moves y) x x' ∧ sim (mkHost s' k w) x'.
Proof.
  intros Hs Hxy Hw c' s' E Ec Ht Hd. destruct (moves_sides x y Link.End Hxy Hw) as (x' & Ex & Hm & _).
  simpl in Ex. rewrite E, result_bind_ok in Ex. injection Ex as <-. eexists. split; [by apply rtc_once|].
  destruct Hxy as [Hx _]. destruct Hme as [Hsz _ _ _ _]. destruct Hother as [Hsz' _ _ _ _]. simpl Link.size in *.
  destruct (TCPConnection.end_input_stream_spec _ (Link.size other) _ _ (len F) _ ltac:(lia) ltac:(lia) _ _
    (Link.h_conn _ _ _ _ _ _ _ _ Hx) Hw) as (c2 & E' & _ & _ & _ & Hwr). rewrite E in E'. injection E' as <-.
  by apply (sim_conn s).
Qed.

(** Rule 2: what was read is the next part of [F]. *)
Lemma sim_rule2 s k w x y s' k' : sim (mkHost s k w) x → sides x y → rule2_callback s k = Ok (s', k') →
  received k' thr `prefix_of` F → (_outbound_shutdown s' = true → received k' thr = F) →
  ∃ x', rtc (moves y) x x' ∧ sim (mkHost s' k' w) x'.
Proof.
  intros Hs Hxy E Hpre Hend. destruct (sides_streams x y Hxy) as [Hok Hwr].
  pose proof (rule2_effect _ _ _ _ E) as [Hdev _]. apply rule2_inv in E as (c & c1 & f & d & Ec & Er & Ew & Hf & Hrest).
  pose proof (s_conn _ _ Hs c Ec) as Hc. destruct Hs. simpl in *. unfold thread_fd in *. simpl in *.
  apply FileDescriptor.read_spec in Er as (Ef & _ & Hr & Hsent);
    [|rewrite <- Hc; apply Pump.remaining_capacity_wf, Hok].
  rewrite s_fd0 in *. rewrite Hr, upd_eq, s_in0 in Hpre, Hend. set (n := TCPSender.written _) in *.
  assert (d = ztake (len d) (zdrop n F) ∧ n + len d <= len F) as [Hd Hle].
  { destruct Hpre as [z Hz]. rewrite <- (ztake_zdrop n F) in Hz at 1. rewrite <- app_assoc in Hz. apply app_inv_head in Hz.
    split; [rewrite Hz; symmetry; apply ztake_app|]. pose proof (len_zdrop n F ltac:(lia)) as El. rewrite Hz, len_app in El.
    pose proof (len_nonneg z). lia. }
  pose proof (len_nonneg d).
  destruct (moves_sides x y (Link.Write (len d)) Hxy) as (x1 & Ex & Hm & Hxy1); [simpl; fold n; lia|].
  cbn [Link.act] in Ex. fold n in Ex. rewrite (slice_nth x00 F), <- Hd, Hc, Ew, result_bind_ok in Ex by lia.
  injection Ex as <-.
  assert (TCPSender.written (TCPConnection._sender c1) = n + len d) as Hw1.
  { destruct Hxy as [Hx _]. destruct Hme as [Hsz _ _ _ _]. destruct Hother as [Hsz' _ _ _ _]. simpl Link.size in *.
    destruct (TCPConnection.connection_write_spec _ (Link.size other) _ _ (len F) _ ltac:(lia) ltac:(lia) _ _ (len d)
      (Link.h_conn _ _ _ _ _ _ _ _ Hx)) as (c' & ret & E' & _ & _ & _ & _ & Hret); [lia | simpl; fold n; lia |].
    simpl in E'. fold n in E'. rewrite (slice_nth x00 F), <- Hd, Hc, Ew in E' by lia. injection E' as <- <-. exact Hret. }
  assert (sim (mkHost (set_tcp (set_thread_data s f) (Some c1)) k' w) (Link.set_conn x c1)) as Hs1.
  { constructor; simpl; unfold thread_fd; simpl; try done.
    - by intros ? [= <-].
    - rewrite Ef. unfold FileDescriptor.after_read. by destruct (_ && _).
    - rewrite Hr, upd_eq, s_in0, Hw1. rewrite Hd at 1. unfold ztake, zdrop.
      rewrite (Z2Nat.inj_add n (len d)) by lia. apply take_take_drop.
    - by rewrite Hsent, s_out0. }
  destruct (FileDescriptor.eof f).
  - destruct Hrest as (c2 & Ee & Ec2 & Hshut). specialize (Hend Hshut).
    assert (TCPSender.written (TCPConnection._sender c1) = len F) as Hall.
    { apply (f_equal len) in Hend. rewrite len_app, len_ztake in Hend by lia. rewrite Hw1. lia. }
    destruct (sim_end _ _ _ _ _ Hs1 Hxy1 Hall c2 s' Ee Ec2) as (x' & Hmv & Hs2); [done | done |].
    exists x'. split; [by eapply rtc_l | done].
  - exists (Link.set_conn x c1). split; [by apply rtc_once|].
    destruct Hs1. constructor; simpl in *; unfold thread_fd in *; simpl in *; try done.
    + rewrite Hrest. by intros ? [= <-].
    + by rewrite Hf.
    + by rewrite Hdev.
Qed.

(** Rule 3: what was written is read from the inbound stream. *)
Lemma sim_rule3 s k w x y s' k' : sim (mkHost s k w) x → sides x y → rule3_callback s k = Ok (s', k') →
  ∃ x', rtc (moves y) x x' ∧ sim (mkHost s' k' w) x'.
Proof.
  intros Hs Hxy E. destruct (sides_streams x y Hxy) as [Hok _].
  assert (∃ c, _tcp s = Some c) as (c & Ec).
  { unfold rule3_callback, tcp in E. destruct (_tcp s); [by eexists | done]. }
  pose proof (s_conn _ _ Hs c Ec) as Hc. rewrite Hc in Hok. destruct Hok as (_ & Hw & Hcap).
  destruct (rule3_effect s k s' k' c Ec E) as (Edev & _ & f & b & k1 & Ed & Ec' & Hfd & Hr1 & Hs1).
  pose proof (Pump.drain_spec 65536 _ _ _ _ _ _ Hw Hcap ltac:(lia) Ed) as (d & -> & _ & _ & Hcont & Hsent & Hrec).
  destruct Hs. simpl in *. unfold thread_fd in *. simpl in *. rewrite s_fd0 in *.
  destruct (moves_sides x y (Link.Read (len d)) Hxy (len_nonneg d)) as (x' & Ex & Hm & _).
  cbn [Link.act] in Ex. unfold TCPConnection.read in Ex. rewrite Hc in Ex.
  rewrite (Pump.drain_reads 65536 (_thread_data s) _ k _ b k1 d Hw Hcap) in Ex by done.
  rewrite !result_bind_ok in Ex. injection Ex as <-. eexists. split; [by apply rtc_once|].
  constructor; simpl; unfold thread_fd; simpl; try done.
  - rewrite Ec'. by intros ? [= <-].
  - by rewrite Edev.
  - by rewrite Hr1, Hrec, s_in0, Hc.
  - by rewrite Hs1, Hsent, upd_eq, s_out0.
Qed.

(** Rule 2 is cancelled, by the end of the descriptor or a hang-up. *)
Lemma sim_cancel2 s k w x y s' k' : sim (mkHost s k w) x → sides x y → rule2_cancel s k = Ok (s', k') →
  received k' thr = F → ∃ x', rtc (moves y) x x' ∧ sim (mkHost s' k' w) x'.
Proof.
  intros Hs Hxy. unfold rule2_cancel, tcp. destruct (_tcp s) as [c|] eqn:Ec; [|done]. rewrite result_bind_ok.
  intros (c' & E & [= <- <-])%result_bind_inv HF. rewrite <- (s_conn _ _ Hs c Ec) in E.
  destruct (sides_streams x y Hxy) as [_ Hwr]. pose proof (s_in _ _ Hs) as Hin. simpl in Hin.
  rewrite HF in Hin. apply (f_equal len) in Hin. rewrite len_ztake in Hin by lia.
  by apply (sim_end s k w x y Hs Hxy ltac:(lia) c').
Qed.

Lemma sim_step h h' x y : sim h x → sides x y → thread_step (in_transit (Link.wire y)) h h' →
  received (kernel h') thr `prefix_of` F → (_outbound_shutdown (sock h') = true → received (kernel h') thr = F) →
  ∃ x', rtc (moves y) x x' ∧ sim h' x'.
Proof.
  intros Hs Hxy Hst Hpre Hend.
  destruct Hst as [s k w c c' Ec E|s k w s' k' Hd E|s k w s' k' _ E|s k w s' k' E|s k w s' k' E|s k w c s' k' Ec E
    |s k w base s' base' k' E|s k w s' k' E|s k w f k' Hu|s k w]; simpl in Hpre, Hend.
  - by eapply sim_connect.
  - apply (rule1_effect _ _ _ _ _ Hd) in E as (Hk & c & Ec & [Ec'|(seg & c' & Ha & E & Ec')]).
    + exists x. split; [done|]. eapply sim_kept; [done | done | | exact (s_wire _ _ Hs) | done | done].
      rewrite Ec'. intros ? [= <-]. exact (s_conn _ _ Hs c Ec).
    + exact (sim_deliver (mkHost s k w) x y s' k' seg c c' Hs Hxy Hk Ec Ha E Ec').
  - by eapply sim_rule2.
  - eapply sim_cancel2; [done | done | exact E|]. apply Hend.
    unfold rule2_cancel in E. by apply result_bind_inv in E as (? & _ & (? & _ & [= <- _])%result_bind_inv).
  - by eapply sim_rule3.
  - apply (rule4_effect _ _ _ _ _ Ec) in E as [Hk Ec']. exact (sim_send (mkHost s k w) x y s' k' c Hs Hxy Hk Ec Ec').
  - apply tick_effect in E as (Hk & c & Ec & [Ec'|(ms & c' & Hms & E & Ec')]).
    + exists x. split; [done|]. eapply sim_kept; [done | done | | exact (s_wire _ _ Hs) | done | done].
      rewrite Ec'. intros ? [= <-]. exact (s_conn _ _ Hs c Ec).
    + exact (sim_tick (mkHost s k w) x y s' k' ms c c' Hs Hxy Hk Ec Hms E Ec').
  - apply finish_effect in E as [Hk En]. exists x. split; [done|].
    eapply sim_kept; [done | done | by rewrite En | exact (s_wire _ _ Hs) | done | done].
  - exists x. split; [done|]. destruct Hs. simpl in *. unfold thread_fd in *. simpl in *. rewrite s_fd0 in Hu. destruct Hu as [Hr Ht].
    constructor; simpl; try done; [by rewrite Hr | by rewrite Ht].
  - exists x. split; [done|]. destruct Hs. by constructor.
Qed.

Lemma moves_rtc_sides x x' y : rtc (moves y) x x' → sides x y → sides x' y.
Proof.
  induction 1 as [|x x1 x' (op & Ha & E) _ IH]; [done|]. intros Hxy. apply IH.
  destruct (moves_sides x y op Hxy Ha) as (x2 & E' & _ & Hx2). rewrite E in E'. by injection E' as <-.
Qed.

End Simulation.

(** ** The two machines *)

Section Network.
Context {A I O K : Type} `{FdAdapter A I O} `{Device I O K} `{Address.Resolver} `{!StreamLedger K}.
Context `{!DeviceFrame K I O} `{!QuietKernel K}.

(** A step is one of either machine; a segment that arrives is one the other has offered: the network
    may lose, repeat and reorder. *)
Inductive net_step : host A K * host A K → host A K * host A K → Prop :=
| Left ha hb ha' : thread_step (in_transit (offered hb)) ha ha' → net_step (ha, hb) (ha', hb)
| Right ha hb hb' : thread_step (in_transit (offered ha)) hb hb' → net_step (ha, hb) (ha, hb').

(** The socket just after [_initialize_TCP], and a pair of stream sockets that nobody has used. *)
Record fresh (cfg : TCPConfig.t) (random : Z) (h : host A K) : Prop := {
  f_tcp : _tcp (sock h) = Some (TCPConnection.new cfg random);
  f_dev : FileDescriptor._fd (_device (sock h)) ≠ thread_fd h;
  f_offered : offered h = [];
  f_in : received (kernel h) (thread_fd h) = [];
  f_out : sent (kernel h) (thread_fd h) = [] }.

Record config_ok (cfg : TCPConfig.t) : Prop := {
  c_isn i : TCPConfig.fixed_isn cfg = Some i → WrappingInt32.valid i;
  c_recv : 0 < TCPConfig.recv_capacity cfg < max_string;
  c_send : 0 <= TCPConfig.send_capacity cfg < max_string;
  c_timeout : 0 <= TCPConfig.rt_timeout cfg < two16 }.

Definition isn_of (cfg : TCPConfig.t) (random : Z) : WrappingInt32.t :=
  match TCPConfig.fixed_isn cfg with Some i => i | None => WrappingInt32.mk (uint32 random) end.

Lemma me_ok F cfg random : config_ok cfg → len F < 2147483646 → Link.peer_ok (me F cfg random (isn_of cfg random)).
Proof.
  intros [] HF. pose proof (len_nonneg F). constructor; simpl; [done | | done | done | done]. split; [done|].
  unfold isn_of. destruct (TCPConfig.fixed_isn cfg) as [i|]; [by apply c_isn0 | apply uint32_range].
Qed.

Lemma fresh_sim F cfg random h : fresh cfg random h →
  sim F (thread_fd h) h (Link.start_endpoint (me F cfg random (isn_of cfg random))).
Proof.
  intros []. constructor; simpl; try done. intros c Ec. congruence.
Qed.

Lemma net_grows p q : rtc net_step p q → grows p.1 q.1 ∧ grows p.2 q.2.
Proof.
  induction 1 as [p|p p1 q Hst _ [IH1 IH2]]; [split; apply grows_refl|].
  destruct Hst as [ha hb ha' Hg%step_grows|ha hb hb' Hg%step_grows]; simpl in *; split; try done; by eapply grows_trans.
Qed.

(** What [grows] gives about a state of the run, when [F] is what has been read at its end. *)
Lemma grows_bound (h h' : host A K) thr : grows h h' → thread_fd h = thr → FileDescriptor._fd (_device (sock h)) ≠ thr →
  received (kernel h) thr `prefix_of` received (kernel h') thr ∧
  (_outbound_shutdown (sock h) = true → received (kernel h) thr = received (kernel h') thr).
Proof. intros [_ _ Hr Hs] <- Hne. split; [by apply Hr|]. intros [_ E]%Hs. symmetry. by apply E. Qed.

Section Run.
Context (FA FB : bytes) (cfgA cfgB : TCPConfig.t) (randomA randomB thrA thrB : Z).
Let pa := me FA cfgA randomA (isn_of cfgA randomA).
Let pb := me FB cfgB randomB (isn_of cfgB randomB).
Context (Hpa : Link.peer_ok pa) (Hpb : Link.peer_ok pb).

(** The two machines are the two ends of a link. *)
Record linked (p : host A K * host A K) (x : Link.t) : Prop := {
  l_a : sim FA thrA p.1 (Link.a x); l_b : sim FB thrB p.2 (Link.b x); l_inv : Link.link_inv pa pb x }.

Lemma run_linked p q : rtc net_step p q →
  received (kernel q.1) thrA = FA → received (kernel q.2) thrB = FB → ∀ x, linked p x → ∃ y, linked q y.
Proof.
  intros Hr HA HB. induction Hr as [p|p p1 q Hst Hrest IH]; [by eexists|].
  intros x [Ha Hb [Hxa Hxb]]. pose proof (net_grows _ _ Hrest) as [Ga Gb]. specialize (IH HA HB).
  destruct Hst as [ha hb ha' Hs|ha hb hb' Hs]; simpl in *.
  - pose proof (step_grows _ _ _ Hs) as [Gf Gd _ _].
    destruct (grows_bound ha' q.1 thrA Ga) as [B1 B2];
      [rewrite Gf; apply (s_fd _ _ _ _ Ha) | rewrite Gd; apply (s_dev _ _ _ _ Ha)|]. rewrite HA in B1, B2.
    rewrite <- (s_wire _ _ _ _ Hb) in Hs.
    destruct (sim_step FA cfgA randomA _ pb thrA Hpa Hpb ha ha' _ _ Ha (conj Hxa Hxb) Hs B1 B2) as (x' & Hm & Hs').
    destruct (moves_rtc_sides FA cfgA randomA _ pb Hpa Hpb _ _ _ Hm (conj Hxa Hxb)) as [Hi1 Hi2].
    apply (IH (Link.mkLink x' (Link.b x))). by constructor.
  - pose proof (step_grows _ _ _ Hs) as [Gf Gd _ _].
    destruct (grows_bound hb' q.2 thrB Gb) as [B1 B2];
      [rewrite Gf; apply (s_fd _ _ _ _ Hb) | rewrite Gd; apply (s_dev _ _ _ _ Hb)|]. rewrite HB in B1, B2.
    rewrite <- (s_wire _ _ _ _ Ha) in Hs.
    destruct (sim_step FB cfgB randomB _ pa thrB Hpb Hpa hb hb' _ _ Hb (conj Hxb Hxa) Hs B1 B2) as (x' & Hm & Hs').
    destruct (moves_rtc_sides FB cfgB randomB _ pa Hpb Hpa _ _ _ Hm (conj Hxb Hxa)) as [Hi1 Hi2].
    apply (IH (Link.mkLink (Link.a x) x')). by constructor.
Qed.

End Run.

(** What one end gives to its application is a prefix of what the other end has taken from its own, and all of it
    when the end of the stream has been seen. *)
Definition delivered (from to : host A K) : Prop :=
  sent (kernel to) (thread_fd to) `prefix_of` received (kernel from) (thread_fd from) ∧
  ∀ c, _tcp (sock to) = Some c → ByteStream.eof (TCPConnection.inbound_stream c) = true →
    sent (kernel to) (thread_fd to) = received (kernel from) (thread_fd from).

Lemma sides_delivered F cfg random isn G other x y (from to : host A K) :
  Link.peer_ok (me F cfg random isn) → Link.side_inv other (me F cfg random isn) y x →
  received (kernel from) (thread_fd from) = F → sim G (thread_fd to) to y → delivered from to.
Proof.
  intros Hp Hy HF []. destruct (Link.side_prefix _ _ _ _ Hp Hy) as (Hg & Hle & Hend). simpl in Hg, Hle, Hend.
  rewrite (slice_nth x00 F), <- s_out0 in Hg by lia. change (zdrop 0 F) with F in Hg. split.
  - rewrite HF. exists (ByteStream.contents (TCPConnection.inbound_stream (Link.conn y)) ++ zdrop (Link.assembled y) F).
    by rewrite app_assoc, Hg, ztake_zdrop.
  - intros c Ec%s_conn0. rewrite <- Ec. intros [He Hz%Z.eqb_eq]%andb_true_iff. rewrite HF, (Hend He) in *.
    rewrite ztake_ge in Hg by lia. rewrite <- Hg.
    destruct (TCPConnection.i_receiver _ _ _ _ _ _ _ _ (Link.h_conn _ _ _ _ _ _ _ _ Hy)) as [[[] _ _ _] _ _ _].
    rewrite (len_0_nil (ByteStream.contents _)); [by rewrite app_nil_r|].
    rewrite ByteStream.len_contents; [exact Hz | exact so_out].
Qed.

Lemma network_delivers cfgA cfgB randomA randomB (ha hb fa fb : host A K) :
  config_ok cfgA → config_ok cfgB → fresh cfgA randomA ha → fresh cfgB randomB hb → rtc net_step (ha, hb) (fa, fb) →
  len (received (kernel fa) (thread_fd fa)) < 2147483646 → len (received (kernel fb) (thread_fd fb)) < 2147483646 →
  delivered fa fb ∧ delivered fb fa.
Proof.
  intros HcA HcB HfA HfB Hrun HlA HlB. pose proof (net_grows _ _ Hrun) as [[Ga _ _ _] [Gb _ _ _]]. simpl in Ga, Gb.
  pose proof (me_ok _ cfgA randomA HcA HlA) as Hpa. pose proof (me_ok _ cfgB randomB HcB HlB) as Hpb.
  set (FA := received (kernel fa) (thread_fd fa)) in *. set (FB := received (kernel fb) (thread_fd fb)) in *.
  pose proof (fresh_sim FA _ _ _ HfA) as Sa. pose proof (fresh_sim FB _ _ _ HfB) as Sb. rewrite <- Ga in Sa. rewrite <- Gb in Sb.
  set (pa := me FA cfgA randomA _) in *. set (pb := me FB cfgB randomB _) in *.
  destruct (run_linked FA FB cfgA cfgB randomA randomB _ _ Hpa Hpb _ _ Hrun eq_refl eq_refl (Link.start pa pb))
    as (y & [Ya Yb [Ia Ib]]); [constructor; [exact Sa | exact Sb | split; by apply Link.side_start]|].
  split; [exact (sides_delivered _ _ _ _ _ _ _ _ _ _ Hpa Ib eq_refl Yb) | exact (sides_delivered _ _ _ _ _ _ _ _ _ _ Hpb Ia eq_refl Ya)].
Qed.

(** The two ends of [socketpair]: what comes out at one end was put in at the other, in order. *)
Definition socket_pair (k : K) (i j : Z) : Prop :=
  received k i `prefix_of` sent k j ∧ received k j `prefix_of` sent k i.

(** C3: From application to application: take two machines, each with an application and the
    thread of its socket, and let them run in any interleaving from two fresh sockets, over a network
    that loses, repeats and reorders segments, with any ticks, cancellations,
    hang-ups, aborts and ends of threads in between.  What an
    application reads from its socket is a prefix of what the other has written to its own; and when a connection
    has seen the end of the stream, its thread has passed on everything that
    the other thread has taken from its application. *)
Theorem applications_agree (cfgA cfgB : TCPConfig.t) (randomA randomB ownA ownB : Z) (ha hb fa fb : host A K) :
  config_ok cfgA → config_ok cfgB → fresh cfgA randomA ha → fresh cfgB randomB hb →
  rtc net_step (ha, hb) (fa, fb) →
  len (received (kernel fa) (thread_fd fa)) < 2147483646 → len (received (kernel fb) (thread_fd fb)) < 2147483646 →
  socket_pair (kernel fa) ownA (thread_fd fa) → socket_pair (kernel fb) ownB (thread_fd fb) →
  received (kernel fb) ownB `prefix_of` sent (kernel fa) ownA ∧
  received (kernel fa) ownA `prefix_of` sent (kernel fb) ownB ∧
  delivered fa fb ∧ delivered fb fa.
Proof.
  intros HcA HcB HfA HfB Hrun HlA HlB [PA1 PA2] [PB1 PB2].
  destruct (network_delivers cfgA cfgB randomA randomB ha hb fa fb) as [[Dab Eab] [Dba Eba]]; [done..|].
  split; [|split; [|done]].
  - etrans; [exact PB1|]. etrans; [exact Dab | exact PA2].
  - etrans; [exact PA1|]. etrans; [exact Dba | exact PB2].
Qed.

End Network.

End SocketLink.

(** ** Two machines with a TUN device each *)

Module TwoMachines.
Import DottedQuad SocketLink TCPSpongeSocket.

#[global] Instance machine_quiet : QuietKernel Machine.t.
Proof.
  constructor.
  - by intros k k' t [= <- _].
  - intros k fd n flags k' r d a [= <- _ _ _] i Hi. split; simpl; [by rewrite upd_ne | done].
  - intros k fd a iov k' r [= <- _] i Hi. split; simpl; [done | by rewrite upd_ne].
Qed.

Definition machine := host TCPOverIPv4OverTunFdAdapter.t Machine.t.

(** What may happen to a machine: a callback, datagrams that reach its device (descriptor 7), an application
    (descriptor 4) that takes what is there for it. *)
Inductive event := Open | Callback (rule : nat) | Arrival (datagram : bytes) | Take.

(** [seg'] is [seg] with ports and a checksum. *)
Definition carries (seg seg' : TCPSegment.t) : bool :=
  let h := TCPSegment.header seg' in
  bool_decide (h = TCPHeader.set_cksum (TCPHeader.set_dport (TCPHeader.set_sport (TCPSegment.header seg)
    (TCPHeader.sport h)) (TCPHeader.dport h)) (TCPHeader.cksum h)) &&
  bool_decide (Buffer.str (TCPSegment.payload seg') = Buffer.str (TCPSegment.payload seg)).

Lemma carries_carried seg seg' : carries seg seg' = true → carried seg seg'.
Proof. intros [E1%bool_decide_eq_true E2%bool_decide_eq_true]%andb_true_iff. split; [|done]. do 3 eexists. exact E1. Qed.

Definition genuine (wire : list TCPSegment.t) (s : t TCPOverIPv4OverTunFdAdapter.t) (k : Machine.t) : bool :=
  match device_read (_device s) k with
  | Ok (_, _, i) =>
      match adapters.read (_datagram_adapter s) i with
      | Ok (_, _, Some seg') => existsb (λ seg, carries seg seg') wire
      | _ => true
      end
  | _ => true
  end.

Lemma genuine_delivers wire s k : genuine wire s k = true → delivers (in_transit wire) s k.
Proof.
  unfold genuine. intros Hg f k1 i a outs seg E1 E2. rewrite E1 in Hg. rewrite E2 in Hg.
  apply existsb_exists in Hg as (x & Hin & Hc). exists x. split; [by apply list_elem_of_In | by apply carries_carried].
Qed.

Definition happen (wire : list TCPSegment.t) (h : machine) (e : event) : option machine :=
  let '(mkHost s k w) := h in
  let return_ w r := match r with Ok (s, k) => Some (mkHost s k w) | Throw _ => None end in
  match e with
  | Open =>
      match _tcp s with
      | Some c => match TCPConnection.connect c with Ok c => Some (mkHost (set_tcp s (Some c)) k w) | Throw _ => None end
      | None => None
      end
  | Callback 1 => if genuine wire s k then return_ w (rule1_callback s k) else None
  | Callback 2 => if _outbound_shutdown s then None else return_ w (rule2_callback s k)
  | Callback 3 => return_ w (rule3_callback s k)
  | Callback _ => match _tcp s with Some c => return_ (w ++ TCPConnection.segments_out c) (rule4_callback s k) | None => None end
  | Arrival d =>
      if FileDescriptor._fd (_thread_data s) =? 5 then
        Some (mkHost (set_socket s (_socket s))
          (Machine.mk (upd (Machine.inbox k) 7 d) (Machine.got k) (Machine.put k) (Machine.chunk k) (Machine.clock k)) w)
      else None
  | Take =>
      if FileDescriptor._fd (_thread_data s) =? 5 then
        Some (mkHost (set_socket s (_socket s))
          (Machine.mk (Machine.inbox k) (upd (Machine.got k) 4 (Machine.put k 5)) (Machine.put k) (Machine.chunk k) (Machine.clock k)) w)
      else None
  end.

Lemma happen_step wire h e h' : happen wire h e = Some h' → thread_step (in_transit wire) h h'.
Proof.
  destruct h as [s k w]. unfold happen. destruct e as [|[|[|[|[|n]]]]|d|].
  - destruct (_tcp s) as [c|] eqn:Ec; [|done]. destruct (TCPConnection.connect c) as [c'|] eqn:E; [|done].
    intros [= <-]. by eapply Connect.
  - destruct (_tcp s) as [c|] eqn:Ec; [|done]. destruct (rule4_callback s k) as [[s' k']|] eqn:E; [|done].
    intros [= <-]. by eapply Rule4.
  - destruct (genuine wire s k) eqn:Hg; [|done]. destruct (rule1_callback s k) as [[s' k']|] eqn:E; [|done].
    intros [= <-]. by eapply Rule1; [apply genuine_delivers|].
  - destruct (_outbound_shutdown s) eqn:Hs; [done|]. destruct (rule2_callback s k) as [[s' k']|] eqn:E; [|done].
    intros [= <-]. by eapply Rule2.
  - destruct (rule3_callback s k) as [[s' k']|] eqn:E; [|done]. intros [= <-]. by eapply Rule3.
  - destruct (_tcp s) as [c|] eqn:Ec; [|done]. destruct (rule4_callback s k) as [[s' k']|] eqn:E; [|done].
    intros [= <-]. by eapply Rule4.
  - destruct (Z.eqb_spec (FileDescriptor._fd (_thread_data s)) 5) as [Hf|]; [|done]. intros [= <-].
    apply World. by rewrite Hf.
  - destruct (Z.eqb_spec (FileDescriptor._fd (_thread_data s)) 5) as [Hf|]; [|done]. intros [= <-].
    apply World. rewrite Hf. split; [|done]. simpl. by rewrite upd_ne.
Qed.

(** What the other machine has put on its device since byte [n] arrives. *)
Definition arrival (n : Z) (h : machine) : event := Arrival (zdrop n (Machine.put (kernel h) 7)).

Fixpoint play (script : list (bool * (Z + event))) (p : machine * machine) : option (machine * machine) :=
  match script with
  | [] => Some p
  | (one, e) :: script =>
      let '(ha, hb) := p in
      let '(me, peer) := if one : bool then (ha, hb) else (hb, ha) in
      match happen (offered peer) me (match e with inl n => arrival n peer | inr e => e end) with
      | Some me => play script (if one then (me, peer) else (peer, me))
      | None => None
      end
  end.

Lemma script_steps script : ∀ p q, play script p = Some q → rtc net_step p q.
Proof.
  induction script as [|[one e] script IH]; intros [ha hb] q; simpl; [by intros [= <-]|].
  destruct one; destruct (happen _ _ _) as [h|] eqn:E; try done; intros Hr%IH; apply happen_step in E;
    (eapply rtc_l; [|exact Hr]); by constructor.
Qed.

Definition socket (a : FdAdapterBase.t) (isn : Z) : t TCPOverIPv4OverTunFdAdapter.t :=
  mk (TunSocket.fd 4) (TunSocket.fd 5) (TunSocket.fd 7) a
    (Some (TCPConnection.new (TCPConfig.mk 100 8 4 (Some (WrappingInt32.mk isn))) 0)) false false false false false.

(** The first application has written three bytes. *)
Definition one : machine := mkHost (socket Hosts.client 7)
  (Machine.mk (λ n, if n =? 5 then [x61; x62; x63] else []) (λ _, []) (λ n, if n =? 4 then [x61; x62; x63] else []) 2 0) [].
Definition two : machine := mkHost (socket Hosts.server 9) (Machine.new (λ _, []) 2) [].

Definition script : list (bool * (Z + event)) :=
  [(true, inr Open); (true, inr (Callback 4));
   (false, inl 0); (false, inr (Callback 1)); (false, inr (Callback 4));
   (true, inl 0); (true, inr (Callback 1)); (true, inr (Callback 4));
   (true, inr (Callback 2)); (true, inr (Callback 4));
   (false, inl 80); (false, inr (Callback 1)); (false, inr (Callback 3)); (false, inr (Callback 3)); (false, inr Take)].

Definition final : machine * machine := default (one, two) (play script (one, two)).

(** What has been sent and received on the descriptors of a machine. *)
Definition view (h : machine) : Z * (bytes * bytes) * (bytes * bytes) :=
  (thread_fd h, (received (kernel h) 4, sent (kernel h) 4), (received (kernel h) 5, sent (kernel h) 5)).

Lemma view_inv h fd a b c d : view h = (fd, (a, b), (c, d)) →
  thread_fd h = fd ∧ received (kernel h) 4 = a ∧ sent (kernel h) 4 = b ∧ received (kernel h) 5 = c ∧ sent (kernel h) 5 = d.
Proof. unfold view. intros E. by injection E. Qed.

Lemma script_result : prod_map view view <$> play script (one, two)
  = Some ((5, ([], text "abc"), (text "abc", [])), (5, (text "abc", []), ([], text "abc"))).
Proof. vm_compute. reflexivity. Qed.

Lemma final_facts : play script (one, two) = Some final ∧
  view final.1 = (5, ([], text "abc"), (text "abc", [])) ∧ view final.2 = (5, (text "abc", []), ([], text "abc")).
Proof.
  pose proof script_result as E. unfold final. destruct (play script (one, two)) as [[ha hb]|]; [|discriminate E].
  cbn [fmap option_fmap option_map prod_map fst snd default] in *. apply (inj Some) in E.
  split; [done|]. split; [exact (f_equal fst E) | exact (f_equal snd E)].
Qed.

Lemma socket_fresh a isn k : Machine.got k 5 = [] → Machine.put k 5 = [] →
  fresh (TCPConfig.mk 100 8 4 (Some (WrappingInt32.mk isn))) 0 (mkHost (socket a isn) k []).
Proof. by constructor. Qed.

Lemma small_ok isn : 0 <= isn < 4294967296 → config_ok (TCPConfig.mk 100 8 4 (Some (WrappingInt32.mk isn))).
Proof. intros Hi. constructor; simpl; [by intros ? [= <-] | lia..]. Qed.

(** The conditions on what was received hold of every pair of machines with these views. *)
Lemma view_conditions h (a b c d : bytes) : view h = (5, (a, b), (c, d)) → len c < 2147483646 → a `prefix_of` d → c `prefix_of` b →
  len (received (kernel h) (thread_fd h)) < 2147483646 ∧ socket_pair (kernel h) 4 (thread_fd h).
Proof.
  intros V Hl Ha Hc. destruct (view_inv _ _ _ _ _ _ V) as (-> & R & S & Rt & St). unfold socket_pair.
  by rewrite Rt, R, S, St.
Qed.

Lemma final_run : rtc net_step (one, two) (final.1, final.2).
Proof. rewrite <- surjective_pairing. exact (script_steps script _ _ (proj1 final_facts)). Qed.

Lemma final_one : len (received (kernel final.1) (thread_fd final.1)) < 2147483646 ∧ socket_pair (kernel final.1) 4 (thread_fd final.1).
Proof. apply (view_conditions final.1 _ _ _ _ (proj1 (proj2 final_facts))); [done | by exists [] | by exists []]. Qed.

Lemma final_two : len (received (kernel final.2) (thread_fd final.2)) < 2147483646 ∧ socket_pair (kernel final.2) 4 (thread_fd final.2).
Proof. apply (view_conditions final.2 _ _ _ _ (proj2 (proj2 final_facts))); [done | by exists [] | by exists []]. Qed.

Lemma final_read : received (kernel final.2) 4 = text "abc".
Proof. exact (proj1 (proj2 (view_inv final.2 _ _ _ _ _ (proj2 (proj2 final_facts))))). Qed.

Lemma applications_agree_witness :
  received (kernel final.2) 4 = text "abc" ∧
  received (kernel final.2) 4 `prefix_of` sent (kernel final.1) 4 ∧
  received (kernel final.1) 4 `prefix_of` sent (kernel final.2) 4 ∧
  delivered final.1 final.2 ∧ delivered final.2 final.1.
Proof.
  split; [exact final_read|].
  exact (applications_agree (TCPConfig.mk 100 8 4 (Some (WrappingInt32.mk 7))) (TCPConfig.mk 100 8 4 (Some (WrappingInt32.mk 9)))
    0 0 4 4 one two final.1 final.2 (small_ok 7 ltac:(lia)) (small_ok 9 ltac:(lia))
    (socket_fresh Hosts.client 7 (kernel one) eq_refl eq_refl) (socket_fresh Hosts.server 9 (kernel two) eq_refl eq_refl)
    final_run (proj1 final_one) (proj1 final_two) (proj2 final_one) (proj2 final_two)).
Defined.

End TwoMachines.
