(* ===== verification/lab7.v ===== *)
(** * The end-to-end program (src/lab/apps/lab7.cc)

    A host and a router in one process, with the "Internet" behind a UDP socket:
    [TCPSocketLab7] runs a [TCPSpongeSocket] over a [NetworkInterfaceAdapter]; a second
    thread moves Ethernet frames between the adapter's descriptor, the router and the
    UDP socket, which leads through the bouncer to the other side.  The two threads
    share nothing but descriptors, so each is a state of its own here.  The lines of debugging
    on [cerr] are left out; the texts of addresses, which can throw, are not.  [program_body] and [main],
    which join the threads, are in programs.

    The theorems: the routes send every address where the program means it to
    go, and a TCP segment written by one host's adapter crosses both routers and is
    read by the other host's adapter. *)

From stdpp Require Import strings gmap.
From S2P Require Import Prelude buffer parser system file_descriptor eventloop tcp_header tcp_segment ipv4 ethernet address socket.
From S2P Require Import tcp_config network_interface router network_simulator adapters tcp_sponge_socket.

(** ** The adapter *)

(** The class repeats [TCPOverIPv4OverEthernetAdapter] with a socket pair for a device; unlike
    it, the constructor writes no frame. *)
Module NetworkInterfaceAdapter.

Section Adapter.
Context `{Address.Resolver}.

Definition t : Type := TCPOverIPv4OverEthernetAdapter.t.

Definition send_pending (a : t) : t * list BufferList.t := TCPOverIPv4OverEthernetAdapter.send_pending a.
Definition new (cfg : FdAdapterConfig.t) (rd : nat → Z) (ip_address next_hop : Address.t) : t :=
  TCPOverIPv4OverEthernetAdapter.mk (FdAdapterBase.mk cfg false)
    (NetworkInterface.new (random_host_ethernet_address rd) ip_address) next_hop.
Definition read (a : t) (raw : bytes) : result (t * list BufferList.t * option TCPSegment.t) :=
  TCPOverIPv4OverEthernetAdapter.read a raw.
Definition write (a : t) (seg : TCPSegment.t) : result (t * list BufferList.t * TCPSegment.t) :=
  TCPOverIPv4OverEthernetAdapter.write a seg.
Definition tick (a : t) (ms : Z) : result (t * list BufferList.t) := TCPOverIPv4OverEthernetAdapter.tick a ms.
Definition frames_out (a : t) : list EthernetFrame.t :=
  NetworkInterface.frames_out (TCPOverIPv4OverEthernetAdapter._interface a).

End Adapter.

End NetworkInterfaceAdapter.

(** ** The socket *)

Module TCPSocketLab7.

Section Socket.
Context `{Address.Resolver} {K : Type} `{Kernel K}.

Record t := mk {
  base : TCPSpongeSocket.t NetworkInterfaceAdapter.t;
  _local_address : Address.t
}.

(** The socket, and the other end of the adapter's socket pair. *)
Definition new (rd : nat → Z) (ip_address next_hop : Address.t) (k : K) : result (t * FileDescriptor.t * K) :=
  cfg ← FdAdapterConfig.new;
  '(first, second, k) ← TCPSpongeSocket.socket_pair_helper SOCK_DGRAM k;
  '(s, k) ← TCPSpongeSocket.new first (NetworkInterfaceAdapter.new cfg rd ip_address next_hop) k;
  Ok (mk s ip_address, second, k).

(** [random_port] and [random_isn] are drawn from [random_device]. *)
Definition connect (aborts : list bool) (s : t) (rules : list (EventLoop.Rule K _)) (address : Address.t)
  (random_port random_isn : Z) (k : K) : result (bool * list (EventLoop.Rule K _) * t * K) :=
  cfg ← FdAdapterConfig.new;
  ip ← Address.ip (_local_address s);
  local ← Address.of_ip_port ip (uint16 random_port);
  _ ← Address.show local;
  let cfg := FdAdapterConfig.set_destination (FdAdapterConfig.set_source cfg local) address in
  '(ended, rules, b, k) ← TCPSpongeSocket.connect aborts (base s) rules TCPConfig.new cfg random_isn k;
  Ok (ended : bool, rules, mk b local, k).

Definition bind (s : t) (address : Address.t) : result t :=
  i ← Address.ip address;
  l ← Address.ip (_local_address s);
  if negb (bool_decide (i = l)) then _ ← Address.show address; Throw runtime_error
  else
    p ← Address.port address;
    local ← Address.of_ip_port l p;
    Ok (mk (base s) local).

Definition listen_and_accept (aborts : list bool) (s : t) (rules : list (EventLoop.Rule K _)) (random_isn : Z) (k : K)
  : result (bool * list (EventLoop.Rule K _) * t * K) :=
  cfg ← FdAdapterConfig.new;
  let cfg := FdAdapterConfig.set_source cfg (_local_address s) in
  '(ended, rules, b, k) ← TCPSpongeSocket.listen_and_accept aborts (base s) rules TCPConfig.new cfg random_isn k;
  Ok (ended : bool, rules, mk b (_local_address s), k).

End Socket.

End TCPSocketLab7.

(** ** The program *)

Module Lab7.

(** What the network thread works on. *)
Record t := mk {
  router : Router.t;
  host_side : Z;
  internet_side : Z;
  frame_fd : FileDescriptor.t;
  internet_socket : FileDescriptor.t;
  bounce_address : Address.t
}.

Definition set_router (s : t) (r : Router.t) : t :=
  mk r (host_side s) (internet_side s) (frame_fd s) (internet_socket s) (bounce_address s).
Definition set_frame_fd (s : t) (f : FileDescriptor.t) : t :=
  mk (router s) (host_side s) (internet_side s) f (internet_socket s) (bounce_address s).
Definition set_internet_socket (s : t) (f : FileDescriptor.t) : t :=
  mk (router s) (host_side s) (internet_side s) (frame_fd s) f (bounce_address s).

Section Setup.
Context `{Address.Resolver} (wide_shift : Z → Z → result Z).

Definition address (s : string) : result Address.t := Address.of_ip_port (text s) 0.

(** [router.add_interface({random_router_ethernet_address(), {str}})], into an [unsigned int]. *)
Definition add_interface (r : Router.t) (rd : nat → Z) (s : string) : result (Router.t * Z) :=
  a ← address s;
  let '(r, id) := Router.add_interface r
    (AsyncNetworkInterface.of_interface (NetworkInterface.new (random_router_ethernet_address rd) a)) in
  Ok (r, uint32 id).

(** [router.add_route(Address{str}.ipv4_numeric(), ...)]. *)
Definition add_route (r : Router.t) (prefix : string) (prefix_length : Z) (next_hop : option Address.t) (id : Z)
  : result Router.t :=
  a ← address prefix; p ← Address.ipv4_numeric a; Router.add_route wide_shift r p prefix_length next_hop id.

(** The router with its two sides.  [rd] gives the random bytes, six for each address. *)
Definition router_setup (is_client : bool) (rd : nat → Z) : result (Router.t * Z * Z) :=
  if is_client then
    '(r, host_side) ← add_interface Router.new rd "192.168.0.1";
    '(r, internet_side) ← add_interface r (Network.after rd 6) "10.0.0.192";
    r ← add_route r "192.168.0.0" 16 None host_side;
    r ← add_route r "10.0.0.0" 8 None internet_side;
    hop ← address "10.0.0.172";
    r ← add_route r "172.16.0.0" 12 (Some hop) internet_side;
    Ok (r, host_side, internet_side)
  else
    '(r, host_side) ← add_interface Router.new rd "172.16.0.1";
    '(r, internet_side) ← add_interface r (Network.after rd 6) "10.0.0.172";
    r ← add_route r "172.16.0.0" 12 None host_side;
    r ← add_route r "10.0.0.0" 8 None internet_side;
    hop ← address "10.0.0.192";
    r ← add_route r "192.168.0.0" 16 (Some hop) internet_side;
    Ok (r, host_side, internet_side).

Context {K : Type} `{Kernel K}.

(** [program_body] up to the start of the thread. *)
Definition setup (is_client : bool) (bounce_host bounce_port : bytes) (rd : nat → Z) (k : K)
  : result (t * TCPSocketLab7.t * K) :=
  '(u, k) ← Socket.create Address.AF_INET SOCK_DGRAM k;
  bounce ← Address.of_host bounce_host bounce_port;
  '(u, k) ← UDPSocket.sendto u bounce [[]] k;
  '(u, k) ← UDPSocket.sendto u bounce [[]] k;
  '(u, k) ← UDPSocket.sendto u bounce [[]] k;
  '(r, host_side, internet_side) ← router_setup is_client rd;
  ip ← address (if is_client then "192.168.0.50" else "172.16.0.100");
  hop ← address (if is_client then "192.168.0.1" else "172.16.0.1");
  '(sock, frame_fd, k) ← TCPSocketLab7.new (Network.after rd 12) ip hop k;
  Ok (mk r host_side internet_side frame_fd u bounce, sock, k).

(** The main thread opens the connection: both sides name the server's address. *)
Definition open (is_client : bool) (aborts : list bool) (sock : TCPSocketLab7.t) (random_port random_isn : Z) (k : K)
  : result (bool * list (EventLoop.Rule K _) * TCPSocketLab7.t * K) :=
  a ← Address.of_ip_port (text "172.16.0.100") 1234;
  if is_client then TCPSocketLab7.connect aborts sock [] a random_port random_isn k
  else
    sock ← TCPSocketLab7.bind sock a;
    TCPSocketLab7.listen_and_accept aborts sock [] random_isn k.

End Setup.

Section Thread.
Context {K : Type} `{Kernel K}.

(** A frame that has arrived at a side of the router. *)
Definition receive (r : Router.t) (side : Z) (raw : bytes) : result Router.t :=
  '(frame, res) ← EthernetFrame.parse EthernetFrame.new (Buffer.of_string raw);
  if negb (bool_decide (res = NoError)) then Ok r
  else
    a ← Router.interface r side;
    a ← AsyncNetworkInterface.recv_frame a frame;
    Router.route (Router.set_interface r side a).

(** [f.front()] and [f.pop()] on the frames of a side. *)
Definition frames_of (r : Router.t) (side : Z) : result (list EthernetFrame.t) :=
  a ← Router.interface r side; Ok (Network.frames a).
Definition front_of (r : Router.t) (side : Z) : result EthernetFrame.t :=
  q ← frames_of r side; match q with f :: _ => Ok f | [] => Throw OutOfBounds end.
Definition pop_of (r : Router.t) (side : Z) : result Router.t :=
  a ← Router.interface r side; Ok (Router.set_interface r side (Network.set_frames a (tail (Network.frames a)))).

Definition host_to_router (s : t) (k : K) : result (t * K) :=
  '(f, k, raw) ← FileDescriptor.read (frame_fd s) SIZE_MAX k;
  r ← receive (router s) (host_side s) raw;
  Ok (set_router (set_frame_fd s f) r, k).

Definition router_to_host (s : t) (k : K) : result (t * K) :=
  front ← front_of (router s) (host_side s);
  '(f, k, _) ← FileDescriptor.write (frame_fd s) (BufferViewList.of_list (EthernetFrame.serialize front)) true k;
  r ← pop_of (router s) (host_side s);
  Ok (set_router (set_frame_fd s f) r, k).

Definition router_to_internet (s : t) (k : K) : result (t * K) :=
  front ← front_of (router s) (internet_side s);
  '(f, k) ← UDPSocket.sendto (internet_socket s) (bounce_address s)
              (BufferViewList.of_list (EthernetFrame.serialize front)) k;
  r ← pop_of (router s) (internet_side s);
  Ok (set_router (set_internet_socket s f) r, k).

Definition internet_to_router (s : t) (k : K) : result (t * K) :=
  '(f, k, raw) ← FileDescriptor.read (internet_socket s) SIZE_MAX k;
  r ← receive (router s) (internet_side s) raw;
  Ok (set_router (set_internet_socket s f) r, k).

(** The interest of the outgoing rules; the sides exist, so [interface] does not throw there. *)
Definition pending (side : t → Z) (s : t) : bool :=
  match frames_of (router s) (side s) with Ok (_ :: _) => true | _ => false end.

Definition no_cancel (s : t) (k : K) : result (t * K) := Ok (s, k).

Definition network_rules : list (EventLoop.Rule K t) :=
  [EventLoop.mkRule frame_fd EventLoop.In host_to_router (λ _, true) no_cancel;
   EventLoop.mkRule frame_fd EventLoop.Out router_to_host (pending host_side) no_cancel;
   EventLoop.mkRule internet_socket EventLoop.Out router_to_internet (pending internet_side) no_cancel;
   EventLoop.mkRule internet_socket EventLoop.In internet_to_router (λ _, true) no_cancel].

Definition tick_side (r : Router.t) (side ms : Z) : result Router.t :=
  a ← Router.interface r side; a ← AsyncNetworkInterface.tick a ms; Ok (Router.set_interface r side a).

(** The loop of the thread; [exits] are the values of [exit_flag] that it reads.  [true] in
    the answer when the loop has ended. *)
Fixpoint network_loop (exits : list bool) (rules : list (EventLoop.Rule K t)) (s : t) (k : K) : result (bool * t * K) :=
  match exits with
  | [] => Ok (false, s, k)
  | exit_flag :: exits =>
      '(res, rules, s, k) ← EventLoop.wait_next_event rules 50 s k;
      if bool_decide (res = EventLoop.Exit) then Ok (true, s, k)
      else
        r ← tick_side (router s) (host_side s) 50;
        r ← tick_side r (internet_side s) 50;
        let s := set_router s r in
        if exit_flag : bool then Ok (true, s, k) else network_loop exits rules s k
  end.

Definition network_thread (exits : list bool) (s : t) (k : K) : result (bool * t * K) := network_loop exits network_rules s k.

End Thread.

(** [main] up to the call of [program_body], for an [argc] that is not 0: [inl status] when the program leaves. *)
Definition arguments (argv : list bytes) : Z + (bool * bytes * bytes * bool) :=
  match argv with
  | [_; mode; host; port] | [_; mode; host; port; _] =>
      if negb (bool_decide (mode = text "client")) && negb (bool_decide (mode = text "server")) then inl 1
      else inr (bool_decide (mode = text "client"), host, port, bool_decide (length argv = 5%nat))
  | _ => inl 1
  end.

(** ** Where the routes lead *)

Section Routes.
Context `{Address.NumericResolver}.
(** [inet_ntoa] gives the dotted-decimal notation. *)
Hypothesis dotted_decimal : ∀ ip, 0 <= ip < two32 → Address.inet_ntoa ip = DottedQuad.print ip.

(** The addresses of the program. *)
Definition host_ip (is_client : bool) : Z := if is_client then 0xc0a80032 else 0xac100064.
Definition gateway_ip (is_client : bool) : Z := if is_client then 0xc0a80001 else 0xac100001.
Definition internet_ip (is_client : bool) : Z := if is_client then 0x0a0000c0 else 0x0a0000ac.

Definition routes (is_client : bool) : list Router.rule :=
  if is_client then
    [Router.Rule 0xc0a80000 16 (None, 0); Router.Rule 0x0a000000 8 (None, 1);
     Router.Rule 0xac100000 12 (Some (Address.of_ipv4 0x0a0000ac), 1)]
  else
    [Router.Rule 0xac100000 12 (None, 0); Router.Rule 0x0a000000 8 (None, 1);
     Router.Rule 0xc0a80000 16 (Some (Address.of_ipv4 0x0a0000c0), 1)].

(** Where the router of a side sends a datagram: to its host, over the Internet to
    the other router, to an address on the Internet itself, or nowhere. *)
Definition decision (is_client : bool) (dst : Z) : option Router.entry :=
  if dst / 2 ^ 16 =? 0xc0a8 then Some (if is_client then (None, 0) else (Some (Address.of_ipv4 0x0a0000c0), 1))
  else if dst / 2 ^ 20 =? 0xac1 then Some (if is_client then (Some (Address.of_ipv4 0x0a0000ac), 1) else (None, 0))
  else if dst / 2 ^ 24 =? 0x0a then Some (None, 1)
  else None.

Lemma best_decision is_client dst : Router.r_entry <$> Router.best (routes is_client) dst = decision is_client dst.
Proof.
  unfold Router.best, decision. destruct is_client; cbn [routes foldl]; unfold Router.better, Router.matches;
    cbn [Router.r_length Router.r_prefix]; rewrite !Z.shiftr_div_pow2 by lia;
    change (2 ^ (32 - Z.of_nat 16)) with 65536; change (2 ^ (32 - Z.of_nat 8)) with 16777216;
    change (2 ^ (32 - Z.of_nat 12)) with 1048576; change (2 ^ 16) with 65536; change (2 ^ 24) with 16777216;
    change (2 ^ 20) with 1048576;
    change (0xc0a80000 / 65536) with 0xc0a8; change (0x0a000000 / 16777216) with 10; change (0xac100000 / 1048576) with 0xac1;
    destruct (Z.eqb_spec (dst / 65536) 0xc0a8), (Z.eqb_spec (dst / 16777216) 10), (Z.eqb_spec (dst / 1048576) 0xac1);
    try done; exfalso; Z.to_euclidean_division_equations; lia.
Qed.

Lemma address_literal s ip : 0 <= ip < two32 → text s = DottedQuad.print ip → address s = Ok (Address.of_ipv4 ip).
Proof. intros Hip E. unfold address. rewrite E, <- dotted_decimal by done. by apply Address.of_ip_port_numeric. Qed.

Lemma add_interface_literal r rd s ip : 0 <= ip < two32 → text s = DottedQuad.print ip →
  add_interface r rd s
  = Ok (Router.mk (Router._interfaces r ++ [Network.fresh (random_router_ethernet_address rd) ip]) (Router.route_mps r),
        uint32 (uint64 (len (Router._interfaces r)))).
Proof.
  intros Hip E. unfold add_interface. rewrite (address_literal s ip), result_bind_ok by done.
  unfold Router.add_interface. rewrite len_app. do 4 f_equal. unfold len at 2. simpl. lia.
Qed.

Lemma add_route_literal wide r s ip n hop id rules : 0 <= ip < two32 → text s = DottedQuad.print ip → (0 < n <= 32)%nat →
  Router.answers rules (Router.route_mps r) →
  ∃ mps, add_route wide r s (Z.of_nat n) hop id = Ok (Router.mk (Router._interfaces r) mps) ∧
    Router.answers (rules ++ [Router.Rule ip n (hop, id)]) mps.
Proof.
  intros Hip E Hn Ha. unfold add_route.
  rewrite (address_literal s ip), result_bind_ok, Address.ipv4_numeric_of_ipv4, result_bind_ok by done.
  apply (Router.add_route_answers wide r rules (Router.Rule ip n (hop, id)) Ha).
  split; [done|]. split; [simpl; lia|]. simpl. lia.
Qed.

(** The router of a side, with fresh interfaces. *)
Definition sides (is_client : bool) (rd : nat → Z) : list AsyncNetworkInterface.t :=
  [Network.fresh (random_router_ethernet_address rd) (gateway_ip is_client);
   Network.fresh (random_router_ethernet_address (Network.after rd 6)) (internet_ip is_client)].

(** Both branches of the setup are of this shape. *)
Lemma setup_branch wide rd gateway internet near far hop ip1 ip2 ip3 ip4 ip5 (n m : nat) :
  Forall (λ ip, 0 <= ip < two32) [ip1; ip2; ip3; ip4; ip5] →
  text gateway = DottedQuad.print ip1 → text internet = DottedQuad.print ip2 → text near = DottedQuad.print ip3 →
  text far = DottedQuad.print ip4 → text hop = DottedQuad.print ip5 → (0 < n <= 32)%nat → (0 < m <= 32)%nat →
  let itfs := [Network.fresh (random_router_ethernet_address rd) ip1;
               Network.fresh (random_router_ethernet_address (Network.after rd 6)) ip2] in
  ∃ mps,
    ('(r, host_side) ← add_interface Router.new rd gateway;
     '(r, internet_side) ← add_interface r (Network.after rd 6) internet;
     r ← add_route wide r near (Z.of_nat n) None host_side;
     r ← add_route wide r "10.0.0.0" 8 None internet_side;
     hop ← address hop;
     r ← add_route wide r far (Z.of_nat m) (Some hop) internet_side;
     Ok (r, host_side, internet_side)) = Ok (Router.mk itfs mps, 0, 1) ∧
    Router.answers [Router.Rule ip3 n (None, 0); Router.Rule 0x0a000000 8 (None, 1);
                    Router.Rule ip4 m (Some (Address.of_ipv4 ip5), 1)] mps.
Proof.
  rewrite !Forall_cons. intros (H1 & H2 & H3 & H4 & H5 & _) E1 E2 E3 E4 E5 Hn Hm itfs.
  rewrite (add_interface_literal _ _ _ ip1), result_bind_ok by done. cbv beta iota.
  rewrite (add_interface_literal _ _ _ ip2), result_bind_ok by done. cbv beta iota.
  cbn [Router._interfaces Router.new app Router.route_mps]. fold itfs.
  change (uint32 (uint64 (len [_]))) with 1. change (uint32 (uint64 (len []))) with 0.
  destruct (add_route_literal wide (Router.mk itfs (replicate 33 ∅)) near ip3 n None 0 [] H3 E3 Hn Router.answers_new)
    as (m1 & -> & A1). rewrite result_bind_ok. cbn [Router._interfaces].
  destruct (add_route_literal wide (Router.mk itfs m1) "10.0.0.0" 0x0a000000 8 None 1 _ ltac:(done) eq_refl ltac:(lia) A1)
    as (m2 & R2 & A2). change (Z.of_nat 8) with 8 in R2. rewrite R2, result_bind_ok. cbn [Router._interfaces].
  rewrite (address_literal _ ip5), result_bind_ok by done.
  destruct (add_route_literal wide (Router.mk itfs m2) far ip4 m (Some (Address.of_ipv4 ip5)) 1 _ H4 E4 Hm A2)
    as (m3 & -> & A3). rewrite result_bind_ok. by exists m3.
Qed.

Lemma router_setup_spec wide is_client rd :
  ∃ mps, router_setup wide is_client rd = Ok (Router.mk (sides is_client rd) mps, 0, 1) ∧ Router.answers (routes is_client) mps.
Proof.
  destruct is_client.
  - apply (setup_branch wide rd "192.168.0.1" "10.0.0.192" "192.168.0.0" "172.16.0.0" "10.0.0.172" 0xc0a80001 0x0a0000c0
      0xc0a80000 0xac100000 0x0a0000ac 16 12); [repeat (constructor; [lia|]); constructor | done.. | lia | lia].
  - apply (setup_branch wide rd "172.16.0.1" "10.0.0.172" "172.16.0.0" "192.168.0.0" "10.0.0.192" 0xac100001 0x0a0000ac
      0xac100000 0xc0a80000 0x0a0000c0 12 16); [repeat (constructor; [lia|]); constructor | done.. | lia | lia].
Qed.

(** The routes of the program.  The setup of either side succeeds and gives a router
    with an interface to its host and one to the Internet; for every destination, the
    router's table answers with the near host, with the other router as the
    next hop, with the Internet itself, or with nothing, as the address says. *)
Theorem lab7_routes (wide_shift : Z → Z → result Z) (is_client : bool) (rd : nat → Z) :
  ∃ r, router_setup wide_shift is_client rd = Ok (r, 0, 1) ∧ Router._interfaces r = sides is_client rd ∧
    ∀ dst, 0 <= dst < two32 → Router.find_route 32 (Router.route_mps r) dst = Ok (decision is_client dst).
Proof.
  destruct (router_setup_spec wide_shift is_client rd) as (mps & E & Hlen & Ha).
  eexists. split; [exact E|]. split; [done|]. intros dst Hd. cbn [Router.route_mps].
  rewrite Router.find_route_scan, Ha, <- best_decision by (rewrite ?Hlen; lia). by destruct (Router.best _ _).
Qed.

End Routes.

(** ** Crossing both routers *)

(** What a datagram is after a router has sent it on. *)
Definition forwarded (d d' : IPv4Datagram.t) : Prop :=
  IPv4Datagram.sendable d' ∧ IPv4Header.ttl (IPv4Datagram.header d') = IPv4Header.ttl (IPv4Datagram.header d) - 1 ∧
  (∃ v, IPv4Header.set_ttl (IPv4Datagram.header d') (IPv4Header.ttl (IPv4Datagram.header d))
        = IPv4Header.set_cksum (IPv4Datagram.header d) v) ∧
  BufferList.concatenate (IPv4Datagram.payload d') = BufferList.concatenate (IPv4Datagram.payload d).

(** The bytes of a frame on the wire. *)
Definition wire_bytes (f : EthernetFrame.t) : bytes := BufferList.concatenate (EthernetFrame.serialize f).

(** A router forwards a datagram that one of its interfaces receives: the interface of the best route is given it for the
    next hop. *)
Lemma receive_datagram rules r side a ni d l j b ru hop :
  Router.answers rules (Router.route_mps r) → Router.drained (Router._interfaces r) →
  Router._interfaces r !! side = Some a → Router._interfaces r !! j = Some b →
  NetworkInterface.inv ni → NetworkInterface.inv (AsyncNetworkInterface.base a) →
  IPv4Datagram.sendable d → IPv4Datagram.serialize d = Ok l → 2 <= IPv4Header.ttl (IPv4Datagram.header d) →
  Router.best rules (IPv4Header.dst (IPv4Datagram.header d)) = Some ru → (Router.r_entry ru).2 = Z.of_nat j →
  default (Address.of_ipv4 (IPv4Header.dst (IPv4Datagram.header d))) (Router.r_entry ru).1 = Address.of_ipv4 hop →
  ∃ d' l', forwarded d d' ∧ IPv4Datagram.serialize d' = Ok l' ∧
    ∀ b', NetworkInterface.send_datagram (AsyncNetworkInterface.base b) d' (Address.of_ipv4 hop) = Ok b' →
    receive r (Z.of_nat side)
      (wire_bytes (NetworkInterface.frame ni EthernetHeader.TYPE_IPv4 (NetworkInterface._ethernet_address (AsyncNetworkInterface.base a)) l))
    = Ok (Router.mk (<[j := AsyncNetworkInterface.of_interface b']> (Router._interfaces r)) (Router.route_mps r)).
Proof.
  intros Ha Hdr Es Ej Hni Hia Hd El Httl Hbest Hid Hdef. destruct r as [itfs mps]. simpl in *.
  destruct (NetworkInterface.ipv4_frame_arrives ni (AsyncNetworkInterface.base a) d l Hni Hia Hd El)
    as (f & e & Et & Er & ((v & Hh) & Hp & _) & He).
  pose proof (IPv4Header.v_ttl _ (IPv4Datagram.s_header _ Hd)) as Htr. pose proof (IPv4Header.v_dst _ (IPv4Datagram.s_header _ Hd)) as Hdst.
  set (d' := IPv4Datagram.set_header e (IPv4Header.set_ttl (IPv4Datagram.header e) (IPv4Header.ttl (IPv4Datagram.header e) - 1))).
  assert (IPv4Datagram.sendable d') as Hd'.
  { apply Router.sendable_ttl; [done|]. rewrite Hh. simpl. lia. }
  destruct (IPv4Datagram.datagram_serialize_wire d' Hd') as (w & l' & El' & _).
  exists d', l'. split; [|split; [done|]].
  { split; [done|]. split; [simpl; by rewrite Hh|]. split; [|done]. exists v. simpl. rewrite Hh.
    by destruct (IPv4Datagram.header d). }
  intros b' Eb. unfold receive. unfold NetworkInterface.transit in Et. unfold wire_bytes. rewrite Et, result_bind_ok. simpl negb. cbv iota.
  unfold Router.interface. cbn [Router._interfaces]. rewrite Nat2Z.id, Es, result_bind_ok.
  unfold AsyncNetworkInterface.recv_frame. rewrite Er, !result_bind_ok.
  assert (AsyncNetworkInterface._datagrams_out a = []) as -> by exact (Forall_lookup_1 _ _ _ _ Hdr Es).
  unfold Router.set_interface. cbn [Router._interfaces Router.route_mps app]. rewrite Nat2Z.id.
  apply (Router.route_single rules); [done | done | done | |].
  - split; rewrite Hh; simpl; lia.
  - unfold Router.forward. rewrite Hh. cbn [IPv4Header.ttl IPv4Header.dst IPv4Header.set_cksum].
    replace (IPv4Header.ttl (IPv4Datagram.header d) <=? 1) with false by (symmetry; apply Z.leb_gt; lia).
    rewrite Hbest. unfold Router.send_on. rewrite Hid, Nat2Z.id, list_lookup_fmap, Ej. simpl fmap.
    rewrite Hdef. replace (IPv4Datagram.set_header e _) with d' by (unfold d'; by rewrite Hh).
    by rewrite Eb, result_bind_ok.
Qed.

(** When the address of the next hop is cached, the frame that carries it on is queued at once. *)
Lemma receive_forwards rules r side a ni d l j b ru hop age eth :
  Router.answers rules (Router.route_mps r) → Router.drained (Router._interfaces r) →
  Router._interfaces r !! side = Some a → Router._interfaces r !! j = Some b →
  NetworkInterface.inv ni → NetworkInterface.inv (AsyncNetworkInterface.base a) →
  IPv4Datagram.sendable d → IPv4Datagram.serialize d = Ok l → 2 <= IPv4Header.ttl (IPv4Datagram.header d) →
  Router.best rules (IPv4Header.dst (IPv4Datagram.header d)) = Some ru → (Router.r_entry ru).2 = Z.of_nat j →
  default (Address.of_ipv4 (IPv4Header.dst (IPv4Datagram.header d))) (Router.r_entry ru).1 = Address.of_ipv4 hop →
  0 <= hop < two32 → NetworkInterface._addr_mp (AsyncNetworkInterface.base b) !! hop = Some (age, eth) →
  eth ≠ ETHERNET_BROADCAST →
  ∃ d' l', forwarded d d' ∧ IPv4Datagram.serialize d' = Ok l' ∧
    receive r (Z.of_nat side)
      (wire_bytes (NetworkInterface.frame ni EthernetHeader.TYPE_IPv4 (NetworkInterface._ethernet_address (AsyncNetworkInterface.base a)) l))
    = Ok (Router.mk (<[j := AsyncNetworkInterface.of_interface (NetworkInterface.push_frame (AsyncNetworkInterface.base b)
             (NetworkInterface.frame (AsyncNetworkInterface.base b) EthernetHeader.TYPE_IPv4 eth l'))]> (Router._interfaces r))
            (Router.route_mps r)).
Proof.
  intros Ha Hdr Es Ej Hni Hia Hd El Httl Hbest Hid Hdef Hhop Hc Hne.
  destruct (receive_datagram rules r side a ni d l j b ru hop) as (d' & l' & Hf & El' & Hr); try done.
  exists d', l'. split; [done|]. split; [done|]. apply Hr. by apply (NetworkInterface.send_known _ d' age eth hop l').
Qed.

(** Two forwardings and an arrival change nothing but the time to live and the checksum. *)
Lemma forwarded_twice d d1 d2 e : forwarded d d1 → forwarded d1 d2 → NetworkInterface.same_datagram d2 e →
  NetworkInterface.same_datagram d
    (IPv4Datagram.set_header e (IPv4Header.set_ttl (IPv4Datagram.header e) (IPv4Header.ttl (IPv4Datagram.header d)))).
Proof.
  intros (_ & _ & (v1 & H1) & P1) (_ & _ & (v2 & H2) & P2) ((v & Hv) & Pe & bf & Hbf).
  split; [|split; [|by exists bf]].
  - exists v. cbn [IPv4Datagram.header IPv4Datagram.set_header IPv4Datagram._header]. rewrite Hv.
    apply (f_equal (λ h, IPv4Header.set_cksum (IPv4Header.set_ttl h (IPv4Header.ttl (IPv4Datagram.header d))) v)) in H2.
    apply (f_equal (λ h, IPv4Header.set_cksum h v)) in H1. etrans; [exact H2 | exact H1].
  - change (BufferList.concatenate (IPv4Datagram.payload e) = BufferList.concatenate (IPv4Datagram.payload d)). congruence.
Qed.

Lemma forwarded_dst d d' : forwarded d d' → IPv4Header.dst (IPv4Datagram.header d') = IPv4Header.dst (IPv4Datagram.header d).
Proof. intros (_ & _ & (v & E) & _). by apply (f_equal IPv4Header.dst) in E. Qed.

(** The way from the host of one side to the host of the other, with the addresses of the hops known. *)
Record path (is_client : bool) (a : NetworkInterfaceAdapter.t) (near far : Router.t) (nh ni fh fi : NetworkInterface.t)
  (b : NetworkInterfaceAdapter.t) : Prop := {
  p_near : Router._interfaces near = AsyncNetworkInterface.of_interface <$> [nh; ni];
  p_near_routes : Router.answers (routes is_client) (Router.route_mps near);
  p_far : Router._interfaces far = AsyncNetworkInterface.of_interface <$> [fh; fi];
  p_far_routes : Router.answers (routes (negb is_client)) (Router.route_mps far);
  p_inv : Forall NetworkInterface.inv [TCPOverIPv4OverEthernetAdapter._interface a; nh; ni; fh; fi;
                                       TCPOverIPv4OverEthernetAdapter._interface b];
  p_unicast : Forall (λ n, NetworkInterface._ethernet_address n ≠ ETHERNET_BROADCAST)
                [nh; fi; TCPOverIPv4OverEthernetAdapter._interface b];
  p_idle : NetworkInterfaceAdapter.frames_out a = [] ∧ NetworkInterfaceAdapter.frames_out b = [];
  p_hop : TCPOverIPv4OverEthernetAdapter._next_hop a = Address.of_ipv4 (gateway_ip is_client);
  p_known : ∃ age1 age2 age3,
    NetworkInterface._addr_mp (TCPOverIPv4OverEthernetAdapter._interface a) !! gateway_ip is_client
      = Some (age1, NetworkInterface._ethernet_address nh) ∧
    NetworkInterface._addr_mp ni !! internet_ip (negb is_client) = Some (age2, NetworkInterface._ethernet_address fi) ∧
    NetworkInterface._addr_mp fh !! host_ip (negb is_client)
      = Some (age3, NetworkInterface._ethernet_address (TCPOverIPv4OverEthernetAdapter._interface b)) }.

(** The routes for the host of the other side, at both routers. *)
Lemma best_far is_client : ∃ ru, Router.best (routes is_client) (host_ip (negb is_client)) = Some ru ∧
  Router.r_entry ru = (Some (Address.of_ipv4 (internet_ip (negb is_client))), 1).
Proof. destruct is_client; eexists; split; reflexivity. Qed.
Lemma best_near is_client : ∃ ru, Router.best (routes is_client) (host_ip is_client) = Some ru ∧
  Router.r_entry ru = (None, 0).
Proof. destruct is_client; eexists; split; reflexivity. Qed.

Lemma ip_ranges is_client : 0 <= host_ip is_client < two32 ∧ 0 <= gateway_ip is_client < two32 ∧ 0 <= internet_ip is_client < two32.
Proof. by destruct is_client. Qed.

(** A datagram on that way: three frames, and what arrives. *)
Lemma datagram_crosses is_client a near far nh ni fh fi b d l : path is_client a near far nh ni fh fi b →
  IPv4Datagram.sendable d → IPv4Datagram.serialize d = Ok l → 3 <= IPv4Header.ttl (IPv4Datagram.header d) →
  IPv4Header.dst (IPv4Datagram.header d) = host_ip (negb is_client) →
  ∃ near' far' g k f e,
    receive near 0 (wire_bytes (NetworkInterface.frame (TCPOverIPv4OverEthernetAdapter._interface a) EthernetHeader.TYPE_IPv4
      (NetworkInterface._ethernet_address nh) l)) = Ok near' ∧
    frames_of near' 1 = Ok (NetworkInterface.frames_out ni ++ [g]) ∧
    receive far 1 (wire_bytes g) = Ok far' ∧ frames_of far' 0 = Ok (NetworkInterface.frames_out fh ++ [k]) ∧
    NetworkInterface.transit k = Ok (f, NoError) ∧
    NetworkInterface.recv_frame (TCPOverIPv4OverEthernetAdapter._interface b) f
      = Ok (TCPOverIPv4OverEthernetAdapter._interface b, Some e) ∧
    NetworkInterface.same_datagram d
      (IPv4Datagram.set_header e (IPv4Header.set_ttl (IPv4Datagram.header e) (IPv4Header.ttl (IPv4Datagram.header d)))).
Proof.
  intros [Hn Rn Hf Rf Hinv Huni _ Hhop (age1 & age2 & age3 & K1 & K2 & K3)] Hd El Httl Hdst.
  rewrite !Forall_cons in Hinv. rewrite !Forall_cons in Huni. destruct Hinv as (Ia & Inh & Ini & Ifh & Ifi & Ib & _), Huni as (Unh & Ufi & Ub & _).
  destruct (ip_ranges (negb is_client)) as (Rh & _ & Ri).
  destruct (best_far is_client) as (ru1 & B1 & E1). destruct (best_near (negb is_client)) as (ru2 & B2 & E2).
  destruct (receive_forwards (routes is_client) near 0 (AsyncNetworkInterface.of_interface nh)
    (TCPOverIPv4OverEthernetAdapter._interface a) d l 1 (AsyncNetworkInterface.of_interface ni) ru1
    (internet_ip (negb is_client)) age2 (NetworkInterface._ethernet_address fi)) as (d1 & l1 & F1 & S1 & R1);
    try done; try lia; try (by rewrite Hn); try (by rewrite E1).
  { rewrite Hn. repeat (constructor; [done|]). constructor. } { by rewrite Hdst. }
  pose proof F1 as (Hd1 & T1 & _).
  destruct (receive_forwards (routes (negb is_client)) far 1 (AsyncNetworkInterface.of_interface fi) ni d1 l1 0
    (AsyncNetworkInterface.of_interface fh) ru2 (host_ip (negb is_client)) age3
    (NetworkInterface._ethernet_address (TCPOverIPv4OverEthernetAdapter._interface b))) as (d2 & l2 & F2 & S2 & R2);
    try done; try lia; try (by rewrite Hf); try (by rewrite E2).
  { rewrite Hf. repeat (constructor; [done|]). constructor. } { by rewrite (forwarded_dst _ _ F1), Hdst. }
  { rewrite E2. simpl. by rewrite (forwarded_dst _ _ F1), Hdst. }
  destruct (NetworkInterface.ipv4_frame_delivers fh (TCPOverIPv4OverEthernetAdapter._interface b) d2 l2 Ifh Ib
    ltac:(apply F2) S2) as (f & e & Et & Er & Hs).
  eexists _, _, _, _, f, e. split; [exact R1|]. split; [by rewrite Hn|]. split; [exact R2|]. split; [by rewrite Hf|].
  split; [exact Et|]. split; [exact Er|]. by eapply forwarded_twice.
Qed.

Section Segments.
Context `{Address.NumericResolver}.

(** End to end.  A segment that the TCP socket of one host writes to its adapter leaves as
    one frame; the near router, given that frame, queues one for the other router;
    the far router, given that, queues one for its host; and the adapter of the far host
    reads from it the segment that was written, ports filled in and checksum computed.
    The far adapter may be the connected peer, or a listener when the segment is a
    SYN, which is then connected to the sender.  This holds in both
    directions, for every segment that fits a datagram. *)
Theorem lab7_end_to_end (is_client : bool) (a b : NetworkInterfaceAdapter.t) (near far : Router.t)
  (nh ni fh fi : NetworkInterface.t) (seg : TCPSegment.t) (ip port1 port2 ip4 port4 : Z) :
  path is_client a near far nh ni fh fi b → fits seg →
  0 <= ip < two32 → 0 <= port1 < two16 → 0 <= port2 < two16 → 0 <= ip4 < two32 → 0 <= port4 < two16 →
  let base_a := TCPOverIPv4OverEthernetAdapter.base a in
  let base_b := TCPOverIPv4OverEthernetAdapter.base b in
  FdAdapterBase.source base_a = Address.endpoint ip port1 →
  FdAdapterBase.destination base_a = Address.endpoint (host_ip (negb is_client)) port2 →
  FdAdapterBase.source base_b = Address.endpoint (host_ip (negb is_client)) port2 →
  FdAdapterBase.destination base_b = Address.endpoint ip4 port4 →
  (if FdAdapterBase.listening base_b
   then TCPHeader.syn (TCPSegment.header seg) = true ∧ TCPHeader.rst (TCPSegment.header seg) = false
   else ip4 = ip ∧ port4 = port1) →
  ∃ o near' g far' k b' s,
    NetworkInterfaceAdapter.write a seg = Ok (a, [o], TCPOverIPv4Adapter.set_ports seg port1 port2) ∧
    receive near 0 (BufferList.concatenate o) = Ok near' ∧ frames_of near' 1 = Ok (NetworkInterface.frames_out ni ++ [g]) ∧
    receive far 1 (wire_bytes g) = Ok far' ∧ frames_of far' 0 = Ok (NetworkInterface.frames_out fh ++ [k]) ∧
    NetworkInterfaceAdapter.read b (wire_bytes k) = Ok (b', [], Some s) ∧
    same_segment (TCPOverIPv4Adapter.set_ports seg port1 port2) s ∧
    FdAdapterBase.listening (TCPOverIPv4OverEthernetAdapter.base b') = false ∧
    FdAdapterBase.destination (TCPOverIPv4OverEthernetAdapter.base b') = Address.endpoint ip port1.
Proof.
  intros Hp Hf Hip Hp1 Hp2 Hip4 Hp4 base_a base_b Sa Da Sb Db Hb.
  destruct (ip_ranges (negb is_client)) as (Rh & _ & _). destruct (ip_ranges is_client) as (_ & Rg & _).
  destruct (wrap_spec base_a seg ip port1 _ port2 Hip Hp1 Rh Hp2 Sa Da Hf) as (d & Ew & Hd & _ & Hdst & _).
  destruct (IPv4Datagram.datagram_serialize_wire d Hd) as (v & l & El & _). pose proof (wrap_ttl _ _ _ _ Ew) as Ettl.
  destruct (datagram_crosses is_client a near far nh ni fh fi b d l Hp Hd El) as (near' & far' & g & k & f & e & R1 & F1 & R2 & F2 & Et & Er & Hs);
    [by rewrite Ettl | done |].
  destruct (unwrap_eval base_a base_b seg _ _ ip port1 _ port2 _ port2 ip4 port4 Hip Hp1 Rh Hp2 Rh Hp2 Hip4 Hp4 Sa Da Sb Db Hf Ew Hs)
    as (s & Hsame & Eu). rewrite unwrap_ttl, !Z.eqb_refl in Eu.
  destruct Hp as [_ _ _ _ _ Huni [Fa Fb] Hhop (age1 & _ & _ & K1 & _)]. apply Forall_cons in Huni as [Unh _].
  assert (∃ bb, TCPOverIPv4Adapter.unwrap_tcp_in_ip base_b e = Ok (bb, Some s) ∧ FdAdapterBase.listening bb = false ∧
    FdAdapterBase.destination bb = Address.endpoint ip port1) as (bb & Eu' & Hl & Hdest).
  { rewrite Eu. destruct (FdAdapterBase.listening base_b) eqn:El2.
    - destruct Hb as [-> ->]. by eexists.
    - destruct Hb as [-> ->]. rewrite !Z.eqb_refl. by eexists. }
  eexists _, near', g, far', k, _, s. split; [|split; [exact R1 | split; [done | split; [exact R2 | split; [done|]]]]].
  - by apply (ethernet_write a seg _ d l (gateway_ip is_client) age1 (NetworkInterface._ethernet_address nh)).
  - split; [exact (ethernet_read b _ f e bb (Some s) Et Er Fb Eu')|]. by split.
Qed.

End Segments.

(** ** The program's two sides *)

Module Demo.
Import DottedQuad.

Definition rd (i : nat) : Z := Z.of_nat i * 7 + 3.

(** The routing table that the setup of a side makes. *)
Definition table (is_client : bool) : list (gmap Z Router.entry) :=
  match router_setup Router.modulo_shift is_client rd with Ok (r, _, _) => Router.route_mps r | Throw _ => [] end.

Lemma dotted ip : 0 <= ip < two32 → Address.inet_ntoa ip = print ip.
Proof. done. Qed.

Lemma table_answers is_client : Router.answers (routes is_client) (table is_client).
Proof. destruct (router_setup_spec dotted Router.modulo_shift is_client rd) as (mps & E & Ha). unfold table. by rewrite E. Qed.

(** An interface that knows the address of one neighbour. *)
Definition eth (i : nat) : EthernetAddress := random_router_ethernet_address (Network.after rd (6 * i)).
Definition knows (i : nat) (ip hop : Z) (j : nat) : NetworkInterface.t :=
  NetworkInterface.set_addr_mp (NetworkInterface.new (eth i) (Address.of_ipv4 ip)) {[hop := (30000, eth j)]}.

Lemma knows_inv i ip hop j : 0 <= ip < two32 → NetworkInterface.inv (knows i ip hop j).
Proof.
  intros Hip. constructor; [done | by exists ip | | apply map_Forall_empty].
  intros k e Ek. cbn in Ek. apply lookup_singleton_Some in Ek as [_ <-]. simpl. split; [lia | done].
Qed.

(** The client connects to the listening server. *)
Definition client : NetworkInterfaceAdapter.t :=
  TCPOverIPv4OverEthernetAdapter.mk
    (FdAdapterBase.mk (FdAdapterConfig.mk (Address.endpoint 0xc0a80032 40000) (Address.endpoint 0xac100064 1234) 0 0) false)
    (knows 0 0xc0a80032 0xc0a80001 1) (Address.of_ipv4 0xc0a80001).
Definition server : NetworkInterfaceAdapter.t :=
  TCPOverIPv4OverEthernetAdapter.mk
    (FdAdapterBase.mk (FdAdapterConfig.mk (Address.endpoint 0xac100064 1234) (Address.endpoint 0 0) 0 0) true)
    (knows 5 0xac100064 0xac100001 3) (Address.of_ipv4 0xac100001).
Definition nh : NetworkInterface.t := knows 1 0xc0a80001 0xc0a80032 0.
Definition ni : NetworkInterface.t := knows 2 0x0a0000c0 0x0a0000ac 4.
Definition fh : NetworkInterface.t := knows 3 0xac100001 0xac100064 5.
Definition fi : NetworkInterface.t := knows 4 0x0a0000ac 0x0a0000c0 2.
Definition near : Router.t := Router.mk (AsyncNetworkInterface.of_interface <$> [nh; ni]) (table true).
Definition far : Router.t := Router.mk (AsyncNetworkInterface.of_interface <$> [fh; fi]) (table false).

Lemma demo_path : path true client near far nh ni fh fi server.
Proof.
  constructor; try done; try apply table_answers.
  - repeat (constructor; [by apply knows_inv|]). constructor.
  - repeat (constructor; [discriminate|]). constructor.
  - exists 30000, 30000, 30000. done.
Qed.

Lemma lab7_routes_witness : ∃ r, router_setup Router.modulo_shift true rd = Ok (r, 0, 1) ∧
  Router._interfaces r = sides true rd ∧
  Router.find_route 32 (Router.route_mps r) 0xac100064 = Ok (Some (Some (Address.of_ipv4 0x0a0000ac), 1)).
Proof.
  destruct (lab7_routes dotted Router.modulo_shift true rd) as (r & E & Hi & Hr). exists r.
  split; [exact E|]. split; [exact Hi|]. rewrite Hr by lia. reflexivity.
Defined.

Lemma lab7_end_to_end_witness : ∃ o near' g far' k b' s,
  NetworkInterfaceAdapter.write client Hosts.syn_segment
    = Ok (client, [o], TCPOverIPv4Adapter.set_ports Hosts.syn_segment 40000 1234) ∧
  receive near 0 (BufferList.concatenate o) = Ok near' ∧ frames_of near' 1 = Ok (NetworkInterface.frames_out ni ++ [g]) ∧
  receive far 1 (wire_bytes g) = Ok far' ∧ frames_of far' 0 = Ok (NetworkInterface.frames_out fh ++ [k]) ∧
  NetworkInterfaceAdapter.read server (wire_bytes k) = Ok (b', [], Some s) ∧
  same_segment (TCPOverIPv4Adapter.set_ports Hosts.syn_segment 40000 1234) s ∧
  FdAdapterBase.listening (TCPOverIPv4OverEthernetAdapter.base b') = false ∧
  FdAdapterBase.destination (TCPOverIPv4OverEthernetAdapter.base b') = Address.endpoint 0xc0a80032 40000.
Proof.
  apply (lab7_end_to_end true client server near far nh ni fh fi Hosts.syn_segment 0xc0a80032 40000 1234 0 0 demo_path Hosts.syn_fits);
    [lia | lia | lia | lia | lia | reflexivity | reflexivity | reflexivity | reflexivity | split; reflexivity].
Defined.

End Demo.

End Lab7.
