(* ===== verification/lab7_network.v ===== *)
(** * Two lab7 programs on a network

    The two programs of lab7 (src/lab/apps/lab7.cc), client and server, with the wires between them: the socket pair between a
    host's adapter and its router, and the bouncer between the routers.  The moves are the rules of the network threads: a
    frame goes from a host to its router, from a router to its host, or from a router over the Internet to the other
    router.  The programs start with empty ARP caches.

    Here is the first segment, which crosses the network while all addresses are still unknown: [segment_settles].  A
    segment that is written while a request is pending is dropped ([pending_datagram_dropped]), and the retransmission of TCP
    has to repair that.  What follows when the addresses are known, with any interleaving and with time, is in lab7_traffic. *)

From stdpp Require Import strings gmap.
From S2P Require Import Prelude byte_stream buffer parser system address file_descriptor socket eventloop tcp_header tcp_segment wrapping_integers.
From S2P Require Import ipv4 ethernet tcp_config network_interface router network_simulator adapters tcp_sponge_socket lab7.

Module Lab7Network.

Section Network.
Context `{Address.Resolver}.

(** One program: the adapter of its socket, the frames that the adapter has written and the router has not yet read, the
    router, and the segments that the adapter has given to the socket. *)
Record program := mk {
  adapter : NetworkInterfaceAdapter.t;
  up : list bytes;
  router : Router.t;
  got : list TCPSegment.t
}.

(** The client's program and the server's. *)
Definition t : Type := program * program.
Definition side (p : t) (c : bool) : program := if c then p.1 else p.2.
Definition pair (c : bool) (m o : program) : t := if c then (m, o) else (o, m).

Inductive event :=
| HostToRouter (c : bool)
| RouterToHost (c : bool)
| RouterToInternet (c : bool).

(** The side of a router with at least one frame to send. *)
Definition has_frames (r : Router.t) (i : Z) : bool :=
  match Lab7.frames_of r i with Ok (_ :: _) => true | _ => false end.

Definition enabled (p : t) (e : event) : bool :=
  match e with
  | HostToRouter c => match up (side p c) with [] => false | _ => true end
  | RouterToHost c => has_frames (router (side p c)) 0
  | RouterToInternet c => has_frames (router (side p c)) 1
  end.

Definition step (p : t) (e : event) : result t :=
  match e with
  | HostToRouter c =>
      let m := side p c in
      match up m with
      | [] => Throw EmptyQueue
      | raw :: rest =>
          r ← Lab7.receive (router m) 0 raw;
          Ok (pair c (mk (adapter m) rest r (got m)) (side p (negb c)))
      end
  | RouterToHost c =>
      let m := side p c in
      front ← Lab7.front_of (router m) 0;
      r ← Lab7.pop_of (router m) 0;
      '(a, out, seg) ← NetworkInterfaceAdapter.read (adapter m) (Lab7.wire_bytes front);
      Ok (pair c (mk a (up m ++ (BufferList.concatenate <$> out)) r (got m ++ option_list seg)) (side p (negb c)))
  | RouterToInternet c =>
      let m := side p c in
      let o := side p (negb c) in
      front ← Lab7.front_of (router m) 1;
      r ← Lab7.pop_of (router m) 1;
      r' ← Lab7.receive (router o) 1 (Lab7.wire_bytes front);
      Ok (pair c (mk (adapter m) (up m) r (got m)) (mk (adapter o) (up o) r' (got o)))
  end.

(** The socket of a program writes a segment. *)
Definition write (p : t) (c : bool) (seg : TCPSegment.t) : result t :=
  let m := side p c in
  '(a, out, _) ← NetworkInterfaceAdapter.write (adapter m) seg;
  Ok (pair c (mk a (up m ++ (BufferList.concatenate <$> out)) (router m) (got m)) (side p (negb c))).

(** [forced n p p']: there is exactly one frame under way, and one move for it, until after [n] moves nothing is
    left; so this is the only run of the threads, whatever their schedule. *)
Inductive forced : nat → t → t → Prop :=
| forced_quiet p : (∀ e, enabled p e = false) → forced 0 p p
| forced_move e p q n p' : (∀ e', enabled p e' = true ↔ e' = e) → step p e = Ok q → forced n q p' → forced (S n) p p'.

(** A run of the threads, in any order. *)
Inductive runs : t → list event → t → Prop :=
| runs_nil p : runs p [] p
| runs_cons p e q es p' : enabled p e = true → step p e = Ok q → runs q es p' → runs p (e :: es) p'.

(** Whatever the threads do, they are done after [n] moves, in state [p']; no move throws. *)
Record settles (n : nat) (p p' : t) : Prop := {
  st_end : ∃ es, runs p es p' ∧ length es = n;
  st_quiet : ∀ e, enabled p' e = false;
  st_all : ∀ es q, runs p es q → (length es <= n)%nat ∧
    (∀ e, enabled q e = true → ∃ q', step q e = Ok q') ∧ ((∀ e, enabled q e = false) → q = p') }.

Lemma forced_settles n p p' : forced n p p' → settles n p p'.
Proof.
  induction 1 as [p Hq|e p q n p' He Es _ [(es & Hr & <-) Hq Ha]].
  - split; [exists []; split; [constructor | done] | done |]. intros es q Hr. destruct Hr as [p|p e q es p' He _ _]; [|by rewrite Hq in He].
    split; [simpl; lia|]. split; [intros e He; by rewrite Hq in He | done].
  - split; [exists (e :: es); split; [|done]; econstructor; [by apply He | done | done] | done |].
    intros es' q' Hr'. destruct Hr' as [p|p e' q1 es' q' He' Es' Hr'].
    + split; [simpl; lia|]. split; [intros e' He'; apply He in He' as ->; eauto|]. intros Hn.
      specialize (Hn e). rewrite (proj2 (He e)) in Hn; done.
    + apply He in He' as ->. rewrite Es in Es'. injection Es' as <-.
      destruct (Ha es' q' Hr') as (Hlen & Hok). split; [simpl; lia | done].
Qed.

(** ** A link between two interfaces *)

(** Both ends know each other. *)
Definition acquainted (ni nj : NetworkInterface.t) (ip hop : Z) : Prop :=
  ∃ age1 age2, NetworkInterface._addr_mp ni !! hop = Some (age1, NetworkInterface._ethernet_address nj) ∧
    NetworkInterface._addr_mp nj !! ip = Some (age2, NetworkInterface._ethernet_address ni).

(** No mapping has aged. *)
Definition new_mappings (ni : NetworkInterface.t) : Prop := map_Forall (λ _ e, e.1 = 30000) (NetworkInterface._addr_mp ni).

(** Nothing is under way on the link; either both know each other, or neither knows the other. *)
Record linkage (ni nj : NetworkInterface.t) (ip hop : Z) : Prop := {
  lk_inv : NetworkInterface.inv ni ∧ NetworkInterface.inv nj;
  lk_ip : NetworkInterface._ip_address ni = Address.of_ipv4 ip ∧ NetworkInterface._ip_address nj = Address.of_ipv4 hop;
  lk_range : 0 <= ip < two32 ∧ 0 <= hop < two32;
  lk_unicast : NetworkInterface._ethernet_address ni ≠ ETHERNET_BROADCAST ∧ NetworkInterface._ethernet_address nj ≠ ETHERNET_BROADCAST;
  lk_idle : NetworkInterface._frames_out ni = [] ∧ NetworkInterface._frames_out nj = [];
  lk_data : NetworkInterface._data_mp ni !! hop = None ∧ NetworkInterface._data_mp nj !! ip = None;
  lk_known : NetworkInterface._addr_mp ni !! hop = None ∧ NetworkInterface._addr_mp nj !! ip = None ∨ acquainted ni nj ip hop;
  lk_new : new_mappings ni ∧ new_mappings nj }.

Lemma acquainted_sym ni nj ip hop : acquainted ni nj ip hop → acquainted nj ni hop ip.
Proof. intros (age1 & age2 & ? & ?). by exists age2, age1. Qed.

Lemma linkage_sym ni nj ip hop : linkage ni nj ip hop → linkage nj ni hop ip.
Proof.
  intros [[] [] [] [] [] [] Hk []]. constructor; try done.
  destruct Hk as [[]|Hk]; [by left | right; by apply acquainted_sym].
Qed.

(** A frame with a datagram, and an ARP frame, from one to the other. *)
Definition data_frame (ni nj : NetworkInterface.t) (l : BufferList.t) : EthernetFrame.t :=
  NetworkInterface.frame ni EthernetHeader.TYPE_IPv4 (NetworkInterface._ethernet_address nj) l.
Definition arp_frame (ni : NetworkInterface.t) (dst : EthernetAddress) (m : ARPMessage.t) : EthernetFrame.t :=
  NetworkInterface.frame ni EthernetHeader.TYPE_ARP dst (BufferList.of_string (ARPMessage.wire m)).

(** What a datagram causes: one frame, or a request, a reply and that frame. *)
Definition sends (ni nj ni' nj' : NetworkInterface.t) (d : IPv4Datagram.t) (hop : Z) (l : BufferList.t) : Prop :=
  NetworkInterface.send_datagram ni d (Address.of_ipv4 hop) = Ok (NetworkInterface.push_frame ni (data_frame ni nj l)) ∧
    ni' = ni ∧ nj' = nj ∨
  ∃ ni1 q r, NetworkInterface.inv ni1 ∧ NetworkInterface._frames_out ni1 = [] ∧
    ARPMessage.valid q ∧ ARPMessage.supported q = true ∧ ARPMessage.valid r ∧ ARPMessage.supported r = true ∧
    NetworkInterface.send_datagram ni d (Address.of_ipv4 hop)
      = Ok (NetworkInterface.push_frame ni1 (arp_frame ni ETHERNET_BROADCAST q)) ∧
    NetworkInterface.recv_arp nj q = Ok (NetworkInterface.push_frame nj' (arp_frame nj (NetworkInterface._ethernet_address ni) r)) ∧
    NetworkInterface.recv_arp ni1 r = Ok (NetworkInterface.push_frame ni' (data_frame ni nj l)).

Lemma inv_push ni f : NetworkInterface.inv (NetworkInterface.push_frame ni f) → NetworkInterface.inv ni.
Proof. intros []. by constructor. Qed.

Lemma link_send ni nj ip hop d l : linkage ni nj ip hop → IPv4Datagram.sendable d → IPv4Datagram.serialize d = Ok l →
  ∃ ni' nj', sends ni nj ni' nj' d hop l ∧ linkage ni' nj' ip hop ∧ acquainted ni' nj' ip hop ∧
    NetworkInterface._ethernet_address ni' = NetworkInterface._ethernet_address ni ∧
    NetworkInterface._ethernet_address nj' = NetworkInterface._ethernet_address nj.
Proof.
  intros [[Hi Hj] [Ei Ej] [Hip Hhop] [Ui Uj] [Fi Fj] [Di Dj] Hk [Ni Nj]] Hd El.
  destruct Hk as [[Ki Kj]|(age1 & age2 & Ki & Kj)].
  2:{ exists ni, nj. split; [left; split; [|done]|split; [|split; [by exists age1, age2 | done]]].
      - by apply (NetworkInterface.send_known ni d age1).
      - constructor; try done. right. by exists age1, age2. }
  set (q := NetworkInterface.request ni ip hop). set (r := NetworkInterface.reply ni nj ip hop).
  set (ni1 := NetworkInterface.mk (NetworkInterface._ethernet_address ni) (NetworkInterface._ip_address ni) []
    (<[hop := (5000, ETHERNET_BROADCAST)]> (NetworkInterface._addr_mp ni)) (<[hop := d]> (NetworkInterface._data_mp ni))).
  pose proof (NetworkInterface.send_unknown ni d ip hop Ei Hip Hhop Ki) as E1. rewrite Fi in E1.
  destruct (NetworkInterface.send_datagram_spec ni d hop Hi Hd Hhop) as (ni0 & E0 & Hi1). rewrite E1 in E0. injection E0 as <-.
  apply (inv_push ni1) in Hi1.
  pose proof (NetworkInterface.recv_request ni nj ip hop Ej Hhop Dj) as E2.
  destruct (NetworkInterface.recv_arp_spec nj q Hj) as (nj0 & E0 & Hj1); [apply Hi|]. unfold q in E0. rewrite E2 in E0. injection E0 as <-.
  apply inv_push in Hj1.
  assert (NetworkInterface._data_mp ni1 !! hop = Some d) as Ed by apply lookup_insert_eq.
  pose proof (NetworkInterface.recv_reply ni1 ni nj ip hop d l Ed El) as E3.
  destruct (NetworkInterface.recv_arp_spec ni1 r Hi1) as (ni0 & E0 & Hi2); [apply Hj|]. unfold r in E0. rewrite E3 in E0. injection E0 as <-.
  apply inv_push in Hi2. 
  match type of Hi2 with NetworkInterface.inv ?n => match type of Hj1 with NetworkInterface.inv ?m => exists n, m end end.
  split; [right; exists ni1, q, r|split; [|split; [exists 30000, 30000; split; apply lookup_insert_eq | done]]].
  - split; [done|]. split; [done|]. split; [constructor; [apply Hi | done..]|]. split; [done|].
    split; [constructor; [apply Hj | apply Hi | done..]|]. split; [done|]. split; [exact E1|]. split; [exact E2 | exact E3].
  - constructor; [done | done | done | done | done | | |].
    + split; [apply lookup_delete_eq | done].
    + right. exists 30000, 30000. split; apply lookup_insert_eq.
    + unfold new_mappings. cbn [NetworkInterface._addr_mp NetworkInterface.set_addr_mp]. rewrite ?insert_insert_eq.
      split; by apply map_Forall_insert_2.
Qed.

(** ** The moves *)

(** A router with two idle interfaces. *)
Definition table (g i : NetworkInterface.t) (mps : list (gmap Z Router.entry)) : Router.t :=
  Router.mk [AsyncNetworkInterface.of_interface g; AsyncNetworkInterface.of_interface i] mps.

(** A program, by its parts: the adapter, the frames it has written, the interface of the router to the host and that to the
    Internet, the routes, and what the socket was given. *)
Definition prog (a : NetworkInterfaceAdapter.t) (u : list bytes) (g i : NetworkInterface.t) (mps : list (gmap Z Router.entry))
  (l : list TCPSegment.t) : program :=
  mk a u (table g i mps) l.
Definition some {A} (l : list A) : bool := match l with [] => false | _ => true end.

Definition silent (m : program) : Prop := up m = [] ∧ has_frames (router m) 0 = false ∧ has_frames (router m) 1 = false.

Lemma has_frames_host g i mps : has_frames (table g i mps) 0 = some (NetworkInterface._frames_out g).
Proof. reflexivity. Qed.
Lemma has_frames_internet g i mps : has_frames (table g i mps) 1 = some (NetworkInterface._frames_out i).
Proof. reflexivity. Qed.

Lemma silent_prog a g i mps l : NetworkInterface._frames_out g = [] → NetworkInterface._frames_out i = [] →
  silent (prog a [] g i mps l).
Proof. intros Hg Hi. split; [done|]. cbn [router prog]. by rewrite has_frames_host, has_frames_internet, Hg, Hi. Qed.

Lemma pair_negb c m o : pair (negb c) m o = pair c o m.
Proof. by destruct c. Qed.
Lemma side_pair c m o : side (pair c m o) c = m ∧ side (pair c m o) (negb c) = o.
Proof. by destruct c. Qed.

(** The frame that was just queued, taken off again. *)
Lemma pop_push ni f : NetworkInterface._frames_out ni = [] →
  NetworkInterface.set_frames_out (NetworkInterface.push_frame ni f) [] = ni.
Proof. destruct ni; cbn. by intros ->. Qed.

Lemma pushed ni f : NetworkInterface._frames_out ni = [] → NetworkInterface._frames_out (NetworkInterface.push_frame ni f) = [f].
Proof. intros E. cbn. by rewrite E. Qed.

Lemma take_host g f i mps : NetworkInterface._frames_out g = [] →
  Lab7.front_of (table (NetworkInterface.push_frame g f) i mps) 0 = Ok f ∧
  Lab7.pop_of (table (NetworkInterface.push_frame g f) i mps) 0 = Ok (table g i mps).
Proof. destruct g; cbn. by intros ->. Qed.
Lemma take_internet g f i mps : NetworkInterface._frames_out i = [] →
  Lab7.front_of (table g (NetworkInterface.push_frame i f) mps) 1 = Ok f ∧
  Lab7.pop_of (table g (NetworkInterface.push_frame i f) mps) 1 = Ok (table g i mps).
Proof. destruct i; cbn. by intros ->. Qed.

(** The moves that are possible, from the queues of both programs. *)
Lemma enabled_pair c m o e : enabled (pair c m o) e = true ↔
  (e = HostToRouter c ∧ some (up m) = true ∨ e = RouterToHost c ∧ has_frames (router m) 0 = true ∨
   e = RouterToInternet c ∧ has_frames (router m) 1 = true) ∨
  (e = HostToRouter (negb c) ∧ some (up o) = true ∨ e = RouterToHost (negb c) ∧ has_frames (router o) 0 = true ∨
   e = RouterToInternet (negb c) ∧ has_frames (router o) 1 = true).
Proof. destruct e as [[]|[]|[]], c; cbn; fold (some (up m)); fold (some (up o)); intuition congruence. Qed.

Lemma quiet_pair c m o : silent m → silent o → ∀ e, enabled (pair c m o) e = false.
Proof.
  intros (U & G & I) (U' & G' & I') e. apply not_true_iff_false. rewrite enabled_pair, U, U', G, G', I, I'. simpl; intuition congruence.
Qed.

Lemma go_up c a raw g i mps l g2 i2 o n p' : NetworkInterface._frames_out g = [] → NetworkInterface._frames_out i = [] → silent o →
  Lab7.receive (table g i mps) 0 raw = Ok (table g2 i2 mps) →
  forced n (pair c (prog a [] g2 i2 mps l) o) p' → forced (S n) (pair c (prog a [raw] g i mps l) o) p'.
Proof.
  intros Hg Hi (U & G & I) Hr. apply (forced_move (HostToRouter c)).
  - intros e. rewrite enabled_pair, U, G, I. cbn [router prog up]. rewrite has_frames_host, has_frames_internet, Hg, Hi.
    simpl; intuition congruence.
  - unfold step. destruct (side_pair c (prog a [raw] g i mps l) o) as [-> ->]. cbn [up router prog]. by rewrite Hr.
Qed.

Lemma go_down c a g f i mps l a' out seg o n p' :
  NetworkInterface._frames_out g = [] → NetworkInterface._frames_out i = [] → silent o →
  NetworkInterfaceAdapter.read a (Lab7.wire_bytes f) = Ok (a', out, seg) →
  forced n (pair c (prog a' (BufferList.concatenate <$> out) g i mps (l ++ option_list seg)) o) p' →
  forced (S n) (pair c (prog a [] (NetworkInterface.push_frame g f) i mps l) o) p'.
Proof.
  intros Hg Hi (U & G & I) Hr. apply (forced_move (RouterToHost c)).
  - intros e. rewrite enabled_pair, U, G, I. cbn [router prog up]. rewrite has_frames_host, has_frames_internet, Hi. cbn.
    rewrite Hg. simpl; intuition congruence.
  - unfold step. destruct (side_pair c (prog a [] (NetworkInterface.push_frame g f) i mps l) o) as [-> ->].
    cbn [up router prog adapter got]. destruct (take_host g f i mps Hg) as [E1 E2].
    by rewrite E1, result_bind_ok, E2, result_bind_ok, Hr.
Qed.

Lemma go_over c a g i f mps l b h j mps' l' h2 j2 n p' :
  NetworkInterface._frames_out g = [] → NetworkInterface._frames_out i = [] →
  NetworkInterface._frames_out h = [] → NetworkInterface._frames_out j = [] →
  Lab7.receive (table h j mps') 1 (Lab7.wire_bytes f) = Ok (table h2 j2 mps') →
  forced n (pair c (prog a [] g i mps l) (prog b [] h2 j2 mps' l')) p' →
  forced (S n) (pair c (prog a [] g (NetworkInterface.push_frame i f) mps l) (prog b [] h j mps' l')) p'.
Proof.
  intros Hg Hi Hh Hj Hr. apply (forced_move (RouterToInternet c)).
  - intros e. rewrite enabled_pair. cbn [router prog up]. rewrite !has_frames_host, !has_frames_internet, Hg, Hh, Hj. cbn.
    rewrite Hi. simpl; intuition congruence.
  - unfold step. destruct (side_pair c (prog a [] g (NetworkInterface.push_frame i f) mps l) (prog b [] h j mps' l')) as [-> ->].
    cbn [up router prog adapter got]. destruct (take_internet g f i mps Hi) as [E1 E2].
    by rewrite E1, result_bind_ok, E2, result_bind_ok, Hr.
Qed.

Lemma table_drained g i mps : Router.drained (Router._interfaces (table g i mps)).
Proof. repeat (constructor; [done|]). constructor. Qed.

(** An ARP frame at an interface of a router, and at an adapter. *)
Lemma receive_arp rules itfs mps k a ni dst m b' :
  Router.answers rules mps → Router.drained itfs → itfs !! k = Some a →
  NetworkInterface.inv ni → NetworkInterface.inv (AsyncNetworkInterface.base a) → length dst = 6%nat →
  ARPMessage.valid m → ARPMessage.supported m = true → NetworkInterface.recv_arp (AsyncNetworkInterface.base a) m = Ok b' →
  Lab7.receive (Router.mk itfs mps) (Z.of_nat k) (Lab7.wire_bytes (arp_frame ni dst m))
  = Ok (Router.mk (<[k := AsyncNetworkInterface.of_interface b']> itfs) mps).
Proof.
  intros Ha Hdr Ek Hni Hb Hdst Hv Hs Er.
  destruct (NetworkInterface.arp_frame_handled ni (AsyncNetworkInterface.base a) m dst) as (f & Et & Ef); [done..|].
  rewrite Er, result_bind_ok in Ef. unfold Lab7.receive. unfold NetworkInterface.transit in Et.
  unfold Lab7.wire_bytes, arp_frame. rewrite Et, result_bind_ok. simpl negb. cbv iota.
  unfold Router.interface. cbn [Router._interfaces]. rewrite Nat2Z.id, Ek, result_bind_ok.
  unfold AsyncNetworkInterface.recv_frame. rewrite Ef, !result_bind_ok. cbv beta iota.
  pose proof (Forall_lookup_1 _ _ _ _ Hdr Ek) as Hq. unfold AsyncNetworkInterface.datagrams_out in Hq. simpl in Hq.
  rewrite Hq. unfold Router.set_interface. cbn [Router._interfaces Router.route_mps]. rewrite Nat2Z.id.
  apply (Router.route_drained rules); [done|]. by apply Forall_insert.
Qed.

Lemma receive_arp_host rules g i mps ni dst m g' : Router.answers rules mps →
  NetworkInterface.inv ni → NetworkInterface.inv g → length dst = 6%nat →
  ARPMessage.valid m → ARPMessage.supported m = true → NetworkInterface.recv_arp g m = Ok g' →
  Lab7.receive (table g i mps) 0 (Lab7.wire_bytes (arp_frame ni dst m)) = Ok (table g' i mps).
Proof.
  intros Ha. apply (receive_arp rules (Router._interfaces (table g i mps)) mps 0 (AsyncNetworkInterface.of_interface g));
    [done | apply table_drained | done].
Qed.
Lemma receive_arp_internet rules g i mps ni dst m i' : Router.answers rules mps →
  NetworkInterface.inv ni → NetworkInterface.inv i → length dst = 6%nat →
  ARPMessage.valid m → ARPMessage.supported m = true → NetworkInterface.recv_arp i m = Ok i' →
  Lab7.receive (table g i mps) 1 (Lab7.wire_bytes (arp_frame ni dst m)) = Ok (table g i' mps).
Proof.
  intros Ha. apply (receive_arp rules (Router._interfaces (table g i mps)) mps 1 (AsyncNetworkInterface.of_interface i));
    [done | apply table_drained | done].
Qed.

Lemma read_arp a ni dst m b' :
  NetworkInterface.inv ni → NetworkInterface.inv (TCPOverIPv4OverEthernetAdapter._interface a) → length dst = 6%nat →
  ARPMessage.valid m → ARPMessage.supported m = true →
  NetworkInterface.recv_arp (TCPOverIPv4OverEthernetAdapter._interface a) m = Ok b' →
  NetworkInterfaceAdapter.read a (Lab7.wire_bytes (arp_frame ni dst m))
  = Ok (TCPOverIPv4OverEthernetAdapter.set_interface a (NetworkInterface.set_frames_out b' []),
        EthernetFrame.serialize <$> NetworkInterface._frames_out b', None).
Proof.
  intros Hni Hb Hdst Hv Hs Er.
  destruct (NetworkInterface.arp_frame_handled ni (TCPOverIPv4OverEthernetAdapter._interface a) m dst) as (f & Et & Ef); [done..|].
  rewrite Er, result_bind_ok in Ef. unfold NetworkInterfaceAdapter.read, TCPOverIPv4OverEthernetAdapter.read.
  unfold NetworkInterface.transit in Et. unfold Lab7.wire_bytes, arp_frame. rewrite Et, result_bind_ok. simpl negb. cbv iota.
  by rewrite Ef, result_bind_ok.
Qed.

(** ** The three hops of a datagram *)

(** From the host to its router, which sends it on over the Internet. *)
Lemma leave c a g i mps l o d ns : Router.answers (Lab7.routes c) mps →
  linkage (TCPOverIPv4OverEthernetAdapter._interface a) g (Lab7.host_ip c) (Lab7.gateway_ip c) →
  NetworkInterface._frames_out i = [] → silent o →
  IPv4Datagram.sendable d → 2 <= IPv4Header.ttl (IPv4Datagram.header d) →
  IPv4Header.dst (IPv4Datagram.header d) = Lab7.host_ip (negb c) →
  NetworkInterface.send_datagram (TCPOverIPv4OverEthernetAdapter._interface a) d (Address.of_ipv4 (Lab7.gateway_ip c)) = Ok ns →
  ∃ na' g' d' n, (n <= 3)%nat ∧ linkage na' g' (Lab7.host_ip c) (Lab7.gateway_ip c) ∧
    acquainted na' g' (Lab7.host_ip c) (Lab7.gateway_ip c) ∧ Lab7.forwarded d d' ∧
    ∀ i' k p', NetworkInterface.send_datagram i d' (Address.of_ipv4 (Lab7.internet_ip (negb c))) = Ok i' →
      forced k (pair c (prog (TCPOverIPv4OverEthernetAdapter.set_interface a na') [] g' i' mps l) o) p' →
      forced (n + k) (pair c (prog (TCPOverIPv4OverEthernetAdapter.set_interface a (NetworkInterface.set_frames_out ns []))
        (Lab7.wire_bytes <$> NetworkInterface._frames_out ns) g i mps l) o) p'.
Proof.
  intros Ha Hl Fi So Hd Httl Hdst Es. destruct (IPv4Datagram.datagram_serialize_wire d Hd) as (_ & ld & El & _).
  destruct (link_send _ g _ _ d ld Hl Hd El) as (na' & g' & Hs & Hl' & Hq' & En & Eg).
  pose proof (lk_inv _ _ _ _ Hl') as [In Ig]. destruct (Lab7.best_far c) as (ru & Hb & Hru).
  destruct (Lab7.receive_datagram (Lab7.routes c) (table g' i mps) 0 (AsyncNetworkInterface.of_interface g') na' d ld 1
    (AsyncNetworkInterface.of_interface i) ru (Lab7.internet_ip (negb c))) as (d' & l' & Hf & El' & Hr);
    try done; [apply table_drained | by rewrite Hdst | by rewrite Hru | by rewrite Hru|].
  assert (data_frame na' g' ld = data_frame (TCPOverIPv4OverEthernetAdapter._interface a) g ld) as Ef
    by (unfold data_frame, NetworkInterface.frame; by rewrite En, Eg).
  change (NetworkInterface.frame na' _ _ ld) with (data_frame na' g' ld) in Hr. rewrite Ef in Hr.
  destruct Hl as [[Ia Ig0] _ _ _ [Fa Fg] _ _ _]. pose proof (lk_idle _ _ _ _ Hl') as [Fa' Fg'].
  destruct Hs as [(E & -> & ->)|(n1 & q & r & I1 & F1 & Vq & Sq & Vr & Sr & E1 & E2 & E3)].
  - rewrite Es in E. injection E as ->. exists (TCPOverIPv4OverEthernetAdapter._interface a), g, d', 1%nat.
    split; [lia|]. do 3 (split; [done|]). intros i' k p' Ei Hk. rewrite pop_push, pushed by done.
    eapply go_up; [done | done | done | by apply Hr | done].
  - rewrite Es in E1. injection E1 as ->. exists na', g', d', 3%nat.
    split; [lia|]. do 3 (split; [done|]). intros i' k p' Ei Hk. rewrite pop_push, pushed by done.
    eapply go_up; [done | done | done | |].
    { eapply (receive_arp_host (Lab7.routes c)); [exact Ha | exact Ia | exact Ig0 | done | exact Vq | exact Sq | exact E2]. }
    eapply go_down; [done | done | done | |].
    { apply read_arp; [done | done | apply Ia | done | done | exact E3]. }
    rewrite pop_push, pushed, app_nil_r by done.
    eapply go_up; [done | done | done | by apply Hr | done].
Qed.

(** From one router to the other, which sends it on to its host. *)
Lemma cross c a g i mps l b h j mps' l' d is_ : Router.answers (Lab7.routes c) mps → Router.answers (Lab7.routes (negb c)) mps' →
  linkage i j (Lab7.internet_ip c) (Lab7.internet_ip (negb c)) →
  NetworkInterface._frames_out g = [] → NetworkInterface._frames_out h = [] →
  IPv4Datagram.sendable d → 2 <= IPv4Header.ttl (IPv4Datagram.header d) →
  IPv4Header.dst (IPv4Datagram.header d) = Lab7.host_ip (negb c) →
  NetworkInterface.send_datagram i d (Address.of_ipv4 (Lab7.internet_ip (negb c))) = Ok is_ →
  ∃ i' j' d' n, (n <= 3)%nat ∧ linkage i' j' (Lab7.internet_ip c) (Lab7.internet_ip (negb c)) ∧
    acquainted i' j' (Lab7.internet_ip c) (Lab7.internet_ip (negb c)) ∧ Lab7.forwarded d d' ∧
    ∀ h' k p', NetworkInterface.send_datagram h d' (Address.of_ipv4 (Lab7.host_ip (negb c))) = Ok h' →
      forced k (pair c (prog a [] g i' mps l) (prog b [] h' j' mps' l')) p' →
      forced (n + k) (pair c (prog a [] g is_ mps l) (prog b [] h j mps' l')) p'.
Proof.
  intros Ha Ha' Hl Fg Fh Hd Httl Hdst Es. destruct (IPv4Datagram.datagram_serialize_wire d Hd) as (_ & ld & El & _).
  destruct (link_send i j _ _ d ld Hl Hd El) as (i' & j' & Hs & Hl' & Hq' & Ei & Ej).
  pose proof (lk_inv _ _ _ _ Hl') as [Ii' Ij']. destruct (Lab7.best_near (negb c)) as (ru & Hb & Hru).
  destruct (Lab7.receive_datagram (Lab7.routes (negb c)) (table h j' mps') 1 (AsyncNetworkInterface.of_interface j') i' d ld 0
    (AsyncNetworkInterface.of_interface h) ru (Lab7.host_ip (negb c))) as (d' & ld' & Hf & El' & Hr);
    try done; [apply table_drained | by rewrite Hdst | by rewrite Hru | by rewrite Hru, Hdst|].
  assert (data_frame i' j' ld = data_frame i j ld) as Ef by (unfold data_frame, NetworkInterface.frame; by rewrite Ei, Ej).
  change (NetworkInterface.frame i' _ _ ld) with (data_frame i' j' ld) in Hr. rewrite Ef in Hr.
  destruct Hl as [[Ii Ij] _ _ _ [Fi Fj] _ _ _]. pose proof (lk_idle _ _ _ _ Hl') as [Fi' Fj'].
  destruct Hs as [(E & -> & ->)|(n1 & q & r & I1 & F1 & Vq & Sq & Vr & Sr & E1 & E2 & E3)].
  - rewrite Es in E. injection E as ->. exists i, j, d', 1%nat.
    split; [lia|]. do 3 (split; [done|]). intros h' k p' Eh Hk.
    eapply go_over; [done | done | done | done | by apply Hr | done].
  - rewrite Es in E1. injection E1 as ->. exists i', j', d', 3%nat.
    split; [lia|]. do 3 (split; [done|]). intros h' k p' Eh Hk.
    eapply go_over; [done | done | done | done | |].
    { eapply (receive_arp_internet (Lab7.routes (negb c))); [exact Ha' | exact Ii | exact Ij | done | exact Vq | exact Sq | exact E2]. }
    rewrite <- pair_negb. eapply go_over; [done | done | done | done | |].
    { eapply (receive_arp_internet (Lab7.routes c)); [exact Ha | exact Ij | exact I1 | apply Ii | exact Vr | exact Sr | exact E3]. }
    rewrite pair_negb. eapply go_over; [done | done | done | done | by apply Hr | done].
Qed.

(** From a router to its host, whose adapter gives the segment to the socket. *)
Lemma arrive c b h j mps l o d hs bb (P : TCPSegment.t → Prop) : Router.answers (Lab7.routes c) mps →
  linkage h (TCPOverIPv4OverEthernetAdapter._interface b) (Lab7.gateway_ip c) (Lab7.host_ip c) →
  NetworkInterface._frames_out j = [] → silent o → IPv4Datagram.sendable d →
  NetworkInterface.send_datagram h d (Address.of_ipv4 (Lab7.host_ip c)) = Ok hs →
  (∀ e, NetworkInterface.same_datagram d e →
    ∃ s, P s ∧ TCPOverIPv4Adapter.unwrap_tcp_in_ip (TCPOverIPv4OverEthernetAdapter.base b) e = Ok (bb, Some s)) →
  ∃ h' nb' s n, (n <= 3)%nat ∧ linkage h' nb' (Lab7.gateway_ip c) (Lab7.host_ip c) ∧
    acquainted h' nb' (Lab7.gateway_ip c) (Lab7.host_ip c) ∧ P s ∧
    ∀ k p', forced k (pair c (prog (TCPOverIPv4OverEthernetAdapter.mk bb nb' (TCPOverIPv4OverEthernetAdapter._next_hop b)) [] h' j mps
                        (l ++ [s])) o) p' →
      forced (n + k) (pair c (prog b [] hs j mps l) o) p'.
Proof.
  intros Ha Hl Fj So Hd Es Hu. destruct (IPv4Datagram.datagram_serialize_wire d Hd) as (_ & ld & El & _).
  destruct (link_send h _ _ _ d ld Hl Hd El) as (h' & nb' & Hs & Hl' & Hq' & Eh & Eb).
  pose proof (lk_inv _ _ _ _ Hl') as [Ih' Ib']. pose proof (lk_idle _ _ _ _ Hl') as [Fh' Fb'].
  destruct (NetworkInterface.ipv4_frame_delivers h' nb' d ld Ih' Ib' Hd El) as (f & e & Et & Er & Hsame).
  destruct (Hu e Hsame) as (s & HP & Eu).
  pose proof (ethernet_read (TCPOverIPv4OverEthernetAdapter.set_interface b nb') _ f e bb (Some s) Et Er Fb' Eu) as Hr.
  assert (data_frame h' nb' ld = data_frame h (TCPOverIPv4OverEthernetAdapter._interface b) ld) as Ef
    by (unfold data_frame, NetworkInterface.frame; by rewrite Eh, Eb).
  change (NetworkInterface.frame h' _ _ ld) with (data_frame h' nb' ld) in Hr. rewrite Ef in Hr.
  destruct Hl as [[Ih Ib] _ _ _ [Fh Fb] _ _ _].
  exists h', nb', s. destruct Hs as [(E & -> & ->)|(n1 & q & r & I1 & F1 & Vq & Sq & Vr & Sr & E1 & E2 & E3)].
  - rewrite Es in E. injection E as ->. exists 1%nat. split; [lia|]. do 3 (split; [done|]). intros k p' Hk.
    destruct b as [bs nb nx]. eapply go_down; [done | done | done | exact Hr | exact Hk].
  - rewrite Es in E1. injection E1 as ->. exists 3%nat. split; [lia|]. do 3 (split; [done|]). intros k p' Hk.
    eapply go_down; [done | done | done | |].
    { apply read_arp; [exact Ih | exact Ib | done | exact Vq | exact Sq | exact E2]. }
    rewrite pop_push, pushed, app_nil_r by done. eapply go_up; [done | done | done | |].
    { eapply (receive_arp_host (Lab7.routes c)); [exact Ha | exact Ib | exact I1 | apply Ih | exact Vr | exact Sr | exact E3]. }
    eapply go_down; [done | done | done | exact Hr | exact Hk].
Qed.

(** ** One segment *)

(** A program at rest. *)
Record at_rest (c : bool) (m : program) (g i : NetworkInterface.t) : Prop := {
  r_router : ∃ mps, router m = table g i mps ∧ Router.answers (Lab7.routes c) mps;
  r_up : up m = [];
  r_hop : TCPOverIPv4OverEthernetAdapter._next_hop (adapter m) = Address.of_ipv4 (Lab7.gateway_ip c);
  r_link : linkage (TCPOverIPv4OverEthernetAdapter._interface (adapter m)) g (Lab7.host_ip c) (Lab7.gateway_ip c) }.

(** Both programs at rest, with the link between the routers; and with all the addresses known. *)
Definition calm (c : bool) (m o : program) : Prop := ∃ g i h j, at_rest c m g i ∧ at_rest (negb c) o h j ∧
  linkage i j (Lab7.internet_ip c) (Lab7.internet_ip (negb c)).
Definition met (c : bool) (m o : program) : Prop := ∃ g i h j, at_rest c m g i ∧ at_rest (negb c) o h j ∧
  linkage i j (Lab7.internet_ip c) (Lab7.internet_ip (negb c)) ∧
  acquainted (TCPOverIPv4OverEthernetAdapter._interface (adapter m)) g (Lab7.host_ip c) (Lab7.gateway_ip c) ∧
  acquainted i j (Lab7.internet_ip c) (Lab7.internet_ip (negb c)) ∧
  acquainted (TCPOverIPv4OverEthernetAdapter._interface (adapter o)) h (Lab7.host_ip (negb c)) (Lab7.gateway_ip (negb c)).

Lemma calm_quiet c m o : calm c m o → ∀ e, enabled (pair c m o) e = false.
Proof.
  intros (g & i & h & j & [(mps & Er & _) Um _ Lm] & [(mps' & Er' & _) Uo _ Lo] & Lij). destruct (lk_idle _ _ _ _ Lij) as [Fi Fj].
  destruct (lk_idle _ _ _ _ Lm) as [_ Fg], (lk_idle _ _ _ _ Lo) as [_ Fh].
  destruct m as [a u r l], o as [b v r' l']. cbn in *. subst. apply quiet_pair; by apply silent_prog.
Qed.

Definition base_of (m : program) : FdAdapterBase.t := TCPOverIPv4OverEthernetAdapter.base (adapter m).

(** Written by the adapter, the datagram of a segment goes to the interface. *)
Lemma write_pair c m o seg seg' d ns hop :
  TCPOverIPv4Adapter.wrap_tcp_in_ip (base_of m) seg = Ok (seg', d) →
  TCPOverIPv4OverEthernetAdapter._next_hop (adapter m) = Address.of_ipv4 hop →
  NetworkInterface.send_datagram (TCPOverIPv4OverEthernetAdapter._interface (adapter m)) d (Address.of_ipv4 hop) = Ok ns →
  write (pair c m o) c seg
  = Ok (pair c (mk (TCPOverIPv4OverEthernetAdapter.set_interface (adapter m) (NetworkInterface.set_frames_out ns []))
                  (up m ++ (Lab7.wire_bytes <$> NetworkInterface._frames_out ns)) (router m) (got m)) o).
Proof.
  intros Ew Eh Es. unfold write. destruct (side_pair c m o) as [-> ->].
  unfold NetworkInterfaceAdapter.write, TCPOverIPv4OverEthernetAdapter.write. fold (base_of m).
  rewrite Ew, result_bind_ok, Eh, Es, result_bind_ok. cbn [fst snd].
  unfold TCPOverIPv4OverEthernetAdapter.send_pending. rewrite result_bind_ok. by rewrite <- list_fmap_compose.
Qed.

End Network.

Section Conversation.
Context `{Address.NumericResolver}.

(** The adapter of a side is connected, with these ports; the listening one has no destination yet. *)
Definition connected (port : bool → Z) (c : bool) (b : FdAdapterBase.t) : Prop :=
  FdAdapterBase.source b = Address.endpoint (Lab7.host_ip c) (port c) ∧
  FdAdapterBase.destination b = Address.endpoint (Lab7.host_ip (negb c)) (port (negb c)) ∧ FdAdapterBase.listening b = false.
Definition listening (port : bool → Z) (c : bool) (b : FdAdapterBase.t) : Prop :=
  FdAdapterBase.source b = Address.endpoint (Lab7.host_ip c) (port c) ∧
  (∃ ip p, 0 <= ip < two32 ∧ 0 <= p < two16 ∧ FdAdapterBase.destination b = Address.endpoint ip p) ∧
  FdAdapterBase.listening b = true.

Definition opens (seg : TCPSegment.t) : Prop :=
  TCPHeader.syn (TCPSegment.header seg) = true ∧ TCPHeader.rst (TCPSegment.header seg) = false.

(** What the socket of side [c] is given for a segment of the other. *)
Definition addressed (port : bool → Z) (c : bool) (seg : TCPSegment.t) : TCPSegment.t :=
  TCPOverIPv4Adapter.set_ports seg (port (negb c)) (port c).

(** The far adapter accepts what has crossed both routers. *)
Lemma accepts port c a b seg d : (∀ c, 0 <= port c < two16) → connected port c a →
  connected port (negb c) b ∨ listening port (negb c) b ∧ opens seg → fits seg →
  TCPOverIPv4Adapter.wrap_tcp_in_ip a seg = Ok (addressed port (negb c) seg, d) →
  ∃ bb, connected port (negb c) bb ∧
    ∀ d1 d2 e, Lab7.forwarded d d1 → Lab7.forwarded d1 d2 → NetworkInterface.same_datagram d2 e →
    ∃ s, same_segment (addressed port (negb c) seg) s ∧ TCPOverIPv4Adapter.unwrap_tcp_in_ip b e = Ok (bb, Some s).
Proof.
  intros Hp (Sa & Da & _) Hb Hf Ew. destruct (Lab7.ip_ranges c) as (Rc & _ & _).
  destruct (Lab7.ip_ranges (negb c)) as (Rn & _ & _).
  assert (∃ ip4 p4, 0 <= ip4 < two32 ∧ 0 <= p4 < two16 ∧ FdAdapterBase.source b = Address.endpoint (Lab7.host_ip (negb c)) (port (negb c)) ∧
    FdAdapterBase.destination b = Address.endpoint ip4 p4 ∧ if FdAdapterBase.listening b then opens seg
      else ip4 = Lab7.host_ip c ∧ p4 = port c) as (ip4 & p4 & R4 & P4 & Sb & Db & Hc).
  { destruct Hb as [(Sb & Db & ->)|[(Sb & (ip4 & p4 & R4 & P4 & Db) & ->) Hs]]; [|by exists ip4, p4].
    rewrite negb_involutive in Db. exists (Lab7.host_ip c), (port c). done. }
  exists (if FdAdapterBase.listening b then accepted b (FdAdapterBase.source b) (Address.endpoint (Lab7.host_ip c) (port c)) else b).
  split.
  { unfold connected. rewrite negb_involutive. destruct (FdAdapterBase.listening b) eqn:El; [done|]. destruct Hc as [-> ->]. done. }
  intros d1 d2 e F1 F2 He. pose proof (Lab7.forwarded_twice d d1 d2 e F1 F2 He) as Hsame.
  destruct (unwrap_eval a b seg _ _ _ _ _ _ _ _ _ _ Rc (Hp c) Rn (Hp (negb c)) Rn (Hp (negb c)) R4 P4 Sa Da Sb Db Hf Ew Hsame)
    as (s & Es & Eu). exists s. split; [done|]. rewrite unwrap_ttl, !Z.eqb_refl in Eu.
  destruct (FdAdapterBase.listening b); destruct Hc as [E1 E2]; rewrite E1, E2, ?Z.eqb_refl in Eu; [by rewrite Sb | exact Eu].
Qed.

(** From adapter to adapter. *)
Lemma travels c a g i mps l b h j mps' l' d ns bb (P : TCPSegment.t → Prop) :
  at_rest c (prog a [] g i mps l) g i → at_rest (negb c) (prog b [] h j mps' l') h j →
  linkage i j (Lab7.internet_ip c) (Lab7.internet_ip (negb c)) →
  IPv4Datagram.sendable d → 3 <= IPv4Header.ttl (IPv4Datagram.header d) →
  IPv4Header.dst (IPv4Datagram.header d) = Lab7.host_ip (negb c) →
  NetworkInterface.send_datagram (TCPOverIPv4OverEthernetAdapter._interface a) d (Address.of_ipv4 (Lab7.gateway_ip c)) = Ok ns →
  (∀ d1 d2 e, Lab7.forwarded d d1 → Lab7.forwarded d1 d2 → NetworkInterface.same_datagram d2 e →
    ∃ s, P s ∧ TCPOverIPv4Adapter.unwrap_tcp_in_ip (TCPOverIPv4OverEthernetAdapter.base b) e = Ok (bb, Some s)) →
  ∃ na' g' i' h' j' nb' s n, (n <= 9)%nat ∧ P s ∧ linkage na' g' (Lab7.host_ip c) (Lab7.gateway_ip c) ∧
    linkage i' j' (Lab7.internet_ip c) (Lab7.internet_ip (negb c)) ∧
    linkage h' nb' (Lab7.gateway_ip (negb c)) (Lab7.host_ip (negb c)) ∧
    acquainted na' g' (Lab7.host_ip c) (Lab7.gateway_ip c) ∧ acquainted i' j' (Lab7.internet_ip c) (Lab7.internet_ip (negb c)) ∧
    acquainted h' nb' (Lab7.gateway_ip (negb c)) (Lab7.host_ip (negb c)) ∧
    forced n
      (pair c (prog (TCPOverIPv4OverEthernetAdapter.set_interface a (NetworkInterface.set_frames_out ns []))
                 (Lab7.wire_bytes <$> NetworkInterface._frames_out ns) g i mps l) (prog b [] h j mps' l'))
      (pair c (prog (TCPOverIPv4OverEthernetAdapter.set_interface a na') [] g' i' mps l)
         (prog (TCPOverIPv4OverEthernetAdapter.mk bb nb' (TCPOverIPv4OverEthernetAdapter._next_hop b)) [] h' j' mps' (l' ++ [s]))).
Proof.
  intros [(mps0 & E & Am) _ _ Lm] [(mps1 & E' & Ao) _ _ Lo] Lij Hd Httl Hdst Es Hacc. injection E as <-. injection E' as <-.
  cbn [adapter prog] in Lm, Lo. apply linkage_sym in Lo. destruct (Lab7.ip_ranges (negb c)) as (Rn & _ & Ri).
  destruct (lk_inv _ _ _ _ Lij) as [Ii _], (lk_inv _ _ _ _ Lo) as [Ih _], (lk_idle _ _ _ _ Lm) as [_ Fg].
  destruct (lk_idle _ _ _ _ Lij) as [Fi Fj], (lk_idle _ _ _ _ Lo) as [Fh _].
  destruct (leave c a g i mps l (prog b [] h j mps' l') d ns Am Lm Fi ltac:(by apply silent_prog) Hd ltac:(lia) Hdst Es)
    as (na' & g' & d1 & n1 & Hn1 & Lm' & Qm' & F1 & K1). pose proof F1 as (Hd1 & T1 & _).
  destruct (NetworkInterface.send_datagram_spec i d1 _ Ii Hd1 Ri) as (i1 & Ei & _), (lk_idle _ _ _ _ Lm') as [_ Fg'].
  destruct (cross c (TCPOverIPv4OverEthernetAdapter.set_interface a na') g' i mps l b h j mps' l' d1 i1 Am Ao Lij Fg' Fh Hd1
    ltac:(lia) ltac:(by rewrite (Lab7.forwarded_dst _ _ F1)) Ei) as (i' & j' & d2 & n2 & Hn2 & Lij' & Qij' & F2 & K2).
  pose proof F2 as (Hd2 & _). destruct (NetworkInterface.send_datagram_spec h d2 _ Ih Hd2 Rn) as (h1 & Eh & _).
  destruct (lk_idle _ _ _ _ Lij') as [Fi' Fj'].
  destruct (arrive (negb c) b h j' mps' l' (prog (TCPOverIPv4OverEthernetAdapter.set_interface a na') [] g' i' mps l) d2 h1 bb
    P Ao Lo Fj' ltac:(by apply silent_prog) Hd2 Eh (λ e, Hacc d1 d2 e F1 F2))
    as (h' & nb' & s & n3 & Hn3 & Lo' & Qo' & Hs & K3). destruct (lk_idle _ _ _ _ Lo') as [Fh' _].
  exists na', g', i', h', j', nb', s, (n1 + (n2 + (n3 + 0)))%nat. split; [lia|]. do 7 (split; [done|]).
  apply (K1 i1); [done|]. apply (K2 h1); [done|]. rewrite <- pair_negb. apply K3. rewrite pair_negb.
  apply forced_quiet, quiet_pair; by apply silent_prog.
Qed.

Lemma segment_settles port c m o seg : (∀ c, 0 <= port c < two16) → calm c m o → connected port c (base_of m) →
  connected port (negb c) (base_of o) ∨ listening port (negb c) (base_of o) ∧ opens seg → fits seg →
  ∃ p1 n m' o' s, write (pair c m o) c seg = Ok p1 ∧ (n <= 9)%nat ∧ settles n p1 (pair c m' o') ∧ met c m' o' ∧
    connected port c (base_of m') ∧ connected port (negb c) (base_of o') ∧ got m' = got m ∧ got o' = got o ++ [s] ∧
    same_segment (addressed port (negb c) seg) s.
Proof.
  intros Hp (g & i & h & j & Hm & Ho & Lij) Cm Co Hf.
  pose proof Hm as [(mps & Em & Am) Um Nm Lm]. pose proof Ho as [(mps' & Eo & Ao) Uo No _].
  destruct m as [a u r l], o as [b v r' l']. cbn in Em, Um, Nm, Lm, Eo, Uo, No. subst.
  destruct (Lab7.ip_ranges c) as (Rc & Rg & _). destruct (Lab7.ip_ranges (negb c)) as (Rn & _ & _).
  pose proof Cm as (Sa & Da & _).
  destruct (wrap_spec (TCPOverIPv4OverEthernetAdapter.base a) seg _ _ _ _ Rc (Hp c) Rn (Hp (negb c)) Sa Da Hf)
    as (d & Ew & Hd & _ & Hdst & _). pose proof (wrap_ttl _ _ _ _ Ew) as Ettl.
  destruct (lk_inv _ _ _ _ Lm) as [Ia _].
  destruct (NetworkInterface.send_datagram_spec _ d (Lab7.gateway_ip c) Ia Hd Rg) as (ns & Es & _).
  destruct (accepts port c _ _ seg d Hp Cm Co Hf) as (bb & Hbb & Hacc); [unfold addressed; by rewrite negb_involutive |].
  destruct (travels c a g i mps l b h j mps' l' d ns bb _ Hm Ho Lij Hd ltac:(by rewrite Ettl) Hdst Es Hacc)
    as (na' & g' & i' & h' & j' & nb' & s & n & Hn & Hs & Lm' & Lij' & Lo' & Qm' & Qij' & Qo' & Hrun).
  eexists _, n, _, _, s. split; [exact (write_pair c (prog a [] g i mps l) (prog b [] h j mps' l') seg _ d ns _ Ew Nm Es)|].
  split; [done|]. split; [by apply forced_settles, Hrun|]. split; [|by split].
  exists g', i', h', j'. split; [by constructor; [exists mps| | |]|].
  split; [constructor; [by exists mps' | done | done | by apply linkage_sym]|].
  do 3 (split; [done|]). by apply acquainted_sym.
Qed.

(** ** The programs as they start *)

Section Start.
Context (wide_shift : Z → Z → result Z).
(** [inet_ntoa] gives the dotted-decimal notation; the host "0" is 0.0.0.0. *)
Hypothesis dotted_decimal : ∀ ip, 0 <= ip < two32 → Address.inet_ntoa ip = DottedQuad.print ip.
Hypothesis host_zero : Address.of_ip_port [x30] 0 = Ok (Address.of_ipv4 0).

(** A program when its threads start: the router and the adapter of [Lab7.setup], the adapter configured by the client's
    [TCPSocketLab7.connect] or by the server's [bind] and [listen_and_accept].  [rd] gives the random bytes of the
    Ethernet addresses. *)
Definition boot (is_client : bool) (rd : nat → Z) (random_port : Z) : result program :=
  '(r, _, _) ← Lab7.router_setup wide_shift is_client rd;
  ip ← Lab7.address (if is_client then "192.168.0.50" else "172.16.0.100");
  hop ← Lab7.address (if is_client then "192.168.0.1" else "172.16.0.1");
  cfg ← FdAdapterConfig.new;
  let a := NetworkInterfaceAdapter.new cfg (Network.after rd 12) ip hop in
  server ← Address.of_ip_port (text "172.16.0.100") 1234;
  l ← Address.ip ip;
  if is_client then
    local ← Address.of_ip_port l (uint16 random_port);
    Ok (mk (set_config a (FdAdapterConfig.set_destination (FdAdapterConfig.set_source cfg local) server)) [] r [])
  else
    i ← Address.ip server;
    if negb (bool_decide (i = l)) then Throw runtime_error
    else
      p ← Address.port server;
      local ← Address.of_ip_port l p;
      Ok (mk (set_listening (set_config a (FdAdapterConfig.set_source cfg local)) true) [] r []).

Definition ports (random_port : Z) (c : bool) : Z := if c then uint16 random_port else 1234.

Lemma ports_range random_port c : 0 <= ports random_port c < two16.
Proof. destruct c; [apply uint16_range | done]. Qed.

Lemma ip_endpoint ip p : 0 <= ip < two32 → 0 <= p < two16 → Address.ip (Address.endpoint ip p) = Ok (Address.inet_ntoa ip).
Proof.
  intros Hi Hp. unfold Address.ip, Address.ip_port, Address.endpoint. cbn [Address._size Address._address].
  rewrite ztake_app_le by (rewrite Address.len_sockaddr_in; done). rewrite ztake_ge by (rewrite Address.len_sockaddr_in; done).
  rewrite Address.getnameinfo_numeric by done. rewrite Address.stoi_to_string, !result_bind_ok by lia. done.
Qed.

(** Random addresses are not the broadcast address. *)
Lemma unicast rd : random_host_ethernet_address rd ≠ ETHERNET_BROADCAST ∧ random_router_ethernet_address rd ≠ ETHERNET_BROADCAST.
Proof.
  split; [|done]. unfold random_host_ethernet_address. cbn. intros [= E _]. revert E. by destruct (byte_of (rd 0%nat)).
Qed.

Lemma fresh_linkage e1 e2 ip hop : length e1 = 6%nat → length e2 = 6%nat → e1 ≠ ETHERNET_BROADCAST → e2 ≠ ETHERNET_BROADCAST →
  0 <= ip < two32 → 0 <= hop < two32 →
  linkage (NetworkInterface.new e1 (Address.of_ipv4 ip)) (NetworkInterface.new e2 (Address.of_ipv4 hop)) ip hop.
Proof. intros. constructor; try done; [by split; apply NetworkInterface.interface_inv_new | by left]. Qed.

(** The interface to the Internet of a program that starts. *)
Definition internet_start (c : bool) (rd : nat → Z) : NetworkInterface.t :=
  NetworkInterface.new (random_router_ethernet_address (Network.after rd 6)) (Address.of_ipv4 (Lab7.internet_ip c)).

Lemma boot_spec c rd random_port :
  ∃ m g, boot c rd random_port = Ok m ∧ at_rest c m g (internet_start c rd) ∧ got m = [] ∧
    (if c then connected else listening) (ports random_port) c (base_of m).
Proof.
  destruct (Lab7.router_setup_spec dotted_decimal wide_shift c rd) as (mps & Er & Ha).
  destruct (Lab7.ip_ranges c) as (Rh & Rg & _). destruct (Lab7.ip_ranges false) as (Rs & _ & _).
  unfold boot. rewrite Er, result_bind_ok. cbv beta iota.
  rewrite (Lab7.address_literal dotted_decimal (if c then "192.168.0.50" else "172.16.0.100") (Lab7.host_ip c)), result_bind_ok;
    [|exact Rh | destruct c; reflexivity].
  rewrite (Lab7.address_literal dotted_decimal (if c then "192.168.0.1" else "172.16.0.1") (Lab7.gateway_ip c)), result_bind_ok;
    [|exact Rg | destruct c; reflexivity].
  unfold FdAdapterConfig.new. rewrite host_zero, !result_bind_ok.
  assert (Address.of_ip_port (text "172.16.0.100") 1234 = Ok (Address.endpoint (Lab7.host_ip false) 1234)) as Es.
  { change (text "172.16.0.100") with (DottedQuad.print (Lab7.host_ip false)). rewrite <- dotted_decimal by done.
    by apply Address.of_ip_port_numeric. }
  pose proof (ip_endpoint (Lab7.host_ip c) 0 Rh ltac:(lia)) as Ei. change (Address.endpoint (Lab7.host_ip c) 0)
    with (Address.of_ipv4 (Lab7.host_ip c)) in Ei. rewrite Es, result_bind_ok, Ei, result_bind_ok.
  set (g := NetworkInterface.new (random_router_ethernet_address rd) (Address.of_ipv4 (Lab7.gateway_ip c))).
  assert (linkage (NetworkInterface.new (random_host_ethernet_address (Network.after rd 12)) (Address.of_ipv4 (Lab7.host_ip c))) g
    (Lab7.host_ip c) (Lab7.gateway_ip c)) as Hl by (apply fresh_linkage; done || apply unicast).
  destruct c.
  - rewrite Address.of_ip_port_numeric, result_bind_ok by (done || apply uint16_range).
    eexists _, g. split; [reflexivity|]. split; [|done]. constructor; [by exists mps | done | done | done].
  - rewrite ip_endpoint, result_bind_ok by done. rewrite bool_decide_eq_true_2 by done. simpl negb. cbv iota.
    rewrite Address.port_endpoint, result_bind_ok by done. rewrite Address.of_ip_port_numeric, result_bind_ok by done.
    eexists _, g. split; [reflexivity|]. split; [|split; [done|]].
    + constructor; [by exists mps | done | done | done].
    + split; [done|]. split; [by exists 0, 0 | done].
Qed.

End Start.

End Conversation.

End Lab7Network.
