(* ===== verification/lab7_traffic.v ===== *)
(** * The traffic of two lab7 programs

    What happens in the network of lab7_network once the first segment has crossed it and all addresses are known.  The
    sockets write when they like, the threads move frames in any order, and time passes for the adapters and for the
    routers: an adapter is told how much, a router ages its mappings by 50 ms in every turn of its loop (the calls of [tick] in [network_loop]
    of lab7).  [lab7_conversation] follows both programs from their start. *)

From stdpp Require Import strings gmap.
From S2P Require Import Prelude byte_stream buffer parser system address file_descriptor socket eventloop tcp_header tcp_segment wrapping_integers.
From S2P Require Import ipv4 ethernet tcp_config network_interface router network_simulator adapters tcp_sponge_socket lab7 lab7_network.

Module Lab7Traffic.
Import Lab7Network.

(** ** Writes, moves and time *)

Inductive action :=
| Write (c : bool) (seg : TCPSegment.t)
| Move (e : event)
| HostTick (c : bool) (ms : Z)
| RouterTick (c : bool).

Section Actions.
Context `{Address.Resolver}.

Definition perform (p : t) (a : action) : result t :=
  match a with
  | Write c seg => write p c seg
  | Move e => step p e
  | HostTick c ms =>
      let m := side p c in
      '(a, out) ← NetworkInterfaceAdapter.tick (adapter m) ms;
      Ok (pair c (mk a (up m ++ (BufferList.concatenate <$> out)) (router m) (got m)) (side p (negb c)))
  | RouterTick c =>
      let m := side p c in
      r ← Lab7.tick_side (router m) 0 50;
      r ← Lab7.tick_side r 1 50;
      Ok (pair c (mk (adapter m) (up m) r (got m)) (side p (negb c)))
  end.

(** What the sockets and the threads may do: write what fits a datagram, move a frame that is there, and let time pass. *)
Definition allowed (p : t) (a : action) : Prop :=
  match a with
  | Write _ seg => fits seg
  | Move e => enabled p e = true
  | HostTick _ ms => 0 <= ms
  | RouterTick _ => True
  end.

Inductive performs : t → list action → t → Prop :=
| performs_nil p : performs p [] p
| performs_snoc p acts q a p' : performs p acts q → allowed q a → perform q a = Ok p' → performs p (acts ++ [a]) p'.

End Actions.

(** The time that has passed for the adapter and for the router of side [c]. *)
Definition host_ms (c : bool) (a : action) : Z := match a with HostTick c' ms => if Bool.eqb c' c then ms else 0 | _ => 0 end.
Definition router_ms (c : bool) (a : action) : Z := match a with RouterTick c' => if Bool.eqb c' c then 50 else 0 | _ => 0 end.
Definition total (f : action → Z) (acts : list action) : Z := foldr (λ a z, f a + z) 0 acts.

(** Less than the 30 s after which a mapping expires. *)
Definition in_time (acts : list action) : Prop :=
  ∀ c, total (host_ms c) acts < 30000 ∧ total (router_ms c) acts < 30000.

(** The segments that side [c] has written, and the number of moves. *)
Definition written_by (c : bool) (acts : list action) : list TCPSegment.t :=
  omap (λ a, match a with Write c' seg => if Bool.eqb c' c then Some seg else None | _ => None end) acts.
Definition count_moves (acts : list action) : nat := length (omap (λ a, match a with Move e => Some e | _ => None end) acts).

Lemma total_snoc f acts a : total f (acts ++ [a]) = total f acts + f a.
Proof. induction acts as [|b acts IH]; simpl in *; lia. Qed.

Lemma written_by_snoc c acts a : written_by c (acts ++ [a])
  = written_by c acts ++ match a with Write c' seg => if Bool.eqb c' c then [seg] else [] | _ => [] end.
Proof. unfold written_by. rewrite omap_app. f_equal. by destruct a as [c' seg| | |]; simpl; [destruct (Bool.eqb c' c)|..]. Qed.

Lemma count_moves_snoc acts a : count_moves (acts ++ [a]) = (count_moves acts + match a with Move _ => 1 | _ => 0 end)%nat.
Proof. unfold count_moves. rewrite omap_app, length_app. by destruct a. Qed.

(** ** An interface that knows its peer *)

Record station (ms : Z) (b : NetworkInterface.t) (eth : EthernetAddress) (hop : Z) (peer : EthernetAddress) : Prop := {
  t_inv : NetworkInterface.inv b;
  t_eth : NetworkInterface._ethernet_address b = eth;
  t_known : ∃ age, NetworkInterface._addr_mp b !! hop = Some (age, peer);
  t_age : map_Forall (λ _ e, 30000 - ms <= e.1) (NetworkInterface._addr_mp b) }.

Lemma station_frames ms b eth hop peer q : station ms b eth hop peer → station ms (NetworkInterface.set_frames_out b q) eth hop peer.
Proof. intros [[] ? ? ?]. by constructor; [constructor|..]. Qed.

Lemma station_tick ms b eth hop peer ms' : station ms b eth hop peer → 0 <= ms' → ms + ms' < 30000 →
  ∃ b', NetworkInterface.tick b ms' = Ok b' ∧ station (ms + ms') b' eth hop peer ∧
    NetworkInterface._frames_out b' = NetworkInterface._frames_out b.
Proof.
  intros [Hi He (age & Ek) Ha] H0 Hlt.
  assert (NetworkInterface.tick b ms' = Ok (NetworkInterface.set_addr_mp b ((λ e, (e.1 - ms', e.2)) <$> NetworkInterface._addr_mp b))) as E.
  { rewrite (NetworkInterface.interface_tick_spec IPv4Datagram.sendable) by done. rewrite bool_decide_eq_true_2; [done|].
    intros k e Ee. specialize (Ha k e Ee). simpl in Ha. lia. }
  rewrite E. eexists. split; [done|]. split; [|done]. constructor; [| done | |].
  - by apply (NetworkInterface.tick_keeps _ b ms').
  - exists (age - ms'). simpl. by rewrite lookup_fmap, Ek.
  - intros k e. simpl. intros (e0 & <- & Ee)%lookup_fmap_Some. specialize (Ha k e0 Ee). simpl in *. lia.
Qed.

Lemma station_linkage ni nj ip hop : linkage ni nj ip hop → acquainted ni nj ip hop →
  station 0 ni (NetworkInterface._ethernet_address ni) hop (NetworkInterface._ethernet_address nj).
Proof.
  intros [[Hi _] _ _ _ _ _ _ [Hn _]] (age & _ & E & _). constructor; [done | done | by exists age|].
  intros k e Ee. rewrite (Hn k e Ee : e.1 = 30000). lia.
Qed.

(** A frame with a datagram, by its addresses. *)
Definition sframe (src dst : EthernetAddress) (l : BufferList.t) : EthernetFrame.t :=
  EthernetFrame.mk (EthernetHeader.mk dst src EthernetHeader.TYPE_IPv4) l.

Lemma station_send ms b eth hop peer d l : station ms b eth hop peer → 0 <= hop < two32 → peer ≠ ETHERNET_BROADCAST →
  IPv4Datagram.serialize d = Ok l →
  NetworkInterface.send_datagram b d (Address.of_ipv4 hop) = Ok (NetworkInterface.push_frame b (sframe eth peer l)).
Proof. intros [_ <- (age & Ek) _] Hh Hp El. by apply (NetworkInterface.send_known b d age peer hop l). Qed.

(** ** The way of a segment *)

Section Traffic.
Context `{Address.NumericResolver}.
Context (port : bool → Z) (port_range : ∀ c, 0 <= port c < two16).
(** The Ethernet addresses: of the host, of the router towards it, and of the router towards the Internet. *)
Context (he ge ie : bool → EthernetAddress).
Context (he_unicast : ∀ c, he c ≠ ETHERNET_BROADCAST) (ge_unicast : ∀ c, ge c ≠ ETHERNET_BROADCAST)
  (ie_unicast : ∀ c, ie c ≠ ETHERNET_BROADCAST).

(** The datagram of a segment of side [c], after [k] routers. *)
Fixpoint carried (c : bool) (k : nat) (seg : TCPSegment.t) (d : IPv4Datagram.t) : Prop :=
  match k with
  | O => fits seg ∧ ∃ b, connected port c b ∧ TCPOverIPv4Adapter.wrap_tcp_in_ip b seg = Ok (addressed port (negb c) seg, d)
  | S k => ∃ d0, carried c k seg d0 ∧ Lab7.forwarded d0 d
  end.

Lemma carried_spec c k seg d : carried c k seg d →
  IPv4Datagram.sendable d ∧ IPv4Header.ttl (IPv4Datagram.header d) = 128 - Z.of_nat k ∧
  IPv4Header.dst (IPv4Datagram.header d) = Lab7.host_ip (negb c).
Proof.
  revert d. induction k as [|k IH]; intros d.
  - intros [Hf (b & (Sb & Db & _) & Ew)]. destruct (Lab7.ip_ranges c) as (Rc & _), (Lab7.ip_ranges (negb c)) as (Rn & _).
    destruct (wrap_spec b seg _ _ _ _ Rc (port_range c) Rn (port_range (negb c)) Sb Db Hf) as (d' & Ew' & Hd & _ & Hdst & _).
    rewrite Ew in Ew'. injection Ew' as _ <-. split; [done|]. split; [|done]. by rewrite (wrap_ttl _ _ _ _ Ew).
  - intros (d0 & Hc & Hf). destruct (IH d0 Hc) as (_ & Ht & Hd). pose proof Hf as (Hs & Ht' & _).
    split; [done|]. split; [lia|]. by rewrite (Lab7.forwarded_dst _ _ Hf).
Qed.

(** A frame on its way with a segment of side [c]. *)
Definition frame_of (c : bool) (k : nat) (src dst : EthernetAddress) (seg : TCPSegment.t) (f : EthernetFrame.t) : Prop :=
  ∃ d l, carried c k seg d ∧ IPv4Datagram.serialize d = Ok l ∧ f = sframe src dst l.

(** What side [c] has written, in order: what the other socket was given, and the contents of the three queues on the way
    there. *)
Definition flow (c : bool) (ups : list bytes) (fi fg : list EthernetFrame.t) (given sent : list TCPSegment.t) : Prop :=
  ∃ s1 s2 s3 s4, sent = s1 ++ s2 ++ s3 ++ s4 ∧
    Forall2 (λ seg s, same_segment (addressed port (negb c) seg) s) s1 given ∧
    Forall2 (frame_of c 2 (ge (negb c)) (he (negb c))) s2 fg ∧
    Forall2 (frame_of c 1 (ie c) (ie (negb c))) s3 fi ∧
    Forall2 (λ seg raw, ∃ f, frame_of c 0 (he c) (ge c) seg f ∧ raw = Lab7.wire_bytes f) s4 ups.

(** A program whose interfaces know their peers; [th] and [tr] ms have passed for the adapter and for the router. *)
Record warm (th tr : Z) (c : bool) (m : program) (g i : NetworkInterface.t) : Prop := {
  w_router : ∃ mps, router m = table g i mps ∧ Router.answers (Lab7.routes c) mps;
  w_hop : TCPOverIPv4OverEthernetAdapter._next_hop (adapter m) = Address.of_ipv4 (Lab7.gateway_ip c);
  w_conn : connected port c (base_of m);
  w_idle : NetworkInterface._frames_out (TCPOverIPv4OverEthernetAdapter._interface (adapter m)) = [];
  w_host : station th (TCPOverIPv4OverEthernetAdapter._interface (adapter m)) (he c) (Lab7.gateway_ip c) (ge c);
  w_gate : station tr g (ge c) (Lab7.host_ip c) (he c);
  w_inet : station tr i (ie c) (Lab7.internet_ip (negb c)) (ie (negb c)) }.

(** Both programs and both directions; [n] moves are outstanding. *)
Definition traffic (c : bool) (m o : program) (th tr : bool → Z) (sent : bool → list TCPSegment.t) (n : nat) : Prop :=
  ∃ g i h j, warm (th c) (tr c) c m g i ∧ warm (th (negb c)) (tr (negb c)) (negb c) o h j ∧
    flow c (up m) (NetworkInterface._frames_out i) (NetworkInterface._frames_out h) (got o) (sent c) ∧
    flow (negb c) (up o) (NetworkInterface._frames_out j) (NetworkInterface._frames_out g) (got m) (sent (negb c)) ∧
    n = (3 * (length (up m) + length (up o)) + 2 * (length (NetworkInterface._frames_out i) + length (NetworkInterface._frames_out j)) +
         (length (NetworkInterface._frames_out g) + length (NetworkInterface._frames_out h)))%nat.

Lemma traffic_sym c m o th tr sent n : traffic c m o th tr sent n → traffic (negb c) o m th tr sent n.
Proof.
  intros (g & i & h & j & Hm & Ho & Fm & Fo & ->). exists h, j, g, i. rewrite negb_involutive. do 4 (split; [done|]). lia.
Qed.

(** A frame at the interface of a router, sent on by the other. *)
Lemma station_frame ms b eth hop peer dst l : station ms b eth hop peer →
  sframe eth dst l = NetworkInterface.frame b EthernetHeader.TYPE_IPv4 dst l.
Proof. intros [_ <- _ _]. done. Qed.

Lemma pop_host g i mps f q : NetworkInterface._frames_out g = f :: q →
  Lab7.front_of (table g i mps) 0 = Ok f ∧
  Lab7.pop_of (table g i mps) 0 = Ok (table (NetworkInterface.set_frames_out g q) i mps).
Proof. destruct g; cbn. by intros ->. Qed.
Lemma pop_internet g i mps f q : NetworkInterface._frames_out i = f :: q →
  Lab7.front_of (table g i mps) 1 = Ok f ∧
  Lab7.pop_of (table g i mps) 1 = Ok (table g (NetworkInterface.set_frames_out i q) mps).
Proof. destruct i; cbn. by intros ->. Qed.

(** The first move: from the host to its router. *)
Lemma move_up c m o th tr sent n : traffic c m o th tr sent n → up m ≠ [] →
  ∃ m', step (pair c m o) (HostToRouter c) = Ok (pair c m' o) ∧ traffic c m' o th tr sent (n - 1).
Proof.
  intros (g & i & h & j & Hm & Ho & (s1 & s2 & s3 & s4 & Es & F1 & F2 & F3 & F4) & Fo & En) Hu.
  pose proof Hm as [(mps & Er & Ha) Hh Hc Hi Hhs Hg Hin]. destruct m as [a u r l]. cbn [up router adapter got] in *. subst r.
  destruct u as [|raw u]; [done|]. inversion F4 as [|seg raw' s4' u' (f & (d & ld & Hd & El & ->) & ->) F4']. subst.
  destruct (carried_spec _ _ _ _ Hd) as (Hs & Ht & Hdst). destruct (Lab7.best_far c) as (ru & Hb & Hru).
  destruct (Lab7.ip_ranges (negb c)) as (_ & _ & Ri).
  destruct (Lab7.receive_datagram (Lab7.routes c) (table g i mps) 0 (AsyncNetworkInterface.of_interface g)
    (TCPOverIPv4OverEthernetAdapter._interface a) d ld 1 (AsyncNetworkInterface.of_interface i) ru (Lab7.internet_ip (negb c)))
    as (d' & l' & Hf & El' & Hr); try done;
    [apply table_drained | apply Hhs | apply Hg | lia | by rewrite Hdst | by rewrite Hru | by rewrite Hru|].
  specialize (Hr _ (station_send _ _ _ _ _ d' l' Hin Ri (ie_unicast (negb c)) El')).
  replace (NetworkInterface.frame (TCPOverIPv4OverEthernetAdapter._interface a) EthernetHeader.TYPE_IPv4 _ ld) with (sframe (he c) (ge c) ld) in Hr
    by (rewrite (station_frame _ _ _ _ _ (ge c) ld Hhs); by rewrite <- (t_eth _ _ _ _ _ Hg)).
  exists (mk a u (table g (NetworkInterface.push_frame i (sframe (ie c) (ie (negb c)) l')) mps) l). split.
  - unfold step. destruct (side_pair c (mk a (Lab7.wire_bytes (sframe (he c) (ge c) ld) :: u) (table g i mps) l) o) as [-> ->].
    cbn [up router adapter got]. change (Z.of_nat 0) with 0 in Hr. rewrite Hr, result_bind_ok. done.
  - exists g, (NetworkInterface.push_frame i (sframe (ie c) (ie (negb c)) l')), h, j.
    split; [constructor; try done; [by exists mps | by apply station_frames]|]. split; [done|]. split; [|split; [done|]].
    + exists s1, s2, (s3 ++ [seg]), s4'. split; [rewrite Es; by rewrite <- !app_assoc|]. do 2 (split; [done|]). split; [|done].
      apply Forall2_app; [done|]. constructor; [|constructor]. exists d', l'. split; [by exists d | done].
    + cbn [up]. simpl. rewrite length_app. simpl. lia.
Qed.
(** The second: from one router to the other. *)
Lemma move_over c m o th tr sent n : traffic c m o th tr sent n → has_frames (router m) 1 = true →
  ∃ m' o', step (pair c m o) (RouterToInternet c) = Ok (pair c m' o') ∧ traffic c m' o' th tr sent (n - 1).
Proof.
  intros (g & i & h & j & Hm & Ho & (s1 & s2 & s3 & s4 & Es & F1 & F2 & F3 & F4) & Fo & En) Hu.
  pose proof Hm as [(mps & Er & Ha) _ _ _ _ _ Hin]. pose proof Ho as [(mps' & Er' & Ha') _ _ _ _ Hg' Hin'].
  destruct m as [a u r l], o as [b v r' l']. cbn [up router adapter got] in *. subst r r'.
  rewrite has_frames_internet in Hu. destruct (NetworkInterface._frames_out i) as [|f q] eqn:Efi; [done|].
  inversion F3 as [|seg f' s3' q' (d & ld & Hd & El & ->) F3']. subst.
  destruct (carried_spec _ _ _ _ Hd) as (Hs & Ht & Hdst). destruct (Lab7.best_near (negb c)) as (ru & Hb & Hru).
  destruct (Lab7.ip_ranges (negb c)) as (Rh & _ & _).
  destruct (Lab7.receive_datagram (Lab7.routes (negb c)) (table h j mps') 1 (AsyncNetworkInterface.of_interface j) i d ld 0
    (AsyncNetworkInterface.of_interface h) ru (Lab7.host_ip (negb c))) as (d' & ld' & Hf & El' & Hr); try done;
    [apply table_drained | apply Hin | apply Hin' | lia | by rewrite Hdst | by rewrite Hru | by rewrite Hru, Hdst|].
  specialize (Hr _ (station_send _ _ _ _ _ d' ld' Hg' Rh (he_unicast (negb c)) El')).
  replace (NetworkInterface.frame i EthernetHeader.TYPE_IPv4 _ ld) with (sframe (ie c) (ie (negb c)) ld) in Hr
    by (rewrite (station_frame _ _ _ _ _ (ie (negb c)) ld Hin); by rewrite <- (t_eth _ _ _ _ _ Hin')).
  destruct (pop_internet g i mps _ q Efi) as [E1 E2].
  exists (mk a u (table g (NetworkInterface.set_frames_out i q) mps) l),
    (mk b v (table (NetworkInterface.push_frame h (sframe (ge (negb c)) (he (negb c)) ld')) j mps') l'). split.
  - unfold step. destruct (side_pair c (mk a u (table g i mps) l) (mk b v (table h j mps') l')) as [-> ->].
    cbn [up router adapter got]. rewrite E1, result_bind_ok, E2, result_bind_ok. change (Z.of_nat 1) with 1 in Hr.
    rewrite Hr, result_bind_ok. done.
  - exists g, (NetworkInterface.set_frames_out i q), (NetworkInterface.push_frame h (sframe (ge (negb c)) (he (negb c)) ld')), j.
    split; [destruct Hm; constructor; try done; [by exists mps | by apply station_frames]|].
    split; [destruct Ho; constructor; try done; [by exists mps' | by apply station_frames]|]. split; [|split; [done|]].
    + exists s1, (s2 ++ [seg]), s3', s4. split; [rewrite Es; by rewrite <- !app_assoc|]. split; [done|]. split; [|done].
      apply Forall2_app; [done|]. constructor; [|constructor]. exists d', ld'. split; [by exists d | done].
    + cbn [up]. simpl. rewrite length_app. simpl. lia.
Qed.

(** The third: from a router to its host, whose socket is given the segment. *)
Lemma move_down c m o th tr sent n : traffic c m o th tr sent n → has_frames (router m) 0 = true →
  ∃ m', step (pair c m o) (RouterToHost c) = Ok (pair c m' o) ∧ traffic c m' o th tr sent (n - 1).
Proof.
  intros (g & i & h & j & Hm & Ho & Fm & (s1 & s2 & s3 & s4 & Es & F1 & F2 & F3 & F4) & En) Hu. rewrite negb_involutive in *.
  pose proof Hm as [(mps & Er & Ha) Hh Hc Hi Hhs Hg _]. destruct m as [a u r l]. cbn [up router adapter got] in *. subst r.
  rewrite has_frames_host in Hu. destruct (NetworkInterface._frames_out g) as [|f q] eqn:Efg; [done|].
  inversion F2 as [|seg f' s2' q' (d2 & ld & Hd & El & ->) F2']. subst.
  destruct (carried_spec _ _ _ _ Hd) as (Hs & _). destruct Hd as (d1 & (d0 & [Hfit (b0 & Hb0 & Ew)] & Hf1) & Hf2).
  destruct (NetworkInterface.ipv4_frame_delivers g (TCPOverIPv4OverEthernetAdapter._interface a) d2 ld (t_inv _ _ _ _ _ Hg) (t_inv _ _ _ _ _ Hhs) Hs El)
    as (fr & e & Et & Erv & Hsame).
  destruct (accepts port (negb c) b0 (base_of (mk a u (table g i mps) l)) seg d0 port_range Hb0) as (bb & Hbb & Hacc);
    [left; by rewrite negb_involutive | done | done |].
  destruct (Hacc d1 d2 e Hf1 Hf2 Hsame) as (s & Hseg & Eu). rewrite negb_involutive in *.
  pose proof (ethernet_read a _ fr e bb (Some s) Et Erv Hi Eu) as Hr.
  change (BufferList.concatenate _) with (Lab7.wire_bytes (NetworkInterface.frame g EthernetHeader.TYPE_IPv4
    (NetworkInterface._ethernet_address (TCPOverIPv4OverEthernetAdapter._interface a)) ld)) in Hr.
  rewrite (t_eth _ _ _ _ _ Hhs), <- (station_frame _ _ _ _ _ (he c) ld Hg) in Hr.
  destruct (pop_host g i mps _ q Efg) as [E1 E2].
  exists (mk (TCPOverIPv4OverEthernetAdapter.mk bb (TCPOverIPv4OverEthernetAdapter._interface a) (TCPOverIPv4OverEthernetAdapter._next_hop a))
    u (table (NetworkInterface.set_frames_out g q) i mps) (l ++ [s])). split.
  - unfold step. destruct (side_pair c (mk a u (table g i mps) l) o) as [-> ->]. cbn [up router adapter got].
    rewrite E1, result_bind_ok, E2, result_bind_ok. unfold NetworkInterfaceAdapter.read. rewrite Hr, result_bind_ok.
    cbn [fmap list_fmap option_list]. by rewrite app_nil_r.
  - exists (NetworkInterface.set_frames_out g q), i, h, j. rewrite ?negb_involutive.
    split; [destruct Hm; constructor; try done; [by exists mps | by apply station_frames]|]. split; [done|]. split; [done|]. split.
    + exists (s1 ++ [seg]), s2', s3, s4. rewrite negb_involutive. split; [rewrite Es; by rewrite <- !app_assoc|].
      split; [apply Forall2_app; [done|]; constructor; [exact Hseg | constructor] | done].
    + cbn [up]. simpl. lia.
Qed.

(** The socket writes. *)
Lemma write_ok c m o th tr sent n seg : traffic c m o th tr sent n → fits seg →
  ∃ m', write (pair c m o) c seg = Ok (pair c m' o) ∧
    traffic c m' o th tr (λ x, sent x ++ if Bool.eqb c x then [seg] else []) (n + 3).
Proof.
  intros (g & i & h & j & Hm & Ho & (s1 & s2 & s3 & s4 & Es & F1 & F2 & F3 & F4) & Fo & En) Hf.
  pose proof Hm as [_ Hh Hc Hi Hhs _ _]. destruct (Lab7.ip_ranges c) as (Rc & Rg & _), (Lab7.ip_ranges (negb c)) as (Rn & _).
  pose proof Hc as (Sa & Da & _).
  destruct (wrap_spec (base_of m) seg _ _ _ _ Rc (port_range c) Rn (port_range (negb c)) Sa Da Hf) as (d & Ew & Hd & _).
  destruct (IPv4Datagram.datagram_serialize_wire d Hd) as (_ & ld & El & _).
  pose proof (station_send _ _ _ _ _ d ld Hhs Rg (ge_unicast c) El) as Esend.
  pose proof (write_pair c m o seg _ d _ _ Ew Hh Esend) as Hw. rewrite pop_push, pushed in Hw by done.
  assert (TCPOverIPv4OverEthernetAdapter.set_interface (adapter m) (TCPOverIPv4OverEthernetAdapter._interface (adapter m)) = adapter m) as Ei
    by (by destruct (adapter m)). rewrite Ei in Hw.
  exists (mk (adapter m) (up m ++ [Lab7.wire_bytes (sframe (he c) (ge c) ld)]) (router m) (got m)). split; [exact Hw|].
  exists g, i, h, j. split; [destruct Hm; by constructor|]. split; [done|]. split; [|split].
  - rewrite eqb_reflx. exists s1, s2, s3, (s4 ++ [seg]). split; [rewrite Es; by rewrite <- !app_assoc|]. do 3 (split; [done|]).
    apply Forall2_app; [done|]. constructor; [|constructor]. eexists. split; [|done]. exists d, ld. split; [|done].
    split; [done|]. exists (base_of m). split; [done|]. unfold addressed. by rewrite negb_involutive.
  - replace (Bool.eqb c (negb c)) with false by (by destruct c). by rewrite app_nil_r.
  - cbn [up]. rewrite length_app. simpl. lia.
Qed.

(** Time passes for the adapter, and for the router. *)
Lemma tick_gate g i mps ms g' : NetworkInterface.tick g ms = Ok g' → Lab7.tick_side (table g i mps) 0 ms = Ok (table g' i mps).
Proof.
  intros E. unfold Lab7.tick_side. change (Router.interface (table g i mps) 0) with (@Ok _ (AsyncNetworkInterface.of_interface g)).
  rewrite result_bind_ok. unfold AsyncNetworkInterface.tick. cbn [AsyncNetworkInterface.base AsyncNetworkInterface.of_interface].
  by rewrite E, !result_bind_ok.
Qed.
Lemma tick_inet g i mps ms i' : NetworkInterface.tick i ms = Ok i' → Lab7.tick_side (table g i mps) 1 ms = Ok (table g i' mps).
Proof.
  intros E. unfold Lab7.tick_side. change (Router.interface (table g i mps) 1) with (@Ok _ (AsyncNetworkInterface.of_interface i)).
  rewrite result_bind_ok. unfold AsyncNetworkInterface.tick. cbn [AsyncNetworkInterface.base AsyncNetworkInterface.of_interface].
  by rewrite E, !result_bind_ok.
Qed.

Lemma host_tick_ok c m o th tr sent n ms : traffic c m o th tr sent n → 0 <= ms → th c + ms < 30000 →
  ∃ m', perform (pair c m o) (HostTick c ms) = Ok (pair c m' o) ∧
    traffic c m' o (λ x, th x + host_ms x (HostTick c ms)) tr sent n.
Proof.
  intros (g & i & h & j & Hm & Ho & Fm & Fo & En) Hms Hlt. pose proof Hm as [_ _ _ Hi Hhs _ _].
  destruct (station_tick _ _ _ _ _ ms Hhs Hms Hlt) as (b' & Et & Hb' & Efr). rewrite Hi in Efr.
  exists (mk (TCPOverIPv4OverEthernetAdapter.set_interface (adapter m) b') (up m) (router m) (got m)). split.
  - unfold perform. destruct (side_pair c m o) as [-> ->]. unfold NetworkInterfaceAdapter.tick, TCPOverIPv4OverEthernetAdapter.tick.
    rewrite Et, result_bind_ok. unfold TCPOverIPv4OverEthernetAdapter.send_pending. cbn.
    unfold NetworkInterface.frames_out. rewrite Efr. cbn. rewrite app_nil_r. do 4 f_equal. destruct b'. simpl in *. by subst.
  - exists g, i, h, j. unfold host_ms. rewrite eqb_reflx. replace (Bool.eqb c (negb c)) with false by (by destruct c).
    rewrite Z.add_0_r. split; [destruct Hm; by constructor | done].
Qed.

Lemma router_tick_ok c m o th tr sent n : traffic c m o th tr sent n → tr c + 50 < 30000 →
  ∃ m', perform (pair c m o) (RouterTick c) = Ok (pair c m' o) ∧
    traffic c m' o th (λ x, tr x + router_ms x (RouterTick c)) sent n.
Proof.
  intros (g & i & h & j & Hm & Ho & Fm & Fo & En) Hlt. pose proof Hm as [(mps & Er & Ha) _ _ _ _ Hg Hin].
  destruct (station_tick _ _ _ _ _ 50 Hg ltac:(lia) Hlt) as (g' & Eg & Hg' & Fg).
  destruct (station_tick _ _ _ _ _ 50 Hin ltac:(lia) Hlt) as (i' & Ei & Hi' & Fi).
  exists (mk (adapter m) (up m) (table g' i' mps) (got m)). split.
  - unfold perform. destruct (side_pair c m o) as [-> ->]. rewrite Er.
    by rewrite (tick_gate g i mps 50 g' Eg), result_bind_ok, (tick_inet g' i mps 50 i' Ei), result_bind_ok.
  - exists g', i', h, j. unfold router_ms. rewrite eqb_reflx. replace (Bool.eqb c (negb c)) with false by (by destruct c).
    rewrite Z.add_0_r, Fg, Fi. split; [destruct Hm; constructor; try done; by exists mps | done].
Qed.

(** ** Any sequence of actions *)

Lemma traffic_ext c m o th tr sent n th' tr' sent' n' : traffic c m o th tr sent n →
  (∀ x, th x = th' x) → (∀ x, tr x = tr' x) → (∀ x, sent x = sent' x) → n = n' → traffic c m o th' tr' sent' n'.
Proof. intros Ht Eh Er Es <-. unfold traffic in *. by rewrite <- !Eh, <- !Er, <- !Es. Qed.

Definition busy (p : t) (th tr : bool → Z) (sent : bool → list TCPSegment.t) (n : nat) : Prop :=
  traffic true (side p true) (side p false) th tr sent n.

Lemma busy_at c p th tr sent n : busy p th tr sent n ↔ traffic c (side p c) (side p (negb c)) th tr sent n.
Proof. destruct c; [done|]. split; intros Ht; exact (traffic_sym _ _ _ _ _ _ _ Ht). Qed.

Lemma pair_side p c : pair c (side p c) (side p (negb c)) = p.
Proof. by destruct p, c. Qed.

Lemma busy_pair c m o th tr sent n : traffic c m o th tr sent n → busy (pair c m o) th tr sent n.
Proof. intros Ht. apply (busy_at c). destruct (side_pair c m o) as [-> ->]. done. Qed.

Definition writes_of (a : action) (c : bool) : list TCPSegment.t :=
  match a with Write c' seg => if Bool.eqb c' c then [seg] else [] | _ => [] end.

(** The number of moves that an action leaves outstanding. *)
Definition outstanding (a : action) (n : nat) : nat :=
  match a with Write _ _ => n + 3 | Move _ => n - 1 | _ => n end.

Lemma move_ok p e th tr sent n : busy p th tr sent n → enabled p e = true →
  ∃ q, step p e = Ok q ∧ busy q th tr sent (n - 1) ∧ (0 < n)%nat.
Proof.
  intros Hb He. assert (0 < n)%nat as Hn.
  { destruct Hb as (g & i & h & j & [(mps & Er & _) _ _ _ _ _ _] & [(mps' & Er' & _) _ _ _ _ _ _] & _ & _ & ->).
    destruct e as [c|c|c]; simpl in He; destruct c; simpl in *; rewrite ?Er, ?Er', ?has_frames_host, ?has_frames_internet in He;
      repeat match goal with H : context [match ?l with [] => _ | _ => _ end] |- _ => destruct l end; simpl in *; try done; try lia;
      match goal with H : some ?l = true |- _ => destruct l; [done|] end; simpl; lia. }
  destruct e as [c|c|c]; pose proof (proj1 (busy_at c _ _ _ _ _) Hb) as Ht; rewrite <- (pair_side p c).
  - destruct (move_up c _ _ _ _ _ _ Ht) as (m' & E & Ht'); [intros E; simpl in He; by rewrite E in He|].
    eexists. split; [exact E|]. split; [by apply busy_pair | done].
  - destruct (move_down c _ _ _ _ _ _ Ht He) as (m' & E & Ht'). eexists. split; [exact E|]. split; [by apply busy_pair | done].
  - destruct (move_over c _ _ _ _ _ _ Ht He) as (m' & o' & E & Ht'). eexists. split; [exact E|]. split; [by apply busy_pair | done].
Qed.

Lemma perform_ok p a th tr sent n : busy p th tr sent n → allowed p a →
  (∀ c, th c + host_ms c a < 30000 ∧ tr c + router_ms c a < 30000) →
  ∃ q, perform p a = Ok q ∧
    busy q (λ c, th c + host_ms c a) (λ c, tr c + router_ms c a) (λ c, sent c ++ writes_of a c) (outstanding a n) ∧
    match a with Move _ => (0 < n)%nat | _ => True end.
Proof.
  intros Hb Ha Ht. destruct a as [c seg|e|c ms|c].
  - pose proof (proj1 (busy_at c _ _ _ _ _) Hb) as Hc. destruct (write_ok c _ _ _ _ _ _ seg Hc Ha) as (m' & E & Hc').
    rewrite pair_side in E. eexists. split; [exact E|]. split; [|done]. apply busy_pair.
    eapply traffic_ext; [exact Hc' | intros; simpl; lia | intros; simpl; lia | done | done].
  - destruct (move_ok p e th tr sent n Hb Ha) as (q & E & Hq & Hn). exists q. split; [exact E|]. split; [|done].
    eapply traffic_ext; [exact Hq | intros; simpl; lia | intros; simpl; lia | intros; by rewrite app_nil_r | done].
  - pose proof (proj1 (busy_at c _ _ _ _ _) Hb) as Hc. destruct (Ht c) as [Hlt _]. simpl in Hlt. rewrite eqb_reflx in Hlt.
    destruct (host_tick_ok c _ _ _ _ _ _ ms Hc Ha Hlt) as (m' & E & Hc').
    rewrite pair_side in E. eexists. split; [exact E|]. split; [|done]. apply busy_pair.
    eapply traffic_ext; [exact Hc' | done | intros; simpl; lia | intros; by rewrite app_nil_r | done].
  - pose proof (proj1 (busy_at c _ _ _ _ _) Hb) as Hc. destruct (Ht c) as [_ Hlt]. simpl in Hlt. rewrite eqb_reflx in Hlt.
    destruct (router_tick_ok c _ _ _ _ _ _ Hc Hlt) as (m' & E & Hc').
    rewrite pair_side in E. eexists. split; [exact E|]. split; [|done]. apply busy_pair.
    eapply traffic_ext; [exact Hc' | intros; simpl; lia | done | intros; by rewrite app_nil_r | done].
Qed.

(** Whatever has been done, within the time that the mappings live. *)
Lemma in_time_snoc p acts a q : performs p acts q → allowed q a → in_time (acts ++ [a]) → in_time acts.
Proof.
  intros _ Ha Ht c. destruct (Ht c) as [H1 H2]. rewrite !total_snoc in *.
  assert (0 <= host_ms c a ∧ 0 <= router_ms c a) as [? ?]; [|lia].
  destruct a as [| |c' ms|c']; simpl in *; try (split; lia); destruct (Bool.eqb c' c); split; lia.
Qed.

Lemma performs_busy p acts q sent : busy p (λ _, 0) (λ _, 0) sent 0 → performs p acts q → in_time acts →
  ∃ n, busy q (λ c, total (host_ms c) acts) (λ c, total (router_ms c) acts) (λ c, sent c ++ written_by c acts) n ∧
    (count_moves acts + n = 3 * (length (written_by true acts) + length (written_by false acts)))%nat.
Proof.
  intros Hp. induction 1 as [p|p acts q a q' Hps IH Ha Ep]; intros Ht.
  - exists 0%nat. split; [|done]. eapply traffic_ext; [exact Hp | done | done | intros; by rewrite app_nil_r | done].
  - destruct (IH Hp (in_time_snoc _ _ _ _ Hps Ha Ht)) as (n & Hb & Hn).
    destruct (perform_ok q a _ _ _ _ Hb Ha) as (q1 & E & Hb1 & Hpos).
    { intros c. specialize (Ht c). by rewrite !total_snoc in Ht. }
    rewrite Ep in E. injection E as <-. exists (outstanding a n). split.
    + eapply traffic_ext; [exact Hb1 | intros; by rewrite total_snoc | intros; by rewrite total_snoc | | done].
      intros x. by rewrite written_by_snoc, app_assoc.
    + rewrite count_moves_snoc, !written_by_snoc, !length_app. destruct a as [c seg|e|c ms|c]; simpl; [destruct c; simpl; lia | lia..].
Qed.

(** What the socket of the other side was given. *)
Lemma busy_given p th tr sent n c : busy p th tr sent n →
  ∃ arrived rest, sent c = arrived ++ rest ∧
    Forall2 (λ seg s, same_segment (addressed port (negb c) seg) s) arrived (got (side p (negb c))) ∧
    ((∀ e, enabled p e = false) → rest = []).
Proof.
  intros Hb. apply (busy_at c) in Hb as (g & i & h & j & [(mps & Er & _) _ _ _ _ _ _] & [(mps' & Er' & _) _ _ _ _ _ _] &
    (s1 & s2 & s3 & s4 & Es & F1 & F2 & F3 & F4) & _ & _).
  exists s1, (s2 ++ s3 ++ s4). split; [done|]. split; [done|]. intros Hq.
  pose proof (Hq (HostToRouter c)) as Q1. pose proof (Hq (RouterToInternet c)) as Q2. pose proof (Hq (RouterToHost (negb c))) as Q3.
  cbn [enabled] in Q1, Q2, Q3. rewrite Er, has_frames_internet in Q2. rewrite Er', has_frames_host in Q3.
  destruct (up (side p c)); [|done]. destruct (NetworkInterface._frames_out i); [|done]. destruct (NetworkInterface._frames_out h); [|done].
  inversion F2. inversion F3. by inversion F4.
Qed.

End Traffic.

(** ** From the start *)

Section Start.
Context `{Address.NumericResolver} (wide_shift : Z → Z → result Z).
Hypothesis dotted_decimal : ∀ ip, 0 <= ip < two32 → Address.inet_ntoa ip = DottedQuad.print ip.
Hypothesis host_zero : Address.of_ip_port [x30] 0 = Ok (Address.of_ipv4 0).

(** Once the addresses are known. *)
Lemma met_busy port m o syn s : met true m o → connected port true (base_of m) → connected port false (base_of o) →
  got m = [] → got o = [s] → same_segment (addressed port false syn) s →
  ∃ he ge ie, (∀ c : bool, he c ≠ ETHERNET_BROADCAST) ∧ (∀ c : bool, ge c ≠ ETHERNET_BROADCAST) ∧ (∀ c : bool, ie c ≠ ETHERNET_BROADCAST) ∧
    busy port he ge ie (m, o) (λ _, 0) (λ _, 0) (λ c, if c then [syn] else []) 0.
Proof.
  intros (g & i & h & j & [Rm Um Nm Lm] & [Ro Uo No Lo] & Lij & Qm & Qij & Qo) Cm Co Gm Go Hs.
  exists (λ c : bool, NetworkInterface._ethernet_address (TCPOverIPv4OverEthernetAdapter._interface (adapter (if c then m else o)))),
    (λ c : bool, NetworkInterface._ethernet_address (if c then g else h)), (λ c : bool, NetworkInterface._ethernet_address (if c then i else j)).
  split; [intros []; [apply Lm | apply Lo]|]. split; [intros []; [apply Lm | apply Lo]|]. split; [intros []; apply Lij|].
  exists g, i, h, j. cbn [side fst snd negb] in *. rewrite Um, Uo, Gm, Go.
  destruct (lk_idle _ _ _ _ Lm) as [Fm Fg], (lk_idle _ _ _ _ Lo) as [Fo Fh], (lk_idle _ _ _ _ Lij) as [Fi Fj]. rewrite Fi, Fj, Fg, Fh.
  split; [|split; [|split; [|split; [|done]]]].
  - constructor; [done | done | done | done | by eapply station_linkage | |].
    + apply (station_linkage g _ (Lab7.gateway_ip true)); [by apply linkage_sym | by apply acquainted_sym].
    + by apply (station_linkage i j (Lab7.internet_ip true)).
  - constructor; [done | done | done | done | by eapply station_linkage | |].
    + apply (station_linkage h _ (Lab7.gateway_ip false)); [by apply linkage_sym | by apply acquainted_sym].
    + apply (station_linkage j i (Lab7.internet_ip false)); [by apply linkage_sym | by apply acquainted_sym].
  - exists [syn], [], [], []. split; [done|]. split; [constructor; [exact Hs | constructor] | done].
  - exists [], [], [], []. done.
Qed.

(** C17: The two programs of lab7, from the start.  Both programs set up their router and adapter with empty ARP caches, the client
    connected to the server's address and the server listening; nothing is under way.  First the client's socket writes a SYN, and
    however the threads move frames, no move throws and at most nine moves bring it to the server's socket and the network to rest,
    with every address resolved.  From then on both sockets write any segments that fit a datagram, at any moment, also while others are under way; the threads of both programs
    move frames in any order; and time passes for the adapters (any amounts) and for the routers (50 ms a turn), as long as for none of them it adds up to the 30 s
    after which a mapping expires.  Then no write, move or tick throws;
      each socket has been given, in order, exactly the first so many of the segments
    that the other has written, with the ports of the connection and the checksum filled in, and all of them whenever nothing is
    under way; and there are at most three moves for each segment written. *)
Theorem lab7_conversation (rd_client rd_server : nat → Z) (random_port unused : Z) (syn : TCPSegment.t) :
  fits syn → opens syn →
  ∃ client server p0 n p1, boot wide_shift true rd_client random_port = Ok client ∧ boot wide_shift false rd_server unused = Ok server ∧
    (∀ e, enabled (client, server) e = false) ∧
    write (client, server) true syn = Ok p0 ∧ (n <= 9)%nat ∧ settles n p0 p1 ∧
    ∀ acts p, performs p1 acts p → in_time acts →
      (∀ a, allowed p a → in_time (acts ++ [a]) → ∃ q, perform p a = Ok q) ∧
      (∀ c : bool, ∃ arrived rest, (if c then [syn] else []) ++ written_by c acts = arrived ++ rest ∧
        Forall2 (λ seg s, same_segment (addressed (ports random_port) (negb c) seg) s) arrived (got (side p (negb c))) ∧
        ((∀ e, enabled p e = false) → rest = [])) ∧
      (count_moves acts <= 3 * (length (written_by true acts) + length (written_by false acts)))%nat.
Proof.
  intros Hf Ho. destruct (boot_spec wide_shift dotted_decimal host_zero true rd_client random_port) as (m & g & Em & Rm & Gm & Cm).
  destruct (boot_spec wide_shift dotted_decimal host_zero false rd_server unused) as (o & h & Eo & Ro & Go & Co).
  assert (calm true m o) as Hc.
  { exists g, (internet_start true rd_client), h, (internet_start false rd_server). split; [done|]. split; [done|].
    apply fresh_linkage; done || apply unicast. }
  destruct (segment_settles (ports random_port) true m o syn (ports_range random_port) Hc Cm) as
    (p0 & n & m' & o' & s & Ew & Hn & Hs & Hmet & Cm' & Co' & Gm' & Go' & Hsame); [by right; split | done|].
  destruct (met_busy (ports random_port) m' o' syn s Hmet Cm' Co') as (he & ge & ie & Uh & Ug & Ui & Hb);
    [by rewrite Gm' | by rewrite Go', Go | done|].
  exists m, o, p0, n, (m', o'). split; [done|]. split; [done|]. split; [by apply (calm_quiet true)|]. do 3 (split; [done|]).
  intros acts p Hp Ht.
  destruct (performs_busy _ (ports_range random_port) he ge ie Uh Ug Ui (m', o') acts p _ Hb Hp Ht) as (k & Hbp & Hk).
  split; [|split; [|lia]].
  - intros a Ha Hta. destruct (perform_ok _ (ports_range random_port) he ge ie Uh Ug Ui p a _ _ _ _ Hbp Ha) as (q & E & _); [|by exists q].
    intros c. specialize (Hta c). by rewrite !total_snoc in Hta.
  - intros c. exact (busy_given _ he ge ie p _ _ _ _ c Hbp).
Qed.

End Start.

(** A handshake in which time passes and both sides write at once, with a resolver of dotted quads. *)
Module TrafficDemo.

Definition ack_segment : TCPSegment.t := TCPSegment.mk (TCPHeader.set_ack TCPHeader.new true) Buffer.empty.

Lemma ack_fits : fits ack_segment.
Proof.
  split; [constructor; [constructor; simpl; unfold WrappingInt32.valid; simpl; lia | |]|];
    change (TCPHeader.doff (TCPSegment.header ack_segment)) with 5; unfold len; simpl; lia.
Qed.

Lemma lab7_conversation_witness : ∃ client server p0 n p1,
  boot (H := DottedQuad.resolver) Router.modulo_shift true Lab7.Demo.rd 40000 = Ok client ∧
  boot (H := DottedQuad.resolver) Router.modulo_shift false (Network.after Lab7.Demo.rd 18) 0 = Ok server ∧
  write (H := DottedQuad.resolver) (client, server) true Hosts.syn_segment = Ok p0 ∧ settles (H := DottedQuad.resolver) n p0 p1 ∧
  ∃ p q, performs (H := DottedQuad.resolver) p1 [Write false Hosts.syn_segment; RouterTick true] p ∧
    perform (H := DottedQuad.resolver) p (Write true ack_segment) = Ok q.
Proof.
  destruct (lab7_conversation (H := DottedQuad.resolver) (H0 := DottedQuad.numeric_resolver) Router.modulo_shift Lab7.Demo.dotted eq_refl Lab7.Demo.rd
    (Network.after Lab7.Demo.rd 18) 40000 0 Hosts.syn_segment Hosts.syn_fits) as (client & server & p0 & n & p1 & E1 & E2 & _ & E3 & _ & Hs & Hall);
    [split; reflexivity|].
  exists client, server, p0, n, p1. do 4 (split; [assumption|]).
  assert (∀ acts, total (host_ms true) acts < 30000 → total (host_ms false) acts < 30000 → total (router_ms true) acts < 30000 →
    total (router_ms false) acts < 30000 → in_time acts) as Hin by (intros acts ? ? ? ? []; split; assumption).
  destruct (Hall [] p1 (performs_nil p1)) as (H0 & _); [apply Hin; simpl; lia|].
  destruct (H0 (Write false Hosts.syn_segment) Hosts.syn_fits) as (q1 & F1); [apply Hin; simpl; lia|].
  pose proof (performs_snoc p1 [] p1 (Write false Hosts.syn_segment) q1 (performs_nil p1) Hosts.syn_fits F1 : performs p1 [Write false Hosts.syn_segment] q1) as P1.
  destruct (Hall _ q1 P1) as (H1 & _); [apply Hin; simpl; lia|].
  destruct (H1 (RouterTick true) I) as (q2 & F2); [apply Hin; simpl; lia|].
  pose proof (performs_snoc p1 _ q1 (RouterTick true) q2 P1 I F2 : performs p1 [Write false Hosts.syn_segment; RouterTick true] q2) as P2.
  destruct (Hall _ q2 P2) as (H2 & _); [apply Hin; simpl; lia|].
  destruct (H2 (Write true ack_segment) ack_fits) as (q3 & F3); [apply Hin; simpl; lia|].
  exists q2, q3. split; assumption.
Defined.

End TrafficDemo.

End Lab7Traffic.
