(* ===== verification/webget.v ===== *)
(** * Fetching a page (src/lab/apps/webget.cc)

    The client's side of [get_URL]: the request is written to a connected socket, and
    everything that arrives until the end of the stream is collected and printed.  The
    socket itself, [FullStackSocket], is in the file on [TCPSpongeSocket], and [main] in programs.
    The theorem: the whole request is sent, and the whole response is printed. *)

From stdpp Require Import strings.
From S2P Require Import Prelude buffer system file_descriptor tcp_sponge_socket.

Module Webget.

Definition crlf : bytes := [x0d; x0a].

(** The string [URL]. *)
Definition request (host path : bytes) : bytes :=
  (text "GET " ++ path ++ text " HTTP/1.1" ++ crlf) ++ (text "Host: " ++ host ++ crlf) ++ (text "Connection: close" ++ crlf ++ crlf).

Section Client.
Context {K : Type} `{Kernel K}.

(** The [while] loop; [fuel] bounds its rounds. *)
Fixpoint read_loop (fuel : nat) (sock : FileDescriptor.t) (readbuf buf : bytes) (k : K) : result (FileDescriptor.t * bytes * K) :=
  if FileDescriptor.eof sock then Ok (sock, buf, k)
  else
    match fuel with
    | O => Throw OutOfFuel
    | S fuel =>
        '(sock, k, readbuf) ← FileDescriptor.read_into sock readbuf SIZE_MAX k;
        read_loop fuel sock readbuf (buf ++ readbuf) k
    end.

(** [get_URL] on a connected socket, up to the output: what is printed. *)
Definition fetch (fuel : nat) (sock : FileDescriptor.t) (host path : bytes) (k : K) : result (FileDescriptor.t * bytes * K) :=
  '(sock, k, _) ← FileDescriptor.write_string sock (request host path) true k;
  read_loop fuel sock [] [] k.

(** [serves fd k chunks k']: the reads of [fd] from [k] on give [chunks] and then the end of the stream. *)
Inductive serves (fd : Z) : K → list bytes → K → Prop :=
| serves_end k k' r : sys_read k fd FileDescriptor.BUFFER_SIZE = (k', r, []) → value r = 0 → serves fd k [] k'
| serves_more k k1 k' r d ds : sys_read k fd FileDescriptor.BUFFER_SIZE = (k1, r, d) → value r = len d →
    0 < len d <= FileDescriptor.BUFFER_SIZE → serves fd k1 ds k' → serves fd k (d :: ds) k'.

(** A read: what the buffer held before does not matter. *)
Lemma read_chunk f str (k k' : K) r d : sys_read k (FileDescriptor.fd_num f) FileDescriptor.BUFFER_SIZE = (k', r, d) →
  value r = len d → len d <= FileDescriptor.BUFFER_SIZE →
  FileDescriptor.read_into f str SIZE_MAX k
  = Ok (FileDescriptor.register_read (if len d =? 0 then FileDescriptor.set_eof f else f), k', d).
Proof.
  intros E Hv Hl. unfold FileDescriptor.read_into.
  change (Z.min FileDescriptor.BUFFER_SIZE SIZE_MAX) with FileDescriptor.BUFFER_SIZE. rewrite E.
  pose proof (len_nonneg d). unfold FileDescriptor.BUFFER_SIZE in *. rewrite SystemCall_ok, result_bind_ok, Hv by lia.
  change (0 <? SIZE_MAX) with true. destruct (Z.ltb_spec 1048576 (len d)); [lia|]. destruct (Z.ltb_spec (len d) 0); [lia|].
  by rewrite FileDescriptor.resize_prefix.
Qed.

Lemma webget_read_loop_spec fd k chunks k' : serves fd k chunks k' →
  ∀ f readbuf buf, FileDescriptor.fd_num f = fd → FileDescriptor.eof f = false →
  ∃ f', read_loop (S (length chunks)) f readbuf buf k = Ok (f', buf ++ concat chunks, k') ∧ FileDescriptor.eof f' = true.
Proof.
  induction 1 as [k k' r E Hv|k k1 k' r d ds E Hv Hd Hs IH]; intros f readbuf buf Hfd Heof; cbn [length read_loop].
  - rewrite Heof, (read_chunk f readbuf k k' r []), result_bind_ok by (subst fd; done).
    cbv beta iota. exists (FileDescriptor.register_read (FileDescriptor.set_eof f)). by split.
  - rewrite Heof, (read_chunk f readbuf k k1 r d), result_bind_ok by (subst fd; done || lia). cbv beta iota.
    destruct (Z.eqb_spec (len d) 0); [lia|].
    destruct (IH (FileDescriptor.register_read f) d (buf ++ d)) as (f' & E' & Hf'); [done | done |].
    exists f'. split; [|done]. cbn [concat]. rewrite (app_assoc buf d). exact E'.
Qed.

Lemma writes_eof n : ∀ f, FileDescriptor.eof (FileDescriptor.writes n f) = FileDescriptor.eof f.
Proof. induction n as [|n IH]; intros f; [done|]. simpl. by rewrite IH. Qed.

(** C22: The page is fetched whole.  On a kernel whose calls do not fail, exactly the
    request is sent; and however the response is cut into reads, the loop ends at the end of
    the stream, after one read more than there are pieces, and what is printed is the response. *)
Theorem webget_prints_response `{!StreamLedger K, !HealthyKernel K} (sock : FileDescriptor.t) (host path : bytes) (k : K) :
  FileDescriptor.eof sock = false → len (request host path) < 9223372036854775807 →
  ∃ f1 k1, FileDescriptor.write_string sock (request host path) true k = Ok (f1, k1, len (request host path)) ∧
    same (sent k1) (upd (sent k) (FileDescriptor._fd sock) (sent k (FileDescriptor._fd sock) ++ request host path)) ∧
    ∀ chunks k2, serves (FileDescriptor._fd sock) k1 chunks k2 →
      ∃ sock', fetch (S (length chunks)) sock host path k = Ok (sock', concat chunks, k2) ∧ FileDescriptor.eof sock' = true.
Proof.
  intros Heof Hl.
  destruct (FileDescriptor.write_all_spec sock [request host path] k) as (f1 & k1 & E & (n & Hn) & _ & Hs).
  { simpl. by rewrite app_nil_r. }
  simpl concat in *. rewrite app_nil_r in *. exists f1, k1. split; [exact E|]. split; [done|]. intros chunks k2 Hserve.
  destruct (webget_read_loop_spec _ _ _ _ Hserve f1 [] []) as (f' & E' & Hf').
  { rewrite Hn. apply FileDescriptor.writes_fd. } { rewrite Hn. by rewrite writes_eof. }
  exists f'. split; [|done]. unfold fetch, FileDescriptor.write_string, BufferViewList.of_view. rewrite E, result_bind_ok. exact E'.
Qed.

End Client.

(** [main]: two arguments are required, for an [argc] that is not 0. *)
Definition arguments (argv : list bytes) : Z + (bytes * bytes) :=
  match argv with [_; host; path] => inr (host, path) | _ => inl 1 end.

(** A response of five bytes on the concrete kernel, which takes seven bytes per write. *)
Definition demo_kernel : Machine.t := Machine.new (λ n, if n =? 9 then text "hello" else []) 7.
Definition demo_socket : FileDescriptor.t := FileDescriptor.mk 9 false false 0 0.

Lemma webget_prints_response_witness :
  ∃ sock' k2, fetch 2 demo_socket (text "cs144.keithw.org") (text "/hello") demo_kernel = Ok (sock', text "hello", k2).
Proof.
  destruct (webget_prints_response (K := Machine.t) demo_socket (text "cs144.keithw.org") (text "/hello") demo_kernel)
    as (f1 & k1 & E & _ & Hf); [reflexivity | vm_compute; reflexivity |].
  assert (serves 9 k1 [text "hello"] (let '(k, _, _) := sys_read (sys_read k1 9 1048576).1.1 9 1048576 in k)) as Hs.
  { clear Hf. revert E. vm_compute (FileDescriptor.write_string _ _ _ _). intros [= _ <-].
    eapply serves_more; [reflexivity | reflexivity | split; [reflexivity | discriminate] |].
    eapply serves_end; reflexivity. }
  destruct (Hf _ _ Hs) as (sock' & Ef & _). eexists _, _. exact Ef.
Defined.

End Webget.
