(* ===== verification/programs.v ===== *)
(** * The main functions (src/lab/apps/tcp_ipv4.cc, tcp_udp.cc, tcp_ip_ethernet.cc, tcp_native.cc, webget.cc, lab7.cc)

    Each [main] reads its arguments, opens a socket, copies between the socket and the
    terminal (or fetches a page), and waits for the end of the connection; a handler around all of it
    turns an exception into a message and the status EXIT_FAILURE.

    A [TCPSpongeSocket] runs its connection in a second thread, from the return of [connect] to
    the end of [wait_until_closed].  The main thread sees it only through
    the kernel: [spawn] is a state of the rest of the world in which the thread runs, [join] one
    in which it has ended.

    The lines that a socket itself prints on standard error, and what its destructor does when an exception leaves
    the body, are not part of these definitions.  [native_relays_all] is the copy of [tcp_native] under
    its [main]; [lab7_hides_failure] says what the status of lab7 does not tell. *)

From stdpp Require Import strings.
From S2P Require Import Prelude ostream byte_stream buffer system file_descriptor eventloop address socket tcp_config options.
From S2P Require Import ethernet tcp_connection adapters bidirectional_stream_copy tcp_sponge_socket lab7 webget.

(** ** Leaving a program *)

(** How a program ends: its status and its output; [world] is the kernel when the body returned. *)
Record ending (K : Type) := Ending { exit_status : Z; cout : Ostream.t; cerr : Ostream.t; world : option K }.
Arguments Ending {K} _ _ _ _.
Arguments exit_status {K} _.
Arguments cout {K} _.
Arguments cerr {K} _.
Arguments world {K} _.

Section Handler.
Context {K : Type}.

(** [e.what()]. *)
Context (what : fault → bytes).

(** A [try] block: [cout] and [cerr] after it, and how it ended: with a status, and the kernel when all was
    done, or with a fault. *)
Definition block : Type := Ostream.t * Ostream.t * result (Z * option K).

(** The handler; [prefix] is what it prints first, [suffix] last. *)
Definition try_catch (prefix suffix : bytes) (body : block) : result (ending K) :=
  let '(out, err, r) := body in
  match r with
  | Ok (status, k) => Ok (Ending status out err k)
  | Throw f =>
      if is_exception f then
        Ok (Ending EXIT_FAILURE out (err << prefix << what f << suffix)%ostream None)
      else Throw f
  end.

End Handler.
Arguments block : clear implicits.

(** ** The threads *)

(** What a program needs of the second thread: [spawn] starts [_tcp_main] on the socket with its rules,
    [join] waits for its end. *)
Class Threads (K S : Type) `{Kernel K} := {
  spawn : S → list (EventLoop.Rule K S) → K → K;
  join : K → K }.

Section SpongeSocket.
Context {A I O K : Type} `{FdAdapter A I O} `{Device I O K} `{Address.Resolver} `{!Threads K (TCPSpongeSocket.t A)}.

(** The rounds that the loop of the opening ([aborts]) and the copy ([rounds]) are followed for. *)
Context (aborts : list bool) (rounds : nat).

(** [listen_and_accept] or [connect], and the start of the thread. *)
Definition open_socket (listen : bool) (s : TCPSpongeSocket.t A) (c_fsm : TCPConfig.t) (c_filt : FdAdapterConfig.t)
  (random : Z) (k : K) : result (TCPSpongeSocket.t A * K) :=
  '(ended, rules, s, k) ← (if listen then TCPSpongeSocket.listen_and_accept aborts s [] c_fsm c_filt random k
                           else TCPSpongeSocket.connect aborts s [] c_fsm c_filt random k);
  if negb ended then Throw OutOfFuel else Ok (s, spawn s rules k).

(** [bidirectional_stream_copy(tcp_socket)]. *)
Definition copy (s : TCPSpongeSocket.t A) (k : K) : result (TCPSpongeSocket.t A * K) :=
  '(res, _, c, k) ← Copy.bidirectional_stream_copy rounds (TCPSpongeSocket._socket s) k;
  if bool_decide (res = EventLoop.Exit) then Ok (TCPSpongeSocket.set_socket s (Copy.socket c), k) else Throw OutOfFuel.

(** [wait_until_closed], as the main thread runs it. *)
Definition wait_until_closed (s : TCPSpongeSocket.t A) (k : K) : result K :=
  '(f, k) ← Socket.shutdown (TCPSpongeSocket._socket s) SHUT_RDWR k;
  if TCPSpongeSocket._tcp_thread s then Ok (join k) else Ok k.

(** The descriptors that are still open are closed with the process. *)
Definition run_socket (listen : bool) (s : TCPSpongeSocket.t A) (c_fsm : TCPConfig.t) (c_filt : FdAdapterConfig.t)
  (random : Z) (k : K) : result K :=
  '(s, k) ← open_socket listen s c_fsm c_filt random k;
  '(s, k) ← copy s k;
  wait_until_closed s k.

End SpongeSocket.

(** ** The programs *)

Section Programs.
Context {K rng : Type} `{Kernel K} `{Address.Resolver}.
Context (what : fault → bytes) (loss_of : bytes → Z).

(** The generator of the lossy adapters, as it was seeded, and its next number. *)
Context (draw : rng → rng * Z) (seed : rng).
Context (aborts : list bool) (rounds : nat).

(** Usage and exit, or the rest of [main]; [argv0] is the name of the program. *)
Definition with_config {C} (show_usage : Ostream.t → bytes → option bytes → Ostream.t) (out err : Ostream.t)
  (argv : list bytes) (get_config : list bytes → result (leave + C)) (rest : C → result K)
  : block K :=
  match with_arguments get_config argv with
  | Ok (inl (Leave msg status)) =>
      match at_index argv 0 with
      | Ok argv0 => (show_usage out argv0 msg, err, Ok (status, None))
      | Throw f => (out, err, Throw f)
      end
  | Ok (inr c) => (out, err, k ← rest c; Ok (EXIT_SUCCESS, Some k))
  | Throw f => (out, err, Throw f)
  end.

Section Ipv4.
Let Adapter := LossyFdAdapter.t (A := TCPOverIPv4OverTunFdAdapter.t) (rng := rng).
Context `{!Threads K (TCPSpongeSocket.t Adapter)}.

Definition tcp_ipv4_body (random random_isn : Z) (argv : list bytes) (out err : Ostream.t) (k : K) :=
  with_config ipv4_show_usage out err argv (ipv4_get_config loss_of random) (λ '(c_fsm, c_filt, listen, tun_dev_name),
    '(tun, k) ← TunTapFD.new (default TUN_DFLT tun_dev_name) true k;
    cfg ← FdAdapterConfig.new;
    '(tcp_socket, k) ← TCPSpongeSocket.new tun (LossyFdAdapter.mk seed (FdAdapterBase.mk cfg false : TCPOverIPv4OverTunFdAdapter.t)) k;
    run_socket (H := LossyFdAdapter.adapter draw) aborts rounds listen tcp_socket c_fsm c_filt random_isn k).

Definition tcp_ipv4_main (random random_isn : Z) (argv : list bytes) (out err : Ostream.t) (k : K) : result (ending K) :=
  try_catch what (text "Exception: ") nl (tcp_ipv4_body random random_isn argv out err k).

End Ipv4.

Section Udp.
Let Adapter := LossyFdAdapter.t (A := TCPOverUDPSocketAdapter.t) (rng := rng).
Context `{!Threads K (TCPSpongeSocket.t Adapter)}.

Definition tcp_udp_body (random_isn : Z) (argv : list bytes) (out err : Ostream.t) (k : K) :=
  with_config udp_show_usage out err argv (udp_get_config loss_of) (λ '(c_fsm, c_filt, listen),
    '(udp_sock, k) ← Socket.create Address.AF_INET SOCK_DGRAM k;
    k ← (if listen : bool then Socket.bind udp_sock (FdAdapterConfig.source c_filt) k else Ok k);
    cfg ← FdAdapterConfig.new;
    '(tcp_socket, k) ← TCPSpongeSocket.new udp_sock (LossyFdAdapter.mk seed (FdAdapterBase.mk cfg false : TCPOverUDPSocketAdapter.t)) k;
    run_socket (H := LossyFdAdapter.adapter draw) aborts rounds listen tcp_socket c_fsm c_filt random_isn k).

Definition tcp_udp_main (random_isn : Z) (argv : list bytes) (out err : Ostream.t) (k : K) : result (ending K) :=
  try_catch what (text "Exception: ") nl (tcp_udp_body random_isn argv out err k).

End Udp.

Section Ethernet.
Context `{!Threads K (TCPSpongeSocket.t TCPOverIPv4OverEthernetAdapter.t)}.

(** [random_bytes]: the six calls of [random_device()()] for the local address. *)
Definition tcp_ip_ethernet_body (random_bytes : list Z) (random random_isn : Z) (argv : list bytes) (out err : Ostream.t) (k : K) :=
  with_config ethernet_show_usage out err argv (ethernet_get_config random) (λ '(c_fsm, c_filt, next_hop, tap_dev_name),
    '(tap, k) ← TunTapFD.new (default TAP_DFLT tap_dev_name) false k;
    cfg ← FdAdapterConfig.new;
    let '(a, outs) := TCPOverIPv4OverEthernetAdapter.new cfg (random_private_ethernet_address random_bytes)
                        (FdAdapterConfig.source c_filt) next_hop in
    '(tap, k) ← TCPSpongeSocket.emit (I := bytes) tap outs k;
    '(tcp_socket, k) ← TCPSpongeSocket.new tap a k;
    run_socket aborts rounds false tcp_socket c_fsm c_filt random_isn k).

Definition tcp_ip_ethernet_main (random_bytes : list Z) (random random_isn : Z) (argv : list bytes) (out err : Ostream.t) (k : K)
  : result (ending K) :=
  try_catch what (text "Exception: ") nl (tcp_ip_ethernet_body random_bytes random random_isn argv out err k).

End Ethernet.

(** [tcp_native]: a socket of the kernel. *)
Definition tcp_native_body (argv : list bytes) (out err : Ostream.t) (k : K) : block K :=
  match native_arguments argv with
  | Ok (inl status) =>
      match at_index argv 0 with
      | Ok argv0 => (out, native_show_usage argv0 err, Ok (status, None))
      | Throw f => (out, err, Throw f)
      end
  | Ok (inr (server_mode, host, port)) =>
      (out, err,
       '(socket, k) ← native_socket server_mode host port k;
       '(res, _, c, k) ← Copy.bidirectional_stream_copy rounds socket k;
       if bool_decide (res = EventLoop.Exit) then
         Ok (EXIT_SUCCESS, Some (FileDescriptor.destroy (Copy.socket c) k))
       else Throw OutOfFuel)
  | Throw f => (out, err, Throw f)
  end.

Definition tcp_native_main (argv : list bytes) (out err : Ostream.t) (k : K) : result (ending K) :=
  try_catch what (text "Exception: ") nl (tcp_native_body argv out err k).

Section Get.
Context `{!Threads K (TCPSpongeSocket.t TCPOverIPv4OverEthernetAdapter.t)}.
Context (random_bytes : list Z) (random_port random_isn : Z).
#[local] Open Scope ostream_scope.

(** [get_URL(host, path)] up to the output: the response, the socket and the kernel. *)
Definition get_response (host path : bytes) (k : K) : result (bytes * TCPSpongeSocket.t TCPOverIPv4OverEthernetAdapter.t * K) :=
  '(sock, k) ← FullStackSocket_new random_bytes k;
  a ← Address.of_host host (text "http");
  '(ended, rules, sock, k) ← FullStackSocket_connect aborts sock [] a random_port random_isn k;
  if negb ended then Throw OutOfFuel
  else
    let k := spawn sock rules k in
    '(f, buf, k) ← Webget.fetch rounds (TCPSpongeSocket._socket sock) host path k;
    Ok (buf, TCPSpongeSocket.set_socket sock f, k).

(** What [get_URL] prints stays printed when the end of the connection fails. *)
Definition get_URL (host path : bytes) (out : Ostream.t) (k : K) : Ostream.t * result K :=
  match get_response host path k with
  | Ok (buf, sock, k) => (out << buf, wait_until_closed sock k)
  | Throw f => (out, Throw f)
  end.

(** For an [argc] that is not 0. *)
Definition webget_body (argv : list bytes) (out err : Ostream.t) (k : K) : block K :=
  match Webget.arguments argv with
  | inl status =>
      match at_index argv 0 with
      | Ok argv0 =>
          let err := err << text "Usage: " << argv0 << (text " HOST PATH" ++ nl) in
          let err := err << (x09 :: text "Example: ") << argv0 << (text " stanford.edu /class/cs144" ++ nl) in
          (out, err, Ok (status, None))
      | Throw f => (out, err, Throw f)
      end
  | inr (host, path) =>
      let '(out, r) := get_URL host path out k in
      (out, err, k ← r; Ok (EXIT_SUCCESS, Some k))
  end.

Definition webget_main (argv : list bytes) (out err : Ostream.t) (k : K) : result (ending K) :=
  try_catch what [] nl (webget_body argv out err k).

End Get.

(** [lab7]: a second thread for the network.  What goes wrong with the connection is reported, but does not
    show in the status. *)
Section EndToEnd.
Context `{!Threads K (TCPSpongeSocket.t NetworkInterfaceAdapter.t)} `{!Threads K Lab7.t}.
Context (wide_shift : Z → Z → result Z) (rd : nat → Z) (random_port random_isn : Z).
#[local] Open Scope ostream_scope.

Definition lab7_connection (is_client : bool) (sock : TCPSocketLab7.t) (k : K) : result K :=
  '(ended, rules, sock, k) ← Lab7.open is_client aborts sock random_port random_isn k;
  if negb ended then Throw OutOfFuel
  else
    let k := spawn (TCPSocketLab7.base sock) rules k in
    '(b, k) ← copy rounds (TCPSocketLab7.base sock) k;
    wait_until_closed b k.

(** [cerr] after it, and the kernel if all was done. *)
Definition program_body (is_client : bool) (bounce_host bounce_port : bytes) (err : Ostream.t) (k : K)
  : Ostream.t * result (option K) :=
  match Lab7.setup wide_shift is_client bounce_host bounce_port rd k with
  | Throw f => (err, Throw f)
  | Ok (network, sock, k) =>
      let k := spawn network Lab7.network_rules k in
      match lab7_connection is_client sock k with
      | Ok k => (err << text "Exiting... " << (text "done." ++ nl), Ok (Some (join (S := Lab7.t) k)))
      | Throw f =>
          if is_exception f then
            (err << text "Exception: " << what f << nl << text "Exiting... " << (text "done." ++ nl), Ok None)
          else (err, Throw f)
      end
  end.

Definition print_usage (argv0 : bytes) (err : Ostream.t) : Ostream.t :=
  let err := err << text "Usage: " << argv0 << (text " client HOST PORT [debug]" ++ nl) in
  err << text "or     " << argv0 << (text " server HOST PORT [debug]" ++ nl).

Definition lab7_body (argv : list bytes) (out err : Ostream.t) (k : K) : block K :=
  match Lab7.arguments argv with
  | inl status =>
      match at_index argv 0 with
      | Ok argv0 => (out, print_usage argv0 err, Ok (status, None))
      | Throw f => (out, err, Throw f)
      end
  | inr (is_client, host, port, debug) =>
      let '(err, r) := program_body is_client host port err k in
      (out, err, k ← r; Ok (EXIT_SUCCESS, k))
  end.

Definition lab7_main (argv : list bytes) (out err : Ostream.t) (k : K) : result (ending K) :=
  try_catch what [] nl (lab7_body argv out err k).

(** A connection that fails after the program was set up ends it with the status of success. *)
Lemma lab7_hides_failure argv0 mode host port out err k is_client network sock k1 f :
  Lab7.arguments [argv0; mode; host; port] = inr (is_client, host, port, false) →
  Lab7.setup wide_shift is_client host port rd k = Ok (network, sock, k1) →
  lab7_connection is_client sock (spawn network Lab7.network_rules k1) = Throw f → is_exception f = true →
  lab7_main [argv0; mode; host; port] out err k
  = Ok (Ending EXIT_SUCCESS out
          (err << text "Exception: " << what f << nl << text "Exiting... " << (text "done." ++ nl)) None).
Proof.
  intros Ea Es Ec Hf. unfold lab7_main, lab7_body. rewrite Ea. unfold program_body. rewrite Es, Ec, Hf. reflexivity.
Qed.

End EndToEnd.

(** What [tcp_native] does.  On a kernel whose calls succeed, once its socket is open the copy runs without an
    exception, for as many rounds as there are; the program ends exactly when the copy does, with EXIT_SUCCESS, and then
    every byte read from standard input was written to the socket, and every byte from the socket to standard output, in
    order, up to what is left in the two buffers; and a buffer whose writing rule was still there is empty. *)
Theorem native_relays_all `{!StreamLedger K} `{!HealthyKernel K} (argv : list bytes) (out err : Ostream.t) (k k1 : K)
  (server_mode : bool) (host port : bytes) (sock : FileDescriptor.t) :
  native_arguments argv = Ok (inr (server_mode, host, port)) → native_socket server_mode host port k = Ok (sock, k1) →
  FileDescriptor._fd sock ≠ Copy.STDIN_FILENO → FileDescriptor._fd sock ≠ Copy.STDOUT_FILENO →
  ∃ res rules c k2, Copy.bidirectional_stream_copy rounds sock k1 = Ok (res, rules, c, k2) ∧
    if bool_decide (res = EventLoop.Exit) then
      ∃ k', tcp_native_main argv out err k = Ok (Ending EXIT_SUCCESS out err (Some k')) ∧
        Copy.relayed (received k1) (sent k1) k' Copy.STDIN_FILENO (FileDescriptor._fd sock) (ByteStream.contents (Copy._outbound c)) ∧
        Copy.relayed (received k1) (sent k1) k' (FileDescriptor._fd sock) Copy.STDOUT_FILENO (ByteStream.contents (Copy._inbound c)) ∧
        Copy.flushed rules c
    else tcp_native_main argv out err k = Throw OutOfFuel.
Proof.
  intros Ea Es H1 H2. destruct (Copy.copy_spec rounds sock k1 H1 H2) as (res & rs & c & k2 & Ec & [] & Hf).
  exists res, rs, c, k2. split; [exact Ec|]. unfold tcp_native_main, tcp_native_body.
  rewrite Ea. cbv iota beta. rewrite Es, result_bind_ok, Ec, result_bind_ok. unfold try_catch.
  case_bool_decide as Hres; [|done]. destruct (FileDescriptor.destroy_ledger (Copy.socket c) k2) as [D1 D2].
  eexists. split; [reflexivity|].
  split; [by eapply Copy.relayed_same|]. split; [by eapply Copy.relayed_same | by apply Hf].
Qed.

End Programs.

(** ** On the concrete kernel *)

Module ProgramDemo.
Import DottedQuad.

Definition what_demo (f : fault) : bytes := match f with unix_error _ => text "errno" | _ => text "error" end.

(** Three bytes to read from the socket, two from the terminal. *)
Definition terminal : Machine.t :=
  Machine.new (λ n, if n =? 0 then text "hi" else if n =? 3 then text "ok!" else []) 2.

Definition native_argv : list bytes := [text "tcp_native"; text "1.2.3.4"; text "80"].

(** The socket, when it is open. *)
Definition native_open : result (FileDescriptor.t * Machine.t) := native_socket false (text "1.2.3.4") (text "80") terminal.
Definition native_fd : FileDescriptor.t := match native_open with Ok (f, _) => f | _ => FileDescriptor.mk 0 false false 0 0 end.
Definition native_opened : Machine.t := match native_open with Ok (_, k) => k | _ => terminal end.

Lemma native_relays_all_witness :
  (∃ k', tcp_native_main what_demo 20 native_argv Ostream.new Ostream.new terminal
         = Ok (Ending EXIT_SUCCESS Ostream.new Ostream.new (Some k')) ∧ sent k' 1 = text "ok!") ∧
  ∃ res rules c k2, Copy.bidirectional_stream_copy 20 native_fd native_opened = Ok (res, rules, c, k2) ∧
    if bool_decide (res = EventLoop.Exit) then
      ∃ k', tcp_native_main what_demo 20 native_argv Ostream.new Ostream.new terminal
            = Ok (Ending EXIT_SUCCESS Ostream.new Ostream.new (Some k')) ∧
        Copy.relayed (received native_opened) (sent native_opened) k' 0 (FileDescriptor._fd native_fd) (ByteStream.contents (Copy._outbound c)) ∧
        Copy.relayed (received native_opened) (sent native_opened) k' (FileDescriptor._fd native_fd) 1 (ByteStream.contents (Copy._inbound c)) ∧
        Copy.flushed rules c
    else tcp_native_main what_demo 20 native_argv Ostream.new Ostream.new terminal = Throw OutOfFuel.
Proof.
  split; [vm_compute; eexists; split; reflexivity|].
  apply (native_relays_all what_demo 20 native_argv Ostream.new Ostream.new terminal native_opened false
           (text "1.2.3.4") (text "80") native_fd); [vm_compute; reflexivity.. | vm_compute; done | vm_compute; done].
Defined.

End ProgramDemo.
