(* ===== verification/doctests.v ===== *)
(** * The examples of the documentation (src/lab/doctests)

    The documentation of [Address], [NetParser] and the socket classes shows programs, which the build runs as tests:
    each performs some calls and throws if the result is not the expected one.  Here they are run: the
    parser's on values of any kind, the addresses' against any resolver with the two entries it asks for, the
    sockets' on [Loopback], a kernel that connects the sockets of one machine to each other. *)

From stdpp Require Import strings.
From S2P Require Import Prelude buffer parser system file_descriptor address socket.

(** ** The parser *)

(** [parser_example.cc], for any four values; the example has fixed ones. *)
Definition parser_example (val1 val2 val3 val4 : Z) : result unit :=
  let buffer := [byte_of 0x32] in
  let buffer := NetUnparser.u32 buffer val1 in
  let buffer := NetUnparser.u16 buffer val2 in
  let buffer := NetUnparser.u8 buffer val3 in
  let buffer := NetUnparser.u32 buffer val4 in
  let p := NetParser.new (Buffer.of_string buffer) in
  '(p, out0) ← NetParser.u8 p;
  '(p, out1) ← NetParser.u32 p;
  '(p, out2) ← NetParser.u16 p;
  '(p, out3) ← NetParser.u8 p;
  '(p, out4) ← NetParser.u32 p;
  if negb (out0 =? 0x32) || negb (out1 =? val1) || negb (out2 =? val2) || negb (out3 =? val3) || negb (out4 =? val4)
  then Throw runtime_error else Ok tt.

(** The [main] functions of the three tests: any exception is a failure. *)
Definition parser_dt : result Z := status_of (parser_example 0xdeadbeef 0xc0c0 0xff 0x0c05fefe).

(** ** Addresses *)

Section Addresses.
Context `{Address.Resolver}.

(** The three examples, and the test after them. *)
Definition address_examples : result unit :=
  google_webserver ← Address.of_host (text "www.google.com") (text "https");
  a_dns_server ← Address.of_ip_port (text "18.71.0.151") 53;
  a_dns_server_numeric ← Address.ipv4_numeric a_dns_server;
  p ← Address.port google_webserver;
  if negb (p =? 443) || negb (a_dns_server_numeric =? 0x12470097) then Throw runtime_error else Ok tt.

Definition address_dt : result Z := status_of address_examples.

End Addresses.

(** ** Sockets *)

Section Sockets.
Context {K : Type} `{Kernel K} `{Address.Resolver}.

(** [((std::random_device()()) % 50000) + 1025], an [unsigned int] converted to [uint16_t]. *)
Definition portnum (random : Z) : Z := uint16 (uint32 random mod 50000 + 1025).

Definition DEFAULT_MTU : Z := 65536.
(** [std::numeric_limits<size_t>::max()]. *)
Definition no_limit : Z := 18446744073709551615.

(** The test at the end, and the destructors of the sockets, in the order in which they run. *)
Definition expected (recvd recvd2 : bytes) (sockets : list FileDescriptor.t) (k : K) : result K :=
  if negb (bool_decide (recvd = text "hi there")) || negb (bool_decide (recvd2 = text "hi yourself"))
  then Throw runtime_error else Ok (foldl (λ k f, FileDescriptor.destroy f k) k sockets).

Definition socket_example_1 (random : Z) (k : K) : result K :=
  '(sock1, k) ← Socket.create Address.AF_INET SOCK_DGRAM k;
  a ← Address.of_ip_port (text "127.0.0.1") (portnum random);
  k ← Socket.bind sock1 a k;
  '(sock2, k) ← Socket.create Address.AF_INET SOCK_DGRAM k;
  a ← Address.of_ip_port (text "127.0.0.1") (portnum random);
  '(sock2, k) ← UDPSocket.sendto sock2 a (BufferViewList.of_view (text "hi there")) k;
  '(sock1, k, recvd) ← UDPSocket.recv sock1 DEFAULT_MTU k;
  k ← Socket.connect sock1 (UDPSocket.source_address recvd) k;
  '(sock1, k) ← UDPSocket.send sock1 (BufferViewList.of_view (text "hi yourself")) k;
  '(sock2, k, recvd2) ← UDPSocket.recv sock2 DEFAULT_MTU k;
  expected (UDPSocket.payload recvd) (UDPSocket.payload recvd2) [sock2; sock1] k.

Definition socket_example_2 (random : Z) (k : K) : result K :=
  '(sock1, k) ← TCPSocket.new k;
  a ← Address.of_ip_port (text "127.0.0.1") (portnum random);
  k ← Socket.bind sock1 a k;
  k ← TCPSocket.listen sock1 1 k;
  '(sock2, k) ← TCPSocket.new k;
  a ← Address.of_ip_port (text "127.0.0.1") (portnum random);
  k ← Socket.connect sock2 a k;
  '(sock1, sock3, k) ← TCPSocket.accept sock1 k;
  '(sock3, k, _) ← FileDescriptor.write_string sock3 (text "hi there") true k;
  '(sock2, k, recvd) ← FileDescriptor.read sock2 no_limit k;
  '(sock2, k, _) ← FileDescriptor.write_string sock2 (text "hi yourself") true k;
  '(sock3, k, recvd2) ← FileDescriptor.read sock3 no_limit k;
  '(sock1, k) ← FileDescriptor.close sock1 k;
  '(sock2, k) ← FileDescriptor.close sock2 k;
  '(sock3, k) ← Socket.shutdown sock3 SHUT_RDWR k;
  expected recvd recvd2 [sock3; sock2; sock1] k.

Definition socket_example_3 (k : K) : result K :=
  let '(k, r, (fd0, fd1)) := sys_socketpair k AF_UNIX SOCK_STREAM 0 in
  _ ← SystemCall r 0;
  pipe1 ← FileDescriptor.new fd0;
  '(pipe1, k) ← Socket.local_stream pipe1 k;
  pipe2 ← FileDescriptor.new fd1;
  '(pipe2, k) ← Socket.local_stream pipe2 k;
  '(pipe1, k, _) ← FileDescriptor.write_string pipe1 (text "hi there") true k;
  '(pipe2, k, recvd) ← FileDescriptor.read pipe2 no_limit k;
  '(pipe2, k, _) ← FileDescriptor.write_string pipe2 (text "hi yourself") true k;
  '(pipe1, k, recvd2) ← FileDescriptor.read pipe1 no_limit k;
  expected recvd recvd2 [pipe2; pipe1] k.

Definition socket_dt (random1 random2 : Z) (k : K) : result Z :=
  status_of (k ← socket_example_1 random1 k; k ← socket_example_2 random2 k; socket_example_3 k).

End Sockets.

(** ** One machine *)

Module Loopback.

(** Per descriptor: domain and type, name, the other end of a stream, the bytes that wait, the
    destination of [connect], datagrams with their source, connections to accept. *)
Record t := mk {
  next : Z;
  kind : Z → Z * Z;
  name : Z → bytes;
  peer : Z → Z;
  waiting : Z → bytes;
  destination : Z → bytes;
  datagrams : Z → list (bytes * bytes);
  pending : Z → list Z }.

Definition new : t := mk 3 (λ _, (0, 0)) (λ _, []) (λ _, -1) (λ _, []) (λ _, []) (λ _, []) (λ _, []).

(** A socket gets a port of its own. *)
Definition fresh_socket (m : t) (domain type : Z) : t * Z :=
  let n := next m in
  (mk (n + 1) (upd (kind m) n (domain, type)) (upd (name m) n (Address.sockaddr_in (uint16 (60000 + n)) 0x7f000001))
     (peer m) (waiting m) (destination m) (datagrams m) (pending m), n).
Definition set_peers (m : t) (i j : Z) : t :=
  mk (next m) (kind m) (name m) (upd (upd (peer m) i j) j i) (waiting m) (destination m) (datagrams m) (pending m).
Definition set_waiting (m : t) (i : Z) (d : bytes) : t :=
  mk (next m) (kind m) (name m) (peer m) (upd (waiting m) i d) (destination m) (datagrams m) (pending m).
Definition set_datagrams (m : t) (i : Z) (l : list (bytes * bytes)) : t :=
  mk (next m) (kind m) (name m) (peer m) (waiting m) (destination m) (upd (datagrams m) i l) (pending m).
Definition set_pending (m : t) (i : Z) (l : list Z) : t :=
  mk (next m) (kind m) (name m) (peer m) (waiting m) (destination m) (datagrams m) (upd (pending m) i l).
Definition set_name (m : t) (i : Z) (a : bytes) : t :=
  mk (next m) (kind m) (upd (name m) i a) (peer m) (waiting m) (destination m) (datagrams m) (pending m).
Definition set_destination (m : t) (i : Z) (a : bytes) : t :=
  mk (next m) (kind m) (name m) (peer m) (waiting m) (upd (destination m) i a) (datagrams m) (pending m).

(** The socket with a name. *)
Definition find (m : t) (a : bytes) (type : Z) : option Z :=
  head (filter (λ i, name m i = a ∧ (kind m i).2 = type) (seqZ 3 (next m - 3))).

Definition fails (errno : Z) : sysret := SysRet (-1) errno.

#[global] Instance loopback_kernel : Kernel t := {
  sys_read m fd n :=
    let d := ztake n (waiting m fd) in (set_waiting m fd (zdrop (len d) (waiting m fd)), SysRet (len d) 0, d);
  sys_writev m fd iov :=
    (set_waiting m (peer m fd) (waiting m (peer m fd) ++ concat iov), SysRet (len (concat iov)) 0);
  sys_close m fd := (set_name m fd [], SysRet 0 0);
  sys_fcntl m fd c a := (m, SysRet 0 0);
  sys_poll m fds timeout := (m, SysRet 0 0, (λ _, 0) <$> fds);
  sys_shutdown m fd how := (m, SysRet 0 0);
  sys_socket m d ty p := let '(m, n) := fresh_socket m d ty in (m, SysRet n 0);
  sys_socketpair m d ty p :=
    let '(m, i) := fresh_socket m d ty in
    let '(m, j) := fresh_socket m d ty in (set_peers m i j, SysRet 0 0, (i, j));
  sys_getsockopt m fd l o := (m, SysRet 0 0, (if o =? SO_DOMAIN then (kind m fd).1 else (kind m fd).2, 4));
  sys_setsockopt m fd l o v := (m, SysRet 0 0);
  sys_getsockname m fd := (m, SysRet 0 0, (name m fd, len (name m fd)));
  sys_getpeername m fd := (m, SysRet 0 0, (name m (peer m fd), len (name m (peer m fd))));
  sys_bind m fd a n := (set_name m fd (ztake n a), SysRet 0 0);
  sys_connect m fd a n :=
    if (kind m fd).2 =? SOCK_DGRAM then (set_destination m fd (ztake n a), SysRet 0 0)
    else
      match find m (ztake n a) SOCK_STREAM with
      | Some i =>
          let '(m, j) := fresh_socket m (kind m fd).1 (kind m fd).2 in
          (set_pending (set_peers m fd j) i (pending m i ++ [j]), SysRet 0 0)
      | None => (m, fails 111)
      end;
  sys_listen m fd n := (m, SysRet 0 0);
  sys_accept m fd :=
    match pending m fd with j :: l => (set_pending m fd l, SysRet j 0) | [] => (m, fails 11) end;
  sys_recvfrom m fd n fl :=
    match datagrams m fd with
    | (a, d) :: l => (set_datagrams m fd l, SysRet (len d) 0, ztake n d, (a, len a))
    | [] => (m, fails 11, [], ([], 0))
    end;
  sys_sendmsg m fd a iov :=
    let to := match a with Some (a, n) => ztake n a | None => destination m fd end in
    match find m to SOCK_DGRAM with
    | Some i => (set_datagrams m i (datagrams m i ++ [(name m fd, concat iov)]), SysRet (len (concat iov)) 0)
    | None => (m, SysRet (len (concat iov)) 0)
    end;
  sys_open_tun m := (m, fails 2);
  sys_tunsetiff m fd fl name := (m, fails 22);
  steady_clock m := (m, 0) }.

End Loopback.

(** ** The examples hold *)

Lemma parser_example_ok val1 val2 val3 val4 : 0 <= val1 < two32 → 0 <= val2 < two16 → 0 <= val3 < two8 → 0 <= val4 < two32 →
  parser_example val1 val2 val3 val4 = Ok tt.
Proof.
  intros H1 H2 H3 H4. unfold parser_example. cbv zeta. unfold NetUnparser.u8, NetUnparser.u16, NetUnparser.u32.
  rewrite !BigEndian.unparse_encode, <- !app_assoc. change [byte_of 0x32] with (BigEndian.encode 1 0x32).
  rewrite <- (app_nil_r (BigEndian.encode 4 val4)). set (bs := _ ++ _).
  assert (ParserFacts.reads (NetParser.new (Buffer.of_string bs)) bs) as Hr.
  { apply ParserFacts.reads_new. unfold bs. rewrite !len_app, !BigEndian.len_encode. unfold len. simpl. lia. }
  revert Hr. unfold bs at 2. clearbody bs. intros Hr. parse_fields Hr. by rewrite !Z.eqb_refl.
Qed.

Lemma address_examples_ok `{Address.NumericResolver} google ip : 0 <= ip < two32 →
  Address.inet_ntoa 0x12470097 = text "18.71.0.151" →
  Address.getaddrinfo (text "www.google.com") (text "https") Address.AI_ALL Address.AF_INET
    = inr (Address.sockaddr_in 443 ip :: google) →
  address_examples = Ok tt.
Proof.
  intros Hip Hq Hg. unfold address_examples.
  destruct (Address.getaddrinfo_numeric 53 0x12470097) as (rest & Hn); [lia | lia |]. rewrite Hq in Hn.
  unfold Address.of_host, Address.of_ip_port, Address.resolve. rewrite Hg, Hn, !Address.len_sockaddr_in.
  change 16 with Address.sizeof_sockaddr_in. rewrite !Address.of_sockaddr_in, !result_bind_ok.
  rewrite Address.ipv4_numeric_endpoint, result_bind_ok, Address.port_endpoint by lia. reflexivity.
Qed.

(** The examples in the documentation do what they are shown to do.  What [NetUnparser] has written [NetParser] reads
    back, for all values of the four types; with a resolver that prints 18.71.0.151 in
    dotted decimals and knows the web server, the addresses have the port and the number
    expected; and on a machine whose sockets reach each other the three socket programs exchange their
    messages. *)
Theorem documentation_examples (val1 val2 val3 val4 : Z) :
  (0 <= val1 < two32 → 0 <= val2 < two16 → 0 <= val3 < two8 → 0 <= val4 < two32 →
   parser_example val1 val2 val3 val4 = Ok tt) ∧
  parser_dt = Ok EXIT_SUCCESS ∧
  (∀ `(R : Address.NumericResolver) google ip, 0 <= ip < two32 → Address.inet_ntoa 0x12470097 = text "18.71.0.151" →
     Address.getaddrinfo (text "www.google.com") (text "https") Address.AI_ALL Address.AF_INET
       = inr (Address.sockaddr_in 443 ip :: google) →
     address_dt = Ok EXIT_SUCCESS) ∧
  socket_dt (H0 := DottedQuad.resolver) 5 6 Loopback.new = Ok EXIT_SUCCESS.
Proof.
  split; [apply parser_example_ok|]. split; [unfold parser_dt; by rewrite parser_example_ok by lia|]. split.
  - intros R1 R google ip Hip Hq Hg. unfold address_dt. by rewrite (address_examples_ok google ip).
  - vm_compute. reflexivity.
Qed.

(** A resolver that knows one name. *)
Module KnownHost.

#[export] Instance resolver : Address.Resolver := {
  Address.getaddrinfo node service flags family :=
    if bool_decide (service = text "https") then inr [Address.sockaddr_in 443 0x8efab004]
    else Address.getaddrinfo (Resolver := DottedQuad.resolver) node service flags family;
  Address.getnameinfo := Address.getnameinfo (Resolver := DottedQuad.resolver);
  Address.inet_ntoa := Address.inet_ntoa (Resolver := DottedQuad.resolver) }.

#[export] Instance numeric_resolver : Address.NumericResolver.
Proof.
  constructor; [exact (Address.getnameinfo_numeric (NumericResolver := DottedQuad.numeric_resolver))|].
  intros port ip Hp Hip. cbn [Address.getaddrinfo resolver]. rewrite bool_decide_eq_false_2.
  - exact (Address.getaddrinfo_numeric (NumericResolver := DottedQuad.numeric_resolver) port ip Hp Hip).
  - intros E. destruct (DottedQuad.to_string_digits port Hp) as [Hd _]. rewrite E in Hd. by inversion Hd.
Qed.

End KnownHost.

Lemma documentation_examples_witness :
  parser_example 0xdeadbeef 0xc0c0 0xff 0x0c05fefe = Ok tt ∧ address_dt (H := KnownHost.resolver) = Ok EXIT_SUCCESS.
Proof.
  split; [apply (documentation_examples 0xdeadbeef 0xc0c0 0xff 0x0c05fefe); lia|].
  apply (proj1 (proj2 (proj2 (documentation_examples 0xdeadbeef 0xc0c0 0xff 0x0c05fefe)))
           KnownHost.resolver KnownHost.numeric_resolver [] 0x8efab004); [lia | reflexivity | reflexivity].
Defined.
