(* ===== verification/tun.v ===== *)
(** * Listening on a TUN device (src/lab/apps/tun.cc)

    The program reads packets from a device and prints what it can make of them: the
    bytes, an IPv4 datagram, and in it a TCP segment.
    The theorem: whatever the bytes, a packet is printed, with the text of what was found in it; and a segment that the
    adapter for such devices has written is shown as that segment. *)

From stdpp Require Import strings.
From S2P Require Import Prelude ostream hexdump buffer parser system file_descriptor tcp_header tcp_segment ipv4 address socket.
From S2P Require Import header_text tcp_config network_interface adapters tcp_sponge_socket programs.

Module TunDump.

#[local] Open Scope ostream_scope.

(** The body of the loop, after the read. *)
Definition packet (cout : Ostream.t) (buffer : bytes) : result Ostream.t :=
  let cout := cout << (nl ++ nl ++ text "***" ++ nl ++ text "*** Got packet:" ++ nl ++ text "***" ++ nl) in
  cout ← Hexdump.hexdump buffer 0 cout;
  let cout := cout << text "attempting to parse as ipv4 datagram... " in
  '(ip_dgram, r) ← IPv4Datagram.parse IPv4Datagram.new (Buffer.of_string buffer);
  let h := IPv4Datagram.header ip_dgram in
  if negb (bool_decide (r = NoError)) then Ok (cout << (text "failed." ++ nl))
  else
    let cout := cout << text "success! totlen=" << IPv4Header.len_ h << (text ", IPv4 header contents:" ++ nl) in
    let cout := cout << IPv4HeaderText.to_string h in
    if negb (IPv4Header.proto h =? IPv4Header.PROTO_TCP) then Ok (cout << (nl ++ text "Not TCP, skipping." ++ nl))
    else
      let cout := cout << (nl ++ text "Attempting to parse as a TCP segment... ") in
      payload ← BufferList.to_buffer (IPv4Datagram.payload ip_dgram);
      '(tcp_seg, r) ← TCPSegment.parse TCPSegment.new payload (IPv4Header.pseudo_cksum h);
      if negb (bool_decide (r = NoError)) then Ok (cout << (text "failed." ++ nl))
      else
        let cout := cout << text "success! payload len=" << Buffer.size (TCPSegment.payload tcp_seg)
                      << (text ", TCP header contents:" ++ nl) in
        Ok (cout << TCPHeaderText.to_string (TCPSegment.header tcp_seg) << x0a).

Section Loop.
Context {K : Type} `{Kernel K}.

(** [rounds] rounds of the loop: [cout] at the end, and the fault that ended the loop, if any. *)
Fixpoint loop (rounds : nat) (tun : FileDescriptor.t) (cout : Ostream.t) (k : K) : Ostream.t * option fault :=
  match rounds with
  | O => (cout, None)
  | S rounds =>
      match FileDescriptor.read tun SIZE_MAX k with
      | Throw f => (cout, Some f)
      | Ok (tun, k, buffer) =>
          match packet cout buffer with
          | Throw f => (cout, Some f)
          | Ok cout => loop rounds tun cout k
          end
      end
  end.

(** [main]: it ends only with an exception, which is printed on [cout]; [None]: it has not ended yet. *)
Definition main (what : fault → bytes) (rounds : nat) (cout : Ostream.t) (k : K) : result (Ostream.t * option Z) :=
  let '(cout, end_) :=
    match TunTapFD.new (text "tun144") true k with
    | Throw f => (cout, Some f)
    | Ok (tun, k) => loop rounds tun cout k
    end in
  match end_ with
  | None => Ok (cout, None)
  | Some f =>
      if is_exception f then Ok (cout << text "Exception: " << what f << x0a, Some EXIT_FAILURE) else Throw f
  end.

End Loop.

(** ** What is found in a packet *)

Inductive report :=
| NotIPv4
| NotTCP (h : IPv4Header.t)
| BadSegment (h : IPv4Header.t)
| Segment (h : IPv4Header.t) (seg : TCPSegment.t).

Definition examine (buffer : bytes) : result report :=
  '(ip_dgram, r) ← IPv4Datagram.parse IPv4Datagram.new (Buffer.of_string buffer);
  let h := IPv4Datagram.header ip_dgram in
  if negb (bool_decide (r = NoError)) then Ok NotIPv4
  else if negb (IPv4Header.proto h =? IPv4Header.PROTO_TCP) then Ok (NotTCP h)
  else
    payload ← BufferList.to_buffer (IPv4Datagram.payload ip_dgram);
    '(tcp_seg, r) ← TCPSegment.parse TCPSegment.new payload (IPv4Header.pseudo_cksum h);
    if negb (bool_decide (r = NoError)) then Ok (BadSegment h) else Ok (Segment h tcp_seg).

(** The text of a report. *)
Definition datagram_text (h : IPv4Header.t) : bytes :=
  text "success! totlen=" ++ Address.decimal 20 (IPv4Header.len_ h) ++ text ", IPv4 header contents:" ++ nl ++
  IPv4HeaderText.to_string h ++ nl.
Definition attempt : bytes := text "Attempting to parse as a TCP segment... ".

Definition report_text (x : report) : bytes :=
  match x with
  | NotIPv4 => text "failed." ++ nl
  | NotTCP h => datagram_text h ++ text "Not TCP, skipping." ++ nl
  | BadSegment h => datagram_text h ++ attempt ++ text "failed." ++ nl
  | Segment h seg => datagram_text h ++ attempt ++
      text "success! payload len=" ++ Address.decimal 20 (len (Buffer.str (TCPSegment.payload seg))) ++
      text ", TCP header contents:" ++ nl ++ TCPHeaderText.to_string (TCPSegment.header seg) ++ nl
  end.

Definition packet_text (buffer : bytes) (x : report) : bytes :=
  (nl ++ nl ++ text "***" ++ nl ++ text "*** Got packet:" ++ nl ++ text "***" ++ nl) ++
  Hexdump.dump 0 buffer ++ text "attempting to parse as ipv4 datagram... " ++ report_text x.

(** A packet of any bytes. *)
Lemma packet_any (buffer c : bytes) al fl : len buffer <= 2147483647 →
  ∃ x, examine buffer = Ok x ∧
    packet (Ostream.at_end c false al fl) buffer = Ok (Ostream.at_end (c ++ packet_text buffer x) false al x30).
Proof.
  intros Hl. assert (len buffer < two64) by lia. unfold packet, examine. rewrite Ostream.string_end, Hexdump.hexdump_writes, result_bind_ok by done.
  destruct (IPv4Datagram.datagram_parse_total IPv4Datagram.new (Buffer.of_string buffer)) as (d & r & bf & -> & Hh & Hp & Hb);
    [by apply Buffer.wf_of_string | done |].
  rewrite !result_bind_ok. cbv beta iota zeta. unfold packet_text.
  destruct (negb (bool_decide (r = NoError))); [exists NotIPv4; split; [done|]; written; done|].
  destruct (negb (_ =? _)).
  { eexists (NotTCP _). split; [done|]. cbn [report_text]. unfold datagram_text. written. done. }
  rewrite Hp. cbn [BufferList.to_buffer BufferList.of_buffer]. rewrite !result_bind_ok.
  destruct (TCPSegment.segment_parse_total TCPSegment.new bf (IPv4Header.pseudo_cksum (IPv4Datagram.header d)))
    as (s & r' & -> & _); [done | unfold IPv4Header.pseudo_cksum; apply uint32_range |].
  rewrite !result_bind_ok. cbv beta iota. destruct (negb _).
  - eexists (BadSegment _). split; [done|]. cbn [report_text]. unfold datagram_text, attempt. written. done.
  - eexists (Segment _ s). split; [done|]. cbn [report_text]. unfold datagram_text, attempt, Buffer.size. written. done.
Qed.

(** C26: A packet is always printed, and rightly.  No bytes that a device can deliver make
    the program throw: it prints them as a dump, and after it the text of what they are; and what the TUN adapter writes
    for a segment is shown as this segment, between the adapter's addresses. *)
Theorem tun_reports `{Address.NumericResolver} (a : FdAdapterBase.t) (ip1 port1 ip2 port2 : Z) :
  configured a ip1 port1 ip2 port2 →
  (∀ buffer c al fl, len buffer <= 2147483647 → ∃ x, examine buffer = Ok x ∧
    packet (Ostream.at_end c false al fl) buffer = Ok (Ostream.at_end (c ++ packet_text buffer x) false al x30)) ∧
  ∀ seg, fits seg → ∃ o h s,
    TCPOverIPv4OverTunFdAdapter.write a seg = Ok (a, [o], TCPOverIPv4Adapter.set_ports seg port1 port2) ∧
    examine (BufferList.concatenate o) = Ok (Segment h s) ∧ IPv4Header.src h = ip1 ∧ IPv4Header.dst h = ip2 ∧
    same_segment (TCPOverIPv4Adapter.set_ports seg port1 port2) s.
Proof.
  intros (Hi1 & Hp1 & Hi2 & Hp2 & Sa & Da). split; [intros; by apply packet_any|]. intros seg Hf.
  destruct (wrap_spec a seg ip1 port1 ip2 port2) as (d & Ew & Hd & Hsrc & Hdst & Hproto & Eser); try done.
  destruct (IPv4Datagram.datagram_serialize_wire d Hd) as (v & l & El & _).
  destruct (wire_parse d l Hd El) as (d' & Ep & (w & Hh) & Hpay & bf & Hone & Hbf).
  destruct (fits_set_ports seg port1 port2 Hf Hp1 Hp2) as [Hsend _].
  destruct (TCPSegment.segment_parse_wire _ TCPSegment.new _ bf Hsend (IPv4Header.pseudo_cksum_range _ (IPv4Datagram.s_header _ Hd)) Hbf)
    as (u & s & Es & _ & Hsh & Hsd & _).
  { intros l' El'. rewrite Eser in El'. injection El' as <-. rewrite <- Hpay, Hone.
    unfold BufferList.of_buffer. rewrite BufferList.concatenate_cons. by rewrite app_nil_r. }
  eexists _, _, s. split; [unfold TCPOverIPv4OverTunFdAdapter.write; rewrite Ew, result_bind_ok, El; done|].
  split; [unfold examine; rewrite Ep, result_bind_ok; cbv beta iota zeta; simpl negb; rewrite Hh|].
  - cbn [IPv4Header.proto IPv4Header.set_cksum]. rewrite Hproto, Z.eqb_refl, Hone. simpl negb. cbv iota.
    cbn [BufferList.to_buffer BufferList.of_buffer]. rewrite result_bind_ok.
    change (IPv4Header.pseudo_cksum (IPv4Header.set_cksum (IPv4Datagram.header d) w))
      with (IPv4Header.pseudo_cksum (IPv4Datagram.header d)).
    rewrite Es, result_bind_ok. cbv beta iota. rewrite bool_decide_eq_true_2 by done. reflexivity.
  - split; [done|]. split; [done|]. split; [by exists u | done].
Qed.

Import DottedQuad.

Lemma tun_reports_witness :
  (∃ x, examine [] = Ok x ∧ packet Ostream.new [] = Ok (Ostream.at_end (packet_text [] x) false false x30)) ∧
  ∃ o h s, TCPOverIPv4OverTunFdAdapter.write Hosts.client TCPSegment.demo
    = Ok (Hosts.client, [o], TCPOverIPv4Adapter.set_ports TCPSegment.demo 40000 80) ∧
    examine (BufferList.concatenate o) = Ok (Segment h s) ∧ IPv4Header.src h = 0xa9fe9001 ∧ IPv4Header.dst h = 0xa9fe9002 ∧
    same_segment (TCPOverIPv4Adapter.set_ports TCPSegment.demo 40000 80) s.
Proof.
  destruct (tun_reports Hosts.client 0xa9fe9001 40000 0xa9fe9002 80 Hosts.client_configured) as [H1 H2].
  split; [apply (H1 [] [] false x20); unfold len; simpl; lia | apply H2, Hosts.demo_fits].
Defined.

End TunDump.
