(* ===== verification/tcp_benchmark.v ===== *)
(** * The throughput benchmark (src/lab/apps/tcp_benchmark.cc)

    The benchmark connects two [TCPConnection]s back to back, sends a string
    through them, in order or with the segments of each round reversed, and
    compares.  A round of its loop is a sequence of steps of [Link]; so the
    promises of two connections over an arbitrary network give that no round throws and that the comparison
    cannot fail: when the loop ends, the string received is the string sent. *)

From S2P Require Import Prelude wrapping_integers byte_stream stream_reassembler buffer stream_pump.
From S2P Require Import tcp_header tcp_segment tcp_config tcp_receiver tcp_sender tcp_connection tcp_link.

Module Benchmark.

(** Both connections, and the variables the lambda captures. *)
Record t := mk {
  x : TCPConnection.t;
  y : TCPConnection.t;
  bytes_to_send : Buffer.t;
  x_closed : bool;
  string_received : bytes
}.

Fixpoint receive_all (c : TCPConnection.t) (segments : list TCPSegment.t) : result TCPConnection.t :=
  match segments with
  | [] => Ok c
  | seg :: segments => c ← TCPConnection.segment_received c seg; receive_all c segments
  end.

(** [move_segments(x, y, segments, reorder)]: the new [x] and [y]; [segments] is empty afterwards. *)
Definition move_segments (x y : TCPConnection.t) (segments : list TCPSegment.t) (reorder : bool)
  : result (TCPConnection.t * TCPConnection.t * list TCPSegment.t) :=
  let segments := segments ++ TCPConnection.segments_out x in
  let x := TCPConnection.set_segments_out x [] in
  y ← receive_all y (if reorder then reverse segments else segments);
  Ok (x, y, []).

(** The [while] loop that writes input into [x].  Every round removes a byte from
    [bytes_to_send] ([write_input_spec]), so its size bounds the rounds. *)
Fixpoint write_input (fuel : nat) (x : TCPConnection.t) (bytes_to_send : Buffer.t) : result (TCPConnection.t * Buffer.t) :=
  if negb (Buffer.size bytes_to_send =? 0) && negb (TCPConnection.remaining_outbound_capacity x =? 0) then
    match fuel with
    | O => Throw OutOfFuel
    | S fuel =>
        let want := Z.min (TCPConnection.remaining_outbound_capacity x) (Buffer.size bytes_to_send) in
        '(x, written) ← TCPConnection.write x (ztake want (Buffer.str bytes_to_send));
        if negb (want =? written) then Throw runtime_error
        else
          bytes_to_send ← Buffer.remove_prefix bytes_to_send written;
          write_input fuel x bytes_to_send
    end
  else Ok (x, bytes_to_send).

(** The lambda [loop]. *)
Definition loop (reorder : bool) (s : t) : result t :=
  '(x, bytes_to_send) ← write_input (Z.to_nat (Buffer.size (bytes_to_send s))) (x s) (bytes_to_send s);
  '(x, x_closed) ← (if (Buffer.size bytes_to_send =? 0) && negb (x_closed s)
                    then x ← TCPConnection.end_input_stream x; Ok (x, true)
                    else Ok (x, x_closed s));
  '(x, y, segments) ← move_segments x (y s) [] reorder;
  '(y, x, segments) ← move_segments y x segments false;
  let available_output := ByteStream.buffer_size (TCPConnection.inbound_stream y) in
  '(y, received) ← (if 0 <? available_output
                    then '(y, b) ← TCPConnection.read y available_output; Ok (y, string_received s ++ b)
                    else Ok (y, string_received s));
  x ← TCPConnection.tick x 1000;
  y ← TCPConnection.tick y 1000;
  Ok (mk x y bytes_to_send x_closed received).

(** The first [while] loop and the comparison; [rounds] bounds the rounds. *)
Fixpoint transfer (rounds : nat) (reorder : bool) (string_to_send : bytes) (s : t) : result t :=
  if ByteStream.eof (TCPConnection.inbound_stream (y s)) then
    if bool_decide (string_received s = string_to_send) then Ok s else Throw runtime_error
  else
    match rounds with
    | O => Throw OutOfFuel
    | S rounds => s ← loop reorder s; transfer rounds reorder string_to_send s
    end.

(** The second one. *)
Fixpoint shut_down (rounds : nat) (reorder : bool) (s : t) : result t :=
  if TCPConnection.active (x s) || TCPConnection.active (y s) then
    match rounds with
    | O => Throw OutOfFuel
    | S rounds => s ← loop reorder s; shut_down rounds reorder s
    end
  else Ok s.

(** The state before the loops; [random_x] and [random_y] are the values of [random_device()()]. *)
Definition setup (config : TCPConfig.t) (random_x random_y : Z) (string_to_send : bytes) : result t :=
  x ← TCPConnection.connect (TCPConnection.new config random_x);
  y ← TCPConnection.end_input_stream (TCPConnection.new config random_y);
  Ok (mk x y (Buffer.of_string string_to_send) false []).

Definition main_loop (rounds : nat) (reorder : bool) (config : TCPConfig.t) (random_x random_y : Z)
  (string_to_send : bytes) : result t :=
  s ← setup config random_x random_y string_to_send;
  s ← transfer rounds reorder string_to_send s;
  shut_down rounds reorder s.

(** [main]: one run in order and one with reordering, each with random numbers of its own. *)
Definition main (rounds : nat) (config : TCPConfig.t) (random : nat → Z) (data1 data2 : bytes) : result Z :=
  status_of (_ ← main_loop rounds false config (random 0%nat) (random 1%nat) data1;
             main_loop rounds true config (random 2%nat) (random 3%nat) data2).

(** ** The rounds as steps of the two connections *)

Section Rounds.
Context (config : TCPConfig.t) (random_x random_y : Z) (data : bytes).

Definition isn_of (random : Z) : WrappingInt32.t :=
  match TCPConfig.fixed_isn config with Some i => i | None => WrappingInt32.mk (uint32 random) end.

Definition letter (i : Z) : byte := nth (Z.to_nat i) data x00.

Definition peer_x : Link.peer_spec := Link.mkPeer letter (len data) config random_x (isn_of random_x).
Definition peer_y : Link.peer_spec := Link.mkPeer (λ _, x00) 0 config random_y (isn_of random_y).

(** A configuration with room on both sides, and a string short enough for the sequence numbers. *)
Record config_ok : Prop := {
  c_recv : 0 < TCPConfig.recv_capacity config < max_string;
  c_send : 0 <= TCPConfig.send_capacity config < max_string;
  c_timeout : 0 <= TCPConfig.rt_timeout config < two16;
  c_isn : match TCPConfig.fixed_isn config with Some i => WrappingInt32.valid i | None => True end;
  c_data : len data < 2147483646
}.
Context (Hcfg : config_ok).

Lemma peers_valid : Link.peer_ok peer_x ∧ Link.peer_ok peer_y.
Proof.
  destruct Hcfg. pose proof (len_nonneg data).
  assert (∀ r, WrappingInt32.valid (isn_of r)) as Hv.
  { intros r. unfold isn_of. destruct (TCPConfig.fixed_isn config); [done|]. apply uint32_range. }
  split; constructor; simpl; try done; lia.
Qed.

Lemma letter_slice a n : 0 <= a → 0 <= n → a + n <= len data → slice letter a n = ztake n (zdrop a data).
Proof. apply slice_nth. Qed.

(** The variables of the benchmark at a reachable state of the link. *)
Record rel (x y : TCPConnection.t) (rest : bytes) (received : bytes) (l : Link.t) : Prop := {
  r_reach : Link.reachable peer_x peer_y l;
  r_x : Link.conn (Link.a l) = x;
  r_y : Link.conn (Link.b l) = y;
  r_got : Link.got (Link.b l) = received;
  r_written : 0 <= TCPSender.written (TCPConnection._sender x) <= len data;
  r_rest : rest = zdrop (TCPSender.written (TCPConnection._sender x)) data;
  r_silent : TCPSender.written (TCPConnection._sender y) = 0
}.

Lemma rel_inv x y rest received l : rel x y rest received l →
  TCPConnection.inv (λ _, x00) 0 (isn_of random_y) letter (len data) (isn_of random_x)
    (Link.acked (Link.b l)) x ∧
  TCPConnection.inv letter (len data) (isn_of random_x) (λ _, x00) 0 (isn_of random_y)
    (Link.acked (Link.a l)) y.
Proof.
  intros []. destruct peers_valid as [Hx Hy]. destruct (Link.link_reachable _ _ _ Hx Hy r_reach0) as [[] []].
  rewrite r_x0 in *. rewrite r_y0 in *. done.
Qed.

(** Steps of the two sides. *)
Lemma step_x l op : Link.reachable peer_x peer_y l → Link.allowed (len data) (Link.a l) op →
  ∃ e, Link.act letter (Link.a l) (Link.b l) op = Ok e ∧ Link.reachable peer_x peer_y (Link.mkLink e (Link.b l)).
Proof.
  intros Hr Ha. destruct peers_valid as [Hx Hy].
  destruct (Link.link_step _ _ l Link.A op Hx Hy (Link.link_reachable _ _ _ Hx Hy Hr) Ha) as (l' & E & _).
  pose proof (Link.reach_step _ _ _ Link.A op _ Hr Ha E) as Hr'. apply result_bind_inv in E as (e & E & [= <-]). by exists e.
Qed.

Lemma step_y l op : Link.reachable peer_x peer_y l → Link.allowed 0 (Link.b l) op →
  ∃ e, Link.act (λ _, x00) (Link.b l) (Link.a l) op = Ok e ∧ Link.reachable peer_x peer_y (Link.mkLink (Link.a l) e).
Proof.
  intros Hr Ha. destruct peers_valid as [Hx Hy].
  destruct (Link.link_step _ _ l Link.B op Hx Hy (Link.link_reachable _ _ _ Hx Hy Hr) Ha) as (l' & E & _).
  pose proof (Link.reach_step _ _ _ Link.B op _ Hr Ha E) as Hr'. apply result_bind_inv in E as (e & E & [= <-]). by exists e.
Qed.

Lemma outbound_wf x y rest received l : rel x y rest received l → ByteStream.wf (TCPConnection.outbound_stream x).
Proof.
  intros Hr. destruct (rel_inv _ _ _ _ _ Hr) as [Hi _].
  exact (TCPSender.i_stream _ _ _ _ (TCPConnection.p_sender _ _ _ _ _ _ _ _ (TCPConnection.i_parts _ _ _ _ _ _ _ _ Hi))).
Qed.

Lemma len_rest x y rest received l : rel x y rest received l →
  len rest = len data - TCPSender.written (TCPConnection._sender x).
Proof. intros []. subst rest. rewrite len_zdrop by lia. lia. Qed.

(** The application writes what fits. *)
Lemma rel_write x y rest received l n : rel x y rest received l →
  0 <= n <= len rest → n <= TCPConnection.remaining_outbound_capacity x →
  ∃ x' l', TCPConnection.write x (ztake n rest) = Ok (x', n) ∧ rel x' y (zdrop n rest) received l'.
Proof.
  intros Hr Hn Hc. pose proof (len_rest _ _ _ _ _ Hr) as Hl. destruct (rel_inv _ _ _ _ _ Hr) as [Hi _].
  pose proof (outbound_wf _ _ _ _ _ Hr) as Hw. destruct Hr. pose proof (c_data Hcfg). pose proof (len_nonneg data).
  destruct (TCPConnection.connection_write_spec (λ _, x00) 0 (isn_of random_y) letter (len data) (isn_of random_x)
      ltac:(lia) ltac:(lia) _ _ n Hi) as (x' & ret & E & _ & _ & _ & _ & Hwr); [lia..|].
  destruct (step_x l (Link.Write n) r_reach0) as (e & Ee & He); [simpl; rewrite r_x0; lia|].
  simpl in Ee. rewrite r_x0, E, result_bind_ok in Ee. injection Ee as <-.
  rewrite letter_slice, <- r_rest0 in E by lia.
  assert (ret = n) as ->.
  { pose proof E as E'. unfold TCPConnection.write in E'.
    destruct (Pump.write_fits (TCPConnection.outbound_stream x) (ztake n rest) Hw) as (st & Es & _);
      [rewrite len_ztake by lia; unfold TCPConnection.remaining_outbound_capacity in *; lia|].
    rewrite Es, result_bind_ok in E'. apply result_bind_inv in E' as (c & _ & [= _ <-]). rewrite len_ztake; lia. }
  exists x'. eexists. split; [done|]. constructor; [exact He | done | done | done | lia | | done].
  rewrite r_rest0, zdrop_zdrop by lia. by rewrite Hwr.
Qed.

Lemma write_input_spec fuel : ∀ x y b received l, rel x y (Buffer.str b) received l → Buffer.wf b →
  Buffer.size b <= Z.of_nat fuel →
  ∃ x' b' l', write_input fuel x b = Ok (x', b') ∧ rel x' y (Buffer.str b') received l' ∧ Buffer.wf b'.
Proof.
  induction fuel as [|fuel IH]; intros x y b received l Hr Hb Hfuel; simpl write_input;
    assert (0 <= Buffer.size b) as Hz by apply len_nonneg.
  { replace (Buffer.size b =? 0) with true by (case_test; lia). by exists x, b, l. }
  destruct (Z.eqb_spec (Buffer.size b) 0); [by exists x, b, l|].
  destruct (Z.eqb_spec (TCPConnection.remaining_outbound_capacity x) 0); [by exists x, b, l|]. simpl.
  destruct (Pump.remaining_capacity_wf _ (outbound_wf _ _ _ _ _ Hr)) as [_ Hrc].
  fold (TCPConnection.remaining_outbound_capacity x) in Hrc. unfold Buffer.size in *.
  set (want := Z.min _ _).
  destruct (rel_write x y (Buffer.str b) received l want Hr) as (x1 & l1 & -> & Hr1); [unfold want; lia..|].
  rewrite result_bind_ok, Z.eqb_refl. simpl.
  destruct (Buffer.remove_prefix_ok b want Hb) as (b1 & -> & Hb1 & Hs1); [unfold want, Buffer.size; lia|].
  rewrite result_bind_ok. rewrite <- Hs1 in Hr1. apply (IH x1 y b1 received l1); [done | done|].
  unfold Buffer.size. rewrite Hs1, len_zdrop by (unfold want; lia). unfold want. lia.
Qed.

Lemma rel_end x y received l : rel x y [] received l →
  ∃ x' l', TCPConnection.end_input_stream x = Ok x' ∧ rel x' y [] received l'.
Proof.
  intros Hr. pose proof (len_rest _ _ _ _ _ Hr) as Hl. rewrite len_nil in Hl.
  destruct (rel_inv _ _ _ _ _ Hr) as [Hi _]. pose proof (c_data Hcfg). pose proof (len_nonneg data).
  destruct (TCPConnection.end_input_stream_spec (λ _, x00) 0 (isn_of random_y) letter (len data) (isn_of random_x)
      ltac:(lia) ltac:(lia) _ _ Hi) as (x' & E & _ & _ & _ & Hw); [lia|]. destruct Hr.
  destruct (step_x l Link.End r_reach0) as (e & Ee & He); [simpl; rewrite r_x0; lia|].
  simpl in Ee. rewrite r_x0, E, result_bind_ok in Ee. injection Ee as <-.
  exists x'. eexists. split; [done|]. constructor; [exact He | done | done | done | lia | by rewrite Hw | done].
Qed.

(** Ticks. *)
Lemma rel_tick_x x y rest received l : rel x y rest received l →
  ∃ x' l', TCPConnection.tick x 1000 = Ok x' ∧ rel x' y rest received l'.
Proof.
  intros []. destruct (step_x l (Link.Tick 1000) r_reach0) as (e & Ee & He); [done|].
  simpl in Ee. rewrite r_x0 in Ee. apply result_bind_inv in Ee as (x' & E & [= <-]).
  pose proof (TCPConnection.written_connection_tick _ _ _ E) as Hw. exists x'. eexists. split; [done|].
  constructor; [exact He | done | done | done | lia | by rewrite Hw | done].
Qed.

Lemma rel_tick_y x y rest received l : rel x y rest received l →
  ∃ y' l', TCPConnection.tick y 1000 = Ok y' ∧ rel x y' rest received l'.
Proof.
  intros []. destruct (step_y l (Link.Tick 1000) r_reach0) as (e & Ee & He); [done|].
  simpl in Ee. rewrite r_y0 in Ee. apply result_bind_inv in Ee as (y' & E & [= <-]).
  pose proof (TCPConnection.written_connection_tick _ _ _ E) as Hw. exists y'. eexists. split; [done|].
  constructor; [exact He | done | done | done | lia | done | lia].
Qed.

(** Segments that the other side has sent arrive, in any order. *)
Lemma rel_receive_y segs : ∀ x y rest received l, rel x y rest received l →
  Forall (λ seg, seg ∈ Link.wire (Link.a l)) segs →
  ∃ y' l', receive_all y segs = Ok y' ∧ rel x y' rest received l'.
Proof.
  induction segs as [|seg segs IH]; intros x y rest received l Hr Hs; simpl; [by exists y, l|].
  apply Forall_cons in Hs as [Hin Hs].
  destruct peers_valid as [Hpx Hpy]. pose proof Hr as [Hreach Hx Hy Hg Hw Hrest Hsil]. subst x y.
  destruct (Link.link_reachable _ _ _ Hpx Hpy Hreach) as [Ha Hb].
  pose proof Hin as (i & Hi)%list_elem_of_lookup_1.
  destruct (step_y l (Link.Deliver i) Hreach) as (e & Ee & He); [done|]. simpl in Ee. rewrite Hi in Ee.
  apply result_bind_inv in Ee as (y1 & E1 & [= <-]).
  pose proof (Link.deliver_written _ _ _ _ _ _ Hpy Hpx Hb Ha Hin E1) as Hw1. rewrite E1, result_bind_ok.
  eapply IH; [constructor; [exact He | done | done | done | done | done | cbn [Link.conn Link.b Link.set_conn]; lia]|]. exact Hs.
Qed.

Lemma rel_receive_x segs : ∀ x y rest received l, rel x y rest received l →
  Forall (λ seg, seg ∈ Link.wire (Link.b l)) segs →
  ∃ x' l', receive_all x segs = Ok x' ∧ rel x' y rest received l'.
Proof.
  induction segs as [|seg segs IH]; intros x y rest received l Hr Hs; simpl; [by exists x, l|].
  apply Forall_cons in Hs as [Hin Hs].
  destruct peers_valid as [Hpx Hpy]. pose proof Hr as [Hreach Hx Hy Hg Hw Hrest Hsil]. subst x y.
  destruct (Link.link_reachable _ _ _ Hpx Hpy Hreach) as [Ha Hb].
  pose proof Hin as (i & Hi)%list_elem_of_lookup_1.
  destruct (step_x l (Link.Deliver i) Hreach) as (e & Ee & He); [done|]. simpl in Ee. rewrite Hi in Ee.
  apply result_bind_inv in Ee as (x1 & E1 & [= <-]).
  pose proof (Link.deliver_written _ _ _ _ _ _ Hpx Hpy Ha Hb Hin E1) as Hw1. rewrite E1, result_bind_ok.
  eapply IH; [constructor; [exact He | done | done | done | | | done]|]; [cbn; lia | cbn; by rewrite Hw1 | exact Hs].
Qed.

(** Both directions of [move_segments]. *)
Lemma rel_move_xy x y rest received l reorder : rel x y rest received l →
  ∃ x' y' l', move_segments x y [] reorder = Ok (x', y', []) ∧ rel x' y' rest received l'.
Proof.
  intros []. destruct (step_x l Link.Send r_reach0 I) as (e & [= <-] & He). rewrite r_x0 in He.
  set (l1 := Link.mkLink _ _) in He.
  assert (rel (TCPConnection.set_segments_out x []) y rest received l1) as Hr1 by (by constructor).
  assert (Forall (λ seg, seg ∈ Link.wire (Link.a l1))
    (if reorder then reverse (TCPConnection.segments_out x) else TCPConnection.segments_out x)) as Hin.
  { apply Forall_forall. intros seg Hin. apply elem_of_app. right.
    destruct reorder; [by apply elem_of_reverse | done]. }
  destruct (rel_receive_y _ _ _ _ _ _ Hr1 Hin) as (y1 & l2 & E & Hr2).
  exists (TCPConnection.set_segments_out x []), y1, l2. split; [|done]. unfold move_segments. rewrite app_nil_l. by rewrite E.
Qed.

Lemma rel_move_yx x y rest received l : rel x y rest received l →
  ∃ x' y' l', move_segments y x [] false = Ok (y', x', []) ∧ rel x' y' rest received l'.
Proof.
  intros []. destruct (step_y l Link.Send r_reach0 I) as (e & [= <-] & He). rewrite r_y0 in He.
  set (l1 := Link.mkLink _ _) in He.
  assert (rel x (TCPConnection.set_segments_out y []) rest received l1) as Hr1 by (by constructor).
  assert (Forall (λ seg, seg ∈ Link.wire (Link.b l1)) (TCPConnection.segments_out y)) as Hin.
  { apply Forall_forall. intros seg Hin. apply elem_of_app. by right. }
  destruct (rel_receive_x _ _ _ _ _ _ Hr1 Hin) as (x1 & l2 & E & Hr2).
  exists x1, (TCPConnection.set_segments_out y []), l2. split; [|done]. unfold move_segments. rewrite app_nil_l. by rewrite E.
Qed.

Lemma rel_read x y rest received l n : rel x y rest received l → 0 <= n →
  ∃ y' b l', TCPConnection.read y n = Ok (y', b) ∧ rel x y' rest (received ++ b) l'.
Proof.
  intros [] Hn. destruct (step_y l (Link.Read n) r_reach0 Hn) as (e & Ee & He). simpl in Ee. rewrite r_y0 in Ee.
  apply result_bind_inv in Ee as ([y' b] & E & [= <-]). exists y', b. eexists. split; [done|].
  pose proof E as ([o d] & _ & [= Hy' _])%result_bind_inv.
  constructor; [exact He | done | done | by rewrite <- r_got0 | done | done | by rewrite <- Hy'].
Qed.

(** One round. *)
Lemma rel_loop reorder s l : rel (x s) (y s) (Buffer.str (bytes_to_send s)) (string_received s) l →
  Buffer.wf (bytes_to_send s) →
  ∃ s' l', loop reorder s = Ok s' ∧
    rel (x s') (y s') (Buffer.str (bytes_to_send s')) (string_received s') l' ∧ Buffer.wf (bytes_to_send s').
Proof.
  intros Hr Hb. unfold loop.
  destruct (write_input_spec (Z.to_nat (Buffer.size (bytes_to_send s))) _ _ _ _ _ Hr Hb)
    as (x1 & b1 & l1 & -> & Hr1 & Hb1); [unfold Buffer.size; pose proof (len_nonneg (Buffer.str (bytes_to_send s))); lia|].
  rewrite result_bind_ok.
  assert (∃ x2 closed l2, (if (Buffer.size b1 =? 0) && negb (x_closed s) then x ← TCPConnection.end_input_stream x1; Ok (x, true)
    else Ok (x1, x_closed s)) = Ok (x2, closed) ∧ rel x2 (y s) (Buffer.str b1) (string_received s) l2)
    as (x2 & closed & l2 & -> & Hr2).
  { destruct (Z.eqb_spec (Buffer.size b1) 0) as [Hz|]; [|by exists x1, (x_closed s), l1].
    destruct (x_closed s); [by exists x1, true, l1|]. simpl. apply len_0_nil in Hz. rewrite Hz in *.
    destruct (rel_end _ _ _ _ Hr1) as (x3 & l3 & -> & ?). by exists x3, true, l3. }
  rewrite result_bind_ok. destruct (rel_move_xy _ _ _ _ _ reorder Hr2) as (x3 & y3 & l3 & -> & Hr3). rewrite result_bind_ok.
  destruct (rel_move_yx _ _ _ _ _ Hr3) as (x4 & y4 & l4 & -> & Hr4). rewrite result_bind_ok. cbv zeta.
  set (n := ByteStream.buffer_size (TCPConnection.inbound_stream y4)).
  assert (∃ y5 got5 l5, (if 0 <? n then '(y, b) ← TCPConnection.read y4 n; Ok (y, string_received s ++ b)
    else Ok (y4, string_received s)) = Ok (y5, got5) ∧ rel x4 y5 (Buffer.str b1) got5 l5) as (y5 & got5 & l5 & -> & Hr5).
  { destruct (Z.ltb_spec 0 n); [|by exists y4, (string_received s), l4].
    destruct (rel_read _ _ _ _ _ n Hr4) as (y5 & b & l5 & -> & Hr5); [lia|]. by exists y5, (string_received s ++ b), l5. }
  rewrite result_bind_ok. destruct (rel_tick_x _ _ _ _ _ Hr5) as (x6 & l6 & -> & Hr6). rewrite result_bind_ok.
  destruct (rel_tick_y _ _ _ _ _ Hr6) as (y6 & l7 & -> & Hr7). rewrite result_bind_ok. eexists _, l7. by split.
Qed.

(** The state before the first round. *)
Lemma setup_rel : ∃ s l, setup config random_x random_y data = Ok s ∧
  rel (x s) (y s) (Buffer.str (bytes_to_send s)) (string_received s) l ∧ Buffer.wf (bytes_to_send s).
Proof.
  destruct peers_valid as [Hx Hy]. pose proof (c_data Hcfg). pose proof (len_nonneg data).
  pose proof (Link.reach_start peer_x peer_y) as Hr0.
  destruct (Link.link_reachable _ _ _ Hx Hy Hr0) as [[Hcx _ _] [Hcy _ _]].
  destruct (TCPConnection.connect_spec (λ _, x00) 0 (isn_of random_y) letter (len data) (isn_of random_x)
      ltac:(lia) ltac:(lia) _ _ Hcx) as (x1 & E1 & _ & _ & _ & Hw1).
  destruct (TCPConnection.end_input_stream_spec letter (len data) (isn_of random_x) (λ _, x00) 0 (isn_of random_y)
      ltac:(lia) ltac:(lia) _ _ Hcy) as (y1 & E2 & _ & _ & _ & Hw2); [done|].
  change (TCPConnection.connect (TCPConnection.new config random_x) = Ok x1) in E1.
  change (TCPConnection.end_input_stream (TCPConnection.new config random_y) = Ok y1) in E2.
  change (TCPSender.written (TCPConnection._sender x1) = 0) in Hw1.
  change (TCPSender.written (TCPConnection._sender y1) = 0) in Hw2.
  destruct (step_x (Link.start peer_x peer_y) Link.Connect Hr0 I) as (e1 & Ee & Hr1).
  cbn [Link.act] in Ee. change (Link.conn (Link.a (Link.start peer_x peer_y))) with (TCPConnection.new config random_x) in Ee.
  rewrite E1, result_bind_ok in Ee. injection Ee as <-.
  destruct (step_y _ Link.End Hr1 eq_refl) as (e2 & Ee & Hr2). cbn [Link.act Link.b] in Ee.
  change (Link.conn (Link.b (Link.start peer_x peer_y))) with (TCPConnection.new config random_y) in Ee.
  rewrite E2, result_bind_ok in Ee. injection Ee as <-.
  unfold setup. rewrite E1, result_bind_ok, E2, result_bind_ok.
  eexists _, _. split; [done|]. cbn [x y bytes_to_send string_received]. split.
  - constructor; [exact Hr2 | done | done | done | lia | | done]. by rewrite Hw1, Buffer.str_of_string.
  - apply Buffer.wf_of_string. lia.
Qed.

(** [n] rounds. *)
Fixpoint iterate (n : nat) (reorder : bool) (s : t) : result t :=
  match n with O => Ok s | S n => s ← loop reorder s; iterate n reorder s end.

Lemma rel_iterate n reorder : ∀ s l, rel (x s) (y s) (Buffer.str (bytes_to_send s)) (string_received s) l →
  Buffer.wf (bytes_to_send s) →
  ∃ s' l', iterate n reorder s = Ok s' ∧ rel (x s') (y s') (Buffer.str (bytes_to_send s')) (string_received s') l'.
Proof.
  induction n as [|n IH]; intros s l Hr Hb; [by exists s, l|]. simpl.
  destruct (rel_loop reorder s l Hr Hb) as (s1 & l1 & -> & Hr1 & Hb1). rewrite result_bind_ok. by apply (IH s1 l1).
Qed.

(** What the receiving side has seen. *)
Lemma rel_received x y rest received l : rel x y rest received l →
  received ++ ByteStream.contents (TCPConnection.inbound_stream y) = ztake (Link.assembled (Link.b l)) data ∧
  (ByteStream.eof (TCPConnection.inbound_stream y) = true → received = data).
Proof.
  intros []. destruct peers_valid as [Hx Hy]. destruct (Link.link_reachable _ _ _ Hx Hy r_reach0) as [_ Hb].
  destruct (Link.side_prefix _ _ _ _ Hx Hb) as (Hp & Hr & Hend). simpl in Hr, Hend. cbn [Link.stream peer_x] in Hp.
  rewrite letter_slice in Hp by lia. rewrite r_got0, r_y0 in Hp. rewrite r_y0 in Hend.
  change (zdrop 0 data) with data in Hp. split; [done|]. intros [He Hz%Z.eqb_eq]%andb_true_iff.
  rewrite (Hend He), ztake_ge in Hp by (simpl; lia). rewrite <- Hp.
  pose proof (TCPConnection.i_receiver _ _ _ _ _ _ _ _ (Link.h_conn _ _ _ _ _ _ _ _ Hb)) as [[[] _ _ _] _ _ _].
  rewrite r_y0 in *. pose proof (ByteStream.len_contents _ so_out) as Hl.
  change (len (ByteStream.contents (TCPConnection.inbound_stream y)) = ByteStream._sz (TCPConnection.inbound_stream y)) in Hl.
  rewrite Hz in Hl. rewrite (len_0_nil _ Hl). by rewrite app_nil_r.
Qed.

End Rounds.

(** ** Properties *)

(** The benchmark's comparison cannot fail.  For every configuration with
    room for a byte on the receiving side, every pair of random numbers and every string
    short enough for the sequence numbers, in order or with the segments of
    every round reversed: the setup and any number of rounds return, whether or not a connection is reset;
    what was read from [y] followed by what
    waits in it is a prefix of the string sent; if [y] is at the end of its input, the
    string received is the string sent. *)
Theorem benchmark_received_is_sent (config : TCPConfig.t) (random_x random_y : Z) (data : bytes) (reorder : bool) :
  config_ok config data →
  ∃ s, setup config random_x random_y data = Ok s ∧
  ∀ n, ∃ s', iterate n reorder s = Ok s' ∧
    string_received s' ++ ByteStream.contents (TCPConnection.inbound_stream (y s')) `prefix_of` data ∧
    (ByteStream.eof (TCPConnection.inbound_stream (y s')) = true → string_received s' = data).
Proof.
  intros Hcfg. destruct (setup_rel config random_x random_y data Hcfg) as (s & l & E & Hr & Hb).
  exists s. split; [done|]. intros n.
  destruct (rel_iterate config random_x random_y data Hcfg n reorder s l Hr Hb) as (s' & l' & En & Hr').
  exists s'. split; [done|]. destruct (rel_received config random_x random_y data Hcfg _ _ _ _ _ Hr') as [Hp He].
  split; [|done]. rewrite Hp. exists (zdrop (Link.assembled (Link.b l')) data). symmetry. apply ztake_zdrop.
Qed.

(** A small benchmark, with the segments of every round reversed. *)
Definition small_config : TCPConfig.t := TCPConfig.mk 10 8 8 None.
Definition small_data : bytes := [x61; x62; x63; x64; x65; x66; x67; x68; x69; x6a; x6b; x6c].

Lemma small_config_ok : config_ok small_config small_data.
Proof. constructor; vm_compute; done. Qed.

Definition small_rounds (n : nat) (reorder : bool) : result t :=
  s ← setup small_config 4294967290 17 small_data; iterate n reorder s.

Lemma small_rounds_done : match small_rounds 6 true with
  | Ok s => ByteStream.eof (TCPConnection.inbound_stream (y s))
  | Throw _ => false
  end = true.
Proof. vm_compute. reflexivity. Qed.

(** Both runs of the whole program, on that string. *)
Lemma small_main_loop : is_ok (main_loop 200 false small_config 4294967290 17 small_data) = true ∧
  is_ok (main_loop 200 true small_config 4294967290 17 small_data) = true.
Proof. vm_compute. done. Qed.

Lemma benchmark_received_is_sent_witness : ∃ s', small_rounds 6 true = Ok s' ∧ string_received s' = small_data.
Proof.
  destruct (benchmark_received_is_sent small_config 4294967290 17 small_data true small_config_ok) as (s & E & H).
  pose proof small_rounds_done as Hd. unfold small_rounds in *. rewrite E, result_bind_ok in *.
  destruct (H 6%nat) as (s' & En & _ & He). rewrite En in Hd. exists s'. split; [exact En | exact (He Hd)].
Defined.

End Benchmark.
