(* ===== verification/tcp_reaction.v ===== *)
(** * How a connection reacts

    What one [TCPConnection] (src/lab/libsponge/tcp_connection.cc) does with an inbound segment, with a batch of them, with
    what its application gives or takes and with the clock, as relations between the states before and after: which numbers
    the receiver has, what the sender still waits for, which segments are put into the queue and what they acknowledge.
    [tcp_completion] puts two of them together. *)

From S2P Require Import Prelude wrapping_integers byte_stream stream_reassembler buffer stream_pump.
From S2P Require Import tcp_header tcp_segment tcp_config tcp_receiver tcp_sender tcp_connection tcp_progress tcp_benchmark.

Module Reaction.

Lemma inv_sender {inb N peer outb M local A c} : TCPConnection.inv inb N peer outb M local A c →
  TCPSender.inv outb M local (TCPConnection._sender c).
Proof. intros Hi. apply (TCPConnection.p_sender _ _ _ _ _ _ _ _ (TCPConnection.i_parts _ _ _ _ _ _ _ _ Hi)). Qed.

(** ** What a receiver has *)

Section Receiver.
Context (stream : Z → byte) (N : Z) (isn : WrappingInt32.t).
Context (HN : 0 <= N < 2147483646) (Hisn : WrappingInt32.valid isn).

(** The sequence number [k] has arrived: the SYN, a byte, or the FIN. *)
Definition has (r : TCPReceiver.t) (k : Z) : Prop :=
  if k =? 0 then TCPReceiver._syn_arrived r = true
  else if k =? N + 1 then StreamReassembler._eof (TCPReceiver._reassembler r) = true
  else StreamReassembler.held (TCPReceiver._reassembler r) (k - 1).

Record sound (r : TCPReceiver.t) : Prop := {
  s_inv : TCPReceiver.inv stream N isn r;
  s_window : StreamReassembler.in_window (TCPReceiver._reassembler r);
  s_end : StreamReassembler._eof (TCPReceiver._reassembler r) = true →
    StreamReassembler.next_idx (TCPReceiver._reassembler r) = N → ByteStream.input_ended (TCPReceiver.stream_out r) = true }.

Abbreviation ack r := (TCPReceiver._ackno r) (only parsing).
Abbreviation consumed r := (StreamReassembler.consumed (TCPReceiver._reassembler r)) (only parsing).

(** [ackno] is the first number that is missing. *)
Lemma ack_missing r : sound r → ack r < N + 2 → ¬ has r (ack r).
Proof.
  intros [Hi _ He] Hlt. destruct (TCPReceiver.inv_bounds stream N isn ltac:(lia) r Hi) as (Hn & Ha & _).
  pose proof (StreamReassembler.next_not_held stream (N + 1) N _ (TCPReceiver.i_store _ _ _ _ Hi)) as Hh.
  pose proof (StreamReassembler.inv_ended _ _ _ _ (TCPReceiver.i_store _ _ _ _ Hi)) as Hend.
  destruct Hi as [_ _ _ Hack]. unfold has, StreamReassembler.next_idx in *.
  change (StreamReassembler._output (TCPReceiver._reassembler r)) with (TCPReceiver.stream_out r) in Hend.
  destruct (TCPReceiver._syn_arrived r); [destruct Hack as [_ Hack] | destruct Hack as (-> & _); done].
  destruct (ByteStream.input_ended (TCPReceiver.stream_out r)); simpl in Hack.
  - destruct (Hend eq_refl). lia.
  - case_test; [lia|]. case_test; [intros E; discriminate (He E ltac:(lia))|].
    by replace (ack r - 1) with (StreamReassembler._nidx (TCPReceiver._reassembler r)) by lia.
Qed.

(** Everything before it has arrived. *)
Lemma ack_has r j : sound r → 0 <= j < ack r → has r j.
Proof.
  intros [Hi _ _] Hj. destruct (TCPReceiver.inv_bounds stream N isn ltac:(lia) r Hi) as (Hn & Ha & _).
  pose proof (StreamReassembler.inv_ended _ _ _ _ (TCPReceiver.i_store _ _ _ _ Hi)) as Hend.
  destruct Hi as [_ _ _ Hack]. unfold has, StreamReassembler.next_idx in *.
  change (StreamReassembler._output (TCPReceiver._reassembler r)) with (TCPReceiver.stream_out r) in Hend.
  destruct (TCPReceiver._syn_arrived r); [destruct Hack as [_ Hack] | destruct Hack as (Hz & _); lia].
  case_test; [done|]. destruct (ByteStream.input_ended (TCPReceiver.stream_out r)); simpl in Hack.
  - destruct (Hend eq_refl) as [He Hnn]. case_test; [done|]. left. lia.
  - case_test; [lia|]. left. lia.
Qed.

(** Where a segment ends. *)
Lemma segment_ends k seg : TCPReceiver.segment_at stream N isn k seg →
  if TCPHeader.fin (TCPSegment.header seg) then k + TCPSegment.length_in_sequence_space seg = N + 2
  else k + TCPSegment.length_in_sequence_space seg <= Z.max k (N + 1).
Proof.
  intros Hs. destruct (TCPReceiver.segment_length stream N isn ltac:(lia) k seg Hs) as (Hlen0 & Hlen & Hidx & _ & HfN).
  destruct (TCPReceiver.sa_data _ _ _ _ _ Hs) as (_ & Hdata & _). fold (TCPReceiver.index_of k) in Hdata.
  destruct (TCPHeader.fin _); simpl bool_to_Z in *; [specialize (HfN eq_refl); lia|]. unfold TCPReceiver.index_of in *.
  destruct Hdata as [Hd|]; [rewrite Hd, len_nil in *|]; destruct (Z.eqb_spec k 0); simpl in *; lia.
Qed.

(** A segment within the window that is ignored has no sequence numbers. *)
Lemma ignored_empty r k seg E : sound r → 0 <= k → k + TCPSegment.length_in_sequence_space seg <= E →
  E <= consumed r + TCPReceiver._capacity r + 1 → (TCPReceiver._syn_arrived r = false → E <= 1) →
  TCPReceiver.synchronized r k && (k <? TCPReceiver.window_size r + TCPReceiver._ackno r) = false →
  TCPSegment.length_in_sequence_space seg <= 0.
Proof.
  intros Hsd Hk HkE HEW Hsyn Ec. pose proof (s_inv _ Hsd) as Hi. pose proof (TCPReceiver.i_cap _ _ _ _ Hi) as Hcc.
  destruct (TCPReceiver.inv_bounds stream N isn ltac:(lia) r Hi) as (Hn & Ha & Hw & Hwe). unfold TCPReceiver.synchronized in Ec.
  apply andb_false_iff in Ec as [Esy|Hge%Z.ltb_ge].
  - apply orb_false_iff in Esy as [Esy Hk0%Z.eqb_neq]. specialize (Hsyn Esy). lia.
  - pose proof (TCPReceiver.i_pos _ _ _ _ Hi). destruct (Hi) as [_ _ _ Hack]. destruct (TCPReceiver._syn_arrived r).
    + destruct Hack as [_ Hack]. pose proof (bool_to_Z_range (ByteStream.input_ended (TCPReceiver.stream_out r))). lia.
    + specialize (Hsyn eq_refl). destruct Hack as (Ha0 & Hn0 & _). destruct Hi as [[[] _ _ _] _ _ _].
      pose proof (ByteStream.wf_sz _ so_out). unfold StreamReassembler.consumed, StreamReassembler.next_idx in *. lia.
Qed.

(** A segment that fits the window is kept whole, and nothing else changes. *)
Lemma receive_has r k seg E : sound r → TCPReceiver.segment_at stream N isn k seg →
  k + TCPSegment.length_in_sequence_space seg <= E → E <= consumed r + TCPReceiver._capacity r + 1 →
  (TCPReceiver._syn_arrived r = false → E <= 1) → Z.abs (k - ack r) < 2147483648 →
  ∃ r', TCPReceiver.segment_received r seg = Ok r' ∧ sound r' ∧ TCPReceiver._capacity r' = TCPReceiver._capacity r ∧
    consumed r' = consumed r ∧ ack r <= ack r' ∧
    TCPReceiver._syn_arrived r' = TCPReceiver._syn_arrived r || (k =? 0) ∧
    ∀ j, 0 <= j → has r' j ↔ has r j ∨ k <= j < k + TCPSegment.length_in_sequence_space seg.
Proof.
  intros Hsd Hs HkE HEW Hsyn Hnear. pose proof (s_inv _ Hsd) as Hi.
  destruct (TCPReceiver.segment_spec stream N isn ltac:(lia) Hisn r k seg Hi Hs Hnear)
    as (r' & Er & Hi' & Hcap & Hsy & Hmono & Hcon & _). unfold TCPReceiver.synchronized in Hsy.
  exists r'. split; [done|]. rewrite (TCPReceiver.segment_received_cases stream N isn ltac:(lia) Hisn r k seg Hi Hs Hnear) in Er.
  destruct (TCPReceiver.segment_length stream N isn ltac:(lia) k seg Hs) as (Hlen0 & Hlen & Hidx & _ & HfN).
  destruct (TCPReceiver.inv_bounds stream N isn ltac:(lia) r Hi) as (Hn & Ha & Hw & Hwe).
  assert (StreamReassembler._capacity (TCPReceiver._reassembler r) = TCPReceiver._capacity r) as Hcc by apply Hi.
  pose proof (TCPReceiver.i_pos _ _ _ _ Hi) as Hpos. pose proof (TCPReceiver.sa_k _ _ _ _ _ Hs) as Hk.
  pose proof (bool_to_Z_range (TCPHeader.fin (TCPSegment.header seg))) as Hbf.
  pose proof (len_nonneg (Buffer.str (TCPSegment.payload seg))) as Hl0.
  destruct (_ && _) eqn:Ec in Er.
  - apply andb_true_iff in Ec as [Esy Hlt%Z.ltb_lt]. unfold TCPReceiver.synchronized in Esy. fold (TCPReceiver.index_of k) in Er.
    pose proof (TCPReceiver.sa_data _ _ _ _ _ Hs) as Hcons. fold (TCPReceiver.index_of k) in Hcons.
    destruct (StreamReassembler.push_spec stream (N + 1) ltac:(lia) N ltac:(lia) (TCPReceiver._reassembler r)
      (Buffer.str (TCPSegment.payload seg)) (TCPReceiver.index_of k) (TCPHeader.fin (TCPSegment.header seg))
      (TCPReceiver.i_store _ _ _ _ Hi) Hcons) as (rs & Ep & _ & _ & _ & _ & Heof & Hend & Hheld).
    rewrite Ep, result_bind_ok in Er. injection Er as <-. cbn [TCPReceiver._reassembler TCPReceiver._capacity TCPReceiver._syn_arrived] in *.
    destruct (proj2 (Hheld (s_window _ Hsd))) as [Hwin Hh]; [rewrite Hcc; lia|].
    split; [|do 4 (split; [done|])].
    + constructor; [done | done|]. cbn. intros He HnN. change (TCPReceiver.stream_out _) with (StreamReassembler._output rs).
      rewrite Hend, He. by apply Z.eqb_eq.
    + pose proof (segment_ends k seg Hs) as Hno. intros j Hj. unfold has. cbn [TCPReceiver._syn_arrived TCPReceiver._reassembler].
      unfold TCPReceiver.index_of in *.
      destruct (Z.eqb_spec j 0) as [->|]; [|destruct (Z.eqb_spec j (N + 1)) as [->|]].
      * split; [|done]. intros _. apply orb_true_iff in Esy as [|Hk0%Z.eqb_eq]; [by left|]. right. subst k. simpl in *. lia.
      * rewrite Heof, orb_true_iff. destruct (TCPHeader.fin (TCPSegment.header seg)); simpl in *.
        -- specialize (HfN eq_refl). split; [|by right]. intros _. right. destruct (Z.eqb_spec k 0); simpl in *; lia.
        -- split; [intros [?|?]; [by left | done]|]. intros [?|?]; [by left | lia].
      * rewrite Hh. unfold StreamReassembler.span.
        destruct (TCPHeader.fin (TCPSegment.header seg)); simpl bool_to_Z in *;
          destruct (Z.eqb_spec k 0); simpl bool_to_Z in *; split; (intros [?|?]; [by left | right; lia]).
  - pose proof (ignored_empty r k seg E Hsd Hk HkE HEW Hsyn Ec) as Hz.
    injection Er as <-. cbn [TCPReceiver._reassembler TCPReceiver._capacity TCPReceiver._syn_arrived] in *.
    split; [|do 4 (split; [done|])].
    + constructor; [done | apply Hsd | apply Hsd].
    + intros j Hj. unfold has. cbn [TCPReceiver._syn_arrived TCPReceiver._reassembler].
      destruct (Z.eqb_spec j 0) as [->|]; [|destruct (_ =? _); (split; [by left|]); (intros [?|?]; [done | lia])].
      unfold TCPReceiver.synchronized. rewrite orb_true_iff, Z.eqb_eq. unfold TCPReceiver.index_of in *.
      split; [intros [?|Hk0]; [by left | subst k; simpl in *; lia] | intros [?|?]; [by left | lia]].
Qed.

(** The reading of an empty segment moves nothing. *)
Lemma receive_sound r k seg E : sound r → TCPReceiver.segment_at stream N isn k seg →
  k + TCPSegment.length_in_sequence_space seg <= E → E <= consumed r + TCPReceiver._capacity r + 1 →
  (TCPReceiver._syn_arrived r = false → E <= 1) → Z.abs (k - ack r) < 2147483648 →
  ∃ r', TCPReceiver.segment_received r seg = Ok r' ∧ sound r' ∧ TCPReceiver._capacity r' = TCPReceiver._capacity r ∧
    consumed r' = consumed r ∧ ack r <= ack r' ∧
    TCPReceiver._syn_arrived r' = TCPReceiver._syn_arrived r || (k =? 0) ∧
    (TCPSegment.length_in_sequence_space seg = 0 → ack r' = ack r) ∧
    ∀ j, 0 <= j → has r' j ↔ has r j ∨ k <= j < k + TCPSegment.length_in_sequence_space seg.
Proof.
  intros Hsd Hs HkE HEW Hsyn Hnear.
  destruct (receive_has r k seg E Hsd Hs HkE HEW Hsyn Hnear) as (r' & Er & Hsd' & Hc & Hcon & Hm & Hsy & Hh).
  exists r'. do 6 (split; [done|]). split; [|done]. intros Hz.
  destruct (TCPReceiver.inv_bounds stream N isn ltac:(lia) r (s_inv _ Hsd)) as (_ & Ha & _).
  destruct (TCPReceiver.inv_bounds stream N isn ltac:(lia) r' (s_inv _ Hsd')) as (_ & Ha' & _).
  destruct (Z.eq_dec (ack r') (ack r)) as [|Hne]; [done|]. exfalso.
  apply (ack_missing r Hsd); [lia|]. pose proof (ack_has r' (ack r) Hsd' ltac:(lia)) as Hr.
  apply Hh in Hr as [?|?]; [done | lia | lia].
Qed.

End Receiver.

(** ** How a connection reacts to a segment *)

(** The absolute numbers a segment stands for, below the first wrap of the sequence numbers. *)
Definition pos (isn : WrappingInt32.t) (seg : TCPSegment.t) : Z :=
  WrappingInt32.unwrap (TCPHeader.seqno (TCPSegment.header seg)) isn 0.
Definition acked (isn : WrappingInt32.t) (seg : TCPSegment.t) : Z :=
  WrappingInt32.unwrap (TCPHeader.ackno (TCPSegment.header seg)) isn 0.

(** An acknowledgment of at most [A], if there is one. *)
Definition acks (isn : WrappingInt32.t) (A : Z) (seg : TCPSegment.t) : Prop :=
  TCPHeader.ack (TCPSegment.header seg) = true → 0 <= TCPHeader.win (TCPSegment.header seg) < two16 ∧
  TCPHeader.ackno (TCPSegment.header seg) = WrappingInt32.wrap (acked isn seg) isn ∧ 0 <= acked isn seg <= A.

(** A segment of a stream that ends at most at [E], with an acknowledgment of the other one of at most [A]. *)
Record arriving (stream : Z → byte) (N : Z) (isn back : WrappingInt32.t) (E A : Z) (seg : TCPSegment.t) : Prop := {
  ar_rst : TCPHeader.rst (TCPSegment.header seg) = false;
  ar_at : TCPReceiver.segment_at stream N isn (pos isn seg) seg;
  ar_end : pos isn seg + TCPSegment.length_in_sequence_space seg <= E;
  ar_ack : acks back A seg }.

Lemma unwrap_0 isn k : WrappingInt32.valid isn → 0 <= k < 2147483648 →
  WrappingInt32.unwrap (WrappingInt32.wrap k isn) isn 0 = k.
Proof. intros. apply WrappingInt32.unwrap_wrap_near; [done | lia..]. Qed.

Lemma pos_at stream N isn k seg : 0 <= N < 2147483646 → WrappingInt32.valid isn →
  TCPReceiver.segment_at stream N isn k seg → pos isn seg = k ∧ k <= N + 2.
Proof.
  intros HN Hisn Hs. destruct (TCPReceiver.segment_length stream N isn ltac:(lia) k seg Hs) as (Hlen0 & Hlen & Hidx & Hb & _).
  unfold TCPReceiver.index_of in *. pose proof (TCPReceiver.sa_k _ _ _ _ _ Hs). pose proof (len_nonneg (Buffer.str (TCPSegment.payload seg))).
  assert (k <= N + 2) by (destruct (Z.eqb_spec k 0); simpl in *; lia).
  split; [|done]. unfold pos. rewrite (TCPReceiver.sa_seqno _ _ _ _ _ Hs). apply unwrap_0; [done | lia].
Qed.

Section Side.
Context (inb : Z → byte) (N : Z) (peer : WrappingInt32.t) (outb : Z → byte) (M : Z) (local : WrappingInt32.t).
Context (HN : 0 <= N < 2147483646) (Hpeer : WrappingInt32.valid peer).
Context (HM : 0 <= M < 2147483646) (Hlocal : WrappingInt32.valid local).

Abbreviation next c := (TCPSender._next_seqno (TCPConnection._sender c)) (only parsing).
Abbreviation outs c := (Timer._outstandings (TCPSender._timer (TCPConnection._sender c))) (only parsing).
Abbreviation rcv c := (TCPConnection._receiver c) (only parsing).
Abbreviation ack c := (TCPReceiver._ackno (TCPConnection._receiver c)) (only parsing).
Abbreviation count c := (TCPSender.consecutive_retransmissions (TCPConnection._sender c)) (only parsing).
Abbreviation size seg := (TCPSegment.length_in_sequence_space seg) (only parsing).

(** What the sender does with an acknowledgment: [added] are the segments it then sends. *)
Record answers (seg : TCPSegment.t) (s s' : TCPSender.t) (added : list (TCPSegment.t * Z)) : Prop := {
  an_chain : TCPSender.chain outb M local (TCPSender._next_seqno s) added (TCPSender._next_seqno s');
  an_written : TCPSender.written s' = TCPSender.written s;
  an_ended : ByteStream.input_ended (TCPSender._stream s') = ByteStream.input_ended (TCPSender._stream s);
  an_cap : ByteStream._capacity (TCPSender._stream s') = ByteStream._capacity (TCPSender._stream s);
  an_ack : if TCPHeader.ack (TCPSegment.header seg) then
      TCPSender._ackno s' = acked local seg ∧ TCPSender._window_size s' = TCPHeader.win (TCPSegment.header seg) ∧
      TCPSender.consecutive_retransmissions s' = 0 ∧
      Timer._outstandings (TCPSender._timer s') = TCPSender.unacked (acked local seg) (Timer._outstandings (TCPSender._timer s)) ++ added ∧
      TCPSender._next_seqno s' <= Z.max (TCPSender._next_seqno s) (acked local seg + Z.max 1 (TCPHeader.win (TCPSegment.header seg))) ∧
      TCPSender.fill_cond s' (TCPSender.window_end s') = false
    else added = [] ∧ s' = s }.

Lemma handle_ack_answers A c seg : TCPConnection.parts inb N peer outb M local A c →
  TCPSender.segments_out (TCPConnection._sender c) = [] → 0 < next c → A <= next c → acks local A seg →
  ∃ c' added, TCPConnection.handle_ack c (TCPSegment.header seg) = Ok c' ∧ answers seg (TCPConnection._sender c) (TCPConnection._sender c') added ∧
    TCPConnection._segments_out c' = TCPConnection._segments_out c ++ (TCPConnection.stamp (rcv c) <$> added.*1) ∧
    TCPSender.segments_out (TCPConnection._sender c') = [] ∧ rcv c' = rcv c ∧
    TCPConnection._cfg c' = TCPConnection._cfg c ∧ TCPConnection._linger_time c' = TCPConnection._linger_time c ∧
    TCPConnection._active c' = TCPConnection._active c.
Proof.
  intros Hp Hq Hn HA Hh. unfold TCPConnection.handle_ack. unfold acks in Hh. set (h := TCPSegment.header seg) in *. destruct (TCPHeader.ack h) eqn:Eh.
  2:{ exists c, []. split; [done|]. rewrite app_nil_r. split; [|done]. constructor; try done. fold h. by rewrite Eh. }
  destruct (Hh eq_refl) as (Hw & Ej & Hj). pose proof (TCPConnection.p_sender _ _ _ _ _ _ _ _ Hp) as Hs.
  set (j := acked local seg) in *.
  pose proof (TCPSender.next_bound outb M local ltac:(lia) _ Hs) as Hnb.
  destruct (TCPSender.ack_received_spec outb M local ltac:(lia) Hlocal (TCPConnection._sender c) (TCPHeader.ackno h) (TCPHeader.win h) Hs)
    as (Hs1 & Est & Enx & _ & Eq1 & Hcase); [rewrite Ej; apply WrappingInt32.valid_wrap | done |].
  assert (TCPSender.acknowledged (TCPConnection._sender c) (TCPHeader.ackno h) = j) as Eak.
  { unfold TCPSender.acknowledged. rewrite (TCPSender.i_isn _ _ _ _ Hs), Ej. apply WrappingInt32.unwrap_wrap_near; [done | lia..]. }
  assert ((j <=? next c) = true) as Elj by (apply Z.leb_le; lia). rewrite Eak, Elj in Hcase. destruct Hcase as (Eo & Ea & Ew & _).
  assert (TCPSender.consecutive_retransmissions (TCPSender.ack_received (TCPConnection._sender c) (TCPHeader.ackno h) (TCPHeader.win h)) = 0) as Ec.
  { unfold TCPSender.ack_received. fold (TCPSender.acknowledged (TCPConnection._sender c) (TCPHeader.ackno h)). rewrite Eak, Elj.
    unfold Timer.ack_handle. by destruct (Timer.ack_loop _ _ _ _ _ _) as [[[? ?] ?] ?]. }
  pose proof (TCPConnection.written_ack_received (TCPConnection._sender c) (TCPHeader.ackno h) (TCPHeader.win h)) as Hwr.
  set (s1 := TCPSender.ack_received _ _ _) in *. cbv zeta.
  change (TCPSender.next_seqno_absolute (TCPConnection._sender (TCPConnection.set_sender c s1))) with (TCPSender._next_seqno s1).
  rewrite Enx. replace (next c =? 0) with false by (symmetry; apply Z.eqb_neq; lia). simpl negb. cbv iota.
  unfold TCPConnection.fill_window. cbn [TCPConnection._sender TCPConnection.set_sender].
  destruct (TCPSender.fill_window_spec outb M local ltac:(lia) s1 Hs1) as (s2 & added & -> & [] & Hle & Hc).
  rewrite !result_bind_ok. eexists _, added. split; [reflexivity|].
  unfold TCPSender.window_end in Hle, Hc. rewrite Ea, Ew, Enx in Hle.
  unfold TCPSender.segments_out in Hq. rewrite Eq1, Hq in a_queue. simpl in a_queue.
  split; [|split; [|done]].
  - constructor; cbn; [by rewrite <- Enx | |by rewrite a_ended, Est | by rewrite a_cap, Est |].
    + change (TCPSender.written (TCPSender.set_segments_out s2 [])) with (TCPSender.written s2). by rewrite a_written.
    + fold h. rewrite Eh. fold j. split; [by rewrite a_ackno|]. split; [by rewrite a_window|]. split; [exact (eq_trans a_count Ec)|].
      split; [by rewrite a_out, Eo|]. split; [done|]. unfold TCPSender.window_end.
      cbn. rewrite a_ackno, a_window. exact Hc.
  - cbn. rewrite TCPConnection.update_loop_map. unfold TCPSender.segments_out. by rewrite a_queue.
Qed.

(** An acknowledgment without data, at [k]. *)
Definition empty_at (k : Z) (seg : TCPSegment.t) : Prop :=
  TCPReceiver.segment_at outb M local k seg ∧ size seg = 0 ∧
  TCPHeader.rst (TCPSegment.header seg) = false ∧ TCPHeader.ack (TCPSegment.header seg) = false.

(** The empty segment that [send_empty_segment] queues. *)
Definition empty_segment (s : TCPSender.t) : TCPSegment.t :=
  TCPSegment.mk (TCPHeader.set_seqno TCPHeader.new (WrappingInt32.wrap (TCPSender._next_seqno s) (TCPSender._isn s))) Buffer.empty.

Lemma empty_segment_empty s : TCPSender.inv outb M local s → 0 < TCPSender._next_seqno s →
  empty_at (TCPSender._next_seqno s) (empty_segment s).
Proof.
  intros Hs Hn. pose proof (TCPSender.next_bound outb M local ltac:(lia) _ Hs).
  split; [|done]. apply TCPReceiver.empty_segment_at; try done; [lia|]. simpl. by rewrite (TCPSender.i_isn _ _ _ _ Hs).
Qed.

Lemma send_empty_queued c : TCPSender.segments_out (TCPConnection._sender c) = [] →
  let c' := TCPConnection.update_queue (TCPConnection.set_sender c (TCPSender.send_empty_segment (TCPConnection._sender c))) in
  TCPConnection._sender c' = TCPConnection._sender c ∧
  TCPConnection._segments_out c' = TCPConnection._segments_out c ++ [TCPConnection.stamp (rcv c) (empty_segment (TCPConnection._sender c))].
Proof.
  destruct c as [? ? [] ? ? ? ? ?]. unfold TCPSender.segments_out. cbn. intros ->. split; [done|]. by rewrite TCPConnection.update_loop_map.
Qed.

(** What is sent back. *)
Record replied (c c' : TCPConnection.t) (seg : TCPSegment.t) (replies : list TCPSegment.t) : Prop := {
  rp_sender : TCPConnection._sender c' = TCPConnection._sender c;
  rp_receiver : rcv c' = rcv c;
  rp_queue : TCPConnection._segments_out c' = TCPConnection._segments_out c ++ (TCPConnection.stamp (rcv c) <$> replies);
  rp_empty : Forall (empty_at (next c)) replies;
  rp_some : size seg ≠ 0 → TCPReceiver._syn_arrived (rcv c) = true → replies ≠ [];
  rp_why : replies ≠ [] → TCPReceiver._syn_arrived (rcv c) = true ∧ (size seg ≠ 0 ∨
    WrappingInt32.eqb (TCPHeader.seqno (TCPSegment.header seg)) (WrappingInt32.sub_u32 (WrappingInt32.wrap (ack c) (TCPReceiver._isn (rcv c))) 1) = true);
  rp_cfg : TCPConnection._cfg c' = TCPConnection._cfg c;
  rp_time : TCPConnection._linger_time c' = TCPConnection._linger_time c;
  rp_active : TCPConnection._active c' = TCPConnection._active c }.

Lemma reply_answers c seg : TCPSender.inv outb M local (TCPConnection._sender c) →
  TCPSender.segments_out (TCPConnection._sender c) = [] → 0 < next c →
  ∃ c' replies, TCPConnection.reply c seg = Ok c' ∧ replied c c' seg replies.
Proof.
  intros Hs Hq Hn. pose proof (empty_segment_empty _ Hs Hn) as He. destruct (send_empty_queued c Hq) as [E1 E2].
  unfold TCPConnection.reply, TCPReceiver.ackno. destruct (TCPReceiver._syn_arrived (rcv c)) eqn:Ea; simpl negb; cbv iota.
  2:{ rewrite result_bind_ok, Ea. exists c, []. split; [done|]. constructor; try done; [by rewrite app_nil_r | congruence]. }
  destruct (Z.eqb_spec (size seg) 0) as [Ez|Ez]; simpl negb; cbv iota.
  - rewrite result_bind_ok, Ea. simpl negb. cbv iota.
    destruct (WrappingInt32.eqb _ _) eqn:Ek; simpl andb; cbv iota.
    + eexists _, [empty_segment (TCPConnection._sender c)]. split; [reflexivity|]. constructor; try done; [by constructor | by auto].
    + exists c, []. split; [done|]. constructor; try done; by rewrite app_nil_r.
  - change (TCPSender.next_seqno_absolute (TCPConnection._sender c)) with (next c).
    replace (next c =? 0) with false by (symmetry; apply Z.eqb_neq; lia). simpl andb. cbv iota.
    rewrite !result_bind_ok. change (rcv (TCPConnection.update_queue _)) with (rcv c). rewrite Ea. simpl. cbn [negb andb].
    eexists _, [empty_segment (TCPConnection._sender c)]. split; [reflexivity|]. constructor; try done; [by constructor | by auto].
Qed.

(** A connection with room for everything up to [E]. *)
Record ready (E A : Z) (c : TCPConnection.t) : Prop := {
  rd_inv : TCPConnection.inv inb N peer outb M local A c;
  rd_failed : TCPConnection.failed c = false;
  rd_sound : sound inb N peer (rcv c);
  rd_room : E <= StreamReassembler.consumed (TCPReceiver._reassembler (rcv c)) + TCPReceiver._capacity (rcv c) + 1;
  rd_syn : TCPReceiver._syn_arrived (rcv c) = false → E <= 1;
  rd_sent : 0 < next c;
  rd_acked : A <= next c }.

(** What happens to the receiver. *)
Record received (r r' : TCPReceiver.t) (seg : TCPSegment.t) : Prop := {
  rc_cap : TCPReceiver._capacity r' = TCPReceiver._capacity r;
  rc_consumed : StreamReassembler.consumed (TCPReceiver._reassembler r') = StreamReassembler.consumed (TCPReceiver._reassembler r);
  rc_mono : TCPReceiver._ackno r <= TCPReceiver._ackno r';
  rc_syn : TCPReceiver._syn_arrived r' = TCPReceiver._syn_arrived r || (pos peer seg =? 0);
  rc_same : size seg = 0 → TCPReceiver._ackno r' = TCPReceiver._ackno r;
  rc_has : ∀ j, 0 <= j → has N r' j ↔ has N r j ∨ pos peer seg <= j < pos peer seg + size seg }.

(** And to the connection. *)
Record reaction (c c' : TCPConnection.t) (seg : TCPSegment.t) (added : list (TCPSegment.t * Z)) (replies : list TCPSegment.t) : Prop := {
  re_received : received (rcv c) (rcv c') seg;
  re_answers : answers seg (TCPConnection._sender c) (TCPConnection._sender c') added;
  re_queue : TCPConnection._segments_out c' = TCPConnection._segments_out c ++ (TCPConnection.stamp (rcv c') <$> (added.*1 ++ replies));
  re_replies : Forall (empty_at (next c')) replies;
  re_some : size seg ≠ 0 → TCPReceiver._syn_arrived (rcv c') = true → replies ≠ [];
  re_why : replies ≠ [] → TCPReceiver._syn_arrived (rcv c') = true ∧ (size seg ≠ 0 ∨ pos peer seg = ack c' - 1);
  re_cfg : TCPConnection._cfg c' = TCPConnection._cfg c;
  re_time : TCPConnection._linger_time c' = 0;
  re_active : TCPConnection._active c = false → TCPConnection._active c' = false }.

Lemma keep_alive_pos r seg : TCPReceiver.inv inb N peer r → TCPReceiver._syn_arrived r = true →
  TCPReceiver.segment_at inb N peer (pos peer seg) seg →
  WrappingInt32.eqb (TCPHeader.seqno (TCPSegment.header seg)) (WrappingInt32.sub_u32 (WrappingInt32.wrap (TCPReceiver._ackno r) (TCPReceiver._isn r)) 1) = true →
  pos peer seg = TCPReceiver._ackno r - 1.
Proof.
  intros Hr Hsyn Hat Heq. destruct (TCPReceiver.inv_bounds inb N peer ltac:(lia) r Hr) as (Hn & Ha & _).
  pose proof (TCPReceiver.i_ack _ _ _ _ Hr) as Hi. rewrite Hsyn in Hi. destruct Hi as [Hisn Hack].
  pose proof (bool_to_Z_range (ByteStream.input_ended (TCPReceiver.stream_out r))).
  rewrite (TCPReceiver.sa_seqno _ _ _ _ _ Hat), Hisn in Heq.
  destruct (pos_at _ _ _ _ _ HN Hpeer Hat) as [_ Hb]. pose proof (TCPReceiver.sa_k _ _ _ _ _ Hat).
  apply Z.eqb_eq in Heq. unfold WrappingInt32.sub_u32, WrappingInt32.add in Heq. cbn [WrappingInt32.raw_value] in Heq.
  rewrite !WrappingInt32.wrap_raw in Heq. change (uint32 (- (1))) with 4294967295 in Heq.
  set (p := WrappingInt32.raw_value peer) in *. clearbody p. unfold uint32 in Heq. Z.div_mod_to_equations. lia.
Qed.

Lemma arriving_incoming E A c seg : ready E A c → arriving inb N peer local E A seg →
  Z.abs (pos peer seg - ack c) < 2147483648 ∧ TCPConnection.incoming inb N peer local A c seg.
Proof.
  intros Hrd [Hrst Hat Hend Hack]. destruct (pos_at _ _ _ _ _ HN Hpeer Hat) as [_ Hb]. pose proof (TCPReceiver.sa_k _ _ _ _ _ Hat).
  pose proof (TCPConnection.i_parts _ _ _ _ _ _ _ _ (rd_inv _ _ _ Hrd)) as Hp.
  destruct (TCPReceiver.inv_bounds inb N peer ltac:(lia) _ (TCPConnection.p_receiver _ _ _ _ _ _ _ _ Hp)) as (_ & Ha & _).
  pose proof (TCPSender.next_bound outb M local ltac:(lia) _ (TCPConnection.p_sender _ _ _ _ _ _ _ _ Hp)) as Hnb.
  pose proof (rd_acked _ _ _ Hrd). assert (Z.abs (pos peer seg - ack c) < 2147483648) as Hnear by lia.
  split; [done|]. right. split; [by exists (pos peer seg)|].
  intros (Hw & Ej & Hj)%Hack. split; [|done]. eexists. split; [exact Ej|]. split; [done|]. lia.
Qed.

(** The stages between the acknowledgment and the reply leave both halves alone. *)
Lemma close_stage c : let c' := TCPConnection.try_clean_closed
    (if ByteStream.eof (TCPConnection.inbound_stream c) && negb (ByteStream.eof (TCPConnection.outbound_stream c))
     then TCPConnection.set_linger c false else c) in
  TCPConnection._sender c' = TCPConnection._sender c ∧ rcv c' = rcv c ∧ TCPConnection._segments_out c' = TCPConnection._segments_out c ∧
  TCPConnection._cfg c' = TCPConnection._cfg c ∧ TCPConnection._linger_time c' = TCPConnection._linger_time c ∧
  (TCPConnection._active c = false → TCPConnection._active c' = false).
Proof.
  cbv zeta. destruct (_ && _); match goal with |- context [TCPConnection.try_clean_closed ?c] =>
    destruct (TCPConnection.try_clean_closed_cases c) as [->| ->] end; done.
Qed.

Lemma segment_reaction E A c seg : ready E A c → arriving inb N peer local E A seg →
  ∃ c' added replies, TCPConnection.segment_received c seg = Ok c' ∧ ready E A c' ∧ reaction c c' seg added replies.
Proof.
  intros Hrd Har. destruct (arriving_incoming _ _ _ _ Hrd Har) as [Hnear Hin].
  pose proof Hrd as [Hi Hf Hsd Hroom Hsyn Hsent Hacked]. pose proof Har as [Hrst Hat Hend Hack].
  pose proof (TCPConnection.i_parts _ _ _ _ _ _ _ _ Hi) as Hp.
  destruct (TCPConnection.segment_received_spec inb N peer outb M local ltac:(lia) Hpeer ltac:(lia) Hlocal A c seg Hi Hin)
    as (c4 & E4 & Hi4 & _ & _ & Hf4 & _).
  destruct (receive_sound inb N peer HN Hpeer (rcv c) _ seg E Hsd Hat Hend Hroom Hsyn Hnear)
    as (r & Er & Hsd' & Hcap & Hcon & Hmono & Hsy & Hsame & Hhas).
  destruct (TCPConnection.parts_receive inb N peer outb M local ltac:(lia) Hpeer A c _ seg Hp Hat Hnear) as (r0 & Er0 & Hp1 & _).
  rewrite Er in Er0. injection Er0 as <-. rewrite TCPConnection.segment_received_stages, Er, result_bind_ok in E4 |- * by done.
  set (c1 := TCPConnection.set_receiver (TCPConnection.set_linger_time c 0) r) in *.
  assert (TCPConnection.parts inb N peer outb M local A c1) as Hp1' by (by apply (TCPConnection.parts_ext inb N peer outb M local A (TCPConnection.set_receiver c r))).
  destruct (handle_ack_answers A c1 seg Hp1' (TCPConnection.i_drained _ _ _ _ _ _ _ _ Hi Hf) Hsent Hacked Hack)
    as (c2 & added & E2 & Han & Hq2 & Hd2 & Hr2 & Hcfg2 & Hlt2 & Hac2).
  rewrite E2, result_bind_ok in E4 |- *. cbv zeta in E4 |- *.
  destruct (close_stage c2) as (Es3 & Er3 & Eq3 & Ec3 & El3 & Ea3). cbv zeta in Es3, Er3, Eq3, Ec3, El3, Ea3.
  set (c3 := TCPConnection.try_clean_closed _) in *.
  assert (TCPHeader.ack (TCPSegment.header seg) = true → TCPConnection.ack_ok local A c1 (TCPHeader.ackno (TCPSegment.header seg)) ∧
    0 <= TCPHeader.win (TCPSegment.header seg) < two16) as Hok by (destruct Hin as [?|[_ ?]]; [congruence | done]).
  destruct (TCPConnection.handle_ack_spec inb N peer outb M local ltac:(lia) ltac:(lia) Hlocal A c1 _ Hp1' Hok) as (c2' & E2' & Hp2 & Hss & _).
  rewrite E2 in E2'. injection E2' as <-. pose proof (TCPConnection.ss_next _ _ Hss Hsent) as Hn2.
  destruct (reply_answers c3 seg) as (c4' & replies & E4' & [Rs Rr Rq Re Rsome Rwhy Rc Rt Ra]);
    [rewrite Es3; apply Hp2 | by rewrite Es3 | by rewrite Es3|].
  rewrite E4' in E4. injection E4 as ->. rewrite Es3 in *. rewrite Er3 in *. rewrite Hr2 in *.
  exists c4, added, replies. split; [done|]. rewrite orb_false_r, Hf, Hrst in Hf4 || rewrite Hf, Hrst in Hf4. split.
  - constructor; rewrite ?Rr, ?Rs; cbn; rewrite ?Hcap, ?Hcon; try done.
    + intros Hs0. apply Hsyn. rewrite Hsy in Hs0. by apply orb_false_iff in Hs0 as [? _].
    + pose proof (TCPSender.chain_le _ _ _ _ _ _ (an_chain _ _ _ _ Han)) as Hle. cbn in Hle. lia.
  - constructor; rewrite ?Rr, ?Rs; try done.
    + rewrite fmap_app, app_assoc, Rq, Eq3, Hq2. done.
    + intros (Hs1 & Hw)%Rwhy. split; [done|]. destruct Hw as [?|Hk]; [by left|]. right.
      apply keep_alive_pos; [apply Hsd' | done | done | done].
    + by rewrite Rc, Ec3, Hcfg2.
    + by rewrite Rt, El3, Hlt2.
    + intros Hin0. rewrite Ra. apply Ea3. by rewrite Hac2.
Qed.

(** ** A batch of segments *)

Inductive batch (E A : Z) : TCPConnection.t → list TCPSegment.t → TCPConnection.t → Prop :=
| batch_nil c : ready E A c → batch E A c [] c
| batch_cons c seg c1 added replies segs c' : ready E A c → arriving inb N peer local E A seg → reaction c c1 seg added replies →
    batch E A c1 segs c' → batch E A c (seg :: segs) c'.

Lemma receive_all_batch E A segs : ∀ c, ready E A c → Forall (arriving inb N peer local E A) segs →
  ∃ c', Benchmark.receive_all c segs = Ok c' ∧ batch E A c segs c'.
Proof.
  induction segs as [|seg segs IH]; intros c Hrd Hs; simpl; [exists c; split; [done | by constructor]|].
  apply Forall_cons in Hs as [Hseg Hs]. destruct (segment_reaction E A c seg Hrd Hseg) as (c1 & added & replies & -> & Hrd1 & Hre).
  rewrite result_bind_ok. destruct (IH c1 Hrd1 Hs) as (c' & -> & Hb). exists c'. split; [done | by econstructor].
Qed.

Lemma batch_ready E A c segs c' : batch E A c segs c' → ready E A c ∧ ready E A c'.
Proof. induction 1; tauto. Qed.

(** What arrives in a batch. *)
Lemma batch_receiver E A c segs c' : batch E A c segs c' →
  TCPReceiver._capacity (rcv c') = TCPReceiver._capacity (rcv c) ∧
  StreamReassembler.consumed (TCPReceiver._reassembler (rcv c')) = StreamReassembler.consumed (TCPReceiver._reassembler (rcv c)) ∧
  ack c <= ack c' ∧
  ∀ j, 0 <= j → has N (rcv c') j ↔ has N (rcv c) j ∨ ∃ seg, seg ∈ segs ∧ pos peer seg <= j < pos peer seg + size seg.
Proof.
  induction 1 as [c|c seg c1 added replies segs c' Hrd Har Hre Hb (Hc & Hcon & Hm & Hh)].
  - do 2 (split; [done|]). split; [lia|]. intros j Hj. split; [by left|]. by intros [?|(seg & ?%elem_of_nil & _)].
  - destruct (re_received _ _ _ _ _ Hre) as [Rc Rcon Rm _ _ Rh]. split; [congruence|]. split; [congruence|]. split; [lia|].
    intros j Hj. rewrite (Hh j Hj), (Rh j Hj). setoid_rewrite elem_of_cons. split.
    + intros [[?|?]|(s & ? & ?)]; [by left | right; exists seg; by auto | right; exists s; by auto].
    + intros [?|(s & [->|?] & ?)]; [by auto | by auto | right; by exists s].
Qed.

(** The receiver has nothing beyond its acknowledgment number. *)
Definition complete (r : TCPReceiver.t) : Prop := ∀ j, 0 <= j → has N r j → j < TCPReceiver._ackno r.
Definition covers (isn : WrappingInt32.t) (segs : list TCPSegment.t) (a e : Z) : Prop :=
  ∀ j, a <= j < e → ∃ seg, seg ∈ segs ∧ pos isn seg <= j < pos isn seg + size seg.

Lemma batch_complete E A c segs c' : batch E A c segs c' → Forall (arriving inb N peer local E A) segs → complete (rcv c) →
  covers peer segs (ack c) E → ack c <= E <= N + 2 → ack c' = E ∧ complete (rcv c').
Proof.
  intros Hb Hs Hcomp Hcov HE. destruct (batch_receiver _ _ _ _ _ Hb) as (_ & _ & Hm & Hh).
  destruct (batch_ready _ _ _ _ _ Hb) as [[_ _ Hsd _ _ _ _] [_ _ Hsd' _ _ _ _]].
  destruct (TCPReceiver.inv_bounds inb N peer ltac:(lia) _ (s_inv _ _ _ _ Hsd)) as (_ & Ha & _).
  destruct (TCPReceiver.inv_bounds inb N peer ltac:(lia) _ (s_inv _ _ _ _ Hsd')) as (_ & Ha' & _).
  assert (∀ j, 0 <= j → has N (rcv c') j ↔ j < E) as Hlt.
  { intros j Hj. rewrite (Hh j Hj). split.
    - intros [Hold%Hcomp|(seg & Hin & Hspan)]; [lia | done |].
      pose proof (ar_end _ _ _ _ _ _ _ (proj1 (Forall_forall _ _) Hs seg Hin)). lia.
    - intros HjE. destruct (Z.lt_ge_cases j (ack c)); [left; apply (ack_has inb N peer HN); [done | lia] | right; apply Hcov; lia]. }
  assert (ack c' = E) as Heq; [|split; [done|]; intros j Hj; rewrite Heq; by apply Hlt].
  destruct (Z.lt_trichotomy (ack c') E) as [Hl|[?|Hg]]; [|done|].
  - destruct (ack_missing inb N peer HN (rcv c') Hsd' ltac:(lia)). apply Hlt; lia.
  - pose proof (ack_has inb N peer HN (rcv c') E Hsd' ltac:(lia)) as HhE. apply Hlt in HhE; lia.
Qed.

(** What the sender keeps during a batch. *)
Record kept (c c' : TCPConnection.t) : Prop := {
  k_written : TCPSender.written (TCPConnection._sender c') = TCPSender.written (TCPConnection._sender c);
  k_ended : ByteStream.input_ended (TCPConnection.outbound_stream c') = ByteStream.input_ended (TCPConnection.outbound_stream c);
  k_cap : ByteStream._capacity (TCPConnection.outbound_stream c') = ByteStream._capacity (TCPConnection.outbound_stream c);
  k_next : next c <= next c';
  k_cfg : TCPConnection._cfg c' = TCPConnection._cfg c;
  k_active : TCPConnection._active c = false → TCPConnection._active c' = false }.

Lemma batch_kept E A c segs c' : batch E A c segs c' → kept c c'.
Proof.
  induction 1 as [c|c seg c1 added replies segs c' Hrd Har Hre Hb []]; [constructor; done || lia|].
  destruct (re_answers _ _ _ _ _ Hre) as [Hch Hw He Hc _]. apply TCPSender.chain_le in Hch.
  constructor; [congruence | unfold TCPConnection.outbound_stream, TCPSender.stream_in in *; congruence
    | unfold TCPConnection.outbound_stream, TCPSender.stream_in in *; congruence | lia | rewrite k_cfg0; apply Hre|].
  intros Ha. apply k_active0. by apply (re_active _ _ _ _ _ Hre).
Qed.

Lemma batch_time E A c segs c' : batch E A c segs c' → segs ≠ [] → TCPConnection._linger_time c' = 0.
Proof.
  induction 1 as [c|c seg c1 added replies segs c' Hrd Har Hre Hb IH]; [done|]. intros _.
  destruct segs; [|by apply IH]. inversion Hb; subst. apply Hre.
Qed.

(** A segment that acknowledges [n]. *)
Definition acking (isn : WrappingInt32.t) (n : Z) (seg : TCPSegment.t) : Prop :=
  TCPHeader.ack (TCPSegment.header seg) = true ∧ acked isn seg = n.

(** The retransmission count is that of the last acknowledgment. *)
Lemma batch_count E A c segs c' : batch E A c segs c' →
  count c' = 0 ∨ count c' = count c ∧ Forall (λ seg, TCPHeader.ack (TCPSegment.header seg) = false) segs.
Proof.
  induction 1 as [c|c seg c1 added replies segs c' Hrd Har Hre Hb IH]; [by right|].
  pose proof (an_ack _ _ _ _ (re_answers _ _ _ _ _ Hre)) as Han. destruct IH as [|[Hc Hf]]; [by left|]. rewrite Hc.
  destruct (TCPHeader.ack (TCPSegment.header seg)) eqn:Ea; [left; apply Han|]. destruct Han as [_ Es].
  right. rewrite Es. split; [done | by constructor].
Qed.

Lemma batch_acked_count E A n c segs c' : batch E A c segs c' → Exists (acking local n) segs → count c' = 0.
Proof.
  intros Hb (seg & Hin & Ha & _)%Exists_exists. destruct (batch_count _ _ _ _ _ Hb) as [|[_ Hf]]; [done|].
  pose proof (proj1 (Forall_forall _ _) Hf seg Hin) as Hn. simpl in Hn. congruence.
Qed.

(** How far it sends. *)
Lemma batch_window E A W c segs c' : batch E A c segs c' → 1 <= W →
  Forall (λ seg, TCPHeader.ack (TCPSegment.header seg) = true → TCPHeader.win (TCPSegment.header seg) <= W) segs →
  next c' <= Z.max (next c) (A + W).
Proof.
  intros Hb HW. induction Hb as [c|c seg c1 added replies segs c' Hrd Har Hre Hb IH]; [lia|].
  intros [Hw Hs]%Forall_cons. specialize (IH Hs). pose proof (an_ack _ _ _ _ (re_answers _ _ _ _ _ Hre)) as Han.
  destruct (TCPHeader.ack (TCPSegment.header seg)) eqn:Ea; [|destruct Han as [_ Es]; by rewrite Es in IH].
  destruct (ar_ack _ _ _ _ _ _ _ Har Ea) as (_ & _ & Hj). destruct Han as (_ & _ & _ & _ & Hn & _). specialize (Hw eq_refl). lia.
Qed.

(** After the last acknowledgment the window is full, or there is nothing to send. *)
Lemma batch_last E A c segs c' seg : batch E A c segs c' → last segs = Some seg → TCPHeader.ack (TCPSegment.header seg) = true →
  TCPSender._ackno (TCPConnection._sender c') = acked local seg ∧
  TCPSender._window_size (TCPConnection._sender c') = TCPHeader.win (TCPSegment.header seg) ∧
  TCPSender.fill_cond (TCPConnection._sender c') (TCPSender.window_end (TCPConnection._sender c')) = false.
Proof.
  induction 1 as [c|c seg1 c1 added replies segs c' Hrd Har Hre Hb IH]; [done|]. intros Hl Ha.
  destruct segs as [|seg2 segs]; [|by apply IH]. injection Hl as <-. inversion Hb; subst.
  pose proof (an_ack _ _ _ _ (re_answers _ _ _ _ _ Hre)) as Han. rewrite Ha in Han. tauto.
Qed.

Lemma chain_nil k l : TCPSender.chain outb M local k l k → l = [].
Proof. destruct l as [|[seg k'] l]; [done|]. simpl. intros (_ & _ & ? & _ & ?%TCPSender.chain_le). lia. Qed.

(** What stays outstanding: the segments sent in the batch, and what no segment of it acknowledged. *)
Lemma unacked_sent n j l e : j <= n → TCPSender.chain outb M local n l e → TCPSender.unacked j l = l.
Proof.
  intros Hj Hch. apply filter_all, Forall_forall. intros o Ho. pose proof (TCPSender.chain_ends _ _ _ _ _ _ _ Hch Ho). lia.
Qed.

Lemma batch_outs E A n c segs c' : batch E A c segs c' → A <= n → ∀ old new,
  outs c = old ++ new → TCPSender.chain outb M local n new (next c) → Forall (λ o, o.2 <= n) old →
  ∃ old' new', outs c' = old' ++ new' ∧ TCPSender.chain outb M local n new' (next c') ∧
    Forall (λ o, o ∈ old) old' ∧ (Exists (acking local n) segs → old' = []).
Proof.
  intros Hb HA. induction Hb as [c|c seg c1 added replies segs c' Hrd Har Hre Hb IH]; intros old new Ho Hch Hold.
  { exists old, new. do 2 (split; [done|]). split; [by apply Forall_forall|]. by intros ?%Exists_nil. }
  pose proof (re_answers _ _ _ _ _ Hre) as [Hadd _ _ _ Han].
  destruct (TCPHeader.ack (TCPSegment.header seg)) eqn:Ea.
  - destruct (ar_ack _ _ _ _ _ _ _ Har Ea) as (_ & _ & Hj). destruct Han as (_ & _ & _ & Eo & _).
    rewrite Ho in Eo. unfold TCPSender.unacked in Eo. rewrite filter_app in Eo. fold (TCPSender.unacked (acked local seg) new) in Eo.
    rewrite (unacked_sent n (acked local seg) _ _ ltac:(lia) Hch), <- app_assoc in Eo.
    destruct (IH _ _ Eo) as (old' & new' & E' & Hch' & Hin & Hex).
    { apply TCPSender.chain_app; [lia | by exists (next c)]. }
    { apply Forall_forall. intros o [_ Hin]%list_elem_of_filter. exact (proj1 (Forall_forall _ _) Hold o Hin). }
    exists old', new'. do 2 (split; [done|]). split.
    { eapply Forall_impl; [exact Hin|]. by intros o [_ ?]%list_elem_of_filter. }
    intros [[_ Hn]|Hs]%Exists_cons; [|by apply Hex].
    destruct old' as [|o old']; [done|]. apply Forall_cons in Hin as [[Hlt Hin]%list_elem_of_filter _].
    pose proof (proj1 (Forall_forall _ _) Hold o Hin) as Hle. simpl in Hle. lia.
  - destruct Han as [_ Es]. rewrite Es in *. destruct (IH old new Ho Hch Hold) as (old' & new' & E' & Hch' & Hin & Hex).
    exists old', new'. do 3 (split; [done|]). intros [[? _]|Hs]%Exists_cons; [congruence | by apply Hex].
Qed.

(** Without acknowledgments the sender does nothing. *)
Lemma batch_deaf E A c segs c' : batch E A c segs c' → Forall (λ seg, TCPHeader.ack (TCPSegment.header seg) = false) segs →
  TCPConnection._sender c' = TCPConnection._sender c.
Proof.
  induction 1 as [c|c seg c1 added replies segs c' Hrd Har Hre Hb IH]; [done|]. intros [Hn Hs]%Forall_cons. rewrite (IH Hs).
  pose proof (an_ack _ _ _ _ (re_answers _ _ _ _ _ Hre)) as Han. rewrite Hn in Han. apply Han.
Qed.

(** The moment at which [n] is acknowledged. *)
Lemma batch_moment E A n c segs c' : batch E A c segs c' → Exists (acking local n) segs →
  ∃ c1, ready E A c1 ∧ kept c c1 ∧ next c1 <= next c' ∧ TCPSender._ackno (TCPConnection._sender c1) = n ∧
    TCPSender.fill_cond (TCPConnection._sender c1) (TCPSender.window_end (TCPConnection._sender c1)) = false.
Proof.
  induction 1 as [c|c seg c1 added replies segs c' Hrd Har Hre Hb IH]; [by intros ?%Exists_nil|].
  destruct (batch_ready _ _ _ _ _ Hb) as [Hrd1 _].
  pose proof (batch_kept _ _ _ _ _ (batch_cons _ _ _ _ _ _ _ _ _ Hrd Har Hre (batch_nil _ _ _ Hrd1))) as Hk.
  intros [[Ha Hn]|Hs]%Exists_cons.
  - exists c1. split; [done|]. split; [done|]. split; [apply (batch_kept _ _ _ _ _ Hb)|].
    pose proof (an_ack _ _ _ _ (re_answers _ _ _ _ _ Hre)) as Han. rewrite Ha, Hn in Han. tauto.
  - destruct (IH Hs) as (c2 & Hrd2 & Hk2 & Hn2 & H2). exists c2. split; [done|]. split; [|done].
    destruct Hk, Hk2. constructor; try congruence; [lia | by auto].
Qed.

(** ** What a connection puts into its queue *)

(** A segment of the outbound stream between [lo] and [hi], with an acknowledgment of at most [A] and a window of at
    most [W]. *)
Record queued (lo hi A W : Z) (seg : TCPSegment.t) : Prop := {
  q_arriving : arriving outb M local peer hi A seg;
  q_lo : lo <= pos local seg;
  q_win : TCPHeader.ack (TCPSegment.header seg) = true → TCPHeader.win (TCPSegment.header seg) <= W }.

Lemma queued_mono lo hi A lo' hi' A' W seg : lo' <= lo → hi <= hi' → A <= A' → queued lo hi A W seg → queued lo' hi' A' W seg.
Proof.
  intros Hlo Hhi HA [[Hr Ha He Hk] Hl Hw]. constructor; [|lia | done]. constructor; [done | done | lia|].
  intros (? & ? & ?)%Hk. split; [done|]. split; [done | lia].
Qed.

(** The receiver's stamp on a segment of the sender. *)
Lemma stamp_queued r k seg : TCPReceiver.inv inb N peer r → TCPReceiver.segment_at outb M local k seg →
  TCPHeader.rst (TCPSegment.header seg) = false → TCPHeader.ack (TCPSegment.header seg) = false →
  pos local (TCPConnection.stamp r seg) = k ∧ size (TCPConnection.stamp r seg) = size seg ∧
  queued k (k + size seg) (TCPReceiver._ackno r) (TCPReceiver._capacity r) (TCPConnection.stamp r seg) ∧
  (TCPReceiver._syn_arrived r = true → acking peer (TCPReceiver._ackno r) (TCPConnection.stamp r seg)).
Proof.
  intros Hr Hat Hrst Hack. destruct (pos_at _ _ _ _ _ HM Hlocal Hat) as [Hpos _].
  destruct (TCPReceiver.inv_bounds inb N peer ltac:(lia) r Hr) as (Hn & Ha & Hw & Hwe).
  assert (TCPReceiver.window_size r <= TCPReceiver._capacity r) as Hwc.
  { rewrite Hwe, (TCPReceiver.i_cap _ _ _ _ Hr). destruct (TCPReceiver.i_store _ _ _ _ Hr) as [[Hout _ _ _] _ _ _].
    pose proof (ByteStream.wf_sz _ Hout). unfold StreamReassembler.consumed, StreamReassembler.next_idx. lia. }
  pose proof (TCPReceiver.i_ack _ _ _ _ Hr) as Hi. unfold TCPConnection.stamp, TCPReceiver.ackno.
  destruct (TCPReceiver._syn_arrived r) eqn:Es; simpl negb; cbv iota.
  2:{ split; [done|]. split; [done|]. split; [|done]. constructor; [|lia | congruence].
      constructor; [done | by rewrite Hpos | unfold pos in *; lia|]. intros ?. congruence. }
  destruct Hi as [Hisn _]. rewrite Hisn. set (seg' := TCPSegment.mk _ _).
  assert (acked peer seg' = TCPReceiver._ackno r) as Hacked by (apply unwrap_0; [done | lia]).
  assert (pos local seg' = k) as Hpos' by exact Hpos.
  split; [done|]. split; [done|]. split; [|by split].
  constructor; [|lia | intros _; cbn; unfold uint16; pose proof (Z.mod_le (TCPReceiver.window_size r) two16); lia].
  constructor; [done | rewrite Hpos'; destruct Hat; by constructor | rewrite Hpos'; change (size seg') with (size seg); lia|].
  intros _. split; [apply uint16_range|]. rewrite Hacked. split; [done | lia].
Qed.

(** A chain of segments of the sender, stamped. *)
Lemma stamp_chain r l : ∀ k e, TCPReceiver.inv inb N peer r → TCPSender.chain outb M local k l e →
  Forall (queued k e (TCPReceiver._ackno r) (TCPReceiver._capacity r)) (TCPConnection.stamp r <$> l.*1) ∧
  covers local (TCPConnection.stamp r <$> l.*1) k e.
Proof.
  induction l as [|[seg k'] l IH]; intros k e Hr; simpl.
  { intros ->. split; [constructor|]. intros j Hj. lia. }
  intros (Hat & -> & Hlt & (_ & Hack & Hrst) & Hch). destruct (IH _ _ Hr Hch) as [Hf Hc]. pose proof (TCPSender.chain_le _ _ _ _ _ _ Hch).
  destruct (stamp_queued r k seg Hr Hat Hrst Hack) as (Hp & Hs & Hq & _). split.
  - constructor; [apply (queued_mono k (k + size seg) (TCPReceiver._ackno r)); [lia | lia | lia | done]|].
    eapply Forall_impl; [exact Hf|]. intros s. apply queued_mono; lia.
  - intros j Hj. destruct (Z.lt_ge_cases j (k + size seg)).
    + exists (TCPConnection.stamp r seg). split; [apply elem_of_cons; by left | lia].
    + destruct (Hc j) as (s & Hin & Hsp); [lia|]. exists s. split; [apply elem_of_cons; by right | done].
Qed.

Lemma stamp_acking r seg : TCPReceiver.inv inb N peer r → TCPReceiver._syn_arrived r = true →
  acking peer (TCPReceiver._ackno r) (TCPConnection.stamp r seg).
Proof.
  intros Hr Es. destruct (TCPReceiver.inv_bounds inb N peer ltac:(lia) r Hr) as (_ & Ha & _).
  pose proof (TCPReceiver.i_ack _ _ _ _ Hr) as Hi. unfold TCPConnection.stamp, TCPReceiver.ackno. rewrite Es in *.
  destruct Hi as [Hisn _]. simpl. rewrite Hisn. split; [done|]. apply unwrap_0; [done | lia].
Qed.

Lemma covers_app_l l1 l2 a e : covers local l1 a e → covers local (l1 ++ l2) a e.
Proof. intros Hc j Hj. destruct (Hc j Hj) as (s & Hin & ?). exists s. split; [apply elem_of_app; by left | done]. Qed.

Lemma covers_join l1 l2 a m e : covers local l1 a m → covers local l2 m e → covers local (l1 ++ l2) a e.
Proof.
  intros H1 H2 j Hj. destruct (Z.lt_ge_cases j m).
  - apply (covers_app_l l1 l2 a m H1 j). lia.
  - destruct (H2 j ltac:(lia)) as (s & Hin & ?). exists s. split; [apply elem_of_app; by right | done].
Qed.

(** The newest segment of a queue carries the newest acknowledgment. *)
Definition newest (a0 a : Z) (new : list TCPSegment.t) : Prop :=
  new = [] ∧ a = a0 ∨ ∃ seg, last new = Some seg ∧ acking peer a seg.

Lemma reaction_queue E A c seg c1 added replies : arriving inb N peer local E A seg → ready E A c1 →
  reaction c c1 seg added replies →
  let new := TCPConnection.stamp (rcv c1) <$> (added.*1 ++ replies) in
  Forall (queued (next c) (next c1) (ack c1) (TCPReceiver._capacity (rcv c1))) new ∧ covers local new (next c) (next c1) ∧
  (TCPReceiver._syn_arrived (rcv c1) = true → newest (ack c) (ack c1) new).
Proof.
  intros Har Hrd1 Hre. cbv zeta. pose proof (s_inv _ _ _ _ (rd_sound _ _ _ Hrd1)) as Hr.
  destruct (re_answers _ _ _ _ _ Hre) as [Hch _ _ _ _]. pose proof (TCPSender.chain_le _ _ _ _ _ _ Hch) as Hle.
  destruct (stamp_chain (rcv c1) added _ _ Hr Hch) as [Hq Hc]. rewrite fmap_app.
  split; [|split; [by apply covers_app_l|]].
  - apply Forall_app. split; [done|]. apply Forall_fmap. eapply Forall_impl; [exact (re_replies _ _ _ _ _ Hre)|].
    intros s (Hat & Hz & Hrst & Hack). destruct (stamp_queued (rcv c1) (next c1) s Hr Hat Hrst Hack) as (_ & _ & Hs & _).
    eapply queued_mono; [| | |exact Hs]; lia.
  - intros Hsyn. rewrite <- fmap_app. destruct (added.*1 ++ replies) as [|s l] eqn:El using rev_ind.
    + left. split; [done|]. apply (rc_same _ _ _ (re_received _ _ _ _ _ Hre)).
      apply app_eq_nil in El as [_ Enil]. destruct (Z.eq_dec (size seg) 0) as [|Hnz]; [done|].
      by destruct (re_some _ _ _ _ _ Hre Hnz Hsyn).
    + right. rewrite fmap_app. eexists. split; [apply last_snoc|]. by apply stamp_acking.
Qed.

(** The queue after a batch. *)
Lemma batch_queue E A c segs c' : batch E A c segs c' →
  ∃ new, TCPConnection._segments_out c' = TCPConnection._segments_out c ++ new ∧
    Forall (queued (next c) (next c') (ack c') (TCPReceiver._capacity (rcv c'))) new ∧ covers local new (next c) (next c') ∧
    (TCPReceiver._syn_arrived (rcv c') = true → newest (ack c) (ack c') new).
Proof.
  induction 1 as [c Hrd|c seg c1 added replies segs c' Hrd Har Hre Hb (new2 & Eq2 & Hq2 & Hc2 & Hn2)].
  { exists []. rewrite app_nil_r. split; [done|]. split; [constructor|]. split; [intros j Hj; lia | by left]. }
  destruct (batch_ready _ _ _ _ _ Hb) as [Hrd1 Hrd']. destruct (batch_receiver _ _ _ _ _ Hb) as (Hcap & _ & Hm & _).
  destruct (reaction_queue E A c seg c1 added replies Har Hrd1 Hre) as (Hq1 & Hc1 & Hn1).
  pose proof (TCPSender.chain_le _ _ _ _ _ _ (an_chain _ _ _ _ (re_answers _ _ _ _ _ Hre))) as Hle1.
  pose proof (k_next _ _ (batch_kept _ _ _ _ _ Hb)) as Hle2. rewrite Hcap in *.
  set (new1 := TCPConnection.stamp (rcv c1) <$> _) in *. exists (new1 ++ new2).
  split; [by rewrite app_assoc, Eq2, (re_queue _ _ _ _ _ Hre)|]. split; [|split; [by eapply covers_join|]].
  - apply Forall_app. split; [eapply Forall_impl; [exact Hq1|]; intros s; apply queued_mono; lia|].
    eapply Forall_impl; [exact Hq2|]. intros s. apply queued_mono; lia.
  - intros Hsyn. destruct (Hn2 Hsyn) as [[-> Ha]|(s & Hl & Ha)].
    + rewrite app_nil_r, Ha. apply Hn1. pose proof (TCPReceiver.i_ack _ _ _ _ (s_inv _ _ _ _ (rd_sound _ _ _ Hrd'))) as Hi'.
      pose proof (TCPReceiver.i_ack _ _ _ _ (s_inv _ _ _ _ (rd_sound _ _ _ Hrd1))) as Hi1. rewrite Hsyn in Hi'.
      destruct (TCPReceiver._syn_arrived (rcv c1)); [done|]. destruct Hi' as [_ Hi'], Hi1 as (Hi1 & _).
      destruct (TCPReceiver.inv_bounds inb N peer ltac:(lia) _ (s_inv _ _ _ _ (rd_sound _ _ _ Hrd'))) as (? & _).
      pose proof (bool_to_Z_range (ByteStream.input_ended (TCPReceiver.stream_out (rcv c')))). lia.
    + right. exists s. split; [|done]. by apply last_app_Some; left.
Qed.

(** Nothing is sent when there is nothing left to say. *)
Lemma batch_silent E A c segs c' : batch E A c segs c' → next c = M + 2 → ack c = N + 2 →
  Forall (λ seg, size seg = 0 ∧ pos peer seg = N + 2) segs → TCPConnection._segments_out c' = TCPConnection._segments_out c.
Proof.
  induction 1 as [c Hrd|c seg c1 added replies segs c' Hrd Har Hre Hb IH]; [done|]. intros Hn Ha [[Hz Hp] Hs]%Forall_cons.
  destruct (batch_ready _ _ _ _ _ Hb) as [Hrd1 _]. pose proof (rc_same _ _ _ (re_received _ _ _ _ _ Hre) Hz) as Ha1.
  pose proof (TCPConnection.i_parts _ _ _ _ _ _ _ _ (rd_inv _ _ _ Hrd1)) as Hpt.
  pose proof (TCPSender.next_bound outb M local ltac:(lia) _ (TCPConnection.p_sender _ _ _ _ _ _ _ _ Hpt)) as Hnb.
  pose proof (an_chain _ _ _ _ (re_answers _ _ _ _ _ Hre)) as Hch. pose proof (TCPSender.chain_le _ _ _ _ _ _ Hch) as Hle.
  assert (added = []) as -> by (apply (chain_nil (next c)); by replace (next c1) with (next c) in Hch by lia).
  assert (replies = []) as ->.
  { destruct replies; [done|]. destruct (re_why _ _ _ _ _ Hre) as [_ [?|?]]; [done | done | lia]. }
  rewrite IH; [|lia | lia | done]. rewrite (re_queue _ _ _ _ _ Hre). simpl. apply app_nil_r.
Qed.

(** ** The application and the clock *)

(** The application gave the sender something: it sends what the window allows. *)
Record fed (c c' : TCPConnection.t) : Prop := {
  f_receiver : rcv c' = rcv c;
  f_sent : ∃ added, TCPConnection._segments_out c' = TCPConnection._segments_out c ++ (TCPConnection.stamp (rcv c) <$> added.*1) ∧
    outs c' = outs c ++ added ∧ TCPSender.chain outb M local (next c) added (next c');
  f_ackno : TCPSender._ackno (TCPConnection._sender c') = TCPSender._ackno (TCPConnection._sender c);
  f_window : TCPSender._window_size (TCPConnection._sender c') = TCPSender._window_size (TCPConnection._sender c);
  f_count : count c' = count c;
  f_next : next c' <= Z.max (next c) (TCPSender.window_end (TCPConnection._sender c));
  f_full : TCPSender.fill_cond (TCPConnection._sender c) (TCPSender.window_end (TCPConnection._sender c)) = false →
    TCPSender.fill_cond (TCPConnection._sender c') (TCPSender.window_end (TCPConnection._sender c')) = false;
  f_cap : ByteStream._capacity (TCPConnection.outbound_stream c') = ByteStream._capacity (TCPConnection.outbound_stream c);
  f_cfg : TCPConnection._cfg c' = TCPConnection._cfg c;
  f_time : TCPConnection._linger_time c' = TCPConnection._linger_time c;
  f_active : TCPConnection._active c' = TCPConnection._active c }.

Lemma fed_refl c : fed c c.
Proof. constructor; try done; [|lia]. exists []. simpl. by rewrite !app_nil_r. Qed.

Lemma fed_trans c1 c2 c3 : fed c1 c2 → fed c2 c3 → fed c1 c3.
Proof using HM.
  intros [Hr1 (a1 & Hq1 & Ho1 & Hc1) Ha1 Hw1 Hk1 Hn1 Hf1 ? ? ? ?] [Hr2 (a2 & Hq2 & Ho2 & Hc2) Ha2 Hw2 Hk2 Hn2 Hf2 ? ? ? ?].
  clear HN Hpeer Hlocal. constructor; try congruence; [| |by auto].
  - exists (a1 ++ a2). split; [by rewrite fmap_app, fmap_app, app_assoc, <- Hq1, <- Hr1|]. split; [by rewrite app_assoc, <- Ho1|].
    apply TCPSender.chain_app; [lia | eauto].
  - unfold TCPSender.window_end in *. rewrite Ha1, Hw1 in Hn2. lia.
Qed.

Lemma fill_fed A c : TCPConnection.parts inb N peer outb M local A c → TCPSender.segments_out (TCPConnection._sender c) = [] →
  ∃ c1, TCPConnection.fill_window c = Ok c1 ∧ fed c (TCPConnection.update_queue c1) ∧
    TCPSender.fill_cond (TCPConnection._sender c1) (TCPSender.window_end (TCPConnection._sender c1)) = false ∧
    ByteStream.input_ended (TCPConnection.outbound_stream c1) = ByteStream.input_ended (TCPConnection.outbound_stream c).
Proof.
  intros Hp Hq. unfold TCPConnection.fill_window.
  destruct (TCPSender.fill_window_spec outb M local ltac:(lia) (TCPConnection._sender c) (TCPConnection.p_sender _ _ _ _ _ _ _ _ Hp))
    as (s2 & added & -> & [] & Hle & Hc).
  rewrite result_bind_ok. eexists. split; [done|].
  assert (TCPSender.fill_cond s2 (TCPSender.window_end s2) = false) as Hc2 by (unfold TCPSender.window_end in *; by rewrite a_ackno, a_window).
  split; [|by split]. constructor; try done. exists added. split; [|by split].
  cbn. rewrite TCPConnection.update_loop_map. unfold TCPSender.segments_out in *. by rewrite a_queue, Hq.
Qed.

(** The fields that a change of the outbound stream leaves alone. *)
Lemma fed_stream c st c' : ByteStream._capacity st = ByteStream._capacity (TCPConnection.outbound_stream c) →
  TCPSender.fill_cond (TCPConnection._sender c') (TCPSender.window_end (TCPConnection._sender c')) = false →
  fed (TCPConnection.set_sender c (TCPSender.set_stream_in (TCPConnection._sender c) st)) c' → fed c c'.
Proof. intros Hcap Hfull [? ? ? ? ? ? _ Hc ? ? ?]. constructor; try done. exact (eq_trans Hc Hcap). Qed.

(** The application writes and closes. *)
Lemma write_fed A c n : TCPConnection.inv inb N peer outb M local A c → TCPConnection.failed c = false → 0 <= n →
  TCPSender.written (TCPConnection._sender c) + n <= M → n <= TCPConnection.remaining_outbound_capacity c →
  ∃ c', TCPConnection.write c (slice outb (TCPSender.written (TCPConnection._sender c)) n) = Ok (c', n) ∧
    TCPConnection.inv inb N peer outb M local A c' ∧ TCPConnection.failed c' = false ∧ fed c c' ∧
    TCPSender.written (TCPConnection._sender c') = TCPSender.written (TCPConnection._sender c) + n ∧
    ByteStream.input_ended (TCPConnection.outbound_stream c') = ByteStream.input_ended (TCPConnection.outbound_stream c).
Proof.
  intros Hi Hf Hn HM' Hcap.
  destruct (TCPConnection.connection_write_spec inb N peer outb M local ltac:(lia) ltac:(lia) A c n Hi Hn HM')
    as (c' & ret & E & Hi' & Hf' & _ & Hret & Hw).
  pose proof (TCPConnection.i_parts _ _ _ _ _ _ _ _ Hi) as Hp. pose proof (TCPConnection.p_sender _ _ _ _ _ _ _ _ Hp) as Hs.
  pose proof (TCPSender.i_stream _ _ _ _ Hs) as Hst.
  destruct (Pump.write_fits (TCPConnection.outbound_stream c) (slice outb (TCPSender.written (TCPConnection._sender c)) n) Hst) as (st & Es & Hap);
    [rewrite len_slice by lia; exact Hcap|].
  rewrite len_slice in Es by lia.
  destruct (TCPSender.sender_write_spec outb M local ltac:(lia) (TCPConnection._sender c) n Hs Hn HM') as (st' & ret' & Es' & Hs' & _).
  change (TCPConnection.outbound_stream c) with (TCPSender._stream (TCPConnection._sender c)) in Es. rewrite Es in Es'. injection Es' as <- <-.
  pose proof (TCPConnection.parts_set_stream_in inb N peer outb M local A c st Hp Hs') as Hp1.
  destruct (fill_fed A _ Hp1 (TCPConnection.i_drained _ _ _ _ _ _ _ _ Hi Hf)) as (c1 & E1 & Hfed & Hfull & Hend).
  pose proof E as E'. unfold TCPConnection.write in E'.
  change (TCPConnection.outbound_stream c) with (TCPSender._stream (TCPConnection._sender c)) in E'.
  rewrite Es, result_bind_ok, E1, result_bind_ok in E'. injection E' as <- <-.
  exists (TCPConnection.update_queue c1). split; [done|]. split; [done|]. split; [congruence|]. destruct Hap.
  split; [by apply (fed_stream c st)|]. split; [done|]. exact (eq_trans Hend ap_end).
Qed.

Lemma end_fed A c : TCPConnection.inv inb N peer outb M local A c → TCPConnection.failed c = false →
  TCPSender.written (TCPConnection._sender c) = M →
  ∃ c', TCPConnection.end_input_stream c = Ok c' ∧ TCPConnection.inv inb N peer outb M local A c' ∧
    TCPConnection.failed c' = false ∧ fed c c' ∧
    TCPSender.written (TCPConnection._sender c') = TCPSender.written (TCPConnection._sender c) ∧
    ByteStream.input_ended (TCPConnection.outbound_stream c') = true ∧
    TCPSender.fill_cond (TCPConnection._sender c') (TCPSender.window_end (TCPConnection._sender c')) = false.
Proof.
  intros Hi Hf Hw.
  destruct (TCPConnection.end_input_stream_spec inb N peer outb M local ltac:(lia) ltac:(lia) A c Hi Hw) as (c' & E & Hi' & Hf' & _ & Hw').
  pose proof (TCPConnection.i_parts _ _ _ _ _ _ _ _ Hi) as Hp. pose proof (TCPConnection.p_sender _ _ _ _ _ _ _ _ Hp) as Hs.
  pose proof (TCPConnection.parts_set_stream_in inb N peer outb M local A c _ Hp (TCPSender.end_input_spec outb M local _ Hs Hw)) as Hp1.
  destruct (fill_fed A _ Hp1 (TCPConnection.i_drained _ _ _ _ _ _ _ _ Hi Hf)) as (c1 & E1 & Hfed & Hfull & Hend).
  pose proof E as E'. unfold TCPConnection.end_input_stream, TCPConnection.outbound_stream, TCPSender.stream_in in E'.
  rewrite E1, result_bind_ok in E'. injection E' as <-.
  exists (TCPConnection.update_queue c1). split; [done|]. split; [done|]. split; [congruence|].
  split; [by eapply fed_stream; [|done | exact Hfed]|]. by split; [|split].
Qed.

Lemma connect_fed A c : TCPConnection.inv inb N peer outb M local A c → TCPConnection.failed c = false →
  ∃ c', TCPConnection.connect c = Ok c' ∧ TCPConnection.inv inb N peer outb M local A c' ∧
    TCPConnection.failed c' = false ∧ fed c c' ∧
    TCPSender.written (TCPConnection._sender c') = TCPSender.written (TCPConnection._sender c) ∧
    ByteStream.input_ended (TCPConnection.outbound_stream c') = ByteStream.input_ended (TCPConnection.outbound_stream c) ∧
    TCPSender.fill_cond (TCPConnection._sender c') (TCPSender.window_end (TCPConnection._sender c')) = false.
Proof.
  intros Hi Hf.
  destruct (TCPConnection.connect_spec inb N peer outb M local ltac:(lia) ltac:(lia) A c Hi) as (c' & E & Hi' & Hf' & _ & Hw').
  destruct (fill_fed A c (TCPConnection.i_parts _ _ _ _ _ _ _ _ Hi) (TCPConnection.i_drained _ _ _ _ _ _ _ _ Hi Hf)) as (c1 & E1 & Hfed & Hfull & Hend).
  pose proof E as E'. unfold TCPConnection.connect in E'. rewrite E1, result_bind_ok in E'. injection E' as <-.
  exists (TCPConnection.update_queue c1). split; [done|]. split; [done|]. split; [congruence|]. by split.
Qed.

(** The application reads everything. *)
Lemma reaction_read_all A c : TCPConnection.inv inb N peer outb M local A c → sound inb N peer (rcv c) →
  ∃ r b, TCPConnection.read c (ByteStream.buffer_size (TCPConnection.inbound_stream c)) = Ok (TCPConnection.set_receiver c r, b) ∧
    TCPConnection.inv inb N peer outb M local A (TCPConnection.set_receiver c r) ∧ sound inb N peer r ∧
    TCPReceiver._capacity r = TCPReceiver._capacity (rcv c) ∧ TCPReceiver._ackno r = ack c ∧
    TCPReceiver._syn_arrived r = TCPReceiver._syn_arrived (rcv c) ∧
    StreamReassembler.consumed (TCPReceiver._reassembler r) = StreamReassembler.next_idx (TCPReceiver._reassembler r) ∧
    ∀ j, has N r j ↔ has N (rcv c) j.
Proof.
  intros Hi Hsd. pose proof (s_inv _ _ _ _ Hsd) as Hr. destruct (TCPReceiver.i_store _ _ _ _ Hr) as [[Hout _ _ _] _ _ _].
  pose proof (ByteStream.wf_sz _ Hout) as Hsz. set (n := ByteStream.buffer_size (TCPConnection.inbound_stream c)).
  assert (0 <= n) as Hn by (unfold n, ByteStream.buffer_size, TCPConnection.inbound_stream, TCPReceiver.stream_out, StreamReassembler.stream_out; lia).
  destruct (TCPConnection.connection_read_spec inb N peer outb M local A c n Hi Hn) as (c' & b & E & Hi' & _ & _ & _ & Hcon).
  pose proof E as ([o d] & Eo & [= <- <-])%result_bind_inv.
  change (TCPConnection.inbound_stream c) with (StreamReassembler._output (TCPReceiver._reassembler (rcv c))) in Eo.
  rewrite ByteStream.stream_read_spec in Eo by done. injection Eo as Eo Ed.
  exists (TCPReceiver.set_stream_out (rcv c) o), d. split; [done|]. split; [done|]. cbn in Hcon.
  assert (StreamReassembler.consumed (StreamReassembler.set_stream_out (TCPReceiver._reassembler (rcv c)) o) =
    StreamReassembler.next_idx (TCPReceiver._reassembler (rcv c))) as Hall.
  { unfold StreamReassembler.consumed, StreamReassembler.next_idx. cbn. rewrite <- Eo. cbn. unfold n.
    change (ByteStream.buffer_size (TCPConnection.inbound_stream c)) with (ByteStream._sz (StreamReassembler._output (TCPReceiver._reassembler (rcv c)))). lia. }
  split; [|do 3 (split; [done|]); split; [exact Hall | done]].
  constructor; [apply Hi'| |].
  - intros j Hj. pose proof (s_window _ _ _ _ Hsd j Hj) as Hw. pose proof (len_nonneg d). cbn. cbn in Hw. lia.
  - intros He Hnx. change (TCPReceiver.stream_out (TCPReceiver.set_stream_out (rcv c) o)) with o.
    assert (ByteStream.input_ended o = ByteStream.input_ended (TCPReceiver.stream_out (rcv c))) as -> by (by rewrite <- Eo).
    by apply Hsd.
Qed.

(** The clock: at most the first outstanding segment is sent again. *)
Record ticked (ms : Z) (c c' : TCPConnection.t) : Prop := {
  t_receiver : rcv c' = rcv c;
  t_sender : TCPSender._stream (TCPConnection._sender c') = TCPSender._stream (TCPConnection._sender c) ∧ next c' = next c ∧ outs c' = outs c ∧
    TCPSender._ackno (TCPConnection._sender c') = TCPSender._ackno (TCPConnection._sender c) ∧
    TCPSender._window_size (TCPConnection._sender c') = TCPSender._window_size (TCPConnection._sender c) ∧
    TCPSender._fin_sended (TCPConnection._sender c') = TCPSender._fin_sended (TCPConnection._sender c);
  t_queue : ∃ again, TCPConnection._segments_out c' = TCPConnection._segments_out c ++ (TCPConnection.stamp (rcv c) <$> again) ∧
    (again = [] ∨ ∃ seg k l, outs c = (seg, k) :: l ∧ again = [seg]);
  t_count : 0 <= count c' <= count c + 1 ∧ (outs c = [] → count c' = count c);
  t_cfg : TCPConnection._cfg c' = TCPConnection._cfg c;
  t_time : TCPConnection._linger_time c' = TCPConnection._linger_time c + ms;
  t_active : TCPConnection._active c = false → TCPConnection._active c' = false;
  t_close : ByteStream.eof (TCPConnection.inbound_stream c) = true → ByteStream.eof (TCPConnection.outbound_stream c) = true → outs c = [] →
    10 * TCPConfig.rt_timeout (TCPConnection._cfg c) <= TCPConnection._linger_time c + ms → TCPConnection._active c' = false }.

(** The sender's part. *)
Lemma sender_ticked s ms : TCPSender.inv outb M local s → TCPSender.segments_out s = [] → 0 <= ms →
  0 <= TCPSender.consecutive_retransmissions s < 8 →
  ∃ s', TCPSender.tick s ms = Ok s' ∧ TCPSender._stream s' = TCPSender._stream s ∧ TCPSender._next_seqno s' = TCPSender._next_seqno s ∧
    Timer._outstandings (TCPSender._timer s') = Timer._outstandings (TCPSender._timer s) ∧ TCPSender._ackno s' = TCPSender._ackno s ∧
    TCPSender._window_size s' = TCPSender._window_size s ∧ TCPSender._fin_sended s' = TCPSender._fin_sended s ∧
    TCPSender._bytes_in_flight s' = TCPSender._bytes_in_flight s ∧
    (TCPSender.segments_out s' = [] ∨ ∃ seg k l, Timer._outstandings (TCPSender._timer s) = (seg, k) :: l ∧ TCPSender.segments_out s' = [seg]) ∧
    0 <= TCPSender.consecutive_retransmissions s' <= TCPSender.consecutive_retransmissions s + 1 ∧
    (Timer._outstandings (TCPSender._timer s) = [] → TCPSender.consecutive_retransmissions s' = TCPSender.consecutive_retransmissions s).
Proof.
  intros Hs Hq Hms Hk. unfold TCPSender.tick, Timer.tick_handle, TCPSender.segments_out in *.
  unfold TCPSender.consecutive_retransmissions, Timer.consecutive_retransmissions in *.
  rewrite (TCPSender.i_running _ _ _ _ Hs), Hq. destruct (Timer._outstandings (TCPSender._timer s)) as [|[seg k] l] eqn:Eo.
  { rewrite bool_decide_true by done. simpl. eexists. split; [done|]. do 7 (split; [done|]). split; [by left | simpl; split; [lia | done]]. }
  rewrite bool_decide_false by done. simpl negb. cbv iota.
  destruct (_ <=? ms); [destruct (negb _)|]; rewrite result_bind_ok; eexists; (split; [reflexivity|]); cbn; rewrite ?Eo;
    (do 7 (split; [done|])); (split; [first [by left | right; eauto] | rewrite ?uint32_id by lia; split; [lia | done]]).
Qed.

Lemma tick_ticked A c ms : TCPConnection.inv inb N peer outb M local A c → TCPConnection.failed c = false → 0 <= ms →
  0 <= count c < 8 → 0 <= TCPConnection._linger_time c → TCPConnection._linger_time c + ms < two64 →
  ∃ c', TCPConnection.tick c ms = Ok c' ∧ TCPConnection.inv inb N peer outb M local A c' ∧ TCPConnection.failed c' = false ∧ ticked ms c c'.
Proof.
  intros Hi Hf Hms Hk Ht0 Ht.
  destruct (TCPConnection.connection_tick_spec inb N peer outb M local ltac:(lia) ltac:(lia) A c ms Hi Hms) as (c' & E & Hi' & _).
  pose proof (TCPConnection.i_parts _ _ _ _ _ _ _ _ Hi) as Hp. pose proof (TCPConnection.p_sender _ _ _ _ _ _ _ _ Hp) as Hs.
  destruct (sender_ticked _ ms Hs (TCPConnection.i_drained _ _ _ _ _ _ _ _ Hi Hf) Hms Hk)
    as (s & Es & Hst & Hn & Ho & Ha & Hw & Hfin & Hfl & Hq & Hc).
  exists c'. split; [done|]. split; [done|]. revert E. unfold TCPConnection.tick. rewrite Es, result_bind_ok, uint64_id by (cbn; lia). cbv zeta.
  set (c3 := TCPConnection.set_linger_time _ _).
  change (TCPSender.consecutive_retransmissions (TCPConnection._sender c3)) with (TCPSender.consecutive_retransmissions s).
  unfold TCPConfig.MAX_RETX_ATTEMPTS. destruct (Z.ltb_spec 8 (TCPSender.consecutive_retransmissions s)); [lia|]. intros [= <-].
  assert (TCPConnection.failed c3 = false) as Hf3 by (unfold TCPConnection.failed in *; cbn; by rewrite Hst).
  pose proof (TCPConnection.try_clean_closed_cases c3) as Hcl.
  split; [by destruct Hcl as [->| ->]|].
  assert (TCPConnection._segments_out c3 = TCPConnection._segments_out c ++ (TCPConnection.stamp (rcv c) <$> TCPSender.segments_out s)) as Hq3
    by (cbn; by rewrite TCPConnection.update_loop_map).
  constructor; try (by destruct Hcl as [->| ->]).
  - exists (TCPSender.segments_out s). split; [by destruct Hcl as [->| ->] | done].
  - intros Hin Hout Hnil Htime. unfold TCPConnection.try_clean_closed.
    change (TCPConnection.inbound_stream c3) with (TCPConnection.inbound_stream c). rewrite Hin.
    assert (ByteStream.eof (TCPConnection.outbound_stream c3) = true) as -> by (rewrite <- Hout; cbn;
      unfold TCPConnection.outbound_stream, TCPSender.stream_in; cbn; by rewrite Hst).
    assert (TCPConnection.bytes_in_flight c3 = 0) as ->.
    { destruct (TCPSender.i_out _ _ _ _ Hs) as (una & _ & Hch & Hb). rewrite Hnil in Hch. simpl in Hch.
      change (TCPConnection.bytes_in_flight c3) with (TCPSender._bytes_in_flight s). lia. }
    change (TCPConnection._cfg c3) with (TCPConnection._cfg c).
    change (TCPConnection._linger_time c3) with (TCPConnection._linger_time c + ms).
    replace (TCPConfig.rt_timeout (TCPConnection._cfg c) * 10 <=? _) with true by (symmetry; apply Z.leb_le; lia).
    by rewrite orb_true_r.
Qed.

End Side.

#[global] Arguments s_inv {stream N isn r} _.
#[global] Arguments rd_inv {inb N peer outb M local E A c} _.
#[global] Arguments rd_failed {inb N peer outb M local E A c} _.
#[global] Arguments rd_sound {inb N peer outb M local E A c} _.
#[global] Arguments rd_sent {inb N peer outb M local E A c} _.
#[global] Arguments rd_acked {inb N peer outb M local E A c} _.
#[global] Arguments k_next {c c'} _.
#[global] Arguments q_arriving {peer outb M local lo hi A W seg} _.
#[global] Arguments ar_end {stream N isn back E A seg} _.
#[global] Arguments batch_ready {inb N peer outb M local} HN HM {E A c segs c'} _.
#[global] Arguments batch_kept {inb N peer outb M local E A c segs c'} _.
#[global] Arguments batch_deaf {inb N peer outb M local E A c segs c'} _ _.
#[global] Arguments batch_moment {inb N peer outb M local} HN HM {E A n c segs c'} _ _.
#[global] Arguments batch_outs {inb N peer outb M local} HM {E A} n {c segs c'} _ _ old new _ _ _.
#[global] Arguments batch_count {inb N peer outb M local E A c segs c'} _.
#[global] Arguments batch_acked_count {inb N peer outb M local E A} n {c segs c'} _ _.
#[global] Arguments batch_receiver {inb N peer outb M local E A c segs c'} _.
#[global] Arguments batch_complete {inb N peer outb M local} HN HM {E A c segs c'} _ _ _ _ _.
#[global] Arguments batch_queue {inb N peer outb M local} HN Hpeer HM Hlocal {E A c segs c'} _.
#[global] Arguments batch_window {inb N peer outb M local E A} W {c segs c'} _ _ _.
#[global] Arguments batch_last {inb N peer outb M local} HN HM {E A c segs c'} seg _ _ _.
#[global] Arguments batch_time {inb N peer outb M local E A c segs c'} _ _.
#[global] Arguments batch_silent {inb N peer outb M local} HN HM {E A c segs c'} _ _ _ _.
#[global] Arguments chain_nil {outb M local k l} _.

End Reaction.
