(* ===== verification/tcp_completion.v ===== *)
(** * Two connections complete

    [tcp_link] shows that two [TCPConnection]s never deliver anything wrong; this file shows that they get there.
    The network is that of the benchmark (src/lab/apps/tcp_benchmark.cc): every segment arrives in the round after it was
    sent, in order or with the segments of a round reversed.  From the simultaneous SYNs to the clean close of both
    sides, no segment is refused, no timer gives up, and the number of rounds is bounded by the length of the data. *)

From S2P Require Import Prelude wrapping_integers byte_stream stream_reassembler buffer stream_pump.
From S2P Require Import tcp_header tcp_segment tcp_config tcp_receiver tcp_sender tcp_connection tcp_link tcp_progress tcp_benchmark tcp_reaction.

Module Completion.
Import Reaction.

Section Rounds.
Context (config : TCPConfig.t) (random_x random_y : Z) (data : bytes).
Context (Hcfg : Benchmark.config_ok config data) (Hsend : 0 < TCPConfig.send_capacity config).

Abbreviation size seg := (TCPSegment.length_in_sequence_space seg) (only parsing).
Abbreviation next c := (TCPSender._next_seqno (TCPConnection._sender c)) (only parsing).
Abbreviation outs c := (Timer._outstandings (TCPSender._timer (TCPConnection._sender c))) (only parsing).
Abbreviation rcv c := (TCPConnection._receiver c) (only parsing).
Abbreviation ack c := (TCPReceiver._ackno (TCPConnection._receiver c)) (only parsing).
Abbreviation count c := (TCPSender.consecutive_retransmissions (TCPConnection._sender c)) (only parsing).
Abbreviation queue c := (TCPConnection._segments_out c) (only parsing).
Abbreviation time c := (TCPConnection._linger_time c) (only parsing).
Abbreviation full c := (TCPSender.fill_cond (TCPConnection._sender c) (TCPSender.window_end (TCPConnection._sender c)) = false) (only parsing).

(** The stream of [x] is the data; that of [y] is empty. *)
Abbreviation L := (len data).
Abbreviation letter := (Benchmark.letter data).
Abbreviation zero := (λ _ : Z, x00).
Abbreviation ix := (Benchmark.isn_of config random_x).
Abbreviation iy := (Benchmark.isn_of config random_y).
Abbreviation cap := (TCPConfig.recv_capacity config).
Abbreviation inv_x := (TCPConnection.inv zero 0 iy letter L ix).
Abbreviation inv_y := (TCPConnection.inv letter L ix zero 0 iy).

(** The first round in which everything has arrived. *)
Definition last_round : Z := Z.max (L + 2) 3.

(** Both connections at any moment. *)
Record both (x y : TCPConnection.t) : Prop := {
  bo_inv_x : inv_x (ack y) x;
  bo_inv_y : inv_y (ack x) y;
  bo_ok : TCPConnection.failed x = false ∧ TCPConnection.failed y = false;
  bo_sound_x : sound zero 0 iy (rcv x);
  bo_sound_y : sound letter L ix (rcv y);
  bo_cap : TCPReceiver._capacity (rcv x) = cap ∧ TCPReceiver._capacity (rcv y) = cap;
  bo_cfg : TCPConnection._cfg x = config ∧ TCPConnection._cfg y = config;
  bo_next : 0 < next x ∧ 0 < next y;
  bo_complete : complete 0 (rcv x) ∧ complete L (rcv y);
  bo_silent : TCPSender.written (TCPConnection._sender y) = 0 ∧ ByteStream.input_ended (TCPConnection.outbound_stream y) = true }.

(** The room [y] offers: one number before it knows where the stream starts. *)
Definition room (y : TCPConnection.t) : Z := if TCPReceiver._syn_arrived (rcv y) then cap else 1.

(** Between two rounds, after [n] of them.  Everything [x] has sent and [y] does not have is on its way; [y] has sent its
    SYN before the first round, sends its FIN in the second and has nothing outstanding after the third. *)
Record state (n : Z) (x y : TCPConnection.t) : Prop := {
  st_both : both x y;
  st_read : StreamReassembler.consumed (TCPReceiver._reassembler (rcv y)) = StreamReassembler.next_idx (TCPReceiver._reassembler (rcv y));
  st_next : ack y <= next x <= ack y + room y;
  st_window : TCPSender._ackno (TCPConnection._sender x) = ack y ∧ TCPSender.window_end (TCPConnection._sender x) <= ack y + room y;
  st_full : full x;
  st_outs : TCPSender.chain letter L ix (ack y) (outs x) (next x);
  st_queue : Forall (queued iy letter L ix (ack y) (next x) (ack x) cap) (queue x) ∧ covers ix (queue x) (ack y) (next x);
  st_goal : Z.min n (L + 2) <= ack y;
  st_phase : ack x = Z.min n 2 ∧ next y = Z.max 1 (Z.min n 2) ∧
    TCPSender.chain zero 0 iy (Z.max 0 (Z.min (n - 1) 2)) (outs y) (next y);
  st_first : n = 0 → ack y = 0 ∧ Forall (λ seg, TCPHeader.ack (TCPSegment.header seg) = false) (queue x);
  st_acks : 1 <= n <= 2 → Exists (acking iy (ack x)) (queue x);
  st_back : Forall (queued ix zero 0 iy 0 (next y) (ack y) cap) (queue y) ∧ covers iy (queue y) (ack x) (next y) ∧
    (1 <= n → Forall (acking ix (ack y)) (queue y)) ∧ (3 <= n → queue y = []);
  st_count : 0 <= count x <= 1 ∧ 0 <= count y <= Z.min n 1;
  st_time : 0 <= time x <= 1000 * n ∧ 0 <= time y <= 1000 * n }.

Lemma params : 0 <= 0 < 2147483646 ∧ 0 <= L < 2147483646 ∧ WrappingInt32.valid ix ∧ WrappingInt32.valid iy ∧ 0 < cap < max_string.
Proof.
  destruct (Benchmark.peers_valid config random_x random_y data Hcfg) as [[? [_ ?] ? ? ?] [? [_ ?] ? ? ?]]. done.
Qed.

(** Bounds on the numbers. *)
Lemma both_bounds x y : both x y → 0 <= ack x <= 2 ∧ 0 <= ack y <= L + 2 ∧ 0 <= next x <= L + 2 ∧ 0 <= next y <= 2.
Proof.
  intros []. destruct params as (_ & HL & _ & _ & _).
  destruct (TCPReceiver.inv_bounds zero 0 iy ltac:(lia) _ (s_inv bo_sound_x0)) as (_ & Ha & _).
  destruct (TCPReceiver.inv_bounds letter L ix ltac:(lia) _ (s_inv bo_sound_y0)) as (_ & Hb & _).
  pose proof (TCPSender.next_bound letter L ix ltac:(lia) _ (inv_sender bo_inv_x0)).
  pose proof (TCPSender.next_bound zero 0 iy ltac:(lia) _ (inv_sender bo_inv_y0)).
  lia.
Qed.

(** A receiver has seen the SYN exactly when its acknowledgment number is not 0. *)
Lemma syn_ack stream N isn r : 0 <= N < 2147483646 → sound stream N isn r → TCPReceiver._syn_arrived r = negb (TCPReceiver._ackno r =? 0).
Proof.
  intros HN Hsd. pose proof (s_inv Hsd) as Hr. destruct (TCPReceiver.inv_bounds stream N isn ltac:(lia) _ Hr) as (Hn & _).
  pose proof (TCPReceiver.i_ack _ _ _ _ Hr) as Hi. destruct (TCPReceiver._syn_arrived r); simpl.
  - destruct Hi as [_ Hi]. pose proof (bool_to_Z_range (ByteStream.input_ended (TCPReceiver.stream_out r))). case_test; [lia | done].
  - destruct Hi as (-> & _). done.
Qed.

(** There is room for everything that is under way to [y]. *)
Lemma ready_y n x y : state n x y → ready letter L ix zero 0 iy (next x) (ack x) y.
Proof.
  intros Hst. pose proof (both_bounds x y (st_both _ _ _ Hst)) as (Hax & Hay & Hnx & Hny). destruct params as (_ & HL & _ & _ & Hcap).
  destruct Hst as [[] Hread Hnext _ _ _ _ _ (Hpx & Hpy & _) _ _ _ _ _].
  pose proof (s_inv bo_sound_y0) as Hr. pose proof (TCPReceiver.i_ack _ _ _ _ Hr) as Hi.
  pose proof (TCPReceiver.inv_bounds letter L ix ltac:(lia) _ Hr) as (Hn & _). unfold room in Hnext.
  constructor; [done | apply bo_ok0 | done | | | lia | lia].
  - rewrite Hread, (proj2 bo_cap0). destruct (TCPReceiver._syn_arrived (rcv y)).
    + destruct Hi as [_ Hi]. destruct (ByteStream.input_ended (TCPReceiver.stream_out (rcv y))) eqn:He; simpl in Hi; [|lia].
      destruct (StreamReassembler.inv_ended _ _ _ _ (TCPReceiver.i_store _ _ _ _ Hr) He) as [_ HN]. unfold StreamReassembler.next_idx in *. lia.
    + destruct Hi as (Hi & Hz & _). lia.
  - intros Hs. rewrite Hs in *. destruct Hi as (Hi & _). lia.
Qed.

(** After the segments of [x] have arrived, before those of [y] are delivered. *)
Record mid (n : Z) (x y : TCPConnection.t) : Prop := {
  m_both : both x y;
  m_ack : ack y = next x;
  m_goal : Z.min (n + 1) (L + 2) <= ack y;
  m_outs : ∃ a, TCPSender.chain letter L ix a (outs x) (next x);
  m_sent : queue x = [];
  m_phase : ack x = Z.min n 2 ∧ next y = Z.max 1 (Z.min (n + 1) 2) ∧
    TCPSender.chain zero 0 iy (Z.max 0 (Z.min n 2)) (outs y) (next y);
  m_back : Forall (queued ix zero 0 iy 0 (next y) (ack y) cap) (queue y) ∧ covers iy (queue y) (ack x) (next y);
  m_newest : (∃ seg, last (queue y) = Some seg ∧ acking ix (ack y) seg) ∨
    queue y = [] ∧ outs x = [] ∧ TCPSender._ackno (TCPConnection._sender x) = ack y ∧
    TCPSender.window_end (TCPConnection._sender x) <= ack y + cap ∧ full x;
  m_count : 0 <= count x <= 1 ∧ (count y = 0 ∨ outs y = [] ∧ 0 <= count y <= 1);
  m_time : 0 <= time x <= 1000 * n ∧ 0 <= time y <= 1000 * n }.

(** [y] sends its FIN once its SYN is acknowledged. *)
Lemma eof_sends s : TCPSender.inv zero 0 iy s → ByteStream.input_ended (TCPSender._stream s) = true →
  TCPSender.fill_cond s (TCPSender.window_end s) = false → TCPSender._next_seqno s < TCPSender.window_end s → TCPSender._next_seqno s = 2.
Proof.
  intros Hs He Hc Hlt. apply (Progress.fin_next zero 0 iy ltac:(lia) s Hs). unfold TCPSender.fill_cond in Hc.
  destruct (TCPSender._fin_sended s); [done|]. simpl in Hc. replace (TCPSender._next_seqno s <? _) with true in Hc by (symmetry; by apply Z.ltb_lt).
  unfold ByteStream.eof, ByteStream.buffer_empty in Hc. unfold ByteStream.input_ended in He. rewrite He in Hc. simpl in Hc.
  destruct (ByteStream._sz (TCPSender._stream s) =? 0); simpl in Hc; [|done]. by rewrite orb_true_r in Hc.
Qed.

(** The phases of [y] when a batch arrives. *)
Lemma deliver_phase n x y segs y' : state n x y → 0 <= n → (∀ s, s ∈ segs ↔ s ∈ queue x) →
  batch letter L ix zero 0 iy (next x) (ack x) y segs y' →
  next y' = Z.max 1 (Z.min (n + 1) 2) ∧ TCPSender.chain zero 0 iy (Z.max 0 (Z.min n 2)) (outs y') (next y') ∧
  (count y' = 0 ∨ outs y' = [] ∧ 0 <= count y' <= 1).
Proof.
  intros Hst Hn Hsegs Hb. destruct params as (H0 & HL & Hix & Hiy & Hcap). pose proof (ready_y n x y Hst) as Hrd.
  destruct Hst as [Hbo _ _ _ _ _ _ _ (Hpx & Hpy & Hpc) Hfirst Hacks _ [_ Hcnt] _].
  destruct (batch_ready HL H0 Hb) as [_ Hrd'].
  pose proof (TCPSender.next_bound zero 0 iy ltac:(lia) _ (inv_sender (rd_inv Hrd'))) as Hny'.
  pose proof (batch_kept Hb) as Hk. pose proof (k_next Hk) as Hkn.
  destruct (Z.eq_dec n 0) as [->|Hn0].
  { destruct (Hfirst eq_refl) as [_ Hno]. rewrite (batch_deaf Hb).
    - split; [exact Hpy|]. split; [exact Hpc|]. left. lia.
    - apply Forall_forall. intros s Hs%Hsegs. by apply (proj1 (Forall_forall _ _) Hno). }
  assert (1 <= n <= 2 → Exists (acking iy (next y)) segs) as Hex.
  { intros H12. replace (next y) with (ack x) by lia. destruct (proj1 (Exists_exists _ _) (Hacks H12)) as (s & Hin & Hs).
    apply Exists_exists. exists s. split; [by apply Hsegs | done]. }
  assert (next y' = Z.max 1 (Z.min (n + 1) 2)) as Hnext.
  { destruct (Z.eq_dec n 1) as [->|]; [|lia]. destruct (batch_moment HL H0 Hb (Hex ltac:(lia))) as (c1 & Hrd1 & Hk1 & Hn1 & Ha1 & Hf1).
    pose proof (inv_sender (rd_inv Hrd1)) as Hs1.
    pose proof (k_next Hk1). destruct (Z.eq_dec (next c1) 1) as [E1|]; [|lia].
    pose proof (eof_sends _ Hs1 (eq_trans (k_ended _ _ Hk1) (proj2 (bo_silent _ _ Hbo))) Hf1) as He.
    unfold TCPSender.window_end in He. lia. }
  split; [done|].
  destruct (batch_outs H0 (next y) Hb (rd_acked Hrd) (outs y) [])
    as (old & new & Eo & Hch & Hold & Hdone); [by rewrite app_nil_r | done | |].
  { apply Forall_forall. intros o Ho. apply (TCPSender.chain_ends _ _ _ _ _ _ _ Hpc Ho). }
  assert (old = []) as ->.
  { destruct (Z.le_gt_cases n 2); [apply Hdone, Hex; lia|]. replace (Z.max 0 (Z.min (n - 1) 2)) with (next y) in Hpc by lia.
    apply chain_nil in Hpc. rewrite Hpc in Hold. destruct old as [|o l]; [done|]. by apply Forall_cons in Hold as [?%elem_of_nil _]. }
  simpl in Eo. rewrite <- Eo in Hch. replace (next y) with (Z.max 0 (Z.min n 2)) in Hch by lia. split; [done|].
  destruct (Z.le_gt_cases n 2) as [H2|H2]; [left; eapply batch_acked_count; [done | apply Hex; lia]|].
  replace (next y') with (Z.max 0 (Z.min n 2)) in Hch by lia. apply chain_nil in Hch.
  destruct (batch_count Hb) as [?|[-> _]]; [by left | right; split; [done | lia]].
Qed.

(** What [both] needs of a new pair. *)
Lemma both_deliver_y n x y segs y' : state n x y → Forall (arriving letter L ix iy (next x) (ack x)) segs → covers ix segs (ack y) (next x) →
  batch letter L ix zero 0 iy (next x) (ack x) y segs y' → ack y' = next x ∧ both (TCPConnection.set_segments_out x []) y'.
Proof.
  intros Hst Harr Hcov Hb. destruct params as (H0 & HL & Hix & Hiy & Hcap). pose proof (st_both _ _ _ Hst) as Hbo.
  pose proof (both_bounds _ _ Hbo) as (_ & _ & Hnx & _). pose proof (st_next _ _ _ Hst) as Hnext.
  destruct (batch_ready HL H0 Hb) as [_ Hrd']. pose proof (batch_kept Hb) as [Hkw Hke _ _ Hkc _].
  destruct (batch_receiver Hb) as (Hrc & _ & _ & _).
  destruct Hbo as [Hix' Hiy' [Hfx Hfy] Hsx Hsy [Hcx Hcy] [Hgx Hgy] [Hnx0 Hny0] [Hox Hoy] [Hw He]].
  destruct (batch_complete HL H0 Hb Harr Hoy Hcov) as [Ha Hcomp]; [lia|]. split; [done|].
  constructor; cbn; try done.
  - apply (TCPConnection.inv_mono _ _ _ _ _ _ (ack y)); [lia|]. by apply TCPConnection.dequeue_inv.
  - apply (rd_inv Hrd').
  - split; [done | apply (rd_failed Hrd')].
  - apply (rd_sound Hrd').
  - split; [done | congruence].
  - split; [done | congruence].
  - split; [done | apply (rd_sent Hrd')].
  - split; congruence.
Qed.

(** The segments of [x] arrive at [y], in any order. *)
Lemma deliver_y n x y segs : state n x y → 0 <= n → (∀ s, s ∈ segs ↔ s ∈ queue x) → ack y < next x ∨ next x = L + 2 →
  ∃ y', Benchmark.receive_all y segs = Ok y' ∧ batch letter L ix zero 0 iy (next x) (ack x) y segs y' ∧
    mid n (TCPConnection.set_segments_out x []) y'.
Proof.
  intros Hst Hn Hsegs Hprog. destruct params as (H0 & HL & Hix & Hiy & Hcap).
  assert (Forall (arriving letter L ix iy (next x) (ack x)) segs) as Harr.
  { apply Forall_forall. intros s Hs%Hsegs. apply (q_arriving (proj1 (Forall_forall _ _) (proj1 (st_queue _ _ _ Hst)) s Hs)). }
  assert (covers ix segs (ack y) (next x)) as Hcov.
  { intros j Hj. destruct (proj2 (st_queue _ _ _ Hst) j Hj) as (s & Hin & Hs). exists s. split; [by apply Hsegs | done]. }
  destruct (receive_all_batch letter L ix zero 0 iy HL Hix H0 Hiy _ _ segs y (ready_y n x y Hst) Harr) as (y' & E & Hb).
  exists y'. split; [done|]. split; [done|].
  destruct (both_deliver_y n x y segs y' Hst Harr Hcov Hb) as [Ha Hbo'].
  destruct (deliver_phase n x y segs y' Hst Hn Hsegs Hb) as (Hny & Hoy & Hcy).
  destruct (batch_queue HL Hix H0 Hiy Hb) as (new & Eq & Hq & Hc & Hnew). destruct (batch_receiver Hb) as (Hrc & _ & Hmono & _).
  pose proof (st_both _ _ _ Hst) as Hbo. pose proof (both_bounds _ _ Hbo) as (_ & Hay & Hnx & _). pose proof (k_next (batch_kept Hb)) as Hkn.
  rewrite (proj2 (bo_cap _ _ Hbo')) in Hq.
  destruct Hst as [_ _ Hnext [Hak Hwin] Hfull Houts _ Hgoal Hph Hfirst _ (Hback & Hbc & Hback1 & _) [Hcx _] [Htx Hty]].
  constructor; cbn; try done.
  - lia.
  - by exists (ack y).
  - split; [apply Hph | done].
  - rewrite Eq. split; [|by eapply covers_join]. apply Forall_app. split; [eapply Forall_impl; [exact Hback|]; intros s; apply queued_mono; lia|].
    eapply Forall_impl; [exact Hq|]. intros s. apply queued_mono; lia.
  - rewrite Eq. destruct Hnew as [[-> Hsame]|(s & Hl & Hs)].
    + rewrite (syn_ack letter L ix) by (done || apply Hbo'). rewrite Ha. destruct (bo_next _ _ Hbo). case_test; [lia | done].
    + rewrite app_nil_r. destruct (Z.eq_dec n 0) as [->|Hn0]; [destruct (Hfirst eq_refl); destruct (bo_next _ _ Hbo); lia|].
      destruct (last (queue y)) as [s|] eqn:El.
      * left. exists s. split; [done|]. rewrite Hsame. apply last_Some_elem_of in El. by apply (proj1 (Forall_forall _ _) (Hback1 ltac:(lia))).
      * right. apply last_None in El. assert (next x = ack y) as Heq by lia. rewrite Heq in Houts. apply chain_nil in Houts.
        do 2 (split; [done|]). split; [lia|]. split; [|done]. assert (room y <= cap) by (unfold room; destruct (TCPReceiver._syn_arrived _); lia).
        change (TCPSender.window_end (TCPConnection._sender x) <= ack y' + cap). lia.
    + left. exists s. split; [apply last_app_Some; by left | done].
  - split; [done|]. destruct segs as [|seg segs]; [inversion Hb; subst; done|]. rewrite (batch_time Hb) by done. lia.
Qed.

(** ** The other direction *)

Lemma ready_x n x y : mid n x y → 0 <= n → ready zero 0 iy letter L ix (next y) (ack y) x.
Proof.
  intros [Hbo Ha _ _ _ (Hpx & Hpy & _) _ _ _ _] Hn. destruct params as (H0 & HL & _ & _ & Hcap).
  pose proof (syn_ack zero 0 iy (rcv x) H0 (bo_sound_x _ _ Hbo)) as Hsyn. pose proof (both_bounds _ _ Hbo) as (_ & _ & _ & Hny).
  destruct Hbo as [Hix' _ [Hfx _] Hsx _ [Hcx _] _ [Hnx0 _] _ _].
  destruct (TCPReceiver.i_store _ _ _ _ (s_inv Hsx)) as [[_ _ [Hcon _] _] _ _ _].
  constructor; [done | done | done | lia | | done | lia].
  rewrite Hsyn. intros Hz%negb_false_iff%Z.eqb_eq. lia.
Qed.

(** After both deliveries. *)
Record settled (n : Z) (x y : TCPConnection.t) : Prop := {
  se_both : both x y;
  se_next : ack y <= next x <= ack y + cap;
  se_window : TCPSender._ackno (TCPConnection._sender x) = ack y ∧ TCPSender.window_end (TCPConnection._sender x) <= ack y + cap;
  se_full : full x;
  se_outs : TCPSender.chain letter L ix (ack y) (outs x) (next x);
  se_queue : Forall (queued iy letter L ix (ack y) (next x) (ack x) cap) (queue x) ∧ covers ix (queue x) (ack y) (next x);
  se_goal : Z.min (n + 1) (L + 2) <= ack y;
  se_phase : ack x = Z.min (n + 1) 2 ∧ next y = Z.max 1 (Z.min (n + 1) 2) ∧
    TCPSender.chain zero 0 iy (Z.max 0 (Z.min n 2)) (outs y) (next y);
  se_acks : n <= 1 → Exists (acking iy (ack x)) (queue x);
  se_sent : queue y = [];
  se_count : (count x = 0 ∨ outs x = [] ∧ 0 <= count x <= 1) ∧ (count y = 0 ∨ outs y = [] ∧ 0 <= count y <= 1);
  se_time : 0 <= time x <= 1000 * n ∧ 0 <= time y <= 1000 * n }.

Lemma both_deliver_x n x y x' : mid n x y → 0 <= n → batch zero 0 iy letter L ix (next y) (ack y) x (queue y) x' →
  ack x' = next y ∧ both x' (TCPConnection.set_segments_out y []).
Proof.
  intros Hm Hn Hb. destruct params as (H0 & HL & Hix & Hiy & Hcap).
  pose proof (both_bounds _ _ (m_both _ _ _ Hm)) as (Hax & _ & _ & Hny).
  destruct (batch_ready H0 HL Hb) as [_ Hrd']. pose proof (batch_kept Hb) as [_ _ _ _ Hkc _].
  destruct (batch_receiver Hb) as (Hrc & _ & _ & _).
  destruct Hm as [[Hix' Hiy' [Hfx Hfy] Hsx Hsy [Hcx Hcy] [Hgx Hgy] [Hnx0 Hny0] [Hox Hoy] [Hw He]] Ha _ _ _ (Hpx & Hpy & _) [Hback Hcov] _ _ _].
  assert (Forall (arriving zero 0 iy ix (next y) (ack y)) (queue y)) as Harr by (eapply Forall_impl; [exact Hback|]; intros s Hs;
    apply (q_arriving Hs)).
  destruct (batch_complete H0 HL Hb Harr Hox Hcov) as [Ha' Hcomp]; [lia|]. split; [done|].
  constructor; cbn; try done.
  - apply (rd_inv Hrd').
  - apply (TCPConnection.inv_mono _ _ _ _ _ _ (ack x)); [lia|]. by apply TCPConnection.dequeue_inv.
  - split; [apply (rd_failed Hrd') | done].
  - apply (rd_sound Hrd').
  - split; [congruence | done].
  - split; [congruence | done].
  - split; [apply (rd_sent Hrd') | done].
Qed.

Lemma deliver_x n x y : mid n x y → 0 <= n →
  ∃ x', Benchmark.receive_all x (queue y) = Ok x' ∧ batch zero 0 iy letter L ix (next y) (ack y) x (queue y) x' ∧
    settled n x' (TCPConnection.set_segments_out y []).
Proof.
  intros Hm Hn. destruct params as (H0 & HL & Hix & Hiy & Hcap).
  assert (Forall (arriving zero 0 iy ix (next y) (ack y)) (queue y)) as Harr
    by (eapply Forall_impl; [exact (proj1 (m_back _ _ _ Hm))|]; intros s Hs; apply (q_arriving Hs)).
  destruct (receive_all_batch zero 0 iy letter L ix H0 Hiy HL Hix _ _ (queue y) x (ready_x n x y Hm Hn) Harr) as (x' & E & Hb).
  exists x'. split; [done|]. split; [done|]. destruct (both_deliver_x n x y x' Hm Hn Hb) as [Ha' Hbo'].
  destruct (batch_queue H0 Hiy HL Hix Hb) as (new & Eq & Hq & Hc & Hnew). rewrite (proj1 (bo_cap _ _ Hbo')) in Hq.
  pose proof (k_next (batch_kept Hb)) as Hkn.
  assert (Forall (λ seg, TCPHeader.ack (TCPSegment.header seg) = true → TCPHeader.win (TCPSegment.header seg) <= cap) (queue y)) as Hwins
    by (eapply Forall_impl; [exact (proj1 (m_back _ _ _ Hm))|]; intros s Hs; apply Hs).
  destruct Hm as [Hbo Ha Hgoal (a & Houts) Hsent (Hpx & Hpy & Hpc) _ Hnewest [Hcx Hcy] [Htx Hty]]. rewrite Hsent, app_nil_l in Eq. subst new.
  assert (newest iy (ack x) (ack x') (queue x')) as Hnx.
  { apply Hnew. rewrite (syn_ack zero 0 iy) by (done || apply Hbo'). rewrite Ha'. case_test; [lia | done]. }
  assert (n <= 1 → Exists (acking iy (ack x')) (queue x')) as Hacks.
  { intros Hn1. destruct Hnx as [[_ Heq]|(s & Hl & Hs)]; [lia|]. apply Exists_exists. exists s. split; [by apply last_Some_elem_of | done]. }
  assert (time x' = 0 ∨ time x' = time x) as Htime by (destruct (queue y); [right; by inversion Hb | left; by apply (batch_time Hb)]).
  destruct Hnewest as [(seg & Hl & Hack)|(Hnil & Hox & Hak & Hwe & Hfull)].
  - destruct (batch_last H0 HL seg Hb Hl (proj1 Hack)) as (Hak & Hw & Hfull).
    pose proof (batch_window cap Hb ltac:(lia) Hwins) as Hmax.
    assert (Exists (acking ix (next x)) (queue y)) as Hex by (apply Exists_exists; exists seg; split;
      [by apply last_Some_elem_of | by rewrite <- Ha]).
    destruct (batch_outs HL (next x) Hb ltac:(lia) (outs x) [] ltac:(by rewrite app_nil_r) ltac:(done)) as (old & new & Eo & Hch & _ & Hold).
    { apply Forall_forall. intros o Ho. apply (TCPSender.chain_ends _ _ _ _ _ _ _ Houts Ho). }
    rewrite (Hold Hex), app_nil_l in Eo. rewrite <- Eo, <- Ha in Hch.
    constructor; cbn; rewrite <- ?Ha in *; try done; try lia.
    + split; [by rewrite Hak, (proj2 Hack)|]. unfold TCPSender.window_end. rewrite Hak, Hw, (proj2 Hack).
      pose proof (proj1 (Forall_forall _ _) Hwins seg (last_Some_elem_of _ _ Hl) (proj1 Hack)) as Hle. simpl in Hle. lia.
    + split; [lia | done].
    + split; [left; by apply (batch_acked_count _ Hb Hex) | done].
  - rewrite Hnil in Hb. inversion Hb; subst x'. rewrite Hox in *. simpl in Houts. 
    constructor; cbn; rewrite <- ?Ha in *; try done; try lia; [by rewrite Hox | split; [lia | done] | split; [by right | done]].
Qed.

(** ** The application of [y] reads, and time passes *)

Lemma settled_receiver n x y r : settled n x y → inv_y (ack x) (TCPConnection.set_receiver y r) → sound letter L ix r →
  TCPReceiver._capacity r = TCPReceiver._capacity (rcv y) → TCPReceiver._ackno r = ack y → (∀ j, has L r j ↔ has L (rcv y) j) →
  settled n x (TCPConnection.set_receiver y r).
Proof.
  intros [[Hix' Hiy' Hf Hsx Hsy [Hcx Hcy] Hg Hn [Hox Hoy] Hs] ? ? ? ? ? ? ? ? ? ? ?] Hi Hsd Hc Ha Hh.
  constructor; cbn; rewrite ?Ha; try done. constructor; cbn; rewrite ?Ha; try done.
  - split; [done | congruence].
  - split; [done|]. intros j Hj Hj'. rewrite Ha. apply Hoy; [done | by apply Hh].
Qed.

Lemma read_y n x y received : settled n x y →
  ∃ y' received', (if 0 <? ByteStream.buffer_size (TCPConnection.inbound_stream y)
     then '(y, b) ← TCPConnection.read y (ByteStream.buffer_size (TCPConnection.inbound_stream y)); Ok (y, received ++ b)
     else Ok (y, received)) = Ok (y', received') ∧ settled n x y' ∧
    StreamReassembler.consumed (TCPReceiver._reassembler (rcv y')) = StreamReassembler.next_idx (TCPReceiver._reassembler (rcv y')) ∧
    TCPConnection._sender y' = TCPConnection._sender y ∧ time y' = time y ∧ TCPConnection._active y' = TCPConnection._active y.
Proof.
  intros Hst. pose proof (se_both _ _ _ Hst) as Hbo. destruct (Z.ltb_spec 0 (ByteStream.buffer_size (TCPConnection.inbound_stream y))) as [Hlt|Hge].
  - destruct (reaction_read_all _ _ _ _ _ _ _ _ (bo_inv_y _ _ Hbo) (bo_sound_y _ _ Hbo)) as (r & b & -> & Hi & Hsd & Hc & Ha & _ & Hcon & Hh).
    rewrite result_bind_ok. eexists _, _. split; [done|]. split; [by apply settled_receiver | done].
  - exists y, received. split; [done|]. split; [done|]. split; [|done].
    destruct (TCPReceiver.i_store _ _ _ _ (s_inv (bo_sound_y _ _ Hbo))) as [[Hout _ _ _] _ _ _]. pose proof (ByteStream.wf_sz _ Hout).
    unfold StreamReassembler.consumed, StreamReassembler.next_idx.
    change (ByteStream._sz (StreamReassembler._output (TCPReceiver._reassembler (rcv y)))) with (ByteStream.buffer_size (TCPConnection.inbound_stream y)) in *. lia.
Qed.

(** A segment sent again carries the newest acknowledgment. *)
Lemma again_queued inb N peer outb M local c k again : 0 <= N < 2147483646 → 0 <= M < 2147483646 →
  WrappingInt32.valid peer → WrappingInt32.valid local → sound inb N peer (rcv c) → 0 < ack c →
  TCPSender.chain outb M local k (outs c) (next c) → (again = [] ∨ ∃ seg e l, outs c = (seg, e) :: l ∧ again = [seg]) →
  Forall (queued peer outb M local k (next c) (ack c) (TCPReceiver._capacity (rcv c))) (TCPConnection.stamp (rcv c) <$> again) ∧
  Forall (acking peer (ack c)) (TCPConnection.stamp (rcv c) <$> again).
Proof.
  intros HN HM Hp Hl Hsd Ha Hch [->|(seg & e & l & Eo & ->)]; [split; constructor|]. rewrite Eo in Hch. simpl in Hch.
  destruct Hch as (Hat & -> & Hlt & (_ & Hack & Hrst) & Hle%TCPSender.chain_le).
  destruct (stamp_queued inb N peer outb M local HN Hp HM Hl (rcv c) k seg (s_inv Hsd) Hat Hrst Hack) as (_ & _ & Hq & Hk).
  split; (constructor; [|constructor]).
  - eapply queued_mono; [| | |exact Hq]; lia.
  - apply Hk. rewrite (syn_ack inb N peer) by done. case_test; [lia | done].
Qed.

(** The clock moves on one round. *)
Lemma settled_ticks n x y : settled n x y → 0 <= n → 1000 * (n + 1) < two64 →
  StreamReassembler.consumed (TCPReceiver._reassembler (rcv y)) = StreamReassembler.next_idx (TCPReceiver._reassembler (rcv y)) →
  ∃ x' y', TCPConnection.tick x 1000 = Ok x' ∧ TCPConnection.tick y 1000 = Ok y' ∧ ticked 1000 x x' ∧ ticked 1000 y y' ∧ state (n + 1) x' y'.
Proof.
  intros [Hbo Hnext [Hak Hwe] Hfull Houts [Hq Hcov] Hgoal (Hpx & Hpy & Hpc) Hacks Hsent [Hcx Hcy] [Htx Hty]] Hn Hbig Hread.
  destruct params as (H0 & HL & Hix & Hiy & Hcap). pose proof (both_bounds _ _ Hbo) as (Hax & Hay & Hnx & Hny).
  destruct Hbo as [Hix' Hiy' [Hfx Hfy] Hsx Hsy [Hrx Hry] [Hgx Hgy] Hnn Hcomp [Hw He]].
  destruct (tick_ticked zero 0 iy letter L ix H0 HL _ x 1000 Hix' Hfx) as (x' & Ex & Hix2 & Hfx2 & Htix); [lia..|].
  destruct (tick_ticked letter L ix zero 0 iy HL H0 _ y 1000 Hiy' Hfy) as (y' & Ey & Hiy2 & Hfy2 & Htiy); [lia..|].
  exists x', y'. do 4 (split; [done|]).
  pose proof (TCPConnection.written_connection_tick _ _ _ Ey) as Hwy.
  destruct Htix as [Rx (Sx & Nx & Ox & Kx & Wx & Fx) (ax & Qx & Ax) [Cx Cx'] Gx Tx _ _].
  destruct Htiy as [Ry (Sy & Ny & Oy & Ky & Wy & Fy) (ay & Qy & Ay) [Cy Cy'] Gy Ty _ _].
  destruct (again_queued zero 0 iy letter L ix x _ ax H0 HL Hiy Hix Hsx ltac:(lia) Houts Ax) as [Hax1 Hax2].
  destruct (again_queued letter L ix zero 0 iy y _ ay HL H0 Hix Hiy Hsy ltac:(lia) Hpc Ay) as [Hay1 Hay2]. rewrite Hrx in Hax1. rewrite Hry in Hay1.
  assert (both x' y') as Hbo'.
  { constructor; rewrite ?Rx, ?Ry, ?Nx, ?Ny, ?Gx, ?Gy, ?Hwy; try done. split; [done|].
  unfold TCPConnection.outbound_stream, TCPSender.stream_in. by rewrite Sy. }
  assert (room y' = cap) as Hroom by (unfold room; rewrite Ry, (syn_ack letter L ix) by done; case_test; [lia | done]).
  constructor; rewrite ?Hroom, ?Rx, ?Ry, ?Nx, ?Ny, ?Ox, ?Oy, ?Kx, ?Tx, ?Ty; try done; try lia.
  - unfold TCPSender.window_end in *. by rewrite Kx, Wx.
  - unfold TCPSender.fill_cond, TCPSender.window_end in *. by rewrite Nx, Sx, Kx, Wx, Fx.
  - rewrite Qx. split; [by apply Forall_app|]. by apply covers_app_l.
  - split; [done|]. split; [done|]. by replace (n + 1 - 1) with n by lia.
  - intros Hn1. rewrite Qx. apply Exists_app. left. apply Hacks. lia.
  - rewrite Qy, Hsent, app_nil_l. split; [eapply Forall_impl; [exact Hay1|]; intros s; apply queued_mono; lia|].
    split; [intros j Hj; lia|]. split; [done|]. intros Hn3.
    replace (Z.max 0 (Z.min n 2)) with (next y) in Hpc by lia. apply chain_nil in Hpc. rewrite Hpc in Ay.
    destruct Ay as [->|(? & ? & ? & ? & _)]; done.
  - split; [destruct Hcx as [Hz|[Hz ?]]; [lia | rewrite (Cx' Hz); lia]|]. destruct Hcy as [Hz|[Hz ?]]; [lia | rewrite (Cy' Hz); lia].
Qed.

(** ** The application of [x] writes *)

Lemma stamp_unsynced r seg : TCPReceiver._syn_arrived r = false → TCPConnection.stamp r seg = seg.
Proof. intros E. unfold TCPConnection.stamp, TCPReceiver.ackno. by rewrite E. Qed.

Lemma state_fed n x y x' : state n x y → 0 <= n → inv_x (ack y) x' → TCPConnection.failed x' = false → fed letter L ix x x' → state n x' y.
Proof.
  intros [Hbo Hread Hnext [Hak Hwe] Hfull Houts [Hq Hcov] Hgoal Hph Hfirst Hacks Hback Hcnt Htime] Hn Hi Hf
    [Fr (added & Fq & Fo & Fc) Fa Fw Fk Fn Ff _ Fg Ft _].
  destruct params as (H0 & HL & Hix & Hiy & Hcap). pose proof (TCPSender.chain_le _ _ _ _ _ _ Fc) as Hle.
  pose proof (syn_ack zero 0 iy (rcv x) H0 (bo_sound_x _ _ Hbo)) as Hsyn.
  destruct (stamp_chain zero 0 iy letter L ix H0 Hiy HL Hix (rcv x) added _ _ (s_inv (bo_sound_x _ _ Hbo)) Fc) as [Hqa Hca].
  destruct Hbo as [_ Hiy' [Hfx Hfy] Hsx Hsy [Hrx Hry] [Hgx Hgy] [Hnx Hny] Hcomp Hsil]. rewrite Hrx in Hqa.
  constructor; rewrite ?Fr, ?Fa, ?Fo, ?Fk, ?Ft; try done; try lia.
  - constructor; rewrite ?Fr, ?Fg; try done. split; [lia | done].
  - unfold TCPSender.window_end in *. by rewrite Fa, Fw.
  - by apply Ff.
  - apply TCPSender.chain_app; [lia | by exists (next x)].
  - rewrite Fq. split; [|by eapply covers_join]. apply Forall_app.
    split; (eapply Forall_impl; [eassumption|]; intros s; apply queued_mono; lia).
  - intros Hz. destruct (Hfirst Hz) as [Hay Hno]. split; [done|]. rewrite Fq. apply Forall_app. split; [done|].
    apply TCPSender.chain_good in Fc. apply Forall_fmap. eapply Forall_impl; [exact Fc|]. intros s [_ (_ & Hs & _)].
    cbn. rewrite stamp_unsynced; [done|]. rewrite Hsyn. destruct Hph as (-> & _). by rewrite Hz.
  - intros H12. rewrite Fq. apply Exists_app. left. by apply Hacks.
Qed.

(** What is left to write. *)
Record feeding (x : TCPConnection.t) (b : Buffer.t) (closed : bool) : Prop := {
  fd_rest : Buffer.str b = zdrop (TCPSender.written (TCPConnection._sender x)) data;
  fd_written : 0 <= TCPSender.written (TCPConnection._sender x) <= L;
  fd_buffer : Buffer.wf b;
  fd_closed : closed = ByteStream.input_ended (TCPConnection.outbound_stream x);
  fd_cap : ByteStream._capacity (TCPConnection.outbound_stream x) = TCPConfig.send_capacity config }.

Lemma write_state n y closed fuel : ∀ x b, state n x y → 0 <= n → feeding x b closed → Buffer.size b <= Z.of_nat fuel →
  ∃ x' b', Benchmark.write_input fuel x b = Ok (x', b') ∧ state n x' y ∧ feeding x' b' closed ∧ fed letter L ix x x' ∧
    (Buffer.size b' = 0 ∨ TCPConnection.remaining_outbound_capacity x' = 0).
Proof.
  destruct params as (H0 & HL & Hix & Hiy & Hcap).
  induction fuel as [|fuel IH]; intros x b Hst Hn Hfd Hfuel; simpl Benchmark.write_input;
    assert (0 <= Buffer.size b) as Hz by apply len_nonneg.
  { replace (Buffer.size b =? 0) with true by (case_test; lia). exists x, b. do 3 (split; [done|]). split; [apply fed_refl | left; lia]. }
  destruct (Z.eqb_spec (Buffer.size b) 0); [exists x, b; do 3 (split; [done|]); split; [apply fed_refl | by left]|].
  destruct (Z.eqb_spec (TCPConnection.remaining_outbound_capacity x) 0); [exists x, b; do 3 (split; [done|]); split;
    [apply fed_refl | by right]|]. simpl.
  pose proof (st_both _ _ _ Hst) as Hbo. destruct Hfd as [Hrest Hwr Hwf Hcl Hc].
  destruct (Pump.remaining_capacity_wf (TCPConnection.outbound_stream x)) as [_ Hrc].
  { exact (TCPSender.i_stream _ _ _ _ (inv_sender (bo_inv_x _ _ Hbo))). }
  fold (TCPConnection.remaining_outbound_capacity x) in Hrc. unfold Buffer.size in *.
  assert (len (Buffer.str b) = L - TCPSender.written (TCPConnection._sender x)) as Hlen by (rewrite Hrest, len_zdrop by lia; lia).
  set (want := Z.min _ _). assert (0 < want <= len (Buffer.str b)) as Hwant by (unfold want; lia).
  destruct (write_fed zero 0 iy letter L ix H0 HL _ x want (bo_inv_x _ _ Hbo) (proj1 (bo_ok _ _ Hbo))) as (x1 & E & Hi1 & Hf1 & Hfed & Hw1 & He1); [unfold want in *; lia..|].
  rewrite Benchmark.letter_slice, <- Hrest in E by lia. rewrite E, result_bind_ok, Z.eqb_refl. simpl.
  destruct (Buffer.remove_prefix_ok b want Hwf) as (b1 & -> & Hb1 & Hs1); [unfold Buffer.size; lia|]. rewrite result_bind_ok.
  destruct (IH x1 b1) as (x2 & b2 & E2 & Hst2 & Hfd2 & Hfed2 & Hend); [by apply (state_fed n x) | done | | |].
  - constructor; [|lia | done | congruence | by rewrite (f_cap _ _ _ _ _ Hfed)]. rewrite Hs1, Hrest, Hw1, zdrop_zdrop by lia. done.
  - rewrite Hs1, len_zdrop by lia. lia.
  - exists x2, b2. split; [done|]. split; [done|]. split; [done|]. split; [eapply fed_trans; eassumption | done].
Qed.

(** Then it closes, if nothing is left; so [x] has something under way unless it has sent everything. *)
Lemma close_state n x y b closed : state n x y → 0 <= n → feeding x b closed →
  (Buffer.size b = 0 ∨ TCPConnection.remaining_outbound_capacity x = 0) →
  ∃ x' closed', (if (Buffer.size b =? 0) && negb closed then x ← TCPConnection.end_input_stream x;
    Ok (x, true) else Ok (x, closed)) = Ok (x', closed') ∧
    state n x' y ∧ feeding x' b closed' ∧ fed letter L ix x x' ∧ (ack y < next x' ∨ next x' = L + 2).
Proof.
  intros Hst Hn Hfd Hend. destruct params as (H0 & HL & Hix & Hiy & Hcap).
  assert (∃ x' closed', (if (Buffer.size b =? 0) && negb closed then x ← TCPConnection.end_input_stream x;
    Ok (x, true) else Ok (x, closed)) = Ok (x', closed') ∧
    state n x' y ∧ feeding x' b closed' ∧ fed letter L ix x x' ∧ (closed' = true ∨ TCPConnection.remaining_outbound_capacity x' = 0))
    as (x' & closed' & E & Hst' & Hfd' & Hfed & Hend').
  { destruct (Z.eqb_spec (Buffer.size b) 0) as [Hz|Hz].
    2:{ exists x, closed. do 3 (split; [done|]). split; [apply fed_refl | right; by destruct Hend]. }
    destruct closed; simpl; [exists x, true; do 3 (split; [done|]); split; [apply fed_refl | by left]|].
    destruct Hfd as [Hrest Hwr Hwf Hcl Hc]. pose proof (st_both _ _ _ Hst) as Hbo.
    assert (TCPSender.written (TCPConnection._sender x) = L) as Hall.
    { unfold Buffer.size in Hz. rewrite Hrest, len_zdrop in Hz by lia. lia. }
    destruct (end_fed zero 0 iy letter L ix H0 HL _ x (bo_inv_x _ _ Hbo) (proj1 (bo_ok _ _ Hbo)) Hall) as (x1 & -> & Hi1 & Hf1 & Hfed & Hw1 & He1 & _).
    rewrite result_bind_ok. exists x1, true. split; [done|]. split; [by apply (state_fed n x)|]. split; [|by split; [|left]].
    constructor; [by rewrite Hw1 | lia | done | done | by rewrite (f_cap _ _ _ _ _ Hfed)]. }
  exists x', closed'. do 4 (split; [done|]). pose proof (st_next _ _ _ Hst') as Hnx.
  destruct (Z.eq_dec (next x') (ack y)) as [Heq|]; [right | left; lia]. destruct (st_window _ _ _ Hst') as [Hak _].
  pose proof (st_full _ _ _ Hst') as Hfull. pose proof (st_both _ _ _ Hst') as Hbo.
  pose proof (inv_sender (bo_inv_x _ _ Hbo)) as Hs.
  apply (Progress.fin_next letter L ix ltac:(lia) _ Hs). unfold TCPSender.fill_cond in Hfull.
  destruct (TCPSender._fin_sended _); [done|]. simpl in Hfull.
  replace (next x' <? _) with true in Hfull by (symmetry; apply Z.ltb_lt; unfold TCPSender.window_end; lia).
  unfold ByteStream.eof, ByteStream.buffer_empty in Hfull. destruct Hfd' as [_ _ _ Hcl Hc]. simpl in Hfull.
  destruct (Z.eqb_spec (ByteStream._sz (TCPSender._stream (TCPConnection._sender x'))) 0) as [Hz|Hz]; [|done]. simpl in Hfull.
  destruct Hend' as [->|Hr].
  - unfold ByteStream.input_ended, TCPConnection.outbound_stream, TCPSender.stream_in in Hcl. rewrite <- Hcl in Hfull. by rewrite orb_true_r in Hfull.
  - destruct (Pump.remaining_capacity_wf _ (TCPSender.i_stream _ _ _ _ Hs)) as [Hrc _].
    unfold TCPConnection.remaining_outbound_capacity, TCPConnection.outbound_stream, TCPSender.stream_in in *. lia.
Qed.

(** ** The end *)

Abbreviation rt := (TCPConfig.rt_timeout config).

(** Nothing is under way any more: only time passes. *)
Record quiet (n : Z) (x y : TCPConnection.t) : Prop := {
  qt_queue : last_round + 1 <= n → queue x = [];
  qt_time : 1000 * (n - last_round - 1) <= time x ∧ 1000 * (n - last_round - 1) <= time y;
  qt_active : last_round + 1 < n → 10 * rt <= 1000 * (n - last_round - 1) → TCPConnection._active x = false ∧ TCPConnection._active y = false }.

(** A sender that has used all its numbers is at the end of its stream. *)
Lemma sent_eof inb N peer outb M local A c : 0 <= M < 2147483646 → TCPConnection.inv inb N peer outb M local A c → next c = M + 2 →
  ByteStream.eof (TCPConnection.outbound_stream c) = true.
Proof.
  intros HM Hi Hn. pose proof (inv_sender Hi) as Hs.
  apply (Progress.fin_next outb M local HM _ Hs) in Hn. apply (TCPSender.i_fin _ _ _ _ Hs Hn).
Qed.

(** A receiver that has everything, and whose application has read everything, is at the end of its stream. *)
Lemma received_eof stream N isn c : 0 <= N < 2147483646 → sound stream N isn (rcv c) → ack c = N + 2 →
  N <= StreamReassembler.consumed (TCPReceiver._reassembler (rcv c)) → ByteStream.eof (TCPConnection.inbound_stream c) = true.
Proof.
  intros HN Hsd Ha Hcon. destruct (Progress.ack_end stream N isn HN (rcv c) (s_inv Hsd) Ha) as [Hn He].
  destruct (TCPReceiver.i_store _ _ _ _ (s_inv Hsd)) as [[Hout _ _ _] _ _ _]. pose proof (ByteStream.wf_sz _ Hout).
  unfold ByteStream.eof. change (TCPConnection.inbound_stream c) with (TCPReceiver.stream_out (rcv c)). unfold ByteStream.input_ended in He.
  rewrite He.
  apply Z.eqb_eq. change (ByteStream._sz (StreamReassembler._output (TCPReceiver._reassembler (rcv c))) = 0).
  unfold StreamReassembler.consumed, StreamReassembler.next_idx in *. lia.
Qed.

Lemma settled_done n x y : settled n x y → last_round <= n →
  StreamReassembler.consumed (TCPReceiver._reassembler (rcv y)) = StreamReassembler.next_idx (TCPReceiver._reassembler (rcv y)) →
  (ByteStream.eof (TCPConnection.inbound_stream x) = true ∧ ByteStream.eof (TCPConnection.outbound_stream x) = true ∧ outs x = []) ∧
  ByteStream.eof (TCPConnection.inbound_stream y) = true ∧ ByteStream.eof (TCPConnection.outbound_stream y) = true ∧ outs y = [].
Proof.
  intros [Hbo Hnext _ _ Houts _ Hgoal (Hpx & Hpy & Hpc) _ _ _ _] Hn Hread. destruct params as (H0 & HL & Hix & Hiy & Hcap).
  pose proof (both_bounds _ _ Hbo) as (Hax & Hay & Hnx & Hny). unfold last_round in Hn.
  destruct Hbo as [Hix' Hiy' _ Hsx Hsy _ _ _ _ _]. assert (ack y = L + 2) as Ea by lia. assert (next x = L + 2) as En by lia.
  destruct (Progress.ack_end letter L ix HL (rcv y) (s_inv Hsy) Ea) as [Hidx _].
  destruct (TCPReceiver.i_store _ _ _ _ (s_inv Hsx)) as [[_ _ [Hcx _] _] _ _ _].
  rewrite Ea, En in Houts. replace (next y) with (Z.max 0 (Z.min n 2)) in Hpc by lia.
  split; (split; [|split; [|by eapply chain_nil]]).
  - eapply received_eof; [exact H0 | done | lia | done].
  - by eapply sent_eof.
  - eapply received_eof; [exact HL | done | done | lia].
  - eapply sent_eof; [exact H0 | done | lia].
Qed.

(** From the last round on, nothing is said. *)
Lemma done_silent n x y segs y' : state n x y → last_round <= n → (∀ s, s ∈ segs ↔ s ∈ queue x) →
  batch letter L ix zero 0 iy (next x) (ack x) y segs y' → queue y' = [].
Proof.
  intros [Hbo _ Hnext _ _ _ [Hq _] Hgoal (Hpx & Hpy & _) _ _ (_ & _ & _ & Hback) _ _] Hn Hsegs Hb. destruct params as (H0 & HL & Hix & Hiy & Hcap).
  pose proof (both_bounds _ _ Hbo) as (Hax & Hay & Hnx & Hny). unfold last_round in Hn.
  rewrite (batch_silent HL H0 Hb); [apply Hback; lia | lia | lia|].
  apply Forall_forall. intros s Hs%Hsegs. destruct (proj1 (Forall_forall _ _) Hq s Hs) as [Har Hlo _].
  pose proof (ar_end Har) as He. assert (0 <= size s) by apply uint64_range. lia.
Qed.

(** ** Rounds *)

Record at_round (n : Z) (s : Benchmark.t) : Prop := {
  ar_state : state n (Benchmark.x s) (Benchmark.y s);
  ar_feeding : feeding (Benchmark.x s) (Benchmark.bytes_to_send s) (Benchmark.x_closed s);
  ar_quiet : quiet n (Benchmark.x s) (Benchmark.y s) }.

Lemma feeding_kept x x' b closed : feeding x b closed →
  TCPSender.written (TCPConnection._sender x') = TCPSender.written (TCPConnection._sender x) →
  ByteStream.input_ended (TCPConnection.outbound_stream x') = ByteStream.input_ended (TCPConnection.outbound_stream x) →
  ByteStream._capacity (TCPConnection.outbound_stream x') = ByteStream._capacity (TCPConnection.outbound_stream x) → feeding x' b closed.
Proof. intros [] Hw He Hc. constructor; [by rewrite Hw | lia | done | congruence | congruence]. Qed.

Lemma quiet_fed n x y x' : state n x y → quiet n x y → state n x' y → fed letter L ix x x' → quiet n x' y.
Proof.
  intros Hst [Hq Ht Ha] Hst' [_ (added & Fq & _ & Fc) _ _ _ _ _ _ _ Ft Fa]. constructor; rewrite ?Ft, ?Fa; try done.
  intros Hn. rewrite Fq, (Hq Hn). unfold last_round in Hn.
  pose proof (both_bounds _ _ (st_both _ _ _ Hst)) as (_ & Hay & Hnx & _). pose proof (both_bounds _ _ (st_both _ _ _ Hst')) as (_ & _ & Hnx' & _).
  pose proof (st_goal _ _ _ Hst) as Hg. pose proof (st_next _ _ _ Hst) as H1. pose proof (st_next _ _ _ Hst') as H2.
  replace (next x') with (next x) in Fc by lia. by rewrite (chain_nil Fc).
Qed.

(** What a round does to the quiet part: [x0] and [y0] are the connections before the deliveries. *)
Lemma quiet_round n x0 y0 segs y1 x2 y3 x4 y4 : state n x0 y0 → quiet n x0 y0 → 0 <= n → (∀ s, s ∈ segs ↔ s ∈ queue x0) →
  batch letter L ix zero 0 iy (next x0) (ack x0) y0 segs y1 →
  batch zero 0 iy letter L ix (next y1) (ack y1) (TCPConnection.set_segments_out x0 []) (queue y1) x2 →
  settled n x2 y3 → StreamReassembler.consumed (TCPReceiver._reassembler (rcv y3)) = StreamReassembler.next_idx (TCPReceiver._reassembler (rcv y3)) →
  time y3 = time y1 → ticked 1000 x2 x4 → ticked 1000 y3 y4 → quiet (n + 1) x4 y4.
Proof.
  intros Hst [Hq Ht Ha] Hn Hsegs Hb1 Hb2 Hse Hread Hty [Rx _ (ax & Qx & Ax) _ _ Tx _ Clx] [Ry _ _ _ _ Ty _ Cly].
  pose proof (se_time _ _ _ Hse) as Htime.
  destruct (Z.lt_ge_cases n last_round) as [Hlt|Hge]; [constructor; rewrite ?Tx, ?Ty; lia|].
  destruct (settled_done n x2 y3 Hse Hge Hread) as ((Eix & Eox & Onx) & Eiy & Eoy & Ony).
  rewrite (done_silent n x0 y0 segs y1 Hst Hge Hsegs Hb1) in Hb2. inversion Hb2; subst x2. cbn in Htime, Tx, Clx, Qx.
  assert (1000 * (n - last_round - 1) <= time y3) as Hty3.
  { destruct (Z.eq_dec n last_round) as [->|]; [lia|]. rewrite Hty. assert (segs = []) as ->.
    { destruct segs as [|s l]; [done|]. assert (s ∈ queue x0) as Hin by (apply Hsegs; apply elem_of_cons; by left).
      rewrite Hq in Hin by lia. by apply elem_of_nil in Hin. }
    inversion Hb1; subst. lia. }
  pose proof (proj1 (bo_cfg _ _ (se_both _ _ _ Hse))) as Hgx. pose proof (proj2 (bo_cfg _ _ (se_both _ _ _ Hse))) as Hgy. cbn in Hgx.
  constructor; rewrite ?Tx, ?Ty; [|lia|].
  - intros _. rewrite Qx. rewrite Onx in Ax. destruct Ax as [->|(? & ? & ? & ? & _)]; done.
  - intros H1 H2. split; [apply Clx | apply Cly]; try done; rewrite ?Hgx, ?Hgy; lia.
Qed.

(** Both directions of a round. *)
Lemma exchange n x y reorder : state n x y → 0 <= n → ack y < next x ∨ next x = L + 2 →
  ∃ segs y1 x2, Benchmark.move_segments x y [] reorder = Ok (TCPConnection.set_segments_out x [], y1, []) ∧
    Benchmark.move_segments y1 (TCPConnection.set_segments_out x []) [] false = Ok (TCPConnection.set_segments_out y1 [], x2, []) ∧
    (∀ s, s ∈ segs ↔ s ∈ queue x) ∧ batch letter L ix zero 0 iy (next x) (ack x) y segs y1 ∧
    batch zero 0 iy letter L ix (next y1) (ack y1) (TCPConnection.set_segments_out x []) (queue y1) x2 ∧
    settled n x2 (TCPConnection.set_segments_out y1 []).
Proof.
  intros Hst Hn Hprog. set (segs := if reorder then reverse (queue x) else queue x).
  assert (∀ s, s ∈ segs ↔ s ∈ queue x) as Hsegs by (intros s; unfold segs; destruct reorder; [apply elem_of_reverse | done]).
  destruct (deliver_y n x y segs Hst Hn Hsegs Hprog) as (y1 & E1 & Hb1 & Hm).
  destruct (deliver_x n _ y1 Hm Hn) as (x2 & E2 & Hb2 & Hse). exists segs, y1, x2.
  unfold Benchmark.move_segments. rewrite !app_nil_l. unfold TCPConnection.segments_out at 1 2. fold segs. rewrite E1, result_bind_ok.
  split; [done|]. unfold TCPConnection.segments_out. rewrite E2. done.
Qed.

Lemma completion_round_spec n s reorder : at_round n s → 0 <= n → 1000 * (n + 1) < two64 →
  ∃ s', Benchmark.loop reorder s = Ok s' ∧ at_round (n + 1) s'.
Proof.
  intros [Hst Hfd Hqt] Hn Hbig. unfold Benchmark.loop.
  assert (0 <= Buffer.size (Benchmark.bytes_to_send s)) as Hsz by apply len_nonneg.
  destruct (write_state n (Benchmark.y s) _ (Z.to_nat (Buffer.size (Benchmark.bytes_to_send s))) _ _ Hst Hn Hfd) as (x1 & b1 & -> & Hst1 & Hfd1 & Hfed1 & Hend);
    [lia|]. rewrite result_bind_ok.
  destruct (close_state n x1 _ b1 _ Hst1 Hn Hfd1 Hend) as (x2 & closed & -> & Hst2 & Hfd2 & Hfed2 & Hprog). rewrite result_bind_ok.
  pose proof (quiet_fed n _ _ x2 Hst1 (quiet_fed n _ _ x1 Hst Hqt Hst1 Hfed1) Hst2 Hfed2) as Hqt2.
  destruct (exchange n x2 _ reorder Hst2 Hn Hprog) as (segs & y3 & x4 & -> & E4 & Hsegs & Hb3 & Hb4 & Hse). rewrite result_bind_ok.
  cbv beta iota. rewrite E4, result_bind_ok. cbv beta iota zeta.
  destruct (read_y n x4 _ (Benchmark.string_received s) Hse) as (y5 & got & -> & Hse5 & Hread & _ & Ht5 & _). rewrite result_bind_ok.
  destruct (settled_ticks n x4 y5 Hse5 Hn Hbig Hread) as (x6 & y6 & E6 & E7 & Htx & Hty & Hst6). rewrite E6, result_bind_ok, E7, result_bind_ok.
  eexists. split; [done|]. constructor; cbn; [done | |by eapply quiet_round].
  destruct (batch_kept Hb4) as [Kw Ke Kc _ _ _]. pose proof (TCPConnection.written_connection_tick _ _ _ E6) as Hw6.
  pose proof (proj1 (t_sender _ _ _ Htx)) as Hs6.
  apply (feeding_kept x2); [done | exact (eq_trans Hw6 Kw) | |]; unfold TCPConnection.outbound_stream, TCPSender.stream_in in *; rewrite Hs6;
    [exact Ke | exact Kc].
Qed.

(** The end of the two loops, by the number of rounds. *)
Lemma round_eof n s : at_round n s → L + 2 <= n → ByteStream.eof (TCPConnection.inbound_stream (Benchmark.y s)) = true.
Proof.
  intros [[Hbo Hread _ _ _ _ _ Hgoal _ _ _ _ _ _] _ _] Hn. destruct params as (H0 & HL & _). pose proof (both_bounds _ _ Hbo) as (_ & Hay & _).
  assert (ack (Benchmark.y s) = L + 2) as Ea by lia.
  destruct (Progress.ack_end letter L ix HL _ (s_inv (bo_sound_y _ _ Hbo)) Ea) as [Hidx _].
  eapply received_eof; [exact HL | apply Hbo | done | lia].
Qed.

Definition enough : Z := L + 6 + rt / 100.

Lemma round_inactive n s : at_round n s → enough <= n →
  TCPConnection._active (Benchmark.x s) = false ∧ TCPConnection._active (Benchmark.y s) = false.
Proof.
  intros [_ _ [_ _ Ha]] Hn. apply Ha; unfold last_round, enough in *; pose proof (len_nonneg data); pose proof (Benchmark.c_timeout _ _ Hcfg);
    Z.div_mod_to_equations; lia.
Qed.

(** ** The start *)

Lemma sound_new stream N isn : 0 <= N < 2147483646 → sound stream N isn (TCPReceiver.new cap) ∧ complete N (TCPReceiver.new cap).
Proof.
  intros HN. destruct params as (_ & _ & _ & _ & Hcap). split.
  - constructor; [apply TCPReceiver.receiver_inv_new; [lia | done] | |done]. by intros j (k & v & Hin%elem_of_nil & _).
  - intros j Hj. unfold has. cbn. case_test; [done|]. case_test; [done|]. intros [?|(k & v & Hin%elem_of_nil & _)]; [cbn in *; lia | done].
Qed.

(** A new connection has sent its SYN. *)
Lemma opened inb N peer outb M local random c' : 0 <= N < 2147483646 → 0 <= M < 2147483646 → WrappingInt32.valid peer → WrappingInt32.valid local →
  TCPConnection.inv inb N peer outb M local 0 c' → full c' → fed outb M local (TCPConnection.new config random) c' →
  next c' = 1 ∧ TCPSender.chain outb M local 0 (outs c') 1 ∧ Forall (queued peer outb M local 0 1 0 cap) (queue c') ∧ covers local (queue c') 0 1 ∧
  Forall (λ seg, TCPHeader.ack (TCPSegment.header seg) = false) (queue c').
Proof.
  intros HN HM Hp Hl Hi Hfull [Fr (added & Fq & Fo & Fc) Fa Fw _ Fn _ _ _ _ _]. destruct params as (_ & _ & _ & _ & Hcap).
  pose proof (inv_sender Hi) as Hs.
  pose proof (TCPSender.next_bound outb M local ltac:(lia) _ Hs) as Hb. change (next c' <= Z.max 0 1) in Fn.
  assert (next c' = 1) as Hnext.
  { destruct (Z.eq_dec (next c') 0) as [E0|]; [|lia]. pose proof (Progress.fin_next outb M local HM _ Hs) as Hfin.
    unfold TCPSender.fill_cond, TCPSender.window_end in Hfull. rewrite Fa, Fw, E0 in Hfull. cbn in Hfull. rewrite orb_true_r in Hfull.
    destruct (TCPSender._fin_sended _); [|done]. pose proof (proj1 Hfin eq_refl). lia. }
  split; [done|]. rewrite Hnext in Fc. cbn in Fc, Fo, Fq. rewrite Fo, Fq.
  destruct (stamp_chain inb N peer outb M local HN Hp HM Hl _ added _ _ (s_inv (proj1 (sound_new inb N peer HN))) Fc) as [Hq Hc].
  do 3 (split; [done|]). apply TCPSender.chain_good in Fc. apply Forall_fmap. eapply Forall_impl; [exact Fc|]. by intros s [_ (_ & Hs' & _)].
Qed.

Lemma setup_state : ∃ s, Benchmark.setup config random_x random_y data = Ok s ∧ at_round 0 s.
Proof.
  destruct params as (H0 & HL & Hix & Hiy & Hcap). pose proof (Benchmark.c_send _ _ Hcfg) as Hcs. pose proof (Benchmark.c_timeout _ _ Hcfg) as Hct.
  pose proof (TCPConnection.connection_inv_new zero 0 iy letter L ix ltac:(lia) ltac:(lia) config random_x 0 Hcap Hcs Hct ltac:(lia) eq_refl) as Hnx.
  pose proof (TCPConnection.connection_inv_new letter L ix zero 0 iy ltac:(lia) ltac:(lia) config random_y 0 Hcap Hcs Hct ltac:(lia) eq_refl) as Hny.
  destruct (connect_fed zero 0 iy letter L ix H0 HL 0 _ Hnx eq_refl) as (x & Ex & Hix' & Hfx & Hfedx & Hwx & Hex & Hfullx).
  destruct (end_fed letter L ix zero 0 iy HL H0 0 _ Hny eq_refl eq_refl) as (y & Ey & Hiy' & Hfy & Hfedy & Hwy & Hey & Hfully).
  unfold Benchmark.setup. rewrite Ex, result_bind_ok, Ey, result_bind_ok. eexists. split; [done|].
  destruct (opened zero 0 iy letter L ix random_x x H0 HL Hiy Hix Hix' Hfullx Hfedx) as (Nx & Ox & Qx & Cx & Ax).
  destruct (opened letter L ix zero 0 iy random_y y HL H0 Hix Hiy Hiy' Hfully Hfedy) as (Ny & Oy & Qy & Cy & Ay).
  destruct Hfedx as [Rx _ Kx Wx Ntx _ _ Capx Gx Tx _]. destruct Hfedy as [Ry _ _ _ Nty _ _ _ Gy Ty _].
  destruct (sound_new zero 0 iy H0) as [Sx Px]. destruct (sound_new letter L ix HL) as [Sy Py]. cbn in Rx, Ry, Kx, Wx, Ntx, Nty, Tx, Ty, Capx.
  constructor; cbn [Benchmark.x Benchmark.y Benchmark.bytes_to_send Benchmark.x_closed].
  - constructor; unfold room, TCPSender.window_end; rewrite ?Rx, ?Ry, ?Nx, ?Ny, ?Kx, ?Wx, ?Ntx, ?Nty, ?Tx, ?Ty; cbn; try done; try lia.
    + by constructor; rewrite ?Rx, ?Ry, ?Nx, ?Ny, ?Gx, ?Gy.
    + unfold TCPSender.window_end in Hfullx. by rewrite Kx, Wx in Hfullx.
  - constructor; [by rewrite Hwx, Buffer.str_of_string | rewrite Hwx; change (0 <= 0 <= L); lia | apply Buffer.wf_of_string;
      lia | by rewrite Hex | done].
  - constructor; rewrite ?Tx, ?Ty; unfold last_round; lia.
Qed.

(** ** The two loops *)

(** What is known after [n] rounds, with what was received. *)
Definition reached (n : Z) (s : Benchmark.t) : Prop :=
  0 <= n ∧ at_round n s ∧ Buffer.wf (Benchmark.bytes_to_send s) ∧
  ∃ l, Benchmark.rel config random_x random_y data (Benchmark.x s) (Benchmark.y s) (Buffer.str (Benchmark.bytes_to_send s)) (Benchmark.string_received s) l.

Lemma loop_received reorder s s' : Benchmark.loop reorder s = Ok s' → Benchmark.string_received s `prefix_of` Benchmark.string_received s'.
Proof.
  intros ([x1 b1] & _ & H1)%result_bind_inv. apply result_bind_inv in H1 as ([x2 c2] & _ & H2).
  apply result_bind_inv in H2 as ([[x3 y3] q3] & _ & H3). apply result_bind_inv in H3 as ([[y4 x4] q4] & _ & H4). cbv zeta in H4.
  apply result_bind_inv in H4 as ([y5 got] & E5 & H5). apply result_bind_inv in H5 as (x6 & _ & H6). apply result_bind_inv in H6 as (y6 & _ & [= <-]).
  cbn. destruct (0 <? _); [|by injection E5 as _ <-]. apply result_bind_inv in E5 as ([y b] & _ & [= _ <-]). by exists b.
Qed.

Lemma reached_round n s reorder : reached n s → n < 9007199254740992 →
  ∃ s', Benchmark.loop reorder s = Ok s' ∧ reached (n + 1) s' ∧ (Benchmark.string_received s = data → Benchmark.string_received s' = data).
Proof.
  intros (Hn & Hat & Hb & l & Hr) Hbig. destruct (completion_round_spec n s reorder Hat Hn ltac:(lia)) as (s' & E & Hat').
  destruct (Benchmark.rel_loop config random_x random_y data Hcfg reorder s l Hr Hb) as (s2 & l' & E2 & Hr' & Hb').
  rewrite E in E2. injection E2 as <-. exists s'. split; [done|]. split; [split; [lia|]; split; [done|]; split; [done | by exists l']|].
  intros Hd. destruct (loop_received _ _ _ E) as [b Eb]. destruct (Benchmark.rel_received config random_x random_y data Hcfg _ _ _ _ _ Hr') as [Hp _].
  rewrite Eb, Hd in Hp |- *. apply (f_equal len) in Hp. rewrite !len_app in Hp.
  pose proof (len_nonneg b). pose proof (len_nonneg (ByteStream.contents (TCPConnection.inbound_stream (Benchmark.y s')))).
  assert (len (ztake (Link.assembled (Link.b l')) data) <= L) by (rewrite <- (ztake_zdrop (Link.assembled (Link.b l')) data) at 2;
    rewrite len_app; pose proof (len_nonneg (zdrop (Link.assembled (Link.b l')) data)); lia).
  rewrite (len_0_nil b) by lia. by rewrite app_nil_r.
Qed.

Lemma transfer_returns m reorder : ∀ n s, reached n s → L + 2 - n <= Z.of_nat m → n <= L + 2 →
  ∃ n' s', Benchmark.transfer m reorder data s = Ok s' ∧ reached n' s' ∧ n' <= L + 2 ∧ Benchmark.string_received s' = data.
Proof.
  destruct params as (_ & HL & _). induction m as [|m IH]; intros n s Hre Hm Hn; simpl;
    destruct (ByteStream.eof (TCPConnection.inbound_stream (Benchmark.y s))) eqn:Eof.
  1, 3: pose proof Hre as (_ & _ & _ & l & Hr); destruct (Benchmark.rel_received config random_x random_y data Hcfg _ _ _ _ _ Hr) as [_ Hd];
    rewrite (Hd Eof), bool_decide_true by done; exists n, s; split; [done|]; split; [done|]; split; [lia | by apply Hd].
  - pose proof Hre as (_ & Hat & _). rewrite (round_eof n s Hat) in Eof by lia. discriminate.
  - destruct (Z.lt_ge_cases n (L + 2)) as [Hlt|Hge]; [|pose proof Hre as (_ & Hat & _); rewrite (round_eof n s Hat) in Eof by lia; discriminate].
    destruct (reached_round n s reorder Hre ltac:(lia)) as (s1 & -> & Hre1 & _). rewrite result_bind_ok. apply (IH (n + 1)); [done | lia | lia].
Qed.

Lemma shut_down_returns m reorder : ∀ n s, reached n s → enough - n <= Z.of_nat m → n <= enough → Benchmark.string_received s = data →
  ∃ n' s', Benchmark.shut_down m reorder s = Ok s' ∧ reached n' s' ∧ Benchmark.string_received s' = data ∧
    TCPConnection.active (Benchmark.x s') = false ∧ TCPConnection.active (Benchmark.y s') = false.
Proof.
  destruct params as (_ & HL & _). pose proof (Benchmark.c_timeout _ _ Hcfg) as Hct.
  assert (enough < 9007199254740992) as Hen by (unfold enough; Z.div_mod_to_equations; lia).
  induction m as [|m IH]; intros n s Hre Hm Hn Hd; simpl; destruct (_ || _) eqn:Ea.
  2, 4: apply orb_false_iff in Ea as [Ex Ey]; exists n, s; done.
  - pose proof Hre as (_ & Hat & _). destruct (round_inactive n s Hat ltac:(lia)) as [Ex Ey]. unfold TCPConnection.active in Ea.
    by rewrite Ex, Ey in Ea.
  - destruct (Z.lt_ge_cases n enough) as [Hlt|Hge].
    + destruct (reached_round n s reorder Hre ltac:(lia)) as (s1 & -> & Hre1 & Hd1). rewrite result_bind_ok. apply (IH (n + 1));
        [done | lia | lia | by apply Hd1].
    + pose proof Hre as (_ & Hat & _). destruct (round_inactive n s Hat Hge) as [Ex Ey]. unfold TCPConnection.active in Ea. by rewrite Ex, Ey in Ea.
Qed.

Lemma main_loop_returns rounds reorder : enough <= Z.of_nat rounds →
  ∃ s, Benchmark.main_loop rounds reorder config random_x random_y data = Ok s ∧ Benchmark.string_received s = data ∧
    TCPConnection.active (Benchmark.x s) = false ∧ TCPConnection.active (Benchmark.y s) = false ∧
    TCPConnection.failed (Benchmark.x s) = false ∧ TCPConnection.failed (Benchmark.y s) = false.
Proof.
  intros Hm. pose proof (len_nonneg data) as HL. pose proof (Benchmark.c_timeout _ _ Hcfg) as Hct.
  assert (L + 6 <= enough) as Hen by (unfold enough; Z.div_mod_to_equations; lia).
  destruct (Benchmark.setup_rel config random_x random_y data Hcfg) as (s & l & E & Hr & Hb).
  destruct setup_state as (s0 & E0 & Hat). rewrite E in E0. injection E0 as <-. unfold Benchmark.main_loop. rewrite E, result_bind_ok.
  assert (reached 0 s) as Hre by (split; [done|]; split; [done|]; split; [done | by exists l]).
  destruct (transfer_returns rounds reorder 0 s Hre) as (n1 & s1 & -> & Hre1 & Hn1 & Hd1); [lia | lia|]. rewrite result_bind_ok.
  destruct (shut_down_returns rounds reorder n1 s1 Hre1) as (n2 & s2 & -> & Hre2 & Hd2 & Ax & Ay); [pose proof (proj1 Hre1); lia | lia | done|].
  exists s2. do 4 (split; [done|]). apply (bo_ok _ _ (st_both _ _ _ (ar_state _ _ (proj1 (proj2 Hre2))))).
Qed.

End Rounds.

(** ** Properties *)

(** C5: The benchmark terminates successfully.  For every configuration with room for a byte on both sides, every pair of
    strings short enough for the sequence numbers and all random numbers, a number of rounds that is linear in the length of
    the strings, and in the time the connections linger, is enough: [main] returns [EXIT_SUCCESS].  In order, and with the
    segments of every round reversed, each of its runs ends with the whole string received and with
    both connections closed, and neither of them was ever reset, although the timers of both may expire in every round. *)
Theorem benchmark_completes (config : TCPConfig.t) (random : nat → Z) (data1 data2 : bytes) (rounds : nat) :
  Benchmark.config_ok config data1 → Benchmark.config_ok config data2 → 0 < TCPConfig.send_capacity config →
  Z.max (len data1) (len data2) + 6 + TCPConfig.rt_timeout config / 100 <= Z.of_nat rounds →
  Benchmark.main rounds config random data1 data2 = Ok EXIT_SUCCESS ∧
  ∀ reorder random_x random_y data, data = data1 ∨ data = data2 →
    ∃ s, Benchmark.main_loop rounds reorder config random_x random_y data = Ok s ∧ Benchmark.string_received s = data ∧
      TCPConnection.active (Benchmark.x s) = false ∧ TCPConnection.active (Benchmark.y s) = false ∧
      TCPConnection.failed (Benchmark.x s) = false ∧ TCPConnection.failed (Benchmark.y s) = false.
Proof.
  intros H1 H2 Hs Hr. split.
  - unfold Benchmark.main.
    destruct (main_loop_returns config (random 0%nat) (random 1%nat) data1 H1 Hs rounds false) as (s1 & -> & _); [unfold enough; lia|].
    rewrite result_bind_ok.
    destruct (main_loop_returns config (random 2%nat) (random 3%nat) data2 H2 Hs rounds true) as (s2 & -> & _); [unfold enough; lia | done].
  - intros reorder rx ry data [->| ->]; (apply main_loop_returns; [done | done | unfold enough; lia]).
Qed.

(** The small benchmark: twelve bytes through windows of eight. *)
Lemma benchmark_completes_witness :
  Benchmark.main 18 Benchmark.small_config Z.of_nat Benchmark.small_data Benchmark.small_data = Ok EXIT_SUCCESS ∧
  ∃ s, Benchmark.main_loop 18 true Benchmark.small_config 4294967290 17 Benchmark.small_data = Ok s ∧
    Benchmark.string_received s = Benchmark.small_data.
Proof.
  destruct (benchmark_completes Benchmark.small_config Z.of_nat Benchmark.small_data Benchmark.small_data 18
    Benchmark.small_config_ok Benchmark.small_config_ok eq_refl ltac:(vm_compute; discriminate)) as [Hm Hl].
  split; [exact Hm|]. destruct (Hl true 4294967290 17 Benchmark.small_data (or_introl eq_refl)) as (s & E & Hd & _).
  exists s. split; [exact E | exact Hd].
Defined.

End Completion.
